(* ===== verification/_CoqProject ===== *)
-Q . S2P
Prelude.v
Word.v
DlpTypes.v
ThreadUtils.v
Barrier.v
PrimeFactors.v
ThreadHeur.v
PostOpTypes.v
PostOps.v
QuantOps.v
GetThreading.v
Config.v
Runtime.v
ThreadDecor.v
ByteStore.v
ReorderLayout.v
Reorder.v
GemmDriver.v
TeamMachine.v
TeamCorrect.v
GemmCalls.v
ReorderedTeam.v
PackedTeam.v
PackedDriver.v
GemvTeam.v
RefKernels.v
GemmResult.v
Simd.v
PackB8.v
PackB8Ok.v
PackB8Col.v
PackB8Laws.v
PackB16.v
PackB16Ok.v
UnpackB16.v
ReorderBf16.v
PackA8.v
PackA8Ok.v
PackA8Row.v
PackLaws.v
ReorderInt8.v
GemmCheck.v
Fp16.v
KernelSelect.v
Api.v
ApiResult.v
ApiBatch.v
ApiReorder.v
ApiReorderRef.v
ApiReorderBf16.v
ApiF32.v
ApiHalf.v
