(* ===== verification/Prelude.v ===== *)
(** * A verification library for AOCL-DLP

    AOCL-DLP computes matrix products for deep learning on x86 processors, with fused
    operations on the result.  This library models the C frame around its kernels:
    everything that decides what is computed, where, by which thread and with which
    arguments.  The definitions are translated from the sources function by function
    and keep their names; they are executable, and the theorems are about them.

    ** The program and the files

    A call of an entry point goes through the parts in this order.

    - Entry points (classic/aocl_gemm_*.c).  [Api] models the twelve functions of the
      8-bit integer products: the checks, the exchange of the operands of a
      column-major call, the tags, the translation of the post-ops, the context, the
      choice of the decorator.  A call ends [Undefined] (undefined behaviour in C),
      in an [Error] (the code stored in the metadata), or in a launch.  [ApiF32] adds
      the f32 product, which is rearranged to avoid packing, and the tiny path, and
      [ApiHalf] the five functions of the 16-bit products.  [ApiResult] composes a
      launch with the drivers and the kernels.  [ApiBatch] models the ten batch functions
      of the 8-bit products: the loop over the groups and the error codes of all of them.
    - Argument checks (classic/include/aocl_dlp_gemm_check.h): [GemmCheck], the macros
      as ordered chains of guards.
    - Metadata (include/classic/aocl_gemm_metadata.h): [PostOpTypes], the structures
      and the [outcome] monad; [PostOps], the translation into linked nodes
      (classic/frame/dlp_gemm_post_ops.c) with the GLU terminal operation; [QuantOps],
      grouped and weight-only quantization.
    - Runtime (classic/frame/runtime/dlp_runtime.c): [Runtime].  The settings of the
      library are shared by all threads, so each function is a program over atomic
      accesses ([prog]) that runs alone ([run]) or in any interleaving ([run_sched]).
    - Contexts (classic/config/): [Config], the tables of block sizes of each machine,
      their initialisation, the merge of the caller's blocking and its validation.
    - Kernel selection (capi_kernel_frame_wrappers.cc): [KernelSelect].  The decision
      engine is the class [KernelFrame] with the laws [KernelFrameLaws].
    - Threads (dlp_gemm_thread_decor_openmp.c): [PrimeFactors] and [ThreadHeur], the
      shape of a team; [GetThreading], the number of threads and the ways of each
      type; [ThreadDecor], the decorators, which launch one call per thread.
    - Thread utilities (dlp_gemm_thread_utils.h, .c): [ThreadUtils], which part of
      the matrix a thread owns; [Barrier], the sense-reversing barrier as a step
      relation over its atomic accesses.
    - The drivers (classic/frame/s8s8s32/dlp_gemm_s8s8s32.c, u8s8s32/dlp_gemm_u8s8s32.c):
      [GemmDriver], the trace of one thread: allocations, barriers, packing and kernel
      calls with their arguments, of the five loops and of the products with a vector.
      [TeamMachine] runs the traces of a team: [team_step] is one action of one
      thread, or a barrier all threads of a group have reached; a buffer is bytes, and
      an action on bytes outside it is undefined.  [TeamCorrect] has the invariant
      method for this machine (safe, never stuck, ends, and what C holds then), and
      [GemmCalls] which tiles the kernel calls of a thread cover.  [ReorderedTeam] and
      [PackedTeam] with [PackedDriver] prove the invariant for a B that was reordered
      and for one the threads of a group pack together, [GemvTeam] for a product with
      a vector; [RefKernels] are kernels that keep the contract; [GemmResult] puts the
      cases together.
    - Packing kernels of the 8-bit types (classic/kernels/zen4/s8s8s32, u8s8s32):
      [Simd], the AVX-512 intrinsics on registers as lists of bytes; [PackB8], the kernels
      that pack B by rows and by columns, with the column sums, proved in [PackB8Ok],
      [PackB8Col] and [PackB8Laws]; [PackA8], those that pack A, proved in [PackA8Ok] (a
      block stored by columns) and [PackA8Row] (by rows); [PackLaws] puts the kernel of A
      under the drivers, which call it through the context.  The B kernels are not called
      by these drivers, which pack B with a generated kernel, but by the symmetric
      quantization, mixed and 4-bit paths.
    - Packing kernels of bf16 (classic/kernels/zen4/bf16bf16f32): [PackB16], the kernels
      that pack B and those that unpack it, proved in [PackB16Ok] and [UnpackB16] with the
      column split and the transposition of the 8-bit ones.
    - Reorder functions (classic/aocl_gemm_*8s8s32os32_utils.c, frame/*/dlp_gemm_reorder*.c):
      [ReorderInt8], the parallel packing of B into the caller's buffer, and
      [ApiReorder], the size query and the two functions; [ApiReorderRef], the reference
      functions and size queries of the five element types (classic/*_utils.c).
      [ReorderBf16] is the region of threads that packs or unpacks a bf16 matrix
      (frame/bf16bf16f32/dlp_gemm_reorder_bf16.c), [ApiReorderBf16] its two functions of
      the API.
    - Reordering (dlp_gemm_reorder_layout.h, dlp_gemm_reorder_ref.c): [ByteStore],
      memory as bytes and the interleavings of stores; [ReorderLayout], positions in
      the packed matrix; [Reorder], the reference reorder and unreorder.
    - Conversions (include/classic/aocl_fp16_convert.h): [Fp16].

    [Prelude] has the lemmas on C division, loops and lists and the hint database
    [dlp]; [Word] the integers modulo a power of two; [DlpTypes] the enums and structs
    shared by all parts.

    ** The theorems

    - The result.  [ApiResult.int8_os32_call_computes] goes from the arguments of a call
      to the elements of C, for both storage orders, transposed or not, B plain or
      reordered, with or without post-ops, which are applied to each element once;
      [GemmResult.int8_gemm_team_product] is its core for any team and blocking, and
      [ApiBatch.int8_batch_computes] says the same of every product of a batch, its team
      run by itself, but for the groups stored by columns whose needless request to pack
      is kept.  They say that no interleaving of the threads does an undefined action or
      gets stuck, and that every run ends.  The kernels, and what a post-op does to a
      value, enter by their contract; a product with one row and more than one column
      needs blocks that fit the packed layout, which the calls do not check.  A reordered B is what
      [ApiReorder.int8_reorder_ready] and [ApiReorderRef.int8_reference_ready] say a
      reorder call leaves.  They rest on [ThreadUtils.task_range_exact_cover] and
      [ThreadUtils.thread_grid_cover] (each element has one thread), and on
      [ThreadDecor.decorator_launch_ok] and its relatives for batches (a launch is a
      complete team with communicators of its own).
    - Packing.  [PackB8Laws.intrinsics_packb_reference] compares the kernels for B with
      the reference packer byte by byte; [PackA8Ok.packa_columns_exact] says what the
      kernel for A does with a block stored by columns, [PackA8Row.packa_rows_whole_steps]
      with one stored by rows, where it leaves its buffer unless the width is a multiple
      of 64; with the former [PackLaws.int8_gemm_packa_product] states the product of the
      drivers with the generated kernels, which pack B and multiply, taken by their
      contract.  [ReorderBf16.bf16_reorder_reference] makes the comparison for the bf16
      kernels and the threads that call them, on legal blocks and for a full team.
    - Calls.  [Api.int8_gemm_calls_sound], [ApiF32.f32_call_sound] and
      [ApiHalf.half_calls_sound] say what a call can end in: an error, or a launch that
      addresses the caller's product; [Api.accepted_calls_exact] which calls are taken
      up; [ApiF32.f32_reordered_vector_misread] is a call that is launched wrongly.
    - Batches.  [ApiBatch.batch_calls_sound] says which groups are launched and what the
      metadata of each group gets, for arrays of pointers with an element per group as
      well as per product ([ApiBatch.batch_empty_group_reads_past] is a call without); [ApiBatch.batch_group_as_single] where a group and a
      single call differ.
    - Errors.  [GemmCheck.gemm_check_exact] and [GemmCheck.gemm_check_explained]: a
      rejection names an argument that is wrong, the first one, but that a null A gets
      the number of [alpha];
      [PostOps.post_ops_translation_defined]: no metadata of the documented lengths
      makes the translators leave its arrays.
    - Concurrency.  [Barrier.barrier_separates] and [Barrier.barrier_progress];
      [Runtime.set_ways_read_atomic], and the lost update that is possible.  The read is
      atomic for a call that sets the ways; one that unsets them has one mixed outcome.
    - Refinement.  [PostOps.post_ops_translation_refines],
      [Runtime.update_priority_order_spec] and [Reorder.ref_reorder_layout] relate the
      code to a specification without counters, ordering of stores or loops.
    - Round trips and rounding.  [Reorder.reorder_unreorder_roundtrip] for the loops,
      [ApiReorderRef.reference_reorder_roundtrip] for the calls,
      [ApiReorderBf16.bf16_api_roundtrip] for those with the kernels of the processor, on
      legal blocks, which they do not check, and for full teams,
      [Fp16.fp16_roundtrip]; [Fp16.f32_to_fp16_nearest_even].
    - Decisions.  [GetThreading.get_threading_valid] and the batch form, the tile and
      block arithmetic of [Config], [PrimeFactors.dlp_thread_partition_2x2_product].

    A theorem with hypotheses is followed by a [_witness] that applies it to a
    concrete input.

    ** Conventions

    - [md_t] and [iter_t] (64-bit) are unbounded [Z]: the entry points bound every
      dimension and leading dimension by [INT32_MAX].  Two computations can leave the
      type.  No check bounds the block sizes of the caller, so
      [Config.upd_cntx_with_metadata_spec] assumes that the sums of the merge fit
      ([merge_in_range]), and what is said of calls is for such metadata; the product
      [m * n * k] of the tests for small products has an arbitrary value when it
      overflows ([Api.md_mul]).  [int32_t] accumulators, packed
      ways, buffer sizes ([msz_t]) and all of [Fp16] are kept at their width.
    - An access outside an array, a division by zero or an illegal shift makes the
      function [None] or [Undefined]; the safety theorems exclude it.
    - Loops that count run on fuel computed from their bounds ([loop_fuel] is the
      length of the range, one step per index at most); the factor loops of
      [PrimeFactors] on the number itself.  Every use is covered by a theorem that the
      function returns, so the fuel is never the reason for a [None].
    - Pointers to matrices are offsets into the caller's buffers ([ptr]).

    ** Interfaces, and what they stand for

    - [kernels], [kernel_laws]: what one call of a packing kernel or of a GEMM kernel
      does to its buffer or to its tile of C, with the bytes it may touch; the post-op list
      of a kernel call works on the values of the last k block, by a function [epilogue]
      of the kernels.  [RefKernels.ref_kernels] is a program that satisfies them, and
      [PackLaws.packa_kernels] has the packing kernel of A of the library in it.
    - [omp_team]: the number of threads the OpenMP runtime spawns; a build without OpenMP
      is the argument [openmp = false].
    - [bf16_packer], [packer_packs]: the generated packing kernel of bf16, which packs a
      panel as [packs_panel] says; the kernel with intrinsics does.
    - [KernelFrame], [KernelFrameLaws]: the answers of the decision engine, the kernel
      registry and the code generator.
    - [ThreadingPolicy] and [BatchThreadingPolicy]: what a decision on threads promises
      to the decorators; every function of [GetThreading] is an instance.
    - [platform], [cpu_features], [rt_env], [decor_env], [api_env]: the answers of the
      processor, the environment variables, the OpenMP runtime and the allocator.

    ** Not modelled, and why

    - The micro-kernels (classic/kernels), the packing kernels of the other types, and
      the paths of the u8 packing kernels that unpack 4-bit elements.
    - The C++ code generator, kernel registry and decision engine (src/): reached
      through opaque handles.
    - Logging, and the messages printed with an error: output only.
    - The drivers of the other types, the weight-only, symmetric-quantization, mixed and
      element-wise entry points, and the batch entry points of the other types: to come,
      in this order; they share the decorators, the translations, the contexts and the
      checks modelled here.
    - The tuned reorder functions of f32 and f16, whose reference functions are modelled,
      and the bf16 reorders from 4-bit and from float elements. *)
From stdpp Require Export prelude list numbers option.
From Stdlib Require Export ZArith Lia.

#[global] Open Scope Z_scope.

(** ** C integer arithmetic

    [md_t] and [iter_t] are [int64_t]: division truncates towards zero.  The C
    operators [/] and [%] are stdpp's [`quot`] and [`rem`]; the lemmas below
    move to floor division when the operands are nonnegative. *)

Create HintDb dlp.

Lemma cquot_nonneg (a b : Z) : 0 <= a -> 0 < b -> a `quot` b = a / b.
Proof. intros. by apply Z.quot_div_nonneg. Qed.

Lemma crem_nonneg (a b : Z) : 0 <= a -> 0 < b -> a `rem` b = a mod b.
Proof. intros. by apply Z.rem_mod_nonneg. Qed.

#[export] Instance Z_divide_dec (a b : Z) : Decision (a | b).
Proof.
  destruct (decide (a = 0)) as [->|Ha].
  - destruct (decide (b = 0)) as [->|Hb]; [left; apply Z.divide_0_r|right].
    intros [c Hc]. lia.
  - destruct (decide (b mod a = 0)) as [H|H]; [left|right];
      [by apply Z.mod_divide|by intros ?%Z.mod_divide].
Defined.

(** Replace every C division whose operands are provably nonnegative. *)
Ltac cdiv :=
  repeat match goal with
  | |- context [Z.quot ?a ?b] => rewrite (cquot_nonneg a b) by (lia || nia)
  | |- context [Z.rem ?a ?b] => rewrite (crem_nonneg a b) by (lia || nia)
  | H : context [Z.quot ?a ?b] |- _ => rewrite (cquot_nonneg a b) in H by (lia || nia)
  | H : context [Z.rem ?a ?b] |- _ => rewrite (crem_nonneg a b) in H by (lia || nia)
  end.

(** Linear arithmetic with the division equations made available. *)
Ltac dlia := Z.to_euclidean_division_equations; lia.
Ltac dnia := Z.to_euclidean_division_equations; nia.

(** Case analysis on the boolean integer comparisons of the goal or of a
    hypothesis, as the C conditionals are modelled by them. *)
Ltac zcase :=
  match goal with
  | |- context [Z.eqb ?a ?b] => destruct (Z.eqb_spec a b)
  | |- context [Z.ltb ?a ?b] => destruct (Z.ltb_spec a b)
  | |- context [Z.leb ?a ?b] => destruct (Z.leb_spec a b)
  end.

Ltac zcase_in H :=
  match type of H with
  | context [Z.eqb ?a ?b] => destruct (Z.eqb_spec a b)
  | context [Z.ltb ?a ?b] => destruct (Z.ltb_spec a b)
  | context [Z.leb ?a ?b] => destruct (Z.leb_spec a b)
  end.

(** The value of [cdiv] rounding up used all over the threading code,
    [(x + b - 1) / b]. *)
Lemma ceil_div_bounds (x b : Z) :
  0 <= x -> 0 < b -> x <= b * ((x + b - 1) / b) < x + b.
Proof. intros. dnia. Qed.

Lemma ceil_div_pos (x b : Z) : 0 < x -> 0 < b -> 1 <= (x + b - 1) `quot` b.
Proof. intros. cdiv. dnia. Qed.

(** ** Consecutive intervals

    [f 0 <= f 1 <= ... <= f N] cut [f 0, f N) into [N] intervals: every point
    lies in exactly one of them.  Used for the partition of loop ranges among
    threads. *)
Section intervals.
Context (f : Z -> Z) (N : Z).
Hypothesis HN : 0 <= N.
Hypothesis Hmono : forall w, 0 <= w < N -> f w <= f (w + 1).

Lemma interval_le (a b : Z) : 0 <= a -> a <= b -> b <= N -> f a <= f b.
Proof using HN Hmono.
  intros Ha Hab. pattern b. apply Zlt_lower_bound_ind with (z := a); [|done].
  intros x IH Hx HxN. destruct (decide (x = a)) as [->|]; [lia|].
  transitivity (f (x - 1)); [apply IH; lia|].
  replace x with (x - 1 + 1) at 2 by lia. apply Hmono. lia.
Qed.

Lemma interval_exists (j : Z) :
  f 0 <= j < f N -> exists w, 0 <= w < N /\ f w <= j < f (w + 1).
Proof using HN Hmono.
  intros Hj.
  assert (forall k, 0 <= k -> k <= N -> j < f k ->
            exists w, 0 <= w < k /\ f w <= j < f (w + 1)) as Hk.
  { intros k Hk. pattern k. apply natlike_ind; [lia| |done].
    intros x Hx IH HxN Hjx. destruct (decide (j < f x)) as [Hlt|Hge].
    - destruct IH as (w & Hw & Hjw); [lia|done|]. exists w. split; [lia|done].
    - exists x. unfold Z.succ in *. lia. }
  apply (Hk N); lia.
Qed.

Lemma interval_unique (w1 w2 j : Z) :
  0 <= w1 < N -> 0 <= w2 < N ->
  f w1 <= j < f (w1 + 1) -> f w2 <= j < f (w2 + 1) -> w1 = w2.
Proof using HN Hmono.
  intros H1 H2 Hj1 Hj2. destruct (Z.lt_trichotomy w1 w2) as [Hlt|[->|Hlt]]; [|done|].
  - pose proof (interval_le (w1 + 1) w2 ltac:(lia) ltac:(lia) ltac:(lia)). lia.
  - pose proof (interval_le (w2 + 1) w1 ltac:(lia) ltac:(lia) ltac:(lia)). lia.
Qed.
End intervals.

(** ** Counting the elements of a list that satisfy a test *)

Section cnt.
Context {A : Type}.
Implicit Types (f : A -> bool) (l : list A).

Definition cnt f l : Z := foldr (fun x n => Z.b2z (f x) + n) 0 l.

Lemma cnt_bounds f l : 0 <= cnt f l <= Z.of_nat (length l).
Proof. induction l as [|x l IH]; simpl; [lia|]. destruct (f x); simpl; lia. Qed.

Lemma cnt_insert f l i x y :
  l !! i = Some y -> cnt f (<[i := x]> l) = cnt f l - Z.b2z (f y) + Z.b2z (f x).
Proof.
  revert i. induction l as [|z l IH]; intros [|i]; simpl; try done.
  - intros [= ->]. lia.
  - intros Hi. rewrite (IH i Hi). lia.
Qed.

Lemma cnt_pos f l i y : l !! i = Some y -> f y = true -> 1 <= cnt f l.
Proof.
  revert i. induction l as [|z l IH]; intros [|i]; simpl; try done.
  - intros [= ->] ->. pose proof (cnt_bounds f l). simpl. lia.
  - intros Hi Hf. specialize (IH i Hi Hf). destruct (f z); simpl; lia.
Qed.

Lemma cnt_zero f l i y : cnt f l = 0 -> l !! i = Some y -> f y = false.
Proof.
  intros H0 Hi. destruct (f y) eqn:E; [|done]. pose proof (cnt_pos f l i y Hi E). lia.
Qed.

Lemma cnt_full f l i y : cnt f l = Z.of_nat (length l) -> l !! i = Some y -> f y = true.
Proof.
  revert i. induction l as [|z l IH]; intros [|i]; simpl; try done.
  - intros Hc [= ->]. pose proof (cnt_bounds f l). destruct (f y); simpl in *; [done|lia].
  - intros Hc. pose proof (cnt_bounds f l). apply IH. destruct (f z); simpl in *; lia.
Qed.

Lemma cnt_one f l i j x y :
  cnt f l = 1 -> l !! i = Some x -> f x = true -> l !! j = Some y -> j <> i -> f y = false.
Proof.
  intros H1 Hi Hx Hj Hne. destruct (f y) eqn:E; [|done].
  revert i j H1 Hi Hj Hne. induction l as [|z l IH]; intros [|i] [|j]; simpl; try done.
  - intros H1 [= ->] Hj _. rewrite Hx in H1. simpl in H1.
    pose proof (cnt_pos f l j y Hj E). lia.
  - intros H1 Hi [= ->] _. rewrite E in H1. simpl in H1.
    pose proof (cnt_pos f l i x Hi Hx). lia.
  - intros H1 Hi Hj Hne. pose proof (cnt_pos f l i x Hi Hx).
    apply (IH i j); try done; [|lia]. destruct (f z); simpl in *; lia.
Qed.

Lemma cnt_exists f l : 1 <= cnt f l -> exists i x, l !! i = Some x /\ f x = true.
Proof.
  induction l as [|z l IH]; simpl; [lia|]. intros H. destruct (f z) eqn:E.
  - by exists 0%nat, z.
  - destruct IH as (i & x & Hi & Hx); [simpl in H; lia|]. by exists (S i), x.
Qed.

Lemma cnt_not_full f l :
  cnt f l < Z.of_nat (length l) -> exists i x, l !! i = Some x /\ f x = false.
Proof.
  induction l as [|z l IH]; simpl; [lia|]. intros H. destruct (f z) eqn:E.
  - destruct IH as (i & x & Hi & Hx); [simpl in H; lia|]. by exists (S i), x.
  - by exists 0%nat, z.
Qed.

(** The sum of a measure over a list. *)
Definition total (f : A -> Z) l : Z := foldr (fun x n => f x + n) 0 l.

Lemma total_insert (m : A -> Z) l i x y :
  l !! i = Some y -> total m (<[i := x]> l) = total m l - m y + m x.
Proof.
  revert i. induction l as [|z l IH]; intros [|i]; simpl; try done.
  - intros [= ->]. lia.
  - intros Hi. rewrite (IH i Hi). lia.
Qed.

Lemma total_nonneg (m : A -> Z) l : (forall x, 0 <= m x) -> 0 <= total m l.
Proof. intros H. induction l as [|x l IH]; simpl; [lia|]. specialize (H x). lia. Qed.

Lemma cnt_ext f g l : (forall x, x ∈ l -> f x = g x) -> cnt f l = cnt g l.
Proof.
  induction l as [|x l IH]; intros H; simpl; [done|].
  rewrite (H x), IH; [done| |left]. intros y Hy. apply H. by right.
Qed.

Lemma cnt_false f l : (forall i x, l !! i = Some x -> f x = false) -> cnt f l = 0.
Proof.
  induction l as [|x l IH]; intros H; simpl; [done|].
  rewrite (H 0%nat x) by done. simpl. apply IH. intros i y Hi. by apply (H (S i)).
Qed.
End cnt.

(** ** Loops with a step

    [for (i = lo; i < hi; i += step)] as the concatenation of what its iterations
    emit; [None] when the fuel runs out or an iteration fails.  [loop_fuel] is
    enough whenever the step is positive. *)
Fixpoint for_upto {A} (fuel : nat) (i hi step : Z) (body : Z -> option (list A)) : option (list A) :=
  match fuel with
  | O => None
  | S fuel =>
      if i <? hi then
        l ← body i;
        r ← for_upto fuel (i + step) hi step body;
        Some (l ++ r)
      else Some []
  end.

(** A loop over a list of values of its variable. *)
Definition for_each {A B} (bs : list B) (body : B -> option (list A)) : option (list A) :=
  ls ← mapM body bs; Some (concat ls).

Definition loop_fuel (lo hi : Z) : nat := S (Z.to_nat (hi - lo)).

Lemma for_upto_ext {A} (f g : Z -> option (list A)) fuel i hi step :
  (forall x, f x = g x) -> for_upto fuel i hi step f = for_upto fuel i hi step g.
Proof.
  intros H. revert i. induction fuel as [|fuel IH]; intros i; [done|]. cbn [for_upto].
  rewrite H. destruct (i <? hi); [|done]. destruct (g i); [|done]. cbn. by rewrite IH.
Qed.

(** The blocks a loop over [[0, hi)] visits are the blocks of its points. *)
Lemma loop_blocks hi step :
  0 < step -> forall (Y : Z -> Prop),
  (exists t, 0 <= t /\ 0 + t * step < hi /\ Y (0 + t * step)) <->
  (exists p, 0 <= p < hi /\ Y (step * (p / step))).
Proof.
  intros Hs Y. split.
  - intros (t & Ht & Hlt & HY). exists (t * step). rewrite Z.div_mul by lia.
    split; [lia|]. by rewrite Z.mul_comm.
  - intros (p & Hp & HY). exists (p / step).
    pose proof (Z.div_mod p step). pose proof (Z.mod_pos_bound p step).
    assert (0 <= p / step) by (apply Z.div_pos; lia). split; [done|split; [lia|]].
    by rewrite Z.add_0_l, Z.mul_comm.
Qed.

(** A property of the emitted list that is indexed by a set and closed under
    concatenation is established iteration by iteration. *)
Section loops.
Context {A : Type} (Q : (Z -> Prop) -> list A -> Prop).
Hypothesis Qnil : forall X, (forall a, ~ X a) -> Q X [].
Hypothesis Qapp : forall X Y Z l l',
  (forall a, Z a <-> X a \/ Y a) -> Q X l -> Q Y l' -> Q Z (l ++ l').

Lemma for_upto_ok (fuel : nat) (i hi step : Z) (body : Z -> option (list A)) (X : Z -> Z -> Prop) :
  0 < step -> Z.max 0 (hi - i) < Z.of_nat fuel ->
  (forall t, 0 <= t -> i + t * step < hi ->
     exists l, body (i + t * step) = Some l /\ Q (X (i + t * step)) l) ->
  exists l, for_upto fuel i hi step body = Some l /\
    Q (fun a => exists t, 0 <= t /\ i + t * step < hi /\ X (i + t * step) a) l.
Proof using Qnil Qapp.
  intros Hs. revert i. induction fuel as [|fuel IH]; intros i Hf Hb; simpl; [lia|].
  destruct (Z.ltb_spec i hi).
  - destruct (Hb 0) as (l & Hl & HQ); [lia..|]. rewrite Z.mul_0_l, Z.add_0_r in Hl, HQ.
    destruct (IH (i + step)) as (r & Hr & HR); [lia| |].
    { intros t Ht Hlt. replace (i + step + t * step) with (i + (t + 1) * step) in * by lia.
      apply Hb; lia. }
    rewrite Hl; simpl. rewrite Hr; simpl. eexists. split; [done|].
    eapply Qapp; [|exact HQ|exact HR]. intros a. split.
    + intros (t & Ht & Hlt & HX). destruct (decide (t = 0)) as [->|].
      { left. by rewrite Z.mul_0_l, Z.add_0_r in HX. }
      right. exists (t - 1).
      replace (i + step + (t - 1) * step) with (i + t * step) by lia. split; [lia|done].
    + intros [HX|(t & Ht & Hlt & HX)].
      { exists 0. rewrite Z.mul_0_l, Z.add_0_r. split; [lia|done]. }
      exists (t + 1). replace (i + (t + 1) * step) with (i + step + t * step) by lia.
      split; [lia|done].
  - exists []. split; [done|]. apply Qnil. intros a (t & Ht & Hlt & _). nia.
Qed.

Lemma for_each_ok {B} (f : B -> option (list A)) (X : B -> Z -> Prop) (bs : list B) :
  (forall b, b ∈ bs -> exists l, f b = Some l /\ Q (X b) l) ->
  exists l, for_each bs f = Some l /\ Q (fun a => exists b, b ∈ bs /\ X b a) l.
Proof using Qnil Qapp.
  unfold for_each. induction bs as [|b bs IH]; intros Hb.
  - exists []. split; [done|]. apply Qnil. by intros a (b & ?%elem_of_nil & _).
  - destruct (Hb b) as (l & Hl & HQ); [left|]. destruct IH as (r & Hr & HR).
    { intros b' Hb'. apply Hb. by right. }
    apply bind_Some in Hr as (rs & Hrs & [= <-]). exists (l ++ concat rs). split.
    + cbn. rewrite Hl; cbn. by rewrite Hrs.
    + eapply Qapp; [|exact HQ|exact HR]. intros a. setoid_rewrite elem_of_cons. naive_solver.
Qed.
End loops.

(** The values the variable of such a loop takes. *)
Definition loop_points (lo hi step : Z) : list Z :=
  (fun t => lo + t * step) <$> seqZ 0 ((hi - lo + step - 1) / step).

Lemma loop_points_unfold lo hi step :
  0 < step ->
  loop_points lo hi step = if lo <? hi then lo :: loop_points (lo + step) hi step else [].
Proof.
  intros Hs. unfold loop_points. destruct (Z.ltb_spec lo hi) as [Hlt|Hge].
  - replace (hi - lo + step - 1) with (hi - (lo + step) + step - 1 + 1 * step) by lia.
    rewrite Z.div_add by lia. set (c := (hi - (lo + step) + step - 1) / step).
    assert (0 <= c) by (apply Z.div_pos; lia).
    rewrite seqZ_cons by lia. cbn [fmap list_fmap]. f_equal; [lia|].
    replace (Z.succ 0) with (1 + 0) by lia. replace (Z.pred (c + 1)) with c by lia.
    rewrite <- fmap_add_seqZ, <- list_fmap_compose. apply list_fmap_ext. intros i x _. simpl. lia.
  - rewrite seqZ_nil; [done|]. enough ((hi - lo + step - 1) / step < 1) by lia.
    apply Z.div_lt_upper_bound; lia.
Qed.

Lemma loop_points_elem lo hi step x :
  0 < step -> x ∈ loop_points lo hi step <-> exists t, 0 <= t /\ x = lo + t * step /\ x < hi.
Proof.
  intros Hs. unfold loop_points. rewrite list_elem_of_fmap. setoid_rewrite elem_of_seqZ.
  pose proof (Z.div_mod (hi - lo + step - 1) step ltac:(lia)).
  pose proof (Z.mod_pos_bound (hi - lo + step - 1) step Hs). split.
  - intros (t & -> & Ht). exists t. nia.
  - intros (t & Ht & -> & Hlt). exists t. split; [done|]. nia.
Qed.

(** A relation between a family of lists and the emitted list that is closed
    under concatenation holds for a loop if it holds for its iterations. *)
Section loop_seq.
Context {A B X : Type} (Q : (X -> list B) -> list A -> Prop).
Hypothesis Qnil : Q (fun _ => []) [].
Hypothesis Qapp : forall S T l l', Q S l -> Q T l' -> Q (fun x => S x ++ T x) (l ++ l').

Lemma for_upto_seq fuel lo hi step (body : Z -> option (list A)) (G : Z -> X -> list B) :
  0 < step -> Z.max 0 (hi - lo) < Z.of_nat fuel ->
  (forall x, x ∈ loop_points lo hi step -> exists l, body x = Some l /\ Q (G x) l) ->
  exists l, for_upto fuel lo hi step body = Some l /\
    Q (fun x => foldr (fun t r => G t x ++ r) [] (loop_points lo hi step)) l.
Proof using Qnil Qapp.
  intros Hs. revert lo. induction fuel as [|fuel IH]; intros lo Hf Hb; [lia|]. cbn [for_upto].
  rewrite loop_points_unfold in * by done. destruct (Z.ltb_spec lo hi); [|by exists []].
  destruct (Hb lo) as (l & -> & HQ); [left|]. destruct (IH (lo + step)) as (r & Hr & HR); [lia| |].
  { intros x Hx. apply Hb. by right. }
  cbn. rewrite Hr. cbn. eexists. split; [done|]. by apply (Qapp _ _ _ _ HQ HR).
Qed.
End loop_seq.

(** Only the iteration whose block holds [x] contributes. *)
Lemma loop_points_select {B} lo hi step x (L : Z -> list B) :
  0 < step ->
  foldr (fun t r => (if decide (t <= x < Z.min hi (t + step)) then L t else []) ++ r) []
    (loop_points lo hi step) =
  if decide (lo <= x < hi) then L (lo + step * ((x - lo) / step)) else [].
Proof.
  intros Hs. remember (Z.to_nat (hi - lo)) as fuel eqn:Hf.
  assert (hi - lo <= Z.of_nat fuel) as Hle by lia. clear Hf. revert lo Hle.
  induction fuel as [|fuel IH]; intros lo Hle; rewrite loop_points_unfold by done.
  { destruct (Z.ltb_spec lo hi); [lia|]. by rewrite decide_False by lia. }
  destruct (Z.ltb_spec lo hi); [|by rewrite decide_False by lia]. cbn [foldr].
  rewrite IH by lia. destruct (decide (lo <= x < Z.min hi (lo + step))) as [Hx|Hx].
  - rewrite decide_False, app_nil_r, decide_True by lia. rewrite Z.div_small by lia. f_equal. lia.
  - cbn [app]. destruct (decide (lo + step <= x < hi)).
    + rewrite decide_True by lia. f_equal.
      replace (x - lo) with (x - (lo + step) + 1 * step) by lia. rewrite Z.div_add by lia. lia.
    + by rewrite decide_False by lia.
Qed.

(** Induction along the points of a loop, from the end. *)
Lemma loop_ind (hi step : Z) (P : Z -> Prop) :
  0 < step -> (forall lo, hi <= lo -> P lo) -> (forall lo, lo < hi -> P (lo + step) -> P lo) -> forall lo, P lo.
Proof.
  intros Hs Hend Hstep lo. remember (Z.to_nat (hi - lo)) as fuel eqn:Hf.
  assert (hi - lo <= Z.of_nat fuel) as Hle by lia. clear Hf. revert lo Hle.
  induction fuel as [|fuel IH]; intros lo Hle; [apply Hend; lia|].
  destruct (Z.lt_ge_cases lo hi); [|by apply Hend]. apply Hstep; [done|]. apply IH. lia.
Qed.

(** A loop whose iterations emit [f]. *)
Lemma for_upto_concat {X} (f : Z -> list X) fuel lo hi step body :
  0 < step -> Z.max 0 (hi - lo) < Z.of_nat fuel ->
  (forall x, x ∈ loop_points lo hi step -> body x = Some (f x)) ->
  for_upto fuel lo hi step body = Some (concat (f <$> loop_points lo hi step)).
Proof.
  intros Hs. revert lo. induction fuel as [|fuel IH]; intros lo Hf Hb; [lia|]. cbn [for_upto].
  rewrite loop_points_unfold in * by done. destruct (Z.ltb_spec lo hi); [|done].
  rewrite Hb by left. cbn [mbind option_bind]. rewrite IH; [done|lia|]. intros x Hx. apply Hb. by right.
Qed.

Lemma mapM_ext_elem {A B} (f g : A -> option B) l :
  (forall a, a ∈ l -> f a = g a) -> mapM f l = mapM g l.
Proof.
  induction l as [|a l IH]; intros H; [done|]. cbn. rewrite H by left.
  destruct (g a); [|done]. cbn. rewrite IH; [done|]. intros a2 Ha2. apply H. by right.
Qed.
