(* ===== verification/Word.v ===== *)
(** * Machine integers

    The fixed width integers of C as integers in range, with the conversions
    that wrap around; the bit operations on them and the lemmas that turn shifts,
    masks and disjoint ors into arithmetic. *)
From S2P Require Import Prelude.

Definition to_u32 (z : Z) : Z := z mod 2 ^ 32.
Definition to_i32 (z : Z) : Z := let u := to_u32 z in if u <? 2 ^ 31 then u else u - 2 ^ 32.
Definition to_u64 (z : Z) : Z := z mod 2 ^ 64.
Definition to_i64 (z : Z) : Z := let u := to_u64 z in if u <? 2 ^ 63 then u else u - 2 ^ 64.

Definition int32_t (z : Z) : Prop := - 2 ^ 31 <= z < 2 ^ 31.
Definition int64_t (z : Z) : Prop := - 2 ^ 63 <= z < 2 ^ 63.

Lemma to_i32_id z : int32_t z -> to_i32 z = z.
Proof.
  unfold int32_t, to_i32, to_u32. intros Hz. destruct (decide (0 <= z)).
  - rewrite Z.mod_small by lia. zcase; lia.
  - rewrite <- (Z.mod_add z 1), Z.mod_small by lia. zcase; lia.
Qed.

Lemma to_i32_u32 z : int32_t z -> to_i32 (to_u32 z) = z.
Proof. intros Hz. rewrite <- (to_i32_id z Hz) at 2. unfold to_i32, to_u32. by rewrite Z.mod_mod. Qed.

Lemma to_i32_range z : int32_t (to_i32 z).
Proof. unfold int32_t, to_i32, to_u32. pose proof (Z.mod_pos_bound z (2 ^ 32)). zcase; lia. Qed.

Lemma to_u64_i64 z : to_u64 (to_i64 z) = to_u64 z.
Proof.
  unfold to_i64, to_u64. zcase; [by rewrite Z.mod_mod|].
  rewrite <- (Z.mod_add (z mod 2 ^ 64 - 2 ^ 64) 1) by done.
  rewrite Z.mul_1_l, Z.sub_add. by rewrite Z.mod_mod.
Qed.

Lemma to_u32_range z : 0 <= to_u32 z < 2 ^ 32.
Proof. apply Z.mod_pos_bound. done. Qed.

Lemma testbit_small b n i : 0 <= b < 2 ^ n -> 0 <= n <= i -> Z.testbit b i = false.
Proof.
  intros Hb Hn. destruct (decide (b = 0)) as [->|]; [apply Z.bits_0|].
  apply Z.bits_above_log2; [lia|]. apply Z.log2_lt_pow2; [lia|].
  apply Z.lt_le_trans with (2 ^ n); [lia|]. apply Z.pow_le_mono_r; lia.
Qed.

Lemma lor_shift_add a b n : 0 <= n -> 0 <= b < 2 ^ n -> Z.lor (Z.shiftl a n) b = a * 2 ^ n + b.
Proof.
  intros Hn Hb. rewrite <- Z.shiftl_mul_pow2 by done.
  assert (Z.land (Z.shiftl a n) b = 0) as Hland.
  { apply Z.bits_inj'. intros i Hi. rewrite Z.land_spec, Z.shiftl_spec, Z.bits_0 by done.
    destruct (decide (i < n)); [by rewrite Z.testbit_neg_r by lia|].
    rewrite (testbit_small b n i), andb_false_r by lia. done. }
  by rewrite <- Z.lxor_lor, <- Z.add_nocarry_lxor.
Qed.

(** Wrapping early or late is the same. *)
Lemma to_i32_add_l a b : to_i32 (to_i32 a + b) = to_i32 (a + b).
Proof.
  assert (to_u32 (to_i32 a + b) = to_u32 (a + b)) as E.
  { unfold to_i32, to_u32. zcase; [by rewrite Zplus_mod_idemp_l|].
    replace (a mod 2 ^ 32 - 2 ^ 32 + b) with (a mod 2 ^ 32 + b + -1 * 2 ^ 32) by lia.
    by rewrite Z.mod_add, Zplus_mod_idemp_l. }
  unfold to_i32 at 1 3. by rewrite E.
Qed.

(** ** Masks and fields *)

(** A mask of [w] ones at bit [k] selects a field. *)
Lemma land_field u w k :
  0 <= w -> 0 <= k -> Z.land u (Z.shiftl (Z.ones w) k) = u / 2 ^ k mod 2 ^ w * 2 ^ k.
Proof.
  intros Hw Hk. rewrite <- Z.shiftl_mul_pow2, <- Z.land_ones, <- Z.shiftr_div_pow2 by done.
  apply Z.bits_inj'. intros i Hi. rewrite Z.land_spec, !Z.shiftl_spec by done.
  destruct (decide (k <= i)).
  - rewrite Z.land_spec, Z.shiftr_spec by lia. by rewrite Z.sub_add.
  - by rewrite !(Z.testbit_neg_r _ (i - k)), andb_false_r by lia.
Qed.

Lemma land_mask u w : 0 <= w -> Z.land u (Z.ones w) = u mod 2 ^ w.
Proof. apply Z.land_ones. Qed.

Lemma shiftr_field u w k :
  0 <= w -> 0 <= k -> Z.shiftr (Z.land u (Z.shiftl (Z.ones w) k)) k = u / 2 ^ k mod 2 ^ w.
Proof.
  intros. rewrite land_field, Z.shiftr_div_pow2 by done. apply Z.div_mul.
  pose proof (Z.pow_pos_nonneg 2 k). lia.
Qed.

(** A disjoint [or] is a sum. *)
Lemma lor_add a b n : 0 <= n -> 0 <= b < 2 ^ n -> Z.lor (a * 2 ^ n) b = a * 2 ^ n + b.
Proof. intros. rewrite <- lor_shift_add by done. by rewrite Z.shiftl_mul_pow2. Qed.
