(* ===== verification/DlpTypes.v ===== *)
(** * Shared types of the library: error codes, tags, parameter types, blocking
    and runtime records

    One [Inductive] per C [enum] (constructors in declaration order) and one
    [Record] per [struct]; fields no modelled operation reads (kernel handles
    and function pointers) are left out of [dlp_gemm_cntx_t]. *)
From S2P Require Import Prelude.

(** [dlp_clsc_err_t] (include/classic/dlp_errors.h). *)
Inductive dlp_clsc_err_t :=
  | DLP_CLSC_SUCCESS
  | DLP_CLSC_FAILURE
  | DLP_CLSC_NULL_POINTER
  | DLP_CLSC_UNEXPECTED_VECTOR_DIM
  | DLP_CLSC_INVALID_DATA_TYPE
  | DLP_CLSC_NOT_SUPPORTED
  | DLP_CLSC_INVALID_ORDER
  | DLP_CLSC_INVALID_TRANSPOSE
  | DLP_CLSC_INVALID_MEMORY_TAG
  | DLP_CLSC_INVALID_MATRIX_DIMENSION
  | DLP_CLSC_INVALID_LEADING_DIMENSION
  | DLP_CLSC_INVALID_MATRIX_TYPE
  | DLP_CLSC_INVALID_GROUP_DIMENSION
  | DLP_CLSC_INVALID_SF_LEN
  | DLP_CLSC_INVALID_ZP_LEN
  | DLP_CLSC_TYPE_MISMATCH
  | DLP_CLSC_INVALID_JIT_KERNEL
  | DLP_CLSC_INVALID_KERNEL
  | DLP_CLSC_INVALID_BLOCK_PARAMS
  | DLP_CLSC_INVALID_SUP_THRESHOLDS
  | DLP_CLSC_INVALID_GEMM_HINTS
  | DLP_CLSC_HINT_MISMATCH
  | DLP_CLSC_ERROR_MAX.

#[export] Instance dlp_clsc_err_t_eq_dec : EqDecision dlp_clsc_err_t.
Proof. solve_decision. Defined.

(** [AOCL_DLP_MEMORY_TAG]. *)
Inductive AOCL_DLP_MEMORY_TAG := UNPACKED | PACK | PACK_KC | PACK_NR | REORDERED.

#[export] Instance memory_tag_eq_dec : EqDecision AOCL_DLP_MEMORY_TAG.
Proof. solve_decision. Defined.

(** [AOCL_DLP_OPERATION_TYPE]. *)
Inductive AOCL_DLP_OPERATION_TYPE :=
  | U8S8S16OS16 | U8S8S32OS32 | F32F32F32OF32 | BF16BF16F32OF32
  | S8S8S32OS32 | S8S8S16OS16 | U8S4S32OS32 | BF16S4F32OF32
  | F32OBF16 | F16F16F16OF16 | BF16U4F32OF32 | F32F16F32OF32.

#[export] Instance operation_type_eq_dec : EqDecision AOCL_DLP_OPERATION_TYPE.
Proof. solve_decision. Defined.

(** [AOCL_DLP_MATRIX_TYPE] and [AOCL_DLP_TID_DISTR_TYPE]. *)
Inductive AOCL_DLP_MATRIX_TYPE := A_MATRIX | B_MATRIX | AWQ_B_MATRIX.
Inductive AOCL_DLP_TID_DISTR_TYPE := DEFAULT | STRIDE2.

#[export] Instance matrix_type_eq_dec : EqDecision AOCL_DLP_MATRIX_TYPE.
Proof. solve_decision. Defined.
#[export] Instance tid_distr_eq_dec : EqDecision AOCL_DLP_TID_DISTR_TYPE.
Proof. solve_decision. Defined.

(** [dlp_trans_t]. *)
Inductive dlp_trans_t :=
  | DLP_NO_TRANSPOSE | DLP_TRANSPOSE | DLP_CONJ_NO_TRANSPOSE
  | DLP_CONJ_TRANSPOSE | DLP_PACKED.

#[export] Instance trans_eq_dec : EqDecision dlp_trans_t.
Proof. solve_decision. Defined.

(** [DLP_TYPE]. *)
Inductive DLP_TYPE :=
  | DLP_INVALID | DLP_S4 | DLP_U4 | DLP_F4 | DLP_S8 | DLP_U8 | DLP_S16 | DLP_U16
  | DLP_F16 | DLP_BF16 | DLP_S32 | DLP_U32 | DLP_F32 | DLP_MAX.

#[export] Instance dlp_type_eq_dec : EqDecision DLP_TYPE.
Proof. solve_decision. Defined.

(** [DLP_PARAM_DIM_TYPE]. *)
Inductive DLP_PARAM_DIM_TYPE :=
  | DLP_PARAM_DIM_INVALID | DLP_PARAM_DIM_PER_TENSOR | DLP_PARAM_DIM_PER_CHANNEL
  | DLP_PARAM_DIM_PER_TOKEN | DLP_PARAM_DIM_PER_GROUP.

#[export] Instance param_dim_eq_dec : EqDecision DLP_PARAM_DIM_TYPE.
Proof. solve_decision. Defined.

(** [dlp_gemm_block_size_t], [dlp_gemm_sup_thres_t], [dlp_gemm_kernel_hints_t],
    [dlp_gemm_pack_strides_t] and the part of [dlp_gemm_cntx_t] the frame reads. *)
Record dlp_gemm_block_size_t := mk_blksz { MC : Z; NC : Z; KC : Z; NR : Z; MR : Z }.
Record dlp_gemm_sup_thres_t := mk_sup { MT : Z; NT : Z; KT : Z }.
Record dlp_gemm_kernel_hints_t := mk_hints { m_hint : Z; nt_hint : Z }.
Record dlp_gemm_pack_strides_t := mk_pack_s {
  packa_rs : Z; packa_cs : Z; packb_rs : Z; packb_cs : Z }.

Record dlp_gemm_cntx_t := mk_cntx {
  blksz : dlp_gemm_block_size_t;
  blksz_set_mask : Z;
  pack_s : dlp_gemm_pack_strides_t;
  sup_thres : dlp_gemm_sup_thres_t;
  gemm_kernel_hints : dlp_gemm_kernel_hints_t;
}.

(** Positive micro-tile and cache blocks, as every block size map sets them. *)
Record blksz_pos (b : dlp_gemm_block_size_t) : Prop := {
  MC_pos : 1 <= MC b; NC_pos : 1 <= NC b; KC_pos : 1 <= KC b;
  NR_pos : 1 <= NR b; MR_pos : 1 <= MR b;
}.
#[export] Hint Resolve MC_pos NC_pos KC_pos NR_pos MR_pos : dlp.

(** [dlp_rntm_t] (runtime/dlp_runtime.h). *)
Record dlp_rntm_t := mk_rntm {
  num_threads : Z;
  ic_ways : Z;
  jc_ways : Z;
  pack_a : bool;
  pack_b : bool;
  ext_mt_ctr_var : bool;
}.

#[export] Instance rntm_eq_dec : EqDecision dlp_rntm_t.
Proof. solve_decision. Defined.

(** [DLP_CLASSIC_RNTM_INITIALIZER], also the value [DLP_CLASSIC_RNTM_RESET]
    writes. *)
Definition DLP_CLASSIC_RNTM_INITIALIZER : dlp_rntm_t :=
  {| num_threads := -1; ic_ways := -1; jc_ways := -1;
     pack_a := false; pack_b := false; ext_mt_ctr_var := true |}.
