(* ===== verification/ThreadUtils.v ===== *)
(** * Thread work partition (threading/dlp_gemm_thread_utils.h)

    Task ids derived from a thread id, and the split of a loop range among the
    ways of parallelism. *)
From S2P Require Import Prelude.

(** ** Data *)

(** [dlp_task_comm_t]; [sent_object] is the pack buffer broadcast by the chief
    thread, [None] for [NULL]. *)
Record dlp_task_comm_t := mk_comm {
  sent_object : option Z;
  comm_n_threads : Z;
  barrier_sense : Z;
  barrier_threads_arrived : Z;
}.

(** [dlp_gemm_thrinfo_t]; [comm] is the position, in the communicator array the
    decorator allocated, of the pointer [thread->comm]. *)
Record dlp_gemm_thrinfo_t := mk_thrinfo {
  thr_n_threads : Z;
  thr_tid : Z;
  thr_ic_ways : Z;
  thr_jc_ways : Z;
  thr_comm : Z;
}.

(** [dlp_task_id_t]. *)
Record dlp_task_id_t := mk_task_id {
  ocomm_id : Z;
  n_way : Z;
  work_id : Z;
}.

(** ** Operations *)

Definition dlp_task_comm_init (n_threads : Z) : dlp_task_comm_t :=
  {| sent_object := None; comm_n_threads := n_threads;
     barrier_sense := 0; barrier_threads_arrived := 0 |}.

(** [dlp_gemm_gen_dlp_task_ids]: the pair [(thread_jc, thread_ic)]; [None] is
    the [NULL] thread pointer of a build without OpenMP. *)
Definition dlp_gemm_gen_dlp_task_ids (thread : option dlp_gemm_thrinfo_t)
    : dlp_task_id_t * dlp_task_id_t :=
  match thread with
  | None => (mk_task_id 0 1 0, mk_task_id 0 1 0)
  | Some t =>
      let jc_work_id := thr_tid t `quot` thr_ic_ways t in
      let ic_comm_id := thr_tid t `rem` thr_ic_ways t in
      ({| ocomm_id := thr_tid t; n_way := thr_jc_ways t; work_id := jc_work_id |},
       {| ocomm_id := ic_comm_id; n_way := thr_ic_ways t; work_id := ic_comm_id |})
  end.

(** [dlp_thread_task_range]: the pair [( *start, *end)]. *)
Definition dlp_thread_task_range (thread : dlp_task_id_t) (n bf : Z)
    (handle_edge_low : bool) : Z * Z :=
  let n_way := n_way thread in
  let work_id := work_id thread in
  if (work_id <? 0) || (n_way <=? work_id) then (n, n)
  else if n_way =? 1 then (0, n)
  else
    let all_start := 0 in
    let all_end := n in
    let size := all_end - all_start in
    let n_bf_whole := size `quot` bf in
    let n_bf_left := size `rem` bf in
    let n_bf_lo := n_bf_whole `quot` n_way in
    let n_bf_hi := n_bf_whole `quot` n_way in
    if negb handle_edge_low then
      let n_th_lo := n_bf_whole `rem` n_way in
      let n_bf_lo := if negb (n_th_lo =? 0) then n_bf_lo + 1 else n_bf_lo in
      let size_lo := n_bf_lo * bf in
      let size_hi := n_bf_hi * bf in
      let lo_start := all_start in
      let hi_start := all_start + n_th_lo * size_lo in
      if work_id <? n_th_lo then
        (lo_start + work_id * size_lo, lo_start + (work_id + 1) * size_lo)
      else
        let start := hi_start + (work_id - n_th_lo) * size_hi in
        let end_ := hi_start + (work_id - n_th_lo + 1) * size_hi in
        (start, if work_id =? n_way - 1 then end_ + n_bf_left else end_)
    else
      let n_th_hi := n_bf_whole `rem` n_way in
      let n_th_lo := n_way - n_th_hi in
      let n_bf_hi := if negb (n_th_hi =? 0) then n_bf_hi + 1 else n_bf_hi in
      let size_lo := n_bf_lo * bf in
      let size_hi := n_bf_hi * bf in
      let lo_start := all_start in
      let hi_start := all_start + n_th_lo * size_lo + n_bf_left in
      if work_id <? n_th_lo then
        let start := lo_start + work_id * size_lo in
        let end_ := lo_start + (work_id + 1) * size_lo in
        if work_id =? 0 then (start, end_ + n_bf_left)
        else (start + n_bf_left, end_ + n_bf_left)
      else
        (hi_start + (work_id - n_th_lo) * size_hi,
         hi_start + (work_id - n_th_lo + 1) * size_hi).

Definition dlp_thread_am_ochief (t : dlp_task_id_t) : bool := ocomm_id t =? 0.

(** ** The partition points

    [task_cut n_way n bf hel w] is where the range of work id [w] begins (and
    the range of [w - 1] ends), as a closed formula of the block counts. *)
Definition task_cut (nw n bf : Z) (hel : bool) (w : Z) : Z :=
  let q := (n / bf) / nw in
  let r := (n / bf) mod nw in
  let left := n mod bf in
  if hel then
    if w =? 0 then 0 else bf * (w * q + Z.max 0 (w - (nw - r))) + left
  else
    if w =? nw then n else bf * (w * q + Z.min w r).

Section range.
Context (nw n bf : Z).
Hypothesis Hnw : 1 <= nw.
Hypothesis Hn : 0 <= n.
Hypothesis Hbf : 1 <= bf.

Local Abbreviation q := ((n / bf) / nw).
Local Abbreviation r := ((n / bf) mod nw).

Lemma task_blocks :
  n = bf * (nw * q + r) + n mod bf /\ 0 <= q /\ 0 <= r < nw /\ 0 <= n mod bf < bf.
Proof using Hnw Hn Hbf.
  pose proof (Z.div_mod n bf). pose proof (Z.div_mod (n / bf) nw).
  pose proof (Z.mod_pos_bound n bf). pose proof (Z.mod_pos_bound (n / bf) nw).
  assert (0 <= n / bf) by (apply Z.div_pos; lia).
  assert (0 <= (n / bf) / nw) by (apply Z.div_pos; lia). lia.
Qed.

Lemma task_cut_first hel : task_cut nw n bf hel 0 = 0.
Proof using Hnw Hn Hbf.
  unfold task_cut. pose proof task_blocks as (_ & _ & ? & _).
  destruct hel; [done|]. zcase; [lia|]. rewrite Z.min_l by lia. lia.
Qed.

Lemma task_cut_last hel : task_cut nw n bf hel nw = n.
Proof using Hnw Hn Hbf.
  unfold task_cut. pose proof task_blocks as (Heq & _ & ? & _).
  destruct hel; zcase; lia.
Qed.

Lemma task_range_cut hel oc w :
  0 <= w < nw ->
  dlp_thread_task_range (mk_task_id oc nw w) n bf hel =
    (task_cut nw n bf hel w, task_cut nw n bf hel (w + 1)).
Proof using Hnw Hn Hbf.
  intros Hw. pose proof task_blocks as (Heq & ? & ? & ?).
  unfold dlp_thread_task_range; simpl.
  rewrite (proj2 (Z.ltb_ge w 0)), (proj2 (Z.leb_gt nw w)) by lia; simpl.
  destruct (Z.eqb_spec nw 1) as [Hnw1|Hnw1].
  { assert (w = 0) as -> by lia. rewrite task_cut_first.
    replace (0 + 1) with nw by lia. by rewrite task_cut_last. }
  rewrite Z.sub_0_r. cdiv. rewrite !(cquot_nonneg _ nw), !(crem_nonneg _ nw)
    by (first [apply Z.div_pos; lia | lia]).
  unfold task_cut.
  destruct hel; simpl; repeat zcase; simpl; f_equal; subst; try lia; try nia.
Qed.
End range.

(** ** Properties of the partition *)

(** Index [j] of the loop is executed by the work id [t]. *)
Definition owns (t : dlp_task_id_t) (n bf : Z) (hel : bool) (j : Z) : Prop :=
  let '(start, end_) := dlp_thread_task_range t n bf hel in start <= j < end_.

#[export] Instance owns_dec t n bf hel j : Decision (owns t n bf hel j).
Proof. unfold owns. destruct (dlp_thread_task_range _ _ _ _). apply _. Defined.

Lemma task_range_retired oc nw w n bf hel :
  w < 0 \/ nw <= w -> dlp_thread_task_range (mk_task_id oc nw w) n bf hel = (n, n).
Proof. intros Hw. unfold dlp_thread_task_range; simpl. repeat zcase; simpl; lia || done. Qed.

Lemma task_cut_mono nw n bf hel w :
  1 <= nw -> 0 <= n -> 1 <= bf -> 0 <= w < nw ->
  task_cut nw n bf hel w <= task_cut nw n bf hel (w + 1).
Proof.
  intros ??? Hw. pose proof (task_blocks nw n bf) as (Heq & ? & ? & ?); [done..|].
  unfold task_cut. destruct hel; repeat zcase; try lia; subst; nia.
Qed.

Lemma owns_cut oc nw w n bf hel j :
  1 <= nw -> 0 <= n -> 1 <= bf ->
  owns (mk_task_id oc nw w) n bf hel j <->
  0 <= w < nw /\ task_cut nw n bf hel w <= j < task_cut nw n bf hel (w + 1).
Proof.
  intros ???. unfold owns. destruct (decide (0 <= w < nw)).
  - rewrite task_range_cut by done. tauto.
  - rewrite task_range_retired by lia. lia.
Qed.

Lemma owns_in_range oc nw w n bf hel j :
  1 <= nw -> 0 <= n -> 1 <= bf -> owns (mk_task_id oc nw w) n bf hel j -> 0 <= j < n.
Proof.
  intros ???. rewrite owns_cut by done. intros [Hw Hj].
  pose proof (fun w => task_cut_mono nw n bf hel w) as Hm.
  pose proof (interval_le (task_cut nw n bf hel) nw ltac:(lia) (fun w' => Hm w' H H0 H1)) as Hle.
  pose proof (Hle 0 w). pose proof (Hle (w + 1) nw).
  rewrite task_cut_first in * by done. rewrite task_cut_last in * by done. lia.
Qed.

Lemma owns_exists nw n bf hel j :
  1 <= nw -> 0 <= n -> 1 <= bf -> 0 <= j < n ->
  exists w, 0 <= w < nw /\ forall oc, owns (mk_task_id oc nw w) n bf hel j.
Proof.
  intros ??? Hj.
  destruct (interval_exists (task_cut nw n bf hel) nw) with (j := j) as (w & Hw & Hjw).
  - lia.
  - intros. by apply task_cut_mono.
  - rewrite task_cut_first, task_cut_last by done. done.
  - exists w. split; [done|]. intros oc. by apply owns_cut.
Qed.

Lemma owns_unique oc1 oc2 nw w1 w2 n bf hel j :
  1 <= nw -> 0 <= n -> 1 <= bf ->
  owns (mk_task_id oc1 nw w1) n bf hel j -> owns (mk_task_id oc2 nw w2) n bf hel j -> w1 = w2.
Proof.
  intros ???. rewrite !owns_cut by done. intros [Hw1 Hj1] [Hw2 Hj2].
  eapply (interval_unique (task_cut nw n bf hel) nw); eauto; [lia|].
  intros. by apply task_cut_mono.
Qed.

(** The work id of thread [tid] in each dimension recovers the thread id. *)
Lemma tid_of_grid ic tid : 1 <= ic -> tid = (tid / ic) * ic + tid mod ic.
Proof. intros. pose proof (Z.div_mod tid ic). lia. Qed.

Lemma grid_bounds ic jc tid :
  1 <= ic -> 1 <= jc -> 0 <= tid < ic * jc ->
  0 <= tid / ic < jc /\ 0 <= tid mod ic < ic.
Proof.
  intros ?? Ht. pose proof (Z.mod_pos_bound tid ic). split; [|lia].
  split; [apply Z.div_pos; lia|]. apply Z.div_lt_upper_bound; lia.
Qed.

Lemma grid_inverse ic w v :
  1 <= ic -> 0 <= v < ic -> (w * ic + v) / ic = w /\ (w * ic + v) mod ic = v.
Proof.
  intros. rewrite (Z.add_comm (w * ic)). rewrite Z.div_add, Z.mod_add by lia.
  rewrite Z.div_small, Z.mod_small by lia. lia.
Qed.

(** C19. The work partition is exact: whatever the number of ways, the block
    factor and the side that receives the edge, every index of [0, n) is
    executed by exactly one work id, which is one of the [n_way] legal ids (an
    id drawn from a wider pool gets an empty range), and an owned index is
    always inside [0, n). *)
Theorem task_range_exact_cover (nw n bf : Z) (hel : bool) :
  1 <= nw -> 0 <= n -> 1 <= bf ->
  (forall j, 0 <= j < n ->
     exists w, 0 <= w < nw /\ (forall oc, owns (mk_task_id oc nw w) n bf hel j) /\
       forall oc w', owns (mk_task_id oc nw w') n bf hel j -> w' = w) /\
  (forall oc w j, owns (mk_task_id oc nw w) n bf hel j -> 0 <= j < n).
Proof.
  intros ???. split.
  - intros j Hj. destruct (owns_exists nw n bf hel j) as (w & Hw & Ho); [done..|].
    exists w. split; [done|]. split; [exact Ho|]. intros oc w' Ho'.
    exact (owns_unique oc 0 nw w' w n bf hel j H H0 H1 Ho' (Ho 0)).
  - intros oc w j. by apply owns_in_range.
Qed.

Lemma task_range_exact_cover_witness :
  owns (mk_task_id 0 4 2) 103 8 true 60 /\
  (forall oc w', owns (mk_task_id oc 4 w') 103 8 true 60 -> w' = 2).
Proof.
  split; [vm_compute; split; congruence|].
  destruct (task_range_exact_cover 4 103 8 true) as [H _]; [lia..|].
  destruct (H 60) as (w & _ & Ho & Hu); [lia|]. intros oc w' Hw'.
  rewrite (Hu _ _ Hw'). symmetry. apply (Hu 0).
  vm_compute. split; congruence.
Defined.

(** The partition is block aligned and balanced: the range of a legal work
    id is a whole number of blocks, [q] or [q + 1] of them where [q] is the
    quotient of the block count by the ways, plus the edge of [n mod bf] indices
    for exactly one id: the last one, or the first one when the edge is handled
    low.  Ranges start on a block boundary (shifted by the edge when low), and
    consecutive ranges touch. *)
Theorem task_range_balanced (oc nw w n bf start end_ : Z) (hel : bool) :
  1 <= nw -> 0 <= n -> 1 <= bf -> 0 <= w < nw ->
  dlp_thread_task_range (mk_task_id oc nw w) n bf hel = (start, end_) ->
  let q := n / bf / nw in
  let edge_owner := if hel then 0 else nw - 1 in
  (exists blocks, q <= blocks <= q + 1 /\
     end_ - start = blocks * bf + (if decide (w = edge_owner) then n mod bf else 0)) /\
  (w <> 0 -> (start - (if hel then n mod bf else 0)) mod bf = 0) /\
  (w = 0 -> start = 0) /\ (w = nw - 1 -> end_ = n) /\
  (w <> nw - 1 -> fst (dlp_thread_task_range (mk_task_id oc nw (w + 1)) n bf hel) = end_).
Proof.
  intros ??? Hw Hr q edge. rewrite task_range_cut in Hr by done. simplify_eq.
  pose proof (task_blocks nw n bf) as (Heq & ? & ? & ?); [done..|].
  split_and!.
  - exists ((if if hel then nw - (n / bf) mod nw <=? w else w <? (n / bf) mod nw
             then 1 else 0) + q).
    subst edge. unfold task_cut. fold q in Heq |- *.
    destruct hel; repeat case_decide; repeat zcase; split; try lia; subst; nia.
  - intros Hw0. unfold task_cut. destruct hel; zcase; try lia.
    + rewrite Z.add_simpl_r, Z.mul_comm. apply Z.mod_mul. lia.
    + rewrite Z.sub_0_r, Z.mul_comm. apply Z.mod_mul. lia.
  - intros ->. by apply task_cut_first.
  - intros ->. replace (nw - 1 + 1) with nw by lia. by apply task_cut_last.
  - intros ?. rewrite task_range_cut by lia. done.
Qed.

Lemma task_range_balanced_witness :
  dlp_thread_task_range (mk_task_id 3 4 3) 103 8 false = (72, 103) /\
  (exists blocks, 3 <= blocks <= 4 /\ 103 - 72 = blocks * 8 + 7).
Proof.
  split; [reflexivity|].
  destruct (task_range_balanced 3 4 3 103 8 72 103 false) as [H _];
    [lia | lia | lia | lia | reflexivity | exact H].
Defined.

(** Two-dimensional decomposition: with [ic_ways * jc_ways] threads, the
    task ids generated from the thread ids assign every element of the
    [m x n] output to exactly one thread, so no element is computed twice and
    none is left out, whatever the micro-tile sizes. *)
Theorem thread_grid_cover (ic jc m n MR NR nt comm i j : Z) :
  1 <= ic -> 1 <= jc -> 1 <= MR -> 1 <= NR -> 0 <= i < m -> 0 <= j < n ->
  exists! tid, 0 <= tid < ic * jc /\
    let '(thread_jc, thread_ic) :=
      dlp_gemm_gen_dlp_task_ids (Some (mk_thrinfo nt tid ic jc comm)) in
    owns thread_jc n NR false j /\ owns thread_ic m MR false i.
Proof.
  intros ???? Hi Hj. simpl.
  destruct (owns_exists jc n NR false j) as (w & Hw & How); [lia..|].
  destruct (owns_exists ic m MR false i) as (v & Hv & Hov); [lia..|].
  destruct (grid_inverse ic w v) as [Ew Ev]; [lia..|].
  exists (w * ic + v). split.
  - split; [nia|]. cdiv. rewrite Ew, Ev. split; auto.
  - intros tid (Ht & Hoj & Hoi). cdiv.
    rewrite (tid_of_grid ic tid) by lia.
    rewrite (owns_unique _ 0 jc (tid / ic) w n NR false j) by (lia || eauto).
    by rewrite (owns_unique _ 0 ic (tid mod ic) v m MR false i) by (lia || eauto).
Qed.

Lemma thread_grid_cover_witness :
  exists! tid, 0 <= tid < 2 * 3 /\
    let '(thread_jc, thread_ic) :=
      dlp_gemm_gen_dlp_task_ids (Some (mk_thrinfo 6 tid 2 3 0)) in
    owns thread_jc 100 16 false 70 /\ owns thread_ic 50 6 false 30.
Proof. apply (thread_grid_cover 2 3 50 100 6 16 6 0 30 70); lia. Defined.
