(* ===== verification/Barrier.v ===== *)
(** * The thread barrier (frame/threading/dlp_gemm_thread_utils.c)

    [dlp_atomic_barrier] is a sense-reversing barrier on the communicator of a
    team.  Each atomic access is one step of one thread; [passed] counts the
    barrier calls a thread has returned from. *)
From S2P Require Import Prelude ThreadUtils.

(** Where a thread is in the call; [s] is its local [orig_sense]. *)
Inductive barrier_pc :=
  | Outside
  | SenseLoaded (s : Z)
  | Spinning (s : Z)
  | LastArrived (s : Z)
  | CounterReset (s : Z).

Record bthread := mk_bthread { pc : barrier_pc; passed : Z }.
Record bstate := mk_bstate { bcomm : dlp_task_comm_t; bthreads : list bthread }.

Definition set_arrived (c : dlp_task_comm_t) (a : Z) : dlp_task_comm_t :=
  mk_comm (sent_object c) (comm_n_threads c) (barrier_sense c) a.
Definition set_sense (c : dlp_task_comm_t) (s : Z) : dlp_task_comm_t :=
  mk_comm (sent_object c) (comm_n_threads c) s (barrier_threads_arrived c).

(** One atomic access of [dlp_atomic_barrier] by a thread: the communicator and
    the thread afterwards; [None] is an iteration of the waiting loop. *)
Definition dlp_atomic_barrier_step (c : dlp_task_comm_t) (t : bthread)
    : option (dlp_task_comm_t * bthread) :=
  let return_ c := Some (c, mk_bthread Outside (passed t + 1)) in
  match pc t with
  | Outside =>
      if comm_n_threads c =? 1 then return_ c
      else Some (c, mk_bthread (SenseLoaded (barrier_sense c)) (passed t))
  | SenseLoaded orig_sense =>
      let my_threads_arrived := barrier_threads_arrived c + 1 in
      let c := set_arrived c my_threads_arrived in
      if my_threads_arrived =? comm_n_threads c
      then Some (c, mk_bthread (LastArrived orig_sense) (passed t))
      else Some (c, mk_bthread (Spinning orig_sense) (passed t))
  | LastArrived orig_sense =>
      Some (set_arrived c 0, mk_bthread (CounterReset orig_sense) (passed t))
  | CounterReset orig_sense =>
      return_ (set_sense c (Z.lxor (barrier_sense c) 1))
  | Spinning orig_sense =>
      if barrier_sense c =? orig_sense then None else return_ c
  end.

Definition thread_step (i : nat) (st : bstate) : option bstate :=
  t ← bthreads st !! i;
  '(c, t') ← dlp_atomic_barrier_step (bcomm st) t;
  Some (mk_bstate c (<[i := t']> (bthreads st))).

Definition barrier_step (st st' : bstate) : Prop := exists i, thread_step i st = Some st'.

(** A team of [n] threads on a fresh communicator, repeatedly calling the
    barrier under any interleaving. *)
Definition barrier_start (n : Z) : bstate :=
  mk_bstate (dlp_task_comm_init n) (replicate (Z.to_nat n) (mk_bthread Outside 0)).

Inductive barrier_reachable (n : Z) : bstate -> Prop :=
  | barrier_reach_start : barrier_reachable n (barrier_start n)
  | barrier_reach_step st st' :
      barrier_reachable n st -> barrier_step st st' -> barrier_reachable n st'.

(** A thread has arrived in its current call once it has counted itself. *)
Definition counted (t : bthread) : bool :=
  match pc t with Spinning _ | LastArrived _ | CounterReset _ => true | _ => false end.
Definition arrivals (t : bthread) : Z := passed t + Z.b2z (counted t).

Definition is_last (t : bthread) : bool := match pc t with LastArrived _ => true | _ => false end.
Definition is_reset (t : bthread) : bool := match pc t with CounterReset _ => true | _ => false end.
Definition closing (t : bthread) : bool := is_last t || is_reset t.

(** Counted in the current phase [k], as opposed to still leaving the previous. *)
Definition in_phase (k : Z) (t : bthread) : bool := counted t && (passed t =? k).

(** What a thread may be doing in phase [k], the sense being [s]. *)
Definition bthread_ok (k s : Z) (t : bthread) : Prop :=
  match pc t with
  | Outside => passed t = k
  | Spinning s' => (passed t = k /\ s' = s) \/ (passed t = k - 1 /\ s' <> s)
  | SenseLoaded s' | LastArrived s' | CounterReset s' => passed t = k /\ s' = s
  end.

Record barrier_inv (n k : Z) (st : bstate) : Prop := {
  inv_size : Z.of_nat (length (bthreads st)) = n;
  inv_n : comm_n_threads (bcomm st) = n;
  inv_sense : barrier_sense (bcomm st) = k mod 2;
  inv_threads : forall i t, bthreads st !! i = Some t -> bthread_ok k (barrier_sense (bcomm st)) t;
  inv_count : barrier_threads_arrived (bcomm st) =
    if cnt is_reset (bthreads st) =? 0 then cnt (in_phase k) (bthreads st) else 0;
  inv_closing :
    (cnt closing (bthreads st) = 1 /\ cnt (in_phase k) (bthreads st) = n) \/
    (cnt closing (bthreads st) = 0 /\ cnt (in_phase k) (bthreads st) < n);
}.

Lemma lookup_insert_cases {A} (l : list A) (i j : nat) (x y : A) :
  <[i := x]> l !! j = Some y -> (j = i /\ y = x) \/ (j <> i /\ l !! j = Some y).
Proof.
  intros H. destruct (decide (j = i)) as [->|Hne].
  - left. split; [done|]. apply lookup_lt_Some in H as Hlt. rewrite length_insert in Hlt.
    rewrite list_lookup_insert_eq in H by done. congruence.
  - right. split; [done|]. by rewrite list_lookup_insert_ne in H by done.
Qed.

Lemma cnt_start f n :
  f (mk_bthread Outside 0) = false -> cnt f (bthreads (barrier_start n)) = 0.
Proof. intros Hf. apply cnt_false. by intros i t [-> _]%lookup_replicate_1. Qed.

Lemma barrier_inv_start n : 2 <= n -> barrier_inv n 0 (barrier_start n).
Proof.
  intros Hn. split; try done.
  - simpl. rewrite length_replicate. lia.
  - intros i t [-> _]%lookup_replicate_1. done.
  - by rewrite !cnt_start.
  - right. rewrite !cnt_start by done. lia.
Qed.

Lemma sense_flip k : Z.lxor (k mod 2) 1 = (k + 1) mod 2.
Proof.
  pose proof (Z.mod_pos_bound k 2). rewrite Z.add_mod by done.
  by assert (k mod 2 = 0 \/ k mod 2 = 1) as [-> | ->] by lia.
Qed.

(** Replacing one thread: the counters move by the difference. *)
Lemma barrier_inv_update n k st i t t' c' :
  barrier_inv n k st -> bthreads st !! i = Some t ->
  comm_n_threads c' = n -> barrier_sense c' = barrier_sense (bcomm st) ->
  bthread_ok k (barrier_sense (bcomm st)) t' ->
  (let ph := cnt (in_phase k) (bthreads st) - Z.b2z (in_phase k t) + Z.b2z (in_phase k t') in
   let cl := cnt closing (bthreads st) - Z.b2z (closing t) + Z.b2z (closing t') in
   let rs := cnt is_reset (bthreads st) - Z.b2z (is_reset t) + Z.b2z (is_reset t') in
   barrier_threads_arrived c' = (if rs =? 0 then ph else 0) /\
   ((cl = 1 /\ ph = n) \/ (cl = 0 /\ ph < n))) ->
  barrier_inv n k (mk_bstate c' (<[i := t']> (bthreads st))).
Proof.
  intros [Hsz Hn Hs Hok Hc Hcl] Hi Hn' Hs' Ht' Hcnt. split; simpl.
  - by rewrite length_insert.
  - done.
  - by rewrite Hs'.
  - intros j u Hj. rewrite Hs'. apply lookup_insert_cases in Hj as [[_ ->]|[_ Hj]]; eauto.
  - rewrite !(cnt_insert _ _ _ _ _ Hi). exact (proj1 Hcnt).
  - rewrite !(cnt_insert _ _ _ _ _ Hi). exact (proj2 Hcnt).
Qed.

Lemma cnt_reset_closing l : 0 <= cnt is_reset l <= cnt closing l.
Proof.
  induction l as [|t l IH]; simpl; [lia|]. unfold closing in *.
  destruct (is_last t), (is_reset t); simpl; lia.
Qed.

(** The step that flips the sense: everybody is counted in phase [k], so the
    team moves to phase [k + 1] together. *)
Lemma barrier_inv_flip n k st i t s :
  2 <= n -> barrier_inv n k st -> bthreads st !! i = Some t -> pc t = CounterReset s ->
  barrier_inv n (k + 1)
    (mk_bstate (set_sense (bcomm st) (Z.lxor (barrier_sense (bcomm st)) 1))
       (<[i := mk_bthread Outside (passed t + 1)]> (bthreads st))).
Proof.
  intros Hn2 [Hsz Hn Hs Hok Hc Hcl] Hi Hpc.
  assert (closing t = true) as Hclt by (unfold closing, is_reset, is_last; by rewrite Hpc).
  pose proof (cnt_pos closing _ _ _ Hi Hclt).
  destruct Hcl as [[Hcl Hph]|[? _]]; [|lia].
  assert (passed t = k) as Hpt by (pose proof (Hok i t Hi) as Ht; unfold bthread_ok in Ht;
    rewrite Hpc in Ht; lia).
  assert (forall j u, bthreads st !! j = Some u -> j <> i ->
    pc u = Spinning (barrier_sense (bcomm st)) /\ passed u = k) as Hothers.
  { intros j u Hj Hne.
    pose proof (cnt_one closing _ i j t u Hcl Hi Hclt Hj Hne) as Hncl.
    assert (in_phase k u = true) as Hin by (apply (cnt_full _ (bthreads st) j); [lia|done]).
    pose proof (Hok j u Hj) as Hu. unfold in_phase, counted, closing, is_last, is_reset in *.
    unfold bthread_ok in Hu. destruct (pc u); simpl in *; try done.
    apply Z.eqb_eq in Hin. destruct Hu as [[_ ->]|[? _]]; [done|lia]. }
  pose proof (sense_flip k) as Hflip. rewrite <- Hs in Hflip.
  assert (Z.lxor (barrier_sense (bcomm st)) 1 <> barrier_sense (bcomm st)) as Hne.
  { rewrite Hflip, Hs. pose proof (Z.mod_pos_bound k 2). dlia. }
  assert (forall f, f (mk_bthread Outside (passed t + 1)) = false ->
    (forall u, pc u = Spinning (barrier_sense (bcomm st)) -> passed u = k -> f u = false) ->
    cnt f (<[i := mk_bthread Outside (passed t + 1)]> (bthreads st)) = 0) as Hz.
  { intros f Hf1 Hf2. apply cnt_false. intros j u [[_ ->]|[Hji Hj]]%lookup_insert_cases; [done|].
    destruct (Hothers j u Hj Hji). by apply Hf2. }
  assert (cnt closing (bthreads (mk_bstate (bcomm st) (<[i:=mk_bthread Outside (passed t + 1)]>
    (bthreads st)))) = 0) as Hz1.
  { apply Hz; [done|]. intros u Hu _. unfold closing, is_last, is_reset. by rewrite Hu. }
  assert (cnt (in_phase (k + 1)) (<[i:=mk_bthread Outside (passed t + 1)]> (bthreads st)) = 0)
    as Hz2.
  { apply Hz; [done|]. intros u _ Hu. unfold in_phase. rewrite Hu.
    rewrite (proj2 (Z.eqb_neq k (k + 1))) by lia. apply andb_false_r. }
  split; simpl.
  - by rewrite length_insert.
  - done.
  - done.
  - intros j u [[_ ->]|[Hji Hj]]%lookup_insert_cases; [unfold bthread_ok; simpl; lia|].
    destruct (Hothers j u Hj Hji) as [Hpcu Hpu]. unfold bthread_ok. rewrite Hpcu. right.
    split; [lia|]. by intros E.
  - rewrite Hz2, Hc. destruct (Z.eqb_spec (cnt is_reset (bthreads st)) 0) as [E|E].
    + pose proof (cnt_pos is_reset _ _ t Hi ltac:(unfold is_reset; by rewrite Hpc)). lia.
    + by destruct (_ =? 0).
  - right. simpl in Hz1. lia.
Qed.

Lemma in_phase_bounds n k st :
  barrier_inv n k st -> 0 <= cnt (in_phase k) (bthreads st) <= n.
Proof. intros Hinv. pose proof (cnt_bounds (in_phase k) (bthreads st)). rewrite (inv_size _ _ _ Hinv) in H. lia. Qed.

Lemma barrier_inv_step n k st st' :
  2 <= n -> barrier_inv n k st -> barrier_step st st' ->
  barrier_inv n k st' \/ barrier_inv n (k + 1) st'.
Proof.
  intros Hn2 Hinv [i Hstep]. pose proof Hinv as [Hsz Hn Hs Hok Hc Hcl].
  pose proof (in_phase_bounds _ _ _ Hinv) as Hph.
  pose proof (cnt_reset_closing (bthreads st)) as Hrc.
  unfold thread_step in Hstep. destruct (bthreads st !! i) as [t|] eqn:Hi; simpl in Hstep; [|done].
  pose proof (Hok i t Hi) as Ht. unfold bthread_ok in Ht.
  destruct (dlp_atomic_barrier_step (bcomm st) t) as [[c' t']|] eqn:Hb; simpl in Hstep; [|done].
  injection Hstep as <-. unfold dlp_atomic_barrier_step in Hb.
  destruct (pc t) as [|s|s|s|s] eqn:Hpc.
  - left. zcase_in Hb; [lia|]. injection Hb as <- <-.
    apply barrier_inv_update with t; try done.
    unfold in_phase, closing, counted, is_last, is_reset. rewrite Hpc. simpl. rewrite Hc.
    rewrite !Z.sub_0_r, !Z.add_0_r. by split.
  - left. destruct Ht as [Hpt ->].
    assert (cnt closing (bthreads st) = 0 /\ cnt (in_phase k) (bthreads st) < n) as [Hcl0 Hlt].
    { destruct Hcl as [[_ Hfull]|]; [|done]. exfalso.
      assert (in_phase k t = true) as E by (apply (cnt_full _ (bthreads st) i); [lia|done]).
      unfold in_phase, counted in E. by rewrite Hpc in E. }
    assert (cnt is_reset (bthreads st) = 0) as Hr0 by lia. rewrite Hr0 in Hc. simpl in Hc.
    simpl in Hb. rewrite Hc in Hb.
    zcase_in Hb; injection Hb as <- <-; (apply barrier_inv_update with t; try done).
    2: { unfold bthread_ok. simpl. left. by split. }
    all: unfold in_phase, closing, counted, is_last, is_reset in *; rewrite Hpc; simpl in *;
      rewrite ?Hpt, ?Z.eqb_refl; simpl; rewrite ?Hr0; simpl; lia.
  - left. zcase_in Hb; [done|]. injection Hb as <- <-.
    destruct Ht as [[_ ->]|[Hpt Hne]]; [done|].
    apply barrier_inv_update with t; try done; [unfold bthread_ok; simpl; lia|].
    unfold in_phase, closing, counted, is_last, is_reset. rewrite Hpc, Hpt. simpl.
    rewrite (proj2 (Z.eqb_neq (k - 1) k)) by lia. simpl. rewrite Hc.
    rewrite !Z.sub_0_r, !Z.add_0_r. by split.
  - left. destruct Ht as [Hpt ->]. injection Hb as <- <-.
    assert (closing t = true) as Hclt by (unfold closing, is_last; by rewrite Hpc).
    pose proof (cnt_pos closing _ _ _ Hi Hclt).
    destruct Hcl as [[Hcl1 Hfull]|[? _]]; [|lia].
    apply barrier_inv_update with t; try done.
    unfold in_phase, closing, counted, is_last, is_reset in *. rewrite Hpc. simpl.
    rewrite Hpt, Z.eqb_refl. simpl. split; [|left; lia].
    zcase; lia.
  - right. injection Hb as <- <-. by apply barrier_inv_flip with s.
Qed.

(** A team of one never touches the communicator. *)
Definition solo_inv (st : bstate) : Prop :=
  exists p, bthreads st = [mk_bthread Outside p] /\ bcomm st = dlp_task_comm_init 1.

Lemma barrier_reachable_inv n st :
  1 <= n -> barrier_reachable n st ->
  (n = 1 /\ solo_inv st) \/ (2 <= n /\ exists k, barrier_inv n k st).
Proof.
  intros Hn Hr. induction Hr as [|st st' Hr IH Hstep].
  - destruct (decide (n = 1)) as [->|]; [left; split; [done|by exists 0]|].
    right. split; [lia|]. exists 0. apply barrier_inv_start. lia.
  - destruct IH as [[-> (p & Hts & Hc)]|[Hn2 [k Hinv]]].
    + left. split; [done|]. destruct Hstep as [[|i] Hs]; unfold thread_step in Hs;
        rewrite Hts, Hc in Hs; simplify_eq/=. by exists (p + 1).
    + right. split; [done|].
      destruct (barrier_inv_step _ _ _ _ Hn2 Hinv Hstep) as [?|?]; eauto.
Qed.

Lemma bthread_ok_arrivals k s t : bthread_ok k s t -> passed t <= k <= arrivals t.
Proof.
  unfold bthread_ok, arrivals, counted. destruct (pc t); simpl; lia.
Qed.

(** C17. The barrier separates phases: under every interleaving of the atomic
    accesses, no thread has returned from its [p]-th call before every thread of
    the team has arrived in its own [p]-th call, in every round although the
    communicator is never re-initialized.  In particular no two threads are more
    than one call apart. *)
Theorem barrier_separates (n : Z) (st : bstate) (i j : nat) (ti tj : bthread) :
  1 <= n -> barrier_reachable n st ->
  bthreads st !! i = Some ti -> bthreads st !! j = Some tj ->
  passed ti <= arrivals tj /\ passed ti <= passed tj + 1.
Proof.
  intros Hn Hr Hi Hj.
  assert (passed ti <= arrivals tj) as H.
  { destruct (barrier_reachable_inv n st Hn Hr) as [[_ (p & Hts & _)]|[_ [k Hinv]]].
    - rewrite Hts in Hi, Hj. destruct i, j; simplify_eq/=. unfold arrivals. simpl. lia.
    - pose proof (bthread_ok_arrivals _ _ _ (inv_threads _ _ _ Hinv _ _ Hi)).
      pose proof (bthread_ok_arrivals _ _ _ (inv_threads _ _ _ Hinv _ _ Hj)). lia. }
  split; [done|]. unfold arrivals in H. destruct (counted tj); simpl in H; lia.
Qed.

(** Steps left for a thread to return from [K] calls. *)
Definition barrier_rank (p : barrier_pc) : Z :=
  match p with Outside => 0 | SenseLoaded _ => 1 | Spinning _ | LastArrived _ => 2
             | CounterReset _ => 3 end.
Definition calls_left (K : Z) (t : bthread) : Z :=
  if passed t <? K then 4 * (K - passed t) - barrier_rank (pc t) else 0.
Definition work_left (K : Z) (st : bstate) : Z := total (calls_left K) (bthreads st).

Lemma barrier_rank_bounds p : 0 <= barrier_rank p <= 3.
Proof. destruct p; simpl; lia. Qed.

Lemma calls_left_nonneg K t : 0 <= calls_left K t.
Proof. unfold calls_left. pose proof (barrier_rank_bounds (pc t)). zcase; lia. Qed.

Lemma step_calls_left K c t c' t' :
  passed t < K -> dlp_atomic_barrier_step c t = Some (c', t') -> calls_left K t' < calls_left K t.
Proof.
  intros HK Hs. unfold dlp_atomic_barrier_step in Hs. unfold calls_left.
  destruct (pc t) eqn:Hpc; repeat zcase_in Hs; simplify_eq/=; rewrite ?Hpc; simpl;
    repeat zcase; lia.
Qed.

Lemma step_work_left K i st st' t :
  bthreads st !! i = Some t -> passed t < K -> thread_step i st = Some st' ->
  work_left K st' < work_left K st.
Proof.
  intros Hi HK Hs. unfold thread_step in Hs. rewrite Hi in Hs. simpl in Hs.
  destruct (dlp_atomic_barrier_step _ _) as [[c' t']|] eqn:Hb; simplify_eq/=.
  unfold work_left. simpl. rewrite (total_insert _ _ _ _ _ Hi).
  pose proof (step_calls_left K _ _ _ _ HK Hb). lia.
Qed.

(** A thread that is not spinning on the current sense has a step. *)
Definition can_step (s : Z) (t : bthread) : Prop :=
  match pc t with Spinning s' => s' <> s | _ => True end.

Lemma can_step_ok i st t :
  bthreads st !! i = Some t -> can_step (barrier_sense (bcomm st)) t ->
  exists st', thread_step i st = Some st'.
Proof.
  intros Hi Hc. unfold thread_step. rewrite Hi. simpl. unfold dlp_atomic_barrier_step, can_step in *.
  destruct (pc t); simpl; try zcase; simpl; eauto; by subst.
Qed.

Lemma barrier_inv_enabled n k st K :
  barrier_inv n k st -> (exists i t, bthreads st !! i = Some t /\ passed t < K) ->
  exists i t, bthreads st !! i = Some t /\ passed t < K /\
    can_step (barrier_sense (bcomm st)) t.
Proof.
  intros Hinv (i0 & t0 & Hi0 & H0). pose proof Hinv as [Hsz Hn Hs Hok Hc Hcl].
  assert (forall i t, bthreads st !! i = Some t -> closing t = true \/ in_phase k t = false ->
    passed t <= passed t0 \/ passed t = k /\ passed t0 = k - 1 ->
    can_step (barrier_sense (bcomm st)) t) as Hstep.
  { intros i t Hi Hor _. pose proof (Hok i t Hi) as Ht.
    unfold bthread_ok, can_step, closing, in_phase, is_last, is_reset, counted in *.
    destruct (pc t); try done. destruct Hor as [|Hf]; [done|]. simpl in Hf.
    apply Z.eqb_neq in Hf. lia. }
  pose proof (Hok i0 t0 Hi0) as Ht0.
  assert (can_step (barrier_sense (bcomm st)) t0 \/ passed t0 = k) as [|Hk0].
  { unfold bthread_ok, can_step in *. destruct (pc t0); auto. lia. }
  { by exists i0, t0. }
  destruct Hcl as [[H1 _]|[_ Hlt]].
  - destruct (cnt_exists closing (bthreads st)) as (i & t & Hi & Ht); [lia|].
    pose proof (bthread_ok_arrivals _ _ _ (Hok i t Hi)).
    exists i, t. split; [done|]. split; [lia|]. apply (Hstep i); auto. left. lia.
  - destruct (cnt_not_full (in_phase k) (bthreads st)) as (i & t & Hi & Ht); [lia|].
    pose proof (bthread_ok_arrivals _ _ _ (Hok i t Hi)).
    exists i, t. split; [done|]. split; [lia|]. apply (Hstep i); auto. left. lia.
Qed.

Lemma barrier_enabled n st K :
  1 <= n -> barrier_reachable n st ->
  (exists i t, bthreads st !! i = Some t /\ passed t < K) ->
  exists i t st', bthreads st !! i = Some t /\ passed t < K /\ thread_step i st = Some st'.
Proof.
  intros Hn Hr Hex. assert (exists i t, bthreads st !! i = Some t /\ passed t < K /\
    can_step (barrier_sense (bcomm st)) t) as (i & t & Hi & Ht & Hc).
  { destruct (barrier_reachable_inv n st Hn Hr) as [[_ (p & Hts & _)]|[_ [k Hinv]]].
    - rewrite Hts in *. destruct Hex as ([|i] & t & Hi & Ht); simplify_eq/=.
      by exists 0%nat, (mk_bthread Outside p).
    - by eapply barrier_inv_enabled. }
  destruct (can_step_ok i st t Hi Hc) as [st' Hs]. by exists i, t, st'.
Qed.

Lemma barrier_completes n K st :
  1 <= n -> barrier_reachable n st ->
  exists st', rtc barrier_step st st' /\ forall i t, bthreads st' !! i = Some t -> K <= passed t.
Proof.
  intros Hn. remember (Z.to_nat (work_left K st)) as w eqn:Ew. revert st Ew.
  induction w as [w IH] using lt_wf_ind. intros st -> Hr.
  destruct (decide (Exists (fun t => passed t < K) (bthreads st))) as [Hex|Hno].
  - apply Exists_exists in Hex as (t0 & [i0 Hi0]%list_elem_of_In%list_elem_of_lookup & Ht0).
    destruct (barrier_enabled n st K Hn Hr) as (i & t & st' & Hi & Ht & Hs); [by eauto|].
    pose proof (step_work_left K i st st' t Hi Ht Hs).
    pose proof (total_nonneg (calls_left K) (bthreads st') (calls_left_nonneg K)).
    unfold work_left in *.
    destruct (IH (Z.to_nat (total (calls_left K) (bthreads st')))) with (st := st')
      as (st'' & Hrtc & Hall); [lia|done| |].
    { eapply barrier_reach_step; [done|by exists i]. }
    exists st''. split; [|done]. eapply rtc_l; [by exists i|done].
  - exists st. split; [done|]. intros i t Hi. apply Z.nlt_ge. intros Hlt.
    apply Hno, Exists_exists. exists t. split; [|done].
    by eapply list_elem_of_In, list_elem_of_lookup_2.
Qed.

(** C18. The barrier does not deadlock and no wake-up is lost: from any
    reachable state, as long as some thread has not returned from its [K]-th
    call, some such thread can make a step that is not a turn of the waiting
    loop; every such step strictly decreases a nonnegative measure; hence
    there is a continuation in which the whole team has returned [K] times. *)
Theorem barrier_progress (n K : Z) (st : bstate) :
  1 <= n -> barrier_reachable n st ->
  ((exists i t, bthreads st !! i = Some t /\ passed t < K) ->
   exists i t st', bthreads st !! i = Some t /\ passed t < K /\ thread_step i st = Some st') /\
  (forall i t st', bthreads st !! i = Some t -> passed t < K -> thread_step i st = Some st' ->
   0 <= work_left K st' < work_left K st) /\
  (exists st', rtc barrier_step st st' /\
   forall i t, bthreads st' !! i = Some t -> K <= passed t).
Proof.
  intros Hn Hr. split; [by eapply barrier_enabled|]. split.
  { intros i t st' Hi Ht Hs. split; [|by eapply step_work_left].
    apply total_nonneg, calls_left_nonneg. }
  by apply barrier_completes with n.
Qed.

Lemma barrier_progress_witness :
  exists st', rtc barrier_step (barrier_start 4) st' /\
    forall i t, bthreads st' !! i = Some t -> 10 <= passed t.
Proof.
  exact (proj2 (proj2 (barrier_progress 4 10 (barrier_start 4) ltac:(lia)
    (barrier_reach_start 4)))).
Defined.

Lemma barrier_separates_witness :
  passed (mk_bthread Outside 0) <= arrivals (mk_bthread Outside 0).
Proof.
  exact (proj1 (barrier_separates 2 (barrier_start 2) 0 1 (mk_bthread Outside 0)
    (mk_bthread Outside 0) ltac:(lia) (barrier_reach_start 2) eq_refl eq_refl)).
Defined.
