(* ===== verification/PrimeFactors.v ===== *)
(** * Prime factors and the 2x2 thread partition
    (frame/threading/dlp_gemm_thread_utils.c)

    The factor generator is a [while] loop over a mutable record; it is modelled
    with fuel, and the [_terminates] lemmas show the fuel of the wrappers is
    enough.  [(md_t)sqrt((double)n)] is the integer square root: thread counts
    are far below 2^52, where the double conversion is exact and the correctly
    rounded [sqrt] truncates to it. *)
From S2P Require Import Prelude.

Record dlp_prime_factors_t := mk_factors {
  pf_n : Z;
  pf_sqrt_n : Z;
  pf_f : Z;
}.

Definition dlp_prime_factorization (n : Z) : dlp_prime_factors_t :=
  {| pf_n := n; pf_sqrt_n := Z.sqrt n; pf_f := 2 |}.

(** One turn of the [while] body of [dlp_next_prime_factor]: return a factor, or
    move to the next candidate. *)
Definition next_prime_factor_step (fs : dlp_prime_factors_t)
    : (Z * dlp_prime_factors_t) + dlp_prime_factors_t :=
  let take d := inl (d, mk_factors (pf_n fs `quot` d) (pf_sqrt_n fs) (pf_f fs)) in
  let go f' := inr (mk_factors (pf_n fs) (pf_sqrt_n fs) f') in
  if pf_f fs =? 2 then (if pf_n fs `rem` 2 =? 0 then take 2 else go 3)
  else if pf_f fs =? 3 then (if pf_n fs `rem` 3 =? 0 then take 3 else go 5)
  else if pf_f fs =? 5 then (if pf_n fs `rem` 5 =? 0 then take 5 else go 7)
  else if pf_f fs =? 7 then (if pf_n fs `rem` 7 =? 0 then take 7 else go 11)
  else (if pf_n fs `rem` pf_f fs =? 0 then take (pf_f fs) else go (pf_f fs + 1)).

Fixpoint next_prime_factor_loop (fuel : nat) (fs : dlp_prime_factors_t)
    : option (Z * dlp_prime_factors_t) :=
  if pf_f fs <=? pf_sqrt_n fs then
    match fuel with
    | O => None
    | S fuel =>
        match next_prime_factor_step fs with
        | inl r => Some r
        | inr fs' => next_prime_factor_loop fuel fs'
        end
    end
  else Some (pf_n fs, mk_factors 1 (pf_sqrt_n fs) (pf_f fs)).

Definition dlp_next_prime_factor (fs : dlp_prime_factors_t)
    : option (Z * dlp_prime_factors_t) :=
  next_prime_factor_loop (Z.to_nat (pf_sqrt_n fs + 1 - pf_f fs)) fs.

Definition dlp_is_prime (n : Z) : option bool :=
  if n <? 2 then Some false
  else
    '(f, _) ← dlp_next_prime_factor (dlp_prime_factorization n);
    Some (f =? n).

(** The [while ((f = dlp_next_prime_factor(&factors)) > 1)] loop of the
    partition: each factor goes to the side with more work left. *)
Record partition_state := mk_partition {
  ps_work1 : Z; ps_work2 : Z; ps_tn1 : Z; ps_tn2 : Z;
}.

Definition partition_assign (f : Z) (p : partition_state) : partition_state :=
  if ps_work2 p <? ps_work1 p then
    mk_partition (ps_work1 p `quot` f) (ps_work2 p) (ps_tn1 p * f) (ps_tn2 p)
  else
    mk_partition (ps_work1 p) (ps_work2 p `quot` f) (ps_tn1 p) (ps_tn2 p * f).

Fixpoint partition_loop (fuel : nat) (fs : dlp_prime_factors_t) (p : partition_state)
    : option partition_state :=
  match fuel with
  | O => None
  | S fuel =>
      '(f, fs') ← dlp_next_prime_factor fs;
      if 1 <? f then partition_loop fuel fs' (partition_assign f p) else Some p
  end.

Definition dlp_abs (a : Z) : Z := if a <=? 0 then - a else a.

(** The final rebalancing by a factor of two. *)
Definition partition_rebalance (p : partition_state) : Z * Z :=
  let '(mk_partition work1 work2 tn1 tn2) := p in
  if work2 <? work1 then
    if tn2 `rem` 2 =? 0 then
      let diff := work1 - work2 in
      let diff_mod := dlp_abs (work1 `quot` 2 - work2 * 2) in
      if diff_mod <? diff then (tn1 * 2, tn2 `quot` 2) else (tn1, tn2)
    else (tn1, tn2)
  else if work1 <? work2 then
    if tn1 `rem` 2 =? 0 then
      let diff := work2 - work1 in
      let diff_mod := dlp_abs (work2 `quot` 2 - work1 * 2) in
      if diff_mod <? diff then (tn1 `quot` 2, tn2 * 2) else (tn1, tn2)
    else (tn1, tn2)
  else (tn1, tn2).

(** [dlp_thread_partition_2x2]: the pair [( *nt1, *nt2)]. *)
Definition dlp_thread_partition_2x2 (n_thread work1 work2 : Z) : option (Z * Z) :=
  if n_thread <? 4 then
    Some (if work2 <=? work1 then n_thread else 1,
          if work1 <? work2 then n_thread else 1)
  else
    p ← partition_loop (Z.to_nat (Z.log2 n_thread) + 2)
          (dlp_prime_factorization n_thread) (mk_partition work1 work2 1 1);
    Some (partition_rebalance p).

(** ** The factor generator *)

(** No divisor of the current [n] below the candidate [f], and the search bound
    covers the square root of what is left. *)
Record factors_wf (fs : dlp_prime_factors_t) : Prop := {
  wf_n : 1 <= pf_n fs;
  wf_f : 2 <= pf_f fs;
  wf_skip : pf_f fs = 2 \/ pf_f fs = 3 \/ pf_f fs = 5 \/ pf_f fs = 7 \/ 11 <= pf_f fs;
  wf_sqrt : Z.sqrt (pf_n fs) <= pf_sqrt_n fs;
  wf_min : forall e, 2 <= e < pf_f fs -> ~ (e | pf_n fs);
}.

Lemma factorization_wf n : 1 <= n -> factors_wf (dlp_prime_factorization n).
Proof. split; simpl; try lia. Qed.

Lemma rem_divide n d : 1 <= n -> 2 <= d -> (n `rem` d =? 0) = true <-> (d | n).
Proof.
  intros. cdiv. rewrite Z.eqb_eq. split; intros Hd.
  - apply Z.mod_divide; lia.
  - apply Z.mod_divide in Hd; lia.
Qed.

(** A number without divisors up to its square root is prime. *)
Lemma prime_of_no_divisor n :
  2 <= n -> (forall e, 2 <= e -> e <= Z.sqrt n -> ~ (e | n)) -> Z.prime n.
Proof.
  intros Hn Hno. split; [lia|]. intros d Hd Hdiv.
  destruct Hdiv as [e He].
  assert (2 <= e) by nia.
  destruct (decide (d <= Z.sqrt n)) as [Hle|Hgt].
  - apply (Hno d); [lia..|]. exists e. lia.
  - apply (Hno e); [lia| |exists d; lia].
    pose proof (Z.sqrt_spec n ltac:(lia)) as [_ Hs]. pose proof (Z.sqrt_nonneg n). apply Z.nlt_ge. intros Hlt.
    assert (Z.succ (Z.sqrt n) * Z.succ (Z.sqrt n) <= e * d) by (apply Z.mul_le_mono_nonneg; lia).
    lia.
Qed.

Lemma prime_of_least_divisor n d :
  2 <= d -> (d | n) -> (forall e, 2 <= e < d -> ~ (e | n)) -> Z.prime d.
Proof.
  intros Hd Hdn Hmin. split; [lia|]. intros e He Hed.
  apply (Hmin e); [lia|]. by transitivity d.
Qed.

(** What one call of [dlp_next_prime_factor] promises. *)
Definition next_factor_post (fs : dlp_prime_factors_t) (d : Z)
    (fs' : dlp_prime_factors_t) : Prop :=
  factors_wf fs' /\ 1 <= d /\ pf_n fs = d * pf_n fs' /\
  (forall e, 2 <= e < d -> e <= pf_sqrt_n fs -> ~ (e | pf_n fs)) /\
  ((d = 1 /\ pf_n fs = 1) \/ Z.prime d) /\ (d <= pf_sqrt_n fs \/ d = pf_n fs).

Lemma step_take fs d :
  factors_wf fs -> d = pf_f fs -> d <= pf_sqrt_n fs -> (pf_n fs `rem` d =? 0) = true ->
  next_factor_post fs d (mk_factors (pf_n fs `quot` d) (pf_sqrt_n fs) (pf_f fs)).
Proof.
  intros [Hn Hf Hsk Hsq Hmin] -> Hle Hdiv.
  apply rem_divide in Hdiv; [|done..]. destruct Hdiv as [e He].
  assert (pf_n fs `quot` pf_f fs = e) as -> by (rewrite He, Z.quot_mul; lia).
  assert (1 <= e) by nia. unfold next_factor_post; simpl. split_and!; try lia.
  - split; simpl; try done.
    + etransitivity; [|exact Hsq]. apply Z.sqrt_le_mono. nia.
    + intros c Hc Hce. apply (Hmin c Hc). rewrite He. by apply Z.divide_mul_l.
  - intros c ? _. by apply Hmin.
  - right. apply (prime_of_least_divisor (pf_n fs)); [done|by exists e|done].
Qed.

(** Moving on from a candidate that does not divide: the candidates jumped over
    are multiples of smaller ones. *)
Lemma wf_advance fs f' :
  factors_wf fs -> (pf_n fs `rem` pf_f fs =? 0) = false ->
  pf_f fs < f' -> (f' = 3 \/ f' = 5 \/ f' = 7 \/ 11 <= f') ->
  (forall e, pf_f fs < e < f' -> exists c, 2 <= c < pf_f fs /\ (c | e)) ->
  factors_wf (mk_factors (pf_n fs) (pf_sqrt_n fs) f').
Proof.
  intros [Hn Hf Hsk Hsq Hmin] Hnd Hlt Hf' Hcomp.
  assert (~ (pf_f fs | pf_n fs)) as Hnot.
  { intros Hd. apply rem_divide in Hd; [congruence|done..]. }
  split; simpl; try done; [lia..|]. intros e He Hdiv.
  destruct (Z.lt_trichotomy e (pf_f fs)) as [|[->|Hgt]]; [apply (Hmin e); [lia|done]|done|].
  destruct (Hcomp e) as (c & Hc & Hce); [lia|]. apply (Hmin c); [lia|]. by transitivity e.
Qed.

Lemma next_prime_factor_step_ok fs :
  factors_wf fs -> pf_f fs <= pf_sqrt_n fs ->
  match next_prime_factor_step fs with
  | inl (d, fs') => next_factor_post fs d fs'
  | inr fs' => factors_wf fs' /\ pf_n fs' = pf_n fs /\
               pf_sqrt_n fs' = pf_sqrt_n fs /\ pf_f fs < pf_f fs'
  end.
Proof.
  intros Hwf Hle. unfold next_prime_factor_step.
  destruct (wf_skip _ Hwf) as [E|[E|[E|[E|E]]]].
  1-4: rewrite E; simpl; destruct (pf_n fs `rem` _ =? 0) eqn:Hr;
    [rewrite <- E in Hr |- *; by apply step_take|].
  1-4: simpl; split; [apply wf_advance; rewrite ?E; [exact Hwf|exact Hr|lia|lia|]|lia].
  - intros e ?. lia.
  - intros e ?. exists 2. split; [lia|]. assert (e = 4) as -> by lia. by exists 2.
  - intros e ?. exists 2. split; [lia|]. assert (e = 6) as -> by lia. by exists 3.
  - intros e ?. assert (e = 8 \/ e = 9 \/ e = 10) as [->|[->| ->]] by lia.
    + exists 2. split; [lia|by exists 4].
    + exists 3. split; [lia|by exists 3].
    + exists 2. split; [lia|by exists 5].
  - repeat (rewrite (proj2 (Z.eqb_neq (pf_f fs) _)) by lia).
    destruct (pf_n fs `rem` pf_f fs =? 0) eqn:Hr; [by apply step_take|].
    simpl. split; [|lia]. apply wf_advance; [done|done|lia|lia|]. intros; lia.
Qed.

Lemma next_prime_factor_exit fs :
  factors_wf fs -> pf_sqrt_n fs < pf_f fs ->
  next_factor_post fs (pf_n fs) (mk_factors 1 (pf_sqrt_n fs) (pf_f fs)).
Proof.
  intros [Hn Hf Hsk Hsq Hmin] Hgt. unfold next_factor_post; simpl. split_and!; try lia.
  - split; simpl; try done.
    + pose proof (Z.sqrt_le_mono 1 _ Hn) as Hm. by transitivity (Z.sqrt (pf_n fs)).
    + intros e He Hd. apply Z.divide_1_r_nonneg in Hd; lia.
  - intros e ??. apply Hmin. lia.
  - destruct (decide (pf_n fs = 1)); [by left|right].
    apply prime_of_no_divisor; [lia|]. intros e ??. apply Hmin. lia.
Qed.

Lemma next_prime_factor_loop_ok fuel fs :
  factors_wf fs -> pf_sqrt_n fs + 1 - pf_f fs <= Z.of_nat fuel ->
  exists d fs', next_prime_factor_loop fuel fs = Some (d, fs') /\ next_factor_post fs d fs'.
Proof.
  revert fs. induction fuel as [|fuel IH]; intros fs Hwf Hfuel; simpl.
  all: destruct (Z.leb_spec (pf_f fs) (pf_sqrt_n fs)) as [Hle|Hgt]; try lia.
  1,3: eexists _, _; split; [done|]; by apply next_prime_factor_exit.
  pose proof (next_prime_factor_step_ok fs Hwf Hle) as Hs.
  destruct (next_prime_factor_step fs) as [[d fs']|fs']; [by eauto|].
  destruct Hs as (Hwf' & En & Es & Hlt).
  destruct (IH fs' Hwf') as (d & fs'' & -> & Hp); [lia|].
  exists d, fs''. split; [done|]. unfold next_factor_post in *. by rewrite <- En, <- Es.
Qed.

Lemma dlp_next_prime_factor_ok fs :
  factors_wf fs ->
  exists d fs', dlp_next_prime_factor fs = Some (d, fs') /\ next_factor_post fs d fs'.
Proof. intros Hwf. apply next_prime_factor_loop_ok; [done|lia]. Qed.

(** ** Primality *)

Lemma is_prime_ok (n : Z) :
  exists b, dlp_is_prime n = Some b /\ (b = true <-> Z.prime n).
Proof.
  unfold dlp_is_prime. destruct (Z.ltb_spec n 2) as [Hlt|Hge].
  { exists false. split; [done|]. split; [done|]. intros [? _]. lia. }
  destruct (dlp_next_prime_factor_ok (dlp_prime_factorization n)) as (d & fs' & -> & Hp).
  { apply factorization_wf. lia. }
  destruct Hp as (Hwf' & Hd & Heq & Hmin & Hpr & Hbnd). simpl in *.
  eexists; split; [done|]. rewrite Z.eqb_eq. split.
  - intros ->. destruct Hpr as [[? ?]|]; [lia|done].
  - intros Hprime. destruct Hpr as [[? ?]|Hpd]; [lia|].
    apply Z.divide_prime_prime; [done..|]. exists (pf_n fs'). lia.
Qed.

(** The primality test the heuristics rely on terminates on every input and
    decides primality. *)
Theorem dlp_is_prime_correct (n : Z) :
  exists b, dlp_is_prime n = Some b /\ (b = true <-> Z.prime n).
Proof. apply is_prime_ok. Qed.

(** ** The partition *)

(** The divisors taken so far, times what is left, is the thread count. *)
Definition partition_inv (n_thread : Z) (fs : dlp_prime_factors_t) (p : partition_state) : Prop :=
  factors_wf fs /\ 1 <= ps_tn1 p /\ 1 <= ps_tn2 p /\
  ps_tn1 p * ps_tn2 p * pf_n fs = n_thread.

Lemma partition_loop_ok fuel n_thread fs p :
  partition_inv n_thread fs p -> Z.log2 (pf_n fs) + 2 <= Z.of_nat fuel ->
  exists p', partition_loop fuel fs p = Some p' /\
    1 <= ps_tn1 p' /\ 1 <= ps_tn2 p' /\ ps_tn1 p' * ps_tn2 p' = n_thread.
Proof.
  revert fs p. induction fuel as [|fuel IH]; intros fs p (Hwf & H1 & H2 & Hprod) Hfuel.
  { pose proof (Z.log2_nonneg (pf_n fs)). lia. }
  simpl. destruct (dlp_next_prime_factor_ok fs Hwf) as (d & fs' & -> & Hp). simpl.
  destruct Hp as (Hwf' & Hd & Heq & _ & Hpr & _).
  destruct (Z.ltb_spec 1 d) as [Hlt|Hge].
  - pose proof (wf_n _ Hwf') as Hn'. apply IH.
    + split; [done|]. unfold partition_assign. zcase; simpl; split_and!; nia.
    + pose proof (Z.log2_double (pf_n fs') ltac:(lia)).
      assert (Z.log2 (2 * pf_n fs') <= Z.log2 (pf_n fs)) by (apply Z.log2_le_mono; nia). lia.
  - exists p. split; [done|]. assert (d = 1) by lia. destruct Hpr as [[_ ?]|[? _]]; [|lia].
    split_and!; nia.
Qed.

Lemma partition_rebalance_ok p :
  1 <= ps_tn1 p -> 1 <= ps_tn2 p ->
  let '(nt1, nt2) := partition_rebalance p in
  1 <= nt1 /\ 1 <= nt2 /\ nt1 * nt2 = ps_tn1 p * ps_tn2 p.
Proof.
  destruct p as [w1 w2 t1 t2]; simpl; intros H1 H2.
  assert (forall t, 1 <= t -> t `rem` 2 = 0 -> t = 2 * (t `quot` 2) /\ 1 <= t `quot` 2) as Heven.
  { intros t Ht Hr. cdiv. dlia. }
  repeat zcase; split_and!; try lia; 
    first [destruct (Heven t1); [lia|lia|nia]|destruct (Heven t2); [lia|lia|nia]].
Qed.

Lemma partition_2x2_product (n_thread work1 work2 : Z) :
  1 <= n_thread ->
  exists nt1 nt2, dlp_thread_partition_2x2 n_thread work1 work2 = Some (nt1, nt2) /\
    1 <= nt1 /\ 1 <= nt2 /\ nt1 * nt2 = n_thread.
Proof.
  intros Hn. unfold dlp_thread_partition_2x2. destruct (Z.ltb_spec n_thread 4).
  { eexists _, _; split; [done|]. repeat zcase; lia. }
  destruct (partition_loop_ok (Z.to_nat (Z.log2 n_thread) + 2) n_thread
    (dlp_prime_factorization n_thread) (mk_partition work1 work2 1 1)) as (p & -> & Hp1 & Hp2 & Hp).
  - split; [apply factorization_wf; lia|simpl; lia].
  - simpl. pose proof (Z.log2_nonneg n_thread). lia.
  - simpl. pose proof (partition_rebalance_ok p Hp1 Hp2) as Hr.
    destruct (partition_rebalance p) as [nt1 nt2]. exists nt1, nt2. split; [done|lia].
Qed.

(** C32. The 2x2 partition factors the thread count exactly: it terminates, and
    the two ways are positive and multiply to the number of threads, so no
    thread is lost and none is invented by the factor assignment and the final
    rebalancing. *)
Theorem dlp_thread_partition_2x2_product (n_thread work1 work2 : Z) :
  1 <= n_thread ->
  exists nt1 nt2, dlp_thread_partition_2x2 n_thread work1 work2 = Some (nt1, nt2) /\
    1 <= nt1 /\ 1 <= nt2 /\ nt1 * nt2 = n_thread.
Proof. apply partition_2x2_product. Qed.

Lemma dlp_thread_partition_2x2_product_witness :
  dlp_thread_partition_2x2 12 3600 3600 = Some (4, 3) /\
  exists nt1 nt2, dlp_thread_partition_2x2 12 3600 3600 = Some (nt1, nt2) /\
    1 <= nt1 /\ 1 <= nt2 /\ nt1 * nt2 = 12.
Proof. split; [reflexivity|]. apply (dlp_thread_partition_2x2_product 12 3600 3600). lia. Defined.

(** The example of the source comment: 40 threads on equal work give 5 x 8. *)
Example partition_40 : dlp_thread_partition_2x2 40 3600 3600 = Some (5, 8).
Proof. reflexivity. Qed.
