(* ===== verification/ThreadHeur.v ===== *)
(** * Threading heuristics
    (frame/threading/dlp_gemm_thread_decor_openmp.c, part one)

    How a pool of threads is factored into [ic_ways x jc_ways] for one GEMM and
    for a batch.  Everything is in the option monad: [None] is reached only if a
    factor search ran out of fuel, which the theorems exclude. *)
From S2P Require Import Prelude DlpTypes PrimeFactors.

(** ** Factor search *)

Fixpoint next_factor_loop (fuel : nat) (nt nt_temp : Z) : option Z :=
  if (nt_temp <=? nt) && negb (nt `rem` nt_temp =? 0) then
    match fuel with
    | O => None
    | S fuel => next_factor_loop fuel nt (nt_temp + 1)
    end
  else Some nt_temp.

Definition dlp_next_factor (nt part_nt : Z) : option Z :=
  if part_nt =? nt then Some part_nt
  else next_factor_loop (Z.to_nat (nt - part_nt)) nt (part_nt + 1).

Fixpoint prev_factor_loop (fuel : nat) (nt nt_temp : Z) : option Z :=
  if (1 <=? nt_temp) && negb (nt `rem` nt_temp =? 0) then
    match fuel with
    | O => None
    | S fuel => prev_factor_loop fuel nt (nt_temp - 1)
    end
  else Some nt_temp.

Definition dlp_prev_factor (nt part_nt : Z) : option Z :=
  if part_nt =? 1 then Some part_nt
  else prev_factor_loop (Z.to_nat part_nt) nt (part_nt - 1).

(** ** Adjusting a factorization *)

(** Panels of work per thread: [(mu + ic - 1) / ic + (nu + jc - 1) / jc]. *)
Definition panel_work (mu nu ic jc : Z) : Z :=
  (mu + ic - 1) `quot` ic + (nu + jc - 1) `quot` jc.

(** [dlp_gemm_pnl_wrk_heur_adjust_ic_jc_ways]: the new [( *ic_ways, *jc_ways)]. *)
Definition dlp_gemm_pnl_wrk_heur_adjust_ic_jc_ways
    (MR NR m n n_threads ic_ways jc_ways : Z) : option (Z * Z) :=
  let mu := (m + MR - 1) `quot` MR in
  let nu := (n + NR - 1) `quot` NR in
  if negb (nu `rem` jc_ways =? 0) && (ic_ways <? n_threads) then
    let panel_work_cur := panel_work mu nu ic_ways jc_ways in
    next_ic ← dlp_next_factor n_threads ic_ways;
    prev_jc ← dlp_prev_factor n_threads jc_ways;
    let panel_work_next := panel_work mu nu next_ic prev_jc in
    let '(panel_work_cur, ic_ways, jc_ways) :=
      if panel_work_next <? panel_work_cur
      then (panel_work_next, next_ic, prev_jc) else (panel_work_cur, ic_ways, jc_ways) in
    if negb (nu `rem` jc_ways =? 0) && (next_ic <? n_threads) then
      next_next_ic ← dlp_next_factor n_threads next_ic;
      prev_prev_jc ← dlp_prev_factor n_threads prev_jc;
      let panel_work_next_next := panel_work mu nu next_next_ic prev_prev_jc in
      let '(panel_work_cur, ic_ways, jc_ways) :=
        if panel_work_next_next <? panel_work_cur
        then (panel_work_next_next, next_next_ic, prev_prev_jc)
        else (panel_work_cur, ic_ways, jc_ways) in
      if negb (nu `rem` jc_ways =? 0) && (next_next_ic <? n_threads) then
        next_next_next_ic ← dlp_next_factor n_threads next_next_ic;
        prev_prev_prev_jc ← dlp_prev_factor n_threads prev_prev_jc;
        let panel_work_next_next_next :=
          panel_work mu nu next_next_next_ic prev_prev_prev_jc in
        if panel_work_next_next_next <? panel_work_cur
        then Some (next_next_next_ic, prev_prev_prev_jc)
        else Some (ic_ways, jc_ways)
      else Some (ic_ways, jc_ways)
    else Some (ic_ways, jc_ways)
  else Some (ic_ways, jc_ways).

(** [dlp_gemm_pnl_wrk_heur_adjust_threading_for_prime_nt]: the new
    [( *n_threads, *ic_ways, *jc_ways)]. *)
Definition dlp_gemm_pnl_wrk_heur_adjust_threading_for_prime_nt
    (MR NR m n n_threads ic_ways jc_ways : Z) : option (Z * Z * Z) :=
  let mr_blks := (m + MR - 1) `quot` MR in
  let nr_blks := (n + NR - 1) `quot` NR in
  let reduced_n_threads := n_threads - 1 in
  '(reduced_ic, reduced_jc) ← dlp_thread_partition_2x2 reduced_n_threads m n;
  '(reduced_ic, reduced_jc) ←
    (if reduced_ic <=? mr_blks then
       dlp_gemm_pnl_wrk_heur_adjust_ic_jc_ways MR NR m n
         reduced_n_threads reduced_ic reduced_jc
     else Some (reduced_ic, reduced_jc));
  let panel_work_org := panel_work mr_blks nr_blks ic_ways jc_ways in
  let panel_work_red := panel_work mr_blks nr_blks reduced_ic reduced_jc in
  if panel_work_red <? panel_work_org
  then Some (reduced_n_threads, reduced_ic, reduced_jc)
  else Some (n_threads, ic_ways, jc_ways).

(** [dlp_gemm_adjust_ic_jc_ways] (the f32 heuristic). *)
Definition dlp_gemm_adjust_ic_jc_ways
    (m n k MC NC KC MR NR n_threads ic_ways jc_ways m_boost : Z) : option (Z * Z) :=
  let mu := (m + MR - 1) `quot` MR in
  let nu := (n + NR - 1) `quot` NR in
  let m_ic := m `quot` ic_ways in
  let n_jc := n `quot` jc_ways in
  let cur_work_per_thread := m_ic + n_jc in
  let mu_ic := (mu + ic_ways - 1) `quot` ic_ways in
  let nu_jc := (nu + jc_ways - 1) `quot` jc_ways in
  let cur_panel_work_per_thread := mu_ic + nu_jc in
  next_ic ← dlp_next_factor n_threads ic_ways;
  next_next_ic ← dlp_next_factor n_threads next_ic;
  prev_ic ← dlp_prev_factor n_threads ic_ways;
  next_jc ← dlp_next_factor n_threads jc_ways;
  prev_jc ← dlp_prev_factor n_threads jc_ways;
  prev_prev_jc ← dlp_prev_factor n_threads prev_jc;
  let m_next_ic := m `quot` next_ic in
  let m_prev_ic := m `quot` prev_ic in
  let n_next_jc := n `quot` next_jc in
  let n_prev_jc := n `quot` prev_jc in
  let next_jc_work_per_thread := n_next_jc + m_prev_ic in
  let next_ic_work_per_thread := m_next_ic + n_prev_jc in
  let mu_next_ic := (mu + next_ic - 1) `quot` next_ic in
  let nu_prev_jc := (nu + prev_jc - 1) `quot` prev_jc in
  let next_ic_panel_work_per_thread := mu_next_ic + nu_prev_jc in
  let mu_next_next_ic := (mu + next_next_ic - 1) `quot` next_next_ic in
  let nu_prev_prev_jc := (nu + prev_prev_jc - 1) `quot` prev_prev_jc in
  let next_next_ic_panel_work_per_thread := mu_next_next_ic + nu_prev_prev_jc in
  let nu_mod_jc_ways := nu `rem` jc_ways in
  let nu_mod_prev_jc_ways := nu `rem` prev_jc in
  let MCx2 := MC * 2 in
  let k_factor := k `quot` KC in
  let n_jc_modulo_NR := n_jc `rem` NR in
  let n_prev_jc_modulo_NR := n_prev_jc `rem` NR in
  let n_next_jc_modulo_NR := n_next_jc `rem` NR in
  let can_increase_jc :=
    if (1 <? ic_ways) && (jc_ways <? n_threads) then
      if next_jc_work_per_thread <? cur_work_per_thread then true
      else (((m_ic <=? MC) && (m_prev_ic <=? MC)) || (MC <? m_ic))
           && ((NR <? n_jc) && (n_next_jc =? NR))
    else false in
  let '(can_increase_ic, can_increase_ic_twice) :=
    if (ic_ways <? n_threads) && (1 <? jc_ways) then
      if next_ic_work_per_thread <=? cur_work_per_thread then (true, false)
      else if (MC <? m_ic) && (m_next_ic <=? MC) && (MR <=? m_next_ic) && (4 <? k_factor)
        then (true, false)
      else if (m_boost * n <? m) && (MCx2 <=? m_ic) && (4 <? k_factor) then (true, false)
      else if negb (n_jc_modulo_NR =? 0) && (n_prev_jc_modulo_NR =? 0)
           && negb (can_increase_jc && (n_next_jc_modulo_NR =? 0)) then (true, false)
      else if (negb (nu_mod_jc_ways =? 0)
               || ((m_boost * n <? m) && (nu_mod_prev_jc_ways =? 0)))
           && (next_ic <=? n_threads)
           && (next_ic_panel_work_per_thread <? cur_panel_work_per_thread) then
        (true, negb (nu_mod_prev_jc_ways =? 0) && (next_next_ic <=? n_threads)
               && (next_next_ic_panel_work_per_thread <? next_ic_panel_work_per_thread))
      else (false, false)
    else (false, false) in
  if can_increase_ic then
    if can_increase_ic_twice then Some (next_next_ic, prev_prev_jc)
    else Some (next_ic, prev_jc)
  else if can_increase_jc then
    if ((n <=? m) && (next_jc <=? prev_ic)) || ((m <? n) && (prev_ic <=? next_jc))
    then Some (prev_ic, next_jc) else Some (ic_ways, jc_ways)
  else Some (ic_ways, jc_ways).

(** ** Properties of the factor search *)

(** [d] is the neighbouring divisor of [nt] above (resp. below) [part]. *)
Definition next_divisor (nt part d : Z) : Prop :=
  part < d <= nt /\ (d | nt) /\ forall e, part < e < d -> ~ (e | nt).
Definition prev_divisor (nt part d : Z) : Prop :=
  1 <= d < part /\ (d | nt) /\ forall e, d < e < part -> ~ (e | nt).

Lemma crem_divide nt d : 1 <= nt -> 1 <= d -> (nt `rem` d =? 0) = bool_decide (d | nt).
Proof.
  intros. cdiv. case_bool_decide as Hd.
  - apply Z.eqb_eq, Z.mod_divide; [lia|done].
  - apply Z.eqb_neq. intros E. apply Hd, Z.mod_divide; lia.
Qed.

Lemma next_factor_loop_ok fuel nt t part :
  1 <= part < t -> t <= nt -> nt - t <= Z.of_nat fuel ->
  (forall e, part < e < t -> ~ (e | nt)) ->
  exists d, next_factor_loop fuel nt t = Some d /\ next_divisor nt part d.
Proof.
  revert t. induction fuel as [|fuel IH]; intros t Hpart Hle Hfuel Hmin; simpl.
  all: rewrite (proj2 (Z.leb_le t nt)), crem_divide by lia; simpl;
    case_bool_decide as Hd; simpl.
  1,3: exists t; split; [done|]; by split; [lia|].
  - assert (t = nt) as -> by lia. by destruct Hd.
  - apply IH; try lia.
    + destruct (decide (t = nt)) as [->|]; [by destruct Hd|lia].
    + intros e He. destruct (decide (e = t)) as [->|]; [done|apply Hmin; lia].
Qed.

Lemma prev_factor_loop_ok fuel nt t part :
  1 <= nt -> 1 <= t < part -> t - 1 <= Z.of_nat fuel ->
  (forall e, t < e < part -> ~ (e | nt)) ->
  exists d, prev_factor_loop fuel nt t = Some d /\ prev_divisor nt part d.
Proof.
  intros Hnt. revert t. induction fuel as [|fuel IH]; intros t Ht Hfuel Hmin; simpl.
  all: rewrite (proj2 (Z.leb_le 1 t)), crem_divide by lia; simpl;
    case_bool_decide as Hd; simpl.
  1,3: exists t; split; [done|]; by split; [lia|].
  - assert (t = 1) as -> by lia. destruct Hd. apply Z.divide_1_l.
  - apply IH; try lia.
    + destruct (decide (t = 1)) as [->|]; [destruct Hd; apply Z.divide_1_l|lia].
    + intros e He. destruct (decide (e = t)) as [->|]; [done|apply Hmin; lia].
Qed.

Lemma dlp_next_factor_ok nt part :
  1 <= part <= nt ->
  exists d, dlp_next_factor nt part = Some d /\
    ((part = nt /\ d = nt) \/ next_divisor nt part d).
Proof.
  intros Hp. unfold dlp_next_factor. destruct (Z.eqb_spec part nt) as [->|Hne]; [by eauto|].
  destruct (next_factor_loop_ok (Z.to_nat (nt - part)) nt (part + 1) part) as (d & -> & Hd);
    [lia..| |by eauto]. intros; lia.
Qed.

Lemma dlp_prev_factor_ok nt part :
  1 <= part <= nt ->
  exists d, dlp_prev_factor nt part = Some d /\
    ((part = 1 /\ d = 1) \/ prev_divisor nt part d).
Proof.
  intros Hp. unfold dlp_prev_factor. destruct (Z.eqb_spec part 1) as [->|Hne]; [by eauto|].
  destruct (prev_factor_loop_ok (Z.to_nat part) nt (part - 1) part) as (d & -> & Hd);
    [lia..| |by eauto]. intros; lia.
Qed.

(** ** Complementary divisors

    [factor_pair nt a b]: the two ways use all the threads. *)
Definition factor_pair (nt a b : Z) : Prop := 1 <= a /\ 1 <= b /\ a * b = nt.

Lemma factor_pair_le nt a b : factor_pair nt a b -> a <= nt /\ b <= nt.
Proof. intros (?&?&<-). nia. Qed.

Lemma factor_pair_sym nt a b : factor_pair nt a b -> factor_pair nt b a.
Proof. intros (?&?&<-). split_and!; lia. Qed.

Lemma factor_pair_of_divisor nt d : 1 <= nt -> 1 <= d -> (d | nt) -> exists e, factor_pair nt d e.
Proof. intros Hnt Hd [e He]. exists e. split_and!; nia. Qed.

(** The neighbour above on one side is the neighbour below on the other. *)
Lemma divisor_duality nt a b a' b' :
  factor_pair nt a b -> next_divisor nt a a' -> prev_divisor nt b b' -> factor_pair nt a' b'.
Proof.
  intros (Ha & Hb & Hab) (Ha' & Hda' & Hmin) (Hb' & Hdb' & Hmax).
  destruct (factor_pair_of_divisor nt a') as [x (_ & Hx & Eax)]; [lia|lia|done|].
  destruct (factor_pair_of_divisor nt b') as [y (_ & Hy & Eby)]; [lia|lia|done|].
  assert (x < b) by nia. assert (a < y) by nia.
  assert (~ (b' < x)) as Hx'.
  { intros ?. apply (Hmax x); [lia|]. exists a'. lia. }
  assert (~ (y < a')) as Hy'.
  { intros ?. apply (Hmin y); [lia|]. exists b'. lia. }
  split_and!; [lia..|]. nia.
Qed.

(** The factor one step to the side of more rows: both searches succeed and the
    pair still multiplies to [nt]. *)
Lemma factor_step nt a b :
  factor_pair nt a b ->
  exists a' b', dlp_next_factor nt a = Some a' /\ dlp_prev_factor nt b = Some b' /\
    factor_pair nt a' b' /\ a <= a'.
Proof.
  intros Hp. pose proof (factor_pair_le _ _ _ Hp) as [Hale Hble].
  pose proof Hp as (Ha & Hb & Hab).
  destruct (dlp_next_factor_ok nt a) as (a' & -> & Ha'); [lia|].
  destruct (dlp_prev_factor_ok nt b) as (b' & -> & Hb'); [lia|].
  exists a', b'. do 2 (split; [done|]).
  destruct Ha' as [[-> ->]|Hna]; destruct Hb' as [[-> ->]|Hpb].
  - by split.
  - destruct Hpb as (? & _). nia.
  - destruct Hna as (? & _). nia.
  - split; [by eapply divisor_duality|]. destruct Hna as (? & _). lia.
Qed.

Ltac factor_steps :=
  repeat match goal with
  | Hp : factor_pair ?nt ?a ?b |- context [dlp_next_factor ?nt ?a] =>
      let a' := fresh "a'" in let b' := fresh "b'" in
      let E1 := fresh "E" in let E2 := fresh "E" in
      destruct (factor_step nt a b Hp) as (a' & b' & E1 & E2 & ? & ?);
      rewrite ?E1, ?E2; simpl
  end.

Lemma pnl_wrk_ok MR NR m n nt ic0 jc0 :
  factor_pair nt ic0 jc0 ->
  exists ic jc,
    dlp_gemm_pnl_wrk_heur_adjust_ic_jc_ways MR NR m n nt ic0 jc0 = Some (ic, jc) /\
    factor_pair nt ic jc /\ ic0 <= ic /\
    panel_work ((m + MR - 1) `quot` MR) ((n + NR - 1) `quot` NR) ic jc <=
    panel_work ((m + MR - 1) `quot` MR) ((n + NR - 1) `quot` NR) ic0 jc0.
Proof.
  intros Hp. unfold dlp_gemm_pnl_wrk_heur_adjust_ic_jc_ways.
  repeat (first [progress factor_steps | case_match; simplify_eq/=]);
    repeat match goal with H : (_ <? _) = _ |- _ =>
      first [apply Z.ltb_lt in H | apply Z.ltb_ge in H] end;
    eexists _, _; (split; [done|]); (split; [done|]); simpl; lia.
Qed.

Lemma partition_2x2_ok nt w1 w2 :
  1 <= nt -> exists a b, dlp_thread_partition_2x2 nt w1 w2 = Some (a, b) /\ factor_pair nt a b.
Proof.
  intros Hn. destruct (partition_2x2_product nt w1 w2 Hn) as (a & b & E & Ha & Hb & Hab).
  by exists a, b.
Qed.

(** The panel-work adjustment is a permutation of the threads between the
    two dimensions: from ways that use all [n_threads] threads it always
    returns ways that use all of them (no search runs away and no thread is
    dropped), and the panels each thread works on never increase. *)
Theorem pnl_wrk_heur_sound (MR NR m n n_threads ic_ways jc_ways : Z) :
  1 <= ic_ways -> 1 <= jc_ways -> ic_ways * jc_ways = n_threads ->
  exists ic jc,
    dlp_gemm_pnl_wrk_heur_adjust_ic_jc_ways MR NR m n n_threads ic_ways jc_ways = Some (ic, jc) /\
    factor_pair n_threads ic jc /\ ic_ways <= ic /\
    let mu := (m + MR - 1) `quot` MR in
    let nu := (n + NR - 1) `quot` NR in
    panel_work mu nu ic jc <= panel_work mu nu ic_ways jc_ways.
Proof.
  intros H1 H2 H3. apply pnl_wrk_ok. by split.
Qed.

Lemma pnl_wrk_heur_sound_witness :
  dlp_gemm_pnl_wrk_heur_adjust_ic_jc_ways 6 64 60 192 8 2 4 = Some (4, 2) /\
  exists ic jc,
    dlp_gemm_pnl_wrk_heur_adjust_ic_jc_ways 6 64 60 192 8 2 4 = Some (ic, jc) /\
    factor_pair 8 ic jc /\ 2 <= ic /\
    panel_work ((60 + 6 - 1) `quot` 6) ((192 + 64 - 1) `quot` 64) ic jc <=
    panel_work ((60 + 6 - 1) `quot` 6) ((192 + 64 - 1) `quot` 64) 2 4.
Proof. split; [reflexivity|]. apply (pnl_wrk_heur_sound 6 64 60 192 8 2 4); lia. Defined.

Lemma prime_nt_ok (MR NR m n n_threads ic_ways jc_ways : Z) :
  2 <= n_threads -> factor_pair n_threads ic_ways jc_ways ->
  exists nt ic jc,
    dlp_gemm_pnl_wrk_heur_adjust_threading_for_prime_nt MR NR m n n_threads ic_ways jc_ways
      = Some (nt, ic, jc) /\
    factor_pair nt ic jc /\
    let mu := (m + MR - 1) `quot` MR in
    let nu := (n + NR - 1) `quot` NR in
    ((nt, ic, jc) = (n_threads, ic_ways, jc_ways) \/
     (nt = n_threads - 1 /\ panel_work mu nu ic jc < panel_work mu nu ic_ways jc_ways)).
Proof.
  intros Hnt Hp. unfold dlp_gemm_pnl_wrk_heur_adjust_threading_for_prime_nt.
  destruct (partition_2x2_ok (n_threads - 1) m n) as (ic & jc & -> & Hr); [lia|]; simpl.
  set (adj := if _ <=? _ then _ else _).
  assert (exists ic jc, adj = Some (ic, jc) /\ factor_pair (n_threads - 1) ic jc)
    as (ic' & jc' & -> & Hr').
  { subst adj. case_match; [|by eauto].
    destruct (pnl_wrk_ok MR NR m n (n_threads - 1) ic jc) as (? & ? & -> & ? & _); eauto. }
  simpl. destruct (Z.ltb_spec (panel_work ((m + MR - 1) `quot` MR)
    ((n + NR - 1) `quot` NR) ic' jc') (panel_work ((m + MR - 1) `quot` MR)
    ((n + NR - 1) `quot` NR) ic_ways jc_ways)) as [Hlt|Hge]; eexists _, _, _;
    (split; [done|]); (split; [done|]); simpl; auto.
Qed.

(** The adjustment for a prime number of threads keeps the team consistent:
    either nothing changes, or exactly one thread is given up and the ways use
    all the others with strictly fewer panels of work per thread. *)
Theorem prime_nt_adjust_sound (MR NR m n n_threads ic_ways jc_ways : Z) :
  2 <= n_threads -> factor_pair n_threads ic_ways jc_ways ->
  exists nt ic jc,
    dlp_gemm_pnl_wrk_heur_adjust_threading_for_prime_nt MR NR m n n_threads ic_ways jc_ways
      = Some (nt, ic, jc) /\
    factor_pair nt ic jc /\
    let mu := (m + MR - 1) `quot` MR in
    let nu := (n + NR - 1) `quot` NR in
    ((nt, ic, jc) = (n_threads, ic_ways, jc_ways) \/
     (nt = n_threads - 1 /\ panel_work mu nu ic jc < panel_work mu nu ic_ways jc_ways)).
Proof. apply prime_nt_ok. Qed.

Lemma prime_nt_adjust_sound_witness :
  dlp_gemm_pnl_wrk_heur_adjust_threading_for_prime_nt 6 64 120 640 7 7 1 = Some (6, 3, 2) /\
  exists nt ic jc,
    dlp_gemm_pnl_wrk_heur_adjust_threading_for_prime_nt 6 64 120 640 7 7 1 = Some (nt, ic, jc) /\
    factor_pair nt ic jc.
Proof.
  split; [reflexivity|].
  destruct (prime_nt_adjust_sound 6 64 120 640 7 7 1) as (nt & ic & jc & H & Hp & _);
    [lia|split; lia|].
  exists nt, ic, jc. split; assumption.
Defined.

(** The f32 heuristic also permutes the ways. *)
Lemma adjust_ic_jc_ok m n k MC NC KC MR NR nt ic jc boost :
  factor_pair nt ic jc ->
  exists ic' jc', dlp_gemm_adjust_ic_jc_ways m n k MC NC KC MR NR nt ic jc boost
    = Some (ic', jc') /\ factor_pair nt ic' jc'.
Proof.
  intros Hp. unfold dlp_gemm_adjust_ic_jc_ways.
  destruct (factor_step _ _ _ Hp) as (ni & pj & Eni & Epj & Hp1 & _).
  destruct (factor_step _ _ _ Hp1) as (nni & ppj & Enni & Eppj & Hp2 & _).
  pose proof (factor_pair_sym _ _ _ Hp) as Hs.
  destruct (factor_step _ _ _ Hs) as (nj & pi & Enj & Epi & Hs1%factor_pair_sym & _).
  rewrite Eni; simpl. rewrite Enni; simpl. rewrite Epi; simpl.
  rewrite Enj; simpl. rewrite Epj; simpl. rewrite Eppj; simpl.
  set (cj := if (1 <? ic) && _ then _ else _). clearbody cj.
  set (ci := if (ic <? nt) && _ then _ else _). clearbody ci. destruct ci as [[|] [|]].
  all: repeat case_match; by eauto.
Qed.
