(* ===== verification/PostOpTypes.v ===== *)
(** * Metadata and post-op nodes
    (classic/aocl_gemm_metadata.h, bindings/c_wrappers/capi_kernel_frame_wrappers.h)

    The user's metadata, the internal post-op nodes, and the monad of the
    translators: a C function that returns an error code, or reads outside an
    array of the caller. *)
From stdpp Require Export strings.
From Stdlib Require Export Ascii.
From S2P Require Import Prelude DlpTypes.

#[global] Open Scope Z_scope.

(** ** Pointers

    [PUser a] is a buffer of the caller, [PAddrOf v] the address of an [md_t]
    that holds [v], [POrder c] the address of the storage-order character and
    [PIdentityScale] the address of the static [1.0f]. *)
Inductive ptr :=
  | PNull
  | PUser (a : Z)
  | PAddrOf (v : Z)
  | POrder (c : ascii)
  | PIdentityScale.

#[export] Instance ptr_eq_dec : EqDecision ptr.
Proof. solve_decision. Defined.

Definition is_null (p : ptr) : bool := match p with PNull => true | _ => false end.

(** ** Outcomes *)

Inductive outcome (A : Type) :=
  | Undefined
  | Error (e : dlp_clsc_err_t)
  | Value (a : A).
Arguments Undefined {A}.
Arguments Error {A} e.
Arguments Value {A} a.

#[export] Instance outcome_mret : MRet outcome := fun A a => Value a.
#[export] Instance outcome_mbind : MBind outcome := fun A B f o =>
  match o with Undefined => Undefined | Error e => Error e | Value a => f a end.

(** [if (cond) return e;] *)
Definition fail_if (cond : bool) (e : dlp_clsc_err_t) : outcome unit :=
  if cond then Error e else Value tt.

(** [if (p == NULL) return e;], for a pointer to a structure or an array. *)
Definition not_null {A} (p : option A) (e : dlp_clsc_err_t) : outcome A :=
  match p with Some a => Value a | None => Error e end.

(** Reading an array of the caller past its end is undefined. *)
Definition read {A} (l : list A) (i : nat) : outcome A :=
  match l !! i with Some a => Value a | None => Undefined end.

(** What holds of the value, if the function gets that far. *)
Definition yields {A} (P : A -> Prop) (o : outcome A) : Prop := forall a, o = Value a -> P a.

Lemma yields_ret {A} (P : A -> Prop) a : P a -> yields P (mret a).
Proof. by intros H b [= <-]. Qed.

Lemma yields_error {A} (P : A -> Prop) e : yields P (Error e).
Proof. by intros a. Qed.

Lemma yields_bind {A B} (P : B -> Prop) (f : A -> outcome B) o :
  (forall a, o = Value a -> yields P (f a)) -> yields P (o ≫= f).
Proof. intros H b. destruct o as [| |a]; simpl; try done. by apply H. Qed.

Lemma yields_fail_if {B} (P : B -> Prop) (c : bool) e (k : outcome B) :
  (c = false -> yields P k) -> yields P (fail_if c e ;; k).
Proof. destruct c; simpl; [intros _; apply yields_error|auto]. Qed.

Lemma yields_not_null {A B} (P : B -> Prop) (p : option A) e (f : A -> outcome B) :
  (forall a, p = Some a -> yields P (f a)) -> yields P (not_null p e ≫= f).
Proof. destruct p; simpl; [by auto|intros _; apply yields_error]. Qed.

Lemma yields_read {A B} (P : B -> Prop) (l : list A) i (f : A -> outcome B) :
  (forall a, l !! i = Some a -> yields P (f a)) -> yields P (read l i ≫= f).
Proof. unfold read. destruct (l !! i); simpl; [by auto|by intros _ b]. Qed.

(** Symbolic execution of a translator body. *)
Ltac yields_step :=
  first [ apply yields_fail_if; intros ?
        | apply yields_not_null; intros ? ?
        | apply yields_read; intros ? ?
        | apply yields_ret
        | apply yields_error
        | apply yields_bind; intros ? ? ].

(** No access outside the caller's arrays. *)
Definition defined {A} (o : outcome A) : Prop := o <> Undefined.

Lemma defined_bind {A B} (f : A -> outcome B) o :
  defined o -> (forall a, o = Value a -> defined (f a)) -> defined (o ≫= f).
Proof. destruct o; simpl; [done|done|]. intros _ H. by apply H. Qed.

Lemma defined_fail_if c e : defined (fail_if c e).
Proof. by destruct c. Qed.

Lemma defined_not_null {A} (p : option A) e : defined (not_null p e).
Proof. by destruct p. Qed.

Lemma defined_read {A} (l : list A) i : (i < length l)%nat -> defined (read l i).
Proof. unfold read. intros Hi. by destruct (lookup_lt_is_Some_2 l i Hi) as [x ->]. Qed.

Lemma defined_ret {A} (a : A) : defined (mret a).
Proof. done. Qed.

Ltac defined_step :=
  first [ apply defined_bind; [|intros ? ?] | apply defined_fail_if | apply defined_not_null
        | apply defined_ret | done ].

(** ** User metadata *)

Record dlp_sf_t := mk_sf {
  scale_factor : ptr; scale_factor_len : Z;
  scale_factor_type : DLP_TYPE; scale_factor_dim : DLP_PARAM_DIM_TYPE }.
Record dlp_zp_t := mk_zp {
  zero_point : ptr; zero_point_len : Z;
  zero_point_type : DLP_TYPE; zero_point_dim : DLP_PARAM_DIM_TYPE }.
Record dlp_qparam_t := mk_qparam {
  q_data : ptr; q_len : Z; q_stor_type : DLP_TYPE; q_outer_dim : DLP_PARAM_DIM_TYPE }.

Inductive DLP_QUANT_OP_KIND :=
  | DLP_QUANT_OP_NONE | DLP_QUANT_OP_QUANTIZE | DLP_QUANT_OP_DEQUANTIZE | DLP_QUANT_OP_EXPAND.

#[export] Instance quant_kind_eq_dec : EqDecision DLP_QUANT_OP_KIND.
Proof. solve_decision. Defined.

Record dlp_quant_op_t := mk_quant {
  quant_op_kind : DLP_QUANT_OP_KIND;
  group_size : Z;
  quant_scale_factors : option dlp_qparam_t;
  dequant_scale_factors : option dlp_qparam_t;
  quant_zero_point : option dlp_qparam_t;
}.

(** The last constructor of each is an integer that is no enumerator. *)
Inductive DLP_ELT_ALGO_TYPE :=
  | RELU | PRELU | GELU_TANH | GELU_ERF | CLIP | SWISH | TANH | SIGMOID | MISH
  | ELT_ALGO_OTHER.
Inductive DLP_GLU_ALGO_TYPE := GATED_SWIGLU | GATED_SWIGLU_AND_MUL | GLU_ALGO_OTHER.
Inductive DLP_POST_OP_TYPE :=
  | ELTWISE | BIAS | SCALE | MATRIX_ADD | MATRIX_MUL | POST_OP_OTHER.

#[export] Instance elt_algo_eq_dec : EqDecision DLP_ELT_ALGO_TYPE.
Proof. solve_decision. Defined.
#[export] Instance post_op_type_eq_dec : EqDecision DLP_POST_OP_TYPE.
Proof. solve_decision. Defined.

Record dlp_eltwise_algo_t := mk_algo {
  algo_alpha : ptr; algo_beta : ptr; algo_type : DLP_ELT_ALGO_TYPE; algo_stor_type : DLP_TYPE }.
Record dlp_post_op_eltwise := mk_eltwise { elt_sf : option dlp_sf_t; algo : dlp_eltwise_algo_t }.
Record dlp_post_op_bias := mk_bias {
  bias : ptr; bias_stor_type : DLP_TYPE;
  bias_sf : option dlp_sf_t; bias_zp : option dlp_zp_t; bias_len : Z }.
Record dlp_scale_t := mk_scale { sc_sf : option dlp_sf_t; sc_zp : option dlp_zp_t }.

(** [dlp_post_op_matrix_add] and [dlp_post_op_matrix_mul] have the same fields. *)
Record dlp_post_op_matrix := mk_matrix {
  matrix : ptr; ldm : Z; mat_stor_type : DLP_TYPE; mat_sf : option dlp_sf_t }.

Record dlp_term_op_glu := mk_glu {
  glu_algo_type : DLP_GLU_ALGO_TYPE; glu_buf : ptr; glu_ld : Z;
  glu_alpha : ptr; glu_beta : ptr; glu_stor_type : DLP_TYPE }.

(** Arrays are lists, a null array pointer is [None]. *)
Record dlp_metadata_t := mk_metadata {
  md_scale : option (list dlp_scale_t);
  md_eltwise : option (list dlp_post_op_eltwise);
  md_bias : option (list dlp_post_op_bias);
  md_matrix_add : option (list dlp_post_op_matrix);
  md_matrix_mul : option (list dlp_post_op_matrix);
  seq_length : Z;
  seq_vector : option (list DLP_POST_OP_TYPE);
  a_quant_op : option dlp_quant_op_t;
  b_quant_op : option dlp_quant_op_t;
  glu : option dlp_term_op_glu;
}.

(** ** Internal nodes *)

(** [DLP_GEMM_POST_OP_CODE]. *)
Inductive DLP_GEMM_POST_OP_CODE :=
  | POST_OPS_DISABLE | POST_OPS_BIAS | POST_OPS_RELU | POST_OPS_RELU_SCALE
  | POST_OPS_GELU_TANH | POST_OPS_GELU_ERF | POST_OPS_CLIP | POST_OPS_DOWNSCALE
  | POST_OPS_MATRIX_ADD | POST_OPS_SWISH | POST_OPS_MATRIX_MUL | POST_OPS_TANH
  | POST_OPS_SIGMOID | POST_OPS_SUM | POST_OPS_ADQUANTIZE | POST_OPS_MISH
  | POST_OPS_GATED_SWIGLU | POST_OPS_GATED_SWIGLU_AND_MUL.

#[export] Instance op_code_eq_dec : EqDecision DLP_GEMM_POST_OP_CODE.
Proof. solve_decision. Defined.

(** The integer value of the enumerators. *)
Definition op_code_value (c : DLP_GEMM_POST_OP_CODE) : Z :=
  match c with
  | POST_OPS_DISABLE => 0 | POST_OPS_BIAS => 1 | POST_OPS_RELU => 2 | POST_OPS_RELU_SCALE => 3
  | POST_OPS_GELU_TANH => 4 | POST_OPS_GELU_ERF => 5 | POST_OPS_CLIP => 6
  | POST_OPS_DOWNSCALE => 7 | POST_OPS_MATRIX_ADD => 8 | POST_OPS_SWISH => 9
  | POST_OPS_MATRIX_MUL => 10 | POST_OPS_TANH => 11 | POST_OPS_SIGMOID => 12
  | POST_OPS_SUM => 13 | POST_OPS_ADQUANTIZE => 14 | POST_OPS_MISH => 15
  | POST_OPS_GATED_SWIGLU => 16 | POST_OPS_GATED_SWIGLU_AND_MUL => 17
  end.

Definition DLP_CLASSIC_MAX_POST_OP_CODE : DLP_GEMM_POST_OP_CODE := POST_OPS_SIGMOID.
Definition AOCL_DLP_MAX_POST_OPS : Z := 8.

(** [dlp_gemm_post_op]; [po_next] is the position in the array of the node the
    [next] pointer designates. *)
Record dlp_gemm_post_op := mk_post_op {
  op_code : DLP_GEMM_POST_OP_CODE;
  op_args1 : ptr; op_args2 : ptr; op_args3 : ptr;
  po_scale_factor : ptr; po_scale_factor_len : Z;
  po_bias_zp : ptr; po_bias_zp_len : Z;
  stor_type : DLP_TYPE; zp_stor_type : DLP_TYPE; sf_stor_type : DLP_TYPE;
  po_scale_factor_dim : DLP_PARAM_DIM_TYPE;
  glu_d : ptr; glu_ld_d : Z;
  po_next : option nat;
}.

(** [dlp_gemm_group_post_op] and [dlp_gemm_pre_op]; the lists have one node. *)
Record dlp_gemm_group_post_op := mk_group_post_op {
  g_group_size : Z;
  g_a_scale_factor_dim : DLP_PARAM_DIM_TYPE; g_b_scale_factor_dim : DLP_PARAM_DIM_TYPE;
  g_a_scale_factor : ptr; g_a_scale_factor_len : Z; g_a_zp : ptr; g_a_zp_len : Z;
  g_b_scale_factor : ptr; g_b_scale_factor_len : Z; g_b_zp : ptr; g_b_zp_len : Z;
  g_sf_stor_type : DLP_TYPE; g_zp_stor_type : DLP_TYPE }.

Record dlp_gemm_pre_op := mk_pre_op {
  p_group_size : Z;
  p_scale_factor : ptr; p_scale_factor_len : Z; p_scale_factor_dim : DLP_PARAM_DIM_TYPE;
  p_scale_factor_type : DLP_TYPE;
  p_zero_point : ptr; p_zero_point_len : Z; p_zero_point_dim : DLP_PARAM_DIM_TYPE;
  p_zero_point_type : DLP_TYPE }.

Record dlp_group_op := mk_group_op {
  a_post_quant_op : option dlp_quant_op_t;
  b_post_quant_op : option dlp_quant_op_t }.
