(* ===== verification/PostOps.v ===== *)
(** * Post-op translation (frame/dlp_gemm_post_ops.c, part one)

    The metadata's operation sequence is turned into an array of nodes chained
    by [next].  A translator returns an error code with the array as it left it;
    [None] is an access outside the caller's arrays. *)
From S2P Require Import Prelude DlpTypes PostOpTypes.

(** ** Queries on a node list *)

(** The walk along [next] from the node at [i], at most [fuel] nodes. *)
Fixpoint walk (fuel : nat) (l : list dlp_gemm_post_op) (i : option nat) : list dlp_gemm_post_op :=
  match fuel, i with
  | S fuel, Some j =>
      match l !! j with
      | Some node => node :: walk fuel l (po_next node)
      | None => []
      end
  | _, _ => []
  end.

Definition jit_only_node (node : dlp_gemm_post_op) : bool :=
  if op_code_value DLP_CLASSIC_MAX_POST_OP_CODE <? op_code_value (op_code node) then true
  else bool_decide (op_code node = POST_OPS_DOWNSCALE)
       && bool_decide (po_scale_factor_dim node = DLP_PARAM_DIM_PER_TOKEN).

(** [dlp_gemm_post_op_list_has_jit_only_op]; [None] is the null list.  The walk
    visits at most as many nodes as the array has, since [next] only moves on. *)
Fixpoint jit_only_loop (nodes : list dlp_gemm_post_op) (has_jit_only : bool) : bool :=
  match nodes with
  | node :: rest => if has_jit_only then has_jit_only else jit_only_loop rest (jit_only_node node)
  | [] => has_jit_only
  end.

Definition dlp_gemm_post_op_list_has_jit_only_op (l : option (list dlp_gemm_post_op)) : bool :=
  match l with
  | None => false
  | Some l => jit_only_loop (walk (length l) l (Some 0%nat)) false
  end.

Definition dlp_gemm_post_op_list_has_shape_changing_glu (l : option dlp_gemm_post_op) : bool :=
  match l with
  | None => false
  | Some head => negb (is_null (glu_d head)) && (0 <? glu_ld_d head)
  end.

Definition dlp_gemm_get_stor_type (pstor_type : DLP_TYPE) : DLP_TYPE :=
  match pstor_type with
  | DLP_F32 => DLP_F32 | DLP_BF16 => DLP_BF16 | DLP_F16 => DLP_F16
  | DLP_S8 => DLP_S8 | DLP_U8 => DLP_U8 | DLP_S32 => DLP_S32
  | _ => DLP_INVALID
  end.

(** [dlp_gemm_set_node_params]: the node it writes. *)
Definition dlp_gemm_set_node_params (code : DLP_GEMM_POST_OP_CODE) (op1 op2 op3 sf : ptr)
    (sf_len : Z) (zp : ptr) (zp_len : Z) (stor zp_stor sf_stor : DLP_TYPE)
    (sf_dim : DLP_PARAM_DIM_TYPE) : dlp_gemm_post_op :=
  mk_post_op code op1 op2 op3 sf sf_len zp zp_len stor zp_stor sf_stor sf_dim PNull 0 None.

Definition disable_node : dlp_gemm_post_op :=
  dlp_gemm_set_node_params POST_OPS_DISABLE PNull PNull PNull PNull 0 PNull 0
    DLP_INVALID DLP_INVALID DLP_INVALID DLP_PARAM_DIM_INVALID.

(** ** One operation of the sequence

    The optional parameters of an operation, as its case reads them. *)
Definition sf_ptr (sf : option dlp_sf_t) : ptr := from_option scale_factor PNull sf.
Definition sf_len (sf : option dlp_sf_t) : Z := from_option scale_factor_len 0 sf.
Definition zp_ptr (zp : option dlp_zp_t) : ptr := from_option zero_point PNull zp.
Definition zp_len (zp : option dlp_zp_t) : Z := from_option zero_point_len 0 zp.
Definition sf_type (d : DLP_TYPE) (sf : option dlp_sf_t) : DLP_TYPE :=
  from_option (fun s => dlp_gemm_get_stor_type (scale_factor_type s)) d sf.
Definition zp_type (zp : option dlp_zp_t) : DLP_TYPE :=
  from_option (fun z => dlp_gemm_get_stor_type (zero_point_type z)) DLP_INVALID zp.

(** The granularity inferred from the length: [len == 1 ? PER_TENSOR : PER_CHANNEL]. *)
Definition sf_dim_of_len (d : DLP_PARAM_DIM_TYPE) (sf : option dlp_sf_t) : DLP_PARAM_DIM_TYPE :=
  from_option (fun s => if scale_factor_len s =? 1 then DLP_PARAM_DIM_PER_TENSOR
                        else DLP_PARAM_DIM_PER_CHANNEL) d sf.

(** [sf && sf->len != 1 && sf->len != n], and the same for a zero point. *)
Definition sf_len_bad (n : Z) (sf : option dlp_sf_t) : bool :=
  from_option (fun s => negb (scale_factor_len s =? 1) && negb (scale_factor_len s =? n)) false sf.
Definition zp_len_bad (n : Z) (zp : option dlp_zp_t) : bool :=
  from_option (fun z => negb (zero_point_len z =? 1) && negb (zero_point_len z =? n)) false zp.

(** [sf && sf->len > 0 && sf->scale_factor == NULL], and for a zero point. *)
Definition sf_data_missing (sf : option dlp_sf_t) : bool :=
  from_option (fun s => (0 <? scale_factor_len s) && is_null (scale_factor s)) false sf.
Definition zp_data_missing (zp : option dlp_zp_t) : bool :=
  from_option (fun z => (0 <? zero_point_len z) && is_null (zero_point z)) false zp.

(** The inner switch on [algo_type]: the code and the storage type. *)
Definition eltwise_algo (a : dlp_eltwise_algo_t) : outcome (DLP_GEMM_POST_OP_CODE * DLP_TYPE) :=
  let stor := dlp_gemm_get_stor_type (algo_stor_type a) in
  match algo_type a with
  | RELU => mret (POST_OPS_RELU, DLP_INVALID)
  | PRELU =>
      fail_if (is_null (algo_alpha a)) DLP_CLSC_NULL_POINTER ;;
      mret (POST_OPS_RELU_SCALE, stor)
  | GELU_TANH => mret (POST_OPS_GELU_TANH, DLP_INVALID)
  | GELU_ERF => mret (POST_OPS_GELU_ERF, DLP_INVALID)
  | CLIP =>
      fail_if (is_null (algo_alpha a) || is_null (algo_beta a)) DLP_CLSC_NULL_POINTER ;;
      mret (POST_OPS_CLIP, stor)
  | SWISH =>
      fail_if (is_null (algo_alpha a)) DLP_CLSC_NULL_POINTER ;;
      mret (POST_OPS_SWISH, stor)
  | TANH => mret (POST_OPS_TANH, DLP_INVALID)
  | SIGMOID => mret (POST_OPS_SIGMOID, DLP_INVALID)
  | MISH => mret (POST_OPS_MISH, DLP_INVALID)
  | ELT_ALGO_OTHER => mret (POST_OPS_DISABLE, DLP_INVALID)
  end.

(** [case ELTWISE]. *)
Definition translate_eltwise (md : dlp_metadata_t) (e_i : nat) (n : Z) : outcome dlp_gemm_post_op :=
  arr ← not_null (md_eltwise md) DLP_CLSC_NULL_POINTER;
  x ← read arr e_i;
  '(tmp_code, tmp_stor_type) ← eltwise_algo (algo x);
  fail_if (sf_len_bad n (elt_sf x)) DLP_CLSC_UNEXPECTED_VECTOR_DIM ;;
  mret (dlp_gemm_set_node_params tmp_code PNull (algo_alpha (algo x)) (algo_beta (algo x))
          (sf_ptr (elt_sf x)) (sf_len (elt_sf x)) PNull 0 tmp_stor_type DLP_INVALID DLP_INVALID
          (sf_dim_of_len DLP_PARAM_DIM_INVALID (elt_sf x))).

(** [case BIAS]. *)
Definition translate_bias (md : dlp_metadata_t) (b_i : nat) (meta_arg : ptr) (n : Z)
    : outcome dlp_gemm_post_op :=
  arr ← not_null (md_bias md) DLP_CLSC_NULL_POINTER;
  x ← read arr b_i;
  fail_if (is_null (bias x)) DLP_CLSC_NULL_POINTER ;;
  fail_if (negb (is_null (bias x)) && negb (bias_len x =? 1) && negb (bias_len x =? n))
    DLP_CLSC_UNEXPECTED_VECTOR_DIM ;;
  fail_if (sf_data_missing (bias_sf x)) DLP_CLSC_NULL_POINTER ;;
  fail_if (sf_len_bad n (bias_sf x)) DLP_CLSC_UNEXPECTED_VECTOR_DIM ;;
  fail_if (zp_data_missing (bias_zp x)) DLP_CLSC_NULL_POINTER ;;
  fail_if (zp_len_bad n (bias_zp x)) DLP_CLSC_UNEXPECTED_VECTOR_DIM ;;
  mret (dlp_gemm_set_node_params POST_OPS_BIAS (bias x) meta_arg
          (if 0 <? bias_len x then PAddrOf (bias_len x) else PNull)
          (sf_ptr (bias_sf x)) (sf_len (bias_sf x)) (zp_ptr (bias_zp x)) (zp_len (bias_zp x))
          (dlp_gemm_get_stor_type (bias_stor_type x)) (zp_type (bias_zp x))
          (sf_type DLP_INVALID (bias_sf x))
          (sf_dim_of_len DLP_PARAM_DIM_INVALID (bias_sf x))).

(** The strict coherence of dimension and length of a SCALE factor. *)
Definition scale_dim_bad (m n : Z) (sf : dlp_sf_t) : bool :=
  match scale_factor_dim sf with
  | DLP_PARAM_DIM_PER_TENSOR => negb (scale_factor_len sf =? 1)
  | DLP_PARAM_DIM_PER_TOKEN => negb (scale_factor_len sf =? m)
  | DLP_PARAM_DIM_PER_CHANNEL => negb (scale_factor_len sf =? n)
  | _ => true
  end.

(** [case SCALE]. *)
Definition translate_scale (md : dlp_metadata_t) (s_i : nat) (meta_arg : ptr) (m n : Z)
    : outcome dlp_gemm_post_op :=
  arr ← not_null (md_scale md) DLP_CLSC_NULL_POINTER;
  x ← read arr s_i;
  fail_if (sf_data_missing (sc_sf x)) DLP_CLSC_NULL_POINTER ;;
  fail_if (zp_data_missing (sc_zp x)) DLP_CLSC_NULL_POINTER ;;
  fail_if (from_option (scale_dim_bad m n) false (sc_sf x)) DLP_CLSC_UNEXPECTED_VECTOR_DIM ;;
  fail_if (from_option (fun z => negb (zero_point_len z =? 1) && (zero_point_len z <? n))
             false (sc_zp x)) DLP_CLSC_UNEXPECTED_VECTOR_DIM ;;
  mret (dlp_gemm_set_node_params POST_OPS_DOWNSCALE (zp_ptr (sc_zp x)) meta_arg
          (PAddrOf (zp_len (sc_zp x))) (sf_ptr (sc_sf x)) (sf_len (sc_sf x)) PNull 0
          DLP_INVALID (zp_type (sc_zp x)) (sf_type DLP_INVALID (sc_sf x))
          (from_option scale_factor_dim DLP_PARAM_DIM_INVALID (sc_sf x))).

(** The body that [case MATRIX_ADD] and [case MATRIX_MUL] share, on their own
    array and with their own code. *)
Definition translate_matrix (code : DLP_GEMM_POST_OP_CODE)
    (ops : option (list dlp_post_op_matrix)) (m_i : nat) (meta_arg : ptr) (n : Z)
    : outcome dlp_gemm_post_op :=
  arr ← not_null ops DLP_CLSC_NULL_POINTER;
  x ← read arr m_i;
  fail_if (is_null (matrix x) || (ldm x <=? 0)) DLP_CLSC_NULL_POINTER ;;
  fail_if (sf_data_missing (mat_sf x)) DLP_CLSC_NULL_POINTER ;;
  fail_if (sf_len_bad n (mat_sf x)) DLP_CLSC_UNEXPECTED_VECTOR_DIM ;;
  mret (dlp_gemm_set_node_params code (matrix x) meta_arg (PAddrOf (ldm x))
          (from_option scale_factor PIdentityScale (mat_sf x))
          (from_option scale_factor_len 1 (mat_sf x)) PNull 0
          (dlp_gemm_get_stor_type (mat_stor_type x)) DLP_INVALID (sf_type DLP_F32 (mat_sf x))
          (sf_dim_of_len DLP_PARAM_DIM_PER_TENSOR (mat_sf x))).

Definition translate_matrix_add (md : dlp_metadata_t) (m_i : nat) (meta_arg : ptr) (n : Z) :=
  translate_matrix POST_OPS_MATRIX_ADD (md_matrix_add md) m_i meta_arg n.
Definition translate_matrix_mul (md : dlp_metadata_t) (mul_i : nat) (meta_arg : ptr) (n : Z) :=
  translate_matrix POST_OPS_MATRIX_MUL (md_matrix_mul md) mul_i meta_arg n.

(** ** The translation loop *)

Record op_counters := mk_counters { e_i : nat; s_i : nat; b_i : nat; m_i : nat; mul_i : nat }.

Definition counters_zero : op_counters := mk_counters 0 0 0 0 0.

(** One iteration of the dispatcher: the node, and the counters after it. *)
Definition translate_op (md : dlp_metadata_t) (meta_arg : ptr) (m n : Z)
    (op : DLP_POST_OP_TYPE) (c : op_counters) : outcome (dlp_gemm_post_op * op_counters) :=
  match op with
  | ELTWISE =>
      node ← translate_eltwise md (e_i c) n;
      mret (node, mk_counters (S (e_i c)) (s_i c) (b_i c) (m_i c) (mul_i c))
  | BIAS =>
      node ← translate_bias md (b_i c) meta_arg n;
      mret (node, mk_counters (e_i c) (s_i c) (S (b_i c)) (m_i c) (mul_i c))
  | SCALE =>
      node ← translate_scale md (s_i c) meta_arg m n;
      mret (node, mk_counters (e_i c) (S (s_i c)) (b_i c) (m_i c) (mul_i c))
  | MATRIX_ADD =>
      node ← translate_matrix_add md (m_i c) meta_arg n;
      mret (node, mk_counters (e_i c) (s_i c) (b_i c) (S (m_i c)) (mul_i c))
  | MATRIX_MUL =>
      node ← translate_matrix_mul md (mul_i c) meta_arg n;
      mret (node, mk_counters (e_i c) (s_i c) (b_i c) (m_i c) (S (mul_i c)))
  | POST_OP_OTHER => Error DLP_CLSC_NOT_SUPPORTED
  end.

(** What a translator leaves: its error code and the node array. *)
Definition translated := option (dlp_clsc_err_t * list dlp_gemm_post_op).

Definition set_next (i : nat) (node : dlp_gemm_post_op) : dlp_gemm_post_op :=
  mk_post_op (op_code node) (op_args1 node) (op_args2 node) (op_args3 node)
    (po_scale_factor node) (po_scale_factor_len node) (po_bias_zp node) (po_bias_zp_len node)
    (stor_type node) (zp_stor_type node) (sf_stor_type node) (po_scale_factor_dim node)
    (glu_d node) (glu_ld_d node) (Some i).

(** Writing past the end of the node array is undefined. *)
Definition write_node (l : list dlp_gemm_post_op) (i : nat) (node : dlp_gemm_post_op)
    : option (list dlp_gemm_post_op) :=
  if decide (i < length l)%nat then Some (<[i := node]> l) else None.

(** Iterations [i .. seq_length - 1], [todo] of them. *)
Fixpoint post_ops_loop (md : dlp_metadata_t) (seq : list DLP_POST_OP_TYPE) (meta_arg : ptr)
    (m n : Z) (todo i : nat) (c : op_counters) (l : list dlp_gemm_post_op) : translated :=
  match todo with
  | O => Some (DLP_CLSC_SUCCESS, l)
  | S todo =>
      match (op ← read seq i; translate_op md meta_arg m n op c) with
      | Undefined => None
      | Error e => Some (e, l)
      | Value (node, c) =>
          let node := if Z.of_nat i <? seq_length md - 1 then set_next (S i) node else node in
          l ← write_node l i node;
          post_ops_loop md seq meta_arg m n todo (S i) c l
      end
  end.

(** [dlp_gemm_translate_to_post_ops_list]; a null list or metadata is [None]. *)
Definition dlp_gemm_translate_to_post_ops_list (md : option dlp_metadata_t)
    (post_op_list : option (list dlp_gemm_post_op)) (meta_arg : ptr) (m n : Z) : translated :=
  match post_op_list with
  | None => Some (DLP_CLSC_NULL_POINTER, [])
  | Some l =>
      match md with
      | Some md =>
          if seq_length md <=? 0 then
            l ← write_node l 0 disable_node; Some (DLP_CLSC_SUCCESS, l)
          else if AOCL_DLP_MAX_POST_OPS <? seq_length md then
            l ← write_node l 0 disable_node; Some (DLP_CLSC_UNEXPECTED_VECTOR_DIM, l)
          else
            match seq_vector md with
            | None => Some (DLP_CLSC_NULL_POINTER, l)
            | Some seq =>
                post_ops_loop md seq meta_arg m n (Z.to_nat (seq_length md)) 0 counters_zero l
            end
      | None => l ← write_node l 0 disable_node; Some (DLP_CLSC_SUCCESS, l)
      end
  end.

(** [dlp_gemm_translate_glu_term_op]: [pos] is the position of [post_op_list] in
    the array that starts at [post_op_list_start]. *)
Definition set_glu (d : ptr) (ld : Z) (node : dlp_gemm_post_op) : dlp_gemm_post_op :=
  mk_post_op (op_code node) (op_args1 node) (op_args2 node) (op_args3 node)
    (po_scale_factor node) (po_scale_factor_len node) (po_bias_zp node) (po_bias_zp_len node)
    (stor_type node) (zp_stor_type node) (sf_stor_type node) (po_scale_factor_dim node)
    d ld (po_next node).

Definition update_node (l : list dlp_gemm_post_op) (i : nat)
    (f : dlp_gemm_post_op -> dlp_gemm_post_op) : option (list dlp_gemm_post_op) :=
  node ← l !! i; Some (<[i := f node]> l).

Definition is_col_major (meta_arg : ptr) : bool :=
  match meta_arg with
  | POrder c => bool_decide (c = "c"%char) || bool_decide (c = "C"%char)
  | _ => false
  end.

(** The checks of the GLU and the node it will write. *)
Definition glu_node (g : dlp_term_op_glu) (meta_arg : ptr) (m n : Z) : outcome dlp_gemm_post_op :=
  fail_if (is_null (glu_buf g)) DLP_CLSC_NULL_POINTER ;;
  fail_if (negb (n `rem` 2 =? 0)) DLP_CLSC_INVALID_MATRIX_DIMENSION ;;
  let glu_n := n `quot` 2 in
  let min_ld_d := if is_col_major meta_arg then m else glu_n in
  fail_if (glu_ld g <? min_ld_d) DLP_CLSC_INVALID_LEADING_DIMENSION ;;
  tmp_code ←
    match glu_algo_type g with
    | GATED_SWIGLU => mret POST_OPS_GATED_SWIGLU
    | GATED_SWIGLU_AND_MUL => mret POST_OPS_GATED_SWIGLU_AND_MUL
    | GLU_ALGO_OTHER => Error DLP_CLSC_NOT_SUPPORTED
    end;
  mret (dlp_gemm_set_node_params tmp_code (glu_alpha g) meta_arg (glu_beta g) PNull 0 PNull 0
          (dlp_gemm_get_stor_type (glu_stor_type g)) DLP_INVALID DLP_INVALID
          DLP_PARAM_DIM_INVALID).

Definition dlp_gemm_translate_glu_term_op (md : option dlp_metadata_t)
    (post_op_list_start : option (list dlp_gemm_post_op)) (pos : nat) (meta_arg : ptr) (m n : Z)
    : translated :=
  match post_op_list_start with
  | None => Some (DLP_CLSC_NULL_POINTER, [])
  | Some l =>
      l ← update_node l 0 (set_glu PNull 0);
      match md ≫= glu with
      | None => l ← write_node l pos disable_node; Some (DLP_CLSC_SUCCESS, l)
      | Some g =>
          match glu_node g meta_arg m n with
          | Undefined => None
          | Error e => Some (e, l)
          | Value node =>
              l ← write_node l pos node;
              l ← (if decide (pos = 0%nat) then Some l
                   else update_node l (pos - 1) (set_next pos));
              l ← update_node l 0 (set_glu (glu_buf g) (glu_ld g));
              l ← update_node l pos (set_glu (glu_buf g) (glu_ld g));
              Some (DLP_CLSC_SUCCESS, l)
          end
      end
  end.

(** ** Specification of the translation

    Without counters: operation number [i] of the sequence uses entry number
    [kind_index] of the array of its kind. *)
Definition kind_index (ops : list DLP_POST_OP_TYPE) (op : DLP_POST_OP_TYPE) (i : nat) : nat :=
  length (filter (fun o => o = op) (take i ops)).

Definition op_entry (md : dlp_metadata_t) (meta_arg : ptr) (m n : Z) (op : DLP_POST_OP_TYPE)
    (k : nat) : outcome dlp_gemm_post_op :=
  match op with
  | ELTWISE => translate_eltwise md k n
  | BIAS => translate_bias md k meta_arg n
  | SCALE => translate_scale md k meta_arg m n
  | MATRIX_ADD => translate_matrix_add md k meta_arg n
  | MATRIX_MUL => translate_matrix_mul md k meta_arg n
  | POST_OP_OTHER => Error DLP_CLSC_NOT_SUPPORTED
  end.

Definition spec_op (md : dlp_metadata_t) (meta_arg : ptr) (m n : Z)
    (ops : list DLP_POST_OP_TYPE) (i : nat) : outcome dlp_gemm_post_op :=
  op ← read ops i; op_entry md meta_arg m n op (kind_index ops op i).

(** All the operations in order; the first failure is the outcome. *)
Fixpoint collect {A} (l : list (outcome A)) : outcome (list A) :=
  match l with
  | [] => Value []
  | x :: l => a ← x; r ← collect l; mret (a :: r)
  end.

(** The nodes chained one after the other, from position [i] of [len]. *)
Fixpoint link_from (len : Z) (i : nat) (nodes : list dlp_gemm_post_op) : list dlp_gemm_post_op :=
  match nodes with
  | [] => []
  | node :: nodes =>
      (if Z.of_nat i <? len - 1 then set_next (S i) node else node) :: link_from len (S i) nodes
  end.

(** ** Refinement *)

Definition counters_at (ops : list DLP_POST_OP_TYPE) (i : nat) : op_counters :=
  mk_counters (kind_index ops ELTWISE i) (kind_index ops SCALE i) (kind_index ops BIAS i)
    (kind_index ops MATRIX_ADD i) (kind_index ops MATRIX_MUL i).

Lemma kind_index_S ops op i x :
  ops !! i = Some x ->
  kind_index ops op (S i) = (kind_index ops op i + if decide (x = op) then 1 else 0)%nat.
Proof.
  intros Hi. unfold kind_index. rewrite (take_S_r _ _ x) by done.
  rewrite filter_app, length_app. f_equal. rewrite filter_cons, filter_nil. by case_decide.
Qed.

Lemma translate_op_spec md meta_arg m n ops i op :
  ops !! i = Some op ->
  translate_op md meta_arg m n op (counters_at ops i) =
    node ← op_entry md meta_arg m n op (kind_index ops op i); mret (node, counters_at ops (S i)).
Proof.
  intros Hi. unfold counters_at. rewrite !(kind_index_S _ _ _ _ Hi).
  destruct op; simpl; try done; rewrite !Nat.add_0_r, Nat.add_1_r; done.
Qed.

(** Writing consecutive nodes. *)
Fixpoint write_from (i : nat) (nodes l : list dlp_gemm_post_op) : list dlp_gemm_post_op :=
  match nodes with
  | [] => l
  | node :: nodes => write_from (S i) nodes (<[i := node]> l)
  end.

Lemma write_from_length i nodes l : length (write_from i nodes l) = length l.
Proof. revert i l. induction nodes; intros; simpl; [done|]. by rewrite IHnodes, length_insert. Qed.

Lemma write_from_app i nodes l :
  (i + length nodes <= length l)%nat ->
  write_from i nodes l = take i l ++ nodes ++ drop (i + length nodes) l.
Proof.
  revert i l. induction nodes as [|x nodes IH]; intros i l Hlen; simpl in *.
  { by rewrite Nat.add_0_r, take_drop. }
  rewrite IH by (rewrite length_insert; lia).
  rewrite (take_S_r _ _ x) by (rewrite list_lookup_insert_eq; [done|lia]).
  rewrite take_insert_ge, drop_insert_lt by lia.
  rewrite <- app_assoc. simpl. by replace (S (i + length nodes)) with (i + S (length nodes))%nat by lia.
Qed.

Lemma link_from_length len i nodes : length (link_from len i nodes) = length nodes.
Proof. revert i. induction nodes; intros; simpl; [done|]. by rewrite IHnodes. Qed.

Lemma collect_length {A} (l : list (outcome A)) r : collect l = Value r -> length r = length l.
Proof.
  revert r. induction l as [|x l IH]; intros r; simpl; [by intros [= <-]|].
  destruct x; simpl; try done. destruct (collect l); simpl; try done.
  intros [= <-]. simpl. by rewrite (IH a0).
Qed.

Lemma spec_op_eq md meta_arg m n ops i :
  spec_op md meta_arg m n ops i =
    match ops !! i with
    | Some op => op_entry md meta_arg m n op (kind_index ops op i)
    | None => Undefined
    end.
Proof. unfold spec_op, read. by destruct (ops !! i). Qed.

Lemma post_ops_loop_spec md ops meta_arg m n todo i l :
  (i + todo <= length l)%nat ->
  match collect (map (spec_op md meta_arg m n ops) (List.seq i todo)) with
  | Undefined => post_ops_loop md ops meta_arg m n todo i (counters_at ops i) l = None
  | Error e => exists l', post_ops_loop md ops meta_arg m n todo i (counters_at ops i) l
                          = Some (e, l') /\ length l' = length l
  | Value nodes => post_ops_loop md ops meta_arg m n todo i (counters_at ops i) l
                   = Some (DLP_CLSC_SUCCESS, write_from i (link_from (seq_length md) i nodes) l)
  end.
Proof.
  revert i l. induction todo as [|todo IH]; intros i l Hlen; [done|]. simpl.
  rewrite spec_op_eq. unfold read. destruct (ops !! i) as [op|] eqn:Hi; simpl; [|done].
  rewrite (translate_op_spec _ _ _ _ _ _ _ Hi).
  destruct (op_entry md meta_arg m n op (kind_index ops op i)) as [|e|node]; simpl; [done|by eauto|].
  unfold write_node. rewrite decide_True by lia. simpl.
  set (node' := if Z.of_nat i <? _ then _ else node).
  specialize (IH (S i) (<[i := node']> l)). rewrite length_insert in IH.
  specialize (IH ltac:(lia)).
  destruct (collect (map (spec_op md meta_arg m n ops) (List.seq (S i) todo))) as [|e|nodes]; simpl;
    done.
Qed.

Lemma link_from_app_lookup len i nodes j :
  link_from len i nodes !! j =
    (fun node => if Z.of_nat (i + j) <? len - 1 then set_next (S (i + j)) node else node) <$>
    nodes !! j.
Proof.
  revert i j. induction nodes as [|x nodes IH]; intros i [|j]; simpl; try done.
  - by rewrite Nat.add_0_r.
  - rewrite IH. by rewrite Nat.add_succ_r.
Qed.

(** Walking a linked prefix visits its nodes in order and stops. *)
Lemma walk_linked len nodes rest i fuel l :
  l = take i l ++ link_from len i nodes ++ rest -> (i <= length l)%nat ->
  len = Z.of_nat (i + length nodes) -> (1 <= length nodes <= fuel)%nat ->
  Forall (fun node => po_next node = None) nodes ->
  walk fuel l (Some i) = link_from len i nodes.
Proof.
  revert i fuel. induction nodes as [|x nodes IH]; intros i fuel El Hi Hlen Hfuel Hnext; [simpl in *; lia|].
  destruct fuel as [|fuel]; [simpl in *; lia|]. simpl.
  assert (l !! i = Some (if Z.of_nat i <? len - 1 then set_next (S i) x else x)) as ->.
  { rewrite El, lookup_app_r by (rewrite length_take; lia).
    by rewrite length_take, Nat.min_l, Nat.sub_diag by lia. }
  f_equal. inversion_clear Hnext as [|? ? Hx Hrest].
  destruct nodes as [|y nodes].
  - simpl in Hlen. rewrite (proj2 (Z.ltb_ge _ _)) by lia. rewrite Hx. by destruct fuel.
  - rewrite (proj2 (Z.ltb_lt _ _)) by (simpl in Hlen; lia). simpl po_next.
    assert (S i <= length l)%nat.
    { rewrite El, !length_app, length_take, link_from_length. simpl. lia. }
    apply IH; [|done|simpl in *; lia|simpl in *; lia|done].
    rewrite El at 1. rewrite (take_S_r l i (if Z.of_nat i <? len - 1 then set_next (S i) x else x)).
    { by rewrite <- app_assoc. }
    rewrite El, lookup_app_r by (rewrite length_take; lia).
    by rewrite length_take, Nat.min_l, Nat.sub_diag by lia.
Qed.

(** The two translators as the bf16 API chains them, on an array of
    [AOCL_DLP_MAX_POST_OPS + 1] nodes (aocl_gemm_bf16bf16f32of32.c). *)
Definition term_glu_offset (md : option dlp_metadata_t) : Z :=
  match md with
  | Some md => if 0 <? seq_length md then seq_length md else 0
  | None => 0
  end.

Definition translate_bf16_ops (md : option dlp_metadata_t) (l : list dlp_gemm_post_op)
    (order : ascii) (m n : Z) : translated :=
  match dlp_gemm_translate_to_post_ops_list md (Some l) (POrder order) m n with
  | Some (DLP_CLSC_SUCCESS, l) =>
      dlp_gemm_translate_glu_term_op md (Some l) (Z.to_nat (term_glu_offset md))
        (POrder order) m n
  | r => r
  end.

(** ** The chain *)

Ltac op_entry_steps :=
  unfold translate_eltwise, translate_bias, translate_scale, translate_matrix_add,
    translate_matrix_mul, translate_matrix;
  repeat first [ yields_step | case_match ].

Lemma op_entry_next md meta_arg m n op k :
  yields (fun node => po_next node = None) (op_entry md meta_arg m n op k).
Proof. destruct op; simpl; op_entry_steps; done. Qed.

(** What every operation promises of its node holds of all the nodes. *)
Lemma collect_yields (P : dlp_gemm_post_op -> Prop) md meta_arg m n ops ixs :
  (forall op k, yields P (op_entry md meta_arg m n op k)) ->
  yields (Forall P) (collect (map (spec_op md meta_arg m n ops) ixs)).
Proof.
  intros HP. induction ixs as [|i ixs IH]; simpl; [by apply yields_ret|].
  apply yields_bind. intros node Hnode. apply yields_bind. intros rest Hrest. apply yields_ret.
  constructor; [|by apply IH]. rewrite spec_op_eq in Hnode.
  destruct (ops !! i); [|done]. by eapply HP.
Qed.

Lemma op_entry_glu md meta_arg m n op k :
  yields (fun node => glu_d node = PNull) (op_entry md meta_arg m n op k).
Proof. destruct op; simpl; op_entry_steps; done. Qed.

Definition seq_ok (md : dlp_metadata_t) (ops : list DLP_POST_OP_TYPE) : Prop :=
  1 <= seq_length md <= AOCL_DLP_MAX_POST_OPS /\ seq_vector md = Some ops.

Lemma translate_spec md ops l meta_arg m n :
  seq_ok md ops -> seq_length md <= Z.of_nat (length l) ->
  let len := Z.to_nat (seq_length md) in
  match collect (map (spec_op md meta_arg m n ops) (List.seq 0 len)) with
  | Undefined =>
      dlp_gemm_translate_to_post_ops_list (Some md) (Some l) meta_arg m n = None
  | Error e => exists l',
      dlp_gemm_translate_to_post_ops_list (Some md) (Some l) meta_arg m n = Some (e, l')
      /\ length l' = length l
  | Value nodes =>
      length nodes = len /\ Forall (fun node => po_next node = None) nodes /\
      dlp_gemm_translate_to_post_ops_list (Some md) (Some l) meta_arg m n =
        Some (DLP_CLSC_SUCCESS, link_from (seq_length md) 0 nodes ++ drop len l)
  end.
Proof.
  intros [Hseq Hops] Hl len. unfold dlp_gemm_translate_to_post_ops_list.
  rewrite (proj2 (Z.leb_gt _ _)), (proj2 (Z.ltb_ge _ _)), Hops by lia.
  pose proof (post_ops_loop_spec md ops meta_arg m n len 0 l ltac:(lia)) as H.
  change (counters_at ops 0) with counters_zero in H. fold len.
  destruct (collect _) as [|e|nodes] eqn:E; [done|done|].
  pose proof (collect_length _ _ E) as Hlen. rewrite length_map, length_seq in Hlen.
  split; [done|]. split; [by eapply (collect_yields (fun node => po_next node = None)); [apply op_entry_next|]|]. rewrite H. f_equal. f_equal.
  rewrite write_from_app by (rewrite link_from_length; lia).
  by rewrite link_from_length, take_0, Hlen.
Qed.

Lemma walk_translated len nodes rest fuel :
  len = Z.of_nat (length nodes) -> (1 <= length nodes <= fuel)%nat ->
  Forall (fun node => po_next node = None) nodes ->
  walk fuel (link_from len 0 nodes ++ rest) (Some 0%nat) = link_from len 0 nodes.
Proof.
  intros Hlen Hf Hnext. eapply walk_linked; [by rewrite take_0|lia|simpl; lia|lia|done].
Qed.

(** C23. The translation computes the sequence the user asked for: for any
    metadata with 1 to 8 operations and any large enough node array, the loop
    with its five counters is exactly the map of the operations, operation [i]
    using the entry of its kind whose number is the count of earlier operations
    of that kind; the first failing operation gives the error; on success the
    nodes are chained in order with the last one ending the list, and the rest
    of the array is untouched. *)
Theorem post_ops_translation_refines (md : dlp_metadata_t) (ops : list DLP_POST_OP_TYPE)
    (l : list dlp_gemm_post_op) (meta_arg : ptr) (m n : Z) :
  seq_ok md ops -> seq_length md <= Z.of_nat (length l) ->
  let len := Z.to_nat (seq_length md) in
  let r := dlp_gemm_translate_to_post_ops_list (Some md) (Some l) meta_arg m n in
  match collect (map (spec_op md meta_arg m n ops) (List.seq 0 len)) with
  | Undefined => r = None
  | Error e => exists l', r = Some (e, l')
  | Value nodes => exists l', r = Some (DLP_CLSC_SUCCESS, l') /\ length nodes = len /\
      walk (length l') l' (Some 0%nat) = link_from (seq_length md) 0 nodes /\
      forall i, (len <= i)%nat -> l' !! i = l !! i
  end.
Proof.
  intros Hseq Hl len r. pose proof (translate_spec md ops l meta_arg m n Hseq Hl) as H.
  cbv zeta in H. fold len in H. subst r.
  destruct (collect (map _ (List.seq 0 len))) as [|e|nodes]; [done| |].
  - destruct H as (l' & -> & _). eauto.
  - destruct H as (Hlen & Hnext & ->). eexists. split; [done|]. split; [done|].
    destruct Hseq as [Hs _]. split.
    + apply walk_translated; [lia| |done].
      rewrite length_app, link_from_length, length_drop. lia.
    + intros i Hi. rewrite lookup_app_r by (rewrite link_from_length; lia).
      rewrite link_from_length, lookup_drop. f_equal. lia.
Qed.

Definition example_sf (len : Z) (d : DLP_PARAM_DIM_TYPE) : dlp_sf_t :=
  mk_sf (PUser 100) len DLP_F32 d.

(** bias, then MISH, then a per-token scale, on an 8 x 32 output. *)
Definition example_md : dlp_metadata_t :=
  mk_metadata (Some [mk_scale (Some (example_sf 8 DLP_PARAM_DIM_PER_TOKEN)) None])
    (Some [mk_eltwise None (mk_algo PNull PNull MISH DLP_F32)])
    (Some [mk_bias (PUser 1) DLP_F32 None None 32]) None None
    3 (Some [BIAS; ELTWISE; SCALE]) None None None.

Lemma post_ops_translation_refines_witness :
  exists nodes l',
    dlp_gemm_translate_to_post_ops_list (Some example_md) (Some (replicate 8 disable_node))
      PNull 8 32 = Some (DLP_CLSC_SUCCESS, l') /\
    map op_code nodes = [POST_OPS_BIAS; POST_OPS_MISH; POST_OPS_DOWNSCALE] /\
    walk (length l') l' (Some 0%nat) = link_from 3 0 nodes.
Proof.
  pose proof (post_ops_translation_refines example_md [BIAS; ELTWISE; SCALE]
    (replicate 8 disable_node) PNull 8 32 ltac:(split; [split; vm_compute; congruence|reflexivity])
    ltac:(vm_compute; congruence)) as H.
  destruct H as (l' & E & _ & Hw & _).
  eexists _, l'. split; [exact E|]. split; [|exact Hw]. reflexivity.
Defined.

(** ** No access outside the caller's arrays *)

Lemma kind_index_le ops op i j : (i <= j)%nat -> (kind_index ops op i <= kind_index ops op j)%nat.
Proof.
  intros Hij. unfold kind_index. replace j with (i + (j - i))%nat by lia.
  rewrite <- take_take_drop, filter_app, length_app. lia.
Qed.

Lemma kind_index_lt ops op i j :
  ops !! i = Some op -> (i < j)%nat -> (kind_index ops op i < kind_index ops op j)%nat.
Proof.
  intros Hi Hij. pose proof (kind_index_le ops op (S i) j Hij).
  rewrite (kind_index_S _ _ _ _ Hi), decide_True in H by done. lia.
Qed.

(** Every array that is given has an entry for each operation of its kind. *)
Definition array_covers {A} (arr : option (list A)) (count : nat) : Prop :=
  from_option (fun l => (count <= length l)%nat) True arr.

Definition entries_cover (md : dlp_metadata_t) (ops : list DLP_POST_OP_TYPE) (len : nat) : Prop :=
  (len <= length ops)%nat /\
  array_covers (md_eltwise md) (kind_index ops ELTWISE len) /\
  array_covers (md_bias md) (kind_index ops BIAS len) /\
  array_covers (md_scale md) (kind_index ops SCALE len) /\
  array_covers (md_matrix_add md) (kind_index ops MATRIX_ADD len) /\
  array_covers (md_matrix_mul md) (kind_index ops MATRIX_MUL len).

Lemma defined_entry {A B} (arr : option (list A)) k count e (f : A -> outcome B) :
  array_covers arr count -> (k < count)%nat -> (forall x, defined (f x)) ->
  defined (l ← not_null arr e; x ← read l k; f x).
Proof.
  intros Hc Hk Hf. apply defined_bind; [apply defined_not_null|]. intros l Hl.
  destruct arr; simplify_eq/=. apply defined_bind; [apply defined_read; lia|]. auto.
Qed.

Lemma spec_op_defined md meta_arg m n ops len i :
  entries_cover md ops len -> (i < len)%nat -> defined (spec_op md meta_arg m n ops i).
Proof.
  intros (Hlen & He & Hb & Hs & Ha & Hm) Hi. rewrite spec_op_eq.
  destruct (lookup_lt_is_Some_2 ops i ltac:(lia)) as [op Hop]. rewrite Hop.
  pose proof (kind_index_lt ops op i len Hop Hi) as Hk. destruct op; simpl; [..|done].
  all: eapply defined_entry; [eassumption|exact Hk|]; intros x.
  all: repeat first [defined_step | unfold eltwise_algo; case_match; defined_step | case_match; defined_step].
Qed.

Lemma collect_defined {A} (l : list (outcome A)) :
  (forall x, x ∈ l -> defined x) -> defined (collect l).
Proof.
  induction l as [|x l IH]; intros H; simpl; [done|].
  apply defined_bind; [apply H; left|]. intros a _.
  apply defined_bind; [apply IH; intros; apply H; by right|]. done.
Qed.

Lemma translate_total md l meta_arg m n :
  (8 <= length l)%nat ->
  (forall md' ops, md = Some md' -> seq_ok md' ops ->
     entries_cover md' ops (Z.to_nat (seq_length md'))) ->
  exists err l', dlp_gemm_translate_to_post_ops_list md (Some l) meta_arg m n
    = Some (err, l') /\ length l' = length l /\ (err = DLP_CLSC_SUCCESS -> term_glu_offset md <= 8).
Proof.
  intros Hl Hcov. destruct md as [md|].
  2: { simpl. unfold write_node. rewrite decide_True by lia. eexists _, _.
       split; [done|]. by rewrite length_insert. }
  destruct (decide (1 <= seq_length md <= AOCL_DLP_MAX_POST_OPS)) as [Hs|Hs].
  2: { simpl. unfold AOCL_DLP_MAX_POST_OPS in *. unfold write_node.
       repeat zcase; try lia; rewrite decide_True by lia; eexists _, _;
         (split; [done|]); by rewrite length_insert. }
  assert (term_glu_offset (Some md) <= 8) as Hoff.
  { simpl. unfold AOCL_DLP_MAX_POST_OPS in *. zcase; lia. }
  destruct (seq_vector md) as [ops|] eqn:Hops.
  2: { simpl. rewrite (proj2 (Z.leb_gt _ _)), (proj2 (Z.ltb_ge _ _)), Hops by lia. eauto. }
  pose proof (translate_spec md ops l meta_arg m n (conj Hs Hops)) as H. cbv zeta in H.
  unfold AOCL_DLP_MAX_POST_OPS in *. specialize (H ltac:(lia)).
  pose proof (collect_defined (map (spec_op md meta_arg m n ops)
    (List.seq 0 (Z.to_nat (seq_length md))))) as Hd.
  destruct (collect _) as [|e|nodes].
  - exfalso. apply Hd; [|done]. intros x Hx. apply list_elem_of_In, in_map_iff in Hx
      as (i & <- & Hi). apply in_seq in Hi.
    eapply spec_op_defined; [by apply (Hcov md ops)|lia].
  - destruct H as (l' & -> & Hl'). eauto.
  - destruct H as (Hn & _ & ->). eexists _, _. split; [done|]. split; [|done].
    rewrite length_app, link_from_length, length_drop. lia.
Qed.

Lemma update_node_ok l i f :
  (i < length l)%nat -> exists node, l !! i = Some node /\ update_node l i f = Some (<[i := f node]> l).
Proof.
  intros Hi. unfold update_node. destruct (lookup_lt_is_Some_2 l i Hi) as [node E].
  exists node. by rewrite E.
Qed.

Lemma glu_node_defined g meta_arg m n : defined (glu_node g meta_arg m n).
Proof. unfold glu_node. repeat first [defined_step | case_match]. Qed.

Lemma glu_total md l pos meta_arg m n :
  (pos < length l)%nat ->
  exists err l', dlp_gemm_translate_glu_term_op md (Some l) pos meta_arg m n = Some (err, l') /\
    length l' = length l.
Proof.
  intros Hpos. simpl.
  destruct (update_node_ok l 0 (set_glu PNull 0)) as (h & _ & ->); [lia|]. simpl.
  set (l1 := <[0%nat:=_]> l). assert (length l1 = length l) as Hl1 by apply length_insert.
  clearbody l1. unfold write_node.
  destruct (md ≫= glu) as [g|]; simpl.
  2: { rewrite decide_True by lia. simpl. eexists _, _. split; [done|]. rewrite length_insert. lia. }
  pose proof (glu_node_defined g meta_arg m n).
  destruct (glu_node g meta_arg m n) as [|e|node]; [done|by eauto|].
  rewrite decide_True by lia. simpl. set (l2 := <[pos:=node]> l1).
  assert (length l2 = length l) as Hl2 by (subst l2; by rewrite length_insert). clearbody l2.
  assert (exists l3, (if decide (pos = 0%nat) then Some l2
    else update_node l2 (pos - 1) (set_next pos)) = Some l3 /\ length l3 = length l)
    as (l3 & -> & Hl3).
  { case_decide; [by eauto|].
    destruct (update_node_ok l2 (pos - 1) (set_next pos)) as (? & _ & ->); [lia|].
    eexists. split; [done|]. by rewrite length_insert. }
  simpl. destruct (update_node_ok l3 0 (set_glu (glu_buf g) (glu_ld g))) as (? & _ & ->); [lia|].
  simpl. set (l4 := <[0%nat:=_]> l3). assert (length l4 = length l) as Hl4
    by (subst l4; by rewrite length_insert). clearbody l4.
  destruct (update_node_ok l4 pos (set_glu (glu_buf g) (glu_ld g))) as (? & _ & ->); [lia|].
  simpl. eexists _, _. split; [done|]. by rewrite length_insert.
Qed.

Lemma translate_bf16_total md l order m n :
  length l = 9%nat ->
  (forall md' ops, md = Some md' -> seq_ok md' ops ->
     entries_cover md' ops (Z.to_nat (seq_length md'))) ->
  exists err l', translate_bf16_ops md l order m n = Some (err, l') /\ length l' = 9%nat.
Proof.
  intros Hl Hcov. unfold translate_bf16_ops.
  destruct (translate_total md l (POrder order) m n ltac:(lia) Hcov) as (err & l1 & -> & Hl1 & Hoff).
  rewrite Hl in Hl1.
  destruct (decide (err = DLP_CLSC_SUCCESS)) as [->|]; [|destruct err; try done; by eauto].
  rewrite <- Hl1. apply glu_total. specialize (Hoff eq_refl). lia.
Qed.

(** C26. The translators stay inside the caller's arrays: whatever the metadata,
    if every parameter array that is given has an entry for each operation of
    its kind and the node array has the 9 nodes the bf16 functions declare, the
    translation (GLU included) returns a code and an array of the same size,
    for any sequence length, null pointers and unknown operation codes
    included. *)
Theorem post_ops_translation_defined (md : option dlp_metadata_t) (l : list dlp_gemm_post_op)
    (order : ascii) (m n : Z) :
  length l = 9%nat ->
  (forall md' ops, md = Some md' -> seq_ok md' ops ->
     entries_cover md' ops (Z.to_nat (seq_length md'))) ->
  exists err l', translate_bf16_ops md l order m n = Some (err, l') /\ length l' = 9%nat.
Proof. apply translate_bf16_total. Qed.

Lemma post_ops_translation_defined_witness :
  exists err l', translate_bf16_ops (Some example_md) (replicate 9 disable_node) "r" 8 32
    = Some (err, l') /\ length l' = 9%nat.
Proof.
  apply (post_ops_translation_defined (Some example_md) (replicate 9 disable_node) "r" 8 32);
    [reflexivity|].
  intros md' ops [= <-] [_ [= <-]]. repeat split; vm_compute; lia.
Defined.

(** ** What the kernels rely on *)

(** The granularity of a node's scale factor fits its length, so that indexing
    it by column (or by row) stays inside; bias and matrix operands likewise. *)
Definition node_sf_coherent (m n : Z) (node : dlp_gemm_post_op) : Prop :=
  match po_scale_factor_dim node with
  | DLP_PARAM_DIM_INVALID => po_scale_factor_len node = 0 /\ po_scale_factor node = PNull
  | DLP_PARAM_DIM_PER_TENSOR => po_scale_factor_len node = 1
  | DLP_PARAM_DIM_PER_CHANNEL => po_scale_factor_len node = n
  | DLP_PARAM_DIM_PER_TOKEN => po_scale_factor_len node = m /\ op_code node = POST_OPS_DOWNSCALE
  | DLP_PARAM_DIM_PER_GROUP => False
  end.

Definition node_operands_present (n : Z) (node : dlp_gemm_post_op) : Prop :=
  match op_code node with
  | POST_OPS_BIAS =>
      op_args1 node <> PNull /\ (op_args3 node = PAddrOf 1 \/ op_args3 node = PAddrOf n) /\
      (po_scale_factor_len node <> 0 -> po_scale_factor node <> PNull) /\
      (po_bias_zp_len node <> 0 -> po_bias_zp node <> PNull) /\
      (po_bias_zp_len node = 0 \/ po_bias_zp_len node = 1 \/ po_bias_zp_len node = n)
  | POST_OPS_DOWNSCALE => po_scale_factor_len node <> 0 -> po_scale_factor node <> PNull
  | POST_OPS_MATRIX_ADD | POST_OPS_MATRIX_MUL =>
      op_args1 node <> PNull /\ (exists ld, op_args3 node = PAddrOf ld /\ 0 < ld) /\
      po_scale_factor node <> PNull /\ po_scale_factor_len node <> 0
  | POST_OPS_RELU_SCALE | POST_OPS_SWISH => op_args2 node <> PNull
  | POST_OPS_CLIP => op_args2 node <> PNull /\ op_args3 node <> PNull
  | _ => True
  end.

Lemma sf_len_good n sf s :
  sf_len_bad n sf = false -> sf = Some s -> scale_factor_len s = 1 \/ scale_factor_len s = n.
Proof. intros H ->. unfold sf_len_bad in H. simpl in H. repeat zcase_in H; simpl in H; auto; done. Qed.

Lemma zp_len_good n zp z :
  zp_len_bad n zp = false -> zp = Some z -> zero_point_len z = 1 \/ zero_point_len z = n.
Proof. intros H ->. unfold zp_len_bad in H. simpl in H. repeat zcase_in H; simpl in H; auto; done. Qed.

Lemma is_null_false p : is_null p = false -> p <> PNull.
Proof. by destruct p. Qed.

Lemma sf_data_present sf s :
  sf_data_missing sf = false -> sf = Some s -> 0 < scale_factor_len s -> scale_factor s <> PNull.
Proof.
  intros H -> Hl. unfold sf_data_missing in H. simpl in H.
  rewrite (proj2 (Z.ltb_lt _ _) Hl) in H. by apply is_null_false.
Qed.

Lemma zp_data_present zp z :
  zp_data_missing zp = false -> zp = Some z -> 0 < zero_point_len z -> zero_point z <> PNull.
Proof.
  intros H -> Hl. unfold zp_data_missing in H. simpl in H.
  rewrite (proj2 (Z.ltb_lt _ _) Hl) in H. by apply is_null_false.
Qed.

Section operands.
Context (md : dlp_metadata_t) (meta_arg : ptr) (m n : Z).
Hypothesis Hm : 1 <= m.
Hypothesis Hn : 1 <= n.

Definition node_ok (node : dlp_gemm_post_op) : Prop :=
  node_sf_coherent m n node /\ node_operands_present n node.

(** The scale factor of a node built from one inferred by length. *)
Lemma coherent_by_len node sf d0 :
  sf_len_bad n sf = false -> po_scale_factor_dim node = sf_dim_of_len d0 sf ->
  po_scale_factor_len node = from_option scale_factor_len (if decide (d0 = DLP_PARAM_DIM_PER_TENSOR) then 1 else 0) sf ->
  (sf = None -> d0 = DLP_PARAM_DIM_PER_TENSOR \/ (d0 = DLP_PARAM_DIM_INVALID /\ po_scale_factor node = PNull)) ->
  node_sf_coherent m n node.
Proof.
  intros Hlen Hd Hl Hnone. unfold node_sf_coherent. rewrite Hd, Hl.
  destruct sf as [s|]; simpl.
  - destruct (sf_len_good n _ s Hlen eq_refl) as [E|E]; rewrite E; [done|]. zcase; done.
  - destruct (Hnone eq_refl) as [->|[-> Hp]]; [done|by split].
Qed.

Lemma eltwise_ok k : yields node_ok (translate_eltwise md k n).
Proof using Hm Hn.
  unfold translate_eltwise. do 2 yields_step. apply yields_bind. intros [code stor] Ha.
  yields_step. yields_step. split.
  - eapply (coherent_by_len _ (elt_sf _) DLP_PARAM_DIM_INVALID); [eassumption|done..|].
    intros ->. by right.
  - unfold eltwise_algo in Ha. unfold node_operands_present. simpl.
    unfold fail_if, mret, outcome_mret in Ha.
    destruct (algo_type (algo a0)); cbn in Ha;
      repeat match type of Ha with context [if ?b then _ else _] =>
        destruct b eqn:Hnul; cbn in Ha; [discriminate Ha|] end;
      injection Ha as <- <-; try exact I;
      repeat match goal with H : _ || _ = false |- _ => apply orb_false_iff in H as [? ?] end;
      repeat split; by apply is_null_false.
Qed.

Lemma bias_ok k : yields node_ok (translate_bias md k meta_arg n).
Proof using Hm Hn.
  unfold translate_bias. repeat yields_step.
  assert (bias_len a0 = 1 \/ bias_len a0 = n) as Hbl.
  { rewrite H1 in H2. simpl in H2. repeat zcase_in H2; simpl in H2; auto; done. }
  split.
  - eapply (coherent_by_len _ (bias_sf a0) DLP_PARAM_DIM_INVALID); [eassumption|done..|].
    intros ->. by right.
  - unfold node_operands_present. simpl. split_and!.
    + by apply is_null_false.
    + rewrite (proj2 (Z.ltb_lt _ _)) by lia. destruct Hbl as [-> | ->]; auto.
    + destruct (bias_sf a0) as [s|] eqn:E; simpl; [|done]. intros _.
      eapply sf_data_present; [done..|]. destruct (sf_len_good _ _ s H4 eq_refl); lia.
    + destruct (bias_zp a0) as [z|] eqn:E; simpl; [|done]. intros _.
      eapply zp_data_present; [done..|]. destruct (zp_len_good _ _ z H6 eq_refl); lia.
    + destruct (bias_zp a0) as [z|] eqn:E; simpl; [|by left]. right. by eapply zp_len_good.
Qed.

Lemma scale_ok k : yields node_ok (translate_scale md k meta_arg m n).
Proof using Hm Hn.
  unfold translate_scale. repeat yields_step.
  destruct (sc_sf a0) as [s|] eqn:E.
  2: { split; [by split|]. unfold node_operands_present. simpl. done. }
  assert (node_sf_coherent m n (dlp_gemm_set_node_params POST_OPS_DOWNSCALE (zp_ptr (sc_zp a0))
    meta_arg (PAddrOf (zp_len (sc_zp a0))) (scale_factor s) (scale_factor_len s) PNull 0
    DLP_INVALID (zp_type (sc_zp a0)) (sf_type DLP_INVALID (Some s)) (scale_factor_dim s)) /\
    0 < scale_factor_len s) as [Hc Hpos].
  { unfold node_sf_coherent. simpl in H3 |- *. unfold scale_dim_bad in H3.
    destruct (scale_factor_dim s); try done; repeat zcase_in H3; try done; split; lia || done. }
  split; [exact Hc|]. unfold node_operands_present. simpl. intros _. by eapply sf_data_present.
Qed.

Lemma matrix_ok code ops k :
  code = POST_OPS_MATRIX_ADD \/ code = POST_OPS_MATRIX_MUL ->
  yields node_ok (translate_matrix code ops k meta_arg n).
Proof using Hm Hn.
  intros Hcode. unfold translate_matrix. repeat yields_step.
  apply orb_false_iff in H1 as [Hp Hld%Z.leb_gt].
  split.
  - eapply (coherent_by_len _ (mat_sf a0) DLP_PARAM_DIM_PER_TENSOR); [eassumption|done..|].
    by left.
  - unfold node_operands_present. simpl.
    assert (is_null (matrix a0) = false) as Hnn%is_null_false by done.
    assert (from_option scale_factor PIdentityScale (mat_sf a0) <> PNull /\
            from_option scale_factor_len 1 (mat_sf a0) <> 0) as [Hsf Hsl].
    { destruct (mat_sf a0) as [s|] eqn:E; simpl; [|done].
      destruct (sf_len_good _ _ s H3 eq_refl); (split; [eapply sf_data_present; [done..|lia]|lia]). }
    destruct Hcode as [-> | ->]; split_and!; eauto.
Qed.

Lemma op_entry_ok op k : yields node_ok (op_entry md meta_arg m n op k).
Proof using Hm Hn.
  destruct op; simpl; [apply eltwise_ok|apply bias_ok|apply scale_ok|..].
  - apply matrix_ok. by left.
  - apply matrix_ok. by right.
  - apply yields_error.
Qed.
End operands.

Lemma link_from_forall (P : dlp_gemm_post_op -> Prop) len i nodes :
  (forall j node, P node -> P (set_next j node)) -> Forall P nodes ->
  Forall P (link_from len i nodes).
Proof.
  intros Hset. revert i. induction nodes as [|x nodes IH]; intros i H; simpl; [done|].
  inversion_clear H. constructor; [case_match; auto|auto].
Qed.

(** The nodes of a successful translation, seen from the array. *)
Lemma translate_success md ops l meta_arg m n l' :
  seq_ok md ops -> seq_length md <= Z.of_nat (length l) ->
  dlp_gemm_translate_to_post_ops_list (Some md) (Some l) meta_arg m n = Some (DLP_CLSC_SUCCESS, l') ->
  exists nodes,
    collect (map (spec_op md meta_arg m n ops) (List.seq 0 (Z.to_nat (seq_length md)))) = Value nodes /\
    length nodes = Z.to_nat (seq_length md) /\ length l' = length l /\
    walk (length l') l' (Some 0%nat) = link_from (seq_length md) 0 nodes.
Proof.
  intros Hseq Hl Hr. pose proof (translate_spec md ops l meta_arg m n Hseq Hl) as H.
  cbv zeta in H. destruct (collect (map _ _)) as [|e|nodes] eqn:E; [congruence| |].
  - exfalso. destruct H as (l'' & H & _). rewrite Hr in H. simplify_eq.
    clear Hr. (* success is never an error code *)
    assert (forall ixs, collect (map (spec_op md meta_arg m n ops) ixs) <> Error DLP_CLSC_SUCCESS) as Hno.
    { induction ixs as [|i ixs IH]; simpl; [done|]. rewrite spec_op_eq.
      destruct (ops !! i) as [op|]; simpl; [|done]. generalize (kind_index ops op i). intros k.
      assert (op_entry md meta_arg m n op k <> Error DLP_CLSC_SUCCESS) as Hop.
      { destruct op; simpl; unfold translate_eltwise, translate_bias, translate_scale,
          translate_matrix_add, translate_matrix_mul, translate_matrix, eltwise_algo,
          not_null, read, fail_if;
          repeat (simpl; case_match; simplify_eq/=); try done. }
      destruct (op_entry md meta_arg m n op k); simpl; [done|by intros [= ->]|].
      destruct (collect (map _ ixs)); simpl; [done|by intros [= ->]|done]. }
    by apply (Hno _ E).
  - destruct H as (Hlen & Hnext & H). rewrite Hr in H. simplify_eq. exists nodes.
    destruct Hseq as [Hs _].
    assert (length (link_from (seq_length md) 0 nodes ++ drop (Z.to_nat (seq_length md)) l) = length l)
      as Hlen'. { rewrite length_app, link_from_length, length_drop. lia. }
    split_and!; [done..|]. rewrite Hlen'. apply walk_translated; [lia|lia|done].
Qed.

(** Without the terminal GLU no list has one, and where there is nothing to translate the
    head is disabled. *)
Lemma write_head l : (1 <= length l)%nat ->
  exists l', write_node l 0 disable_node = Some l' /\ head l' = Some disable_node.
Proof. destruct l as [|x l]; simpl; [lia|]. intros _. unfold write_node. simpl. by eexists. Qed.

Lemma translated_head md l meta_arg m n l' :
  (8 <= length l)%nat -> dlp_gemm_translate_to_post_ops_list md (Some l) meta_arg m n = Some (DLP_CLSC_SUCCESS, l') ->
  dlp_gemm_post_op_list_has_shape_changing_glu (head l') = false /\
  (from_option seq_length 0 md <= 0 -> head l' = Some disable_node).
Proof.
  intros Hl Hr. destruct (write_head l ltac:(lia)) as (lh & Eh & Hh).
  pose proof Hr as Hr'. unfold dlp_gemm_translate_to_post_ops_list in Hr'. rewrite Eh in Hr'. cbn [mbind option_bind] in Hr'.
  destruct md as [md|]; cbn [from_option id].
  2: { injection Hr' as <-. by rewrite Hh. }
  destruct (Z.leb_spec (seq_length md) 0) as [H0|H0]; [injection Hr' as <-; by rewrite Hh|].
  destruct (Z.ltb_spec AOCL_DLP_MAX_POST_OPS (seq_length md)) as [H8|H8]; [done|].
  unfold AOCL_DLP_MAX_POST_OPS in H8. destruct (seq_vector md) as [ops|] eqn:Eops; [|done]. clear Hr'.
  split; [|cbn; lia].
  destruct (translate_success md ops l meta_arg m n l') as (nodes & E & Hlen & Hll & Hw);
    [split; [unfold AOCL_DLP_MAX_POST_OPS; lia|done]|lia|exact Hr|].
  pose proof (collect_yields (fun node => glu_d node = PNull) md meta_arg m n ops _ (op_entry_glu md meta_arg m n) _ E) as HF.
  destruct nodes as [|x nodes]; [simpl in Hlen; lia|]. inversion_clear HF as [|? ? Hx _].
  destruct l' as [|y l']; [simpl in Hll; lia|]. simpl in Hw. injection Hw as -> _. simpl.
  case_match; simpl; by rewrite Hx.
Qed.

(** Success is the contract the kernels rely on: on a non-empty output,
    every node of a successfully translated list has a scale factor whose length
    is the one its granularity promises (1, the number of columns, or, for a
    down-scale only, the number of rows), scale factors, biases, matrices and
    zero points it needs are not null, leading dimensions are positive, and a
    matrix operand always has a scale factor to read. *)
Theorem post_ops_kernel_contract (md : dlp_metadata_t) (ops : list DLP_POST_OP_TYPE)
    (l l' : list dlp_gemm_post_op) (meta_arg : ptr) (m n : Z) :
  1 <= m -> 1 <= n -> seq_ok md ops -> seq_length md <= Z.of_nat (length l) ->
  dlp_gemm_translate_to_post_ops_list (Some md) (Some l) meta_arg m n
    = Some (DLP_CLSC_SUCCESS, l') ->
  Forall (fun node => node_sf_coherent m n node /\ node_operands_present n node)
    (walk (length l') l' (Some 0%nat)).
Proof.
  intros Hm Hn Hseq Hl Hr.
  destruct (translate_success _ _ _ _ _ _ _ Hseq Hl Hr) as (nodes & E & _ & _ & ->).
  apply link_from_forall; [done|].
  eapply (collect_yields (node_ok m n)); [|exact E]. intros. by apply op_entry_ok.
Qed.

Lemma post_ops_kernel_contract_witness :
  exists l', dlp_gemm_translate_to_post_ops_list (Some example_md)
      (Some (replicate 8 disable_node)) PNull 8 32 = Some (DLP_CLSC_SUCCESS, l') /\
    Forall (fun node => node_sf_coherent 8 32 node /\ node_operands_present 32 node)
      (walk (length l') l' (Some 0%nat)).
Proof.
  eexists. split; [reflexivity|].
  apply (post_ops_kernel_contract example_md [BIAS; ELTWISE; SCALE] (replicate 8 disable_node)
    _ PNull 8 32); [lia|lia| | |reflexivity].
  - split; [split; vm_compute; congruence|reflexivity].
  - vm_compute. congruence.
Defined.

(** ** JIT-only lists *)

Lemma jit_only_loop_existsb nodes b :
  jit_only_loop nodes b = b || existsb jit_only_node nodes.
Proof.
  revert b. induction nodes as [|x nodes IH]; intros b; simpl; [by rewrite orb_false_r|].
  rewrite IH. by destruct b.
Qed.

(** Operation [i] of the user's sequence needs the JIT kernel. *)
Definition needs_jit (md : dlp_metadata_t) (ops : list DLP_POST_OP_TYPE) (i : nat) : bool :=
  match ops !! i with
  | Some ELTWISE =>
      match md_eltwise md ≫= (.!! kind_index ops ELTWISE i) with
      | Some x => bool_decide (algo_type (algo x) = MISH)
      | None => false
      end
  | Some SCALE =>
      match md_scale md ≫= (.!! kind_index ops SCALE i) with
      | Some x => bool_decide (scale_factor_dim <$> sc_sf x = Some DLP_PARAM_DIM_PER_TOKEN)
      | None => false
      end
  | _ => false
  end.

Lemma jit_only_set_next i node : jit_only_node (set_next i node) = jit_only_node node.
Proof. done. Qed.

Lemma spec_op_jit md meta_arg m n ops i :
  yields (fun node => jit_only_node node = needs_jit md ops i) (spec_op md meta_arg m n ops i).
Proof.
  rewrite spec_op_eq. unfold needs_jit. destruct (ops !! i) as [op|]; [|by intros ?].
  destruct op; simpl; [| | | | |apply yields_error].
  - unfold translate_eltwise. do 2 yields_step. apply yields_bind. intros [code stor] Ha.
    repeat yields_step. rewrite H. simpl. rewrite H0. unfold jit_only_node. simpl.
    unfold eltwise_algo, fail_if, mret, outcome_mret in Ha.
    destruct (algo_type (algo a0)); cbn in Ha;
      repeat match type of Ha with context [if ?b then _ else _] =>
        destruct b; cbn in Ha; [discriminate Ha|] end; by injection Ha as <- <-.
  - unfold translate_bias. repeat yields_step. done.
  - unfold translate_scale. repeat yields_step. rewrite H. simpl. rewrite H0.
    unfold jit_only_node. simpl. destruct (sc_sf a0) as [s|]; simpl; [|done].
    by destruct (scale_factor_dim s).
  - unfold translate_matrix_add, translate_matrix. repeat yields_step. done.
  - unfold translate_matrix_mul, translate_matrix. repeat yields_step. done.
Qed.

Lemma existsb_link len i nodes :
  existsb jit_only_node (link_from len i nodes) = existsb jit_only_node nodes.
Proof.
  revert i. induction nodes as [|x nodes IH]; intros i; simpl; [done|].
  rewrite IH. by case_match.
Qed.

Lemma collect_existsb md meta_arg m n ops ixs nodes :
  collect (map (spec_op md meta_arg m n ops) ixs) = Value nodes ->
  existsb jit_only_node nodes = existsb (needs_jit md ops) ixs.
Proof.
  revert nodes. induction ixs as [|i ixs IH]; intros nodes; simpl; [by intros [= <-]|].
  destruct (spec_op md meta_arg m n ops i) as [|e|node] eqn:E; simpl; try done.
  destruct (collect _) as [|e|rest]; simpl; try done. intros [= <-]. simpl.
  rewrite (IH rest) by done. by rewrite (spec_op_jit _ _ _ _ _ _ _ E).
Qed.

(** A translated list is routed to the JIT kernels exactly when it must be:
    the query answers true if and only if some operation of the user's sequence
    is a MISH activation or a per-token down-scale, the two that the classic
    kernels' label tables cannot serve. *)
Theorem has_jit_only_op_exact (md : dlp_metadata_t) (ops : list DLP_POST_OP_TYPE)
    (l l' : list dlp_gemm_post_op) (meta_arg : ptr) (m n : Z) :
  seq_ok md ops -> seq_length md <= Z.of_nat (length l) ->
  dlp_gemm_translate_to_post_ops_list (Some md) (Some l) meta_arg m n
    = Some (DLP_CLSC_SUCCESS, l') ->
  dlp_gemm_post_op_list_has_jit_only_op (Some l') = true <->
  exists i, 0 <= Z.of_nat i < seq_length md /\ needs_jit md ops i = true.
Proof.
  intros Hseq Hl Hr.
  destruct (translate_success _ _ _ _ _ _ _ Hseq Hl Hr) as (nodes & E & _ & _ & Hw).
  unfold dlp_gemm_post_op_list_has_jit_only_op. rewrite Hw, jit_only_loop_existsb, existsb_link.
  rewrite (collect_existsb _ _ _ _ _ _ _ E). simpl. rewrite existsb_exists.
  split; intros (i & Hi & Hj); exists i; (split; [|done]).
  - apply in_seq in Hi. lia.
  - apply in_seq. lia.
Qed.

Lemma has_jit_only_op_exact_witness :
  exists l', dlp_gemm_translate_to_post_ops_list (Some example_md)
      (Some (replicate 8 disable_node)) PNull 8 32 = Some (DLP_CLSC_SUCCESS, l') /\
    dlp_gemm_post_op_list_has_jit_only_op (Some l') = true.
Proof.
  eexists. split; [reflexivity|].
  apply (has_jit_only_op_exact example_md [BIAS; ELTWISE; SCALE] (replicate 8 disable_node)
    _ PNull 8 32); [split; [split; vm_compute; congruence|reflexivity]
    | vm_compute; congruence | reflexivity |].
  exists 1%nat. split; [vm_compute; split; congruence|reflexivity].
Defined.

(** ** The terminal GLU *)

(** A chain seen as an array segment. *)
Lemma walk_chain l k last d i fuel :
  (i + d = k)%nat -> (d < fuel)%nat ->
  (forall j, (i <= j < k)%nat -> exists node, l !! j = Some node /\ po_next node = Some (S j)) ->
  l !! k = Some last -> po_next last = None ->
  walk fuel l (Some i) = take (S d) (drop i l).
Proof.
  revert i fuel. induction d as [|d IH]; intros i [|fuel] Hk Hf Hnext Hlast Hend; try lia; simpl.
  - rewrite Nat.add_0_r in Hk. subst i. rewrite Hlast, Hend. rewrite (drop_S _ _ _ Hlast). simpl.
    destruct fuel; by rewrite take_0.
  - destruct (Hnext i) as (node & Hi & Hn); [lia|]. rewrite Hi, Hn, (drop_S _ _ _ Hi), firstn_cons. f_equal.
    apply IH; try done; [lia|lia|]. intros j Hj. apply Hnext. lia.
Qed.

(** What the GLU checks require. *)
Definition glu_valid (g : dlp_term_op_glu) (order : ascii) (m n : Z) : Prop :=
  glu_buf g <> PNull /\ n `rem` 2 = 0 /\
  (if is_col_major (POrder order) then m else n `quot` 2) <= glu_ld g /\
  glu_algo_type g <> GLU_ALGO_OTHER.

Lemma glu_node_valid g order m n :
  (exists node, glu_node g (POrder order) m n = Value node /\ po_next node = None /\
     (op_code node = POST_OPS_GATED_SWIGLU \/ op_code node = POST_OPS_GATED_SWIGLU_AND_MUL) /\
     glu_valid g order m n) \/
  (exists e, glu_node g (POrder order) m n = Error e /\ e <> DLP_CLSC_SUCCESS /\
     ~ glu_valid g order m n).
Proof.
  unfold glu_node, glu_valid, fail_if. destruct (is_null (glu_buf g)) eqn:Hb; simpl.
  { right. eexists. split; [done|]. split; [done|]. destruct (glu_buf g); naive_solver. }
  destruct (Z.eqb_spec (n `rem` 2) 0) as [Hn|Hn]; simpl.
  2: { right. eexists. split; [done|]. split; [done|]. naive_solver. }
  destruct (Z.ltb_spec (glu_ld g) (if bool_decide (order = "c"%char) || bool_decide (order = "C"%char)
    then m else n `quot` 2)) as [Hl|Hl]; simpl.
  { right. eexists. split; [done|]. split; [done|]. intros (_ & _ & ? & _). lia. }
  destruct (glu_algo_type g) eqn:Ha; simpl.
  3: { right. eexists. split; [done|]. split; [done|]. naive_solver. }
  all: left; eexists; split; [done|]; split; [done|]; split; [by auto|].
  all: split_and!; try done; by destruct (glu_buf g).
Qed.

(** The array after the GLU was written at [pos] behind a chain of [pos] nodes. *)
Lemma glu_array l pos order m n md g node :
  md ≫= glu = Some g -> (pos < length l)%nat ->
  glu_node g (POrder order) m n = Value node ->
  exists l', dlp_gemm_translate_glu_term_op md (Some l) pos (POrder order) m n
      = Some (DLP_CLSC_SUCCESS, l') /\ length l' = length l /\
    (forall j x, (j < pos)%nat -> l !! j = Some x -> exists y, l' !! j = Some y /\
       op_code y = op_code x /\
       po_next y = (if decide (S j = pos) then Some pos else po_next x)) /\
    (exists y, l' !! pos = Some y /\ op_code y = op_code node /\ po_next y = po_next node) /\
    (exists h, l' !! 0%nat = Some h /\ glu_d h = glu_buf g /\ glu_ld_d h = glu_ld g).
Proof.
  intros Hg Hpos Hnode. simpl. rewrite Hg.
  destruct (update_node_ok l 0 (set_glu PNull 0)) as (h & Hh & ->); [lia|]. simpl.
  rewrite Hnode. unfold write_node. rewrite length_insert, decide_True by done. simpl.
  assert (forall l2 : list dlp_gemm_post_op, length l2 = length l -> exists x l3, (if decide (pos = 0%nat) then Some l2
    else update_node l2 (pos - 1) (set_next pos)) = Some l3 /\ length l3 = length l /\
    (pos <> 0%nat -> l2 !! (pos - 1)%nat = Some x) /\
    l3 = if decide (pos = 0%nat) then l2 else <[(pos - 1)%nat := set_next pos x]> l2) as Hupd.
  { intros l2 Hl2. destruct (lookup_lt_is_Some_2 l2 (pos - 1)) as [x Hx]; [lia|].
    exists x. case_decide; [by eexists|]. unfold update_node. rewrite Hx. simpl.
    eexists. split_and!; [done| |done|done]. by rewrite length_insert. }
  set (l2 := <[pos:=node]> (<[0%nat:=set_glu PNull 0 h]> l)).
  destruct (Hupd l2) as (x & l3 & -> & Hl3 & Hx & El3); [subst l2; by rewrite !length_insert|].
  simpl. destruct (update_node_ok l3 0 (set_glu (glu_buf g) (glu_ld g))) as (h3 & Hh3 & ->); [lia|].
  simpl. set (l4 := <[0%nat:=_]> l3).
  assert (length l4 = length l) as Hl4 by (subst l4; by rewrite length_insert).
  destruct (update_node_ok l4 pos (set_glu (glu_buf g) (glu_ld g))) as (y4 & Hy4 & ->); [lia|].
  simpl. eexists. split; [done|]. split; [by rewrite length_insert|]. split_and!.
  - intros j z Hj Hz. rewrite list_lookup_insert_ne by lia. subst l4.
    assert (exists z2, l2 !! j = Some z2 /\ op_code z2 = op_code z /\ po_next z2 = po_next z)
      as (z2 & Hz2 & Hc2 & Hn2).
    { subst l2. rewrite list_lookup_insert_ne by lia. destruct (decide (j = 0%nat)) as [->|].
      - rewrite list_lookup_insert_eq by lia. eexists. split; [done|]. by simplify_eq.
      - rewrite list_lookup_insert_ne by lia. by exists z. }
    assert (exists z3, l3 !! j = Some z3 /\ op_code z3 = op_code z /\
      po_next z3 = if decide (S j = pos) then Some pos else po_next z) as (z3 & Hz3 & Hc3 & Hn3).
    { subst l3. rewrite (decide_False (P := pos = 0%nat)) by lia.
      destruct (decide (S j = pos)) as [<-|].
      - assert (j = (S j - 1)%nat) as Ej by lia.
        rewrite <- Ej. rewrite list_lookup_insert_eq by (subst l2; rewrite !length_insert; lia).
        eexists. split; [done|]. simpl. split; [|done].
        rewrite <- Ej in Hx. rewrite Hx in Hz2 by lia. by simplify_eq.
      - rewrite list_lookup_insert_ne by lia. exists z2. by rewrite Hn2. }
    destruct (decide (j = 0%nat)) as [->|].
    + rewrite list_lookup_insert_eq by lia. eexists. split; [done|]. by simplify_eq.
    + rewrite list_lookup_insert_ne by lia. by exists z3.
  - rewrite list_lookup_insert_eq by lia. eexists. split; [done|]. simpl.
    assert (exists y3, l3 !! pos = Some y3 /\ op_code y3 = op_code node /\ po_next y3 = po_next node)
      as (y3 & Hy3 & Hc & Hn).
    { subst l3. assert (l2 !! pos = Some node).
      { subst l2. rewrite list_lookup_insert_eq; [done|]. rewrite length_insert. lia. }
      case_decide; [by exists node|]. rewrite list_lookup_insert_ne by lia. by exists node. }
    subst l4. destruct (decide (pos = 0%nat)) as [E|].
    + rewrite E, list_lookup_insert_eq in Hy4 by lia. rewrite E in Hy3. simplify_eq. done.
    + rewrite list_lookup_insert_ne in Hy4 by lia. by simplify_eq.
  - destruct (decide (pos = 0%nat)) as [->|].
    + rewrite list_lookup_insert_eq by lia. by eexists.
    + rewrite list_lookup_insert_ne by lia. subst l4. rewrite list_lookup_insert_eq by lia.
      by eexists.
Qed.

Lemma glu_invalid_error md l pos order m n g :
  md ≫= glu = Some g -> (pos < length l)%nat -> ~ glu_valid g order m n ->
  exists e l', dlp_gemm_translate_glu_term_op md (Some l) pos (POrder order) m n = Some (e, l') /\
    e <> DLP_CLSC_SUCCESS.
Proof.
  intros Hg Hpos Hv. simpl. rewrite Hg.
  destruct (update_node_ok l 0 (set_glu PNull 0)) as (h & Hh & ->); [lia|]. simpl.
  destruct (glu_node_valid g order m n) as [(node & _ & _ & _ & ?)|(e & -> & He & _)]; [done|eauto].
Qed.

Lemma glu_walk md l pos order m n g :
  md ≫= glu = Some g -> (pos < length l)%nat -> glu_valid g order m n ->
  (forall j, (j < pos)%nat -> exists x, l !! j = Some x /\
     po_next x = if decide (S j = pos) then None else Some (S j)) ->
  exists l' code, dlp_gemm_translate_glu_term_op md (Some l) pos (POrder order) m n
      = Some (DLP_CLSC_SUCCESS, l') /\ length l' = length l /\
    map op_code (walk (length l') l' (Some 0%nat)) = map op_code (take pos l) ++ [code] /\
    (code = POST_OPS_GATED_SWIGLU \/ code = POST_OPS_GATED_SWIGLU_AND_MUL) /\
    (exists h, l' !! 0%nat = Some h /\ glu_d h = glu_buf g /\ glu_ld_d h = glu_ld g).
Proof.
  intros Hg Hpos Hv Hchain.
  destruct (glu_node_valid g order m n) as [(node & Hnode & Hnext & Hcode & _)|(e & _ & _ & ?)]; [|done].
  destruct (glu_array l pos order m n md g node Hg Hpos Hnode)
    as (l' & Hl' & Hlen & Hpre & (y & Hy & Hyc & Hyn) & Hhead).
  exists l', (op_code node). split; [done|]. split; [done|]. split; [|by split].
  rewrite (walk_chain l' pos y pos 0 (length l')); [..|done|congruence]; [|lia|lia|].
  - rewrite drop_0, (take_S_r _ _ _ Hy), map_app. simpl. rewrite Hyc. f_equal.
    apply list_eq. intros j. rewrite !list_lookup_fmap. destruct (decide (j < pos)%nat).
    + rewrite !lookup_take_lt by lia. destruct (Hchain j) as (x & Hx & _); [done|].
      destruct (Hpre j x) as (z & Hz & Hzc & _); [done|done|]. rewrite Hz, Hx. simpl. by rewrite Hzc.
    + by rewrite !lookup_take_ge by lia.
  - intros j [_ Hj]. destruct (Hchain j Hj) as (x & Hx & Hxn).
    destruct (Hpre j x Hj Hx) as (z & Hz & _ & Hzn). exists z. split; [done|].
    rewrite Hzn, Hxn. by case_decide; subst.
Qed.

(** The linked prefix of a translated list, node by node. *)
Lemma translated_chain len nodes rest j :
  len = Z.of_nat (length nodes) -> Forall (fun node => po_next node = None) nodes ->
  (j < length nodes)%nat ->
  exists x, (link_from len 0 nodes ++ rest) !! j = Some x /\
    po_next x = if decide (S j = length nodes) then None else Some (S j).
Proof.
  intros Hlen Hnext Hj. destruct (lookup_lt_is_Some_2 nodes j Hj) as [x Hx].
  rewrite lookup_app_l by (rewrite link_from_length; lia).
  rewrite link_from_app_lookup, Hx. simpl. eexists. split; [done|].
  rewrite Forall_lookup in Hnext. case_decide.
  - rewrite (proj2 (Z.ltb_ge _ _)) by lia. by apply (Hnext j).
  - by rewrite (proj2 (Z.ltb_lt _ _)) by lia.
Qed.

(** Where the terminal operation finds the list of a sequence that was translated. *)
Lemma glu_start md ops l l1 order m n :
  seq_ok md ops -> length l = 9%nat ->
  dlp_gemm_translate_to_post_ops_list (Some md) (Some l) (POrder order) m n
    = Some (DLP_CLSC_SUCCESS, l1) ->
  exists pos, translate_bf16_ops (Some md) l order m n =
      dlp_gemm_translate_glu_term_op (Some md) (Some l1) pos (POrder order) m n /\
    (pos < length l1)%nat /\ length l1 = 9%nat /\
    (forall j, (j < pos)%nat -> exists x, l1 !! j = Some x /\
       po_next x = if decide (S j = pos) then None else Some (S j)) /\
    take pos l1 = walk 9 l1 (Some 0%nat).
Proof.
  intros Hseq Hl Hbase. pose proof Hseq as [Hs Hops].
  unfold AOCL_DLP_MAX_POST_OPS in Hs.
  assert (seq_length md <= Z.of_nat (length l)) as Hfit by lia.
  pose proof (translate_spec md ops l (POrder order) m n Hseq Hfit) as H. cbv zeta in H.
  destruct (translate_success _ _ _ _ _ _ _ Hseq Hfit Hbase) as (nodes & E & Hnl & Hl1 & Hw).
  rewrite E in H. destruct H as (_ & Hnext & H). rewrite Hbase in H. injection H as El1.
  exists (length nodes). split_and!; [|lia|lia| |].
  - unfold translate_bf16_ops. rewrite Hbase. unfold term_glu_offset.
    rewrite (proj2 (Z.ltb_lt _ _)), Hnl by lia. done.
  - intros j Hj. rewrite El1. apply translated_chain; [lia|done|done].
  - rewrite <- Hl, <- Hl1, Hw, El1. by rewrite take_app_length' by (by rewrite link_from_length).
Qed.

Lemma glu_code_jit_only l code :
  code = POST_OPS_GATED_SWIGLU \/ code = POST_OPS_GATED_SWIGLU_AND_MUL ->
  code ∈ map op_code (walk (length l) l (Some 0%nat)) ->
  dlp_gemm_post_op_list_has_jit_only_op (Some l) = true.
Proof.
  intros Hc Hin. unfold dlp_gemm_post_op_list_has_jit_only_op. rewrite jit_only_loop_existsb. simpl.
  apply existsb_exists. apply list_elem_of_In, in_map_iff in Hin as (x & Hx & Hin).
  exists x. split; [done|]. unfold jit_only_node. rewrite Hx. by destruct Hc as [-> | ->].
Qed.

(** The gated linear unit ends the list: after a successful translation of
    the sequence, the bf16 pipeline succeeds exactly when the output buffer is
    given, the width is even, the leading dimension covers the half-width output
    in the caller's storage order, and the variant is known; the resulting chain
    is the sequence's operations followed by one GLU node, the head node carries
    the output buffer so that the frame sees the shape change, and the list is
    routed to the JIT kernels. *)
Theorem glu_terminal_op_sound (md : dlp_metadata_t) (g : dlp_term_op_glu)
    (ops : list DLP_POST_OP_TYPE) (l l1 : list dlp_gemm_post_op) (order : ascii) (m n : Z) :
  glu md = Some g -> seq_ok md ops -> length l = 9%nat -> 1 <= m -> 2 <= n ->
  dlp_gemm_translate_to_post_ops_list (Some md) (Some l) (POrder order) m n
    = Some (DLP_CLSC_SUCCESS, l1) ->
  (glu_valid g order m n <->
   exists l', translate_bf16_ops (Some md) l order m n = Some (DLP_CLSC_SUCCESS, l')) /\
  (forall l', translate_bf16_ops (Some md) l order m n = Some (DLP_CLSC_SUCCESS, l') ->
   exists code, (code = POST_OPS_GATED_SWIGLU \/ code = POST_OPS_GATED_SWIGLU_AND_MUL) /\
     map op_code (walk 9 l' (Some 0%nat)) = map op_code (walk 9 l1 (Some 0%nat)) ++ [code] /\
     dlp_gemm_post_op_list_has_shape_changing_glu (l' !! 0%nat) = true /\
     dlp_gemm_post_op_list_has_jit_only_op (Some l') = true).
Proof.
  intros Hg Hseq Hl Hm Hn Hbase.
  destruct (glu_start md ops l l1 order m n Hseq Hl Hbase) as (pos & Etr & Hpos & Hl1 & Hchain & Htake).
  split; [split|].
  - intros Hv. destruct (glu_walk (Some md) l1 _ order m n g Hg Hpos Hv Hchain)
      as (l' & code & H' & _). exists l'. by rewrite Etr.
  - intros [l' Hr]. rewrite Etr in Hr. destruct (glu_node_valid g order m n) as
      [(_ & _ & _ & _ & Hv)|(_ & _ & _ & Hv)]; [done|].
    destruct (glu_invalid_error (Some md) l1 _ order m n g Hg Hpos Hv) as (e & l'' & H' & He).
    congruence.
  - intros l' Hr. rewrite Etr in Hr. destruct (glu_node_valid g order m n) as
      [(_ & _ & _ & _ & Hv)|(_ & _ & _ & Hv)].
    2: { destruct (glu_invalid_error (Some md) l1 _ order m n g Hg Hpos Hv) as (e & l'' & H' & He).
         congruence. }
    destruct (glu_walk (Some md) l1 _ order m n g Hg Hpos Hv Hchain)
      as (l'' & code & H' & Hlen & Hcodes & Hc & h & Hh & Hd & Hld).
    rewrite Hr in H'. injection H' as <-. exists code. split; [done|].
    rewrite Htake in Hcodes. assert (length l' = 9%nat) as Hl9 by lia. rewrite Hl9 in Hcodes.
    split; [done|]. split.
    + rewrite Hh. simpl. rewrite Hd, Hld. destruct Hv as (Hb & Heven & Hmin & _).
      destruct (glu_buf g) eqn:Eb; [done|..]; simpl; apply Z.ltb_lt;
        (assert (1 <= n `quot` 2) by (cdiv; apply Z.div_le_lower_bound; lia));
        destruct (is_col_major _); lia.
    + apply (glu_code_jit_only l' code Hc). rewrite Hl9, Hcodes.
      apply list_elem_of_In, in_app_iff. right. by left.
Qed.

Lemma glu_terminal_op_sound_witness :
  let md := mk_metadata None (Some [mk_eltwise None (mk_algo PNull PNull RELU DLP_F32)])
    None None None 1 (Some [ELTWISE]) None None
    (Some (mk_glu GATED_SWIGLU (PUser 7) 16 PNull PNull DLP_INVALID)) in
  glu_valid (mk_glu GATED_SWIGLU (PUser 7) 16 PNull PNull DLP_INVALID) "r" 8 32 /\
  exists l', translate_bf16_ops (Some md) (replicate 9 disable_node) "r" 8 32
    = Some (DLP_CLSC_SUCCESS, l').
Proof.
  intros md. assert (glu_valid (mk_glu GATED_SWIGLU (PUser 7) 16 PNull PNull DLP_INVALID) "r" 8 32)
    as Hv by (split; [discriminate|]; split; [reflexivity|]; split; [vm_compute; congruence|discriminate]).
  split; [exact Hv|].
  exact (proj1 (proj1 (glu_terminal_op_sound md _ [ELTWISE] (replicate 9 disable_node) _ "r" 8 32
    eq_refl ltac:(split; [split; vm_compute; congruence|reflexivity]) eq_refl ltac:(lia) ltac:(lia)
    eq_refl)) Hv).
Defined.
