(* ===== verification/QuantOps.v ===== *)
(** * Quantization metadata (frame/dlp_gemm_post_ops.c, part two)

    The grouped (symmetric quantization) node, the pre-op node of weight-only
    quantization and the ADQUANTIZE node.  Sizes are [md_t] values; the products
    that size the scale buffers are computed in it. *)
From S2P Require Import Prelude DlpTypes PostOpTypes PostOps.

#[local] Open Scope Z_scope.

(** ** Views of a quantization parameter *)

Definition dlp_gemm_qparam_to_sf (q : option dlp_qparam_t) : dlp_sf_t :=
  match q with
  | Some q => mk_sf (q_data q) (q_len q) (q_stor_type q) (q_outer_dim q)
  | None => mk_sf PNull 0 DLP_INVALID DLP_PARAM_DIM_INVALID
  end.

Definition dlp_gemm_qparam_to_zp (q : option dlp_qparam_t) : dlp_zp_t :=
  match q with
  | Some q => mk_zp (q_data q) (q_len q) (q_stor_type q) (q_outer_dim q)
  | None => mk_zp PNull 0 DLP_INVALID DLP_PARAM_DIM_INVALID
  end.

(** [p == NULL ? NULL : &local_copy]. *)
Definition sf_view (q : option dlp_qparam_t) : option dlp_sf_t :=
  match q with Some _ => Some (dlp_gemm_qparam_to_sf q) | None => None end.
Definition zp_view (q : option dlp_qparam_t) : option dlp_zp_t :=
  match q with Some _ => Some (dlp_gemm_qparam_to_zp q) | None => None end.

(** ** The grouped post-op *)

Definition dlp_gemm_set_group_post_ops_node_params (gs : Z) (a_dim b_dim : DLP_PARAM_DIM_TYPE)
    (a_zp a_sf : ptr) (a_zp_len a_sf_len : Z) (b_zp b_sf : ptr) (b_zp_len b_sf_len : Z)
    (sf_stor zp_stor : DLP_TYPE) : dlp_gemm_group_post_op :=
  mk_group_post_op gs a_dim b_dim a_sf a_sf_len a_zp a_zp_len b_sf b_sf_len b_zp b_zp_len
    sf_stor zp_stor.

Definition kind_is (k : DLP_QUANT_OP_KIND) (q : option dlp_quant_op_t) : bool :=
  from_option (fun q => bool_decide (quant_op_kind q = k)) true q.

Definition has_zero_point (q : option dlp_quant_op_t) : bool :=
  from_option (fun q => bool_decide (quant_zero_point q <> None)) false q.

Definition sf_dim_or_invalid (sf : option dlp_sf_t) : DLP_PARAM_DIM_TYPE :=
  from_option scale_factor_dim DLP_PARAM_DIM_INVALID sf.

(** [dlp_gemm_translate_to_group_postops_list]: the node, on success. *)
Definition dlp_gemm_translate_to_group_postops_list
    (a_quant_op b_quant_op : option dlp_quant_op_t) (m n k : Z)
    : outcome dlp_gemm_group_post_op :=
  let a_scl := sf_view (a_quant_op ≫= dequant_scale_factors) in
  let b_scl := sf_view (b_quant_op ≫= dequant_scale_factors) in
  if bool_decide (a_quant_op = None) && bool_decide (b_quant_op = None) then
    mret (dlp_gemm_set_group_post_ops_node_params 0 DLP_PARAM_DIM_PER_GROUP
            DLP_PARAM_DIM_PER_GROUP PNull PNull 0 0 PNull PNull 0 0 DLP_INVALID DLP_INVALID)
  else
    fail_if (negb (kind_is DLP_QUANT_OP_QUANTIZE a_quant_op)) DLP_CLSC_NOT_SUPPORTED ;;
    fail_if (negb (kind_is DLP_QUANT_OP_QUANTIZE b_quant_op)) DLP_CLSC_NOT_SUPPORTED ;;
    fail_if (has_zero_point a_quant_op) DLP_CLSC_NOT_SUPPORTED ;;
    fail_if (has_zero_point b_quant_op) DLP_CLSC_NOT_SUPPORTED ;;
    let a_group_size := from_option group_size 0 a_quant_op in
    let b_group_size := from_option group_size 0 b_quant_op in
    let a_group_size := if a_group_size =? 0 then k else a_group_size in
    let b_group_size := if b_group_size =? 0 then k else b_group_size in
    fail_if (bool_decide (a_quant_op <> None) && bool_decide (b_quant_op <> None)
             && negb (a_group_size =? b_group_size)) DLP_CLSC_INVALID_GROUP_DIMENSION ;;
    let group_size := if bool_decide (a_quant_op <> None) then a_group_size else b_group_size in
    fail_if ((k <? group_size) || (group_size <? 0)) DLP_CLSC_INVALID_GROUP_DIMENSION ;;
    fail_if (negb (group_size =? k) && negb (group_size `rem` 4 =? 0))
      DLP_CLSC_INVALID_GROUP_DIMENSION ;;
    let a_dim := sf_dim_or_invalid a_scl in
    let b_dim := sf_dim_or_invalid b_scl in
    fail_if (bool_decide (a_dim = DLP_PARAM_DIM_INVALID)
             || bool_decide (b_dim = DLP_PARAM_DIM_INVALID)) DLP_CLSC_NOT_SUPPORTED ;;
    num_groups ←
      (if group_size =? 0 then Undefined else mret ((k + group_size - 1) `quot` group_size));
    let a_num_groups := if bool_decide (a_dim = DLP_PARAM_DIM_PER_TOKEN) then 1 else num_groups in
    let b_num_groups := if bool_decide (b_dim = DLP_PARAM_DIM_PER_CHANNEL) then 1 else num_groups in
    fail_if (sf_data_missing a_scl) DLP_CLSC_NULL_POINTER ;;
    fail_if (from_option (fun s => scale_factor_len s <? m * a_num_groups) false a_scl)
      DLP_CLSC_INVALID_SF_LEN ;;
    fail_if (sf_data_missing b_scl) DLP_CLSC_NULL_POINTER ;;
    fail_if (from_option (fun s => scale_factor_len s <? n * b_num_groups) false b_scl)
      DLP_CLSC_INVALID_SF_LEN ;;
    fail_if (match a_scl, b_scl with
             | Some a, Some b => negb (bool_decide (scale_factor_type a = scale_factor_type b))
             | _, _ => false
             end) DLP_CLSC_TYPE_MISMATCH ;;
    mret (dlp_gemm_set_group_post_ops_node_params group_size a_dim b_dim PNull (sf_ptr a_scl)
            0 (sf_len a_scl) PNull (sf_ptr b_scl) 0 (sf_len b_scl)
            (sf_type DLP_INVALID a_scl) DLP_INVALID).

(** [dlp_gemm_translate_to_group_op_list]: the pair it stores in [*group_op]. *)
Definition dlp_gemm_translate_to_group_op_list (metadata : option dlp_metadata_t)
    (group_op : option dlp_group_op) : outcome dlp_group_op :=
  match group_op, metadata with
  | Some _, Some md => mret (mk_group_op (a_quant_op md) (b_quant_op md))
  | _, _ => Error DLP_CLSC_NULL_POINTER
  end.

(** ** The pre-op of weight-only quantization *)

Definition dlp_gemm_set_pre_ops_node_params (gs : Z) (sf_dim zp_dim : DLP_PARAM_DIM_TYPE)
    (zp sf : ptr) (zp_len sf_len : Z) (sf_type zp_type : DLP_TYPE) : dlp_gemm_pre_op :=
  mk_pre_op gs sf sf_len sf_dim sf_type zp zp_len zp_dim zp_type.

(** B varies over columns: the granularities it allows. *)
Definition b_granularity_ok (d : DLP_PARAM_DIM_TYPE) : bool :=
  match d with
  | DLP_PARAM_DIM_PER_TENSOR | DLP_PARAM_DIM_PER_CHANNEL | DLP_PARAM_DIM_PER_GROUP => true
  | _ => false
  end.

(** The length does not match the granularity. *)
Definition b_len_bad (d : DLP_PARAM_DIM_TYPE) (len n num_groups : Z) : bool :=
  match d with
  | DLP_PARAM_DIM_PER_GROUP => negb (len =? n * num_groups)
  | DLP_PARAM_DIM_PER_CHANNEL => negb (len =? n)
  | DLP_PARAM_DIM_PER_TENSOR => negb (len =? 1)
  | _ => false
  end.

(** The block under [if (b_scl_ptr != NULL)]: the storage type. *)
Definition pre_op_scale_check (b_scl : option dlp_sf_t) (n num_groups : Z) : outcome DLP_TYPE :=
  match b_scl with
  | None => mret DLP_INVALID
  | Some s =>
      fail_if ((0 <? scale_factor_len s) && is_null (scale_factor s)) DLP_CLSC_NULL_POINTER ;;
      fail_if (negb (b_granularity_ok (scale_factor_dim s))) DLP_CLSC_NOT_SUPPORTED ;;
      fail_if (b_len_bad (scale_factor_dim s) (scale_factor_len s) n num_groups)
        DLP_CLSC_INVALID_SF_LEN ;;
      let t := dlp_gemm_get_stor_type (scale_factor_type s) in
      fail_if (negb (bool_decide (t = DLP_BF16)) && negb (bool_decide (t = DLP_F32)))
        DLP_CLSC_NOT_SUPPORTED ;;
      mret t
  end.

(** The block under [if (b_zp_ptr != NULL)]. *)
Definition pre_op_zero_point_check (b_zp : option dlp_zp_t) (n num_groups : Z) : outcome DLP_TYPE :=
  match b_zp with
  | None => mret DLP_INVALID
  | Some z =>
      fail_if ((0 <? zero_point_len z) && is_null (zero_point z)) DLP_CLSC_NULL_POINTER ;;
      fail_if (negb (b_granularity_ok (zero_point_dim z))) DLP_CLSC_NOT_SUPPORTED ;;
      fail_if (b_len_bad (zero_point_dim z) (zero_point_len z) n num_groups)
        DLP_CLSC_INVALID_ZP_LEN ;;
      let t := dlp_gemm_get_stor_type (zero_point_type z) in
      fail_if (negb (bool_decide (t = DLP_BF16)) && negb (bool_decide (t = DLP_S8)))
        DLP_CLSC_NOT_SUPPORTED ;;
      mret t
  end.

Definition dlp_gemm_translate_to_pre_ops_list (b_quant_op : option dlp_quant_op_t)
    (m n k : Z) : outcome dlp_gemm_pre_op :=
  q ← not_null b_quant_op DLP_CLSC_NULL_POINTER;
  fail_if (negb (bool_decide (quant_op_kind q = DLP_QUANT_OP_DEQUANTIZE))
           && negb (bool_decide (quant_op_kind q = DLP_QUANT_OP_EXPAND)))
    DLP_CLSC_NOT_SUPPORTED ;;
  let b_scl := sf_view (dequant_scale_factors q) in
  let b_zp := zp_view (quant_zero_point q) in
  let gs := if group_size q =? 0 then k else group_size q in
  fail_if ((k <? gs) || (gs <? 0)) DLP_CLSC_INVALID_GROUP_DIMENSION ;;
  fail_if (negb (gs =? k) && negb (gs `rem` 2 =? 0)) DLP_CLSC_INVALID_GROUP_DIMENSION ;;
  fail_if (bool_decide (quant_op_kind q = DLP_QUANT_OP_DEQUANTIZE) && bool_decide (b_scl = None))
    DLP_CLSC_NULL_POINTER ;;
  num_groups ← (if gs =? 0 then Undefined else mret ((k + gs - 1) `quot` gs));
  b_sf_stor_type ← pre_op_scale_check b_scl n num_groups;
  b_zp_stor_type ← pre_op_zero_point_check b_zp n num_groups;
  mret (dlp_gemm_set_pre_ops_node_params gs (sf_dim_or_invalid b_scl)
          (from_option zero_point_dim DLP_PARAM_DIM_INVALID b_zp)
          (zp_ptr b_zp) (sf_ptr b_scl) (zp_len b_zp) (sf_len b_scl) b_sf_stor_type b_zp_stor_type).

(** ** The ADQUANTIZE node

    [dlp_gemm_translate_adquantize_post_op]: the node written at
    [post_op_list[0]], chained to [post_op_list + 1] when there are post-ops. *)
Definition dlp_gemm_translate_adquantize_post_op (metadata : option dlp_metadata_t)
    (list_present : bool) (meta_arg : ptr) (m : Z) : outcome dlp_gemm_post_op :=
  md ← not_null metadata DLP_CLSC_NULL_POINTER;
  fail_if (negb list_present) DLP_CLSC_NULL_POINTER ;;
  q ← not_null (a_quant_op md) DLP_CLSC_NULL_POINTER;
  fail_if (bool_decide (quant_scale_factors q = None)) DLP_CLSC_NULL_POINTER ;;
  a_dequant_scl ← not_null (dequant_scale_factors q) DLP_CLSC_NULL_POINTER;
  fail_if (negb (bool_decide (quant_op_kind q = DLP_QUANT_OP_QUANTIZE))) DLP_CLSC_NOT_SUPPORTED ;;
  let a_zp := quant_zero_point q in
  fail_if ((0 <? q_len a_dequant_scl) && is_null (q_data a_dequant_scl)) DLP_CLSC_NULL_POINTER ;;
  fail_if (negb (q_len a_dequant_scl =? 1) && (q_len a_dequant_scl <? m))
    DLP_CLSC_UNEXPECTED_VECTOR_DIM ;;
  fail_if (from_option (fun z => (0 <? q_len z) && is_null (q_data z)) false a_zp)
    DLP_CLSC_NULL_POINTER ;;
  fail_if (from_option (fun z => negb (q_len z =? 1) && (q_len z <? m)) false a_zp)
    DLP_CLSC_UNEXPECTED_VECTOR_DIM ;;
  let zp_stor := from_option (fun z => dlp_gemm_get_stor_type (q_stor_type z)) DLP_INVALID a_zp in
  let sf_stor := dlp_gemm_get_stor_type (q_stor_type a_dequant_scl) in
  fail_if (negb (bool_decide (q_outer_dim a_dequant_scl = DLP_PARAM_DIM_PER_TENSOR))
           && negb (bool_decide (q_outer_dim a_dequant_scl = DLP_PARAM_DIM_PER_TOKEN)))
    DLP_CLSC_UNEXPECTED_VECTOR_DIM ;;
  let node := dlp_gemm_set_node_params POST_OPS_ADQUANTIZE (from_option q_data PNull a_zp)
                meta_arg (PAddrOf (from_option q_len 0 a_zp)) (q_data a_dequant_scl)
                (q_len a_dequant_scl) PNull 0 DLP_INVALID zp_stor sf_stor
                (q_outer_dim a_dequant_scl) in
  mret (if 0 <? seq_length md then set_next 1 node else node).

(** ** Grouped quantization *)

(** The group of position [p] along [k], and the number of groups. *)
Definition num_groups (gs k : Z) : Z := (k + gs - 1) / gs.
Definition group_of (gs p : Z) : Z := p / gs.

Lemma group_of_bounds gs k p : 1 <= gs -> 0 <= p < k -> 0 <= group_of gs p < num_groups gs k.
Proof.
  intros Hgs Hp. unfold group_of, num_groups. split; [apply Z.div_pos; lia|].
  apply Z.div_lt_upper_bound; [lia|]. pose proof (ceil_div_bounds k gs). lia.
Qed.

(** Row-major position of group [g] of row [i], with [ng] groups a row. *)
Lemma scale_index_bounds i rows g ng len :
  0 <= i < rows -> 0 <= g < ng -> rows * ng <= len -> 0 <= i * ng + g < len.
Proof. intros Hi Hg Hlen. nia. Qed.

Definition a_scale_index (node : dlp_gemm_group_post_op) (k i p : Z) : Z :=
  if decide (g_a_scale_factor_dim node = DLP_PARAM_DIM_PER_TOKEN) then i
  else i * num_groups (g_group_size node) k + group_of (g_group_size node) p.

Definition b_scale_index (node : dlp_gemm_group_post_op) (n j p : Z) : Z :=
  if decide (g_b_scale_factor_dim node = DLP_PARAM_DIM_PER_CHANNEL) then j
  else group_of (g_group_size node) p * n + j.

Lemma sf_view_some q s : sf_view q = Some s -> sf_len (sf_view q) = scale_factor_len s /\
  sf_ptr (sf_view q) = scale_factor s.
Proof. by intros ->. Qed.

Lemma outcome_guard {A} (c : bool) e (k : outcome A) a :
  (fail_if c e ;; k) = Value a -> c = false /\ k = Value a.
Proof. by destruct c. Qed.

Ltac guards H :=
  repeat (apply outcome_guard in H; let G := fresh "G" in destruct H as [G H]).

(** C31. Grouped quantization is safe to index: when the metadata of A and B is
    accepted, the group size divides the work as the kernels assume (the whole
    of [k], or a multiple of four not above it), the scale types agree, and for
    every row, column and position along [k] the scale factor the kernels read
    lies inside the user's buffer, which is not null. *)
Theorem group_postops_scales_in_bounds (a b : option dlp_quant_op_t) (m n k : Z)
    (node : dlp_gemm_group_post_op) :
  1 <= m -> 1 <= n -> 1 <= k -> (a <> None \/ b <> None) ->
  dlp_gemm_translate_to_group_postops_list a b m n k = Value node ->
  let gs := g_group_size node in
  (1 <= gs <= k /\ (gs = k \/ gs mod 4 = 0)) /\
  g_a_scale_factor node <> PNull /\ g_b_scale_factor node <> PNull /\
  (forall i p, 0 <= i < m -> 0 <= p < k ->
     0 <= a_scale_index node k i p < g_a_scale_factor_len node) /\
  (forall j p, 0 <= j < n -> 0 <= p < k ->
     0 <= b_scale_index node n j p < g_b_scale_factor_len node).
Proof.
  intros Hm Hn Hk Hab H. unfold dlp_gemm_translate_to_group_postops_list in H.
  destruct (bool_decide (a = None) && bool_decide (b = None)) eqn:Hnone.
  { apply andb_true_iff in Hnone as [->%bool_decide_eq_true ->%bool_decide_eq_true].
    by destruct Hab. }
  set (gs := if bool_decide (a <> None) then _ else _) in H.
  guards H. clearbody gs.
  apply orb_false_iff in G6 as [Ga%bool_decide_eq_false Gb%bool_decide_eq_false].
  destruct (sf_view (a ≫= dequant_scale_factors)) as [sa|] eqn:Ea; [|done].
  destruct (sf_view (b ≫= dequant_scale_factors)) as [sb|] eqn:Eb; [|done].
  apply orb_false_iff in G4 as [Hle%Z.ltb_ge Hge%Z.ltb_ge].
  zcase_in H; [done|]. cbn [mbind outcome_mbind] in H. unfold mret, outcome_mret in H.
  guards H. cbn [from_option] in *. injection H as <-.
  assert (1 <= gs) as Hgs by lia.
  assert ((k + gs - 1) `quot` gs = num_groups gs k) as Eng by (unfold num_groups; cdiv; lia).
  assert (1 <= num_groups gs k) as Hng.
  { rewrite <- Eng. apply ceil_div_pos; lia. }
  rewrite Eng in *. unfold sf_data_missing in *. cbn [from_option] in *.
  unfold a_scale_index, b_scale_index.
  cbn [g_group_size g_a_scale_factor g_b_scale_factor g_a_scale_factor_len g_b_scale_factor_len
    g_a_scale_factor_dim g_b_scale_factor_dim dlp_gemm_set_group_post_ops_node_params
    sf_dim_or_invalid from_option sf_len sf_ptr].
  apply Z.ltb_ge in G6, G8. cbn [sf_dim_or_invalid from_option] in G6, G8.
  assert (scale_factor_len sa > 0 /\ scale_factor_len sb > 0) as [Hla Hlb].
  { split; repeat case_bool_decide; nia. }
  rewrite (proj2 (Z.ltb_lt 0 (scale_factor_len sa))) in G4 by lia.
  rewrite (proj2 (Z.ltb_lt 0 (scale_factor_len sb))) in G7 by lia. cbn [andb] in G4, G7.
  split; [split; [lia|]|split; [by apply is_null_false|split; [by apply is_null_false|]]].
  - destruct (Z.eqb_spec gs k); [by left|right]. simpl in G5.
    apply negb_false_iff, Z.eqb_eq in G5. by rewrite crem_nonneg in G5 by lia.
  - split; intros i p Hi Hp; pose proof (group_of_bounds gs k p Hgs Hp).
    + rewrite decide_bool_decide. destruct (bool_decide (scale_factor_dim sa = _)); [lia|].
      by apply scale_index_bounds with (rows := m).
    + rewrite decide_bool_decide. destruct (bool_decide (scale_factor_dim sb = _)); [lia|]. nia.
Qed.

Definition example_quant (len : Z) (d : DLP_PARAM_DIM_TYPE) : dlp_quant_op_t :=
  mk_quant DLP_QUANT_OP_QUANTIZE 32 None (Some (mk_qparam (PUser 9) len DLP_F32 d)) None.

Lemma group_postops_scales_in_bounds_witness :
  exists node,
    dlp_gemm_translate_to_group_postops_list
      (Some (example_quant 6 DLP_PARAM_DIM_PER_TOKEN))
      (Some (example_quant 40 DLP_PARAM_DIM_PER_GROUP)) 6 10 100 = Value node /\
    0 <= b_scale_index node 10 9 99 < g_b_scale_factor_len node.
Proof.
  eexists. split; [reflexivity|].
  apply (group_postops_scales_in_bounds (Some (example_quant 6 DLP_PARAM_DIM_PER_TOKEN))
    (Some (example_quant 40 DLP_PARAM_DIM_PER_GROUP)) 6 10 100);
    [lia|lia|lia|left; discriminate|reflexivity|lia|lia].
Defined.

(** ** Weight-only quantization *)

(** What a parameter of B must be: a granularity the kernels know, its exact
    length for it, a buffer, and a storage type they can read. *)
Record b_param_valid (types : list DLP_TYPE) (data : ptr) (len : Z) (d : DLP_PARAM_DIM_TYPE)
    (t : DLP_TYPE) (n ng : Z) : Prop := {
  bp_data : data <> PNull;
  bp_len : (d = DLP_PARAM_DIM_PER_TENSOR /\ len = 1) \/
           (d = DLP_PARAM_DIM_PER_CHANNEL /\ len = n) \/
           (d = DLP_PARAM_DIM_PER_GROUP /\ len = n * ng);
  bp_type : dlp_gemm_get_stor_type t ∈ types }.

Definition sf_valid (n ng : Z) (q : dlp_qparam_t) : Prop :=
  b_param_valid [DLP_BF16; DLP_F32] (q_data q) (q_len q) (q_outer_dim q) (q_stor_type q) n ng.
Definition zp_valid (n ng : Z) (q : dlp_qparam_t) : Prop :=
  b_param_valid [DLP_BF16; DLP_S8] (q_data q) (q_len q) (q_outer_dim q) (q_stor_type q) n ng.

Definition effective_group (q : dlp_quant_op_t) (k : Z) : Z :=
  if group_size q =? 0 then k else group_size q.

Record pre_op_valid (q : dlp_quant_op_t) (n k : Z) : Prop := {
  po_kind : quant_op_kind q = DLP_QUANT_OP_DEQUANTIZE \/ quant_op_kind q = DLP_QUANT_OP_EXPAND;
  po_scaled : quant_op_kind q = DLP_QUANT_OP_DEQUANTIZE -> dequant_scale_factors q <> None;
  po_group : 1 <= effective_group q k <= k /\
             (effective_group q k = k \/ effective_group q k mod 2 = 0);
  po_scale : from_option (sf_valid n (num_groups (effective_group q k) k)) True
               (dequant_scale_factors q);
  po_zero : from_option (zp_valid n (num_groups (effective_group q k) k)) True
              (quant_zero_point q) }.

Lemma outcome_guard_iff {A} (c : bool) e (k : outcome A) :
  (exists a, (fail_if c e ;; k) = Value a) <-> c = false /\ exists a, k = Value a.
Proof.
  destruct c; simpl; [split; [by intros [? ?]|by intros [? ?]]|].
  split; [intros H; by split|by intros [_ H]].
Qed.

Lemma outcome_value_iff {A} (a : A) : (exists a', (mret a : outcome A) = Value a') <-> True.
Proof. split; [done|]. intros _. by eexists. Qed.

Lemma outcome_bind_iff {A B} (o : outcome A) (f : A -> outcome B) :
  (exists b, (x ← o; f x) = Value b) <-> exists a, o = Value a /\ exists b, f a = Value b.
Proof.
  destruct o as [|e|v]; simpl.
  - split; [by intros [? ?]|by intros (? & ? & _)].
  - split; [by intros [? ?]|by intros (? & ? & _)].
  - split; [intros H; exists v; by split|]. intros (v' & [= <-] & H). done.
Qed.

Lemma granularity_len d len n ng :
  1 <= n -> 1 <= ng ->
  b_granularity_ok d = true /\ b_len_bad d len n ng = false <->
  (d = DLP_PARAM_DIM_PER_TENSOR /\ len = 1) \/ (d = DLP_PARAM_DIM_PER_CHANNEL /\ len = n) \/
  (d = DLP_PARAM_DIM_PER_GROUP /\ len = n * ng).
Proof.
  intros Hn Hng. destruct d; simpl; rewrite ?negb_false_iff, ?Z.eqb_eq; naive_solver.
Qed.

(** Both blocks have the same shape. *)
Lemma param_block_iff (types : DLP_TYPE * DLP_TYPE) data len d t n ng e :
  1 <= n -> 1 <= ng ->
  (exists r, (fail_if ((0 <? len) && is_null data) DLP_CLSC_NULL_POINTER ;;
     fail_if (negb (b_granularity_ok d)) DLP_CLSC_NOT_SUPPORTED ;;
     fail_if (b_len_bad d len n ng) e ;;
     fail_if (negb (bool_decide (dlp_gemm_get_stor_type t = types.1))
              && negb (bool_decide (dlp_gemm_get_stor_type t = types.2)))
       DLP_CLSC_NOT_SUPPORTED ;;
     mret (dlp_gemm_get_stor_type t)) = Value r)
  <-> b_param_valid [types.1; types.2] data len d t n ng.
Proof.
  intros Hn Hng. rewrite !outcome_guard_iff, outcome_value_iff.
  rewrite negb_false_iff. split.
  - intros (Hd & Hg & Hl & Ht & _).
    pose proof (proj1 (granularity_len d len n ng Hn Hng) (conj Hg Hl)) as Hlen.
    assert (0 < len) as Hpos by (destruct Hlen as [[_ ->]|[[_ ->]|[_ ->]]]; nia).
    apply andb_false_iff in Hd as [Hd%Z.ltb_ge|Hd]; [lia|].
    split; [by destruct data|done|].
    apply andb_false_iff in Ht. rewrite !negb_false_iff, !bool_decide_eq_true in Ht.
    rewrite !elem_of_cons. naive_solver.
  - intros [Hd Hl Ht]. apply (granularity_len d len n ng Hn Hng) in Hl as [Hg Hl].
    split; [destruct data; [done|by rewrite andb_false_r..]|]. do 2 (split; [done|]).
    split; [|done]. rewrite !elem_of_cons in Ht.
    destruct Ht as [Ht|[Ht|Ht%elem_of_nil]]; [rewrite Ht..|done].
    + by rewrite (bool_decide_eq_true_2 (types.1 = types.1)).
    + by rewrite (bool_decide_eq_true_2 (types.2 = types.2)), andb_false_r.
Qed.

Lemma scale_block_iff q n ng :
  1 <= n -> 1 <= ng ->
  (exists t, pre_op_scale_check (sf_view q) n ng = Value t)
  <-> from_option (sf_valid n ng) True q.
Proof.
  intros Hn Hng. destruct q as [q|]; simpl; [|apply outcome_value_iff].
  by apply (param_block_iff (DLP_BF16, DLP_F32)).
Qed.

Lemma zero_point_block_iff q n ng :
  1 <= n -> 1 <= ng ->
  (exists t, pre_op_zero_point_check (zp_view q) n ng = Value t)
  <-> from_option (zp_valid n ng) True q.
Proof.
  intros Hn Hng. destruct q as [q|]; simpl; [|apply outcome_value_iff].
  by apply (param_block_iff (DLP_BF16, DLP_S8)).
Qed.

Lemma group_guards_iff gs k (d : Z) :
  1 <= k -> gs <> 0 ->
  (k <? gs) || (gs <? 0) = false /\ negb (gs =? k) && negb (gs `rem` d =? 0) = false
  <-> 1 <= gs <= k /\ (gs = k \/ gs `rem` d = 0).
Proof.
  intros Hk Hgs. rewrite orb_false_iff, andb_false_iff, !negb_false_iff, !Z.eqb_eq, !Z.ltb_ge.
  intuition lia.
Qed.

(** The pre-op of weight-only quantization is accepted exactly when the
    metadata is meaningful: B is dequantized or expanded, a dequantization has
    scale factors, the group size (the whole of [k] when zero) is [k] or an even
    number not above it, and each of the scale factors and zero points present
    has a buffer of exactly the length its granularity needs, of a type the
    kernels read. *)
Theorem pre_ops_accepted_iff_valid (q : dlp_quant_op_t) (m n k : Z) :
  1 <= n -> 1 <= k ->
  (exists node, dlp_gemm_translate_to_pre_ops_list (Some q) m n k = Value node)
  <-> pre_op_valid q n k.
Proof.
  intros Hn Hk. unfold dlp_gemm_translate_to_pre_ops_list. rewrite outcome_bind_iff.
  change (not_null (Some q) DLP_CLSC_NULL_POINTER) with (Value q).
  set (gs := effective_group q k).
  assert (gs <> 0) as Hgs0 by (unfold gs, effective_group; zcase; lia).
  assert (1 <= gs -> (k + gs - 1) `quot` gs = num_groups gs k) as Eng
    by (intros; unfold num_groups; cdiv; lia).
  assert (1 <= gs -> 1 <= num_groups gs k) as Hng
    by (intros; rewrite <- Eng by lia; apply ceil_div_pos; lia).
  split.
  - intros (q' & [= <-] & H). fold (effective_group q k) gs in H.
    rewrite !outcome_guard_iff in H. destruct H as (Hkind & Hg1 & Hg2 & Hsc & H).
    apply (conj Hg1), (group_guards_iff gs k 2 Hk Hgs0) in Hg2 as [Hg Hpar].
    rewrite outcome_bind_iff in H. destruct H as (ng & Eq & H).
    rewrite (proj2 (Z.eqb_neq gs 0) Hgs0) in Eq. injection Eq as <-.
    rewrite Eng in H by lia.
    rewrite outcome_bind_iff in H. destruct H as (t & Hs & H).
    rewrite outcome_bind_iff in H. destruct H as (t' & Hz & _).
    split; fold gs.
    + apply andb_false_iff in Hkind. rewrite !negb_false_iff, !bool_decide_eq_true in Hkind. done.
    + intros Hd Hnone. rewrite Hd, Hnone in Hsc. done.
    + split; [lia|]. rewrite <- crem_nonneg by lia. tauto.
    + apply scale_block_iff; [lia|apply Hng; lia|eauto].
    + apply zero_point_block_iff; [lia|apply Hng; lia|eauto].
  - intros [Hkind Hsc Hgr Hs Hz]. fold gs in Hgr, Hs, Hz. exists q. split; [done|].
    fold (effective_group q k) gs. rewrite !outcome_guard_iff.
    destruct Hgr as [Hg Hpar].
    destruct (proj2 (group_guards_iff gs k 2 Hk Hgs0)) as [Hg1 Hg2].
    { split; [lia|]. by rewrite crem_nonneg by lia. }
    split; [by destruct Hkind as [-> | ->]|]. do 2 (split; [done|]). split.
    { destruct (quant_op_kind q); try done.
      destruct (dequant_scale_factors q); [done|by destruct Hsc]. }
    rewrite outcome_bind_iff. exists (num_groups gs k). split.
    { rewrite (proj2 (Z.eqb_neq gs 0) Hgs0). by rewrite Eng by lia. }
    apply scale_block_iff in Hs as [t Ht]; [|lia|apply Hng; lia].
    apply zero_point_block_iff in Hz as [t' Ht']; [|lia|apply Hng; lia].
    rewrite Ht. cbn [mbind outcome_mbind]. rewrite Ht'. by eexists.
Qed.

Definition example_awq : dlp_quant_op_t :=
  mk_quant DLP_QUANT_OP_DEQUANTIZE 32 None
    (Some (mk_qparam (PUser 9) 40 DLP_BF16 DLP_PARAM_DIM_PER_GROUP))
    (Some (mk_qparam (PUser 10) 10 DLP_S8 DLP_PARAM_DIM_PER_CHANNEL)).

Lemma pre_ops_accepted_iff_valid_witness :
  (exists node, dlp_gemm_translate_to_pre_ops_list (Some example_awq) 6 10 100 = Value node) /\
  pre_op_valid example_awq 10 100.
Proof.
  split; [eexists; reflexivity|].
  apply (pre_ops_accepted_iff_valid example_awq 6 10 100); [lia|lia|]. eexists. reflexivity.
Defined.

(** ** Asymmetric quantization of A *)

(** The element the kernels read for row [i]: a vector of length one is
    broadcast, any other is indexed by the row. *)
Definition row_index (len i : Z) : Z := if len =? 1 then 0 else i.

Lemma row_index_bounds len m i :
  negb (len =? 1) && (len <? m) = false -> 0 <= i < m -> 0 <= row_index len i < len.
Proof. unfold row_index. intros H Hi. zcase; [lia|]. destruct (len =? 1); simpl in *; lia. Qed.

(** A length accepted for [m] rows is positive, so its buffer was checked. *)
Lemma row_data_present (len m : Z) (p : ptr) :
  1 <= m -> negb (len =? 1) && (len <? m) = false -> (0 <? len) && is_null p = false -> p <> PNull.
Proof.
  intros Hm Hl Hp. assert (0 < len) as Hpos%Z.ltb_lt.
  { destruct (Z.eqb_spec len 1); [lia|]. simpl in Hl. lia. }
  rewrite Hpos in Hp. by apply is_null_false.
Qed.

(** The node that dequantizes A: when the metadata is accepted, the node
    carries the scale factors of A and, if there is one, its zero point with a
    pointer to its length; no row of A reads either past its end; the type and
    granularity are A's; and the node is followed by the post-ops of the
    sequence exactly when there are some. *)
Theorem adquantize_node_sound (md : dlp_metadata_t) (q : dlp_quant_op_t) (sf : dlp_qparam_t)
    (meta_arg : ptr) (m : Z) (node : dlp_gemm_post_op) :
  1 <= m -> a_quant_op md = Some q -> dequant_scale_factors q = Some sf ->
  dlp_gemm_translate_adquantize_post_op (Some md) true meta_arg m = Value node ->
  op_code node = POST_OPS_ADQUANTIZE /\
  (po_scale_factor node = q_data sf /\ po_scale_factor_len node = q_len sf /\
   po_scale_factor_dim node = q_outer_dim sf /\ q_data sf <> PNull /\
   forall i, 0 <= i < m -> 0 <= row_index (q_len sf) i < q_len sf) /\
  (match quant_zero_point q with
   | Some z => op_args1 node = q_data z /\ op_args3 node = PAddrOf (q_len z) /\
               q_data z <> PNull /\
               forall i, 0 <= i < m -> 0 <= row_index (q_len z) i < q_len z
   | None => op_args1 node = PNull /\ op_args3 node = PAddrOf 0
   end) /\
  (po_next node = Some 1%nat <-> 0 < seq_length md).
Proof.
  intros Hm Eq Esf H. unfold dlp_gemm_translate_adquantize_post_op in H. simpl in H.
  rewrite Eq in H. simpl in H. apply outcome_guard in H as [_ H]. rewrite Esf in H.
  cbn [not_null mbind outcome_mbind] in H. guards H. injection H as <-.
  assert (forall i, 0 <= i < m -> 0 <= row_index (q_len sf) i < q_len sf) as Hsf
    by (intros; by apply row_index_bounds with (m := m)).
  assert (q_data sf <> PNull) as Hp by (by apply (row_data_present (q_len sf) m)).
  destruct (quant_zero_point q) as [z|]; simpl in *;
    [assert (forall i, 0 <= i < m -> 0 <= row_index (q_len z) i < q_len z) as Hz
       by (intros; by apply row_index_bounds with (m := m));
     assert (q_data z <> PNull) as Hpz by (by apply (row_data_present (q_len z) m))|];
    destruct (Z.ltb_spec 0 (seq_length md)); simpl; repeat split; auto; try lia; try done;
    intros; first [by apply Hsf | by apply Hz].
Qed.

Definition example_a_quant : dlp_quant_op_t :=
  mk_quant DLP_QUANT_OP_QUANTIZE 0
    (Some (mk_qparam (PUser 11) 6 DLP_F32 DLP_PARAM_DIM_PER_TOKEN))
    (Some (mk_qparam (PUser 12) 6 DLP_F32 DLP_PARAM_DIM_PER_TOKEN))
    (Some (mk_qparam (PUser 13) 1 DLP_S8 DLP_PARAM_DIM_PER_TENSOR)).

Definition example_a_md : dlp_metadata_t :=
  mk_metadata None None None None None 0 None (Some example_a_quant) None None.

Lemma adquantize_node_sound_witness :
  exists node,
    dlp_gemm_translate_adquantize_post_op (Some example_a_md) true PNull 6 = Value node /\
    op_code node = POST_OPS_ADQUANTIZE.
Proof.
  eexists. split; [reflexivity|].
  apply (adquantize_node_sound example_a_md example_a_quant
    (mk_qparam (PUser 12) 6 DLP_F32 DLP_PARAM_DIM_PER_TOKEN) PNull 6);
    [lia|reflexivity|reflexivity|reflexivity].
Defined.
