(* ===== verification/GetThreading.v ===== *)
(** * Threading decisions per GEMM and per batch
    (frame/threading/dlp_gemm_thread_decor_openmp.c, part two)

    One definition per [_get_threading] function.  They return
    [( *n_threads, *ic_ways, *jc_ways)]; the batch ones return also the number
    of GEMMs in flight and the threads of each, and the runtime record they may
    update.  [None] is a division by zero or a factor search that does not end:
    the theorems show neither happens for the sizes the API lets through. *)
From S2P Require Import Prelude DlpTypes PrimeFactors ThreadHeur.

(** C division and remainder, undefined when the divisor is zero. *)
Definition cdiv_opt (a b : Z) : option Z := if b =? 0 then None else Some (a `quot` b).
Definition cmod_opt (a b : Z) : option Z := if b =? 0 then None else Some (a `rem` b).

(** What the page size and the CPU feature queries answer (parameters of the
    model: dlp_get_page_size and dlp_cpuid_is_avx512_supported). *)
Record platform := mk_platform {
  dlp_get_page_size : Z;
  dlp_cpuid_is_avx512_supported : bool;
}.

Definition sizeof_float : Z := 4.

(** ** One GEMM *)

Record threading := mk_threading {
  t_n_threads : Z;
  t_ic_ways : Z;
  t_jc_ways : Z;
}.

Definition low_freq_thres : Z := 6.

(** The shape shared by the five functions; [tail] is the last branch, given the
    number of row blocks.  [NR] and [MR] come from the context. *)
Definition get_threading_with
    (tail : Z -> Z -> option threading) (m n : Z) (rntm_g : dlp_rntm_t)
    (lcntx : dlp_gemm_cntx_t) : option threading :=
  let n_threads := num_threads rntm_g in
  let jc := jc_ways rntm_g in
  let ic := ic_ways rntm_g in
  if (0 <? ic) || (0 <? jc) then
    let ic := if 0 <? ic then ic else 1 in
    let jc := if 0 <? jc then jc else 1 in
    Some (mk_threading (jc * ic) ic jc)
  else if 1 <? n_threads then
    let NR := NR (blksz lcntx) in
    let MR := MR (blksz lcntx) in
    let mr_blks := (m + MR - 1) `quot` MR in
    let nr_blks := (n + NR - 1) `quot` NR in
    let mrxnr_blks := mr_blks * nr_blks in
    per_blk ← cdiv_opt n_threads mr_blks;
    let mr_blks_adj_n_threads := per_blk * mr_blks in
    let delta_mr_blks_adj := n_threads - mr_blks_adj_n_threads in
    if n <=? NR then Some (mk_threading (n_threads * 1) n_threads 1)
    else if m <=? MR then Some (mk_threading (1 * n_threads) 1 n_threads)
    else if (n `rem` NR =? 0) && (mrxnr_blks <=? n_threads)
            && (delta_mr_blks_adj <? low_freq_thres) then
      let ic := mr_blks in
      jc ← cdiv_opt n_threads ic;
      Some (mk_threading (ic * jc) ic jc)
    else tail n_threads mr_blks
  else Some (mk_threading 1 1 1).

Definition dlp_gemm_s32o32_get_threading (m n k : Z) (rntm_g : dlp_rntm_t)
    (lcntx : dlp_gemm_cntx_t) : option threading :=
  let NR := NR (blksz lcntx) in
  let MR := MR (blksz lcntx) in
  get_threading_with (fun n_threads mr_blks =>
    '(ic, jc) ← dlp_thread_partition_2x2 n_threads m n;
    '(ic, jc) ←
      (if ic <=? mr_blks
       then dlp_gemm_pnl_wrk_heur_adjust_ic_jc_ways MR NR m n n_threads ic jc
       else Some (ic, jc));
    Some (mk_threading n_threads ic jc)) m n rntm_g lcntx.

Definition dlp_gemm_u8s8s32o32_get_threading := dlp_gemm_s32o32_get_threading.
Definition dlp_gemm_s8s8s32o32_get_threading := dlp_gemm_s32o32_get_threading.

Definition dlp_gemm_bf16bf16f32of32_get_threading (m n k : Z) (rntm_g : dlp_rntm_t)
    (lcntx : dlp_gemm_cntx_t) : option threading :=
  let NR := NR (blksz lcntx) in
  let MR := MR (blksz lcntx) in
  get_threading_with (fun n_threads mr_blks =>
    '(ic, jc) ← dlp_thread_partition_2x2 n_threads m n;
    '(ic, jc) ←
      (if ic <=? mr_blks
       then dlp_gemm_pnl_wrk_heur_adjust_ic_jc_ways MR NR m n n_threads ic jc
       else Some (ic, jc));
    prime ← dlp_is_prime n_threads;
    if prime : bool then
      '(nt, ic, jc) ← dlp_gemm_pnl_wrk_heur_adjust_threading_for_prime_nt
                        MR NR m n n_threads ic jc;
      Some (mk_threading nt ic jc)
    else Some (mk_threading n_threads ic jc)) m n rntm_g lcntx.

(** The fp16 function and the mixed f32 x fp16 one have the same body. *)
Definition dlp_gemm_f16f16f16of16_get_threading (m n k : Z) (rntm_g : dlp_rntm_t)
    (lcntx : dlp_gemm_cntx_t) : option threading :=
  dlp_gemm_bf16bf16f32of32_get_threading m n k rntm_g lcntx.
Definition dlp_gemm_f32f16f32of32_get_threading (m n k : Z) (rntm_g : dlp_rntm_t)
    (lcntx : dlp_gemm_cntx_t) : option threading :=
  dlp_gemm_bf16bf16f32of32_get_threading m n k rntm_g lcntx.

Definition dlp_gemm_f32f32f32of32_get_threading (m n k : Z) (rntm_g : dlp_rntm_t)
    (lcntx : dlp_gemm_cntx_t) : option threading :=
  let b := blksz lcntx in
  get_threading_with (fun n_threads mr_blks =>
    '(ic, jc) ← dlp_thread_partition_2x2 n_threads m n;
    '(ic, jc) ←
      (if ic <=? mr_blks
       then dlp_gemm_adjust_ic_jc_ways m n k (MC b) (NC b) (KC b) (MR b) (NR b)
              n_threads ic jc 5
       else Some (ic, jc));
    Some (mk_threading n_threads ic jc)) m n rntm_g lcntx.

(** The [THREADING_SFX] a decorator is instantiated with, and its function. *)
Inductive threading_sfx :=
  | sfx_u8s8s32o32 | sfx_s8s8s32o32 | sfx_bf16bf16f32of32
  | sfx_f16f16f16of16 | sfx_f32f16f32of32 | sfx_f32f32f32of32.

Definition get_threading (sfx : threading_sfx) :=
  match sfx with
  | sfx_u8s8s32o32 => dlp_gemm_u8s8s32o32_get_threading
  | sfx_s8s8s32o32 => dlp_gemm_s8s8s32o32_get_threading
  | sfx_bf16bf16f32of32 => dlp_gemm_bf16bf16f32of32_get_threading
  | sfx_f16f16f16of16 => dlp_gemm_f16f16f16of16_get_threading
  | sfx_f32f16f32of32 => dlp_gemm_f32f16f32of32_get_threading
  | sfx_f32f32f32of32 => dlp_gemm_f32f32f32of32_get_threading
  end.

(** [dlp_gemm_eltwise_ops_bf16of32_get_threading], and [_f32of32_] that calls it;
    [(md_t)((3.0 / 4.0) * nt)] is [3 * nt / 4], exact in a double. *)
Definition dlp_gemm_eltwise_ops_bf16of32_get_threading (m n : Z)
    (rntm_g : dlp_rntm_t) (blk : dlp_gemm_block_size_t) : option threading :=
  let n_threads := num_threads rntm_g in
  let jc := jc_ways rntm_g in
  let ic := ic_ways rntm_g in
  if (0 <? ic) || (0 <? jc) then
    let ic := if 0 <? ic then ic else 1 in
    let jc := if 0 <? jc then jc else 1 in
    Some (mk_threading (jc * ic) ic jc)
  else if 1 <? n_threads then
    let NR := NR blk in
    let MR := MR blk in
    let mr_blks := (m + MR - 1) `quot` MR in
    let nr_blks := (n + NR - 1) `quot` NR in
    if n <=? NR then
      let ic := if mr_blks <? n_threads then mr_blks else n_threads in
      Some (mk_threading (ic * 1) ic 1)
    else if m <=? MR then
      let jc := if nr_blks <? n_threads then nr_blks else n_threads in
      Some (mk_threading (1 * jc) 1 jc)
    else if n_threads <=? mr_blks then Some (mk_threading n_threads n_threads 1)
    else if (3 * n_threads) `quot` 4 <=? mr_blks then
      let ic := mr_blks in
      rem_jc_ways ← cdiv_opt n_threads ic;
      let jc := if rem_jc_ways <? nr_blks then rem_jc_ways else nr_blks in
      Some (mk_threading (ic * jc) ic jc)
    else
      '(ic, jc) ← dlp_thread_partition_2x2 n_threads m n;
      if (mr_blks <? ic) && (nr_blks <? jc) then
        Some (mk_threading (mr_blks * nr_blks) mr_blks nr_blks)
      else if mr_blks <? ic then
        let ic := mr_blks in
        rem_jc_ways ← cdiv_opt n_threads ic;
        let jc := if rem_jc_ways <? nr_blks then rem_jc_ways else nr_blks in
        Some (mk_threading (ic * jc) ic jc)
      else if nr_blks <? jc then
        let jc := nr_blks in
        rem_ic_ways ← cdiv_opt n_threads jc;
        let ic := if rem_ic_ways <? mr_blks then rem_ic_ways else mr_blks in
        Some (mk_threading (ic * jc) ic jc)
      else Some (mk_threading n_threads ic jc)
  else Some (mk_threading 1 1 1).

Definition dlp_gemm_eltwise_ops_f32of32_get_threading := dlp_gemm_eltwise_ops_bf16of32_get_threading.

(** ** A batch of GEMMs *)

Record batch_threading := mk_batch {
  b_n_threads : Z;
  b_n_gemms_in_parallel : Z;
  b_n_threads_per_gemm : Z;
  b_ic_ways : Z;
  b_jc_ways : Z;
}.

Definition dlp_min (a b : Z) : Z := if a <? b then a else b.

(** [dlp_calculate_n_threads_per_gemm]: the triple
    [( *n_threads, *n_gemms_in_parallel, *n_threads_per_gemm)]. *)
Definition dlp_calculate_n_threads_per_gemm (group_size : Z) (rntm_g : dlp_rntm_t)
    : option (Z * Z * Z) :=
  if group_size <=? 0 then Some (1, 1, 1)
  else
    let n_threads := num_threads rntm_g in
    let n_gemms_in_parallel := -1 in
    let n_gemms_in_parallel :=
      if n_threads =? 1 then 1
      else if n_gemms_in_parallel <? 1 then dlp_min n_threads group_size
      else n_gemms_in_parallel in
    n_threads_per_gemm ← cdiv_opt n_threads n_gemms_in_parallel;
    Some (n_threads, n_gemms_in_parallel, n_threads_per_gemm).

(** The shape shared by the three batch functions; [tail] is the last branch of
    the case of several threads per GEMM, given their number and the blocks. *)
Definition batch_get_threading_with
    (tail : Z -> Z -> Z -> option (Z * Z)) (group_size m n : Z)
    (rntm_g : dlp_rntm_t) (lcntx : dlp_gemm_cntx_t) : option batch_threading :=
  '(n_threads, n_gemms, per_gemm) ← dlp_calculate_n_threads_per_gemm group_size rntm_g;
  if 1 <? per_gemm then
    let NR := NR (blksz lcntx) in
    let MR := MR (blksz lcntx) in
    let mr_blks := (m + MR - 1) `quot` MR in
    let nr_blks := (n + NR - 1) `quot` NR in
    '(per_gemm, ic, jc) ←
      (if n <=? NR then Some (per_gemm * 1, per_gemm, 1)
       else if m <=? MR then Some (1 * per_gemm, 1, per_gemm)
       else '(ic, jc) ← tail per_gemm mr_blks nr_blks; Some (per_gemm, ic, jc));
    Some (mk_batch (n_gemms * ic * jc) n_gemms per_gemm ic jc)
  else if 1 <? n_gemms then Some (mk_batch n_gemms n_gemms 1 1 1)
  else Some (mk_batch 1 1 1 1 1).

Definition batch_dlp_gemm_s32o32_get_threading (group_size m n k : Z)
    (rntm_g : dlp_rntm_t) (lcntx : dlp_gemm_cntx_t) : option batch_threading :=
  let NR := NR (blksz lcntx) in
  let MR := MR (blksz lcntx) in
  batch_get_threading_with (fun per_gemm mr_blks nr_blks =>
    '(ic, jc) ← dlp_thread_partition_2x2 per_gemm m n;
    if ic <=? mr_blks
    then dlp_gemm_pnl_wrk_heur_adjust_ic_jc_ways MR NR m n per_gemm ic jc
    else Some (ic, jc)) group_size m n rntm_g lcntx.

Definition batch_dlp_gemm_u8s8s32o32_get_threading := batch_dlp_gemm_s32o32_get_threading.
Definition batch_dlp_gemm_s8s8s32o32_get_threading := batch_dlp_gemm_s32o32_get_threading.

(** The bf16 batch function has the body of the integer one. *)
Definition batch_dlp_gemm_bf16bf16f32of32_get_threading (group_size m n k : Z)
    (rntm_g : dlp_rntm_t) (lcntx : dlp_gemm_cntx_t) : option batch_threading :=
  batch_dlp_gemm_s32o32_get_threading group_size m n k rntm_g lcntx.

(** The SUP-limit test that turns packing on, shared by the f32 batch function
    and the f32 reconciliation. *)
Definition native_sup_pack (pf : platform) (lcntx : dlp_gemm_cntx_t)
    (m n k m_ic n_jc : Z) : bool :=
  let MT := MT (sup_thres lcntx) in
  let NT := NT (sup_thres lcntx) in
  let KT := KT (sup_thres lcntx) in
  let MT_2 := MT `quot` 2 in
  let page_size_b_floatx2 := 2 * (dlp_get_page_size pf `quot` sizeof_float) in
  (MT <=? m) && (NT <=? n) && (KT <=? k)
  && (((page_size_b_floatx2 <=? k) && (MT_2 <? m_ic) && (NT <=? n_jc))
      || (negb (dlp_cpuid_is_avx512_supported pf) && (page_size_b_floatx2 <? k))).

Definition set_packs (a b : bool) (r : dlp_rntm_t) : dlp_rntm_t :=
  {| num_threads := num_threads r; ic_ways := ic_ways r; jc_ways := jc_ways r;
     pack_a := a; pack_b := b; ext_mt_ctr_var := ext_mt_ctr_var r |}.

(** The f32 batch function also updates [pack_a] and [pack_b] of [*rntm_g]. *)
Definition batch_dlp_gemm_f32f32f32of32_get_threading (pf : platform)
    (group_size m n k : Z) (rntm_g : dlp_rntm_t) (lcntx : dlp_gemm_cntx_t)
    : option (batch_threading * dlp_rntm_t) :=
  let b := blksz lcntx in
  bt ← batch_get_threading_with (fun per_gemm mr_blks nr_blks =>
    '(ic, jc) ← dlp_thread_partition_2x2 per_gemm m n;
    if (ic <=? mr_blks) && (jc <=? nr_blks)
    then dlp_gemm_adjust_ic_jc_ways m n k (MC b) (NC b) (KC b) (MR b) (NR b)
           per_gemm ic jc 5
    else Some (ic, jc)) group_size m n rntm_g lcntx;
  m_ic ← cdiv_opt m (b_ic_ways bt);
  n_jc ← cdiv_opt n (b_jc_ways bt);
  Some (bt, if native_sup_pack pf lcntx m n k m_ic n_jc
            then set_packs true true rntm_g else rntm_g).

(** The four batch functions the batch decorators are instantiated with. *)
Inductive batch_threading_sfx :=
  | bsfx_u8s8s32o32 | bsfx_s8s8s32o32 | bsfx_bf16bf16f32of32 | bsfx_f32f32f32of32.

Definition batch_get_threading (pf : platform) (sfx : batch_threading_sfx)
    (group_size m n k : Z) (rntm_g : dlp_rntm_t) (lcntx : dlp_gemm_cntx_t)
    : option (batch_threading * dlp_rntm_t) :=
  let keep bt := bt' ← bt; Some (bt', rntm_g) in
  match sfx with
  | bsfx_u8s8s32o32 =>
      keep (batch_dlp_gemm_u8s8s32o32_get_threading group_size m n k rntm_g lcntx)
  | bsfx_s8s8s32o32 =>
      keep (batch_dlp_gemm_s8s8s32o32_get_threading group_size m n k rntm_g lcntx)
  | bsfx_bf16bf16f32of32 =>
      keep (batch_dlp_gemm_bf16bf16f32of32_get_threading group_size m n k rntm_g lcntx)
  | bsfx_f32f32f32of32 =>
      batch_dlp_gemm_f32f32f32of32_get_threading pf group_size m n k rntm_g lcntx
  end.

(** ** Threads for one GEMM *)

Definition pinned (r : dlp_rntm_t) : Prop := 0 < ic_ways r \/ 0 < jc_ways r.

#[export] Instance pinned_dec r : Decision (pinned r).
Proof. unfold pinned. apply _. Defined.

Definition ways_of (w : Z) : Z := if 0 <? w then w else 1.

(** What every threading decision promises. *)
Definition threading_ok (t : threading) : Prop :=
  factor_pair (t_n_threads t) (t_ic_ways t) (t_jc_ways t).

Lemma cdiv_opt_pos a b : 1 <= b -> cdiv_opt a b = Some (a `quot` b).
Proof. intros. unfold cdiv_opt. zcase; [lia|done]. Qed.

Lemma pinned_bool r : (0 <? ic_ways r) || (0 <? jc_ways r) = bool_decide (pinned r).
Proof.
  unfold pinned. destruct (Z.ltb_spec 0 (ic_ways r)), (Z.ltb_spec 0 (jc_ways r));
    simpl; case_bool_decide; lia || done.
Qed.

Lemma pinned_threading_ok ic jc :
  threading_ok (mk_threading (ways_of jc * ways_of ic) (ways_of ic) (ways_of jc)).
Proof. unfold ways_of. split; simpl; repeat zcase; lia. Qed.

Section one_gemm.
Context (tail : Z -> Z -> option threading) (m n : Z).
Context (rntm_g : dlp_rntm_t) (lcntx : dlp_gemm_cntx_t).
Hypothesis Hm : 1 <= m.
Hypothesis Hn : 1 <= n.
Hypothesis Hblk : blksz_pos (blksz lcntx).
Hypothesis Htail : forall nt mr, 2 <= nt ->
  exists t, tail nt mr = Some t /\ threading_ok t /\ nt - 1 <= t_n_threads t <= nt.

Lemma get_threading_with_ok :
  exists t, get_threading_with tail m n rntm_g lcntx = Some t /\ threading_ok t /\
    (pinned rntm_g -> t_ic_ways t = ways_of (ic_ways rntm_g) /\
                      t_jc_ways t = ways_of (jc_ways rntm_g)) /\
    (~ pinned rntm_g -> t_n_threads t <= Z.max 1 (num_threads rntm_g) < t_n_threads t + 6).
Proof using Hm Hn Hblk Htail.
  unfold get_threading_with. rewrite pinned_bool. case_bool_decide as Hp.
  { eexists; split; [done|]. split; [apply pinned_threading_ok|]. by split. }
  destruct (Z.ltb_spec 1 (num_threads rntm_g)) as [Hnt|Hnt].
  2:{ eexists; split; [done|]. split; [by split|]. split; [done|]. simpl. lia. }
  pose proof (ceil_div_pos m (MR (blksz lcntx)) ltac:(lia) ltac:(pose proof (MR_pos _ Hblk); lia)) as Hmr.
  pose proof (ceil_div_pos n (NR (blksz lcntx)) ltac:(lia) ltac:(pose proof (NR_pos _ Hblk); lia)) as Hnr.
  rewrite cdiv_opt_pos by done. simpl.
  set (mr := (m + _ - 1) `quot` _) in *. set (nr := (n + _ - 1) `quot` _) in *.
  destruct (n <=? _). { eexists; split; [done|]. split; [split; simpl; lia|].
    split; [done|]. simpl. lia. }
  destruct (m <=? _). { eexists; split; [done|]. split; [split; simpl; lia|].
    split; [done|]. simpl. lia. }
  destruct (_ && _ && _) eqn:Hfreq.
  - apply andb_true_iff in Hfreq as [[_ Hle%Z.leb_le]%andb_true_iff Hlt%Z.ltb_lt].
    unfold low_freq_thres in Hlt. cdiv. eexists; split; [done|].
    assert (1 <= num_threads rntm_g / mr) by (apply Z.div_le_lower_bound; nia).
    pose proof (Z.mul_div_le (num_threads rntm_g) mr).
    split; [split; simpl; nia|]. split; [done|]. simpl. lia.
  - destruct (Htail (num_threads rntm_g) mr) as (t & -> & Hok & Hb); [lia|].
    exists t. split; [done|]. split; [done|]. split; [done|]. lia.
Qed.
End one_gemm.

(** The factorization and its adjustment, as the functions chain them. *)
Lemma s32_adjust_ok MR NR m n nt (test : bool) ic jc :
  factor_pair nt ic jc ->
  exists ic' jc',
    (if test then dlp_gemm_pnl_wrk_heur_adjust_ic_jc_ways MR NR m n nt ic jc
     else Some (ic, jc)) = Some (ic', jc') /\ factor_pair nt ic' jc'.
Proof.
  intros Hp. destruct test; [|by eauto].
  destruct (pnl_wrk_ok MR NR m n nt ic jc Hp) as (? & ? & -> & ? & _). eauto.
Qed.

Lemma f32_adjust_ok b m n k nt (test : bool) ic jc :
  factor_pair nt ic jc ->
  exists ic' jc',
    (if test
     then dlp_gemm_adjust_ic_jc_ways m n k (MC b) (NC b) (KC b) (MR b) (NR b) nt ic jc 5
     else Some (ic, jc)) = Some (ic', jc') /\ factor_pair nt ic' jc'.
Proof. intros Hp. destruct test; [|by eauto]. by apply adjust_ic_jc_ok. Qed.

Lemma bf16_tail_ok MR NR m n nt ic jc :
  2 <= nt -> factor_pair nt ic jc ->
  exists t,
    (prime ← dlp_is_prime nt;
     if prime : bool then
       '(nt, ic, jc) ← dlp_gemm_pnl_wrk_heur_adjust_threading_for_prime_nt
                         MR NR m n nt ic jc;
       Some (mk_threading nt ic jc)
     else Some (mk_threading nt ic jc)) = Some t /\
    threading_ok t /\ nt - 1 <= t_n_threads t <= nt.
Proof.
  intros Hnt Hp. destruct (is_prime_ok nt) as (b & -> & _). simpl.
  destruct b; [|eexists; split; [done|]; split; [done|simpl; lia]].
  destruct (prime_nt_ok MR NR m n nt ic jc Hnt Hp) as (nt' & ic' & jc' & -> & Hp' & Hor).
  simpl. eexists; split; [done|]. split; [done|]. destruct Hor as [?|[? _]]; simplify_eq/=; lia.
Qed.

(** What a decorator needs of the threading function it is instantiated with:
    for any matrix the API accepts, a decision, with consistent ways, the user's
    if there are any, and no more threads than configured. *)
Class ThreadingPolicy
    (gt : Z -> Z -> Z -> dlp_rntm_t -> dlp_gemm_cntx_t -> option threading) : Prop :=
  threading_decided : forall m n k r lcntx,
    1 <= m -> 1 <= n -> blksz_pos (blksz lcntx) ->
    exists t, gt m n k r lcntx = Some t /\ threading_ok t /\
      (pinned r -> t_ic_ways t = ways_of (ic_ways r) /\ t_jc_ways t = ways_of (jc_ways r)) /\
      (~ pinned r -> t_n_threads t <= Z.max 1 (num_threads r) < t_n_threads t + 6).

#[export] Instance get_threading_policy (sfx : threading_sfx) :
  ThreadingPolicy (get_threading sfx).
Proof.
  intros m n k r lcntx Hm Hn Hblk.
  destruct sfx; apply get_threading_with_ok; try done; intros nt mr Hnt.
  all: destruct (partition_2x2_ok nt m n ltac:(lia)) as (ic & jc & -> & Hp); simpl.
  all: first
    [ destruct (f32_adjust_ok (blksz lcntx) m n k nt (ic <=? mr) ic jc Hp)
        as (ic' & jc' & -> & Hp')
    | destruct (s32_adjust_ok (MR (blksz lcntx)) (NR (blksz lcntx)) m n nt (ic <=? mr) ic jc Hp)
        as (ic' & jc' & -> & Hp') ]; simpl.
  all: try (by apply bf16_tail_ok).
  all: eexists; split; [done|]; split; [done|simpl; lia].
Qed.

(** C22. Threading is always decided, and decided consistently: for any matrix
    the API accepts, any runtime setting and any block sizes, every threading
    function returns ways that are positive and multiply to the number of
    threads it asks OpenMP for.  Ways pinned by the user are respected exactly;
    otherwise no more threads than configured are used, and fewer than six of
    them are left idle. *)
Theorem get_threading_valid (sfx : threading_sfx) (m n k : Z) (rntm_g : dlp_rntm_t)
    (lcntx : dlp_gemm_cntx_t) :
  1 <= m -> 1 <= n -> blksz_pos (blksz lcntx) ->
  exists t, get_threading sfx m n k rntm_g lcntx = Some t /\
    1 <= t_ic_ways t /\ 1 <= t_jc_ways t /\ t_ic_ways t * t_jc_ways t = t_n_threads t /\
    (pinned rntm_g -> t_ic_ways t = ways_of (ic_ways rntm_g) /\
                      t_jc_ways t = ways_of (jc_ways rntm_g)) /\
    (~ pinned rntm_g -> t_n_threads t <= Z.max 1 (num_threads rntm_g) < t_n_threads t + 6).
Proof.
  intros Hm Hn Hblk.
  destruct (get_threading_policy sfx m n k rntm_g lcntx Hm Hn Hblk) as (t & E & (H1 & H2 & H3) & Hr).
  by exists t.
Qed.

(** A context with the s8 block sizes. *)
Definition example_cntx : dlp_gemm_cntx_t :=
  mk_cntx (mk_blksz 144 1024 2048 64 6) 0 (mk_pack_s 1 1 1 1) (mk_sup 512 200 240) (mk_hints 0 0).

Definition example_rntm (nt : Z) : dlp_rntm_t := mk_rntm nt (-1) (-1) false false true.

Lemma get_threading_valid_witness :
  get_threading sfx_bf16bf16f32of32 250 4000 64 (example_rntm 13) example_cntx
    = Some (mk_threading 12 3 4) /\
  ~ pinned (example_rntm 13) /\
  exists t, get_threading sfx_bf16bf16f32of32 250 4000 64 (example_rntm 13) example_cntx = Some t /\
    t_ic_ways t * t_jc_ways t = t_n_threads t.
Proof.
  split; [reflexivity|]. split; [intros [H|H]; discriminate H|].
  destruct (get_threading_valid sfx_bf16bf16f32of32 250 4000 64 (example_rntm 13) example_cntx)
    as (t & E & _ & _ & H & _); [lia|lia|split; simpl; lia|].
  exists t. split; assumption.
Defined.

Lemma eltwise_threading_decided (m n : Z) (rntm_g : dlp_rntm_t)
    (blk : dlp_gemm_block_size_t) :
  1 <= m -> 1 <= n -> blksz_pos blk ->
  exists t, dlp_gemm_eltwise_ops_bf16of32_get_threading m n rntm_g blk = Some t /\
    1 <= t_ic_ways t /\ 1 <= t_jc_ways t /\ t_ic_ways t * t_jc_ways t = t_n_threads t /\
    (pinned rntm_g -> t_ic_ways t = ways_of (ic_ways rntm_g) /\
                      t_jc_ways t = ways_of (jc_ways rntm_g)) /\
    (~ pinned rntm_g ->
       t_n_threads t <= Z.max 1 (num_threads rntm_g) /\
       t_ic_ways t <= (m + MR blk - 1) / MR blk /\ t_jc_ways t <= (n + NR blk - 1) / NR blk).
Proof.
  intros Hm Hn Hblk. pose proof (MR_pos _ Hblk) as HMR. pose proof (NR_pos _ Hblk) as HNR.
  unfold dlp_gemm_eltwise_ops_bf16of32_get_threading. rewrite pinned_bool.
  pose proof (ceil_div_pos m (MR blk) ltac:(lia) ltac:(lia)) as Hmr.
  pose proof (ceil_div_pos n (NR blk) ltac:(lia) ltac:(lia)) as Hnr.
  rewrite <- (cquot_nonneg (m + MR blk - 1)), <- (cquot_nonneg (n + NR blk - 1)) by lia.
  case_bool_decide as Hp.
  { eexists; split; [done|]. pose proof (pinned_threading_ok (ic_ways rntm_g) (jc_ways rntm_g))
      as (? & ? & ?). by split_and!. }
  destruct (Z.ltb_spec 1 (num_threads rntm_g)) as [Hnt|Hnt].
  2:{ eexists; split; [done|]. simpl. split_and!; [lia..|done|lia]. }
  set (mr := (m + _ - 1) `quot` _) in *. set (nr := (n + _ - 1) `quot` _) in *.
  clearbody mr nr. set (nt := num_threads rntm_g) in *. clearbody nt.
  assert (forall d cap, 1 <= d -> d <= nt -> 1 <= cap ->
    1 <= (if nt `quot` d <? cap then nt `quot` d else cap) <= cap /\
    d * (if nt `quot` d <? cap then nt `quot` d else cap) <= nt) as Hcap.
  { intros d cap Hd Hdn Hc. cdiv. pose proof (Z.mul_div_le nt d ltac:(lia)).
    assert (1 <= nt / d) by (apply Z.div_le_lower_bound; lia). zcase; nia. }
  destruct (partition_2x2_ok nt m n ltac:(lia)) as (ic & jc & -> & Hic & Hjc & Hprod). simpl.
  repeat (rewrite cdiv_opt_pos by lia); simpl.
  pose proof (Hcap mr nr) as H1. pose proof (Hcap nr mr) as H2.
  repeat zcase; simpl; eexists; (split; [done|]); simpl; split_and!; try done; try lia; nia.
Qed.

(** The element-wise operations never ask for an idle thread: the ways
    multiply to the number of threads, which is at most the configured number,
    and, unless pinned by the user, no dimension gets more ways than it has
    blocks. *)
Theorem eltwise_get_threading_valid (m n : Z) (rntm_g : dlp_rntm_t)
    (blk : dlp_gemm_block_size_t) :
  1 <= m -> 1 <= n -> blksz_pos blk ->
  exists t, dlp_gemm_eltwise_ops_bf16of32_get_threading m n rntm_g blk = Some t /\
    1 <= t_ic_ways t /\ 1 <= t_jc_ways t /\ t_ic_ways t * t_jc_ways t = t_n_threads t /\
    (pinned rntm_g -> t_ic_ways t = ways_of (ic_ways rntm_g) /\
                      t_jc_ways t = ways_of (jc_ways rntm_g)) /\
    (~ pinned rntm_g ->
       t_n_threads t <= Z.max 1 (num_threads rntm_g) /\
       t_ic_ways t <= (m + MR blk - 1) / MR blk /\ t_jc_ways t <= (n + NR blk - 1) / NR blk).
Proof. apply eltwise_threading_decided. Qed.

Lemma eltwise_get_threading_valid_witness :
  exists t, dlp_gemm_eltwise_ops_bf16of32_get_threading 40 300 (example_rntm 24)
      (blksz example_cntx) = Some t /\
    t_ic_ways t * t_jc_ways t = t_n_threads t.
Proof.
  destruct (eltwise_get_threading_valid 40 300 (example_rntm 24) (blksz example_cntx))
    as (t & E & _ & _ & H & _); [lia|lia|split; simpl; lia|].
  exists t. split; assumption.
Defined.

(** ** Threads for a batch *)

(** What every batch decision promises: each GEMM in flight has a full
    [ic_ways x jc_ways] team, and the teams are the threads asked for. *)
Definition batch_threading_ok (group_size nt : Z) (bt : batch_threading) : Prop :=
  factor_pair (b_n_threads_per_gemm bt) (b_ic_ways bt) (b_jc_ways bt) /\
  b_n_threads bt = b_n_gemms_in_parallel bt * b_n_threads_per_gemm bt /\
  1 <= b_n_gemms_in_parallel bt <= Z.max 1 group_size /\
  b_n_threads bt <= Z.max 1 nt /\
  (1 <= group_size -> Z.max 1 nt < b_n_threads bt + b_n_gemms_in_parallel bt).

Lemma calculate_n_threads_per_gemm_ok group_size r :
  num_threads r <> 0 ->
  exists nt ng per, dlp_calculate_n_threads_per_gemm group_size r = Some (nt, ng, per) /\
    ((ng <= 1 /\ per <= 1 /\ (1 <= group_size -> num_threads r <= 1)) \/
     (2 <= nt /\ nt = num_threads r /\ 1 <= ng <= group_size /\ 1 <= per /\
      ng * per <= nt < ng * per + ng)).
Proof.
  intros Hnt. unfold dlp_calculate_n_threads_per_gemm, dlp_min.
  destruct (Z.leb_spec group_size 0) as [Hg|Hg].
  { eexists _, _, _; split; [done|]. left. lia. }
  destruct (Z.eqb_spec (num_threads r) 1) as [E|E].
  { rewrite E. eexists _, _, _; split; [done|]. left. done. }
  simpl. unfold cdiv_opt. zcase.
  { exfalso. destruct (Z.ltb_spec (num_threads r) group_size); lia. }
  eexists _, _, _; split; [done|].
  destruct (Z.ltb_spec (num_threads r) group_size) as [Hlt|Hge].
  - rewrite Z.quot_same by lia. lia.
  - right. cdiv. pose proof (Z.mul_div_le (num_threads r) group_size Hg).
    pose proof (Z.mul_succ_div_gt (num_threads r) group_size Hg).
    assert (1 <= num_threads r / group_size) by (apply Z.div_le_lower_bound; lia). lia.
Qed.

Lemma batch_get_threading_with_ok tail group_size m n r lcntx :
  num_threads r <> 0 ->
  (forall per mr nr, 2 <= per -> exists ic jc, tail per mr nr = Some (ic, jc) /\
     factor_pair per ic jc) ->
  exists bt, batch_get_threading_with tail group_size m n r lcntx = Some bt /\
    batch_threading_ok group_size (num_threads r) bt.
Proof.
  intros Hnt Htail. unfold batch_get_threading_with.
  destruct (calculate_n_threads_per_gemm_ok group_size r Hnt) as (nt & ng & per & -> & Hor).
  simpl. destruct (Z.ltb_spec 1 per) as [Hper|Hper].
  - destruct Hor as [|(? & -> & ? & ? & ?)]; [lia|].
    set (ways := if n <=? _ then _ else _).
    assert (exists ic jc, ways = Some (per, ic, jc) /\ factor_pair per ic jc)
      as (ic & jc & -> & Hp).
    { subst ways. destruct (n <=? _).
      { exists per, 1. rewrite Z.mul_1_r. split; [done|split; lia]. }
      destruct (m <=? _).
      { exists 1, per. rewrite Z.mul_1_l. split; [done|split; lia]. }
      destruct (Htail per ((m + MR (blksz lcntx) - 1) `quot` MR (blksz lcntx))
        ((n + NR (blksz lcntx) - 1) `quot` NR (blksz lcntx))) as (ic & jc & -> & Hp); [lia|].
      by exists ic, jc. }
    simpl. eexists; split; [done|].
    assert (ng * ic * jc = ng * per) as -> by (destruct Hp as (_ & _ & <-); ring).
    split; [exact Hp|]. simpl. lia.
  - destruct (Z.ltb_spec 1 ng); eexists; (split; [done|]);
      (split; [by split|]); simpl; destruct Hor as [(? & ? & ?)|(? & -> & ? & ? & ?)];
      try (assert (per = 1) as -> by lia); lia.
Qed.

Lemma set_packs_ways a b r :
  num_threads (set_packs a b r) = num_threads r /\ ic_ways (set_packs a b r) = ic_ways r /\
  jc_ways (set_packs a b r) = jc_ways r.
Proof. done. Qed.

(** The same for the batch decorators. *)
Class BatchThreadingPolicy
    (gt : Z -> Z -> Z -> Z -> dlp_rntm_t -> dlp_gemm_cntx_t ->
          option (batch_threading * dlp_rntm_t)) : Prop :=
  batch_threading_decided : forall group_size m n k r lcntx,
    num_threads r <> 0 ->
    exists bt r', gt group_size m n k r lcntx = Some (bt, r') /\
      batch_threading_ok group_size (num_threads r) bt /\
      (r' = r \/ r' = set_packs true true r).

#[export] Instance batch_get_threading_policy (pf : platform) (sfx : batch_threading_sfx) :
  BatchThreadingPolicy (batch_get_threading pf sfx).
Proof.
  intros group_size m n k rntm_g lcntx Hnt.
  assert (forall MR NR, exists bt,
    batch_get_threading_with (fun per_gemm mr_blks nr_blks =>
      '(ic, jc) ← dlp_thread_partition_2x2 per_gemm m n;
      if ic <=? mr_blks
      then dlp_gemm_pnl_wrk_heur_adjust_ic_jc_ways MR NR m n per_gemm ic jc
      else Some (ic, jc)) group_size m n rntm_g lcntx = Some bt /\
    batch_threading_ok group_size (num_threads rntm_g) bt) as Hs32.
  { intros MR NR. apply batch_get_threading_with_ok; [done|]. intros per mr nr Hper.
    destruct (partition_2x2_ok per m n ltac:(lia)) as (ic & jc & -> & Hp). simpl.
    by apply s32_adjust_ok. }
  destruct sfx; simpl; unfold batch_dlp_gemm_u8s8s32o32_get_threading,
    batch_dlp_gemm_s8s8s32o32_get_threading, batch_dlp_gemm_bf16bf16f32of32_get_threading,
    batch_dlp_gemm_s32o32_get_threading.
  1-3: destruct (Hs32 (MR (blksz lcntx)) (NR (blksz lcntx))) as (bt & -> & Hok); simpl;
    eexists _, _; split; [done|]; by split; [|left].
  unfold batch_dlp_gemm_f32f32f32of32_get_threading.
  edestruct (batch_get_threading_with_ok) as (bt & -> & Hok); [exact Hnt| |].
  { intros per mr nr Hper. cbv beta.
    destruct (partition_2x2_ok per m n ltac:(lia)) as (ic & jc & -> & Hp). simpl.
    by apply f32_adjust_ok. }
  simpl. destruct Hok as (Hp & Hrest). pose proof Hp as (? & ? & _).
  rewrite !cdiv_opt_pos by done. simpl. eexists _, _. split; [done|].
  split; [by split|]. destruct (native_sup_pack _ _ _ _ _ _ _); auto.
Qed.

(** Batch threading: every GEMM in flight gets a full team of
    [ic_ways * jc_ways] threads, the teams together are exactly the threads
    asked for, there are never more GEMMs in flight than in the group, the
    configured number of threads is not exceeded, and fewer threads are left
    idle than GEMMs are in flight.  The runtime record keeps its threads and
    ways; packing can only be turned on.  (A zero thread count would divide by
    zero; the runtime never produces one, see [Runtime].) *)
Theorem batch_get_threading_valid (pf : platform) (sfx : batch_threading_sfx)
    (group_size m n k : Z) (rntm_g : dlp_rntm_t) (lcntx : dlp_gemm_cntx_t) :
  num_threads rntm_g <> 0 ->
  exists bt rntm', batch_get_threading pf sfx group_size m n k rntm_g lcntx = Some (bt, rntm') /\
    batch_threading_ok group_size (num_threads rntm_g) bt /\
    (rntm' = rntm_g \/ rntm' = set_packs true true rntm_g).
Proof. apply batch_get_threading_policy. Qed.

Lemma batch_get_threading_valid_witness :
  batch_get_threading (mk_platform 4096 false) bsfx_f32f32f32of32 3 600 700 4000
    (example_rntm 13) example_cntx
    = Some (mk_batch 12 3 4 4 1, set_packs true true (example_rntm 13)) /\
  exists bt rntm',
    batch_get_threading (mk_platform 4096 false) bsfx_f32f32f32of32 3 600 700 4000
      (example_rntm 13) example_cntx = Some (bt, rntm') /\
    batch_threading_ok 3 13 bt.
Proof.
  split; [reflexivity|].
  destruct (batch_get_threading_valid (mk_platform 4096 false) bsfx_f32f32f32of32 3 600 700 4000
    (example_rntm 13) example_cntx) as (bt & r' & E & Hok & _); [simpl; lia|].
  exists bt, r'. split; assumption.
Defined.
