(* ===== verification/Config.v ===== *)
(** * Blocking contexts (config/dlp_gemm_config.c, config/dlp_gemm_blksz_map.h,
    include/config/dlp_gemm_config.h)

    The table of per-operation contexts, its initialisation from the CPU
    features, the accessors, the merge of the caller's metadata into a local
    copy of a context and the validations.  Kernel function pointers are not
    part of the model. *)
From S2P Require Import Prelude Word DlpTypes PrimeFactors ThreadHeur GetThreading.

#[local] Open Scope Z_scope.

(** ** The global tables *)

(** [dlp_arch_t]. *)
Inductive dlp_arch_t :=
  | DLP_ARCH_ERROR | DLP_ARCH_GENERIC | DLP_ARCH_ZEN6 | DLP_ARCH_ZEN5 | DLP_ARCH_ZEN4
  | DLP_ARCH_ZEN3 | DLP_ARCH_ZEN2 | DLP_ARCH_ZEN | DLP_NUM_ARCHS.

#[export] Instance arch_eq_dec : EqDecision dlp_arch_t.
Proof. solve_decision. Defined.

(** What the CPU and environment queries answer. *)
Record cpu_features := mk_cpu {
  dlp_get_arch : dlp_arch_t;
  dlp_aocl_enable_instruction_query : bool;
  is_avx512bf16 : bool;
  is_avx512vnni : bool;
  is_avx512 : bool;
  is_avx2fma3 : bool;
  is_similar_zen5 : bool;
  is_similar_zen6 : bool;
}.

(** [(int)op_type] and the extents of the tables. *)
Definition op_index (op : AOCL_DLP_OPERATION_TYPE) : Z :=
  match op with
  | U8S8S16OS16 => 0 | U8S8S32OS32 => 1 | F32F32F32OF32 => 2 | BF16BF16F32OF32 => 3
  | S8S8S32OS32 => 4 | S8S8S16OS16 => 5 | U8S4S32OS32 => 6 | BF16S4F32OF32 => 7
  | F32OBF16 => 8 | F16F16F16OF16 => 9 | BF16U4F32OF32 => 10 | F32F16F32OF32 => 11
  end.

Definition AOCL_DLP_OPERATION_TYPE_LEN : Z := 12.

Inductive AOCL_DLP_ELTWISE_OPS_OPERATION_TYPE := BF16OF32 | F32OF32.
Definition eltwise_index (op : AOCL_DLP_ELTWISE_OPS_OPERATION_TYPE) : Z :=
  match op with BF16OF32 => 0 | F32OF32 => 1 end.
Definition AOCL_DLP_ELTWISE_OPS_OPERATION_TYPE_LEN : Z := 2.

(** The static variables, zero before the initialisation. *)
Record config_state := mk_config {
  global_cntx_t_list : list dlp_gemm_cntx_t;
  global_eltwise_ops_cntx_t_list : list dlp_gemm_block_size_t;
  global_dlp_gemmenable_arch : dlp_arch_t;
}.

Definition blksz_zero : dlp_gemm_block_size_t := mk_blksz 0 0 0 0 0.
Definition cntx_zero : dlp_gemm_cntx_t :=
  mk_cntx blksz_zero 0 (mk_pack_s 0 0 0 0) (mk_sup 0 0 0) (mk_hints 0 0).

Definition config_zero : config_state :=
  mk_config (replicate 12 cntx_zero) (replicate 2 blksz_zero) DLP_ARCH_ERROR.

Definition dlp_gemm_clamp_op_index (op len : Z) : Z :=
  if (op <? 0) || (len <=? op) then 0 else op.

(** [&table[clamp((int)op, LEN)]], read and written through; past the end of the
    table is undefined. *)
Definition slot (op len : Z) : nat := Z.to_nat (dlp_gemm_clamp_op_index op len).

Definition get_cntx (l : list dlp_gemm_cntx_t) (op : Z) : option dlp_gemm_cntx_t :=
  l !! slot op AOCL_DLP_OPERATION_TYPE_LEN.

Definition upd_cntx (l : list dlp_gemm_cntx_t) (op : Z) (f : dlp_gemm_cntx_t -> dlp_gemm_cntx_t)
    : list dlp_gemm_cntx_t :=
  alter f (slot op AOCL_DLP_OPERATION_TYPE_LEN) l.

Definition set_blksz (b : dlp_gemm_block_size_t) (mask : Z) (c : dlp_gemm_cntx_t) :=
  mk_cntx b mask (pack_s c) (sup_thres c) (gemm_kernel_hints c).
Definition set_pack_s (p : dlp_gemm_pack_strides_t) (c : dlp_gemm_cntx_t) :=
  mk_cntx (blksz c) (blksz_set_mask c) p (sup_thres c) (gemm_kernel_hints c).
Definition set_sup (s : dlp_gemm_sup_thres_t) (c : dlp_gemm_cntx_t) :=
  mk_cntx (blksz c) (blksz_set_mask c) (pack_s c) s (gemm_kernel_hints c).
Definition set_hints (h : dlp_gemm_kernel_hints_t) (c : dlp_gemm_cntx_t) :=
  mk_cntx (blksz c) (blksz_set_mask c) (pack_s c) (sup_thres c) h.

Definition dlp_gemm_set_block_sizes_global_cntx (op MC NC KC MR NR : Z)
    (l : list dlp_gemm_cntx_t) : list dlp_gemm_cntx_t :=
  upd_cntx l op (set_blksz (mk_blksz MC NC KC NR MR) 0).

Definition dlp_gemm_set_pack_strides_global_cntx (op a_rs a_cs b_rs b_cs : Z)
    (l : list dlp_gemm_cntx_t) : list dlp_gemm_cntx_t :=
  upd_cntx l op (set_pack_s (mk_pack_s a_rs a_cs b_rs b_cs)).

Definition dlp_gemm_set_sup_thres_global_cntx (op MT NT KT : Z)
    (l : list dlp_gemm_cntx_t) : list dlp_gemm_cntx_t :=
  upd_cntx l op (set_sup (mk_sup MT NT KT)).

Definition dlp_gemm_set_block_sizes_global_eltwise_ops_cntx (op MC NC KC MR NR : Z)
    (l : list dlp_gemm_block_size_t) : list dlp_gemm_block_size_t :=
  <[slot op AOCL_DLP_ELTWISE_OPS_OPERATION_TYPE_LEN := mk_blksz MC NC KC NR MR]> l.

(** ** The block size maps

    One row per [XMACRO(ID, MC, NC, KC, MR, NR, PACKA_RS, PACKA_CS, PACKB_RS,
    PACKB_CS)]. *)
Record xrow := mk_xrow {
  x_id : AOCL_DLP_OPERATION_TYPE;
  x_MC : Z; x_NC : Z; x_KC : Z; x_MR : Z; x_NR : Z;
  x_pa_rs : Z; x_pa_cs : Z; x_pb_rs : Z; x_pb_cs : Z;
}.

Definition DLP_GEMM_BLKSZ_MAP_ZEN5 : list xrow := [
  mk_xrow U8S8S32OS32 144 1024 2048 6 64 4 24 (4 * 64) 64;
  mk_xrow F32F32F32OF32 192 8064 1024 6 64 1 6 64 1;
  mk_xrow BF16BF16F32OF32 144 1024 4096 6 64 0 0 (2 * 64) (64 / 2);
  mk_xrow BF16S4F32OF32 144 1024 4096 6 64 0 0 (2 * 64) (64 / 2);
  mk_xrow F16F16F16OF16 288 1024 2048 6 128 1 6 128 1;
  mk_xrow F32F16F32OF32 192 4096 2048 6 64 1 6 64 1;
  mk_xrow S8S8S32OS32 144 1024 2048 6 64 4 24 (4 * 64) 64;
  mk_xrow U8S4S32OS32 144 1024 2048 6 64 4 24 (4 * 64) 64;
  mk_xrow F32OBF16 144 1024 4096 6 64 0 0 (2 * 64) (64 / 2);
  mk_xrow BF16U4F32OF32 144 1024 4096 6 64 0 0 (2 * 64) (64 / 2)].

Definition DLP_GEMM_BLKSZ_MAP_ZEN6 : list xrow := [
  mk_xrow U8S8S32OS32 144 1024 4096 6 64 4 24 (4 * 64) 64;
  mk_xrow F32F32F32OF32 192 8064 1024 6 64 1 6 64 1;
  mk_xrow BF16BF16F32OF32 144 1024 4096 6 64 0 0 (2 * 64) (64 / 2);
  mk_xrow BF16S4F32OF32 144 1024 4096 6 64 0 0 (2 * 64) (64 / 2);
  mk_xrow F16F16F16OF16 288 1024 2048 6 128 1 12 128 1;
  mk_xrow F32F16F32OF32 192 4096 2048 6 64 1 6 64 1;
  mk_xrow S8S8S32OS32 144 1024 4096 6 64 4 24 (4 * 64) 64;
  mk_xrow U8S4S32OS32 144 1024 4096 6 64 4 24 (4 * 64) 64;
  mk_xrow F32OBF16 144 1024 4096 6 64 0 0 (2 * 64) (64 / 2);
  mk_xrow BF16U4F32OF32 144 1024 4096 6 64 0 0 (2 * 64) (64 / 2)].

Definition DLP_GEMM_BLKSZ_MAP_ZEN4 : list xrow := [
  mk_xrow U8S8S32OS32 144 1024 2048 6 64 4 24 (4 * 64) 64;
  mk_xrow F32F32F32OF32 192 8064 512 6 64 1 6 64 1;
  mk_xrow BF16BF16F32OF32 144 1024 4096 6 64 0 0 (2 * 64) (64 / 2);
  mk_xrow BF16S4F32OF32 144 1024 4096 6 64 0 0 (2 * 64) (64 / 2);
  mk_xrow F16F16F16OF16 288 1024 2048 6 128 1 6 128 1;
  mk_xrow F32F16F32OF32 192 4096 2048 6 64 1 6 64 1;
  mk_xrow S8S8S32OS32 144 1024 2048 6 64 4 24 (4 * 64) 64;
  mk_xrow U8S4S32OS32 144 1024 2048 6 64 4 24 (4 * 64) 64;
  mk_xrow F32OBF16 144 1024 4096 6 64 0 0 (2 * 64) (64 / 2);
  mk_xrow BF16U4F32OF32 144 1024 4096 6 64 0 0 (2 * 64) (64 / 2)].

Definition DLP_GEMM_BLKSZ_MAP_ZEN : list xrow := [
  mk_xrow U8S8S32OS32 144 1024 2048 6 64 4 24 (4 * 64) 64;
  mk_xrow F32F32F32OF32 144 8160 512 6 16 1 6 16 1;
  mk_xrow BF16BF16F32OF32 144 1024 4096 6 64 0 0 (2 * 64) (64 / 2);
  mk_xrow F16F16F16OF16 288 1024 512 12 32 1 12 32 1;
  mk_xrow S8S8S32OS32 144 1024 2048 6 64 4 24 (4 * 64) 64;
  mk_xrow U8S4S32OS32 144 1024 2048 6 64 4 24 (4 * 64) 64;
  mk_xrow BF16S4F32OF32 144 1024 2048 6 64 0 0 (2 * 64) (64 / 2);
  mk_xrow F32OBF16 144 1024 2048 6 64 0 0 (2 * 64) (64 / 2);
  mk_xrow BF16U4F32OF32 144 1024 2048 6 64 0 0 (2 * 64) (64 / 2)].

Definition DLP_GEMM_BLKSZ_UPD_MAP_ZEN4_TO_ZEN : list xrow := [
  mk_xrow F32F32F32OF32 144 8160 512 6 16 1 6 16 1].

Definition XMACRO (l : list dlp_gemm_cntx_t) (r : xrow) : list dlp_gemm_cntx_t :=
  let l := dlp_gemm_set_block_sizes_global_cntx (op_index (x_id r))
             (x_MC r) (x_NC r) (x_KC r) (x_MR r) (x_NR r) l in
  dlp_gemm_set_pack_strides_global_cntx (op_index (x_id r))
    (x_pa_rs r) (x_pa_cs r) (x_pb_rs r) (x_pb_cs r) l.

(** The rows [_dlp_gemm_cntx_init_blksz_map] expands, in their order. *)
Definition blksz_rows (f : cpu_features) (arch : dlp_arch_t) : list xrow :=
  let fallback := if bool_decide (arch = DLP_ARCH_ZEN3)
                  then DLP_GEMM_BLKSZ_UPD_MAP_ZEN4_TO_ZEN else [] in
  if is_similar_zen6 f then DLP_GEMM_BLKSZ_MAP_ZEN6 ++ fallback
  else if is_similar_zen5 f then DLP_GEMM_BLKSZ_MAP_ZEN5 ++ fallback
  else if is_avx512 f then DLP_GEMM_BLKSZ_MAP_ZEN4 ++ fallback
  else DLP_GEMM_BLKSZ_MAP_ZEN.

Definition dlp_gemm_cntx_init_blksz_map (f : cpu_features) (arch : dlp_arch_t)
    (l : list dlp_gemm_cntx_t) : list dlp_gemm_cntx_t :=
  foldl XMACRO l (blksz_rows f arch).

Definition dlp_gemm_init_enable_arch (f : cpu_features) : dlp_arch_t :=
  if dlp_aocl_enable_instruction_query f
     && (bool_decide (dlp_get_arch f = DLP_ARCH_ZEN3) || bool_decide (dlp_get_arch f = DLP_ARCH_ZEN2)
         || bool_decide (dlp_get_arch f = DLP_ARCH_ZEN))
  then DLP_ARCH_ZEN3 else dlp_get_arch f.

Definition dlp_gemm_cntx_init_sup_thres_map (f : cpu_features) (arch : dlp_arch_t)
    (l : list dlp_gemm_cntx_t) : list dlp_gemm_cntx_t :=
  let zen := dlp_gemm_set_sup_thres_global_cntx (op_index F32F32F32OF32) 512 200 240 in
  if is_avx512vnni f then
    let l := dlp_gemm_set_sup_thres_global_cntx (op_index F32F32F32OF32) 682 512 240 l in
    if bool_decide (arch = DLP_ARCH_ZEN3) then zen l else l
  else zen l.

Definition dlp_gemm_eltwise_ops_cntx_init_blksz_map (f : cpu_features)
    (l : list dlp_gemm_block_size_t) : list dlp_gemm_block_size_t :=
  if is_avx512bf16 f then
    dlp_gemm_set_block_sizes_global_eltwise_ops_cntx (eltwise_index F32OF32) 144 1024 2048 6 64
      (dlp_gemm_set_block_sizes_global_eltwise_ops_cntx (eltwise_index BF16OF32)
         144 1024 2048 6 64 l)
  else l.

(** [dlp_gemm_cntx_init_map], the body [dlp_init_global_cntx] runs once. *)
Definition dlp_gemm_cntx_init_map (f : cpu_features) (c : config_state) : config_state :=
  let arch := dlp_gemm_init_enable_arch f in
  let l := dlp_gemm_cntx_init_blksz_map f arch (global_cntx_t_list c) in
  let l := dlp_gemm_cntx_init_sup_thres_map f arch l in
  mk_config l (dlp_gemm_eltwise_ops_cntx_init_blksz_map f (global_eltwise_ops_cntx_t_list c)) arch.

(** ** Accessors *)

Definition dlp_gemm_get_global_cntx_obj (c : config_state) (op : Z) : option dlp_gemm_cntx_t :=
  get_cntx (global_cntx_t_list c) op.

Definition dlp_gemm_eltwise_ops_get_global_cntx_obj (c : config_state) (op : Z)
    : option dlp_gemm_block_size_t :=
  global_eltwise_ops_cntx_t_list c !! slot op AOCL_DLP_ELTWISE_OPS_OPERATION_TYPE_LEN.

Definition dlp_gemm_get_block_size_MC_global_cntx (c : config_state) (op : Z) : option Z :=
  MC ∘ blksz <$> get_cntx (global_cntx_t_list c) op.
Definition dlp_gemm_get_block_size_NC_global_cntx (c : config_state) (op : Z) : option Z :=
  NC ∘ blksz <$> get_cntx (global_cntx_t_list c) op.
Definition dlp_gemm_get_block_size_KC_global_cntx (c : config_state) (op : Z) : option Z :=
  KC ∘ blksz <$> get_cntx (global_cntx_t_list c) op.
Definition dlp_gemm_get_block_size_NR_global_cntx (c : config_state) (op : Z) : option Z :=
  NR ∘ blksz <$> get_cntx (global_cntx_t_list c) op.
Definition dlp_gemm_get_block_size_MR_global_cntx (c : config_state) (op : Z) : option Z :=
  MR ∘ blksz <$> get_cntx (global_cntx_t_list c) op.
Definition dlp_gemm_get_sup_thres_MT_global_cntx (c : config_state) (op : Z) : option Z :=
  MT ∘ sup_thres <$> get_cntx (global_cntx_t_list c) op.
Definition dlp_gemm_get_sup_thres_NT_global_cntx (c : config_state) (op : Z) : option Z :=
  NT ∘ sup_thres <$> get_cntx (global_cntx_t_list c) op.
Definition dlp_gemm_get_sup_thres_KT_global_cntx (c : config_state) (op : Z) : option Z :=
  KT ∘ sup_thres <$> get_cntx (global_cntx_t_list c) op.

(** [( *rs, *cs)] of [dlp_gemm_get_packa_strides] and [dlp_gemm_get_packb_strides]. *)
Definition dlp_gemm_get_packa_strides (lcntx : dlp_gemm_cntx_t) : Z * Z :=
  (packa_rs (pack_s lcntx), packa_cs (pack_s lcntx)).
Definition dlp_gemm_get_packb_strides (lcntx : dlp_gemm_cntx_t) : Z * Z :=
  (packb_rs (pack_s lcntx), packb_cs (pack_s lcntx)).

(** One pass of a [for] loop over [range], overwriting while it still fits. *)
Definition s16_range : list Z := [1024; 512; 256; 128].
Definition last_range_at_least (x dflt : Z) : Z :=
  foldl (fun acc r => if x <=? r then r else acc) dflt s16_range.

(** [dlp_gemm_mod_block_size_s16]: the new [( *NC, *KC)]. *)
Definition dlp_gemm_mod_block_size_s16 (m n k NC KC : Z) : Z * Z :=
  (if n <? NC then last_range_at_least n NC else NC,
   if k <? KC then last_range_at_least k KC else KC).

(** ** Metadata of the blocking *)

(** [dlp_gemm_blocking_t], [dlp_gemm_sup_threshold_t], [dlp_gemm_hints_t] and the
    three pointers of [dlp_metadata_t] to them. *)
Record dlp_gemm_blocking_t := mk_blocking {
  bp_MR : Z; bp_NR : Z; bp_MC : Z; bp_NC : Z; bp_KC : Z }.
Record dlp_gemm_sup_threshold_t := mk_sup_threshold { st_MT : Z; st_NT : Z; st_KT : Z }.
Record dlp_gemm_hints_t := mk_gemm_hints { h_m_hint : Z; h_nt_hint : Z }.

Record blocking_metadata := mk_blocking_md {
  block_params : option dlp_gemm_blocking_t;
  sup_thresholds : option dlp_gemm_sup_threshold_t;
  gemm_hints : option dlp_gemm_hints_t;
}.

Definition DLP_BLKSZ_SET_MR : Z := Z.shiftl 1 0.
Definition DLP_BLKSZ_SET_NR : Z := Z.shiftl 1 1.
Definition DLP_BLKSZ_SET_MC : Z := Z.shiftl 1 2.
Definition DLP_BLKSZ_SET_NC : Z := Z.shiftl 1 3.
Definition DLP_BLKSZ_SET_KC : Z := Z.shiftl 1 4.

Definition or_if (c : bool) (bit mask : Z) : Z := if c then Z.lor mask bit else mask.

Definition dlp_gemm_blksz_provenance (b : dlp_gemm_blocking_t) : Z :=
  let mask := 0 in
  let mask := or_if (0 <? bp_MC b) DLP_BLKSZ_SET_MC mask in
  let mask := or_if (0 <? bp_NC b) DLP_BLKSZ_SET_NC mask in
  let mask := or_if (0 <? bp_KC b) DLP_BLKSZ_SET_KC mask in
  let mask := or_if (0 <? bp_MR b) DLP_BLKSZ_SET_MR mask in
  or_if (0 <? bp_NR b) DLP_BLKSZ_SET_NR mask.

(** [x > 0 ? x : dflt] and [x >= 0 ? x : dflt]. *)
Definition pos_or (x dflt : Z) : Z := if 0 <? x then x else dflt.
Definition nonneg_or (x dflt : Z) : Z := if 0 <=? x then x else dflt.

Definition merge_blksz (p : dlp_gemm_blocking_t) (b : dlp_gemm_block_size_t)
    : dlp_gemm_block_size_t :=
  mk_blksz (pos_or (bp_MC p) (MC b)) (pos_or (bp_NC p) (NC b)) (pos_or (bp_KC p) (KC b))
    (pos_or (bp_NR p) (NR b)) (pos_or (bp_MR p) (MR b)).

Definition blksz_nonpos (b : dlp_gemm_block_size_t) : bool :=
  (MC b <=? 0) || (NC b <=? 0) || (KC b <=? 0) || (MR b <=? 0) || (NR b <=? 0).

(** [((x + q - 1) / q) * q], of two [md_t]. The value stands for the C expression
    where the sum [x + q - 1] fits [md_t] ([merge_in_range] below); the code does
    not check that it does. *)
Definition round_up (x q : Z) : Z := ((x + q - 1) `quot` q) * q.

Definition snap_blksz (p : dlp_gemm_blocking_t) (b : dlp_gemm_block_size_t)
    : dlp_gemm_block_size_t :=
  mk_blksz (if bp_MC p <=? 0 then round_up (MC b) (MR b) else MC b)
    (if bp_NC p <=? 0 then round_up (NC b) (NR b) else NC b) (KC b) (NR b) (MR b).

Definition merge_sup (p : dlp_gemm_sup_threshold_t) (s : dlp_gemm_sup_thres_t)
    : dlp_gemm_sup_thres_t :=
  mk_sup (nonneg_or (st_MT p) (MT s)) (nonneg_or (st_NT p) (NT s)) (nonneg_or (st_KT p) (KT s)).

(** [dlp_gemm_upd_cntx_with_metadata]: the error code and the context it leaves;
    an early return leaves the fields already assigned. The two rounded sums are
    the only arithmetic on the sizes of the caller, which no check of the code
    bounds: the definition describes the calls in which they fit [md_t], which
    [merge_in_range] states. *)
Definition dlp_gemm_upd_cntx_with_metadata (lcntx : option dlp_gemm_cntx_t)
    (metadata : option blocking_metadata) : dlp_clsc_err_t * option dlp_gemm_cntx_t :=
  match lcntx with
  | None => (DLP_CLSC_NULL_POINTER, None)
  | Some c =>
    match metadata with
    | None => (DLP_CLSC_SUCCESS, Some c)
    | Some md =>
      let rest c :=
        let c := from_option (fun s => set_sup (merge_sup s (sup_thres c)) c) c
                   (sup_thresholds md) in
        let c := from_option (fun h => set_hints (mk_hints (h_m_hint h) (h_nt_hint h)) c) c
                   (gemm_hints md) in
        (DLP_CLSC_SUCCESS, Some c) in
      match block_params md with
      | None => rest c
      | Some p =>
          let b := merge_blksz p (blksz c) in
          if blksz_nonpos b
          then (DLP_CLSC_INVALID_BLOCK_PARAMS, Some (set_blksz b (blksz_set_mask c) c))
          else rest (set_blksz (snap_blksz p b) (dlp_gemm_blksz_provenance p) c)
      end
    end
  end.

(** ** Validation *)

Definition dlp_gemm_effective_thread_count (num_threads ic_ways jc_ways : Z) : Z :=
  if (0 <? ic_ways) || (0 <? jc_ways) then
    let ic := if 0 <? ic_ways then ic_ways else 1 in
    let jc := if 0 <? jc_ways then jc_ways else 1 in
    ic * jc
  else num_threads.

Definition dlp_gemm_validate_hints (lcntx : option dlp_gemm_cntx_t) : dlp_clsc_err_t :=
  match lcntx with
  | None => DLP_CLSC_NULL_POINTER
  | Some c =>
      if (m_hint (gemm_kernel_hints c) <? 0) || (nt_hint (gemm_kernel_hints c) <? 0)
      then DLP_CLSC_INVALID_GEMM_HINTS else DLP_CLSC_SUCCESS
  end.

Definition dlp_gemm_validate_hints_with_call (lcntx : option dlp_gemm_cntx_t)
    (mtag_b : AOCL_DLP_MEMORY_TAG) (num_threads ic_ways jc_ways : Z) : dlp_clsc_err_t :=
  let err := dlp_gemm_validate_hints lcntx in
  if negb (bool_decide (err = DLP_CLSC_SUCCESS)) then err
  else if negb (bool_decide (mtag_b = REORDERED)) then DLP_CLSC_SUCCESS
  else
    match lcntx with
    | None => DLP_CLSC_NULL_POINTER
    | Some c =>
        let m_hint := m_hint (gemm_kernel_hints c) in
        let nt_hint := nt_hint (gemm_kernel_hints c) in
        if (m_hint =? 0) || (nt_hint =? 0) then DLP_CLSC_SUCCESS
        else if negb (nt_hint =? dlp_gemm_effective_thread_count num_threads ic_ways jc_ways)
        then DLP_CLSC_HINT_MISMATCH
        else DLP_CLSC_SUCCESS
    end.

Definition agrees_if (c : bool) (x y : Z) : bool := if c then x =? y else true.

Definition block_params_agree (p : dlp_gemm_blocking_t) (b : dlp_gemm_block_size_t) : bool :=
  agrees_if (0 <? bp_MR p) (MR b) (bp_MR p) && agrees_if (0 <? bp_NR p) (NR b) (bp_NR p)
  && agrees_if (0 <? bp_MC p) (MC b) (bp_MC p) && agrees_if (0 <? bp_KC p) (KC b) (bp_KC p)
  && agrees_if (0 <? bp_NC p) (NC b) (bp_NC p)
  && (MC b `rem` MR b =? 0) && (NC b `rem` NR b =? 0).

Definition sup_agree (p : dlp_gemm_sup_threshold_t) (s : dlp_gemm_sup_thres_t) : bool :=
  agrees_if (0 <=? st_MT p) (MT s) (st_MT p) && agrees_if (0 <=? st_NT p) (NT s) (st_NT p)
  && agrees_if (0 <=? st_KT p) (KT s) (st_KT p).

(** [None]: the remainder by a zero [MR] or [NR]. *)
Definition dlp_gemm_validate_metadata_with_lcntx (metadata : option blocking_metadata)
    (lcntx : option dlp_gemm_cntx_t) : option dlp_clsc_err_t :=
  match metadata with
  | None => Some DLP_CLSC_SUCCESS
  | Some md =>
    match lcntx with
    | None => Some DLP_CLSC_NULL_POINTER
    | Some c =>
        validateBoolBlockParams ←
          match block_params md with
          | None => Some true
          | Some p =>
              if (MR (blksz c) =? 0) || (NR (blksz c) =? 0) then None
              else Some (block_params_agree p (blksz c))
          end;
        let validateBoolSupThresholds :=
          from_option (fun s => sup_agree s (sup_thres c)) true (sup_thresholds md) in
        Some (if (validateBoolBlockParams : bool) && validateBoolSupThresholds
              then DLP_CLSC_SUCCESS else DLP_CLSC_INVALID_BLOCK_PARAMS)
    end
  end.

(** ** Lemmas *)

Lemma slot_bounds op len : 1 <= len -> (slot op len < Z.to_nat len)%nat.
Proof.
  intros Hlen. unfold slot, dlp_gemm_clamp_op_index. repeat zcase; simpl; lia.
Qed.

Lemma slot_in_range op len : 0 <= op < len -> slot op len = Z.to_nat op.
Proof. intros H. unfold slot, dlp_gemm_clamp_op_index. repeat zcase; simpl; lia. Qed.

Lemma round_up_spec x q :
  1 <= x -> 1 <= q -> (q | round_up x q) /\ x <= round_up x q < x + q.
Proof.
  intros Hx Hq. unfold round_up. cdiv. split; [by exists ((x + q - 1) / q)|].
  pose proof (ceil_div_bounds x q). lia.
Qed.

Lemma round_up_multiple x q : 1 <= x -> 1 <= q -> round_up x q mod q = 0.
Proof. intros. apply Z.mod_divide; [lia|]. by apply round_up_spec. Qed.

Lemma pos_or_pos x d : 1 <= d -> 1 <= pos_or x d.
Proof. unfold pos_or. zcase; lia. Qed.

Lemma merge_blksz_pos p b : blksz_pos b -> blksz_pos (merge_blksz p b).
Proof. intros [????]. split; simpl; by apply pos_or_pos. Qed.

Lemma blksz_nonpos_false b : blksz_nonpos b = false <-> blksz_pos b.
Proof.
  unfold blksz_nonpos. rewrite !orb_false_iff, !Z.leb_gt. split.
  - intros [[[[? ?] ?] ?] ?]. split; lia.
  - intros [????]. lia.
Qed.

(** A context the GEMM drivers can block with. *)
Definition blksz_ok (b : dlp_gemm_block_size_t) : Prop :=
  blksz_pos b /\ MC b mod MR b = 0 /\ NC b mod NR b = 0.

(** ** Safety of the tables *)

(** Every access of a table goes through the clamp, so it needs only the length
    the declaration gives. *)
Definition tables_ok (c : config_state) : Prop :=
  length (global_cntx_t_list c) = 12%nat /\ length (global_eltwise_ops_cntx_t_list c) = 2%nat.

Lemma config_zero_ok : tables_ok config_zero.
Proof. done. Qed.

Lemma XMACRO_length l r : length (XMACRO l r) = length l.
Proof.
  unfold XMACRO, dlp_gemm_set_pack_strides_global_cntx, dlp_gemm_set_block_sizes_global_cntx,
    upd_cntx. by rewrite !length_alter.
Qed.

Lemma XMACROs_length rows l : length (foldl XMACRO l rows) = length l.
Proof. revert l. induction rows as [|r rows IH]; intros l; simpl; [done|]. by rewrite IH, XMACRO_length. Qed.

Lemma init_map_ok f c : tables_ok c -> tables_ok (dlp_gemm_cntx_init_map f c).
Proof.
  intros [H1 H2]. split; simpl.
  - unfold dlp_gemm_cntx_init_sup_thres_map, dlp_gemm_set_sup_thres_global_cntx, upd_cntx,
      dlp_gemm_cntx_init_blksz_map.
    repeat case_match; by rewrite ?length_alter, XMACROs_length.
  - unfold dlp_gemm_eltwise_ops_cntx_init_blksz_map,
      dlp_gemm_set_block_sizes_global_eltwise_ops_cntx.
    case_match; by rewrite ?length_insert.
Qed.

(** No index reaches past a table: with any integer as the operation type,
    a read finds a context, and a write changes exactly the slot a later read of
    the same index sees: every other slot, and the length, stay.  An index out
    of range designates slot 0. *)
Theorem table_access_clamped (c : config_state) (op op' : Z) (f : dlp_gemm_cntx_t -> dlp_gemm_cntx_t) :
  tables_ok c ->
  (exists x, get_cntx (global_cntx_t_list c) op = Some x /\
     get_cntx (upd_cntx (global_cntx_t_list c) op f) op = Some (f x)) /\
  (slot op 12 <> slot op' 12 ->
     get_cntx (upd_cntx (global_cntx_t_list c) op f) op' = get_cntx (global_cntx_t_list c) op') /\
  length (upd_cntx (global_cntx_t_list c) op f) = length (global_cntx_t_list c) /\
  (op < 0 \/ 12 <= op ->
     get_cntx (global_cntx_t_list c) op = dlp_gemm_get_global_cntx_obj c (op_index U8S8S16OS16)) /\
  (exists b, dlp_gemm_eltwise_ops_get_global_cntx_obj c op = Some b).
Proof.
  intros [H1 H2]. unfold get_cntx, upd_cntx, AOCL_DLP_OPERATION_TYPE_LEN.
  pose proof (slot_bounds op 12 ltac:(lia)) as Hs.
  destruct (lookup_lt_is_Some_2 (global_cntx_t_list c) (slot op 12)) as [x Hx]; [simpl in *; lia|].
  split_and!.
  - exists x. split; [done|]. by rewrite list_lookup_alter_eq, Hx.
  - intros Hne. by apply list_lookup_alter_ne.
  - apply length_alter.
  - intros Hop. unfold dlp_gemm_get_global_cntx_obj, get_cntx, AOCL_DLP_OPERATION_TYPE_LEN. f_equal.
    unfold slot, dlp_gemm_clamp_op_index. simpl. repeat zcase; simpl; lia.
  - apply lookup_lt_is_Some_2. pose proof (slot_bounds op 2 ltac:(lia)).
    unfold AOCL_DLP_ELTWISE_OPS_OPERATION_TYPE_LEN. simpl in *. lia.
Qed.

Lemma table_access_clamped_witness :
  exists x, get_cntx (global_cntx_t_list config_zero) 77 = Some x.
Proof.
  destruct (table_access_clamped config_zero 77 3 id) as [[x [H _]] _];
    [split; reflexivity|]. exists x. exact H.
Defined.

(** ** The block sizes after the initialisation *)

Definition blksz_okb (b : dlp_gemm_block_size_t) : bool :=
  negb (blksz_nonpos b) && (MC b mod MR b =? 0) && (NC b mod NR b =? 0).

Lemma blksz_okb_iff b : blksz_okb b = true <-> blksz_ok b.
Proof.
  unfold blksz_okb, blksz_ok. rewrite !andb_true_iff, negb_true_iff, !Z.eqb_eq.
  rewrite blksz_nonpos_false. tauto.
Qed.

(** The machines with an AVX-512 block size map. *)
Definition has_avx512_map (f : cpu_features) : bool :=
  is_similar_zen6 f || is_similar_zen5 f || is_avx512 f.

(** The operations the map of the machine has a row for. *)
Definition has_row (f : cpu_features) (op : AOCL_DLP_OPERATION_TYPE) : bool :=
  match op with
  | U8S8S16OS16 | S8S8S16OS16 => false
  | F32F16F32OF32 => has_avx512_map f
  | _ => true
  end.

Definition configured (f : cpu_features) (op : AOCL_DLP_OPERATION_TYPE) : option dlp_gemm_cntx_t :=
  dlp_gemm_get_global_cntx_obj (dlp_gemm_cntx_init_map f config_zero) (op_index op).

Definition cntx_okb (x : option dlp_gemm_cntx_t) : bool :=
  from_option (fun c => blksz_okb (blksz c) && (blksz_set_mask c =? 0)) false x.

Lemma configured_exact f op : cntx_okb (configured f op) = has_row f op.
Proof.
  destruct f as [arch q b16 vnni a512 a2 z5 z6].
  unfold configured, dlp_gemm_get_global_cntx_obj, dlp_gemm_cntx_init_map,
    dlp_gemm_cntx_init_blksz_map, blksz_rows, dlp_gemm_cntx_init_sup_thres_map, has_row,
    has_avx512_map.
  set (ar := dlp_gemm_init_enable_arch _). clearbody ar. simpl is_similar_zen6.
  simpl is_similar_zen5. simpl is_avx512. simpl is_avx512vnni.
  destruct (bool_decide (ar = DLP_ARCH_ZEN3)), z6, z5, a512, vnni, op; vm_compute; reflexivity.
Qed.

(** The initialisation gives usable block sizes: on every machine, the
    operations whose context the map covers, and no others, have positive
    blocks with [MC] a multiple of [MR], [NC] a multiple of [NR] and no block
    marked as the application's.  All the operations of the API are covered on a
    machine with an AVX-512 map; on another one the mixed f32 x fp16 operation
    is left with zero blocks (its entry points refuse such a machine). *)
Theorem init_block_sizes_ok (f : cpu_features) (op : AOCL_DLP_OPERATION_TYPE) :
  exists c, configured f op = Some c /\
    (blksz_ok (blksz c) /\ blksz_set_mask c = 0 <->
     op <> U8S8S16OS16 /\ op <> S8S8S16OS16 /\
     (op = F32F16F32OF32 -> has_avx512_map f = true)).
Proof.
  destruct (init_map_ok f config_zero config_zero_ok) as [Hlen _].
  destruct (lookup_lt_is_Some_2 (global_cntx_t_list (dlp_gemm_cntx_init_map f config_zero))
    (slot (op_index op) 12)) as [c Hc].
  { rewrite Hlen. exact (slot_bounds (op_index op) 12 ltac:(lia)). }
  exists c. split; [exact Hc|].
  pose proof (configured_exact f op) as He.
  assert (configured f op = Some c) as Hcf by exact Hc. rewrite Hcf in He. simpl in He.
  rewrite <- blksz_okb_iff, <- Z.eqb_eq, <- andb_true_iff, He.
  unfold has_row. destruct op; split; try (by intros (? & ? & ?)); try done; naive_solver.
Qed.

(** Two rows differ from what the comments of the map say of them: the f32 block
    of columns of the machines without AVX-512 (and of the fallback to them) is
    not a multiple of 64, and the fp16 row of the newest map is not the one of the
    map it extends. *)
Lemma f32_zen_NC_not_multiple_of_64 :
  Forall (fun r => x_id r = F32F32F32OF32 -> x_NC r mod 64 = 32)
    (DLP_GEMM_BLKSZ_MAP_ZEN ++ DLP_GEMM_BLKSZ_UPD_MAP_ZEN4_TO_ZEN).
Proof. repeat constructor; done. Qed.

Lemma zen6_f16_row_differs :
  x_pa_cs <$> filter (fun r => x_id r = F16F16F16OF16) DLP_GEMM_BLKSZ_MAP_ZEN6 = [12] /\
  x_pa_cs <$> filter (fun r => x_id r = F16F16F16OF16) DLP_GEMM_BLKSZ_MAP_ZEN5 = [6].
Proof. by vm_compute. Qed.

(** ** Merging the metadata *)

(** The fields set by the caller, as the provenance bits record them. *)
Definition provenance_bit (p : dlp_gemm_blocking_t) (i : Z) : bool :=
  (0 <? if i =? 0 then bp_MR p else if i =? 1 then bp_NR p else if i =? 2 then bp_MC p
        else if i =? 3 then bp_NC p else bp_KC p).

Lemma provenance_testbit p i :
  0 <= i < 5 -> Z.testbit (dlp_gemm_blksz_provenance p) i = provenance_bit p i.
Proof.
  intros Hi. unfold dlp_gemm_blksz_provenance, provenance_bit.
  assert (i = 0 \/ i = 1 \/ i = 2 \/ i = 3 \/ i = 4) as Hc by lia.
  repeat (destruct Hc as [-> | Hc]; [simpl (_ =? _); cbv iota;
    by destruct (0 <? bp_MC p), (0 <? bp_NC p), (0 <? bp_KC p), (0 <? bp_MR p), (0 <? bp_NR p)|]).
  subst i. simpl (_ =? _). cbv iota.
  by destruct (0 <? bp_MC p), (0 <? bp_NC p), (0 <? bp_KC p), (0 <? bp_MR p), (0 <? bp_NR p).
Qed.

(** One merged dimension: the caller's value untouched, or the default rounded
    up to the micro-tile. *)
Definition dim_merged (user dflt tile result : Z) : Prop :=
  (0 < user -> result = user) /\
  (user <= 0 -> (tile | result) /\ dflt <= result < dflt + tile).

Lemma snap_dim user dflt tile :
  1 <= dflt -> 1 <= tile ->
  dim_merged user dflt tile
    (if user <=? 0 then round_up (pos_or user dflt) tile else pos_or user dflt).
Proof.
  intros Hd Ht. unfold dim_merged, pos_or.
  destruct (Z.leb_spec user 0), (Z.ltb_spec 0 user); try lia; split; try lia; intros _.
  by apply round_up_spec.
Qed.

Lemma snap_pos p b : blksz_pos b -> blksz_pos (snap_blksz p b).
Proof.
  intros [????]. split; simpl; try done;
    match goal with |- context [if ?x <=? 0 then _ else _] => destruct (x <=? 0) end; try done.
  - pose proof (round_up_spec (MC b) (MR b)). lia.
  - pose proof (round_up_spec (NC b) (NR b)). lia.
Qed.

(** What the merge of [p] into the blocks [b] leaves. *)
Record blksz_merged (p : dlp_gemm_blocking_t) (b b' : dlp_gemm_block_size_t) : Prop := {
  bm_pos : blksz_pos b';
  bm_MR : MR b' = pos_or (bp_MR p) (MR b);
  bm_NR : NR b' = pos_or (bp_NR p) (NR b);
  bm_KC : KC b' = pos_or (bp_KC p) (KC b);
  bm_MC : dim_merged (bp_MC p) (MC b) (MR b') (MC b');
  bm_NC : dim_merged (bp_NC p) (NC b) (NR b') (NC b') }.

Lemma merge_snap_ok p b : blksz_pos b -> blksz_merged p b (snap_blksz p (merge_blksz p b)).
Proof.
  intros Hb. pose proof (merge_blksz_pos p b Hb) as Hm.
  split; [by apply snap_pos|done..| |]; simpl.
  - apply snap_dim; [apply Hb|apply Hm].
  - apply snap_dim; [apply Hb|apply Hm].
Qed.

(** The sizes of a caller and of a context, as the [md_t] fields they are. *)
Definition blocking_typed (p : dlp_gemm_blocking_t) : Prop :=
  int64_t (bp_MC p) /\ int64_t (bp_NC p) /\ int64_t (bp_KC p) /\
  int64_t (bp_NR p) /\ int64_t (bp_MR p).
Definition blksz_typed (b : dlp_gemm_block_size_t) : Prop :=
  int64_t (MC b) /\ int64_t (NC b) /\ int64_t (KC b) /\ int64_t (NR b) /\ int64_t (MR b).

(** The two signed sums of the merge fit [md_t], where the code evaluates them:
    [MC + MR - 1] when the caller leaves [MC] out, [NC + NR - 1] when it leaves
    [NC] out. *)
Definition merge_in_range (p : dlp_gemm_blocking_t) (b : dlp_gemm_block_size_t) : Prop :=
  (bp_MC p <= 0 -> int64_t (MC b + pos_or (bp_MR p) (MR b) - 1)) /\
  (bp_NC p <= 0 -> int64_t (NC b + pos_or (bp_NR p) (NR b) - 1)).

Lemma snap_dim_typed user dflt tile :
  1 <= dflt -> 1 <= tile -> int64_t user -> int64_t dflt ->
  (user <= 0 -> int64_t (dflt + tile - 1)) ->
  int64_t (if user <=? 0 then round_up (pos_or user dflt) tile else pos_or user dflt).
Proof.
  intros Hd Ht Hu Hdt Hs. pose proof (snap_dim user dflt tile Hd Ht) as [H1 H2].
  destruct (Z.leb_spec user 0) as [Hn|Hn]; [|by rewrite H1].
  destruct (H2 Hn) as [_ H3]. specialize (Hs Hn). unfold int64_t in *. lia.
Qed.

(** Within the range, every field the merge assigns is an [md_t]. *)
Lemma merge_snap_typed p b :
  blksz_pos b -> blocking_typed p -> blksz_typed b -> merge_in_range p b ->
  blksz_typed (snap_blksz p (merge_blksz p b)).
Proof.
  intros Hb (?&?&?&?&?) (?&?&?&?&?) [HM HN]. pose proof (merge_blksz_pos p b Hb) as Hm.
  assert (forall x d, int64_t x -> int64_t d -> int64_t (pos_or x d)) as Hpos
    by (intros; unfold pos_or; by zcase).
  split_and!; simpl; auto.
  - apply snap_dim_typed; auto; [apply Hb|apply Hm].
  - apply snap_dim_typed; auto; [apply Hb|apply Hm].
Qed.

(** The library's own sizes and tiles of the caller of up to [2 ^ 62] are always
    in range. *)
Lemma merge_in_range_small p b :
  blksz_pos b -> MC b < 2 ^ 62 -> NC b < 2 ^ 62 -> MR b <= 2 ^ 62 -> NR b <= 2 ^ 62 ->
  bp_MR p <= 2 ^ 62 -> bp_NR p <= 2 ^ 62 -> merge_in_range p b.
Proof.
  intros [????]. unfold merge_in_range, int64_t, pos_or. intros.
  split; intros _; zcase; lia.
Qed.

(** Nothing rejects a caller outside it: with an [MR] of [INT64_MAX] and no [MC]
    the positivity test passes and the sum is [2 ^ 63 + 148]. *)
Lemma merge_out_of_range :
  let p := mk_blocking (2 ^ 63 - 1) 0 0 0 0 in let b := mk_blksz 150 1024 2048 64 6 in
  blocking_typed p /\ blksz_nonpos (merge_blksz p b) = false /\ ~ merge_in_range p b.
Proof.
  split; [by vm_compute|]. split; [by vm_compute|]. intros [H _]. specialize (H ltac:(simpl; lia)).
  destruct H as [_ H]. by vm_compute in H.
Qed.

(** C34. Merging the caller's metadata into a usable context, when the sums
    [MC + MR - 1] and [NC + NR - 1] the code evaluates for the sizes left out fit
    [md_t] (the code does not check it, and [merge_out_of_range] passes its tests):
    the merge never fails, no value overflows, and it does what it says. A
    block size the caller states is taken as it is, one the caller leaves out
    keeps the default, rounded up to the micro-tile by less than a tile for [MC]
    and [NC]; every block stays positive and an [md_t]; the provenance mask has
    exactly the bits of the stated sizes; a nonnegative threshold and any hint
    replace the defaults; the packing strides are left to the kernel selection. *)
Theorem upd_cntx_with_metadata_spec (c : dlp_gemm_cntx_t) (md : blocking_metadata) :
  blksz_pos (blksz c) -> blksz_typed (blksz c) ->
  (forall p, block_params md = Some p -> blocking_typed p /\ merge_in_range p (blksz c)) ->
  exists c', dlp_gemm_upd_cntx_with_metadata (Some c) (Some md) = (DLP_CLSC_SUCCESS, Some c') /\
    blksz_typed (blksz c') /\
    match block_params md with
    | None => blksz c' = blksz c /\ blksz_set_mask c' = blksz_set_mask c
    | Some p =>
        blksz_merged p (blksz c) (blksz c') /\
        forall i, 0 <= i < 5 -> Z.testbit (blksz_set_mask c') i = provenance_bit p i
    end /\
    sup_thres c' = from_option (fun s => merge_sup s (sup_thres c)) (sup_thres c) (sup_thresholds md) /\
    gemm_kernel_hints c' =
      from_option (fun h => mk_hints (h_m_hint h) (h_nt_hint h)) (gemm_kernel_hints c)
        (gemm_hints md) /\
    pack_s c' = pack_s c.
Proof.
  intros Hb Hty Hr. unfold dlp_gemm_upd_cntx_with_metadata.
  destruct (block_params md) as [p|].
  - pose proof (merge_blksz_pos p _ Hb) as Hm%blksz_nonpos_false. rewrite Hm.
    destruct (Hr p eq_refl) as [Hp Hin]. pose proof (merge_snap_typed p _ Hb Hp Hty Hin).
    eexists. split; [reflexivity|].
    destruct (sup_thresholds md), (gemm_hints md); simpl; (split; [done|]); (split; [|done]);
      (split; [by apply merge_snap_ok | apply provenance_testbit]).
  - eexists. split; [reflexivity|]. by destruct (sup_thresholds md), (gemm_hints md).
Qed.

Definition example_blocking_md : blocking_metadata :=
  mk_blocking_md (Some (mk_blocking 12 0 0 500 0)) (Some (mk_sup_threshold 0 (-1) 64))
    (Some (mk_gemm_hints 4 13)).

Lemma upd_cntx_with_metadata_spec_witness :
  (blksz <$> snd (dlp_gemm_upd_cntx_with_metadata (Some (set_blksz (mk_blksz 150 1024 2048 64 6) 0
     cntx_zero)) (Some example_blocking_md))) = Some (mk_blksz 156 500 2048 64 12) /\
  exists c', dlp_gemm_upd_cntx_with_metadata (Some (set_blksz (mk_blksz 150 1024 2048 64 6) 0
     cntx_zero)) (Some example_blocking_md) = (DLP_CLSC_SUCCESS, Some c').
Proof.
  split; [reflexivity|].
  destruct (upd_cntx_with_metadata_spec (set_blksz (mk_blksz 150 1024 2048 64 6) 0 cntx_zero)
    example_blocking_md) as (c' & H & _); [split; simpl; lia|by vm_compute| |].
  { intros p [= <-]. by vm_compute. }
  exists c'. exact H.
Defined.

(** ** Validation *)

Lemma agrees_if_refl (c : bool) x y : (c = true -> x = y) -> agrees_if c x y = true.
Proof. unfold agrees_if. destruct c; [|done]. intros ->; [|done]. apply Z.eqb_refl. Qed.

Lemma merged_agree p b b' :
  blksz_merged p b b' ->
  block_params_agree p b' = bool_decide (MC b' mod MR b' = 0 /\ NC b' mod NR b' = 0).
Proof.
  intros [[] EMR ENR EKC [EMC _] [ENC _]]. unfold block_params_agree.
  rewrite !agrees_if_refl; simpl; try (rewrite ?EMR, ?ENR, ?EKC; unfold pos_or; by intros ->);
    try (intros H%Z.ltb_lt; auto).
  rewrite !crem_nonneg by lia.
  destruct (Z.eqb_spec (MC b' mod MR b') 0), (Z.eqb_spec (NC b' mod NR b') 0); simpl;
    case_bool_decide; tauto.
Qed.

Lemma merged_sup_agree s t : sup_agree s (merge_sup s t) = true.
Proof.
  unfold sup_agree. rewrite !agrees_if_refl; try done;
    simpl; unfold nonneg_or; by intros ->.
Qed.

(** The validation after the merge is exact: a context the merge produced
    is accepted unless the caller stated block sizes that leave [MC] or [NC] a
    partial micro-tile; dimensions the caller did not state never make it fail. *)
Theorem validate_after_merge_exact (c c' : dlp_gemm_cntx_t) (md : blocking_metadata) :
  blksz_pos (blksz c) ->
  dlp_gemm_upd_cntx_with_metadata (Some c) (Some md) = (DLP_CLSC_SUCCESS, Some c') ->
  dlp_gemm_validate_metadata_with_lcntx (Some md) (Some c') =
    Some (if decide (block_params md = None \/
                     (MC (blksz c') mod MR (blksz c') = 0 /\ NC (blksz c') mod NR (blksz c') = 0))
          then DLP_CLSC_SUCCESS else DLP_CLSC_INVALID_BLOCK_PARAMS) /\
  (forall p, block_params md = Some p -> bp_MC p <= 0 -> bp_NC p <= 0 ->
     dlp_gemm_validate_metadata_with_lcntx (Some md) (Some c') = Some DLP_CLSC_SUCCESS).
Proof.
  intros Hb H.
  assert (dlp_gemm_validate_metadata_with_lcntx (Some md) (Some c') =
    Some (if decide (block_params md = None \/
                     (MC (blksz c') mod MR (blksz c') = 0 /\ NC (blksz c') mod NR (blksz c') = 0))
          then DLP_CLSC_SUCCESS else DLP_CLSC_INVALID_BLOCK_PARAMS) /\
    (forall p, block_params md = Some p -> blksz_merged p (blksz c) (blksz c'))) as [E Hmd].
  { unfold dlp_gemm_upd_cntx_with_metadata in H. unfold dlp_gemm_validate_metadata_with_lcntx.
    assert (from_option (fun s => sup_agree s (sup_thres c')) true (sup_thresholds md) = true) as Hs.
    { destruct (block_params md) as [p|]; [destruct (blksz_nonpos _); [done|]|]; simplify_eq;
        destruct (sup_thresholds md), (gemm_hints md); try done; apply merged_sup_agree. }
    destruct (block_params md) as [p|].
    - pose proof (merge_snap_ok p _ Hb) as Hm.
      destruct (blksz_nonpos _); [done|].
      assert (blksz c' = snap_blksz p (merge_blksz p (blksz c))) as Ec
        by (by simplify_eq; destruct (sup_thresholds md), (gemm_hints md)).
      rewrite <- Ec in Hm. pose proof (bm_pos _ _ _ Hm) as [].
      rewrite (proj2 (Z.eqb_neq (MR (blksz c')) 0)), (proj2 (Z.eqb_neq (NR (blksz c')) 0)) by lia.
      simpl. rewrite Hs, (merged_agree _ _ _ Hm), andb_true_r.
      split; [|by intros p' [= <-]]. f_equal.
      case_bool_decide as Hx; case_decide as Hy; try done; [by destruct Hy; right|naive_solver].
    - rewrite Hs, decide_True by (by left). by split. }
  split; [exact E|]. intros p Ep HMC HNC. rewrite E.
  destruct (Hmd p Ep) as [[] _ _ _ [_ HM] [_ HN]].
  rewrite decide_True; [done|]. right.
  split; apply Z.mod_divide; try lia; [by apply HM|by apply HN].
Qed.

Lemma validate_after_merge_exact_witness :
  exists c', dlp_gemm_upd_cntx_with_metadata (Some (set_blksz (mk_blksz 150 1024 2048 64 6) 0
     cntx_zero)) (Some example_blocking_md) = (DLP_CLSC_SUCCESS, Some c') /\
    dlp_gemm_validate_metadata_with_lcntx (Some example_blocking_md) (Some c')
      = Some DLP_CLSC_INVALID_BLOCK_PARAMS.
Proof.
  eexists. split; [reflexivity|].
  destruct (validate_after_merge_exact (set_blksz (mk_blksz 150 1024 2048 64 6) 0 cntx_zero)
    (set_hints (mk_hints 4 13) (set_sup (mk_sup 0 0 64)
      (set_blksz (mk_blksz 156 500 2048 64 12) 9 cntx_zero))) example_blocking_md) as [E _];
    [split; simpl; lia|reflexivity|]. exact E.
Defined.

(** ** Hints and the thread pool *)

Lemma pool_of_pinned r :
  pinned r ->
  dlp_gemm_effective_thread_count (num_threads r) (ic_ways r) (jc_ways r) =
    ways_of (ic_ways r) * ways_of (jc_ways r).
Proof.
  intros Hp. unfold dlp_gemm_effective_thread_count, ways_of.
  rewrite pinned_bool, bool_decide_eq_true_2; done.
Qed.

Lemma pool_of_unpinned r :
  ~ pinned r -> dlp_gemm_effective_thread_count (num_threads r) (ic_ways r) (jc_ways r) = num_threads r.
Proof.
  intros Hp. unfold dlp_gemm_effective_thread_count. rewrite pinned_bool.
  by rewrite bool_decide_eq_false_2.
Qed.

Definition hints_accepted (c : dlp_gemm_cntx_t) (mtag_b : AOCL_DLP_MEMORY_TAG) (pool : Z) : Prop :=
  0 <= m_hint (gemm_kernel_hints c) /\ 0 <= nt_hint (gemm_kernel_hints c) /\
  (mtag_b = REORDERED -> m_hint (gemm_kernel_hints c) <> 0 -> nt_hint (gemm_kernel_hints c) <> 0 ->
   nt_hint (gemm_kernel_hints c) = pool).

Lemma validate_hints_iff c mtag_b nt ic jc :
  dlp_gemm_validate_hints_with_call (Some c) mtag_b nt ic jc = DLP_CLSC_SUCCESS <->
  hints_accepted c mtag_b (dlp_gemm_effective_thread_count nt ic jc).
Proof.
  unfold dlp_gemm_validate_hints_with_call, dlp_gemm_validate_hints, hints_accepted.
  destruct (Z.ltb_spec (m_hint (gemm_kernel_hints c)) 0); simpl; [split; [done|lia]|].
  destruct (Z.ltb_spec (nt_hint (gemm_kernel_hints c)) 0); simpl; [split; [done|lia]|].
  destruct (decide (mtag_b = REORDERED)) as [->|Hm]; simpl;
    [|rewrite bool_decide_eq_false_2 by done; simpl; split; [by intros _; split_and!|done]].
  destruct (Z.eqb_spec (m_hint (gemm_kernel_hints c)) 0); simpl; [split; [by intros _; split_and!|done]|].
  destruct (Z.eqb_spec (nt_hint (gemm_kernel_hints c)) 0); simpl; [split; [by intros _; split_and!|done]|].
  destruct (Z.eqb_spec (nt_hint (gemm_kernel_hints c)) (dlp_gemm_effective_thread_count nt ic jc))
    as [|Hne]; simpl; [split; [by intros _; split_and!|done]|split; [done|]].
  intros (_ & _ & H'). by destruct Hne; apply H'.
Qed.

(** The hint contract: hints are accepted exactly when they are nonnegative
    and, over a reordered B with both hints given, [nt_hint] is the pool of the
    call; and the pool the validation computes is the one the threading decision
    runs on: the same number of threads when the ways are pinned, and at most
    the pool, fewer than six below it, when a count is configured. *)
Theorem hints_match_thread_pool (c : dlp_gemm_cntx_t) (mtag_b : AOCL_DLP_MEMORY_TAG)
    (r : dlp_rntm_t) (sfx : threading_sfx) (m n k : Z) :
  1 <= m -> 1 <= n -> blksz_pos (blksz c) ->
  let pool := dlp_gemm_effective_thread_count (num_threads r) (ic_ways r) (jc_ways r) in
  (dlp_gemm_validate_hints_with_call (Some c) mtag_b (num_threads r) (ic_ways r) (jc_ways r)
     = DLP_CLSC_SUCCESS <-> hints_accepted c mtag_b pool) /\
  exists t, get_threading sfx m n k r c = Some t /\
    (pinned r -> t_n_threads t = pool) /\
    (~ pinned r -> t_n_threads t <= Z.max 1 pool < t_n_threads t + 6).
Proof.
  intros Hm Hn Hb pool. split; [apply validate_hints_iff|].
  destruct (get_threading_policy sfx m n k r c Hm Hn Hb) as (t & E & (_ & _ & Ht) & Hp & Hu).
  exists t. split; [done|]. split.
  - intros Hr. destruct (Hp Hr) as [E1 E2]. subst pool.
    rewrite pool_of_pinned by done. rewrite <- Ht, E1, E2. ring.
  - intros Hr. subst pool. rewrite pool_of_unpinned by done. auto.
Qed.

Lemma hints_match_thread_pool_witness :
  exists t, get_threading sfx_s8s8s32o32 600 700 64 (mk_rntm (-1) 3 4 false false false) example_cntx
    = Some t /\ t_n_threads t = 12.
Proof.
  destruct (hints_match_thread_pool example_cntx REORDERED (mk_rntm (-1) 3 4 false false false)
    sfx_s8s8s32o32 600 700 64) as [_ (t & E & H & _)]; [lia|lia|split; simpl; lia|].
  exists t. split; [exact E|]. apply H. left. reflexivity.
Defined.

(** ** The 16-bit block sizes *)

(** The least of the supported sizes that is at least [x]. *)
Definition least_range (x r : Z) : Prop :=
  r ∈ s16_range /\ x <= r /\ forall r', r' ∈ s16_range -> x <= r' -> r <= r'.

Lemma last_range_spec x d :
  (x <= 1024 -> least_range x (last_range_at_least x d)) /\
  (1024 < x -> last_range_at_least x d = d).
Proof.
  unfold least_range, last_range_at_least, s16_range. simpl.
  split; intros Hx; repeat zcase; try lia;
    rewrite ?elem_of_cons; (split; [tauto|]); (split; [lia|]);
    intros r'; rewrite ?elem_of_cons; intros Hr; decompose [or] Hr; try lia;
    by match goal with H : _ ∈ [] |- _ => apply elem_of_nil in H end.
Qed.

(** The 16-bit block sizes: a dimension smaller than its block is blocked
    by the least supported size that holds it, so one block covers it; a
    dimension the supported sizes do not hold, or not smaller than its block,
    keeps the block. *)
Theorem mod_block_size_s16_spec (m n k NC KC NC' KC' : Z) :
  dlp_gemm_mod_block_size_s16 m n k NC KC = (NC', KC') ->
  (n < NC /\ n <= 1024 -> least_range n NC') /\ (NC <= n \/ 1024 < n -> NC' = NC) /\
  (k < KC /\ k <= 1024 -> least_range k KC') /\ (KC <= k \/ 1024 < k -> KC' = KC).
Proof.
  intros [= <- <-]. pose proof (last_range_spec n NC) as [? ?].
  pose proof (last_range_spec k KC) as [? ?].
  destruct (Z.ltb_spec n NC), (Z.ltb_spec k KC); split_and!;
    intros; try lia; try tauto; intuition.
Qed.

Lemma mod_block_size_s16_spec_witness :
  dlp_gemm_mod_block_size_s16 6 300 100 1024 2048 = (512, 128) /\ least_range 300 512.
Proof.
  split; [reflexivity|].
  apply (mod_block_size_s16_spec 6 300 100 1024 2048 512 128); [reflexivity|lia].
Defined.
