(* ===== verification/Runtime.v ===== *)
(** * Threading configuration of the library (frame/runtime/dlp_runtime.c)

    The functions are programs over two stores: the process-wide atomics
    [lib_packed_ways], [lib_num_threads], [lib_ext_mt_ctr_var] and the calling
    thread's [dlp_tl_rntm].  A program is a tree of atomic accesses, so the same
    definition is run sequentially and interleaved with other threads. *)
From S2P Require Import Prelude Word DlpTypes.

(** ** Packed ways: two [int32_t] in an [int64_t] *)

Definition dlp_pack_ways (ic jc : Z) : Z :=
  let uic := to_u32 ic in
  let ujc := to_u32 jc in
  to_i64 (Z.lor (to_u64 (Z.shiftl ujc 32)) uic).

Definition dlp_unpack_ways (packed : Z) : Z * Z :=
  (to_i32 (Z.land (to_u64 packed) 0xFFFFFFFF),
   to_i32 (Z.land (Z.shiftr (to_u64 packed) 32) 0xFFFFFFFF)).

Arguments dlp_pack_ways : simpl never.
Arguments dlp_unpack_ways : simpl never.

(** ** State, environment and programs *)

Record lib_state := mk_lib {
  lib_num_threads : Z;
  lib_packed_ways : Z;
  lib_ext_mt_ctr_var : bool;
  once_init : bool;
}.

(** The initial values of the statics. *)
Definition lib_init : lib_state := mk_lib (-1) (-1) false false.

Record tl_state := mk_tl {
  dlp_tl_rntm : dlp_rntm_t;
  dlp_init_tl_rntm : bool;
}.

Definition tl_init : tl_state := mk_tl DLP_CLASSIC_RNTM_INITIALIZER true.

(** The build options and the answers of the environment, of the OpenMP runtime
    and of the system, which are outside the modelled code. *)
Record rt_env := mk_env {
  env_DLP_IC_NT : Z;
  env_DLP_JC_NT : Z;
  env_DLP_NUM_THREADS : Z;
  DLP_ENABLE_OPENMP : bool;
  DLP_ENABLE_ST : bool;
  dlp_omp_can_create_parallel_team : bool;
  dlp_omp_get_max_threads : Z;
  dlp_get_num_cores : Z;
}.

(** Atomic accesses; [OpOnce] is the [dlp_pthread_once] call, which runs its
    argument exactly once and before any caller continues. *)
Inductive op : Type -> Type :=
  | LoadExt : op bool
  | LoadNt : op Z
  | LoadWays : op Z
  | StoreExt (b : bool) : op unit
  | StoreNt (nt : Z) : op unit
  | StoreWays (packed : Z) : op unit
  | OpOnce (nt packed : Z) (ext : bool) : op unit
  | GetTl : op tl_state
  | PutTl (tl : tl_state) : op unit.

Inductive prog (A : Type) : Type :=
  | Ret (a : A)
  | Vis (R : Type) (o : op R) (k : R -> prog A).
Arguments Ret {A} a.
Arguments Vis {A R} o k.

Fixpoint prog_bind {A B} (f : A -> prog B) (p : prog A) : prog B :=
  match p with
  | Ret a => f a
  | Vis o k => Vis o (fun r => prog_bind f (k r))
  end.

#[export] Instance prog_mret : MRet prog := fun A a => Ret a.
#[export] Instance prog_mbind : MBind prog := fun A B f p => prog_bind f p.

Definition do_op {R} (o : op R) : prog R := Vis o Ret.

Definition exec {R} (o : op R) (g : lib_state) (tl : tl_state) : R * lib_state * tl_state :=
  match o in op R return R * lib_state * tl_state with
  | LoadExt => (lib_ext_mt_ctr_var g, g, tl)
  | LoadNt => (lib_num_threads g, g, tl)
  | LoadWays => (lib_packed_ways g, g, tl)
  | StoreExt b => (tt, mk_lib (lib_num_threads g) (lib_packed_ways g) b (once_init g), tl)
  | StoreNt nt => (tt, mk_lib nt (lib_packed_ways g) (lib_ext_mt_ctr_var g) (once_init g), tl)
  | StoreWays w => (tt, mk_lib (lib_num_threads g) w (lib_ext_mt_ctr_var g) (once_init g), tl)
  | OpOnce nt w ext => (tt, if once_init g then g else mk_lib nt w ext true, tl)
  | GetTl => (tl, g, tl)
  | PutTl tl' => (tt, g, tl')
  end.

(** A program run without interference. *)
Fixpoint run {A} (p : prog A) (g : lib_state) (tl : tl_state) : A * lib_state * tl_state :=
  match p with
  | Ret a => (a, g, tl)
  | Vis o k => let '(r, g', tl') := exec o g tl in run (k r) g' tl'
  end.

(** ** Operations *)

(** [dlp_init_threading]: the values [(nt, packed ways, ext)] it stores. *)
Definition dlp_init_threading (e : rt_env) : Z * Z * bool :=
  let ic := env_DLP_IC_NT e in
  let jc := env_DLP_JC_NT e in
  let nt := env_DLP_NUM_THREADS e in
  let '(nt, ic, jc, lcl_ext_mt_ctr_var) :=
    if (0 <? jc) || (0 <? ic) then
      (-1, if ic <=? 0 then 1 else ic, if jc <=? 0 then 1 else jc, false)
    else if 0 <? nt then (nt, -1, -1, false)
    else if DLP_ENABLE_OPENMP e then
      (if dlp_omp_can_create_parallel_team e then dlp_omp_get_max_threads e else 1,
       -1, -1, true)
    else
      (if DLP_ENABLE_ST e then 1
       else if 0 <? dlp_get_num_cores e then dlp_get_num_cores e else 1,
       -1, -1, false) in
  (nt, dlp_pack_ways (to_i32 ic) (to_i32 jc), lcl_ext_mt_ctr_var).

Definition dlp_init_threading_once (e : rt_env) : prog unit :=
  let '(nt, packed, ext) := dlp_init_threading e in
  do_op (OpOnce nt packed ext) ;;
  tl ← do_op GetTl;
  if dlp_init_tl_rntm tl then
    ext ← do_op LoadExt;
    let r := dlp_tl_rntm tl in
    do_op (PutTl (mk_tl (mk_rntm (num_threads r) (ic_ways r) (jc_ways r)
                           (pack_a r) (pack_b r) ext) false))
  else mret tt.

(** The active setting while it is being determined: [(act_nt, act_ic, act_jc)]. *)
Record act := mk_act { act_nt : Z; act_ic : Z; act_jc : Z }.

Definition act_unset (a : act) : bool :=
  (act_nt a =? -1) && (act_ic a =? -1) && (act_jc a =? -1).

(** The assignments made from one source of settings. *)
Definition act_from (nt ic jc : Z) (a : act) : act :=
  if (0 <? jc) || (0 <? ic) then
    mk_act (-1) (if ic <=? 0 then 1 else ic) (if jc <=? 0 then 1 else jc)
  else if 0 <? nt then mk_act nt (-1) (-1)
  else a.

(** The library level source: three separate atomic loads. *)
Definition read_library (a : act) : prog act :=
  ext ← do_op LoadExt;
  if ext : bool then mret a
  else
    lib_nt ← do_op LoadNt;
    packed_ways ← do_op LoadWays;
    let '(lib_ic, lib_jc) := dlp_unpack_ways packed_ways in
    mret (act_from lib_nt lib_ic lib_jc a).

Definition read_env (e : rt_env) (a : act) : prog act :=
  ext ← do_op LoadExt;
  if ext : bool then mret a
  else mret (act_from (env_DLP_NUM_THREADS e) (env_DLP_IC_NT e) (env_DLP_JC_NT e) a).

(** The OpenMP source also hands the control of threading to OpenMP; the second
    component is [ext_mt_ctr_var]. *)
Definition read_omp (e : rt_env) (a : act) : prog (act * bool) :=
  if DLP_ENABLE_OPENMP e && act_unset a then
    let omp_nt := dlp_omp_get_max_threads e in
    if 0 <? omp_nt then
      tl ← do_op GetTl;
      let r := dlp_tl_rntm tl in
      do_op (PutTl (mk_tl (mk_rntm (num_threads r) (ic_ways r) (jc_ways r)
                             (pack_a r) (pack_b r) true) (dlp_init_tl_rntm tl))) ;;
      do_op (StoreExt true) ;;
      mret (mk_act omp_nt (-1) (-1), true)
    else mret (a, false)
  else mret (a, false).

Definition act_default (e : rt_env) (a : act) : act :=
  if act_unset a then
    mk_act (if DLP_ENABLE_ST e then 1
            else if 0 <? dlp_get_num_cores e then dlp_get_num_cores e else 1) (-1) (-1)
  else a.

Definition act_nested (e : rt_env) (a : act) : act :=
  if DLP_ENABLE_OPENMP e && ((0 <? act_nt a) || (0 <? act_ic a) || (0 <? act_jc a))
     && negb (dlp_omp_can_create_parallel_team e)
  then mk_act (-1) 1 1 else a.

(** [dlp_update_threading_priority_order]: the packing flags of [*rntm] are kept. *)
Definition dlp_update_threading_priority_order (e : rt_env) (rntm : dlp_rntm_t)
    : prog dlp_rntm_t :=
  tl ← do_op GetTl;
  let r := dlp_tl_rntm tl in
  let a := mk_act (-1) (-1) (-1) in
  let a := if negb (ext_mt_ctr_var r)
           then act_from (num_threads r) (ic_ways r) (jc_ways r) a else a in
  a ← (if act_unset a then read_library a else mret a);
  a ← (if act_unset a then read_env e a else mret a);
  '(a, ext) ← read_omp e a;
  let a := act_nested e (act_default e a) in
  mret (mk_rntm (act_nt a) (act_ic a) (act_jc a) (pack_a rntm) (pack_b rntm) ext).

Definition dlp_rntm_init_from_global (e : rt_env) : prog dlp_rntm_t :=
  dlp_init_threading_once e ;;
  dlp_update_threading_priority_order e DLP_CLASSIC_RNTM_INITIALIZER.

Definition clamp_unset (x : Z) : Z := if x <=? 0 then -1 else x.

Definition dlp_thread_set_ways_library (e : rt_env) (jc ic : Z) : prog unit :=
  dlp_init_threading_once e ;;
  let packed_ways := dlp_pack_ways (to_i32 (clamp_unset ic)) (to_i32 (clamp_unset jc)) in
  do_op (StoreWays packed_ways) ;;
  do_op (StoreNt (-1)) ;;
  do_op (StoreExt false).

Definition dlp_thread_set_ways_local (e : rt_env) (jc ic : Z) : prog unit :=
  dlp_init_threading_once e ;;
  tl ← do_op GetTl;
  let r := dlp_tl_rntm tl in
  do_op (PutTl (mk_tl (mk_rntm (-1) (clamp_unset ic) (clamp_unset jc)
                         (pack_a r) (pack_b r) false) (dlp_init_tl_rntm tl))).

Definition dlp_thread_set_ways (e : rt_env) (jc ic : Z) : prog unit :=
  dlp_thread_set_ways_local e jc ic.

Definition dlp_thread_set_num_threads_library (e : rt_env) (n_threads : Z) : prog unit :=
  dlp_init_threading_once e ;;
  do_op (StoreNt (clamp_unset n_threads)) ;;
  do_op (StoreExt false).

Definition dlp_thread_set_num_threads_local (e : rt_env) (n_threads : Z) : prog unit :=
  dlp_init_threading_once e ;;
  tl ← do_op GetTl;
  let r := dlp_tl_rntm tl in
  do_op (PutTl (mk_tl (mk_rntm (clamp_unset n_threads) (ic_ways r) (jc_ways r)
                         (pack_a r) (pack_b r) false) (dlp_init_tl_rntm tl))).

Definition dlp_thread_set_num_threads (e : rt_env) (n_threads : Z) : prog unit :=
  dlp_thread_set_num_threads_local e n_threads.

Definition dlp_thread_get_ic_ways_active (e : rt_env) : prog Z :=
  r ← dlp_rntm_init_from_global e; mret (ic_ways r).
Definition dlp_thread_get_jc_ways_active (e : rt_env) : prog Z :=
  r ← dlp_rntm_init_from_global e; mret (jc_ways r).
Definition dlp_thread_get_num_threads_active (e : rt_env) : prog Z :=
  r ← dlp_rntm_init_from_global e; mret (num_threads r).

(** ** Interleaving of several threads *)

(** A pool of threads, each with its thread-local state and the rest of its
    program; one scheduled step performs one atomic access. *)
Definition pool (A : Type) := list (tl_state * prog A).

Definition sched_step {A} (c : lib_state * pool A) (i : nat) : lib_state * pool A :=
  match c.2 !! i with
  | Some (tl, Vis o k) =>
      let '(r, g', tl') := exec o c.1 tl in (g', <[i := (tl', k r)]> c.2)
  | _ => c
  end.

Definition run_sched {A} (sched : list nat) (c : lib_state * pool A) : lib_state * pool A :=
  fold_left sched_step sched c.

(** ** The packing round trip *)

Lemma pack_ways_value ic jc : to_u64 (dlp_pack_ways ic jc) = to_u32 jc * 2 ^ 32 + to_u32 ic.
Proof.
  unfold dlp_pack_ways. rewrite to_u64_i64.
  pose proof (to_u32_range ic). pose proof (to_u32_range jc).
  unfold to_u64 at 2. rewrite (Z.mod_small (Z.shiftl _ _)) by (rewrite Z.shiftl_mul_pow2; lia).
  rewrite lor_shift_add by lia. unfold to_u64. rewrite Z.mod_small; lia.
Qed.

Lemma to_i64_range z : int64_t (to_i64 z).
Proof. unfold int64_t, to_i64, to_u64. pose proof (Z.mod_pos_bound z (2 ^ 64)). zcase; lia. Qed.

Lemma unpack_pack ic jc :
  int32_t ic -> int32_t jc -> dlp_unpack_ways (dlp_pack_ways ic jc) = (ic, jc).
Proof.
  intros Hic Hjc. unfold dlp_unpack_ways. rewrite pack_ways_value.
  pose proof (to_u32_range ic). pose proof (to_u32_range jc).
  change 0xFFFFFFFF with (Z.ones 32). rewrite !Z.land_ones by lia.
  rewrite Z.shiftr_div_pow2 by lia. rewrite Z.div_add_l by done.
  rewrite (Z.div_small (to_u32 ic)), Z.add_0_r by done.
  rewrite Z.add_comm, Z.mod_add by done.
  rewrite !Z.mod_small by done. by rewrite !to_i32_u32.
Qed.

(** Packing loses nothing: for any two [int32_t] ways, unset (negative)
    values included, the packed value is a legal [int64_t] and unpacking it gives
    both ways back, so one atomic 8-byte store publishes the pair. *)
Theorem pack_ways_roundtrip (ic jc : Z) :
  int32_t ic -> int32_t jc ->
  int64_t (dlp_pack_ways ic jc) /\ dlp_unpack_ways (dlp_pack_ways ic jc) = (ic, jc).
Proof. intros. split; [apply to_i64_range|by apply unpack_pack]. Qed.

Lemma pack_ways_roundtrip_witness :
  dlp_pack_ways (-1) (-1) = -1 /\
  int64_t (dlp_pack_ways (-1) 8) /\ dlp_unpack_ways (dlp_pack_ways (-1) 8) = (-1, 8).
Proof.
  split; [reflexivity|]. apply (pack_ways_roundtrip (-1) 8); split; vm_compute; congruence.
Defined.

#[local] Opaque dlp_unpack_ways dlp_pack_ways.

(** ** The priority order *)

(** An abstract thread setting, and the first source that provides one. *)
Inductive setting := Ways (ic jc : Z) | Threads (nt : Z).

Definition source (nt ic jc : Z) : option setting :=
  if (0 <? jc) || (0 <? ic) then
    Some (Ways (if ic <=? 0 then 1 else ic) (if jc <=? 0 then 1 else jc))
  else if 0 <? nt then Some (Threads nt) else None.

Definition first_source (l : list (option setting)) : option setting :=
  foldr (fun s rest => match s with Some x => Some x | None => rest end) None l.

Definition unless (b : bool) (s : option setting) : option setting := if b then None else s.

Definition local_source (tl : tl_state) : option setting :=
  let r := dlp_tl_rntm tl in
  unless (ext_mt_ctr_var r) (source (num_threads r) (ic_ways r) (jc_ways r)).

Definition library_source (g : lib_state) : option setting :=
  let '(ic, jc) := dlp_unpack_ways (lib_packed_ways g) in
  unless (lib_ext_mt_ctr_var g) (source (lib_num_threads g) ic jc).

Definition env_source (e : rt_env) (g : lib_state) : option setting :=
  unless (lib_ext_mt_ctr_var g)
    (source (env_DLP_NUM_THREADS e) (env_DLP_IC_NT e) (env_DLP_JC_NT e)).

Definition omp_source (e : rt_env) : option setting :=
  unless (negb (DLP_ENABLE_OPENMP e)) (source (dlp_omp_get_max_threads e) (-1) (-1)).

Definition default_threads (e : rt_env) : Z :=
  if DLP_ENABLE_ST e then 1
  else if 0 <? dlp_get_num_cores e then dlp_get_num_cores e else 1.

(** The setting of a call, before and after the nested-region override. *)
Definition chosen (e : rt_env) (g : lib_state) (tl : tl_state) : setting :=
  default (Threads (default_threads e))
    (first_source [local_source tl; library_source g; env_source e g; omp_source e]).

Definition effective (e : rt_env) (g : lib_state) (tl : tl_state) : setting :=
  if DLP_ENABLE_OPENMP e && negb (dlp_omp_can_create_parallel_team e) then Ways 1 1
  else chosen e g tl.

(** OpenMP controls the threading when its source is the one used. *)
Definition omp_controls (e : rt_env) (g : lib_state) (tl : tl_state) : bool :=
  bool_decide (first_source [local_source tl; library_source g; env_source e g] = None /\
               omp_source e <> None).

Definition act_of (s : setting) : act :=
  match s with Ways ic jc => mk_act (-1) ic jc | Threads nt => mk_act nt (-1) (-1) end.

Definition rntm_of (s : setting) (ext : bool) (r : dlp_rntm_t) : dlp_rntm_t :=
  let a := act_of s in
  mk_rntm (act_nt a) (act_ic a) (act_jc a) (pack_a r) (pack_b r) ext.

Definition act_of_opt (s : option setting) : act :=
  match s with Some s => act_of s | None => mk_act (-1) (-1) (-1) end.

(** Settings with positive numbers, the only ones a source yields. *)
Definition setting_ok (s : setting) : Prop :=
  match s with Ways ic jc => 1 <= ic /\ 1 <= jc | Threads nt => 1 <= nt end.

#[export] Instance setting_eq_dec : EqDecision setting.
Proof. solve_decision. Defined.

Lemma source_ok nt ic jc s : source nt ic jc = Some s -> setting_ok s.
Proof. unfold source. repeat zcase; intros; simplify_eq/=; lia. Qed.

Lemma act_from_source nt ic jc :
  act_from nt ic jc (mk_act (-1) (-1) (-1)) = act_of_opt (source nt ic jc).
Proof. unfold act_from, source. repeat zcase; done. Qed.

Lemma act_unset_of s :
  (forall x, s = Some x -> setting_ok x) -> act_unset (act_of_opt s) = bool_decide (s = None).
Proof.
  intros Hs. destruct s as [s|]; [|done]. specialize (Hs s eq_refl).
  unfold act_unset. destruct s; simpl in *; repeat zcase; simpl; try done; lia.
Qed.

Lemma first_source_ok l x :
  (forall s y, s ∈ l -> s = Some y -> setting_ok y) -> first_source l = Some x -> setting_ok x.
Proof.
  induction l as [|s l IH]; intros Hl Hx; simpl in Hx; [done|].
  destruct s as [y|]; [simplify_eq; eapply Hl; [left|done]|].
  apply IH; [|done]. intros s' y' Hs'. apply Hl. by right.
Qed.

Lemma unless_ok b s x : unless b s = Some x -> s = Some x.
Proof. by destruct b. Qed.

Ltac source_ok_tac :=
  unfold local_source, library_source, env_source, omp_source in *;
  repeat case_match; simplify_eq/=;
  repeat match goal with H : unless _ _ = Some _ |- _ => apply unless_ok in H end;
  eauto using source_ok.

Lemma sources_ok e g tl s x :
  s ∈ [local_source tl; library_source g; env_source e g; omp_source e] ->
  s = Some x -> setting_ok x.
Proof.
  rewrite !elem_of_cons, elem_of_nil. intros [->|[->|[->|[->|[]]]]] Hx; source_ok_tac.
Qed.

Lemma run_bind {A B} (p : prog A) (f : A -> prog B) g tl :
  run (p ≫= f) g tl = let '(a, g', tl') := run p g tl in run (f a) g' tl'.
Proof.
  revert g tl. induction p as [a|R o k IH]; intros g tl; simpl; [done|].
  destruct (exec o g tl) as [[r g'] tl']. apply IH.
Qed.

Lemma run_ret {A} (a : A) g tl : run (mret a) g tl = (a, g, tl).
Proof. done. Qed.

Lemma run_do_op {R} (o : op R) g tl : run (do_op o) g tl = exec o g tl.
Proof. simpl. by destruct (exec o g tl) as [[? ?] ?]. Qed.

Lemma run_read_library g tl :
  run (read_library (act_of_opt None)) g tl = (act_of_opt (library_source g), g, tl).
Proof.
  unfold read_library, library_source. rewrite run_bind, run_do_op. simpl.
  destruct (lib_ext_mt_ctr_var g); simpl; destruct (dlp_unpack_ways (lib_packed_ways g)) as [ic jc];
    [reflexivity|]. simpl. by rewrite act_from_source.
Qed.

Lemma run_read_env e g tl :
  run (read_env e (act_of_opt None)) g tl = (act_of_opt (env_source e g), g, tl).
Proof.
  unfold read_env, env_source. rewrite run_bind, run_do_op. simpl.
  destruct (lib_ext_mt_ctr_var g); simpl; [done|]. by rewrite act_from_source.
Qed.

Definition set_tl_ext (tl : tl_state) : tl_state :=
  let r := dlp_tl_rntm tl in
  mk_tl (mk_rntm (num_threads r) (ic_ways r) (jc_ways r) (pack_a r) (pack_b r) true)
    (dlp_init_tl_rntm tl).
Definition set_lib_ext (g : lib_state) : lib_state :=
  mk_lib (lib_num_threads g) (lib_packed_ways g) true (once_init g).

Lemma run_read_omp e s g tl :
  (forall x, s = Some x -> setting_ok x) ->
  run (read_omp e (act_of_opt s)) g tl =
  if bool_decide (s = None /\ omp_source e <> None) then
    (act_of_opt (omp_source e), true, set_lib_ext g, set_tl_ext tl)
  else (act_of_opt s, false, g, tl).
Proof.
  intros Hs. unfold read_omp. rewrite act_unset_of by done. unfold omp_source, source.
  destruct s as [s|].
  { rewrite !bool_decide_eq_false_2 by naive_solver. by rewrite andb_false_r. }
  rewrite (bool_decide_eq_true_2 (None = None)), andb_true_r by done.
  destruct (DLP_ENABLE_OPENMP e); [|by rewrite bool_decide_eq_false_2 by (simpl; tauto)].
  destruct (0 <? dlp_omp_get_max_threads e).
  - by rewrite bool_decide_eq_true_2 by naive_solver.
  - by rewrite bool_decide_eq_false_2 by (simpl; tauto).
Qed.

Lemma act_default_nested_of e s ext r :
  (forall x, s = Some x -> setting_ok x) ->
  let a := act_nested e (act_default e (act_of_opt s)) in
  mk_rntm (act_nt a) (act_ic a) (act_jc a) (pack_a r) (pack_b r) ext =
  rntm_of (if DLP_ENABLE_OPENMP e && negb (dlp_omp_can_create_parallel_team e)
           then Ways 1 1 else default (Threads (default_threads e)) s) ext r.
Proof.
  intros Hs. unfold act_default. rewrite act_unset_of by done.
  set (a := if bool_decide (s = None) then _ else _).
  assert (a = act_of (default (Threads (default_threads e)) s)) as ->.
  { subst a. unfold default_threads. by destruct s. }
  assert (setting_ok (default (Threads (default_threads e)) s)) as Hok.
  { destruct s as [s|]; [by apply Hs|]. simpl. unfold default_threads.
    destruct (DLP_ENABLE_ST e); [lia|]. zcase; lia. }
  unfold act_nested, rntm_of. destruct (DLP_ENABLE_OPENMP e); simpl; [|done].
  set (x := default _ s) in *. clearbody x.
  assert ((0 <? act_nt (act_of x)) || (0 <? act_ic (act_of x)) || (0 <? act_jc (act_of x)) = true)
    as ->.
  { destruct x; simpl in *; repeat zcase; simpl; lia || done. }
  simpl. by destruct (dlp_omp_can_create_parallel_team e).
Qed.

Lemma update_priority_run (e : rt_env) (r : dlp_rntm_t) (g : lib_state) (tl : tl_state) :
  run (dlp_update_threading_priority_order e r) g tl =
    (rntm_of (effective e g tl) (omp_controls e g tl) r,
     if omp_controls e g tl then set_lib_ext g else g,
     if omp_controls e g tl then set_tl_ext tl else tl).
Proof.
  unfold dlp_update_threading_priority_order. rewrite run_bind, run_do_op. cbn [exec].
  set (a0 := if negb _ then _ else _).
  assert (a0 = act_of_opt (local_source tl)) as ->.
  { subst a0. unfold local_source. destruct (ext_mt_ctr_var _); simpl; [done|].
    apply act_from_source. }
  assert (forall s x, s ∈ [local_source tl; library_source g; env_source e g; omp_source e] ->
    s = Some x -> setting_ok x) as Hok by (intros; by eapply sources_ok).
  rewrite run_bind.
  set (s1 := first_source [local_source tl; library_source g]).
  assert (run (if act_unset (act_of_opt (local_source tl))
     then read_library (act_of_opt (local_source tl)) else mret (act_of_opt (local_source tl))) g tl
     = (act_of_opt s1, g, tl)) as ->.
  { rewrite act_unset_of by (intros; eapply Hok; [left|done]).
    subst s1. destruct (local_source tl) as [x|]; [by rewrite bool_decide_eq_false_2|].
    rewrite bool_decide_eq_true_2, run_read_library by done. by destruct (library_source g). }
  cbv beta. rewrite run_bind.
  set (s2 := first_source [local_source tl; library_source g; env_source e g]).
  assert (run (if act_unset (act_of_opt s1) then read_env e (act_of_opt s1)
     else mret (act_of_opt s1)) g tl = (act_of_opt s2, g, tl)) as ->.
  { rewrite act_unset_of by (intros; eapply first_source_ok; [|done]; intros; eapply Hok; [|done];
      set_solver).
    replace s2 with (match s1 with Some x => Some x | None => env_source e g end)
      by (subst s1 s2; simpl; destruct (local_source tl), (library_source g), (env_source e g); done).
    destruct s1 as [x|]; [by rewrite bool_decide_eq_false_2|].
    by rewrite bool_decide_eq_true_2, run_read_env by done. }
  cbv beta. rewrite run_bind.
  rewrite run_read_omp by (intros; eapply first_source_ok; [|done]; intros; eapply Hok; [|done];
      set_solver).
  unfold omp_controls, effective, chosen. fold s2.
  set (s3 := first_source [_; _; _; _]).
  assert (forall x, s3 = Some x -> setting_ok x) as Hs3 by
    (intros; eapply first_source_ok; [|done]; intros; by eapply Hok).
  assert (s3 = match s2 with Some x => Some x | None => omp_source e end) as Es3.
  { subst s2 s3. simpl. destruct (local_source tl), (library_source g), (env_source e g); try done.
    by destruct (omp_source e). }
  clearbody s2 s3. clear s1 Hok.
  case_bool_decide as Hc.
  - destruct Hc as [-> Hc]. rewrite Es3 in Hs3 |- *.
    rewrite run_ret. by rewrite (act_default_nested_of e (omp_source e) true r Hs3).
  - assert (s3 = s2) as ->.
    { rewrite Es3. destruct s2; [done|]. destruct (omp_source e); [|done]. by destruct Hc. }
    rewrite run_ret. by rewrite (act_default_nested_of e s2 false r Hs3).
Qed.

(** C29. The whole priority order at once: a call without interference gets the
    setting of the first source that provides one, among thread-local settings,
    library settings, DLP environment variables and OpenMP, with the core count
    as the default, unless it is made inside a parallel region that cannot
    spawn another team, where it always gets one thread.  It changes no state,
    except that control passes to OpenMP (both flags) exactly when OpenMP is the
    source used. *)
Theorem update_priority_order_spec (e : rt_env) (r : dlp_rntm_t) (g : lib_state) (tl : tl_state) :
  run (dlp_update_threading_priority_order e r) g tl =
    (rntm_of (effective e g tl) (omp_controls e g tl) r,
     if omp_controls e g tl then set_lib_ext g else g,
     if omp_controls e g tl then set_tl_ext tl else tl).
Proof. apply update_priority_run. Qed.

(** ** What callers obtain *)

Lemma effective_ok e g tl : setting_ok (effective e g tl).
Proof.
  unfold effective, chosen. destruct (_ && _); [done|].
  destruct (first_source _) as [x|] eqn:E; simpl.
  - eapply first_source_ok; [|exact E]. intros. by eapply sources_ok.
  - unfold default_threads. destruct (DLP_ENABLE_ST e); [lia|]. zcase; lia.
Qed.

Lemma run_init_from_global e g tl :
  exists g1 tl1, run (dlp_init_threading_once e) g tl = (tt, g1, tl1) /\
    run (dlp_rntm_init_from_global e) g tl =
      run (dlp_update_threading_priority_order e DLP_CLASSIC_RNTM_INITIALIZER) g1 tl1.
Proof.
  unfold dlp_rntm_init_from_global. rewrite run_bind.
  destruct (run (dlp_init_threading_once e) g tl) as [[[] g1] tl1]. eauto.
Qed.

(** Every GEMM gets a usable configuration, from any state of the library
    and of the thread, in any build and under any environment: either a positive
    thread count with both ways unset, or both ways positive with the count
    unset, packing off; inside a parallel region that cannot spawn a team it is
    one by one.  In particular the thread count is never zero, which is what the
    batch heuristics need. *)
Theorem rntm_init_well_formed (e : rt_env) (g : lib_state) (tl : tl_state) :
  let '(r, _, _) := run (dlp_rntm_init_from_global e) g tl in
  ((1 <= num_threads r /\ ic_ways r = -1 /\ jc_ways r = -1) \/
   (num_threads r = -1 /\ 1 <= ic_ways r /\ 1 <= jc_ways r)) /\
  pack_a r = false /\ pack_b r = false /\
  (DLP_ENABLE_OPENMP e = true -> dlp_omp_can_create_parallel_team e = false ->
   ic_ways r = 1 /\ jc_ways r = 1).
Proof.
  destruct (run_init_from_global e g tl) as (g1 & tl1 & _ & ->).
  rewrite update_priority_run. pose proof (effective_ok e g1 tl1) as Hok.
  split_and!; try done.
  - unfold rntm_of. destruct (effective e g1 tl1); simpl in *; lia.
  - intros Ho Hc. unfold rntm_of, effective. by rewrite Ho, Hc.
Qed.

Lemma run_once_done e g tl :
  once_init g = true -> dlp_init_tl_rntm tl = false ->
  run (dlp_init_threading_once e) g tl = (tt, g, tl).
Proof.
  intros Hg Ht. unfold dlp_init_threading_once. destruct (dlp_init_threading e) as [[nt w] ext].
  rewrite run_bind, run_do_op. simpl. rewrite Hg. cbn [run exec]. by rewrite Ht.
Qed.

(** After the initialization the globals are those of [dlp_init_threading] or
    of an earlier call, and the thread inherits the control flag once. *)
Lemma run_init_once e g tl :
  exists g1, run (dlp_init_threading_once e) g tl =
      (tt, g1, if dlp_init_tl_rntm tl then
         mk_tl (let r := dlp_tl_rntm tl in mk_rntm (num_threads r) (ic_ways r) (jc_ways r)
                  (pack_a r) (pack_b r) (lib_ext_mt_ctr_var g1)) false else tl) /\
    once_init g1 = true /\ (once_init g = true -> g1 = g).
Proof.
  unfold dlp_init_threading_once. destruct (dlp_init_threading e) as [[nt w] ext].
  rewrite run_bind, run_do_op. cbn [exec].
  exists (if once_init g then g else mk_lib nt w ext true). split_and!.
  - simpl. by destruct (dlp_init_tl_rntm tl).
  - destruct (once_init g) eqn:E; [exact E|reflexivity].
  - by intros ->.
Qed.

Definition nested (e : rt_env) : bool :=
  DLP_ENABLE_OPENMP e && negb (dlp_omp_can_create_parallel_team e).

(** The setting a query made next obtains. *)
Definition active (e : rt_env) (g : lib_state) (tl : tl_state) : dlp_rntm_t :=
  (run (dlp_rntm_init_from_global e) g tl).1.1.

Definition as_set (e : rt_env) (s : setting) (r : dlp_rntm_t) : Prop :=
  let a := act_of (if nested e then Ways 1 1 else s) in
  num_threads r = act_nt a /\ ic_ways r = act_ic a /\ jc_ways r = act_jc a.

Lemma active_local e g tl s :
  once_init g = true -> dlp_init_tl_rntm tl = false -> local_source tl = Some s ->
  as_set e s (active e g tl).
Proof.
  intros Hg Ht Hs. unfold active, dlp_rntm_init_from_global.
  rewrite run_bind, run_once_done by done. rewrite update_priority_run. simpl.
  unfold as_set, rntm_of, effective, chosen, nested. simpl. rewrite Hs. done.
Qed.

Lemma active_fresh e g s :
  once_init g = true -> library_source g = Some s -> as_set e s (active e g tl_init).
Proof.
  intros Hg Hs. unfold active, dlp_rntm_init_from_global. rewrite run_bind.
  destruct (run_init_once e g tl_init) as (g1 & -> & _ & Hg1).
  rewrite Hg1, update_priority_run by done. simpl.
  unfold as_set, rntm_of, effective, chosen, nested. simpl. rewrite Hs.
  unfold local_source. simpl. by destruct (lib_ext_mt_ctr_var g).
Qed.

Lemma source_clamp ic jc nt :
  0 < ic \/ 0 < jc ->
  source nt (clamp_unset ic) (clamp_unset jc) = Some (Ways (Z.max 1 ic) (Z.max 1 jc)).
Proof.
  intros H. unfold source, clamp_unset. destruct (Z.leb_spec ic 0), (Z.leb_spec jc 0); [lia|..].
  all: repeat (zcase; simpl); try lia; repeat f_equal; lia.
Qed.

Lemma clamp_int32 x : x < 2 ^ 31 -> int32_t (clamp_unset x).
Proof. unfold int32_t, clamp_unset. zcase; lia. Qed.

(** Settings take effect: right after [set_ways_local] the calling thread
    gets exactly the ways it set (at least one in each dimension), whatever the
    library, the environment and OpenMP say, and a later [set_num_threads_local]
    does not override them; after [set_ways_library] every thread that has set
    nothing itself gets those ways.  Inside a parallel region that cannot spawn
    a team the answer is one by one. *)
Theorem set_ways_effective (e : rt_env) (g : lib_state) (tl : tl_state) (jc ic nt : Z) :
  0 < ic \/ 0 < jc -> ic < 2 ^ 31 -> jc < 2 ^ 31 ->
  let w := Ways (Z.max 1 ic) (Z.max 1 jc) in
  (let '(_, g', tl') := run (dlp_thread_set_ways_local e jc ic) g tl in
   as_set e w (active e g' tl') /\
   let '(_, g'', tl'') := run (dlp_thread_set_num_threads_local e nt) g' tl' in
   as_set e w (active e g'' tl'')) /\
  (let '(_, g', _) := run (dlp_thread_set_ways_library e jc ic) g tl in
   as_set e w (active e g' tl_init)).
Proof.
  intros Hpos Hic Hjc w. split.
  - unfold dlp_thread_set_ways_local. rewrite run_bind.
    destruct (run_init_once e g tl) as (g1 & -> & Hg1 & _).
    set (tl1 := if dlp_init_tl_rntm tl then _ else tl).
    assert (dlp_init_tl_rntm tl1 = false) as Ht1.
    { subst tl1. by destruct (dlp_init_tl_rntm tl) eqn:E. }
    clearbody tl1. cbn. split.
    { apply active_local; [done..|]. unfold local_source. simpl. by apply source_clamp. }
    unfold dlp_thread_set_num_threads_local. rewrite run_bind, run_once_done by done. cbn.
    apply active_local; [done..|]. unfold local_source. simpl. by apply source_clamp.
  - unfold dlp_thread_set_ways_library. rewrite run_bind.
    destruct (run_init_once e g tl) as (g1 & -> & Hg1 & _). cbn.
    apply active_fresh; [done|]. unfold library_source. cbn [lib_packed_ways].
    rewrite !to_i32_id, unpack_pack by (by apply clamp_int32). cbn [unless lib_ext_mt_ctr_var].
    by apply source_clamp.
Qed.

(** A build with OpenMP, nothing set in the environment, 16 OpenMP threads. *)
Definition example_env : rt_env := mk_env (-1) (-1) (-1) true false true 16 32.

Lemma set_ways_effective_witness :
  let '(_, g', _) := run (dlp_thread_set_ways_library example_env 4 2) lib_init tl_init in
  as_set example_env (Ways 2 4) (active example_env g' tl_init).
Proof.
  exact (proj2 (set_ways_effective example_env lib_init tl_init 4 2 0
    ltac:(lia) ltac:(lia) ltac:(lia))).
Defined.

(** ** Concurrent settings *)

(** The stores of [dlp_thread_set_ways_library], after its initialization. *)
Definition set_ways_stores (jc ic : Z) : prog unit :=
  do_op (StoreWays (dlp_pack_ways (to_i32 (clamp_unset ic)) (to_i32 (clamp_unset jc)))) ;;
  do_op (StoreNt (-1)) ;;
  do_op (StoreExt false).

(** The setting a call of [dlp_thread_set_ways_library] makes; two numbers that are not
    positive unset the ways. *)
Definition new_setting (jc ic : Z) : option setting :=
  if (0 <? jc) || (0 <? ic) then Some (Ways (Z.max 1 ic) (Z.max 1 jc)) else None.

(** How far the writer is: [stage k] is the library after [k] of its stores. *)
Definition stage (g : lib_state) (packed : Z) (k : nat) : lib_state :=
  match k with
  | O => g
  | S O => mk_lib (lib_num_threads g) packed (lib_ext_mt_ctr_var g) (once_init g)
  | S (S O) => mk_lib (-1) packed (lib_ext_mt_ctr_var g) (once_init g)
  | _ => mk_lib (-1) packed false (once_init g)
  end.

Section atomicity.
Context (g : lib_state) (jc ic : Z) (a0 : act) (tlr tlw : tl_state).
Hypothesis Hic : ic < 2 ^ 31.
Hypothesis Hjc : jc < 2 ^ 31.

Local Abbreviation packed := (dlp_pack_ways (to_i32 (clamp_unset ic)) (to_i32 (clamp_unset jc))).

Definition writer_rest (k : nat) : prog act :=
  match k with
  | O => set_ways_stores jc ic ;; mret a0
  | S O => (do_op (StoreNt (-1)) ;; do_op (StoreExt false)) ;; mret a0
  | S (S O) => do_op (StoreExt false) ;; mret a0
  | _ => mret a0
  end.

Definition after_ways (lib_nt : Z) (packed_ways : Z) : prog act :=
  let '(lib_ic, lib_jc) := dlp_unpack_ways packed_ways in
  mret (act_from lib_nt lib_ic lib_jc (mk_act (-1) (-1) (-1))).

(** What the ways that are stored give a reader that loaded [nt] threads. *)
Definition new_value (nt : Z) : act := act_of_opt (source nt (clamp_unset ic) (clamp_unset jc)).

(** Where the reader can be when the writer is at stage [k], and what it has
    seen. *)
Inductive reader_at (k : nat) : prog act -> Prop :=
  | reader_start : reader_at k (read_library (mk_act (-1) (-1) (-1)))
  | reader_ext (Hext : lib_ext_mt_ctr_var g = false \/ k = 3%nat) :
      reader_at k (lib_nt ← do_op LoadNt; packed_ways ← do_op LoadWays;
                   after_ways lib_nt packed_ways)
  | reader_nt nt (Hext : lib_ext_mt_ctr_var g = false \/ k = 3%nat)
      (Hnt : (nt = lib_num_threads g /\ lib_ext_mt_ctr_var g = false) \/
             (nt = -1 /\ (2 <= k)%nat)) :
      reader_at k (packed_ways ← do_op LoadWays; after_ways nt packed_ways)
  | reader_done a (Ha : a = act_of_opt (library_source g) \/ a = new_value (-1) \/
                        lib_ext_mt_ctr_var g = false /\ a = new_value (lib_num_threads g)) :
      reader_at k (mret a).

Definition inv (c : lib_state * pool act) : Prop :=
  exists k p, (k <= 3)%nat /\ reader_at k p /\
    c = (stage g packed k, [(tlr, p); (tlw, writer_rest k)]).

Lemma after_ways_new nt : after_ways nt packed = mret (new_value nt).
Proof using Hic Hjc.
  unfold after_ways. rewrite !to_i32_id, unpack_pack by (by apply clamp_int32).
  by rewrite act_from_source.
Qed.

Lemma after_ways_old :
  lib_ext_mt_ctr_var g = false ->
  after_ways (lib_num_threads g) (lib_packed_ways g) = mret (act_of_opt (library_source g)).
Proof.
  intros He. unfold after_ways, library_source. destruct (dlp_unpack_ways _).
  rewrite He. simpl. by rewrite act_from_source.
Qed.

Lemma reader_mono k k' p : (k <= k' <= 3)%nat -> reader_at k p -> reader_at k' p.
Proof.
  intros Hk Hp. destruct Hp; constructor; try done; [|..].
  - destruct Hext as [|]; [by left|right; lia].
  - destruct Hext as [|]; [by left|right; lia].
  - destruct Hnt as [|[? ?]]; [by left|right; split; [done|lia]].
Qed.

Lemma inv_step c i : inv c -> inv (sched_step c i).
Proof using Hic Hjc.
  intros (k & p & Hk & Hp & ->). destruct i as [|[|i]]; [| |by exists k, p].
  - exists k. destruct Hp as [|Hext|nt Hext Hnt|a Ha].
    + destruct (lib_ext_mt_ctr_var (stage g packed k)) eqn:E.
      * exists (mret (mk_act (-1) (-1) (-1))). split; [done|]. split.
        { constructor. left. unfold library_source. destruct (dlp_unpack_ways _).
          destruct k as [|[|[|k]]]; simpl in E; rewrite ?E; done. }
        unfold sched_step. simpl. by rewrite E.
      * eexists. split; [done|]. split; [apply reader_ext|].
        { destruct k as [|[|[|k]]]; simpl in E; [by left..|right; lia]. }
        unfold sched_step. simpl. by rewrite E.
    + eexists. split; [done|]. split; [apply (reader_nt k (lib_num_threads (stage g packed k)))|].
      { done. }
      { destruct k as [|[|[|k]]]; simpl; [left|left|right; split; [done|lia]..];
          by destruct Hext. }
      done.
    + exists (after_ways nt (lib_packed_ways (stage g packed k))). split; [done|]. split; [|done].
      destruct k as [|k].
      * destruct Hnt as [[-> He]|[_ ?]]; [|lia]. simpl.
        rewrite after_ways_old by done. constructor. by left.
      * assert (lib_packed_ways (stage g packed (S k)) = packed) as ->
          by (by destruct k as [|[|k]]).
        rewrite after_ways_new. constructor. right. destruct Hnt as [[-> He]|[-> _]]; [by right|by left].
    + exists (mret a). split; [done|]. split; [by constructor|done].
  - destruct (decide (k = 3%nat)) as [->|Hne].
    + exists 3%nat, p. by split_and!.
    + exists (S k), p. split; [lia|]. split; [by apply (reader_mono k); [lia|]|].
      by destruct k as [|[|[|k]]]; [..|lia].
Qed.

Lemma inv_run sched c : inv c -> inv (run_sched sched c).
Proof using Hic Hjc.
  revert c. induction sched as [|i sched IH]; intros c Hc; [done|].
  apply IH. by apply inv_step.
Qed.
End atomicity.

Lemma new_value_cases jc ic nt :
  new_value jc ic nt = act_of_opt (new_setting jc ic) \/ ic <= 0 /\ jc <= 0 /\ new_value jc ic nt = act_of (Threads nt).
Proof.
  unfold new_value, new_setting. destruct (Z.ltb_spec 0 jc), (Z.ltb_spec 0 ic); cbn [orb];
    try (left; rewrite source_clamp by lia; done).
  unfold source, clamp_unset. rewrite !(proj2 (Z.leb_le _ 0)) by lia. cbn.
  destruct (0 <? nt); [right|left]; done.
Qed.

(** C33. A concurrent [set_ways_library] that sets the ways looks atomic to the
    library-level read of a GEMM, although it is three separate stores and the read is
    three separate loads: in every interleaving a finished read returned either the old
    library setting or the new ways, never a mixture.  When the call unsets both ways
    there is one more outcome, and no other: the old number of threads, which neither the
    old setting (if it was ways) nor the new one (nothing) gives; it does occur
    ([unset_ways_read_mixed]). *)
Theorem set_ways_read_atomic (g : lib_state) (jc ic : Z) (a0 a : act) (tlr tlw tl' : tl_state)
    (sched : list nat) (g' : lib_state) (writer : tl_state * prog act) :
  ic < 2 ^ 31 -> jc < 2 ^ 31 ->
  run_sched sched
    (g, [(tlr, read_library (mk_act (-1) (-1) (-1))); (tlw, set_ways_stores jc ic ;; mret a0)])
    = (g', [(tl', mret a); writer]) ->
  a = act_of_opt (library_source g) \/ a = act_of_opt (new_setting jc ic) \/
  ic <= 0 /\ jc <= 0 /\ lib_ext_mt_ctr_var g = false /\ a = act_of (Threads (lib_num_threads g)).
Proof.
  intros Hic Hjc Hrun.
  assert (inv g jc ic a0 tlr tlw (g', [(tl', mret a); writer])) as (k & p & _ & Hp & E).
  { rewrite <- Hrun. apply inv_run; [done..|]. exists O, (read_library (mk_act (-1) (-1) (-1))).
    split; [lia|]. split; [constructor|done]. }
  injection E as _ -> <- _. remember (mret a) as q eqn:Eq.
  destruct Hp as [| | |a' Ha]; [discriminate..|]. injection Eq as ->.
  destruct Ha as [->|[->|[He ->]]]; [by left|..]; right.
  - destruct (new_value_cases jc ic (-1)) as [->|(Hi & Hj & _)]; [by left|left].
    unfold new_value, new_setting, source, clamp_unset.
    by rewrite !(proj2 (Z.leb_le _ 0)), !(proj2 (Z.ltb_ge 0 _)) by lia.
  - destruct (new_value_cases jc ic (lib_num_threads g)) as [->|(Hi & Hj & ->)]; [by left|by right].
Qed.

Lemma set_ways_read_atomic_witness :
  let g := mk_lib 8 (-1) false true in
  let new := act_of (Ways 2 4) in
  run_sched [0; 1; 0; 1; 0; 1]%nat
    (g, [(tl_init, read_library (mk_act (-1) (-1) (-1)));
         (tl_init, set_ways_stores 4 2 ;; mret (mk_act 0 0 0))])
    = (mk_lib (-1) (dlp_pack_ways 2 4) false true,
       [(tl_init, mret new); (tl_init, mret (mk_act 0 0 0))]) /\
  (new = act_of_opt (library_source g) \/ new = act_of (Ways 2 4) \/
   2 <= 0 /\ 4 <= 0 /\ lib_ext_mt_ctr_var g = false /\ new = act_of (Threads 8)).
Proof.
  split; [vm_compute; reflexivity|].
  apply (set_ways_read_atomic (mk_lib 8 (-1) false true) 4 2 (mk_act 0 0 0) (act_of (Ways 2 4))
    tl_init tl_init tl_init [0; 1; 0; 1; 0; 1]%nat
    (mk_lib (-1) (dlp_pack_ways 2 4) false true) (tl_init, mret (mk_act 0 0 0)));
    [lia|lia|vm_compute; reflexivity].
Defined.

Lemma clamp_pos x : 1 <= x -> clamp_unset x = x.
Proof. unfold clamp_unset. intros. zcase; lia. Qed.

(** Unsetting the ways is not atomic: a read that overlaps it can return the old
    thread count, which neither the old setting (the ways) nor the new one
    (nothing) would give. *)
Example unset_ways_read_mixed :
  let g := mk_lib 8 (dlp_pack_ways 2 2) false true in
  exists g' w, run_sched [0; 0; 1; 1; 1; 0]%nat
    (g, [(tl_init, read_library (mk_act (-1) (-1) (-1)));
         (tl_init, set_ways_stores (-1) (-1) ;; mret (mk_act 0 0 0))])
    = (g', [(tl_init, mret (act_of (Threads 8))); w]) /\
  library_source g = Some (Ways 2 2) /\ library_source g' = None.
Proof.
  exists (mk_lib (-1) (-1) false true), (tl_init, mret (mk_act 0 0 0)).
  split; [vm_compute; reflexivity|split; vm_compute; reflexivity].
Qed.

(** Once OpenMP is in control only its setting counts for a fresh thread. *)
Lemma active_fresh_omp e g :
  once_init g = true -> lib_ext_mt_ctr_var g = true -> DLP_ENABLE_OPENMP e = true ->
  dlp_omp_can_create_parallel_team e = true -> 0 < dlp_omp_get_max_threads e ->
  as_set e (Threads (dlp_omp_get_max_threads e)) (active e g tl_init).
Proof.
  intros Hg He Ho Hc Hmax. unfold active, dlp_rntm_init_from_global. rewrite run_bind.
  destruct (run_init_once e g tl_init) as (g1 & -> & _ & Hg1).
  rewrite Hg1, update_priority_run by done. simpl.
  unfold as_set, rntm_of, effective, chosen, nested. simpl. rewrite Ho, Hc. simpl.
  unfold local_source, library_source, env_source, omp_source. simpl. rewrite He.
  destruct (dlp_unpack_ways _). simpl. rewrite Ho. unfold source. simpl.
  rewrite (proj2 (Z.ltb_lt 0 (dlp_omp_get_max_threads e)) Hmax). done.
Qed.

Lemma init_threading_omp e :
  DLP_ENABLE_OPENMP e = true -> dlp_omp_can_create_parallel_team e = true ->
  env_DLP_IC_NT e <= 0 -> env_DLP_JC_NT e <= 0 -> env_DLP_NUM_THREADS e <= 0 ->
  dlp_init_threading e =
    (dlp_omp_get_max_threads e, dlp_pack_ways (to_i32 (-1)) (to_i32 (-1)), true).
Proof.
  intros Ho Hc Hic Hjc Hnt. unfold dlp_init_threading.
  rewrite Ho, Hc, !(proj2 (Z.ltb_ge 0 _)) by lia. done.
Qed.

(** C40. A library setting can be lost for good.  Starting from the initial
    state, one thread runs a GEMM while OpenMP is in control and another sets the
    library ways to [ic x jc]; if the store that hands control to OpenMP comes
    last, the ways stay stored but every later GEMM of a thread without local
    settings ignores them and uses the OpenMP thread count, although both calls
    have returned.  Either sequential order would have given the ways. *)
Theorem set_ways_library_lost_update (e : rt_env) (ic jc : Z) (r : dlp_rntm_t) :
  DLP_ENABLE_OPENMP e = true -> dlp_omp_can_create_parallel_team e = true ->
  0 < dlp_omp_get_max_threads e ->
  env_DLP_IC_NT e <= 0 -> env_DLP_JC_NT e <= 0 -> env_DLP_NUM_THREADS e <= 0 ->
  1 <= ic < 2 ^ 31 -> 1 <= jc < 2 ^ 31 ->
  exists sched g' tl1 tl2 r1,
    run_sched sched (lib_init,
      [(tl_init, dlp_rntm_init_from_global e);
       (tl_init, dlp_thread_set_ways_library e jc ic ;; mret r)]) =
      (g', [(tl1, mret r1); (tl2, mret r)]) /\
    dlp_unpack_ways (lib_packed_ways g') = (ic, jc) /\
    as_set e (Threads (dlp_omp_get_max_threads e)) (active e g' tl_init).
Proof.
  intros Ho Hc Hmax Hic Hjc Hnt Hi Hj.
  pose proof (init_threading_omp e Ho Hc Hic Hjc Hnt) as Hinit.
  exists (replicate 9 0%nat ++ replicate 7 1%nat ++ [0%nat]).
  unfold dlp_thread_set_ways_library, dlp_rntm_init_from_global, dlp_init_threading_once.
  rewrite Hinit. unfold dlp_update_threading_priority_order, read_omp.
  rewrite Ho, (proj2 (Z.ltb_lt 0 (dlp_omp_get_max_threads e)) Hmax).
  lazy -[to_i32 dlp_pack_ways dlp_unpack_ways clamp_unset act_nested act_default act_from
    dlp_omp_get_max_threads as_set active].
  eexists _, _, _, _. split; [reflexivity|]. cbn [lib_packed_ways]. split.
  - rewrite !clamp_pos, !to_i32_id by (unfold int32_t; lia). apply unpack_pack; unfold int32_t; lia.
  - by apply active_fresh_omp.
Qed.

Lemma set_ways_library_lost_update_witness :
  exists sched g' tl1 tl2 r1,
    run_sched sched (lib_init,
      [(tl_init, dlp_rntm_init_from_global example_env);
       (tl_init, dlp_thread_set_ways_library example_env 4 2 ;; mret DLP_CLASSIC_RNTM_INITIALIZER)]) =
      (g', [(tl1, mret r1); (tl2, mret DLP_CLASSIC_RNTM_INITIALIZER)]) /\
    dlp_unpack_ways (lib_packed_ways g') = (2, 4) /\
    as_set example_env (Threads 16) (active example_env g' tl_init).
Proof.
  apply (set_ways_library_lost_update example_env 2 4 DLP_CLASSIC_RNTM_INITIALIZER);
    first [reflexivity | simpl; lia].
Defined.
