(* ===== verification/ThreadDecor.v ===== *)
(** * Thread decorators
    (frame/threading/dlp_gemm_thread_decor_openmp.c, part three)

    The functions that stand between an API call and the row-major drivers: they
    decide the threads, reconcile the packing tags, lay out the communicators and
    open the parallel region.  A decorator's result is the list of driver calls
    it makes, each with what the thread passes, plus the communicators, the
    runtime record and the tags it leaves.  The drivers themselves
    ([dlp_gemm_rowvar_*]) are not called by the model.

    What the model takes from outside: the size of the team OpenMP delivers for a
    requested number of threads, the outcome of [malloc], and for the racy reads
    of a shared tag, which store each read sees. *)
From S2P Require Import Prelude DlpTypes ThreadUtils PrimeFactors ThreadHeur.
From S2P Require Import PostOpTypes PostOps GetThreading Config.

#[local] Open Scope Z_scope.

(** ** Choice of the tag of B for the weight-only operations *)

Definition dlp_mtag_b_pick (cfg : config_state) (m n k ic_ways jc_ways : Z)
    (mc_op_type : AOCL_DLP_OPERATION_TYPE) (post_op_list : option (list dlp_gemm_post_op))
    : option AOCL_DLP_MEMORY_TAG :=
  MC ← dlp_gemm_get_block_size_MC_global_cntx cfg (op_index mc_op_type);
  m_ic ← cdiv_opt m ic_ways;
  n_jc ← cdiv_opt n jc_ways;
  let mtag :=
    if m_ic <? MC then UNPACKED
    else
      let m_ic_panels := 4 in
      let n_jc_min := 1024 in
      let n_jc_max_mul := 10 in
      let k_shallow := 8 in
      let fits_unpacked :=
        (m_ic <=? m_ic_panels * MC) && (n_jc_min <=? n_jc)
        && (n_jc <=? n_jc_max_mul * n_jc_min) && (k <=? k_shallow) in
      if fits_unpacked then UNPACKED else PACK_KC in
  Some (if bool_decide (mtag = UNPACKED) && dlp_gemm_post_op_list_has_jit_only_op post_op_list
        then PACK_KC else mtag).

(** ** Reconciliation of the packing flags and tags *)

(** [DLP_GEN_RECONCILE_PACKAB]: the functions of the non-f32 variants. *)
Definition reconcile_packab_noop (mtag_a mtag_b : AOCL_DLP_MEMORY_TAG) (rntm_g : dlp_rntm_t)
    : option (AOCL_DLP_MEMORY_TAG * AOCL_DLP_MEMORY_TAG * dlp_rntm_t) :=
  Some (mtag_a, mtag_b, rntm_g).

Definition dlp_gemm_f32f32f32of32_reconcile_packab (pf : platform) (cfg : config_state)
    (m n k ic_ways jc_ways : Z) (mtag_a mtag_b : AOCL_DLP_MEMORY_TAG)
    (rntm_g : dlp_rntm_t) (lcntx : dlp_gemm_cntx_t)
    : option (AOCL_DLP_MEMORY_TAG * AOCL_DLP_MEMORY_TAG * dlp_rntm_t) :=
  m_ic ← cdiv_opt m ic_ways;
  n_jc ← cdiv_opt n jc_ways;
  let rntm_g := if native_sup_pack pf lcntx m n k m_ic n_jc
                then set_packs true true rntm_g else rntm_g in
  let MR := MR (blksz lcntx) in
  MR_og_f32 ← dlp_gemm_get_block_size_MR_global_cntx cfg (op_index F32F32F32OF32);
  let rntm_g := if negb (MR =? MR_og_f32) then set_packs false (pack_b rntm_g) rntm_g
                else rntm_g in
  let mtag_a :=
    if pack_a rntm_g && bool_decide (mtag_a = UNPACKED) then PACK
    else if negb (pack_a rntm_g) && negb (bool_decide (mtag_a = UNPACKED))
            && negb (bool_decide (mtag_a = REORDERED)) then UNPACKED
    else mtag_a in
  let mtag_b := if pack_b rntm_g && bool_decide (mtag_b = UNPACKED) then PACK else mtag_b in
  Some (mtag_a, mtag_b, rntm_g).

(** The function the token pasting [dlp_gemm_##SFX##_reconcile_packab] selects. *)
Definition reconcile_packab (is_f32 : bool) (pf : platform) (cfg : config_state)
    (m n k ic_ways jc_ways : Z) (mtag_a mtag_b : AOCL_DLP_MEMORY_TAG)
    (rntm_g : dlp_rntm_t) (lcntx : dlp_gemm_cntx_t) :=
  if is_f32
  then dlp_gemm_f32f32f32of32_reconcile_packab pf cfg m n k ic_ways jc_ways mtag_a mtag_b rntm_g lcntx
  else reconcile_packab_noop mtag_a mtag_b rntm_g.

(** ** Distribution of the thread ids *)

(** The fields of [dlp_gemm_thread_attrs_t] the decision reads. *)
Record dlp_gemm_thread_attrs_t := mk_attrs {
  openmp_enabled : bool;
  tid_distr_nearly_seq : bool;
  tid_core_grp_load_high : bool;
}.

Definition dlp_gemm_get_tid_distr_type (thr_attrs : dlp_gemm_thread_attrs_t)
    (m n n_threads : Z) (lcntx : dlp_gemm_cntx_t) : option AOCL_DLP_TID_DISTR_TYPE :=
  let NR := NR (blksz lcntx) in
  let MR := MR (blksz lcntx) in
  mr_blks ← cdiv_opt (m + MR - 1) MR;
  nr_blks ← cdiv_opt (n + NR - 1) NR;
  let mr_x_nr_blks := mr_blks * nr_blks in
  let low_util_n_thread_thres := n_threads `quot` 2 in
  mr_x_nr_blks_fringe ← cmod_opt mr_x_nr_blks n_threads;
  blks_per_thread ← cdiv_opt mr_x_nr_blks n_threads;
  let can_spread_tids := openmp_enabled thr_attrs && tid_distr_nearly_seq thr_attrs
                         && tid_core_grp_load_high thr_attrs in
  Some (if (mr_x_nr_blks <=? low_util_n_thread_thres) && can_spread_tids then STRIDE2
        else if (n_threads <? mr_x_nr_blks) && (blks_per_thread <=? 2)
                && (4 <? mr_x_nr_blks_fringe) && (mr_x_nr_blks_fringe <? low_util_n_thread_thres)
                && can_spread_tids then STRIDE2
        else DEFAULT).

Definition dlp_gemm_modify_tid_on_distr_type (tid n_threads : Z)
    (tid_distr : AOCL_DLP_TID_DISTR_TYPE) : Z :=
  if bool_decide (tid_distr = STRIDE2) then
    let modif_factor := 2 in
    let tid_modif_limit := (n_threads `quot` modif_factor) * modif_factor in
    if tid <? tid_modif_limit
    then tid `quot` modif_factor + (tid `rem` modif_factor) * (n_threads `quot` modif_factor)
    else tid
  else tid.

(** ** Driver calls *)

(** One call of [dlp_gemm_rowvar_*]: the OpenMP thread that makes it, the GEMM of
    the batch it is for (0 for a single GEMM), and the arguments that vary. *)
Record gemm_call := mk_call {
  call_omp : Z;
  call_gemm : Z;
  call_thread : dlp_gemm_thrinfo_t;
  call_rntm : dlp_rntm_t;
  call_mtag_a : AOCL_DLP_MEMORY_TAG;
  call_mtag_b : AOCL_DLP_MEMORY_TAG;
}.

(** What a decorator does: the communicators it initialises, the calls of the
    parallel region and the caller's objects after it. *)
Record launch := mk_launch {
  launch_comms : list dlp_task_comm_t;
  launch_calls : list gemm_call;
  launch_rntm : dlp_rntm_t;
}.

(** [dlp_gemm_ops_bundle_t]; only the post-op list is read here. *)
Record dlp_gemm_ops_bundle_t := mk_ops { post_op_list : option (list dlp_gemm_post_op) }.

Definition ops_post_op_list (ops : option dlp_gemm_ops_bundle_t) :=
  ops ≫= post_op_list.

Definition DLP_NUM_STATIC_COMMS : Z := 96.

(** Communicators [0 .. count - 1], each for [ic_ways] threads; beyond the
    static array they come from [malloc], whose failure nobody checks. *)
Definition init_comms (malloc_ok : bool) (count ic_ways : Z) : option (list dlp_task_comm_t) :=
  if (DLP_NUM_STATIC_COMMS <? count) && negb malloc_ok then None
  else Some (replicate (Z.to_nat count) (dlp_task_comm_init ic_ways)).

(** The environment of a decorator. *)
Record decor_env := mk_decor_env {
  env_platform : platform;
  env_config : config_state;
  env_attrs : dlp_gemm_thread_attrs_t;
  env_malloc_ok : bool;
  env_team : Z -> Z;
}.

(** ** One GEMM, with OpenMP *)

(** The [DLP_GEMM_SFX] the decorators are instantiated with. *)
Inductive gemm_sfx :=
  | u8s8s32o32 | bf16bf16f32of32 | f32f32f32of32 | s8s8s32o32 | f16f16f16of16
  | f32f16f32of32 | bf16s4f32of32 | bf16u4f32of32 | s8s8s32o32_sym_quant | s8s4s32o32
  | bf16s8s32os32 | f32s8s32os32.

(** [THREADING_SFX] of each instance of the single-GEMM macro. *)
Definition decorator_threading (sfx : gemm_sfx) : threading_sfx :=
  match sfx with
  | u8s8s32o32 => sfx_u8s8s32o32
  | bf16bf16f32of32 | bf16s4f32of32 | bf16u4f32of32 => sfx_bf16bf16f32of32
  | f32f32f32of32 => sfx_f32f32f32of32
  | f16f16f16of16 => sfx_f16f16f16of16
  | f32f16f32of32 => sfx_f32f16f32of32
  | s8s8s32o32 | s8s8s32o32_sym_quant | s8s4s32o32 | bf16s8s32os32 | f32s8s32os32 =>
      sfx_s8s8s32o32
  end.

(** [HAS_MC_LOGIC] and its [MC_OP_TYPE]. *)
Definition mc_logic (sfx : gemm_sfx) : option AOCL_DLP_OPERATION_TYPE :=
  match sfx with bf16s4f32of32 | bf16u4f32of32 => Some BF16BF16F32OF32 | _ => None end.

Definition reconcile_is_f32 (t : threading_sfx) : bool :=
  match t with sfx_f32f32f32of32 => true | _ => false end.

(** The threads of the parallel region, in any order; each makes one call. *)
Definition omp_threads (env : decor_env) (n_threads : Z) : list Z :=
  seqZ 0 (env_team env n_threads).

Definition dlp_gemm_openmp_thread_decorator (env : decor_env) (sfx : gemm_sfx)
    (m n k : Z) (mtag_a mtag_b : AOCL_DLP_MEMORY_TAG) (rntm_g : dlp_rntm_t)
    (lcntx : dlp_gemm_cntx_t) (ops : option dlp_gemm_ops_bundle_t) : option launch :=
  t ← get_threading (decorator_threading sfx) m n k rntm_g lcntx;
  let n_threads := t_n_threads t in
  let ic_ways := t_ic_ways t in
  let jc_ways := t_jc_ways t in
  tid_distr ← dlp_gemm_get_tid_distr_type (env_attrs env) m n n_threads lcntx;
  '(mtag_a, mtag_b, rntm_g) ←
    reconcile_packab (reconcile_is_f32 (decorator_threading sfx)) (env_platform env)
      (env_config env) m n k ic_ways jc_ways mtag_a mtag_b rntm_g lcntx;
  mtag_b ←
    match mc_logic sfx with
    | Some MC_OP_TYPE =>
        dlp_mtag_b_pick (env_config env) m n k ic_ways jc_ways MC_OP_TYPE (ops_post_op_list ops)
    | None => Some mtag_b
    end;
  cur_dlp_gemm_comms ← init_comms (env_malloc_ok env) jc_ways ic_ways;
  let call omp :=
    let tid := if bool_decide (mtag_b = REORDERED)
               then dlp_gemm_modify_tid_on_distr_type omp n_threads tid_distr else omp in
    mk_call omp 0 (mk_thrinfo n_threads tid ic_ways jc_ways 0) rntm_g mtag_a mtag_b in
  Some (mk_launch cur_dlp_gemm_comms (call <$> omp_threads env n_threads) rntm_g).

(** ** One GEMM, without OpenMP *)

Definition dlp_gemm_thread_decorator (env : decor_env) (sfx : gemm_sfx)
    (m n k : Z) (mtag_a mtag_b : AOCL_DLP_MEMORY_TAG) (rntm_g : dlp_rntm_t)
    (lcntx : dlp_gemm_cntx_t) (ops : option dlp_gemm_ops_bundle_t) : option launch :=
  let n_threads := 1 in
  let ic_ways := 1 in
  let jc_ways := 1 in
  let is_f32 := match sfx with f32f32f32of32 => true | _ => false end in
  '(mtag_a, mtag_b, rntm_g) ←
    reconcile_packab is_f32 (env_platform env) (env_config env) m n k ic_ways jc_ways
      mtag_a mtag_b rntm_g lcntx;
  mtag_b ←
    match mc_logic sfx with
    | Some MC_OP_TYPE =>
        dlp_mtag_b_pick (env_config env) m n k ic_ways jc_ways MC_OP_TYPE (ops_post_op_list ops)
    | None => Some mtag_b
    end;
  Some (mk_launch [dlp_task_comm_init ic_ways]
          [mk_call 0 0 (mk_thrinfo n_threads 0 ic_ways jc_ways 0) rntm_g mtag_a mtag_b] rntm_g).

(** ** Element-wise operations *)

Definition dlp_gemm_eltwise_ops_openmp_thread_decorator (env : decor_env) (m n : Z)
    (rntm_g : dlp_rntm_t) (blk : dlp_gemm_block_size_t) : option launch :=
  t ← dlp_gemm_eltwise_ops_bf16of32_get_threading m n rntm_g blk;
  let n_threads := t_n_threads t in
  let ic_ways := t_ic_ways t in
  let jc_ways := t_jc_ways t in
  cur_dlp_gemm_comms ← init_comms (env_malloc_ok env) jc_ways ic_ways;
  let call omp :=
    mk_call omp 0 (mk_thrinfo n_threads omp ic_ways jc_ways 0) rntm_g UNPACKED UNPACKED in
  Some (mk_launch cur_dlp_gemm_comms (call <$> omp_threads env n_threads) rntm_g).

Definition dlp_gemm_eltwise_ops_thread_decorator (m n : Z) (rntm_g : dlp_rntm_t) : launch :=
  mk_launch [dlp_task_comm_init 1]
    [mk_call 0 0 (mk_thrinfo 1 0 1 1 0) rntm_g UNPACKED UNPACKED] rntm_g.

(** ** A batch of GEMMs, with OpenMP *)

(** [THREADING_SFX] of the instances of the two batch macros ([s8s4s32o32] has
    none). *)
Definition batch_decorator_threading (sfx : gemm_sfx) : option batch_threading_sfx :=
  match sfx with
  | bf16bf16f32of32 | bf16s4f32of32 | bf16u4f32of32 | f16f16f16of16 => Some bsfx_bf16bf16f32of32
  | f32f32f32of32 | f32f16f32of32 => Some bsfx_f32f32f32of32
  | u8s8s32o32 | bf16s8s32os32 | f32s8s32os32 => Some bsfx_u8s8s32o32
  | s8s8s32o32 | s8s8s32o32_sym_quant => Some bsfx_s8s8s32o32
  | s8s4s32o32 => None
  end.

Definition batch_reconcile_is_f32 (t : batch_threading_sfx) : bool :=
  match t with bsfx_f32f32f32of32 => true | _ => false end.

(** The work of one OpenMP thread: its place in its team, the communicators of
    the team and its range of GEMMs. *)
Definition batch_thread (bt : batch_threading) (omp : Z) : dlp_gemm_thrinfo_t :=
  let per_gemm := b_n_threads_per_gemm bt in
  mk_thrinfo per_gemm (omp `rem` per_gemm) (b_ic_ways bt) (b_jc_ways bt)
    ((omp `quot` per_gemm) * b_jc_ways bt).

Definition batch_range (bt : batch_threading) (group_size omp : Z) : Z * Z :=
  dlp_thread_task_range
    (mk_task_id 0 (b_n_gemms_in_parallel bt) (omp `quot` b_n_threads_per_gemm bt))
    group_size 1 false.

Definition range_list (r : Z * Z) : list Z := seqZ r.1 (r.2 - r.1).

(** The calls of all the threads; [tag omp i] is the tag of B thread [omp] reads
    for GEMM [i]. *)
Definition batch_calls (env : decor_env) (bt : batch_threading) (group_size : Z)
    (rntm_g : dlp_rntm_t) (mtag_a : AOCL_DLP_MEMORY_TAG) (tag : Z -> Z -> AOCL_DLP_MEMORY_TAG)
    : list gemm_call :=
  omp_threads env (b_n_threads bt) ≫= fun omp =>
    (fun i => mk_call omp i (batch_thread bt omp) rntm_g mtag_a (tag omp i))
      <$> range_list (batch_range bt group_size omp).

(** [mtag_b[i] = x] for each [i] of a list; a store past the array is undefined. *)
Definition store_tag (x : AOCL_DLP_MEMORY_TAG) (arr : option (list AOCL_DLP_MEMORY_TAG)) (i : Z)
    : option (list AOCL_DLP_MEMORY_TAG) :=
  arr ← arr; if (0 <=? i) && (i <? Z.of_nat (length arr)) then Some (<[Z.to_nat i := x]> arr)
             else None.

Record batch_launch := mk_batch_launch {
  bl_launch : launch;
  bl_threading : batch_threading;
  bl_mtag_a : list AOCL_DLP_MEMORY_TAG;
  bl_mtag_b : list AOCL_DLP_MEMORY_TAG;
}.

(** [GEN_BATCH_DLP_GEMM_OPENMP_DECORATOR_UNIFIED].  With the MC logic each thread
    stores the tag at the indices of its GEMMs and reads it at index 0: a thread
    whose range starts at 0 sees its own store, another one may or may not see it
    ([seen]). *)
Definition batch_dlp_gemm_openmp_thread_decorator (env : decor_env) (seen : Z -> Z -> bool)
    (sfx : gemm_sfx) (group_size m n k : Z) (mtag_a mtag_b : list AOCL_DLP_MEMORY_TAG)
    (rntm_g : dlp_rntm_t) (lcntx : dlp_gemm_cntx_t) (ops : option dlp_gemm_ops_bundle_t)
    : option batch_launch :=
  threading_sfx ← batch_decorator_threading sfx;
  '(bt, rntm_g) ← batch_get_threading (env_platform env) threading_sfx group_size m n k rntm_g lcntx;
  a0 ← mtag_a !! 0%nat;
  b0 ← mtag_b !! 0%nat;
  '(a0, b0, rntm_g) ←
    reconcile_packab (batch_reconcile_is_f32 threading_sfx) (env_platform env) (env_config env)
      m n k (b_ic_ways bt) (b_jc_ways bt) a0 b0 rntm_g lcntx;
  let mtag_a := <[0%nat := a0]> mtag_a in
  let mtag_b := <[0%nat := b0]> mtag_b in
  comms ← init_comms (env_malloc_ok env) (b_jc_ways bt * b_n_gemms_in_parallel bt) (b_ic_ways bt);
  match mc_logic sfx with
  | None =>
      let calls := batch_calls env bt group_size rntm_g a0 (fun _ _ => b0) in
      Some (mk_batch_launch (mk_launch comms calls rntm_g) bt mtag_a mtag_b)
  | Some MC_OP_TYPE =>
      mtag_b_mp ← dlp_mtag_b_pick (env_config env) m n k (b_ic_ways bt) (b_jc_ways bt)
                    MC_OP_TYPE (ops_post_op_list ops);
      let tag omp i :=
        if ((batch_range bt group_size omp).1 =? 0) || seen omp i then mtag_b_mp else b0 in
      let calls := batch_calls env bt group_size rntm_g a0 tag in
      mtag_b ← foldl (store_tag mtag_b_mp) (Some mtag_b) (call_gemm <$> calls);
      Some (mk_batch_launch (mk_launch comms calls rntm_g) bt mtag_a mtag_b)
  end.

(** [GEN_BATCH_DLP_GEMM_OPENMP_DECORATOR_GRP]: no reconciliation, and nothing is
    done when [malloc] fails. *)
Definition batch_dlp_gemm_openmp_thread_decorator_grp (env : decor_env)
    (group_size m n k : Z) (mtag_a mtag_b : list AOCL_DLP_MEMORY_TAG)
    (rntm_g : dlp_rntm_t) (lcntx : dlp_gemm_cntx_t) : option batch_launch :=
  '(bt, rntm_g) ←
    batch_get_threading (env_platform env) bsfx_s8s8s32o32 group_size m n k rntm_g lcntx;
  a0 ← mtag_a !! 0%nat;
  b0 ← mtag_b !! 0%nat;
  match init_comms (env_malloc_ok env) (b_jc_ways bt * b_n_gemms_in_parallel bt) (b_ic_ways bt) with
  | None => Some (mk_batch_launch (mk_launch [] [] rntm_g) bt mtag_a mtag_b)
  | Some comms =>
      let calls := batch_calls env bt group_size rntm_g a0 (fun _ _ => b0) in
      Some (mk_batch_launch (mk_launch comms calls rntm_g) bt mtag_a mtag_b)
  end.

(** ** A batch of GEMMs, without OpenMP *)

Definition sequential_calls (group_size : Z) (rntm_g : dlp_rntm_t)
    (a0 b0 : AOCL_DLP_MEMORY_TAG) : list gemm_call :=
  (fun i => mk_call 0 i (mk_thrinfo 1 0 1 1 0) rntm_g a0 b0) <$> seqZ 0 group_size.

Definition batch_dlp_gemm_thread_decorator (env : decor_env) (sfx : gemm_sfx)
    (group_size m n k : Z) (mtag_a mtag_b : list AOCL_DLP_MEMORY_TAG) (rntm_g : dlp_rntm_t)
    (lcntx : dlp_gemm_cntx_t) : option batch_launch :=
  let is_f32 := match sfx with f32f32f32of32 => true | _ => false end in
  a0 ← mtag_a !! 0%nat;
  b0 ← mtag_b !! 0%nat;
  '(a0, b0, rntm_g) ←
    reconcile_packab is_f32 (env_platform env) (env_config env) m n k 1 1 a0 b0 rntm_g lcntx;
  let calls := sequential_calls group_size rntm_g a0 b0 in
  Some (mk_batch_launch (mk_launch [dlp_task_comm_init 1] calls rntm_g) (mk_batch 1 1 1 1 1)
          (<[0%nat := a0]> mtag_a) (<[0%nat := b0]> mtag_b)).

(** [GEN_BATCH_DLP_GEMM_DECORATOR_GRP]. *)
Definition batch_dlp_gemm_thread_decorator_grp (group_size m n k : Z)
    (mtag_a mtag_b : list AOCL_DLP_MEMORY_TAG) (rntm_g : dlp_rntm_t) : option batch_launch :=
  a0 ← mtag_a !! 0%nat;
  b0 ← mtag_b !! 0%nat;
  let calls := sequential_calls group_size rntm_g a0 b0 in
  Some (mk_batch_launch (mk_launch [dlp_task_comm_init 1] calls rntm_g) (mk_batch 1 1 1 1 1)
          mtag_a mtag_b).

(** ** Teams of threads

    [full_team ic jc comm calls]: the calls are those of a complete
    [ic x jc] team, each thread id once, sharing the communicators at [comm]. *)
Record full_team (ic jc comm : Z) (calls : list gemm_call) : Prop := {
  ft_tids : (thr_tid ∘ call_thread <$> calls) ≡ₚ seqZ 0 (ic * jc);
  ft_ways : forall c, c ∈ calls ->
    thr_ic_ways (call_thread c) = ic /\ thr_jc_ways (call_thread c) = jc /\
    thr_comm (call_thread c) = comm /\ thr_n_threads (call_thread c) = ic * jc }.

(** Call [c] computes element [(i, j)], when its driver partitions the columns by
    [NR] and the rows by [MR]. *)
Definition call_owns (m n MR NR i j : Z) (c : gemm_call) : Prop :=
  let '(thread_jc, thread_ic) := dlp_gemm_gen_dlp_task_ids (Some (call_thread c)) in
  owns thread_jc n NR false j /\ owns thread_ic m MR false i.

(** The communicator a call synchronises on, relative to its base. *)
Definition call_comm (c : gemm_call) : Z :=
  work_id (dlp_gemm_gen_dlp_task_ids (Some (call_thread c))).1.

Lemma cnt_fmap {A B} (f : A -> B) (g : B -> bool) l : cnt g (f <$> l) = cnt (g ∘ f) l.
Proof. induction l as [|x l IH]; [done|]. unfold cnt in *. simpl. f_equal. exact IH. Qed.

Lemma cnt_perm {A} (f : A -> bool) l l' : l ≡ₚ l' -> cnt f l = cnt f l'.
Proof. induction 1; simpl; lia. Qed.

Lemma cnt_app {A} (f : A -> bool) l l' : cnt f (l ++ l') = cnt f l + cnt f l'.
Proof.
  induction l as [|x l IH]; [done|]. change (cnt f ((x :: l) ++ l')) with (Z.b2z (f x) + cnt f (l ++ l')).
  rewrite IH. unfold cnt. simpl. lia.
Qed.

Lemma cnt_all {A} (f : A -> bool) l : (forall x, x ∈ l -> f x = true) -> cnt f l = Z.of_nat (length l).
Proof.
  induction l as [|x l IH]; intros H; [done|].
  change (cnt f (x :: l)) with (Z.b2z (f x) + cnt f l).
  rewrite (H x) by left. rewrite IH; [simpl; lia|]. intros y Hy. apply H. by right.
Qed.

Lemma cnt_none {A} (f : A -> bool) l : (forall x, x ∈ l -> f x = false) -> cnt f l = 0.
Proof. intros H. apply cnt_false. intros i x Hi. apply H. by eapply list_elem_of_lookup_2. Qed.

(** [w]-th run of [q] consecutive integers. *)
Lemma seqZ_split (q N w : Z) :
  0 <= q -> 0 <= w < N ->
  seqZ 0 (q * N) = seqZ 0 (q * w) ++ seqZ (q * w) q ++ seqZ (q * (w + 1)) (q * (N - w - 1)).
Proof.
  intros Hq Hw. replace (q * N) with (q * w + (q + q * (N - w - 1))) by ring.
  rewrite seqZ_app by nia. rewrite seqZ_app by nia. do 3 f_equal; lia.
Qed.

Lemma run_iff q x w : 1 <= q -> x / q = w <-> q * w <= x < q * (w + 1).
Proof.
  intros Hq. pose proof (Z.div_mod x q). pose proof (Z.mod_pos_bound x q). split.
  - intros <-. nia.
  - intros Hx. symmetry. apply (Z.div_unique_pos x q w (x - q * w)); nia.
Qed.

Lemma cnt_run q N w :
  1 <= q -> 0 <= w < N -> cnt (fun x => x / q =? w) (seqZ 0 (q * N)) = q.
Proof.
  intros Hq Hw. rewrite (seqZ_split q N w) by lia. rewrite !cnt_app.
  rewrite (cnt_none _ (seqZ 0 _)), (cnt_all _ (seqZ (q * w) q)), (cnt_none _ (seqZ (q * (w + 1)) _));
    try (intros x Hx%elem_of_seqZ; first [apply Z.eqb_eq|apply Z.eqb_neq]; rewrite ?run_iff by lia; nia).
  rewrite length_seqZ. lia.
Qed.

Lemma fmap_nodup_inj {A B} (f : A -> B) l x y :
  NoDup (f <$> l) -> x ∈ l -> y ∈ l -> f x = f y -> x = y.
Proof.
  intros Hnd [i Hi]%list_elem_of_lookup_1 [j Hj]%list_elem_of_lookup_1 Hf.
  assert (i = j) as ->; [|congruence].
  eapply (proj1 (NoDup_alt _) Hnd); rewrite list_lookup_fmap, ?Hi, ?Hj; simpl; by f_equal.
Qed.

Section team.
Context (ic jc comm : Z) (calls : list gemm_call).
Hypothesis Hic : 1 <= ic.
Hypothesis Hjc : 1 <= jc.
Hypothesis Hteam : full_team ic jc comm calls.

Lemma team_tid_bounds c : c ∈ calls -> 0 <= thr_tid (call_thread c) < ic * jc.
Proof using Hteam.
  intros Hc. assert (thr_tid (call_thread c) ∈ seqZ 0 (ic * jc)) as H%elem_of_seqZ; [|lia].
  rewrite <- (ft_tids _ _ _ _ Hteam). apply list_elem_of_fmap. by exists c.
Qed.

Lemma team_task_ids c :
  c ∈ calls ->
  dlp_gemm_gen_dlp_task_ids (Some (call_thread c)) =
    (mk_task_id (thr_tid (call_thread c)) jc (thr_tid (call_thread c) / ic),
     mk_task_id (thr_tid (call_thread c) mod ic) ic (thr_tid (call_thread c) mod ic)).
Proof using Hteam Hic.
  intros Hc. pose proof (team_tid_bounds c Hc).
  destruct (ft_ways _ _ _ _ Hteam c Hc) as (E1 & E2 & _). simpl. rewrite E1, E2. by cdiv.
Qed.

Lemma team_cover m n MR NR i j :
  1 <= MR -> 1 <= NR -> 0 <= i < m -> 0 <= j < n ->
  exists! c, c ∈ calls /\ call_owns m n MR NR i j c.
Proof using Hteam Hic Hjc.
  intros ?? Hi Hj.
  destruct (owns_exists jc n NR false j) as (w & Hw & How); [lia..|].
  destruct (owns_exists ic m MR false i) as (v & Hv & Hov); [lia..|].
  destruct (grid_inverse ic w v) as [Ew Ev]; [lia..|].
  assert (w * ic + v ∈ thr_tid ∘ call_thread <$> calls) as (c & Ec & Hc)%list_elem_of_fmap.
  { rewrite (ft_tids _ _ _ _ Hteam). apply elem_of_seqZ. nia. }
  simpl in Ec. exists c. unfold call_owns. split.
  - split; [done|]. rewrite team_task_ids by done. rewrite <- Ec, Ew, Ev. auto.
  - intros c' [Hc' Ho]. rewrite team_task_ids in Ho by done. destruct Ho as [Hoj Hoi].
    apply (fmap_nodup_inj (thr_tid ∘ call_thread) calls); try done.
    { rewrite (ft_tids _ _ _ _ Hteam). apply NoDup_seqZ. }
    simpl. rewrite <- Ec.
    rewrite (tid_of_grid ic (thr_tid (call_thread c'))) by lia.
    rewrite (owns_unique _ 0 jc (thr_tid (call_thread c') / ic) w n NR false j) by (lia || eauto).
    by rewrite (owns_unique _ 0 ic (thr_tid (call_thread c') mod ic) v m MR false i)
      by (lia || eauto).
Qed.

Lemma team_comm_bounds c : c ∈ calls -> 0 <= call_comm c < jc.
Proof using Hteam Hic Hjc.
  intros Hc. unfold call_comm. rewrite team_task_ids by done. simpl.
  apply grid_bounds; try done. by apply team_tid_bounds.
Qed.

Lemma team_comm_count w :
  0 <= w < jc -> cnt (fun c => call_comm c =? w) calls = ic.
Proof using Hteam Hic.
  intros Hw. rewrite <- (cnt_run ic jc w) by lia.
  rewrite <- (cnt_perm _ _ _ (ft_tids _ _ _ _ Hteam)), cnt_fmap.
  apply cnt_ext. intros c Hc. unfold call_comm. by rewrite team_task_ids.
Qed.
End team.

(** ** The distribution of thread ids *)

Lemma modify_tid_eq tid nt d :
  0 <= tid < nt ->
  dlp_gemm_modify_tid_on_distr_type tid nt d =
    if bool_decide (d = STRIDE2) && (tid <? nt / 2 * 2) then tid / 2 + tid mod 2 * (nt / 2) else tid.
Proof.
  intros Ht. unfold dlp_gemm_modify_tid_on_distr_type. destruct d; simpl; [done|].
  rewrite (cquot_nonneg nt 2) by lia. zcase; [by cdiv|done].
Qed.

Lemma modify_tid_bounds tid nt d :
  0 <= tid < nt -> 0 <= dlp_gemm_modify_tid_on_distr_type tid nt d < nt.
Proof.
  intros Ht. rewrite modify_tid_eq by done. destruct d; simpl; [done|]. zcase; [dnia|lia].
Qed.

Lemma modify_tid_inj t1 t2 nt d :
  0 <= t1 < nt -> 0 <= t2 < nt ->
  dlp_gemm_modify_tid_on_distr_type t1 nt d = dlp_gemm_modify_tid_on_distr_type t2 nt d -> t1 = t2.
Proof.
  intros H1 H2. rewrite !modify_tid_eq by done. destruct d; simpl; [done|].
  pose proof (Z.div_mod t1 2). pose proof (Z.mod_pos_bound t1 2).
  pose proof (Z.div_mod t2 2). pose proof (Z.mod_pos_bound t2 2).
  assert (forall t, 0 <= t -> t < nt / 2 * 2 -> t / 2 < nt / 2) as Hlt
    by (intros; apply Z.div_lt_upper_bound; lia).
  pose proof (Hlt t1). pose proof (Hlt t2).
  assert (0 <= t1 / 2) by (apply Z.div_pos; lia). assert (0 <= t2 / 2) by (apply Z.div_pos; lia).
  assert (t1 mod 2 = 0 \/ t1 mod 2 = 1) as [E1|E1] by lia;
    assert (t2 mod 2 = 0 \/ t2 mod 2 = 1) as [E2|E2] by lia;
    repeat zcase; rewrite ?E1, ?E2; lia.
Qed.

Lemma fmap_seqZ_permutation (f : Z -> Z) (N : Z) :
  (forall x, 0 <= x < N -> 0 <= f x < N) ->
  (forall x y, 0 <= x < N -> 0 <= y < N -> f x = f y -> x = y) ->
  f <$> seqZ 0 N ≡ₚ seqZ 0 N.
Proof.
  intros Hb Hinj. apply submseteq_length_Permutation.
  - apply NoDup_submseteq.
    + apply NoDup_fmap_2_strong; [|apply NoDup_seqZ].
      intros x y Hx%elem_of_seqZ Hy%elem_of_seqZ. apply Hinj; lia.
    + intros y (x & -> & Hx%elem_of_seqZ)%list_elem_of_fmap. apply elem_of_seqZ.
      pose proof (Hb x). lia.
  - by rewrite length_fmap.
Qed.

Lemma modify_tid_permutes nt d :
  (fun tid => dlp_gemm_modify_tid_on_distr_type tid nt d) <$> seqZ 0 nt ≡ₚ seqZ 0 nt.
Proof.
  apply fmap_seqZ_permutation.
  - intros. by apply modify_tid_bounds.
  - intros x y. apply modify_tid_inj.
Qed.

(** The distribution of thread ids over the cores only permutes them: for
    any number of threads, odd ones included, and either distribution, the ids
    the drivers receive are those of the team, each once; with the strided one
    the threads on even cores are the first half in order and those on odd cores
    the second half. *)
Theorem tid_distribution_permutes (nt : Z) (d : AOCL_DLP_TID_DISTR_TYPE) :
  (fun tid => dlp_gemm_modify_tid_on_distr_type tid nt d) <$> seqZ 0 nt ≡ₚ seqZ 0 nt /\
  (forall p, 0 <= p < nt / 2 ->
     dlp_gemm_modify_tid_on_distr_type (2 * p) nt STRIDE2 = p /\
     dlp_gemm_modify_tid_on_distr_type (2 * p + 1) nt STRIDE2 = nt / 2 + p).
Proof.
  split; [apply modify_tid_permutes|]. intros p Hp.
  pose proof (Z.mul_div_le nt 2). rewrite !modify_tid_eq by lia.
  rewrite (proj2 (Z.ltb_lt (2 * p) (nt / 2 * 2))), (proj2 (Z.ltb_lt (2 * p + 1) (nt / 2 * 2))) by lia.
  simpl (_ && _). cbv iota.
  rewrite (Z.mul_comm 2 p), Z.div_mul, Z.mod_mul by lia.
  rewrite (Z.add_comm (p * 2) 1), Z.div_add, Z.mod_add by lia. change (1 / 2) with 0. change (1 mod 2) with 1. lia.
Qed.

(** ** The choice of the tag of B *)

(** The region in which B is used as it is. *)
Definition unpacked_region (MC m_ic n_jc k : Z) : Prop :=
  m_ic < MC \/ (m_ic <= 4 * MC /\ 1024 <= n_jc <= 10240 /\ k <= 8).

#[export] Instance unpacked_region_dec MC m_ic n_jc k : Decision (unpacked_region MC m_ic n_jc k).
Proof. unfold unpacked_region. apply _. Defined.

Lemma mtag_b_pick_eq cfg m n k ic jc op l c :
  get_cntx (global_cntx_t_list cfg) (op_index op) = Some c -> 1 <= ic -> 1 <= jc ->
  dlp_mtag_b_pick cfg m n k ic jc op l =
    Some (if decide (unpacked_region (MC (blksz c)) (m `quot` ic) (n `quot` jc) k /\
                     dlp_gemm_post_op_list_has_jit_only_op l = false)
          then UNPACKED else PACK_KC).
Proof.
  intros Hc Hic Hjc. unfold dlp_mtag_b_pick, dlp_gemm_get_block_size_MC_global_cntx. rewrite Hc.
  simpl. rewrite !cdiv_opt_pos by lia. simpl. f_equal. unfold unpacked_region.
  set (mi := m `quot` ic). set (nj := n `quot` jc). clearbody mi nj.
  destruct (dlp_gemm_post_op_list_has_jit_only_op l).
  - rewrite decide_False by naive_solver. rewrite andb_true_r. repeat case_match; try done; congruence.
  - rewrite andb_false_r.
    destruct (Z.ltb_spec mi (MC (blksz c))); [by rewrite decide_True by auto|].
    destruct (Z.leb_spec mi (4 * MC (blksz c))), (Z.leb_spec 1024 nj), (Z.leb_spec nj (10 * 1024)),
      (Z.leb_spec k 8); simpl; case_decide as Hd; try done;
      first [destruct Hd as [[?|?] _]; lia | destruct Hd; split; [right; lia|done]].
Qed.

(** The tag of a weight-only B is decided exactly by the documented shape
    region extended below [MC], and an operation only the JIT kernels implement
    always forces packing: the unpacked kernel never sees one. *)
Theorem mtag_b_pick_exact (cfg : config_state) (m n k ic jc : Z) (op : AOCL_DLP_OPERATION_TYPE)
    (l : option (list dlp_gemm_post_op)) (c : dlp_gemm_cntx_t) :
  get_cntx (global_cntx_t_list cfg) (op_index op) = Some c -> 1 <= ic -> 1 <= jc ->
  exists t, dlp_mtag_b_pick cfg m n k ic jc op l = Some t /\
    (t = UNPACKED <->
       unpacked_region (MC (blksz c)) (m `quot` ic) (n `quot` jc) k /\
       dlp_gemm_post_op_list_has_jit_only_op l = false) /\
    (t <> UNPACKED -> t = PACK_KC).
Proof.
  intros Hc Hic Hjc. rewrite (mtag_b_pick_eq _ _ _ _ _ _ _ _ c) by done.
  eexists. split; [reflexivity|]. case_decide; naive_solver.
Qed.

Definition example_config : config_state :=
  dlp_gemm_cntx_init_map (mk_cpu DLP_ARCH_ZEN5 false true true true true true false) config_zero.

Lemma mtag_b_pick_exact_witness :
  exists t, dlp_mtag_b_pick example_config 100 600 4000 1 1 BF16BF16F32OF32 None = Some t /\
    (t = UNPACKED <-> unpacked_region 144 100 600 4000 /\
                      dlp_gemm_post_op_list_has_jit_only_op None = false).
Proof.
  destruct (mtag_b_pick_exact example_config 100 600 4000 1 1 BF16BF16F32OF32 None
    (mk_cntx (mk_blksz 144 1024 4096 64 6) 0 (mk_pack_s 0 0 128 32) (mk_sup 0 0 0) (mk_hints 0 0)))
    as (t & E & H & _); [reflexivity|lia|lia|]. exists t. split; assumption.
Defined.

(** The comment above the selector limits the unpacked choice to [MC <= m_ic],
    [1024 <= n_jc], [k <= 8]; below [MC] the code chooses it for every [n], [k]. *)
Lemma unpacked_below_MC :
  dlp_mtag_b_pick example_config 100 600 4000 1 1 BF16BF16F32OF32 None = Some UNPACKED.
Proof. reflexivity. Qed.

(** ** The reconciliation of packing *)

Definition same_threads (r r' : dlp_rntm_t) : Prop :=
  num_threads r' = num_threads r /\ ic_ways r' = ic_ways r /\ jc_ways r' = jc_ways r.

Lemma f32_reconcile_eq pf cfg m n k ic jc ta tb r lcntx c :
  get_cntx (global_cntx_t_list cfg) (op_index F32F32F32OF32) = Some c -> 1 <= ic -> 1 <= jc ->
  let sup := native_sup_pack pf lcntx m n k (m `quot` ic) (n `quot` jc) in
  let pa := (sup || pack_a r) && (MR (blksz lcntx) =? MR (blksz c)) in
  let pb := sup || pack_b r in
  dlp_gemm_f32f32f32of32_reconcile_packab pf cfg m n k ic jc ta tb r lcntx =
    Some (if decide (ta = REORDERED) then REORDERED
          else if pa then (if decide (ta = UNPACKED) then PACK else ta) else UNPACKED,
          if decide (tb = UNPACKED /\ pb = true) then PACK else tb,
          set_packs pa pb r).
Proof.
  intros Hc Hic Hjc sup pa pb. unfold dlp_gemm_f32f32f32of32_reconcile_packab,
    dlp_gemm_get_block_size_MR_global_cntx. rewrite Hc. simpl.
  rewrite !cdiv_opt_pos by lia. simpl. fold sup. unfold pa, pb. clearbody sup.
  destruct r as [nt ic' jc' a b ext]. simpl.
  destruct sup, (MR (blksz lcntx) =? MR (blksz c)), a, b, ta, tb; reflexivity.
Qed.

(** C35. The f32 reconciliation leaves flags and tags that agree: a reordered A
    stays so; otherwise A's tag asks for packing exactly when [pack_a] is set,
    and [pack_a] is never set with a tile other than the default one.  B's tag is
    only ever raised from unpacked to packed, and is not unpacked when [pack_b]
    is set.  The flags are turned on only by the SUP test, threads and ways are
    kept, and a second reconciliation changes nothing. *)
Theorem f32_reconcile_consistent (pf : platform) (cfg : config_state) (m n k ic jc : Z)
    (ta tb : AOCL_DLP_MEMORY_TAG) (r : dlp_rntm_t) (lcntx c : dlp_gemm_cntx_t) :
  get_cntx (global_cntx_t_list cfg) (op_index F32F32F32OF32) = Some c -> 1 <= ic -> 1 <= jc ->
  exists ta' tb' r',
    dlp_gemm_f32f32f32of32_reconcile_packab pf cfg m n k ic jc ta tb r lcntx = Some (ta', tb', r') /\
    (ta = REORDERED <-> ta' = REORDERED) /\
    (ta <> REORDERED -> (ta' = UNPACKED <-> pack_a r' = false)) /\
    (pack_a r' = true -> MR (blksz lcntx) = MR (blksz c)) /\
    (tb' = tb \/ (tb = UNPACKED /\ tb' = PACK)) /\ (pack_b r' = true -> tb' <> UNPACKED) /\
    (pack_b r' = true -> pack_b r = true \/
       native_sup_pack pf lcntx m n k (m `quot` ic) (n `quot` jc) = true) /\
    same_threads r r' /\
    dlp_gemm_f32f32f32of32_reconcile_packab pf cfg m n k ic jc ta' tb' r' lcntx = Some (ta', tb', r').
Proof.
  intros Hc Hic Hjc.
  rewrite (f32_reconcile_eq pf cfg m n k ic jc ta tb r lcntx c Hc Hic Hjc).
  eexists _, _, _. split; [reflexivity|].
  rewrite (f32_reconcile_eq pf cfg m n k ic jc _ _ _ lcntx c Hc Hic Hjc).
  set (sup := native_sup_pack _ _ _ _ _ _ _). clearbody sup.
  destruct (Z.eqb_spec (MR (blksz lcntx)) (MR (blksz c))) as [HMR|HMR]; simpl;
    destruct r as [nt ic' jc' a b ext]; simpl;
    destruct sup, a, b, ta, tb; simpl; repeat split; auto; try (intros; congruence).
Qed.

Lemma f32_reconcile_consistent_witness :
  exists ta' tb' r',
    dlp_gemm_f32f32f32of32_reconcile_packab (mk_platform 4096 true) example_config 2000 3000 4000
      1 1 UNPACKED UNPACKED (example_rntm 1) (mk_cntx (mk_blksz 192 8064 1024 64 6) 0
        (mk_pack_s 1 6 64 1) (mk_sup 682 512 240) (mk_hints 0 0)) = Some (ta', tb', r') /\
    (pack_b r' = true -> tb' <> UNPACKED).
Proof.
  destruct (f32_reconcile_consistent (mk_platform 4096 true) example_config 2000 3000 4000
      1 1 UNPACKED UNPACKED (example_rntm 1) (mk_cntx (mk_blksz 192 8064 1024 64 6) 0
        (mk_pack_s 1 6 64 1) (mk_sup 682 512 240) (mk_hints 0 0))
      (mk_cntx (mk_blksz 192 8064 1024 64 6) 0 (mk_pack_s 1 6 64 1) (mk_sup 682 512 240)
        (mk_hints 0 0))) as (ta' & tb' & r' & E & _ & _ & _ & _ & H & _);
    [reflexivity|lia|lia|]. exists ta', tb', r'. split; assumption.
Defined.

(** ** Every step of a decorator is defined *)

Lemma cfg_lookup cfg op : tables_ok cfg -> exists c, get_cntx (global_cntx_t_list cfg) op = Some c.
Proof.
  intros [H _]. unfold get_cntx. apply lookup_lt_is_Some_2. rewrite H.
  apply (slot_bounds op AOCL_DLP_OPERATION_TYPE_LEN). done.
Qed.

Lemma reconcile_total is_f32 pf cfg m n k ic jc ta tb r lcntx :
  tables_ok cfg -> 1 <= ic -> 1 <= jc ->
  exists ta' tb' r', reconcile_packab is_f32 pf cfg m n k ic jc ta tb r lcntx = Some (ta', tb', r').
Proof.
  intros Hcfg Hic Hjc. destruct is_f32; simpl; [|unfold reconcile_packab_noop; eauto].
  destruct (cfg_lookup cfg (op_index F32F32F32OF32) Hcfg) as [c Hc].
  rewrite (f32_reconcile_eq _ _ _ _ _ _ _ _ _ _ _ c Hc Hic Hjc). eauto.
Qed.

Lemma pick_total sfx cfg m n k ic jc l tb :
  tables_ok cfg -> 1 <= ic -> 1 <= jc ->
  exists t, match mc_logic sfx with
            | Some op => dlp_mtag_b_pick cfg m n k ic jc op l
            | None => Some tb
            end = Some t.
Proof.
  intros Hcfg Hic Hjc. destruct (mc_logic sfx) as [op|]; [|eauto].
  destruct (cfg_lookup cfg (op_index op) Hcfg) as [c Hc].
  rewrite (mtag_b_pick_eq _ _ _ _ _ _ _ _ c) by done. eauto.
Qed.

Lemma tid_distr_total attrs m n nt lcntx :
  blksz_pos (blksz lcntx) -> 1 <= nt ->
  exists d, dlp_gemm_get_tid_distr_type attrs m n nt lcntx = Some d.
Proof.
  intros [] Hnt. unfold dlp_gemm_get_tid_distr_type, cmod_opt. rewrite !cdiv_opt_pos by lia. simpl.
  rewrite (proj2 (Z.eqb_neq nt 0)) by lia. simpl. rewrite cdiv_opt_pos by lia. simpl. eauto.
Qed.

Lemma init_comms_ok ok count ic :
  ok = true -> init_comms ok count ic = Some (replicate (Z.to_nat count) (dlp_task_comm_init ic)).
Proof. intros ->. unfold init_comms. by rewrite andb_false_r. Qed.

(** What the decorators need of their environment: OpenMP delivers the team it
    is asked for, [malloc] succeeds, and the tables are initialised. *)
Record env_ok (env : decor_env) : Prop := {
  env_full_team : forall nt, 1 <= nt -> env_team env nt = nt;
  env_malloc : env_malloc_ok env = true;
  env_tables : tables_ok (env_config env) }.

(** ** The promise of a single-GEMM decorator *)

(** Every element is computed by exactly one call, whatever the micro-tile; every
    communicator a call uses is in the array and freshly initialised for exactly
    the number of calls that use it, which is what its barrier waits for; and
    all the calls see the same tags and runtime. *)
Record launch_ok (m n : Z) (l : launch) : Prop := {
  lo_cover : forall MR NR i j, 1 <= MR -> 1 <= NR -> 0 <= i < m -> 0 <= j < n ->
    exists! c, c ∈ launch_calls l /\ call_owns m n MR NR i j c;
  lo_comms : forall c, c ∈ launch_calls l ->
    exists comm, launch_comms l !! Z.to_nat (thr_comm (call_thread c) + call_comm c) = Some comm /\
      comm = dlp_task_comm_init (comm_n_threads comm) /\
      cnt (fun c' => call_comm c' =? call_comm c) (launch_calls l) = comm_n_threads comm;
  lo_uniform : exists ta tb, forall c, c ∈ launch_calls l ->
    call_mtag_a c = ta /\ call_mtag_b c = tb /\ call_rntm c = launch_rntm l /\
    0 <= call_comm c /\ 0 <= thr_comm (call_thread c) }.

Lemma team_launch_ok ic jc m n l ta tb :
  1 <= ic -> 1 <= jc -> full_team ic jc 0 (launch_calls l) ->
  launch_comms l = replicate (Z.to_nat jc) (dlp_task_comm_init ic) ->
  (forall c, c ∈ launch_calls l ->
     call_mtag_a c = ta /\ call_mtag_b c = tb /\ call_rntm c = launch_rntm l) ->
  launch_ok m n l.
Proof.
  intros Hic Hjc Ht Hcomms Hun. split.
  - intros. by apply (team_cover ic jc 0).
  - intros c Hc. pose proof (team_comm_bounds ic jc 0 _ Hic Hjc Ht c Hc) as Hb.
    exists (dlp_task_comm_init ic). destruct (ft_ways _ _ _ _ Ht c Hc) as (_ & _ & -> & _).
    rewrite Hcomms. split; [apply lookup_replicate_2; lia|]. split; [done|].
    by apply (team_comm_count ic jc 0).
  - exists ta, tb. intros c Hc. destruct (Hun c Hc) as (? & ? & ?).
    destruct (ft_ways _ _ _ _ Ht c Hc) as (_ & _ & -> & _).
    pose proof (team_comm_bounds ic jc 0 _ Hic Hjc Ht c Hc). by split_and!; try lia.
Qed.

(** The calls of a parallel region over the whole team, when the thread ids are
    a permutation of the OpenMP ones. *)
Lemma region_full_team (env : decor_env) (f : Z -> gemm_call) nt ic jc :
  env_ok env -> 1 <= ic -> 1 <= jc -> ic * jc = nt ->
  ((thr_tid ∘ call_thread ∘ f) <$> seqZ 0 nt ≡ₚ seqZ 0 nt) ->
  (forall omp, thr_ic_ways (call_thread (f omp)) = ic /\ thr_jc_ways (call_thread (f omp)) = jc /\
               thr_comm (call_thread (f omp)) = 0 /\ thr_n_threads (call_thread (f omp)) = nt) ->
  full_team ic jc 0 (f <$> omp_threads env nt).
Proof.
  intros Henv Hic Hjc Hnt Hperm Hf. unfold omp_threads.
  rewrite (env_full_team env Henv) by nia. split.
  - rewrite <- list_fmap_compose, Hnt. exact Hperm.
  - intros c (omp & -> & _)%list_elem_of_fmap. rewrite Hnt. apply Hf.
Qed.

(** A launch of one complete team that agrees on the tags. *)
Definition team_launch (ic jc : Z) (ta tb : AOCL_DLP_MEMORY_TAG) (l : launch) : Prop :=
  1 <= ic /\ 1 <= jc /\ full_team ic jc 0 (launch_calls l) /\
  launch_comms l = replicate (Z.to_nat jc) (dlp_task_comm_init ic) /\
  (forall c, c ∈ launch_calls l ->
     call_mtag_a c = ta /\ call_mtag_b c = tb /\ call_rntm c = launch_rntm l).

(** The decorators that hand the tags of the caller to the driver. *)
Definition keeps_tags (sfx : gemm_sfx) : Prop :=
  reconcile_is_f32 (decorator_threading sfx) = false /\ mc_logic sfx = None.

Lemma openmp_decorator_team env sfx m n k ta tb r lcntx ops :
  env_ok env -> 1 <= m -> 1 <= n -> blksz_pos (blksz lcntx) ->
  exists l ic jc ta' tb',
    dlp_gemm_openmp_thread_decorator env sfx m n k ta tb r lcntx ops = Some l /\
    team_launch ic jc ta' tb' l /\ (keeps_tags sfx -> ta' = ta /\ tb' = tb).
Proof.
  intros Henv Hm Hn Hb. unfold dlp_gemm_openmp_thread_decorator.
  destruct (get_threading_policy (decorator_threading sfx) m n k r lcntx Hm Hn Hb)
    as (t & -> & (Hic & Hjc & Hnt) & _). simpl.
  destruct (tid_distr_total (env_attrs env) m n (t_n_threads t) lcntx Hb) as [d ->]; [nia|]. simpl.
  destruct (reconcile_total (reconcile_is_f32 (decorator_threading sfx)) (env_platform env)
    (env_config env) m n k (t_ic_ways t) (t_jc_ways t) ta tb r lcntx (env_tables env Henv) Hic Hjc)
    as (ta' & tb' & r' & Er). rewrite Er. simpl.
  destruct (pick_total sfx (env_config env) m n k (t_ic_ways t) (t_jc_ways t)
    (ops_post_op_list ops) tb' (env_tables env Henv) Hic Hjc) as [tb'' Ep]. rewrite Ep. simpl.
  rewrite init_comms_ok by apply (env_malloc env Henv). simpl.
  eexists _, (t_ic_ways t), (t_jc_ways t), ta', tb''. split; [reflexivity|]. split.
  - do 2 (split; [done|]). split; [|split; [done|by intros c (omp & -> & _)%list_elem_of_fmap]].
    apply region_full_team; try done. simpl.
    destruct (bool_decide (tb'' = REORDERED)); [apply modify_tid_permutes|].
    assert ((thr_tid ∘ call_thread ∘ (fun omp => mk_call omp 0
      (mk_thrinfo (t_n_threads t) omp (t_ic_ways t) (t_jc_ways t) 0) r' ta' tb'')) <$>
      seqZ 0 (t_n_threads t) = seqZ 0 (t_n_threads t)) as -> by apply list_fmap_id. done.
  - intros [Ef Em]. rewrite Ef in Er. rewrite Em in Ep.
    unfold reconcile_packab, reconcile_packab_noop in Er. by simplify_eq.
Qed.

Lemma openmp_decorator_ok env sfx m n k ta tb r lcntx ops :
  env_ok env -> 1 <= m -> 1 <= n -> blksz_pos (blksz lcntx) ->
  exists l, dlp_gemm_openmp_thread_decorator env sfx m n k ta tb r lcntx ops = Some l /\
    launch_ok m n l.
Proof.
  intros Henv Hm Hn Hb.
  destruct (openmp_decorator_team env sfx m n k ta tb r lcntx ops Henv Hm Hn Hb)
    as (l & ic & jc & ta' & tb' & E & (Hic & Hjc & Ht & Hc & Hu) & _).
  exists l. split; [done|]. by apply (team_launch_ok ic jc m n l ta' tb').
Qed.

Lemma sequential_decorator_team env sfx m n k ta tb r lcntx ops :
  tables_ok (env_config env) ->
  exists l ta' tb',
    dlp_gemm_thread_decorator env sfx m n k ta tb r lcntx ops = Some l /\
    team_launch 1 1 ta' tb' l /\ (keeps_tags sfx -> ta' = ta /\ tb' = tb).
Proof.
  intros Hcfg. unfold dlp_gemm_thread_decorator.
  destruct (reconcile_total (match sfx with f32f32f32of32 => true | _ => false end)
    (env_platform env) (env_config env) m n k 1 1 ta tb r lcntx Hcfg) as (ta' & tb' & r' & Er);
    [lia..|]. rewrite Er. simpl.
  destruct (pick_total sfx (env_config env) m n k 1 1 (ops_post_op_list ops) tb' Hcfg)
    as [tb'' Ep]; [lia..|]. rewrite Ep. simpl.
  eexists _, ta', tb''. split; [reflexivity|]. split.
  - do 2 (split; [done|]). split; [split; [done|]|split; [done|]];
      by intros c ->%list_elem_of_singleton.
  - intros [Ef Em]. rewrite Em in Ep. unfold reconcile_packab, reconcile_packab_noop in Er.
    destruct sfx; (done || by simplify_eq).
Qed.

Lemma sequential_decorator_ok env sfx m n k ta tb r lcntx ops :
  tables_ok (env_config env) ->
  exists l, dlp_gemm_thread_decorator env sfx m n k ta tb r lcntx ops = Some l /\ launch_ok m n l.
Proof.
  intros Hcfg. destruct (sequential_decorator_team env sfx m n k ta tb r lcntx ops Hcfg)
    as (l & ta' & tb' & E & (Hic & Hjc & Ht & Hc & Hu) & _).
  exists l. split; [done|]. by apply (team_launch_ok 1 1 m n l ta' tb').
Qed.

Lemma eltwise_decorator_ok env m n r blk :
  env_ok env -> 1 <= m -> 1 <= n -> blksz_pos blk ->
  exists l, dlp_gemm_eltwise_ops_openmp_thread_decorator env m n r blk = Some l /\ launch_ok m n l.
Proof.
  intros Henv Hm Hn Hb. unfold dlp_gemm_eltwise_ops_openmp_thread_decorator.
  destruct (eltwise_threading_decided m n r blk Hm Hn Hb) as (t & -> & Hic & Hjc & Hnt & _). simpl.
  rewrite init_comms_ok by apply (env_malloc env Henv). simpl.
  eexists. split; [reflexivity|].
  apply (team_launch_ok (t_ic_ways t) (t_jc_ways t)) with (ta := UNPACKED) (tb := UNPACKED);
    try done.
  - apply region_full_team; try done. apply reflexive_eq, list_fmap_id.
  - simpl. by intros c (omp & -> & _)%list_elem_of_fmap.
Qed.

(** C13. The decorators of a single GEMM, in both builds and for every data type,
    and those of the element-wise operations with OpenMP, always reach the
    drivers, and the launch is right: every element of the output is computed by
    exactly one driver call, each barrier waits for exactly the calls that use
    it, and all calls agree on the packing tags. *)
Theorem decorator_launch_ok (env : decor_env) (sfx : gemm_sfx) (m n k : Z)
    (ta tb : AOCL_DLP_MEMORY_TAG) (r : dlp_rntm_t) (lcntx : dlp_gemm_cntx_t)
    (ops : option dlp_gemm_ops_bundle_t) :
  env_ok env -> 1 <= m -> 1 <= n -> blksz_pos (blksz lcntx) ->
  (exists l, dlp_gemm_openmp_thread_decorator env sfx m n k ta tb r lcntx ops = Some l /\
     launch_ok m n l) /\
  (exists l, dlp_gemm_thread_decorator env sfx m n k ta tb r lcntx ops = Some l /\
     launch_ok m n l) /\
  (exists l, dlp_gemm_eltwise_ops_openmp_thread_decorator env m n r (blksz lcntx) = Some l /\
     launch_ok m n l).
Proof.
  intros Henv Hm Hn Hb. split_and!.
  - by apply openmp_decorator_ok.
  - apply sequential_decorator_ok, Henv.
  - by apply eltwise_decorator_ok.
Qed.

Definition example_env (cfg : config_state) : decor_env :=
  mk_decor_env (mk_platform 4096 true) cfg (mk_attrs true true true) true id.

Lemma decorator_launch_ok_witness :
  exists l, dlp_gemm_openmp_thread_decorator (example_env config_zero) bf16bf16f32of32 100 200 64
      UNPACKED REORDERED (example_rntm 24) example_cntx None = Some l /\ launch_ok 100 200 l.
Proof.
  apply (decorator_launch_ok (example_env config_zero) bf16bf16f32of32 100 200 64
    UNPACKED REORDERED (example_rntm 24) example_cntx None); [|lia|lia|split; simpl; lia].
  split; [reflexivity|reflexivity|split; reflexivity].
Defined.

(** ** The promise of a batch decorator *)

Definition gemm_calls (i : Z) (calls : list gemm_call) : list gemm_call :=
  filter (fun c => call_gemm c = i) calls.

(** GEMM [i] is computed by one complete team of OpenMP threads, number [w],
    which has the communicators from [w * jc_ways] on for itself. *)
Definition batch_gemm_ok (bt : batch_threading) (l : launch) (i : Z) : Prop :=
  exists w, 0 <= w < b_n_gemms_in_parallel bt /\
    full_team (b_ic_ways bt) (b_jc_ways bt) (w * b_jc_ways bt) (gemm_calls i (launch_calls l)) /\
    (call_omp <$> gemm_calls i (launch_calls l)) =
      seqZ (w * b_n_threads_per_gemm bt) (b_n_threads_per_gemm bt).

Lemma filter_bind {A B} (P : B -> Prop) `{!forall x, Decision (P x)} (f : A -> list B) (l : list A) :
  filter P (l ≫= f) = l ≫= (fun x => filter P (f x)).
Proof. induction l as [|x l IH]; [done|]. by rewrite !bind_cons, filter_app, IH. Qed.

Lemma bind_nil {A B} (f : A -> list B) l : (forall x, x ∈ l -> f x = []) -> l ≫= f = [].
Proof.
  induction l as [|x l IH]; intros H; [done|].
  rewrite bind_cons, (H x) by left. apply IH. intros y Hy. apply H. by right.
Qed.

Lemma bind_single {A B} (f : A -> list B) (g : A -> B) l :
  (forall x, x ∈ l -> f x = [g x]) -> l ≫= f = g <$> l.
Proof.
  induction l as [|x l IH]; intros H; [done|].
  rewrite bind_cons, (H x) by left. simpl. f_equal. apply IH. intros y Hy. apply H. by right.
Qed.

Lemma filter_none {A} (P : A -> Prop) `{!forall x, Decision (P x)} (l : list A) :
  (forall x, x ∈ l -> ~ P x) -> filter P l = [].
Proof.
  induction l as [|x l IH]; intros Hl; [done|]. rewrite filter_cons_False by (apply Hl; left).
  apply IH. intros y Hy. apply Hl. by right.
Qed.

Lemma gemm_calls_seqZ (f : Z -> gemm_call) s len i :
  (forall j, call_gemm (f j) = j) ->
  gemm_calls i (f <$> seqZ s len) = if decide (s <= i < s + len) then [f i] else [].
Proof.
  intros Hf. unfold gemm_calls.
  assert (forall s' l', (forall x, s' <= x < s' + l' -> x <> i) ->
    filter (fun c => call_gemm c = i) (f <$> seqZ s' l') = []) as Hnil.
  { intros s' l' Hx. apply filter_none. intros c (x & -> & Hin%elem_of_seqZ)%list_elem_of_fmap.
    rewrite Hf. apply Hx. lia. }
  case_decide as Hd; [|apply Hnil; lia].
  replace len with ((i - s) + (1 + (s + len - i - 1))) by lia.
  rewrite seqZ_app, seqZ_app, !fmap_app, !filter_app by lia. replace (s + (i - s)) with i by lia.
  rewrite (Hnil s), (Hnil (i + 1)) by lia. change (seqZ i 1) with [0 + i]. rewrite Z.add_0_l.
  cbn [app fmap list_fmap]. by rewrite filter_cons_True by apply Hf.
Qed.

Section batch.
Context (env : decor_env) (bt : batch_threading) (group_size nt : Z).
Context (rntm_g : dlp_rntm_t) (ta : AOCL_DLP_MEMORY_TAG) (tag : Z -> Z -> AOCL_DLP_MEMORY_TAG).
Hypothesis Henv : env_ok env.
Hypothesis Hbt : batch_threading_ok group_size nt bt.
Hypothesis Hgroup : 0 <= group_size.

Let ng := b_n_gemms_in_parallel bt.
Let per := b_n_threads_per_gemm bt.
Let calls := batch_calls env bt group_size rntm_g ta tag.

Lemma batch_per_pos : 1 <= per /\ 1 <= ng.
Proof using Hbt Hgroup.
  destruct Hbt as ((? & ? & ?) & _ & ? & _). unfold per, ng. split; [nia|lia].
Qed.

Lemma batch_gemms_of omp i :
  0 <= omp ->
  gemm_calls i ((fun i => mk_call omp i (batch_thread bt omp) rntm_g ta (tag omp i))
    <$> range_list (batch_range bt group_size omp)) =
  if decide (owns (mk_task_id 0 ng (omp / per)) group_size 1 false i)
  then [mk_call omp i (batch_thread bt omp) rntm_g ta (tag omp i)] else [].
Proof using Hbt Hgroup.
  intros Homp. pose proof batch_per_pos. unfold range_list. rewrite gemm_calls_seqZ by done.
  unfold batch_range. fold ng per. rewrite cquot_nonneg by lia.
  set (r := dlp_thread_task_range (mk_task_id 0 ng (omp / per)) group_size 1 false).
  assert (owns (mk_task_id 0 ng (omp / per)) group_size 1 false i <->
          r.1 <= i < r.1 + (r.2 - r.1)) as Ho.
  { unfold owns. fold r. destruct r. simpl. lia. }
  clearbody r. case_decide as H1; case_decide as H2; try done; tauto.
Qed.

Lemma batch_calls_of i w :
  0 <= w < ng -> owns (mk_task_id 0 ng w) group_size 1 false i ->
  gemm_calls i calls =
    (fun omp => mk_call omp i (batch_thread bt omp) rntm_g ta (tag omp i)) <$> seqZ (w * per) per.
Proof using Henv Hbt Hgroup.
  intros Hw Hi. pose proof batch_per_pos as [Hper Hng].
  unfold calls, batch_calls, omp_threads. rewrite (env_full_team env Henv); fold per ng.
  2:{ destruct Hbt as (_ & -> & _). fold per ng. nia. }
  destruct Hbt as (_ & -> & _). fold per ng. rewrite (Z.mul_comm ng per).
  rewrite (seqZ_split per ng w) by lia. unfold gemm_calls. rewrite filter_bind, !bind_app.
  assert (forall x, 0 <= x -> x / per <> w ->
    ~ owns (mk_task_id 0 ng (x / per)) group_size 1 false i) as Hne.
  { intros x Hx Hxw Ho. apply Hxw. by apply (owns_unique 0 0 ng _ _ group_size 1 false i). }
  rewrite (bind_nil _ (seqZ 0 _)), (bind_nil _ (seqZ (per * (w + 1)) _)).
  - rewrite app_nil_r. simpl. rewrite (Z.mul_comm w per). apply bind_single.
    intros x Hx%elem_of_seqZ. assert (x / per = w) as Ew by (apply run_iff; lia).
    etransitivity; [apply batch_gemms_of; lia|]. rewrite Ew. by rewrite decide_True.
  - intros x Hx%elem_of_seqZ. etransitivity; [apply batch_gemms_of; nia|].
    rewrite decide_False; [done|]. apply Hne; [nia|]. rewrite run_iff by lia. nia.
  - intros x Hx%elem_of_seqZ. etransitivity; [apply batch_gemms_of; nia|].
    rewrite decide_False; [done|]. apply Hne; [nia|]. rewrite run_iff by lia. nia.
Qed.

Lemma batch_gemm_team comms rl i :
  0 <= i < group_size -> batch_gemm_ok bt (mk_launch comms calls rl) i.
Proof using Henv Hbt Hgroup.
  intros Hi. pose proof batch_per_pos as [Hper Hng].
  destruct (owns_exists ng group_size 1 false i) as (w & Hw & Ho); [lia..|].
  exists w. split; [done|]. simpl. rewrite (batch_calls_of i w) by auto. split.
  - destruct Hbt as ((_ & _ & Hprod) & _). fold per in Hprod. split.
    + rewrite <- list_fmap_compose, Hprod. apply reflexive_eq. simpl. fold per.
      assert (seqZ (w * per) per = Z.add (w * per) <$> seqZ 0 per) as ->
        by (rewrite fmap_add_seqZ; f_equal; lia).
      rewrite <- (list_fmap_id (seqZ 0 per)) at 2.
      rewrite <- list_fmap_compose. apply list_fmap_ext.
      intros x r [-> Hr]%lookup_seqZ. simpl.
      rewrite crem_nonneg by nia. rewrite Z.add_comm, Z.mod_add by lia.
      apply Z.mod_small. lia.
    + intros c (omp & -> & Ho'%elem_of_seqZ)%list_elem_of_fmap. simpl. fold per.
      split; [done|]. split; [done|]. split; [|by rewrite Hprod].
      rewrite cquot_nonneg by nia. f_equal. apply run_iff; [done|]. lia.
  - rewrite <- list_fmap_compose. apply list_fmap_id.
Qed.

Lemma batch_calls_gemm c : c ∈ calls -> 0 <= call_gemm c < group_size.
Proof using Hbt Hgroup.
  pose proof batch_per_pos as [Hper Hng].
  intros (omp & Hc & Homp)%list_elem_of_bind.
  apply list_elem_of_fmap in Hc as (i & -> & Hi%elem_of_seqZ). simpl.
  apply (owns_in_range 0 ng (omp `quot` per) group_size 1 false i); try lia.
  unfold owns. unfold batch_range in Hi. fold ng per in Hi.
  destruct (dlp_thread_task_range _ _ _ _). simpl in Hi. lia.
Qed.

Lemma batch_calls_exist i : 0 <= i < group_size -> exists c, c ∈ calls /\ call_gemm c = i.
Proof using Henv Hbt Hgroup.
  intros Hi. pose proof batch_per_pos as [Hper Hng].
  destruct (owns_exists ng group_size 1 false i) as (w & Hw & Ho); [lia..|].
  pose proof (batch_calls_of i w Hw (Ho 0)) as E.
  assert (mk_call (w * per) i (batch_thread bt (w * per)) rntm_g ta (tag (w * per) i)
    ∈ gemm_calls i calls) as [_ Hin]%list_elem_of_filter.
  { rewrite E. apply list_elem_of_fmap. eexists. split; [reflexivity|]. apply elem_of_seqZ. lia. }
  eexists. split; [exact Hin|done].
Qed.
End batch.

(** The promise of a batch decorator: every GEMM of the group has a complete team
    of its own threads, every element of it is computed by exactly one call of
    that team, nothing outside the group is touched, and the communicator of a
    call is in the array, fresh, and for exactly the calls of its GEMM that use
    it. *)
Record batch_launch_ok (group_size m n : Z) (bl : batch_launch) : Prop := {
  bo_team : forall i, 0 <= i < group_size -> batch_gemm_ok (bl_threading bl) (bl_launch bl) i;
  bo_cover : forall g MR NR i j, 0 <= g < group_size ->
    1 <= MR -> 1 <= NR -> 0 <= i < m -> 0 <= j < n ->
    exists! c, c ∈ gemm_calls g (launch_calls (bl_launch bl)) /\ call_owns m n MR NR i j c;
  bo_inside : forall c, c ∈ launch_calls (bl_launch bl) -> 0 <= call_gemm c < group_size;
  bo_comms : forall c, c ∈ launch_calls (bl_launch bl) ->
    exists comm, launch_comms (bl_launch bl) !!
        Z.to_nat (thr_comm (call_thread c) + call_comm c) = Some comm /\
      comm = dlp_task_comm_init (comm_n_threads comm) /\
      cnt (fun c' => call_comm c' =? call_comm c)
        (gemm_calls (call_gemm c) (launch_calls (bl_launch bl))) = comm_n_threads comm }.

Lemma teams_batch_ok group_size m n bl :
  let bt := bl_threading bl in
  1 <= b_ic_ways bt -> 1 <= b_jc_ways bt ->
  (forall i, 0 <= i < group_size -> batch_gemm_ok bt (bl_launch bl) i) ->
  (forall c, c ∈ launch_calls (bl_launch bl) -> 0 <= call_gemm c < group_size) ->
  launch_comms (bl_launch bl) =
    replicate (Z.to_nat (b_jc_ways bt * b_n_gemms_in_parallel bt)) (dlp_task_comm_init (b_ic_ways bt)) ->
  batch_launch_ok group_size m n bl.
Proof.
  intros bt Hic Hjc Hteam Hin Hcomms. split; [done| |done|].
  - intros g MR NR i j Hg ????. destruct (Hteam g Hg) as (w & Hw & Ht & _).
    by apply (team_cover (b_ic_ways bt) (b_jc_ways bt) (w * b_jc_ways bt)).
  - intros c Hc. destruct (Hteam _ (Hin c Hc)) as (w & Hw & Ht & _).
    assert (c ∈ gemm_calls (call_gemm c) (launch_calls (bl_launch bl))) as Hc'
      by (by apply list_elem_of_filter).
    pose proof (team_comm_bounds _ _ _ _ Hic Hjc Ht c Hc') as Hb.
    destruct (ft_ways _ _ _ _ Ht c Hc') as (_ & _ & -> & _).
    exists (dlp_task_comm_init (b_ic_ways bt)). rewrite Hcomms.
    split; [apply lookup_replicate_2; nia|]. split; [done|].
    by apply (team_comm_count (b_ic_ways bt) (b_jc_ways bt) (w * b_jc_ways bt)).
Qed.

(** ** The stores of the tag of B *)

Lemma store_tags_some x l arr :
  (forall i, i ∈ l -> 0 <= i < Z.of_nat (length arr)) ->
  exists arr', foldl (store_tag x) (Some arr) l = Some arr' /\ length arr' = length arr /\
    forall j, 0 <= j -> arr' !! Z.to_nat j = if decide (j ∈ l) then Some x else arr !! Z.to_nat j.
Proof.
  revert arr. induction l as [|i l IH]; intros arr Hl.
  - exists arr. split; [done|]. split; [done|]. intros j _. rewrite decide_False; [done|set_solver].
  - pose proof (Hl i ltac:(left)) as Hi. simpl.
    rewrite (proj2 (Z.leb_le 0 i)), (proj2 (Z.ltb_lt i _)) by lia. simpl.
    destruct (IH (<[Z.to_nat i := x]> arr)) as (arr' & -> & Hlen & Hj).
    { intros k Hk. rewrite length_insert. apply Hl. by right. }
    rewrite length_insert in Hlen. exists arr'. split; [done|]. split; [done|].
    intros j Hj0. rewrite Hj by done. destruct (decide (j = i)) as [->|Hne].
    + rewrite (decide_True (P := i ∈ i :: l)) by left.
      case_decide; [done|]. apply list_lookup_insert_eq. lia.
    + rewrite list_lookup_insert_ne by lia.
      destruct (decide (j ∈ l)); [by rewrite decide_True by (by right)|].
      rewrite decide_False; [done|]. by intros [?|?]%elem_of_cons.
Qed.

Lemma store_tags_none x l arr i :
  i ∈ l -> ~ 0 <= i < Z.of_nat (length arr) -> foldl (store_tag x) (Some arr) l = None.
Proof.
  assert (foldl (store_tag x) None l = None) as Hnone by (clear; induction l; done).
  revert arr Hnone. induction l as [|k l IH]; intros arr Hnone Hi Hout; [by apply elem_of_nil in Hi|].
  simpl. destruct (decide (0 <= k < Z.of_nat (length arr))) as [Hk|Hk].
  - rewrite (proj2 (Z.leb_le 0 k)), (proj2 (Z.ltb_lt k _)) by lia. simpl.
    apply elem_of_cons in Hi as [->|Hi]; [done|]. apply IH; [|done|by rewrite length_insert].
    clear. by induction l.
  - replace ((0 <=? k) && (k <? Z.of_nat (length arr))) with false; [exact Hnone|].
    symmetry. apply andb_false_iff. rewrite Z.leb_gt, Z.ltb_ge. lia.
Qed.

(** The steps before the parallel region. *)
Lemma batch_prefix env tsfx group_size m n k r lcntx a0 b0 :
  env_ok env -> num_threads r <> 0 ->
  exists bt r1 ta tb r2,
    batch_get_threading (env_platform env) tsfx group_size m n k r lcntx = Some (bt, r1) /\
    batch_threading_ok group_size (num_threads r) bt /\
    reconcile_packab (batch_reconcile_is_f32 tsfx) (env_platform env) (env_config env)
      m n k (b_ic_ways bt) (b_jc_ways bt) a0 b0 r1 lcntx = Some (ta, tb, r2).
Proof.
  intros Henv Hnt.
  destruct (batch_get_threading_policy (env_platform env) tsfx group_size m n k r lcntx Hnt)
    as (bt & r1 & E & Hok & _).
  destruct (reconcile_total (batch_reconcile_is_f32 tsfx) (env_platform env) (env_config env)
    m n k (b_ic_ways bt) (b_jc_ways bt) a0 b0 r1 lcntx (env_tables env Henv))
    as (ta & tb & r2 & E'); [apply Hok..|]. by exists bt, r1, ta, tb, r2.
Qed.

(** The parallel region of every batch decorator. *)
Lemma batch_region_ok env bt group_size nt r ta tag m n mta mtb :
  env_ok env -> batch_threading_ok group_size nt bt -> 0 <= group_size ->
  batch_launch_ok group_size m n
    (mk_batch_launch
       (mk_launch (replicate (Z.to_nat (b_jc_ways bt * b_n_gemms_in_parallel bt))
                     (dlp_task_comm_init (b_ic_ways bt)))
          (batch_calls env bt group_size r ta tag) r) bt mta mtb).
Proof.
  intros Henv Hbt Hg. pose proof Hbt as ((? & ? & _) & _).
  apply teams_batch_ok; simpl; try done.
  - intros i Hi. by apply (batch_gemm_team env bt group_size nt).
  - intros c. by apply (batch_calls_gemm env bt group_size nt).
Qed.

Lemma mc_stores env bt group_size nt r ta tag x arr :
  env_ok env -> batch_threading_ok group_size nt bt -> 0 <= group_size ->
  let calls := batch_calls env bt group_size r ta tag in
  (group_size <= Z.of_nat (length arr) ->
   exists arr', foldl (store_tag x) (Some arr) (call_gemm <$> calls) = Some arr' /\
     forall i, 0 <= i -> arr' !! Z.to_nat i =
       if decide (i < group_size) then Some x else arr !! Z.to_nat i) /\
  (Z.of_nat (length arr) < group_size ->
   foldl (store_tag x) (Some arr) (call_gemm <$> calls) = None).
Proof.
  intros Henv Hbt Hg calls. split.
  - intros Hlen. destruct (store_tags_some x (call_gemm <$> calls) arr) as (arr' & E & _ & Hj).
    { intros i (c & -> & Hc)%list_elem_of_fmap.
      pose proof (batch_calls_gemm env bt group_size nt r ta tag Hbt Hg c Hc). lia. }
    exists arr'. split; [done|]. intros i Hi. rewrite Hj by done.
    destruct (decide (i < group_size)) as [Hlt|Hge].
    + rewrite decide_True; [done|]. apply list_elem_of_fmap.
      destruct (batch_calls_exist env bt group_size nt r ta tag Henv Hbt Hg i) as (c & Hc & <-);
        [lia|]. by exists c.
    + rewrite decide_False; [done|]. intros (c & -> & Hc)%list_elem_of_fmap.
      pose proof (batch_calls_gemm env bt group_size nt r ta tag Hbt Hg c Hc). lia.
  - intros Hlen. apply (store_tags_none x _ arr (Z.of_nat (length arr))); [|lia].
    destruct (batch_calls_exist env bt group_size nt r ta tag Henv Hbt Hg (Z.of_nat (length arr)))
      as (c & Hc & E); [lia|]. apply list_elem_of_fmap. by exists c.
Qed.

Lemma batch_decorator_cases env seen sfx tsfx group_size m n k a0 mtag_a b0 mtag_b r lcntx ops :
  env_ok env -> num_threads r <> 0 -> 0 <= group_size ->
  batch_decorator_threading sfx = Some tsfx ->
  (mc_logic sfx = None \/ group_size <= Z.of_nat (length (b0 :: mtag_b)) ->
   exists bl,
     batch_dlp_gemm_openmp_thread_decorator env seen sfx group_size m n k (a0 :: mtag_a)
       (b0 :: mtag_b) r lcntx ops = Some bl /\ batch_launch_ok group_size m n bl) /\
  (mc_logic sfx <> None -> Z.of_nat (length (b0 :: mtag_b)) < group_size ->
     batch_dlp_gemm_openmp_thread_decorator env seen sfx group_size m n k (a0 :: mtag_a)
       (b0 :: mtag_b) r lcntx ops = None).
Proof.
  intros Henv Hnt Hg Hsfx. unfold batch_dlp_gemm_openmp_thread_decorator. rewrite Hsfx.
  destruct (batch_prefix env tsfx group_size m n k r lcntx a0 b0 Henv Hnt)
    as (bt & r1 & ta & tb & r2 & E1 & Hbt & E2).
  cbn [mbind option_bind]. rewrite E1. cbn [mbind option_bind lookup list_lookup]. rewrite E2.
  cbn [mbind option_bind]. rewrite init_comms_ok by apply (env_malloc env Henv).
  cbn [mbind option_bind]. pose proof Hbt as ((Hic & Hjc & _) & _).
  destruct (mc_logic sfx) as [op|] eqn:Emc.
  - destruct (pick_total sfx (env_config env) m n k (b_ic_ways bt) (b_jc_ways bt)
      (ops_post_op_list ops) tb (env_tables env Henv) Hic Hjc) as [x Hx]. rewrite Emc in Hx.
    rewrite Hx. cbn [mbind option_bind].
    set (tag := fun omp i => _). set (arr := <[0%nat:=tb]> _).
    destruct (mc_stores env bt group_size (num_threads r) r2 ta tag x arr Henv Hbt Hg) as [Hs Hn].
    assert (length arr = length (b0 :: mtag_b)) as Hlen by apply length_insert.
    rewrite <- Hlen. split.
    + intros [Hc|Hle]; [done|]. destruct (Hs Hle) as (arr' & -> & _).
      eexists. split; [reflexivity|]. by apply (batch_region_ok env bt group_size (num_threads r)).
    + intros _ Hlt. by rewrite (Hn Hlt).
  - split; [|done]. intros _. eexists. split; [reflexivity|].
    by apply (batch_region_ok env bt group_size (num_threads r)).
Qed.

(** C21. The batch decorators with OpenMP: for every data type, whenever the
    array of tags of B is as long as the weight-only types need, the launch is
    right: each GEMM of the group is computed, element by element exactly once,
    by one complete team of consecutive OpenMP threads with communicators of its
    own, and no call is for a GEMM outside the group. *)
Theorem batch_decorator_launch_ok (env : decor_env) (seen : Z -> Z -> bool) (sfx : gemm_sfx)
    (group_size m n k : Z) (a0 b0 : AOCL_DLP_MEMORY_TAG) (mtag_a mtag_b : list AOCL_DLP_MEMORY_TAG)
    (r : dlp_rntm_t) (lcntx : dlp_gemm_cntx_t) (ops : option dlp_gemm_ops_bundle_t) :
  env_ok env -> num_threads r <> 0 -> 0 <= group_size ->
  batch_decorator_threading sfx <> None ->
  (mc_logic sfx <> None -> group_size <= Z.of_nat (length (b0 :: mtag_b))) ->
  exists bl,
    batch_dlp_gemm_openmp_thread_decorator env seen sfx group_size m n k (a0 :: mtag_a)
      (b0 :: mtag_b) r lcntx ops = Some bl /\ batch_launch_ok group_size m n bl.
Proof.
  intros Henv Hnt Hg Hsfx Hlen.
  destruct (batch_decorator_threading sfx) as [tsfx|] eqn:E; [|done].
  apply (batch_decorator_cases env seen sfx tsfx); try done.
  destruct (mc_logic sfx); [right; by apply Hlen|by left].
Qed.

Lemma example_env_ok : env_ok (example_env example_config).
Proof. split; [done|done|split; reflexivity]. Defined.

Lemma batch_decorator_launch_ok_witness :
  exists bl,
    batch_dlp_gemm_openmp_thread_decorator (example_env example_config) (fun _ _ => false)
      f32f32f32of32 3 600 700 4000 [UNPACKED] [UNPACKED] (example_rntm 13) example_cntx None
      = Some bl /\ batch_launch_ok 3 600 700 bl.
Proof.
  apply (batch_decorator_launch_ok (example_env example_config) (fun _ _ => false)
    f32f32f32of32 3 600 700 4000 UNPACKED UNPACKED [] [] (example_rntm 13) example_cntx None);
    [exact example_env_ok|simpl; lia|lia|discriminate|simpl; intros H; destruct H; reflexivity].
Defined.

(** C30. The weight-only batch decorators (bf16 x s4 and bf16 x u4) store one tag
    per GEMM of the group into the caller's array: they are defined exactly when
    it has a tag for each.  A caller that passes the address of a single tag
    with a group of two or more GEMMs has memory past it overwritten. *)
Theorem batch_mp_tag_stores_in_bounds (env : decor_env) (seen : Z -> Z -> bool) (sfx : gemm_sfx)
    (group_size m n k : Z) (a0 b0 : AOCL_DLP_MEMORY_TAG) (mtag_a mtag_b : list AOCL_DLP_MEMORY_TAG)
    (r : dlp_rntm_t) (lcntx : dlp_gemm_cntx_t) (ops : option dlp_gemm_ops_bundle_t) :
  env_ok env -> num_threads r <> 0 -> 0 <= group_size ->
  sfx = bf16s4f32of32 \/ sfx = bf16u4f32of32 ->
  batch_dlp_gemm_openmp_thread_decorator env seen sfx group_size m n k (a0 :: mtag_a)
      (b0 :: mtag_b) r lcntx ops <> None
  <-> group_size <= Z.of_nat (length (b0 :: mtag_b)).
Proof.
  intros Henv Hnt Hg Hsfx.
  destruct (batch_decorator_cases env seen sfx bsfx_bf16bf16f32of32 group_size m n k a0 mtag_a
    b0 mtag_b r lcntx ops Henv Hnt Hg) as [H1 H2]; [by destruct Hsfx as [-> | ->]|].
  assert (mc_logic sfx <> None) as Hmc by (by destruct Hsfx as [-> | ->]).
  split.
  - intros Hne. destruct (Z.le_gt_cases group_size (Z.of_nat (length (b0 :: mtag_b)))) as [|Hgt];
      [done|]. by destruct Hne; apply H2.
  - intros Hle. destruct H1 as (bl & -> & _); [by right|done].
Qed.

Lemma batch_mp_tag_stores_in_bounds_witness :
  batch_dlp_gemm_openmp_thread_decorator (example_env example_config) (fun _ _ => false)
      bf16s4f32of32 2 100 600 64 [UNPACKED] [REORDERED] (example_rntm 8) example_cntx None <> None
  <-> 2 <= 1.
Proof.
  apply (batch_mp_tag_stores_in_bounds (example_env example_config) (fun _ _ => false)
    bf16s4f32of32 2 100 600 64 UNPACKED REORDERED [] [] (example_rntm 8) example_cntx None);
    [exact example_env_ok|simpl; lia|lia|left; reflexivity].
Defined.

Lemma sequential_calls_ok group_size m n r ta tb mta mtb :
  0 <= group_size ->
  batch_launch_ok group_size m n
    (mk_batch_launch (mk_launch [dlp_task_comm_init 1] (sequential_calls group_size r ta tb) r)
       (mk_batch 1 1 1 1 1) mta mtb).
Proof.
  intros Hg. apply teams_batch_ok; simpl; try done.
  - intros i Hi. exists 0. split; [done|]. simpl. unfold sequential_calls.
    rewrite gemm_calls_seqZ by done. rewrite decide_True by lia.
    split; [|done]. split; [done|]. by intros c ->%list_elem_of_singleton.
  - intros c (i & -> & Hi%elem_of_seqZ)%list_elem_of_fmap. simpl. lia.
Qed.

(** The other batch decorators: the grouped-quantization one keeps the same
    promise unless it needs more communicators than its static array and
    [malloc] fails, in which case it makes no call at all (and reports nothing);
    without OpenMP the GEMMs run one after the other in the order of the group. *)
Theorem other_batch_decorators_ok (env : decor_env) (sfx : gemm_sfx) (group_size m n k : Z)
    (a0 b0 : AOCL_DLP_MEMORY_TAG) (mtag_a mtag_b : list AOCL_DLP_MEMORY_TAG)
    (r : dlp_rntm_t) (lcntx : dlp_gemm_cntx_t) :
  (forall nt, 1 <= nt -> env_team env nt = nt) -> tables_ok (env_config env) ->
  num_threads r <> 0 -> 0 <= group_size ->
  (exists bl, batch_dlp_gemm_openmp_thread_decorator_grp env group_size m n k (a0 :: mtag_a)
       (b0 :: mtag_b) r lcntx = Some bl /\
     (launch_calls (bl_launch bl) = [] \/ batch_launch_ok group_size m n bl) /\
     (env_malloc_ok env = true -> batch_launch_ok group_size m n bl)) /\
  (exists bl, batch_dlp_gemm_thread_decorator env sfx group_size m n k (a0 :: mtag_a)
       (b0 :: mtag_b) r lcntx = Some bl /\ batch_launch_ok group_size m n bl /\
     (call_gemm <$> launch_calls (bl_launch bl)) = seqZ 0 group_size) /\
  (exists bl, batch_dlp_gemm_thread_decorator_grp group_size m n k (a0 :: mtag_a)
       (b0 :: mtag_b) r = Some bl /\ batch_launch_ok group_size m n bl /\
     (call_gemm <$> launch_calls (bl_launch bl)) = seqZ 0 group_size).
Proof.
  intros Hteam Hcfg Hnt Hg.
  assert (forall r' ta tb, (call_gemm <$> sequential_calls group_size r' ta tb) = seqZ 0 group_size)
    as Hseq.
  { intros. unfold sequential_calls. rewrite <- list_fmap_compose. apply list_fmap_id. }
  split_and!.
  - unfold batch_dlp_gemm_openmp_thread_decorator_grp.
    destruct (batch_get_threading_policy (env_platform env) bsfx_s8s8s32o32 group_size m n k r lcntx
      Hnt) as (bt & r1 & -> & Hbt & _). cbn [mbind option_bind lookup list_lookup].
    set (env' := mk_decor_env (env_platform env) (env_config env) (env_attrs env) true (env_team env)).
    assert (env_ok env') as Henv' by (by split).
    assert (batch_launch_ok group_size m n (mk_batch_launch (mk_launch
      (replicate (Z.to_nat (b_jc_ways bt * b_n_gemms_in_parallel bt)) (dlp_task_comm_init (b_ic_ways bt)))
      (batch_calls env bt group_size r1 a0 (fun _ _ => b0)) r1) bt (a0 :: mtag_a) (b0 :: mtag_b)))
      as Hok by apply (batch_region_ok env' bt group_size (num_threads r) r1 a0 _ _ _ _ _ Henv' Hbt Hg).
    unfold init_comms. destruct (_ && negb (env_malloc_ok env)) eqn:Em; eexists;
      (split; [reflexivity|]); split; auto.
    intros Hok'. rewrite Hok', andb_false_r in Em. done.
  - unfold batch_dlp_gemm_thread_decorator. cbn [mbind option_bind lookup list_lookup].
    destruct (reconcile_total (match sfx with f32f32f32of32 => true | _ => false end)
      (env_platform env) (env_config env) m n k 1 1 a0 b0 r lcntx Hcfg) as (ta & tb & r' & ->);
      [lia..|]. cbn [mbind option_bind].
    eexists. split; [reflexivity|]. split; [by apply sequential_calls_ok|apply Hseq].
  - eexists. split; [reflexivity|]. split; [by apply sequential_calls_ok|apply Hseq].
Qed.

Lemma other_batch_decorators_ok_witness :
  exists bl, batch_dlp_gemm_thread_decorator (example_env example_config) u8s8s32o32 5 100 200 64
    [UNPACKED] [PACK] (example_rntm 1) example_cntx = Some bl /\ batch_launch_ok 5 100 200 bl.
Proof.
  destruct (other_batch_decorators_ok (example_env example_config) u8s8s32o32 5 100 200 64
    UNPACKED PACK [] [] (example_rntm 1) example_cntx) as (_ & (bl & E & H & _) & _);
    [reflexivity|split; reflexivity|simpl; lia|lia|].
  exists bl. split; assumption.
Defined.
