(* ===== verification/ByteStore.v ===== *)
(** * Byte buffers written by a team of threads

    The reorder routines move bytes between two caller buffers from an OpenMP
    parallel region.  A buffer is the finite map of its allocated byte addresses;
    a thread is the sequence of its byte stores, and a run of the team is any
    interleaving of these sequences. *)
From S2P Require Import Prelude.
From stdpp Require Import gmap.
#[local] Open Scope Z_scope.

(** ** Stores *)

(** A buffer: addresses relative to its base pointer, with the byte they hold. *)
Abbreviation buffer := (gmap Z Z).

(** One store: address and byte. *)
Abbreviation store := (Z * Z)%type.

(** The [len] bytes from [a]; [None] if one of them is outside the buffer. *)
Definition load_bytes (m : buffer) (a len : Z) : option (list Z) :=
  mapM (fun i => m !! (a + i)) (seqZ 0 len).

(** A store outside the buffer is undefined behaviour. *)
Definition apply_store (m : buffer) (w : store) : option buffer :=
  if m !! w.1 then Some (<[w.1 := w.2]> m) else None.

Fixpoint apply_stores (m : buffer) (ws : list store) : option buffer :=
  match ws with
  | [] => Some m
  | w :: ws => m' ← apply_store m w; apply_stores m' ws
  end.

(** [memcpy] of the bytes [bs] to [a], and [memset] to zero. *)
Definition stores_at (a : Z) (bs : list Z) : list store := zip (seqZ a (Z.of_nat (length bs))) bs.

Definition memset_zero (a len : Z) : list store := (fun x => (x, 0)) <$> seqZ a len.

(** [memcpy(dst + d, src + s, len)] between different buffers. *)
Definition memcpy (src : buffer) (d s len : Z) : option (list store) :=
  stores_at d <$> load_bytes src s len.

(** The actions of a team in the order one execution performs them. *)
Inductive interleaving {A} : list (list A) -> list A -> Prop :=
  | interleaving_done ls : Forall (fun l => l = []) ls -> interleaving ls []
  | interleaving_step ls i w l ws :
      ls !! i = Some (w :: l) -> interleaving (<[i := l]> ls) ws -> interleaving ls (w :: ws).

(** ** Bytes with a settled value

    [settles v ws]: after any store of [ws] that does not write the final value
    [v a] of its address, one that does follows.  The condition survives
    concatenation and interleaving, and makes the result of the stores a
    function of [v]. *)
Fixpoint settles (v : Z -> Z) (ws : list store) : Prop :=
  match ws with
  | [] => True
  | w :: ws => (w.2 = v w.1 \/ (w.1, v w.1) ∈ ws) /\ settles v ws
  end.

Lemma settles_app v l l' : settles v l -> settles v l' -> settles v (l ++ l').
Proof.
  intros Hl Hl'. induction l as [|w l IH]; [done|]. destruct Hl as [Hw Hl].
  split; [|by apply IH]. rewrite elem_of_app. tauto.
Qed.

Lemma settles_final v l : (forall w, w ∈ l -> w.2 = v w.1) -> settles v l.
Proof.
  induction l as [|w l IH]; intros H; [done|]. split.
  - left. apply H. left.
  - apply IH. intros. apply H. by right.
Qed.

(** Stores that are overwritten where they are not final. *)
Lemma settles_overwritten v l l' :
  (forall w, w ∈ l -> w.2 = v w.1 \/ (w.1, v w.1) ∈ l') -> settles v l' -> settles v (l ++ l').
Proof.
  intros H Hl'. induction l as [|w l IH]; [done|]. split.
  - rewrite elem_of_app. destruct (H w); [left|tauto..].
  - apply IH. intros. apply H. by right.
Qed.

Lemma settles_apply v ws m :
  settles v ws -> (forall w, w ∈ ws -> is_Some (m !! w.1)) ->
  exists m', apply_stores m ws = Some m' /\
    forall a, (a ∈ ws.*1 -> m' !! a = Some (v a)) /\ (a ∉ ws.*1 -> m' !! a = m !! a).
Proof.
  revert m. induction ws as [|[a0 x] ws IH]; intros m; cbn [settles fst snd].
  { intros _ _. exists m. split; [done|]. intros a. split; [by intros ?%elem_of_nil|done]. }
  intros [Hx Hs] Hdom. destruct (Hdom (a0, x)) as [y Hy]; [left|]. cbn [fst] in Hy.
  destruct (IH (<[a0 := x]> m)) as (m' & Hm' & Hv); [done| |].
  { intros w Hw. apply lookup_insert_is_Some'. right. apply Hdom. by right. }
  exists m'. split; [cbn [apply_stores]; unfold apply_store; cbn; by rewrite Hy|].
  intros a. rewrite fmap_cons, elem_of_cons. cbn [fst]. destruct (Hv a) as [Hin Hout].
  destruct (decide (a ∈ ws.*1)) as [Ha|Ha]; [split; [intros _; by apply Hin|tauto]|].
  rewrite (Hout Ha). split.
  - intros [->|]; [|done]. rewrite lookup_insert_eq. destruct Hx as [->|Hx]; [done|].
    destruct Ha. by apply (list_elem_of_fmap_2 fst) in Hx.
  - intros Hne. apply lookup_insert_ne. intros ->. tauto.
Qed.

(** ** Interleavings *)

Lemma interleaving_elem {A} (ls : list (list A)) ws w :
  interleaving ls ws -> w ∈ ws <-> exists i l, ls !! i = Some l /\ w ∈ l.
Proof.
  induction 1 as [ls Hnil|ls i w' l ws Hi _ IH].
  - split; [by intros ?%elem_of_nil|]. intros (i & l & Hi & Hw).
    rewrite (Forall_lookup_1 _ _ _ _ Hnil Hi) in Hw. by apply elem_of_nil in Hw.
  - rewrite elem_of_cons, IH. split.
    + intros [->|(j & l' & Hj & Hw)]; [exists i, (w' :: l); split; [done|left]|].
      destruct (decide (i = j)) as [->|Hne].
      * rewrite list_lookup_insert_eq in Hj by by eapply lookup_lt_Some. simplify_eq.
        exists j, (w' :: l'). split; [done|by right].
      * rewrite list_lookup_insert_ne in Hj by done. eauto.
    + intros (j & l' & Hj & Hw). destruct (decide (i = j)) as [->|Hne].
      * simplify_eq. apply elem_of_cons in Hw as [->|Hw]; [by left|right].
        exists j, l. split; [|done]. apply list_lookup_insert_eq. by eapply lookup_lt_Some.
      * right. exists j, l'. by rewrite list_lookup_insert_ne.
Qed.

(** Keeping only some of the actions. *)
Lemma interleaving_filter {A} (P : A -> Prop) `{forall x, Decision (P x)} ls ws :
  interleaving ls ws -> interleaving (filter P <$> ls) (filter P ws).
Proof.
  induction 1 as [ls Hnil|ls i w l ws Hi _ IH].
  - constructor. apply Forall_fmap. eapply Forall_impl; [exact Hnil|]. by intros l ->.
  - rewrite filter_cons. rewrite list_fmap_insert in IH. case_decide as HP.
    + eapply interleaving_step; [|exact IH]. rewrite list_lookup_fmap, Hi.
      transitivity (Some (filter P (w :: l))); [done|]. by rewrite filter_cons_True.
    + rewrite list_insert_id in IH; [done|]. rewrite list_lookup_fmap, Hi.
      transitivity (Some (filter P (w :: l))); [done|]. by rewrite filter_cons_False.
Qed.

(** The actions of a run come in the order of their threads' own lists. *)
Lemma interleaving_fmap_inv {A B} (f : A -> B) (ls : list (list A)) ws :
  interleaving (map f <$> ls) ws -> exists us, ws = f <$> us /\ interleaving ls us.
Proof.
  intros H. remember (map f <$> ls) as fs eqn:E. revert ls E.
  induction H as [fs Hnil|fs i w l ws Hi _ IH]; intros ls ->.
  - exists []. split; [done|]. constructor. apply Forall_fmap in Hnil. eapply Forall_impl; [exact Hnil|].
    intros l Hl. by destruct l.
  - rewrite list_lookup_fmap in Hi. destruct (ls !! i) as [u|] eqn:Eu; [|done]. cbn in Hi. injection Hi as Hu.
    destruct u as [|x u]; [done|]. injection Hu as <- <-.
    destruct (IH (<[i := u]> ls)) as (us & -> & Hus); [by rewrite list_fmap_insert|].
    exists (x :: us). split; [done|]. by eapply interleaving_step.
Qed.

(** If only one thread acts, the run is that thread. *)
Lemma interleaving_single {A} (ls : list (list A)) ws i l :
  interleaving ls ws -> ls !! i = Some l ->
  (forall j l', ls !! j = Some l' -> j <> i -> l' = []) -> ws = l.
Proof.
  intros Hws. revert l. induction Hws as [ls Hnil|ls i' w l' ws Hi' _ IH]; intros l Hi Hother.
  - symmetry. apply (Forall_lookup_1 _ _ _ _ Hnil Hi).
  - destruct (decide (i' = i)) as [->|Hne]; [|by specialize (Hother _ _ Hi' Hne)].
    simplify_eq. f_equal. apply IH.
    + apply list_lookup_insert_eq. by eapply lookup_lt_Some.
    + intros j l2 Hj Hji. rewrite list_lookup_insert_ne in Hj by done. by apply (Hother j).
Qed.

Lemma interleaving_settles v ls ws :
  interleaving ls ws -> Forall (settles v) ls -> settles v ws.
Proof.
  induction 1 as [|ls i w l ws Hi Hws IH]; intros Hls; [done|].
  destruct (Forall_lookup_1 _ _ _ _ Hls Hi) as [Hw Hl]. split.
  - destruct Hw as [|Hw]; [by left|right]. apply (interleaving_elem _ _ _ Hws).
    exists i, l. split; [|done]. apply list_lookup_insert_eq. by eapply lookup_lt_Some.
  - apply IH. by apply Forall_insert.
Qed.

(** An interleaving exists: the threads one after the other. *)
Lemma interleaving_concat {A} (ls : list (list A)) : interleaving ls (concat ls).
Proof.
  assert (forall pre ls : list (list A), Forall (fun l => l = []) pre -> interleaving (pre ++ ls) (concat ls)) as H.
  { clear ls. intros pre ls. revert pre. induction ls as [|l ls IH]; intros pre Hpre.
    { rewrite app_nil_r. by constructor. }
    induction l as [|w l IHl]; simpl.
    - replace (pre ++ [] :: ls) with ((pre ++ [[]]) ++ ls) by by rewrite <- app_assoc.
      apply IH. apply Forall_app_2; [done|by constructor].
    - eapply interleaving_step with (i := length pre) (l := l); [by rewrite list_lookup_middle|].
      rewrite insert_app_r_alt by done. rewrite Nat.sub_diag. apply IHl. }
  apply (H [] ls). constructor.
Qed.

(** The result of the team on a buffer that contains its stores. *)
Lemma interleaving_apply v ls ws m :
  interleaving ls ws -> Forall (settles v) ls ->
  (forall l w, l ∈ ls -> w ∈ l -> is_Some (m !! w.1)) ->
  exists m', apply_stores m ws = Some m' /\ forall a,
    ((exists l w, l ∈ ls /\ w ∈ l /\ w.1 = a) -> m' !! a = Some (v a)) /\
    ((forall l w, l ∈ ls -> w ∈ l -> w.1 <> a) -> m' !! a = m !! a).
Proof.
  intros Hi Hs Hdom. pose proof (fun w => interleaving_elem ls ws w Hi) as He.
  destruct (settles_apply v ws m) as (m' & Hm' & Hv).
  - by apply (interleaving_settles v ls).
  - intros w (i & l & Hl & Hw)%He. apply (Hdom l); [|done]. by apply list_elem_of_lookup_2 in Hl.
  - exists m'. split; [done|]. intros a. split; intros H; apply Hv.
    + destruct H as (l & w & [i Hl]%list_elem_of_lookup & Hw & <-).
      apply list_elem_of_fmap_2, He. eauto.
    + intros (w & -> & (i & l & Hl & Hw)%He)%list_elem_of_fmap.
      apply list_elem_of_lookup_2 in Hl. by apply (H l w).
Qed.

(** Every interleaving has the same result: the final values on the set [X] of
    written bytes, the old buffer elsewhere. *)
Lemma interleaving_result v (X : Z -> Prop) ls m :
  Forall (settles v) ls ->
  (forall a, (exists l w, l ∈ ls /\ w ∈ l /\ w.1 = a) <-> X a) ->
  (forall a, X a -> is_Some (m !! a)) ->
  exists m', (forall ws, interleaving ls ws -> apply_stores m ws = Some m') /\
    (forall a, X a -> m' !! a = Some (v a)) /\ (forall a, ~ X a -> m' !! a = m !! a).
Proof.
  intros Hs HX Hm.
  assert (forall ws, interleaving ls ws -> exists m', apply_stores m ws = Some m' /\
    (forall a, X a -> m' !! a = Some (v a)) /\ (forall a, ~ X a -> m' !! a = m !! a)) as H.
  { intros ws Hi. destruct (interleaving_apply v ls ws m Hi Hs) as (m' & Hm' & Hv).
    { intros l w Hl Hw. apply Hm, HX. eauto. }
    exists m'. split; [done|]. split; intros a Ha; apply Hv; [by apply HX|].
    intros l w Hl Hw <-. apply Ha, HX. eauto. }
  destruct (H (concat ls) (interleaving_concat ls)) as (m' & Hm' & Hin & Hout).
  exists m'. split; [|done]. intros ws Hi. destruct (H ws Hi) as (m2 & -> & Hin2 & Hout2).
  f_equal. apply map_eq. intros a.
  destruct (decide (a ∈ (concat ls).*1)) as [Ha|Ha].
  - assert (X a) as HXa.
    { apply list_elem_of_fmap in Ha as (w & -> & Hw). apply list_elem_of_In, in_concat in Hw as (l & Hl%list_elem_of_In & Hw%list_elem_of_In).
      apply HX. eauto. }
    by rewrite Hin, Hin2.
  - assert (~ X a) as HXa.
    { intros (l & w & Hl & Hw & <-)%HX. apply Ha. apply list_elem_of_fmap_2.
      apply list_elem_of_In, in_concat. exists l. by rewrite <- !list_elem_of_In. }
    by rewrite Hout, Hout2.
Qed.

(** ** Loads and copies *)

Lemma load_bytes_ok (m : buffer) (v : Z -> Z) a len :
  (forall i, 0 <= i < len -> m !! (a + i) = Some (v i)) ->
  load_bytes m a len = Some (v <$> seqZ 0 len).
Proof.
  intros H. unfold load_bytes. apply mapM_Some. apply Forall2_fmap_r, Forall_Forall2_diag.
  apply Forall_forall. intros i Hi%elem_of_seqZ. apply H. lia.
Qed.

Lemma stores_at_elem (v : Z -> Z) a len w :
  w ∈ stores_at a (v <$> seqZ 0 len) <-> exists i, 0 <= i < len /\ w = (a + i, v i).
Proof.
  unfold stores_at. rewrite length_fmap, length_seqZ.
  replace (seqZ a (Z.of_nat (Z.to_nat len))) with (Z.add a <$> seqZ 0 len).
  - rewrite zip_with_fmap_l, zip_with_fmap_r, zip_with_diag. rewrite list_elem_of_fmap.
    split; intros (i & H); exists i; rewrite elem_of_seqZ in *; intuition; by simplify_eq.
  - rewrite fmap_add_seqZ, Z.add_0_r. destruct (decide (0 <= len)).
    + by rewrite Z2Nat.id.
    + by rewrite !seqZ_nil by lia.
Qed.

Lemma memcpy_ok (src : buffer) (v : Z -> Z) d s len :
  (forall i, 0 <= i < len -> src !! (s + i) = Some (v i)) ->
  exists ws, memcpy src d s len = Some ws /\
    forall w, w ∈ ws <-> exists i, 0 <= i < len /\ w = (d + i, v i).
Proof.
  intros H. unfold memcpy. rewrite (load_bytes_ok _ v) by done.
  eexists. split; [done|]. apply stores_at_elem.
Qed.

Lemma memset_zero_elem a len w : w ∈ memset_zero a len <-> a <= w.1 < a + len /\ w.2 = 0.
Proof.
  unfold memset_zero. rewrite list_elem_of_fmap. split.
  - intros (x & -> & Hx%elem_of_seqZ). done.
  - intros [Hw H2]. exists w.1. rewrite elem_of_seqZ. split; [destruct w; by simpl in *; subst|done].
Qed.
