(* ===== verification/ReorderLayout.v ===== *)
(** * The layout of reordered B panels
    (include/gemm_utils/dlp_gemm_reorder_layout.h, dlp_gemm_utils.h)

    How a [k x n] matrix is cut into [KC x NC] panels, a panel into chunks, and
    where an element of a chunk is stored; the position of every element as a
    closed formula, its injectivity, and the buffer size. *)
From S2P Require Import Prelude.

(** ** Definitions of the headers *)

Record dlp_reorder_chunk_t := mk_chunk {
  col_start : Z;
  cols : Z;
  slot : Z;
  offset : Z;
}.

Definition dlp_reorder_round_up (value to : Z) : Z :=
  if to <=? 0 then 0 else ((value + to - 1) `quot` to) * to.

Definition dlp_make_multiple_of_n (k n : Z) : Z :=
  if n <=? 0 then 0 else ((k + n - 1) `quot` n) * n.

Definition dlp_reorder_elem_offset (kr i slot k_factor : Z) : Z :=
  (kr `quot` k_factor) * (k_factor * slot) + i * k_factor + kr `rem` k_factor.

Definition dlp_reorder_panel_elems (nc0 kc0 min_NR k_factor : Z) : Z :=
  dlp_reorder_round_up nc0 min_NR * dlp_reorder_round_up kc0 k_factor.

Definition dlp_reorder_chunk_first : dlp_reorder_chunk_t := mk_chunk 0 0 0 0.

(** [dlp_reorder_chunk_next]: the result and the chunk after the call. *)
Definition dlp_reorder_chunk_next (chunk : dlp_reorder_chunk_t) (nc0 NR min_NR kc0_padded : Z)
    : bool * dlp_reorder_chunk_t :=
  let next_col := col_start chunk + cols chunk in
  let offset := offset chunk + slot chunk * kc0_padded in
  let moved := mk_chunk next_col (cols chunk) (slot chunk) offset in
  let remaining := nc0 - next_col in
  if remaining <=? 0 then (false, moved)
  else if (NR <=? 0) || (min_NR <=? 0) then (false, moved)
  else if NR <=? remaining then (true, mk_chunk next_col NR NR offset)
  else
    let whole := (remaining `quot` min_NR) * min_NR in
    if 0 <? whole then (true, mk_chunk next_col whole whole offset)
    else (true, mk_chunk next_col remaining min_NR offset).

Definition dlp_reorder_ref_blocks_legal (NR min_NR KC k_factor : Z) : bool :=
  (0 <? NR) && (0 <? KC) && (0 <? min_NR) && (0 <? k_factor) &&
  (NR `rem` min_NR =? 0) && (KC `rem` k_factor =? 0).

(** [msz_t] is [uint64_t]. *)
Definition DLP_MSZ_MAX : Z := 2 ^ 64 - 1.
Definition to_msz (x : Z) : Z := x mod 2 ^ 64.

(** [dlp_reorder_checked_mul_msz]: the product stored through [out], or [None]
    when the call returns [FALSE] and leaves [out] as it was. *)
Definition dlp_reorder_checked_mul_msz (a b : Z) : option Z :=
  if negb (a =? 0) && (DLP_MSZ_MAX / a <? b) then None
  else Some (to_msz (a * b)).

Definition dlp_reorder_size_bytes (rows cols elem_sz extra : Z) : option Z :=
  if (rows <? 0) || (cols <? 0) || (elem_sz <=? 0) then None
  else
    prod ← dlp_reorder_checked_mul_msz (to_msz rows) (to_msz cols);
    prod ← dlp_reorder_checked_mul_msz prod (to_msz elem_sz);
    if to_msz (DLP_MSZ_MAX - prod) <? extra then None
    else Some (to_msz (prod + extra)).

Definition dlp_gemm_get_Bpanel_width_for_kmd_traversal (jc n NC NR : Z) : Z :=
  let n_mod_NR := n `rem` NR in
  if negb (n `rem` NC =? 0) then
    let n_last_loop := (n `quot` NC) * NC in
    if n_last_loop <=? jc then
      let n_sub_updated := n - n_last_loop in
      if negb (n_mod_NR =? 0) then n_sub_updated + (NR - n_mod_NR) else n_sub_updated
    else NC
  else NC.

(** [( *panel_start, *panel_offset, *panel_width, *panel_width_kmd_trav)];
    [panel_width] is also an input. *)
Definition dlp_gemm_get_B_panel_reordered_start_offset_width (jc n NC NR panel_width : Z)
    : Z * Z * Z * Z :=
  let panel_start := (jc `quot` NC) * NC in
  let panel_offset := jc - panel_start in
  let panel_width := if panel_start + NC <? jc + panel_width then NC - panel_offset
                     else panel_width in
  (panel_start, panel_offset, panel_width, dlp_gemm_get_Bpanel_width_for_kmd_traversal jc n NC NR).

(** The new value of [*jc]. *)
Definition dlp_gemm_adjust_B_panel_reordered_jc (panel_start : Z) : Z := panel_start.

(** The loop [while (dlp_reorder_chunk_next(&chunk, ...))] over the chunks of a
    panel; a chunk has at least one column, so [chunk_fuel] is enough. *)
Fixpoint chunk_loop {A} (fuel : nat) (chunk : dlp_reorder_chunk_t) (nc0 NR min_NR kc0_padded : Z)
    (body : dlp_reorder_chunk_t -> option (list A)) : option (list A) :=
  match fuel with
  | O => None
  | S fuel =>
      let '(more, chunk) := dlp_reorder_chunk_next chunk nc0 NR min_NR kc0_padded in
      if more then
        l ← body chunk;
        r ← chunk_loop fuel chunk nc0 NR min_NR kc0_padded body;
        Some (l ++ r)
      else Some []
  end.

Definition chunk_fuel (nc0 : Z) : nat := S (Z.to_nat nc0).

(** ** Rounding *)

Lemma round_up_eq v to : 0 <= v -> 0 < to -> dlp_reorder_round_up v to = to * ((v + to - 1) / to).
Proof.
  intros. unfold dlp_reorder_round_up. rewrite (proj2 (Z.leb_gt to 0)) by lia. cdiv. lia.
Qed.

Lemma round_up_bounds v to :
  0 <= v -> 0 < to -> v <= dlp_reorder_round_up v to < v + to /\ (to | dlp_reorder_round_up v to).
Proof.
  intros. rewrite round_up_eq by done. split; [|apply Z.divide_factor_l].
  pose proof (ceil_div_bounds v to). lia.
Qed.

Lemma reorder_round_up_multiple v to : 0 <= v -> 0 < to -> (to | v) -> dlp_reorder_round_up v to = v.
Proof.
  intros Hv Hto [q ->]. rewrite round_up_eq by lia.
  replace (q * to + to - 1) with (to - 1 + q * to) by lia.
  rewrite Z.div_add, Z.div_small by lia. lia.
Qed.

Lemma round_up_least v to w : 0 <= v -> 0 < to -> v <= w -> (to | w) -> dlp_reorder_round_up v to <= w.
Proof.
  intros Hv Hto Hw Hd. pose proof (round_up_bounds v to Hv Hto) as [? [q Hq]].
  destruct Hd as [t ->]. rewrite Hq in *.
  assert (q < t + 1) by (apply (Z.mul_lt_mono_pos_r to); lia). nia.
Qed.

Lemma round_up_add v w to :
  0 <= v -> 0 <= w -> 0 < to -> (to | w) ->
  dlp_reorder_round_up (w + v) to = w + dlp_reorder_round_up v to.
Proof.
  intros Hv Hw Hto [q ->]. rewrite !round_up_eq by lia.
  replace (q * to + v + to - 1) with (v + to - 1 + q * to) by lia. rewrite Z.div_add by lia. lia.
Qed.

Lemma make_multiple_of_n_eq k n : dlp_make_multiple_of_n k n = dlp_reorder_round_up k n.
Proof. done. Qed.

(** Two decompositions in the same base. *)
Lemma decompose_unique b q1 r1 q2 r2 :
  0 <= r1 < b -> 0 <= r2 < b -> b * q1 + r1 = b * q2 + r2 -> q1 = q2 /\ r1 = r2.
Proof. intros ?? E. apply (Z.div_mod_unique b q1 q2 r1 r2); [by left..|done]. Qed.

Lemma decompose_bounds c W h y : 0 <= c < W -> 0 <= y < h -> 0 <= c * h + y < W * h.
Proof. nia. Qed.

Lemma decompose_bounds_le c W h H y :
  0 <= c < W -> 0 <= y < h -> h <= H -> 0 <= c * h + y < W * H.
Proof. intros. pose proof (decompose_bounds c W h y). nia. Qed.

(** ** The position of an element in its chunk *)

Lemma elem_offset_bounds kr i slot kf kp :
  0 < kf -> (kf | kp) -> 0 <= kr < kp -> 0 <= i < slot ->
  0 <= dlp_reorder_elem_offset kr i slot kf < slot * kp.
Proof.
  intros Hkf [q ->] Hkr Hi. unfold dlp_reorder_elem_offset. cdiv.
  pose proof (Z.div_mod kr kf ltac:(lia)). pose proof (Z.mod_pos_bound kr kf ltac:(lia)).
  assert (0 <= kr / kf < q) by (split; [apply Z.div_pos; lia|apply Z.div_lt_upper_bound; lia]).
  assert (i * kf + kr mod kf < kf * slot) by nia.
  assert (kr / kf * (kf * slot) <= (q - 1) * (kf * slot)) by nia. nia.
Qed.

Lemma elem_offset_inj kr1 kr2 i1 i2 slot kf :
  0 < kf -> 0 <= kr1 -> 0 <= kr2 -> 0 <= i1 < slot -> 0 <= i2 < slot ->
  dlp_reorder_elem_offset kr1 i1 slot kf = dlp_reorder_elem_offset kr2 i2 slot kf ->
  kr1 = kr2 /\ i1 = i2.
Proof.
  intros Hkf Hk1 Hk2 Hi1 Hi2. unfold dlp_reorder_elem_offset. cdiv. intros E.
  pose proof (Z.mod_pos_bound kr1 kf ltac:(lia)). pose proof (Z.mod_pos_bound kr2 kf ltac:(lia)).
  destruct (decompose_unique (kf * slot) (kr1 / kf) (kf * i1 + kr1 mod kf)
              (kr2 / kf) (kf * i2 + kr2 mod kf)) as [E1 E2]; [nia..|].
  destruct (decompose_unique kf i1 (kr1 mod kf) i2 (kr2 mod kf)) as [E3 E4]; [lia..|].
  split; [|done]. rewrite (Z.div_mod kr1 kf), (Z.div_mod kr2 kf) by lia. lia.
Qed.

(** ** The chunks of a panel

    [chunk_of n NR m j]: first column and slot width of the chunk that holds
    column [j] of [n] columns. *)
Definition chunk_of (n NR m j : Z) : Z * Z :=
  let g := NR * (j / NR) in
  if g + NR <=? n then (g, NR)
  else
    let w := m * ((n - g) / m) in
    if j <? g + w then (g, w) else (g + w, m).

(** The chunk record of the walk at column [j]. *)
Definition chunk_at (n NR m kp j : Z) : dlp_reorder_chunk_t :=
  let '(g, s) := chunk_of n NR m j in mk_chunk g (Z.min s (n - g)) s (g * kp).

Section chunks.
Context (NR m : Z).
Hypothesis HNR : 0 < NR.
Hypothesis Hm : 0 < m.
Hypothesis HmNR : (m | NR).

Lemma block_bounds j : NR * (j / NR) <= j < NR * (j / NR) + NR.
Proof using HNR. pose proof (Z.div_mod j NR). pose proof (Z.mod_pos_bound j NR). lia. Qed.

Lemma block_unique g j : (NR | g) -> g <= j < g + NR -> NR * (j / NR) = g.
Proof using HNR. intros [q ->] Hj. rewrite <- (Z.div_unique j NR q (j - NR * q)) by lia. lia. Qed.

Lemma chunk_of_bounds n j g s :
  0 <= j < n -> chunk_of n NR m j = (g, s) ->
  NR * (j / NR) <= g /\ g <= j < g + s /\ g + s <= NR * (j / NR) + NR /\
  (m | g) /\ (m | s) /\ 0 < s /\ (g + s <= n \/ n < g + s /\ s = m).
Proof using HNR Hm HmNR.
  intros Hj E. unfold chunk_of in E. pose proof (block_bounds j) as Hb.
  set (b := NR * (j / NR)) in *.
  assert (m | b) as Hdb by (by apply Z.divide_mul_l).
  destruct (Z.leb_spec (b + NR) n); [injection E as <- <-; split_and!; try done; lia|].
  assert (m * ((n - b) / m) <= n - b < m * ((n - b) / m) + m) as Hw.
  { pose proof (Z.div_mod (n - b) m). pose proof (Z.mod_pos_bound (n - b) m). lia. }
  set (w := m * ((n - b) / m)) in *.
  assert (m | w) as Hdw by apply Z.divide_factor_l.
  assert (0 <= w) by (apply Z.mul_nonneg_nonneg; [lia|apply Z.div_pos; lia]).
  destruct (Z.ltb_spec j (b + w)); injection E as <- <-; [split_and!; try done; lia|].
  assert (w + m <= NR) as Hfit.
  { destruct HmNR as [q HNRq]. subst w. assert ((n - b) / m < q); [|nia].
    apply Z.div_lt_upper_bound; lia. }
  split_and!; try done; try lia. by apply Z.divide_add_r.
Qed.

(** Chunks whose slots overlap are the same chunk. *)
Lemma chunk_of_overlap n j1 j2 g1 s1 g2 s2 c :
  0 <= j1 < n -> 0 <= j2 < n ->
  chunk_of n NR m j1 = (g1, s1) -> chunk_of n NR m j2 = (g2, s2) ->
  g1 <= c < g1 + s1 -> g2 <= c < g2 + s2 -> g1 = g2 /\ s1 = s2.
Proof using HNR Hm HmNR.
  intros Hj1 Hj2 E1 E2 Hc1 Hc2.
  pose proof (chunk_of_bounds n j1 g1 s1 Hj1 E1) as (? & ? & ? & _).
  pose proof (chunk_of_bounds n j2 g2 s2 Hj2 E2) as (? & ? & ? & _).
  assert (NR * (j1 / NR) = NR * (j2 / NR)) as Eb.
  { rewrite <- (block_unique (NR * (j1 / NR)) c), <- (block_unique (NR * (j2 / NR)) c);
      try apply Z.divide_factor_l; lia. }
  unfold chunk_of in E1, E2. rewrite Eb in E1.
  destruct (Z.leb_spec (NR * (j2 / NR) + NR) n); [by simplify_eq|].
  destruct (Z.ltb_spec j1 (NR * (j2 / NR) + m * ((n - NR * (j2 / NR)) / m))),
    (Z.ltb_spec j2 (NR * (j2 / NR) + m * ((n - NR * (j2 / NR)) / m)));
    simplify_eq; lia.
Qed.

Lemma chunk_of_in n j c g s :
  0 <= j < n -> chunk_of n NR m j = (g, s) -> g <= c < g + s -> c < n -> chunk_of n NR m c = (g, s).
Proof using HNR Hm HmNR.
  intros Hj E Hc Hcn. destruct (chunk_of n NR m c) as [g' s'] eqn:E'.
  pose proof (chunk_of_bounds n j g s Hj E) as (? & ? & ? & _ & _ & _ & _).
  assert (0 <= NR * (j / NR)) by (apply Z.mul_nonneg_nonneg, Z.div_pos; lia).
  pose proof (chunk_of_bounds n c g' s' ltac:(lia) E') as (_ & ? & _).
  by destruct (chunk_of_overlap n j c g s g' s' c) as [-> ->]; try done; lia.
Qed.

(** The chunks of a tile that starts on a multiple of [NR] are the chunks of the
    whole matrix. *)
Lemma chunk_of_tile n jc nc0 c g s :
  (NR | jc) -> 0 <= c < nc0 -> jc + nc0 <= n -> jc + nc0 = n \/ (NR | nc0) ->
  chunk_of nc0 NR m c = (g, s) -> chunk_of n NR m (jc + c) = (jc + g, s).
Proof using HNR.
  intros [q ->] Hc Hle Hend. unfold chunk_of.
  replace (q * NR + c) with (c + q * NR) by lia. rewrite Z.div_add by lia.
  replace (NR * (c / NR + q)) with (q * NR + NR * (c / NR)) by lia.
  pose proof (block_bounds c) as Hb. set (b := NR * (c / NR)) in *.
  destruct (Z.leb_spec (b + NR) nc0).
  { intros [= <- <-]. by rewrite (proj2 (Z.leb_le _ _)) by lia. }
  destruct Hend as [<-|[t ->]].
  2: { exfalso. subst b. assert (c / NR + 1 > t); nia. }
  rewrite (proj2 (Z.leb_gt _ _)) by lia.
  replace (q * NR + nc0 - (q * NR + b)) with (nc0 - b) by lia.
  destruct (Z.ltb_spec c (b + m * ((nc0 - b) / m))), (Z.ltb_spec (c + q * NR) (q * NR + b + m * ((nc0 - b) / m)));
    intros [= <- <-]; try lia; f_equal; lia.
Qed.

(** One call of [dlp_reorder_chunk_next]. *)
Lemma chunk_next_ok c n kp :
  let s := col_start c + cols c in
  0 <= s -> (s < n -> (chunk_of n NR m s).1 = s /\ offset c + slot c * kp = s * kp) ->
  if decide (s < n)
  then dlp_reorder_chunk_next c n NR m kp = (true, chunk_at n NR m kp s) /\
       s < s + cols (chunk_at n NR m kp s)
  else (dlp_reorder_chunk_next c n NR m kp).1 = false.
Proof using HNR Hm HmNR.
  intros s Hs Hinv. unfold dlp_reorder_chunk_next. fold s.
  destruct (decide (s < n)) as [Hlt|Hge].
  2: { by rewrite (proj2 (Z.leb_le (n - s) 0)) by lia. }
  destruct (Hinv Hlt) as [E1 E2]. rewrite E2.
  rewrite (proj2 (Z.leb_gt (n - s) 0)), (proj2 (Z.leb_gt NR 0)), (proj2 (Z.leb_gt m 0)) by lia.
  cbn [orb]. unfold chunk_at. unfold chunk_of in *. pose proof (block_bounds s) as Hb.
  set (b := NR * (s / NR)) in *.
  assert (m * ((n - b) / m) <= n - b < m * ((n - b) / m) + m) as Hw.
  { pose proof (Z.div_mod (n - b) m). pose proof (Z.mod_pos_bound (n - b) m). lia. }
  rewrite (cquot_nonneg (n - s) m) by lia.
  destruct (Z.leb_spec (b + NR) n) as [Hfull|Hpart]; cbn [fst] in E1.
  { rewrite <- E1 in *. rewrite (proj2 (Z.leb_le NR (n - b))), Z.min_l by lia.
    split; [done|simpl; lia]. }
  assert (Z.leb NR (n - s) = false) as -> by (apply Z.leb_gt; destruct (Z.ltb_spec s (b + m * ((n - b) / m))); cbn [fst] in E1; lia).
  destruct (Z.ltb_spec s (b + m * ((n - b) / m))) as [Hfr|Htl]; cbn [fst] in E1.
  - rewrite <- E1 in *. rewrite (proj2 (Z.ltb_lt 0 _)), Z.min_l by lia.
    rewrite (Z.mul_comm _ m). split; [done|simpl; lia].
  - assert ((n - s) / m = 0) as -> by (apply Z.div_small; lia).
    rewrite Z.mul_0_l, Z.ltb_irrefl, E1, Z.min_r by lia. split; [done|simpl; lia].
Qed.

(** The chunk after the one at column [s] begins where that one ends. *)
Lemma chunk_at_next n kp s :
  0 <= s < n -> (chunk_of n NR m s).1 = s ->
  let c := chunk_at n NR m kp s in
  let s' := col_start c + cols c in
  s' < n -> (chunk_of n NR m s').1 = s' /\ offset c + slot c * kp = s' * kp.
Proof using HNR Hm HmNR.
  intros Hs E. unfold chunk_at. destruct (chunk_of n NR m s) as [g sl] eqn:Es. cbn [fst] in E. subst g.
  cbn [col_start cols slot offset]. intros Hlt.
  pose proof (chunk_of_bounds n s s sl ltac:(lia) Es) as (_ & ? & _).
  assert (Z.min sl (n - s) = sl) as Emin by lia. rewrite Emin in *. split; [|lia].
  destruct (chunk_of n NR m (s + sl)) as [g' sl'] eqn:E'. cbn [fst].
  pose proof (chunk_of_bounds n (s + sl) g' sl' ltac:(lia) E') as (_ & Hg' & _).
  destruct (decide (g' = s + sl)) as [|Hne]; [done|exfalso].
  destruct (chunk_of_overlap n s (s + sl) s sl g' sl' (s + sl - 1)); try done; lia.
Qed.

Lemma chunk_at_in n kp s j :
  0 <= s < n -> s <= j < s + cols (chunk_at n NR m kp s) -> (chunk_of n NR m s).1 = s ->
  chunk_at n NR m kp j = chunk_at n NR m kp s.
Proof using HNR Hm HmNR.
  intros Hs Hj E. unfold chunk_at in *. destruct (chunk_of n NR m s) as [g sl] eqn:Es. cbn in *. subst g.
  by rewrite (chunk_of_in n s j s sl) by (try done; lia).
Qed.

(** The whole walk terminates and visits the chunk of every column. *)
Lemma chunk_loop_ok {A} (Q : (Z -> Prop) -> list A -> Prop)
    (Qnil : forall X, (forall a, ~ X a) -> Q X [])
    (Qapp : forall X Y Z l l', (forall a, Z a <-> X a \/ Y a) -> Q X l -> Q Y l' -> Q Z (l ++ l'))
    n kp body (X : dlp_reorder_chunk_t -> Z -> Prop) fuel c :
  let s := col_start c + cols c in
  0 <= s -> (s < n -> (chunk_of n NR m s).1 = s /\ offset c + slot c * kp = s * kp) ->
  Z.max 0 (n - s) < Z.of_nat fuel ->
  (forall j, s <= j < n ->
     exists l, body (chunk_at n NR m kp j) = Some l /\ Q (X (chunk_at n NR m kp j)) l) ->
  exists l, chunk_loop fuel c n NR m kp body = Some l /\
    Q (fun a => exists j, s <= j < n /\ X (chunk_at n NR m kp j) a) l.
Proof using HNR Hm HmNR.
  revert c. induction fuel as [|fuel IH]; intros c s Hs Hinv Hf Hb; [lia|].
  cbn [chunk_loop]. pose proof (chunk_next_ok c n kp Hs Hinv) as Hn. fold s in Hn.
  destruct (decide (s < n)) as [Hlt|Hge].
  2: { destruct (dlp_reorder_chunk_next c n NR m kp) as [more c']. cbn in Hn. subst more.
       exists []. split; [done|]. apply Qnil. intros a (j & ? & _). lia. }
  destruct Hn as [-> Hgrow]. destruct (Hinv Hlt) as [Hg _].
  assert (col_start (chunk_at n NR m kp s) = s) as Hcs.
  { unfold chunk_at. destruct (chunk_of n NR m s); by cbn in *. }
  destruct (Hb s) as (l & -> & HQ); [lia|].
  destruct (IH (chunk_at n NR m kp s)) as (r & Hr & HR); rewrite ?Hcs; [lia| |lia| |].
  { rewrite <- Hcs. rewrite !Hcs. pose proof (chunk_at_next n kp s ltac:(lia) Hg) as H.
    cbn zeta in H. by rewrite Hcs in H. }
  { intros j Hj. apply Hb. lia. }
  cbn. rewrite Hr. cbn. eexists. split; [done|]. eapply Qapp; [|exact HQ|exact HR].
  rewrite Hcs. intros a. split.
  - intros (j & Hj & HX). destruct (decide (j < s + cols (chunk_at n NR m kp s))).
    + left. by rewrite (chunk_at_in n kp s j) in HX by (try done; lia).
    + right. exists j. split; [lia|done].
  - intros [HX|(j & Hj & HX)]; [by exists s; split; [lia|]|]. exists j. split; [lia|done].
Qed.
End chunks.

(** ** Positions in the reordered matrix

    The panel of column [j] starts at column [NC * (j / NC)] and the k block of
    row [p] at row [KC * (p / KC)].  A packed address is determined by the panel
    start, the k block, a column index [c] of the panel (padding included) and an
    index [y] below the padded height of the block. *)
Section position.
Context (n k NR m NC KC kf : Z).

Definition k_padded : Z := dlp_reorder_round_up k kf.

Definition panel_width (P : Z) : Z :=
  if P + NC <=? n then NC else dlp_reorder_round_up (n - P) m.

Definition block_height (pc : Z) : Z := dlp_reorder_round_up (Z.min (k - pc) KC) kf.

Definition packed_index (P pc c y : Z) : Z :=
  P * k_padded + panel_width P * pc + c * block_height pc + y.

(** Where the reordered buffer holds row [p], column [j]. *)
Definition elem_pos (p j : Z) : Z :=
  let P := NC * (j / NC) in
  let pc := KC * (p / KC) in
  let '(g, s) := chunk_of n NR m j in
  packed_index P pc (g - P) (dlp_reorder_elem_offset (p - pc) (j - g) s kf).

Definition packed_elems : Z := dlp_reorder_round_up n m * k_padded.

Record layout_ok : Prop := mk_layout_ok {
  lo_NR : 0 < NR;
  lo_m : 0 < m;
  lo_m_NR : (m | NR);
  lo_NC : 0 < NC;
  lo_NR_NC : (NR | NC);
  lo_KC : 0 < KC;
  lo_kf : 0 < kf;
  lo_kf_KC : (kf | KC);
  lo_n : 0 <= n;
  lo_k : 0 <= k;
}.

Hypothesis Hl : layout_ok.

Lemma layout_m_NC : (m | NC).
Proof using Hl. destruct Hl. by transitivity NR. Qed.

Lemma panel_width_bounds P :
  0 <= P < n -> (NC | P) -> 0 < panel_width P <= NC /\ (m | panel_width P) /\
  P + panel_width P <= dlp_reorder_round_up n m /\ Z.min n (P + NC) <= P + panel_width P.
Proof using Hl.
  intros HP HdP. pose proof layout_m_NC as HmNC. destruct Hl. unfold panel_width.
  pose proof (round_up_bounds n m ltac:(lia) ltac:(done)) as [? _].
  destruct (Z.leb_spec (P + NC) n); [split_and!; try done; lia|].
  pose proof (round_up_bounds (n - P) m ltac:(lia) ltac:(done)) as [? Hd].
  pose proof (round_up_least (n - P) m NC ltac:(lia) ltac:(done) ltac:(lia) HmNC).
  assert (dlp_reorder_round_up (P + (n - P)) m = P + dlp_reorder_round_up (n - P) m) as E.
  { apply round_up_add; try lia. by transitivity NC. }
  replace (P + (n - P)) with n in E by lia. split_and!; try done; lia.
Qed.

(** The code's panel width is the one of the panel that holds [jc]. *)
Lemma kmd_width_eq jc :
  0 <= jc < n ->
  dlp_gemm_get_Bpanel_width_for_kmd_traversal jc n NC m = panel_width (NC * (jc / NC)).
Proof using Hl.
  intros Hj. pose proof layout_m_NC as [t Ht]. destruct Hl.
  unfold dlp_gemm_get_Bpanel_width_for_kmd_traversal, panel_width. cdiv.
  pose proof (block_bounds NC lo_NC0 jc) as HP. pose proof (Z.div_mod n NC ltac:(lia)) as Hn.
  pose proof (Z.mod_pos_bound n NC ltac:(lia)). set (q := jc / NC) in *.
  destruct (Z.eqb_spec (n mod NC) 0) as [H0|H0]; cbn [negb].
  { assert (q < n / NC) by nia. rewrite (proj2 (Z.leb_le _ _)) by nia. done. }
  destruct (Z.leb_spec (n / NC * NC) jc).
  - assert (q = n / NC) as -> by nia. rewrite (proj2 (Z.leb_gt _ _)) by lia.
    replace (n - n / NC * NC) with (n mod NC) by lia. replace (n - NC * (n / NC)) with (n mod NC) by lia.
    assert (n mod m = (n mod NC) mod m) as ->.
    { rewrite Hn at 1. rewrite Ht at 1.
      replace (t * m * (n / NC) + n mod NC) with (n mod NC + t * (n / NC) * m) by lia.
      apply Z.mod_add. lia. }
    set (r := n mod NC) in *. rewrite round_up_eq by lia. clearbody r.
    pose proof (Z.div_mod r m ltac:(lia)). pose proof (Z.mod_pos_bound r m ltac:(lia)).
    destruct (Z.eqb_spec (r mod m) 0) as [Hr|Hr]; cbn [negb].
    + rewrite <- (Z.div_unique (r + m - 1) m (r / m) (m - 1)); lia.
    + rewrite <- (Z.div_unique (r + m - 1) m (r / m + 1) (r mod m - 1)); lia.
  - assert (q < n / NC) by nia. rewrite (proj2 (Z.leb_le _ _)) by nia. done.
Qed.

Lemma block_height_bounds pc :
  0 <= pc < k -> (KC | pc) ->
  Z.min (k - pc) KC <= block_height pc <= KC /\ 0 < block_height pc /\
  (kf | block_height pc) /\ pc + block_height pc <= k_padded.
Proof using Hl.
  intros Hpc Hd. destruct Hl. unfold block_height, k_padded.
  pose proof (round_up_bounds (Z.min (k - pc) KC) kf ltac:(lia) ltac:(done)) as [? ?].
  pose proof (round_up_least (Z.min (k - pc) KC) kf KC ltac:(lia) ltac:(done) ltac:(lia) ltac:(done)).
  split_and!; try done; try lia.
  rewrite <- round_up_add; [|lia|lia|done|by transitivity KC].
  pose proof (round_up_bounds k kf ltac:(lia) ltac:(done)) as [? ?].
  apply round_up_least; lia || done.
Qed.

(** The rows and columns of a panel coordinate. *)
Definition coord_ok (P pc c y : Z) : Prop :=
  (0 <= P < n /\ (NC | P)) /\ (0 <= pc < k /\ (KC | pc)) /\
  0 <= c < panel_width P /\ 0 <= y < block_height pc.

Lemma packed_index_bounds P pc c y :
  coord_ok P pc c y -> P * k_padded <= packed_index P pc c y < (P + panel_width P) * k_padded.
Proof using Hl.
  intros ([HP HdP] & [Hpc Hdpc] & Hc & Hy). unfold packed_index.
  pose proof (block_height_bounds pc Hpc Hdpc) as (? & ? & _ & ?).
  pose proof (decompose_bounds c _ _ y Hc Hy). split; [nia|].
  assert (panel_width P * pc + panel_width P * block_height pc <= panel_width P * k_padded) by nia. lia.
Qed.

Lemma packed_index_in_buffer P pc c y :
  coord_ok P pc c y -> 0 <= packed_index P pc c y < packed_elems.
Proof using Hl.
  intros H. pose proof (packed_index_bounds P pc c y H). destruct H as ([HP HdP] & [Hpc Hdpc] & _).
  pose proof (panel_width_bounds P HP HdP) as (_ & _ & ? & _).
  pose proof (block_height_bounds pc Hpc Hdpc) as (_ & ? & _ & ?). unfold packed_elems. nia.
Qed.

Lemma packed_index_inj P1 pc1 c1 y1 P2 pc2 c2 y2 :
  coord_ok P1 pc1 c1 y1 -> coord_ok P2 pc2 c2 y2 ->
  packed_index P1 pc1 c1 y1 = packed_index P2 pc2 c2 y2 ->
  P1 = P2 /\ pc1 = pc2 /\ c1 = c2 /\ y1 = y2.
Proof using Hl.
  intros H1 H2 E. pose proof (packed_index_bounds _ _ _ _ H1). pose proof (packed_index_bounds _ _ _ _ H2).
  destruct H1 as ([HP1 HdP1] & [Hpc1 Hdpc1] & Hc1 & Hy1), H2 as ([HP2 HdP2] & [Hpc2 Hdpc2] & Hc2 & Hy2).
  pose proof (panel_width_bounds P1 HP1 HdP1) as (HW1 & _). pose proof (panel_width_bounds P2 HP2 HdP2) as (HW2 & _).
  pose proof (block_height_bounds pc1 Hpc1 Hdpc1) as (Hh1 & ? & _ & ?).
  pose proof (block_height_bounds pc2 Hpc2 Hdpc2) as (Hh2 & ? & _ & ?).
  assert (P1 = P2) as ->.
  { destruct HdP1 as [q1 ->], HdP2 as [q2 ->].
    destruct (decompose_unique (NC * k_padded) q1 (packed_index (q1 * NC) pc1 c1 y1 - q1 * NC * k_padded)
      q2 (packed_index (q2 * NC) pc2 c2 y2 - q2 * NC * k_padded)) as [-> _]; [nia..|lia|done]. }
  unfold packed_index in E. set (W := panel_width P2) in *.
  assert (pc1 = pc2) as ->.
  { destruct Hdpc1 as [q1 ->], Hdpc2 as [q2 ->].
    destruct (decompose_unique (W * KC) q1 (c1 * block_height (q1 * KC) + y1)
      q2 (c2 * block_height (q2 * KC) + y2)) as [-> _];
      [apply decompose_bounds_le; lia..|lia|done]. }
  destruct (decompose_unique (block_height pc2) c1 y1 c2 y2); [lia..|]. done.
Qed.

(** A packed address decodes to a panel coordinate: first the panel, *)
Lemma panel_decode x :
  0 <= x < packed_elems -> exists P, (0 <= P < n /\ (NC | P)) /\
    P * k_padded <= x < (P + panel_width P) * k_padded.
Proof using Hl.
  intros Hx. unfold packed_elems in Hx. pose proof layout_m_NC as HmNC. pose proof Hl as [].
  pose proof (round_up_bounds n m ltac:(lia) ltac:(done)) as [Hrn Hdn].
  pose proof (round_up_bounds k kf ltac:(lia) ltac:(done)) as [Hrk Hdk].
  fold k_padded in Hrk, Hdk. assert (0 < k_padded) by nia.
  set (P := NC * (x / (NC * k_padded))).
  pose proof (Z.div_mod x (NC * k_padded) ltac:(lia)) as Ex.
  pose proof (Z.mod_pos_bound x (NC * k_padded) ltac:(lia)) as Hmod.
  assert (0 <= x / (NC * k_padded)) by (apply Z.div_pos; lia).
  assert (NC | P) as HdP by apply Z.divide_factor_l.
  assert (P * k_padded <= x < (P + NC) * k_padded) as HxP by lia.
  exists P. assert (0 <= P < n) as HP; [|split; [done|split; [lia|]]].
  { split; [lia|]. destruct (Z.lt_ge_cases P n) as [|Hge]; [done|].
    pose proof (round_up_least n m P ltac:(lia) ltac:(done) Hge (Z.divide_trans _ _ _ HmNC HdP)). nia. }
  unfold panel_width. destruct (Z.leb_spec (P + NC) n); [lia|].
  rewrite <- round_up_add; [|lia..|by transitivity NC]. replace (P + (n - P)) with n by lia. lia.
Qed.

(** then the k block inside the panel, *)
Lemma block_decode W r :
  0 < W -> 0 <= r < W * k_padded -> exists pc, (0 <= pc < k /\ (KC | pc)) /\
    W * pc <= r < W * (pc + block_height pc).
Proof using Hl.
  intros HW Hr. pose proof Hl as [].
  pose proof (round_up_bounds k kf ltac:(lia) ltac:(done)) as [Hrk Hdk].
  set (pc := KC * (r / (W * KC))).
  pose proof (Z.div_mod r (W * KC) ltac:(lia)) as Er.
  pose proof (Z.mod_pos_bound r (W * KC) ltac:(lia)) as Hrmod.
  assert (0 <= r / (W * KC)) by (apply Z.div_pos; lia).
  assert (KC | pc) as Hdpc by apply Z.divide_factor_l.
  assert (W * pc <= r < W * (pc + KC)) as Hrpc by lia.
  exists pc. assert (0 <= pc < k) as Hpc; [|split; [done|split; [lia|]]].
  { split; [lia|]. destruct (Z.lt_ge_cases pc k) as [|Hge]; [done|].
    pose proof (round_up_least k kf pc ltac:(lia) ltac:(done) Hge
      (Z.divide_trans _ _ _ lo_kf_KC0 Hdpc)). fold k_padded in *. nia. }
  unfold block_height. destruct (Z.le_ge_cases KC (k - pc)) as [Hk|Hk].
  - rewrite Z.min_r, reorder_round_up_multiple by (try done; lia). lia.
  - rewrite Z.min_l by lia. rewrite <- round_up_add; [|lia..|by transitivity KC].
    replace (pc + (k - pc)) with k by lia. fold k_padded. lia.
Qed.

(** and last the position inside the block. *)
Lemma packed_index_surj x :
  0 <= x < packed_elems -> exists P pc c y, coord_ok P pc c y /\ x = packed_index P pc c y.
Proof using Hl.
  intros Hx. destruct (panel_decode x Hx) as (P & [HP HdP] & HxP).
  pose proof (panel_width_bounds P HP HdP) as (HW & _).
  destruct (block_decode (panel_width P) (x - P * k_padded)) as (pc & [Hpc Hdpc] & Hr); [lia..|].
  pose proof (block_height_bounds pc Hpc Hdpc) as (_ & Hh & _).
  set (W := panel_width P) in *. set (h := block_height pc) in *.
  set (r := x - P * k_padded - W * pc).
  pose proof (Z.div_mod r h ltac:(lia)). pose proof (Z.mod_pos_bound r h ltac:(lia)).
  exists P, pc, (r / h), (r mod h). split; [|unfold packed_index; fold W h; lia].
  split; [done|split; [done|]]. fold W h. split; [|lia].
  split; [apply Z.div_pos; lia|apply Z.div_lt_upper_bound; lia].
Qed.

(** The panel coordinate of an element, inside the columns of its chunk. *)
Lemma elem_coord p j g s :
  0 <= p < k -> 0 <= j < n -> chunk_of n NR m j = (g, s) ->
  let P := NC * (j / NC) in let pc := KC * (p / KC) in
  let e := dlp_reorder_elem_offset (p - pc) (j - g) s kf in
  exists c y, coord_ok P pc c y /\ g - P <= c < g - P + s /\
    elem_pos p j = packed_index P pc c y /\ c * block_height pc + y = (g - P) * block_height pc + e.
Proof using Hl.
  intros Hp Hj Ec P pc e. pose proof layout_m_NC as HmNC. pose proof Hl as [].
  pose proof (chunk_of_bounds NR m ltac:(done) ltac:(done) ltac:(done) n j g s Hj Ec)
    as (Hg1 & Hg2 & Hg3 & Hdg & Hds & Hs & Hgn).
  pose proof (block_bounds NC lo_NC0 j) as HPj. fold P in HPj.
  pose proof (block_bounds KC lo_KC0 p) as Hpc. fold pc in Hpc.
  assert (NC | P) as HdP by apply Z.divide_factor_l.
  assert (KC | pc) as Hdpc by apply Z.divide_factor_l.
  assert (0 <= j / NC /\ 0 <= p / KC) as [? ?] by (split; apply Z.div_pos; lia).
  assert (0 <= P < n) as HP by lia. assert (0 <= pc < k) as Hpck by lia.
  assert (P <= NR * (j / NR) /\ NR * (j / NR) + NR <= P + NC) as [Hb1 Hb2].
  { pose proof (block_bounds NR lo_NR0 j).
    assert (NR | P) as [q HqP] by by transitivity NC. destruct lo_NR_NC0 as [t Ht]. rewrite HqP, Ht in *.
    assert (q <= j / NR /\ j / NR < q + t); [|nia].
    split; [apply Z.div_le_lower_bound|apply Z.div_lt_upper_bound]; lia. }
  assert (g - P + s <= panel_width P) as Hfit.
  { unfold panel_width. destruct (Z.leb_spec (P + NC) n); [lia|].
    pose proof (round_up_bounds (n - P) m ltac:(lia) ltac:(done)) as [? [t Ht]].
    destruct Hgn as [|[? ->]]; [lia|]. destruct Hdg as [q ->].
    assert (m | P) as [r ->] by by transitivity NC. rewrite Ht in *.
    assert (q - r < t); [apply (Z.mul_lt_mono_pos_r m); lia|nia]. }
  pose proof (block_height_bounds pc Hpck Hdpc) as (Hh & Hh0 & Hdh & _).
  pose proof (elem_offset_bounds (p - pc) (j - g) s kf (block_height pc) ltac:(done) Hdh
    ltac:(lia) ltac:(lia)) as He. fold e in He.
  set (h := block_height pc) in *.
  pose proof (Z.div_mod e h ltac:(lia)). pose proof (Z.mod_pos_bound e h ltac:(lia)).
  assert (0 <= e / h < s) by (split; [apply Z.div_pos; lia|apply Z.div_lt_upper_bound; lia]).
  exists (g - P + e / h), (e mod h). fold h. split_and!; try lia.
  - split; [done|split; [done|]]. fold h. lia.
  - unfold elem_pos. rewrite Ec. fold P pc e. unfold packed_index. fold h. lia.
Qed.

Lemma elem_pos_in_buffer p j :
  0 <= p < k -> 0 <= j < n -> 0 <= elem_pos p j < packed_elems.
Proof using Hl.
  intros Hp Hj. destruct (chunk_of n NR m j) as [g s] eqn:E.
  destruct (elem_coord p j g s Hp Hj E) as (c & y & Hc & _ & -> & _). by apply packed_index_in_buffer.
Qed.

(** No two elements share a position. *)
Lemma elem_pos_inj p1 j1 p2 j2 :
  0 <= p1 < k -> 0 <= j1 < n -> 0 <= p2 < k -> 0 <= j2 < n ->
  elem_pos p1 j1 = elem_pos p2 j2 -> p1 = p2 /\ j1 = j2.
Proof using Hl.
  intros Hp1 Hj1 Hp2 Hj2 E.
  destruct (chunk_of n NR m j1) as [g1 s1] eqn:E1, (chunk_of n NR m j2) as [g2 s2] eqn:E2.
  destruct (elem_coord p1 j1 g1 s1 Hp1 Hj1 E1) as (c1 & y1 & Hc1 & Hr1 & Ee1 & Ey1).
  destruct (elem_coord p2 j2 g2 s2 Hp2 Hj2 E2) as (c2 & y2 & Hc2 & Hr2 & Ee2 & Ey2).
  rewrite Ee1, Ee2 in E. destruct (packed_index_inj _ _ _ _ _ _ _ _ Hc1 Hc2 E) as (EP & Epc & <- & <-).
  rewrite <- EP, <- Epc in *. clear E Ee1 Ee2. destruct Hl.
  destruct (chunk_of_overlap NR m lo_NR0 lo_m0 lo_m_NR0 n j1 j2 g1 s1 g2 s2 (NC * (j1 / NC) + c1))
    as [<- <-]; try done; try lia.
  pose proof (chunk_of_bounds NR m lo_NR0 lo_m0 lo_m_NR0 n j1 g1 s1 Hj1 E1) as (_ & ? & _).
  pose proof (chunk_of_bounds NR m lo_NR0 lo_m0 lo_m_NR0 n j2 g1 s1 Hj2 E2) as (_ & ? & _).
  pose proof (block_bounds KC lo_KC0 p1). pose proof (block_bounds KC lo_KC0 p2).
  destruct (elem_offset_inj (p1 - KC * (p1 / KC)) (p2 - KC * (p1 / KC)) (j1 - g1) (j2 - g1) s1 kf); lia.
Qed.

(** ** Tiles

    A tile is what one call of the packer handles: [nc0] columns from [jc] of
    one panel and the rows of one k block. *)
Definition tile_ok (jc nc0 : Z) : Prop :=
  0 <= jc /\ 0 < nc0 /\ (NR | jc) /\ jc + nc0 <= Z.min n (NC * (jc / NC) + NC) /\
  (jc + nc0 = n \/ (NR | nc0)).

(** First packed element of the tile. *)
Definition tile_start (jc pc : Z) : Z := packed_index (NC * (jc / NC)) pc (jc - NC * (jc / NC)) 0.

(** The offset the walk computes inside the tile is the position. *)
Lemma tile_elem_pos jc nc0 pc kr c :
  tile_ok jc nc0 -> 0 <= pc < k -> (KC | pc) -> 0 <= kr < Z.min (k - pc) KC -> 0 <= c < nc0 ->
  let ch := chunk_at nc0 NR m (block_height pc) c in
  elem_pos (pc + kr) (jc + c) =
    tile_start jc pc + (offset ch + dlp_reorder_elem_offset kr (c - col_start ch) (slot ch) kf).
Proof using Hl.
  intros (Hjc & Hnc & HdNR & Hend & Hcut) Hpc Hdpc Hkr Hc ch. destruct Hl. subst ch.
  unfold elem_pos, chunk_at. destruct (chunk_of nc0 NR m c) as [g s] eqn:E.
  rewrite (chunk_of_tile NR m lo_NR0 n jc nc0 c g s) by (done || lia).
  pose proof (block_bounds NC lo_NC0 jc).
  rewrite (block_unique NC lo_NC0 (NC * (jc / NC)) (jc + c)) by (apply Z.divide_factor_l || lia).
  rewrite (block_unique KC lo_KC0 pc (pc + kr)) by (done || lia).
  cbn [offset slot col_start]. replace (pc + kr - pc) with kr by lia.
  replace (jc + c - (jc + g)) with (c - g) by lia. unfold tile_start, packed_index. lia.
Qed.

Definition in_tile (jc nc0 pc x : Z) : Prop :=
  tile_start jc pc <= x < tile_start jc pc + dlp_reorder_round_up nc0 m * block_height pc.

Lemma tile_coord jc nc0 pc x :
  tile_ok jc nc0 -> 0 <= pc < k -> (KC | pc) ->
  in_tile jc nc0 pc x <->
  exists c y, coord_ok (NC * (jc / NC)) pc c y /\
    jc <= NC * (jc / NC) + c < jc + dlp_reorder_round_up nc0 m /\
    x = packed_index (NC * (jc / NC)) pc c y.
Proof using Hl.
  intros (Hjc & Hnc & HdNR & Hend & Hcut) Hpc Hdpc. pose proof layout_m_NC as HmNC. pose proof Hl as [].
  set (P := NC * (jc / NC)) in *. pose proof (block_bounds NC lo_NC0 jc) as HP. fold P in HP.
  assert (NC | P) as HdP by apply Z.divide_factor_l.
  assert (0 <= jc / NC) by (apply Z.div_pos; lia). assert (0 <= P < n) as HPn by lia.
  pose proof (block_height_bounds pc Hpc Hdpc) as (_ & Hh & _ & _).
  assert (jc - P + dlp_reorder_round_up nc0 m <= panel_width P) as Hfit.
  { assert (m | jc) by by transitivity NR. assert (m | P) by by transitivity NC.
    rewrite <- round_up_add by (try lia; by apply Z.divide_sub_r).
    pose proof (panel_width_bounds P HPn HdP) as (_ & HdW & _ & HW).
    apply round_up_least; (done || lia). }
  unfold in_tile, tile_start. fold P. unfold packed_index. set (h := block_height pc) in *.
  set (ru := dlp_reorder_round_up nc0 m) in *. set (B := P * k_padded + panel_width P * pc).
  split.
  - intros Hx. set (r := x - (B + (jc - P) * h)).
    pose proof (Z.div_mod r h ltac:(lia)). pose proof (Z.mod_pos_bound r h ltac:(lia)).
    assert (0 <= r / h < ru) by (split; [apply Z.div_pos; lia|apply Z.div_lt_upper_bound; lia]).
    exists (jc - P + r / h), (r mod h). split; [|lia]. split; [done|split; [done|]]. fold h. lia.
  - intros (c & y & (_ & _ & _ & Hy) & Hc & ->). fold h in Hy. fold B.
    pose proof (decompose_bounds (P + c - jc) ru h y ltac:(lia) Hy). lia.
Qed.

(** The elements stored in a tile are its own. *)
Lemma tile_elems jc nc0 pc p j :
  tile_ok jc nc0 -> 0 <= pc < k -> (KC | pc) -> 0 <= p < k -> 0 <= j < n ->
  in_tile jc nc0 pc (elem_pos p j) -> pc <= p < pc + Z.min (k - pc) KC /\ jc <= j < jc + nc0.
Proof using Hl.
  intros Ht Hpc Hdpc Hp Hj. rewrite tile_coord by done. intros (c & y & Hc & Hcj & E).
  destruct (chunk_of n NR m j) as [g s] eqn:Ec.
  destruct (elem_coord p j g s Hp Hj Ec) as (c' & y' & Hc' & Hr & Ee & _).
  rewrite Ee in E. destruct (packed_index_inj _ _ _ _ _ _ _ _ Hc' Hc E) as (EP & Epc & <- & <-).
  destruct Hl, Ht as (Hjc & Hnc & HdNR & Hend & Hcut).
  pose proof (chunk_of_bounds NR m lo_NR0 lo_m0 lo_m_NR0 n j g s Hj Ec) as (Hg1 & Hg2 & Hg3 & _).
  pose proof (block_bounds KC lo_KC0 p). rewrite Epc in *. split; [lia|].
  rewrite EP in Hr. pose proof (block_bounds NR lo_NR0 j) as Hb. destruct HdNR as [q ->].
  assert (q <= j / NR) by nia. split; [nia|]. destruct Hcut as [|[t ->]]; [lia|].
  rewrite (reorder_round_up_multiple (t * NR)) in Hcj; [|lia|done|by apply Z.divide_mul_r].
  assert (j / NR < q + t); nia.
Qed.

Lemma tile_elem_in jc nc0 pc kr c :
  tile_ok jc nc0 -> 0 <= pc < k -> (KC | pc) -> 0 <= kr < Z.min (k - pc) KC -> 0 <= c < nc0 ->
  in_tile jc nc0 pc (elem_pos (pc + kr) (jc + c)).
Proof using Hl.
  intros Ht Hpc Hdpc Hkr Hc. pose proof (tile_elem_pos jc nc0 pc kr c Ht Hpc Hdpc Hkr Hc) as E.
  pose proof Ht as (Hjc & Hnc & _). pose proof Hl as []. unfold chunk_at in E.
  destruct (chunk_of nc0 NR m c) as [g s] eqn:Ec. cbn in E. rewrite E.
  pose proof (chunk_of_bounds NR m lo_NR0 lo_m0 lo_m_NR0 nc0 c g s Hc Ec)
    as (Hg1 & Hg2 & _ & [q ->] & Hds & Hs & Hgn).
  pose proof (block_height_bounds pc Hpc Hdpc) as (? & Hh & Hdh & _).
  pose proof (elem_offset_bounds kr (c - q * m) s kf (block_height pc) ltac:(done) Hdh
    ltac:(lia) ltac:(lia)).
  assert (0 <= NR * (c / NR)) by (apply Z.mul_nonneg_nonneg, Z.div_pos; lia).
  assert (q * m + s <= dlp_reorder_round_up nc0 m).
  { pose proof (round_up_bounds nc0 m ltac:(lia) ltac:(done)) as [? [t Ht']].
    destruct Hgn as [|[_ ->]]; [lia|]. rewrite Ht' in *.
    assert (q < t); [apply (Z.mul_lt_mono_pos_r m); lia|nia]. }
  unfold in_tile. nia.
Qed.

Lemma tile_in_buffer jc nc0 pc x :
  tile_ok jc nc0 -> 0 <= pc < k -> (KC | pc) -> in_tile jc nc0 pc x -> 0 <= x < packed_elems.
Proof using Hl.
  intros Ht Hpc Hdpc. rewrite tile_coord by done. intros (c & y & Hc & _ & ->).
  by apply packed_index_in_buffer.
Qed.
End position.

(** ** The size check *)

Lemma to_msz_small x : 0 <= x <= DLP_MSZ_MAX -> to_msz x = x.
Proof. intros. unfold to_msz, DLP_MSZ_MAX in *. apply Z.mod_small. lia. Qed.

Lemma checked_mul_eq a b :
  0 <= a -> 0 <= b ->
  dlp_reorder_checked_mul_msz a b = if decide (a * b <= DLP_MSZ_MAX) then Some (a * b) else None.
Proof.
  intros Ha Hb. unfold dlp_reorder_checked_mul_msz.
  destruct (Z.eqb_spec a 0) as [->|Hne]; cbn [negb andb].
  { rewrite Z.mul_0_l, decide_True by done. done. }
  pose proof (Z.div_mod DLP_MSZ_MAX a ltac:(lia)). pose proof (Z.mod_pos_bound DLP_MSZ_MAX a ltac:(lia)).
  destruct (Z.ltb_spec (DLP_MSZ_MAX / a) b).
  - rewrite decide_False; [done|]. nia.
  - rewrite decide_True by nia. by rewrite to_msz_small by nia.
Qed.

(** The caller's buffer bound, for a layout and an element size. *)
Lemma size_bytes_eq rows cols elem_sz extra :
  rows < 2 ^ 63 -> cols < 2 ^ 63 -> elem_sz < 2 ^ 63 -> 0 <= extra <= DLP_MSZ_MAX ->
  dlp_reorder_size_bytes rows cols elem_sz extra =
    if decide (0 <= rows /\ 0 <= cols /\ 0 < elem_sz /\
               rows * cols * elem_sz + extra <= DLP_MSZ_MAX)
    then Some (rows * cols * elem_sz + extra) else None.
Proof.
  intros Hr Hc He Hx. unfold dlp_reorder_size_bytes.
  destruct (Z.ltb_spec rows 0); [rewrite decide_False by lia; done|].
  destruct (Z.ltb_spec cols 0); [rewrite decide_False by lia; done|].
  destruct (Z.leb_spec elem_sz 0); [rewrite decide_False by lia; done|]. cbn [orb].
  rewrite !(to_msz_small rows), !(to_msz_small cols), !(to_msz_small elem_sz)
    by (unfold DLP_MSZ_MAX; lia).
  rewrite checked_mul_eq by lia. destruct (decide (rows * cols <= DLP_MSZ_MAX)); cbn [mbind option_bind].
  2: { rewrite decide_False; [done|]. nia. }
  rewrite checked_mul_eq by nia.
  destruct (decide (rows * cols * elem_sz <= DLP_MSZ_MAX)); cbn [mbind option_bind].
  2: { rewrite decide_False; [done|]. lia. }
  assert (0 <= rows * cols * elem_sz) by nia. rewrite to_msz_small by lia.
  destruct (Z.ltb_spec (DLP_MSZ_MAX - rows * cols * elem_sz) extra).
  - rewrite decide_False by lia. done.
  - rewrite decide_True by lia. by rewrite to_msz_small by lia.
Qed.
