(* ===== verification/Reorder.v ===== *)
(** * The reference packer and unpacker of B
    (frame/gemm_utils/dlp_gemm_reorder_ref.c)

    Each thread of the parallel region walks the NC panels of its columns and
    the KC blocks of the rows, and packs or unpacks one tile at a time.  A
    routine is the sequence of byte stores it performs; the buffer it reads is
    not written by the team. *)
From S2P Require Import Prelude ThreadUtils ByteStore ReorderLayout.
From stdpp Require Import gmap.
#[local] Open Scope Z_scope.

(** ** The code *)

(** Destination and source are byte offsets in their buffers. *)
Definition dlp_reorder_copy_elem (src_buf : buffer) (dst src elem_sz : Z) : option (list store) :=
  memcpy src_buf dst src elem_sz.

Definition dlp_reorder_ref_packb (src_buf : buffer)
    (pack_b b elem_sz k_factor nc0 kc0 NR min_NR rs_b cs_b : Z) : option (list store) :=
  let kc0_padded := dlp_reorder_round_up kc0 k_factor in
  let zeros := memset_zero pack_b (dlp_reorder_panel_elems nc0 kc0 min_NR k_factor * elem_sz) in
  copies ← chunk_loop (chunk_fuel nc0) dlp_reorder_chunk_first nc0 NR min_NR kc0_padded
    (fun chunk =>
      for_each (seqZ 0 kc0) (fun kr =>
        for_each (seqZ 0 (cols chunk)) (fun i =>
          let src := kr * rs_b + (col_start chunk + i) * cs_b in
          let dst := offset chunk + dlp_reorder_elem_offset kr i (slot chunk) k_factor in
          dlp_reorder_copy_elem src_buf (pack_b + dst * elem_sz) (b + src * elem_sz) elem_sz)));
  Some (zeros ++ copies).

Definition dlp_reorder_ref_unpackb (src_buf : buffer)
    (pack_b b elem_sz k_factor nc0 kc0 NR min_NR rs_b cs_b : Z) : option (list store) :=
  let kc0_padded := dlp_reorder_round_up kc0 k_factor in
  chunk_loop (chunk_fuel nc0) dlp_reorder_chunk_first nc0 NR min_NR kc0_padded
    (fun chunk =>
      for_each (seqZ 0 kc0) (fun kr =>
        for_each (seqZ 0 (cols chunk)) (fun i =>
          let dst := kr * rs_b + (col_start chunk + i) * cs_b in
          let src := offset chunk + dlp_reorder_elem_offset kr i (slot chunk) k_factor in
          dlp_reorder_copy_elem src_buf (b + dst * elem_sz) (pack_b + src * elem_sz) elem_sz))).

Section walk.
Context (src_buf : buffer) (to_packed : bool)
  (elem_sz k_factor n k NR min_NR NC KC rs_b cs_b : Z).

(** The body of the [jc] loop after [dlp_gemm_get_B_panel_reordered_start_offset_width]:
    the loop over [pc]. *)
Definition ref_walk_panel (jc jc_cur_loop jc_cur_loop_rem nc0 n_sub_updated : Z)
    : option (list store) :=
  let k_padded := dlp_reorder_round_up k k_factor in
  for_upto (loop_fuel 0 k) 0 k KC (fun pc =>
    let kc0 := Z.min (k - pc) KC in
    let kc0_padded := dlp_reorder_round_up kc0 k_factor in
    let off := jc_cur_loop * k_padded + n_sub_updated * pc + jc_cur_loop_rem * kc0_padded in
    let packed_bytes := off * elem_sz in
    let matrix_bytes := (rs_b * pc + jc * cs_b) * elem_sz in
    if to_packed
    then dlp_reorder_ref_packb src_buf packed_bytes matrix_bytes elem_sz k_factor nc0 kc0 NR
           min_NR rs_b cs_b
    else dlp_reorder_ref_unpackb src_buf packed_bytes matrix_bytes elem_sz k_factor nc0 kc0 NR
           min_NR rs_b cs_b).

(** The [jc] loop, whose variable the body moves back to the panel start. *)
Fixpoint ref_walk_jc (fuel : nat) (jc jc_end : Z) : option (list store) :=
  match fuel with
  | O => None
  | S fuel =>
      if jc <? jc_end then
        let nc0 := Z.min (jc_end - jc) NC in
        let '(jc_cur_loop, jc_cur_loop_rem, nc0, n_sub_updated) :=
          dlp_gemm_get_B_panel_reordered_start_offset_width jc n NC min_NR nc0 in
        l ← ref_walk_panel jc jc_cur_loop jc_cur_loop_rem nc0 n_sub_updated;
        let jc := dlp_gemm_adjust_B_panel_reordered_jc jc_cur_loop in
        r ← ref_walk_jc fuel (jc + NC) jc_end;
        Some (l ++ r)
      else Some []
  end.

(** One thread of the region; [n_way] is the size of the team that spawned. *)
Definition ref_walk_thread (n_way work_id : Z) : option (list store) :=
  let '(jc_start, jc_end) := dlp_thread_task_range (mk_task_id 0 n_way work_id) n NR false in
  ref_walk_jc (loop_fuel jc_start jc_end) jc_start jc_end.
End walk.

(** The parallel region of the tuned functions: the number of ways the columns are split,
    and the threads there are.  With OpenMP these are the number asked for and the team
    the runtime spawns for it; a build without has one thread and one way. *)
Definition region_ways (openmp : bool) (n_threads : Z) : Z :=
  if openmp then (if 0 <? n_threads then n_threads else 1) else 1.
Definition region_threads (openmp : bool) (omp_team : Z -> Z) (n_threads : Z) : Z :=
  if openmp then omp_team (region_ways openmp n_threads) else 1.

(** The region of [dlp_reorder_ref_walk], split among the threads there are: [omp_team]
    gives the number the OpenMP runtime spawns when [n_threads] are requested; a build
    without OpenMP is the team [fun _ => 1]. *)
Definition dlp_reorder_ref_walk (omp_team : Z -> Z) (src_buf : buffer) (to_packed : bool)
    (elem_sz k_factor n k NR min_NR NC KC rs_b cs_b n_threads : Z) : option (list (list store)) :=
  let n_threads := if 0 <? n_threads then n_threads else 1 in
  let n_way := omp_team n_threads in
  mapM (ref_walk_thread src_buf to_packed elem_sz k_factor n k NR min_NR NC KC rs_b cs_b n_way)
    (seqZ 0 n_way).

Definition dlp_reorder_ref_reorderb (omp_team : Z -> Z) (b : buffer)
    (elem_sz k_factor n k NR min_NR NC KC rs_b cs_b n_threads : Z) : option (list (list store)) :=
  dlp_reorder_ref_walk omp_team b true elem_sz k_factor n k NR min_NR NC KC rs_b cs_b n_threads.

Definition dlp_reorder_ref_unreorderb (omp_team : Z -> Z) (pack_b : buffer)
    (elem_sz k_factor n k NR min_NR NC KC rs_b cs_b n_threads : Z) : option (list (list store)) :=
  dlp_reorder_ref_walk omp_team pack_b false elem_sz k_factor n k NR min_NR NC KC rs_b cs_b n_threads.

(** The region is defined whatever the interleaving, and always gives [m']. *)
Definition team_computes (threads : option (list (list store))) (m m' : buffer) : Prop :=
  exists ls, threads = Some ls /\ forall ws, interleaving ls ws -> apply_stores m ws = Some m'.

(** Relating the elements of two lists. *)
Lemma Forall2_exists {A B} (P : A -> B -> Prop) l :
  (forall x, x ∈ l -> exists y, P x y) -> exists k, Forall2 P l k.
Proof.
  induction l as [|x l IH]; intros H; [by exists []|].
  destruct (H x) as [y Hy]; [left|]. destruct IH as [k Hk]; [intros; apply H; by right|].
  exists (y :: k). by constructor.
Qed.

Lemma Forall2_elem_l {A B} (P : A -> B -> Prop) l k x :
  Forall2 P l k -> x ∈ l -> exists y, y ∈ k /\ P x y.
Proof.
  intros H [i Hi]%list_elem_of_lookup. destruct (Forall2_lookup_l _ _ _ _ _ H Hi) as (y & Hy & HP).
  apply list_elem_of_lookup_2 in Hy. eauto.
Qed.

Lemma Forall2_elem_r {A B} (P : A -> B -> Prop) l k y :
  Forall2 P l k -> y ∈ k -> exists x, x ∈ l /\ P x y.
Proof.
  intros H [i Hi]%list_elem_of_lookup. destruct (Forall2_lookup_r _ _ _ _ _ H Hi) as (x & Hx & HP).
  apply list_elem_of_lookup_2 in Hx. eauto.
Qed.

(** ** The stores of a part of the walk

    [stores_ok v X ws]: the bytes [ws] writes are the set [X], and they settle
    on the values [v]. *)
Definition stores_ok (v : Z -> Z) (X : Z -> Prop) (ws : list store) : Prop :=
  settles v ws /\ forall a, (exists x, (a, x) ∈ ws) <-> X a.

Lemma stores_ok_nil v X : (forall a, ~ X a) -> stores_ok v X [].
Proof.
  intros H. split; [done|]. intros a. split; [by intros [x ?%elem_of_nil]|by intros ?%H].
Qed.

Lemma stores_ok_app v X Y Z l l' :
  (forall a, Z a <-> X a \/ Y a) -> stores_ok v X l -> stores_ok v Y l' -> stores_ok v Z (l ++ l').
Proof.
  intros HZ [Hl HX] [Hl' HY]. split; [by apply settles_app|]. intros a.
  rewrite HZ, <- HX, <- HY. setoid_rewrite elem_of_app. naive_solver.
Qed.

Lemma stores_ok_ext v X Y l : (forall a, X a <-> Y a) -> stores_ok v X l -> stores_ok v Y l.
Proof. intros H [Hl HX]. split; [done|]. intros a. by rewrite HX. Qed.

(** Stores that all write their final value. *)
Definition finals_ok (v : Z -> Z) (X : Z -> Prop) (ws : list store) : Prop :=
  forall a x, (a, x) ∈ ws <-> X a /\ x = v a.

Lemma finals_ok_nil v X : (forall a, ~ X a) -> finals_ok v X [].
Proof. intros H a x. rewrite elem_of_nil. naive_solver. Qed.

Lemma finals_ok_app v X Y Z l l' :
  (forall a, Z a <-> X a \/ Y a) -> finals_ok v X l -> finals_ok v Y l' -> finals_ok v Z (l ++ l').
Proof. intros HZ HX HY a x. rewrite elem_of_app, (HX a x), (HY a x), (HZ a). tauto. Qed.

Lemma finals_stores_ok v X l : finals_ok v X l -> stores_ok v X l.
Proof.
  intros H. split.
  - apply settles_final. intros [a x] Hw. by apply H in Hw as [_ ->].
  - intros a. split; [by intros [x [? _]%H]|]. intros HX. exists (v a). by apply H.
Qed.

Lemma memcpy_finals (src : buffer) v d s len :
  (forall i, 0 <= i < len -> src !! (s + i) = Some (v (d + i))) ->
  exists l, memcpy src d s len = Some l /\ finals_ok v (fun a => d <= a < d + len) l.
Proof.
  intros H. destruct (memcpy_ok src (fun i => v (d + i)) d s len H) as (l & -> & Hl).
  exists l. split; [done|]. intros a x. rewrite Hl. split.
  - intros (i & Hi & [= -> ->]). split; [lia|done].
  - intros [Ha ->]. exists (a - d). split; [lia|]. by replace (d + (a - d)) with a by lia.
Qed.

(** ** A tile *)

Section tile_copies.
Context (NR m nc0 kc0 kp : Z).
Hypothesis HNR : 0 < NR.
Hypothesis Hm : 0 < m.
Hypothesis HmNR : (m | NR).
Hypothesis Hnc0 : 0 <= nc0.

Lemma chunk_at_cols j :
  0 <= j < nc0 ->
  let ch := chunk_at nc0 NR m kp j in
  0 <= col_start ch <= j /\ j < col_start ch + cols ch <= nc0.
Proof using HNR Hm HmNR.
  intros Hj. unfold chunk_at. destruct (chunk_of nc0 NR m j) as [g s] eqn:E. cbn.
  pose proof (chunk_of_bounds NR m HNR Hm HmNR nc0 j g s Hj E) as (? & ? & _).
  assert (0 <= NR * (j / NR)) by (apply Z.mul_nonneg_nonneg, Z.div_pos; lia). lia.
Qed.

Lemma chunk_at_same j c :
  0 <= j < nc0 ->
  let ch := chunk_at nc0 NR m kp j in
  col_start ch <= c < col_start ch + cols ch -> chunk_at nc0 NR m kp c = ch.
Proof using HNR Hm HmNR.
  intros Hj. pose proof (chunk_at_cols j Hj) as Hb. unfold chunk_at in *.
  destruct (chunk_of nc0 NR m j) as [g s] eqn:E. cbn in *. intros Hc.
  by rewrite (chunk_of_in NR m HNR Hm HmNR nc0 j c g s) by (try done; lia).
Qed.

(** The three loops of a tile copy every element once. *)
Lemma tile_copies v (Y : Z -> Z -> Z -> Prop) (copy : dlp_reorder_chunk_t -> Z -> Z -> option (list store)) :
  (forall kr c, 0 <= kr < kc0 -> 0 <= c < nc0 ->
     let ch := chunk_at nc0 NR m kp c in
     exists l, copy ch kr (c - col_start ch) = Some l /\ finals_ok v (Y kr c) l) ->
  exists l,
    chunk_loop (chunk_fuel nc0) dlp_reorder_chunk_first nc0 NR m kp (fun chunk =>
      for_each (seqZ 0 kc0) (fun kr => for_each (seqZ 0 (cols chunk)) (copy chunk kr))) = Some l /\
    finals_ok v (fun a => exists kr c, 0 <= kr < kc0 /\ 0 <= c < nc0 /\ Y kr c a) l.
Proof using HNR Hm HmNR Hnc0.
  intros Hcopy. pose proof (finals_ok_nil v) as Hnil. pose proof (finals_ok_app v) as Happ.
  destruct (chunk_loop_ok NR m HNR Hm HmNR (finals_ok v) Hnil Happ nc0 kp
    (fun chunk => for_each (seqZ 0 kc0) (fun kr => for_each (seqZ 0 (cols chunk)) (copy chunk kr)))
    (fun ch a => exists kr, kr ∈ seqZ 0 kc0 /\ exists i, i ∈ seqZ 0 (cols ch) /\ Y kr (col_start ch + i) a)
    (chunk_fuel nc0) dlp_reorder_chunk_first) as (l & Hl & HQ).
  - done.
  - cbn [dlp_reorder_chunk_first col_start cols offset slot]. change (0 + 0) with 0.
    intros Hpos. split; [|lia]. destruct (chunk_of nc0 NR m 0) as [g s] eqn:E. cbn [fst].
    pose proof (chunk_of_bounds NR m HNR Hm HmNR nc0 0 g s ltac:(lia) E) as (? & ? & _).
    rewrite Z.div_0_l in * by lia. lia.
  - cbn. unfold chunk_fuel. lia.
  - cbn. intros j Hj. apply (for_each_ok (finals_ok v) Hnil Happ). intros kr Hkr%elem_of_seqZ.
    apply (for_each_ok (finals_ok v) Hnil Happ). intros i Hi%elem_of_seqZ.
    pose proof (chunk_at_cols j Hj) as Hb. pose proof (chunk_at_same j) as Hsame.
    cbn zeta in Hb, Hsame. set (ch := chunk_at nc0 NR m kp j) in *.
    destruct (Hcopy kr (col_start ch + i)) as (l & Hc & Hf); [lia..|].
    cbn zeta in Hc. rewrite (Hsame _ Hj) in Hc by lia.
    replace (col_start ch + i - col_start ch) with i in Hc by lia. eauto.
  - exists l. split; [done|]. intros a x. rewrite (HQ a x). cbn. setoid_rewrite elem_of_seqZ.
    apply and_iff_compat_r. split.
    + intros (j & Hj & kr & Hkr & i & Hi & HY). pose proof (chunk_at_cols j Hj) as Hb. cbn zeta in Hb.
      eexists kr, _. split_and!; [..|exact HY]; lia.
    + intros (kr & c & Hkr & Hc & HY). pose proof (chunk_at_cols c Hc) as Hb. cbn zeta in Hb.
      exists c. split; [lia|]. exists kr. split; [lia|].
      exists (c - col_start (chunk_at nc0 NR m kp c)). split; [lia|].
      by replace (col_start _ + (c - col_start _)) with c by lia.
Qed.
End tile_copies.

(** ** Tiles of a matrix *)

Section matrix.
Context (n k NR m NC KC kf es rs cs : Z).
Hypothesis Hl : layout_ok n k NR m NC KC kf.
Hypothesis Hes : 0 < es.

Local Abbreviation pos := (elem_pos n k NR m NC KC kf).
Local Abbreviation start := (tile_start n k m NC KC kf).
Local Abbreviation height := (block_height k KC kf).
Local Abbreviation tile := (tile_ok n NR NC).

(** Byte offsets of element [(p, j)] in the two buffers. *)
Definition packed_byte (p j : Z) : Z := pos p j * es.
Definition matrix_byte (p j : Z) : Z := (p * rs + j * cs) * es.

Definition in_matrix (p j : Z) : Prop := 0 <= p < k /\ 0 <= j < n.

Lemma byte_index a q : q * es <= a < q * es + es <-> a / es = q.
Proof using Hes.
  pose proof (Z.div_mod a es). pose proof (Z.mod_pos_bound a es). split.
  - intros Ha. symmetry. apply (Z.div_unique a es q (a - q * es)); lia.
  - intros <-. lia.
Qed.

(** The copies of a tile, in either direction. *)
Lemma tile_copies_packed v jc nc0 pc src d s :
  tile jc nc0 -> 0 <= pc < k -> (KC | pc) ->
  (forall p j, pc <= p < pc + Z.min (k - pc) KC -> jc <= j < jc + nc0 -> forall i, 0 <= i < es ->
     src !! (s (pos p j * es) (matrix_byte p j) + i) = Some (v (d (pos p j * es) (matrix_byte p j) + i))) ->
  exists l,
    chunk_loop (chunk_fuel nc0) dlp_reorder_chunk_first nc0 NR m
      (dlp_reorder_round_up (Z.min (k - pc) KC) kf) (fun chunk =>
      for_each (seqZ 0 (Z.min (k - pc) KC)) (fun kr =>
        for_each (seqZ 0 (cols chunk)) (fun i =>
          let mi := kr * rs + (col_start chunk + i) * cs in
          let pi := offset chunk + dlp_reorder_elem_offset kr i (slot chunk) kf in
          let pb := start jc pc * es + pi * es in
          let mb := (rs * pc + jc * cs) * es + mi * es in
          memcpy src (d pb mb) (s pb mb) es))) = Some l /\
    finals_ok v (fun a => exists p j, pc <= p < pc + Z.min (k - pc) KC /\ jc <= j < jc + nc0 /\
      d (pos p j * es) (matrix_byte p j) <= a < d (pos p j * es) (matrix_byte p j) + es) l.
Proof using Hl.
  intros Ht Hpc Hd Hsrc. pose proof Ht as (Hjc & Hnc & _). pose proof Hl as [].
  destruct (tile_copies NR m nc0 (Z.min (k - pc) KC) (height pc) lo_NR lo_m lo_m_NR ltac:(lia) v
    (fun kr c a => let p := pc + kr in let j := jc + c in
       d (pos p j * es) (matrix_byte p j) <= a < d (pos p j * es) (matrix_byte p j) + es)
    (fun chunk kr i =>
       let mi := kr * rs + (col_start chunk + i) * cs in
       let pi := offset chunk + dlp_reorder_elem_offset kr i (slot chunk) kf in
       let pb := start jc pc * es + pi * es in
       let mb := (rs * pc + jc * cs) * es + mi * es in
       memcpy src (d pb mb) (s pb mb) es)) as (l & Hcl & Hf).
  - intros kr c Hkr Hc. cbn zeta.
    pose proof (tile_elem_pos n k NR m NC KC kf Hl jc nc0 pc kr c Ht Hpc Hd Hkr Hc) as E. cbn zeta in E.
    set (ch := chunk_at nc0 NR m (height pc) c) in *.
    replace (start jc pc * es + _) with (pos (pc + kr) (jc + c) * es) by (rewrite E; lia).
    replace ((rs * pc + jc * cs) * es + _) with (matrix_byte (pc + kr) (jc + c))
      by (unfold matrix_byte; lia).
    apply memcpy_finals. apply Hsrc; lia.
  - exists l. split; [exact Hcl|]. intros a x. rewrite (Hf a x). apply and_iff_compat_r. split.
    + intros (kr & c & Hkr & Hc & Ha). exists (pc + kr), (jc + c). split; [lia|split; [lia|exact Ha]].
    + intros (p & j & Hp & Hj & Ha). exists (p - pc), (j - jc). cbn zeta.
      replace (pc + (p - pc)) with p by lia. replace (jc + (j - jc)) with j by lia.
      split; [lia|split; [lia|exact Ha]].
Qed.

(** The value the reordered buffer ends with at a byte: the element stored there,
    zero where no element is. *)
Definition packed_values (b v : Z -> Z) : Prop :=
  (forall p j i, in_matrix p j -> 0 <= i < es -> v (packed_byte p j + i) = b (matrix_byte p j + i)) /\
  (forall a, v a = 0 \/ exists p j, in_matrix p j /\ a / es = pos p j).

Definition holds_matrix (src : buffer) (b : Z -> Z) : Prop :=
  forall p j i, in_matrix p j -> 0 <= i < es -> src !! (matrix_byte p j + i) = Some (b (matrix_byte p j + i)).

Lemma packb_tile src b v jc nc0 pc :
  holds_matrix src b -> packed_values b v -> tile jc nc0 -> 0 <= pc < k -> (KC | pc) ->
  exists l,
    dlp_reorder_ref_packb src (start jc pc * es) ((rs * pc + jc * cs) * es) es kf nc0
      (Z.min (k - pc) KC) NR m rs cs = Some l /\
    stores_ok v (fun a => in_tile n k m NC KC kf jc nc0 pc (a / es)) l.
Proof using Hl Hes.
  intros Hb [Hv Hz] Ht Hpc Hd. pose proof Ht as (Hjc & Hnc & _ & Hend & _). pose proof Hl as [].
  destruct (tile_copies_packed v jc nc0 pc src (fun pb _ => pb) (fun _ mb => mb) Ht Hpc Hd)
    as (l & Hcl & Hf).
  { intros p j Hp Hj i Hi. assert (in_matrix p j) by (split; lia). rewrite Hb by done. by rewrite <- Hv. }
  unfold dlp_reorder_ref_packb, dlp_reorder_copy_elem. cbn zeta in *. rewrite Hcl. cbn [mbind option_bind].
  eexists. split; [done|].
  assert (forall a, start jc pc * es <= a < start jc pc * es
    + dlp_reorder_panel_elems nc0 (Z.min (k - pc) KC) m kf * es <-> in_tile n k m NC KC kf jc nc0 pc (a / es)) as Hr.
  { intros a. unfold in_tile, dlp_reorder_panel_elems. fold (height pc).
    pose proof (Z.div_mod a es). pose proof (Z.mod_pos_bound a es). nia. }
  split.
  - apply settles_overwritten.
    + intros [a x] [Ha Hx]%memset_zero_elem. cbn [fst snd] in *. subst x. rewrite Hr in Ha.
      destruct (Hz a) as [->|(p & j & [Hp Hj] & Ea)]; [by left|right].
      rewrite Ea in Ha. destruct (tile_elems n k NR m NC KC kf Hl jc nc0 pc p j Ht Hpc Hd Hp Hj Ha).
      apply Hf. split; [|done]. exists p, j. split; [lia|split; [lia|by apply byte_index]].
    + apply (finals_stores_ok _ _ _ Hf).
  - intros a. setoid_rewrite elem_of_app. rewrite <- Hr. split.
    + intros [x [[Ha _]%memset_zero_elem|[(p & j & Hp & Hj & Ha) _]%Hf]]; [done|].
      rewrite Hr. apply byte_index in Ha. rewrite Ha.
      replace p with (pc + (p - pc)) by lia. replace j with (jc + (j - jc)) by lia.
      apply tile_elem_in; try done; lia.
    + intros Ha. exists 0. left. by apply memset_zero_elem.
Qed.

Definition holds_packed (pk : buffer) (b : Z -> Z) : Prop :=
  forall p j i, in_matrix p j -> 0 <= i < es -> pk !! (packed_byte p j + i) = Some (b (matrix_byte p j + i)).

Definition tile_bytes (jc nc0 pc a : Z) : Prop :=
  exists p j, pc <= p < pc + Z.min (k - pc) KC /\ jc <= j < jc + nc0 /\
    matrix_byte p j <= a < matrix_byte p j + es.

Lemma unpackb_tile pk b jc nc0 pc :
  holds_packed pk b -> tile jc nc0 -> 0 <= pc < k -> (KC | pc) ->
  exists l,
    dlp_reorder_ref_unpackb pk (start jc pc * es) ((rs * pc + jc * cs) * es) es kf nc0
      (Z.min (k - pc) KC) NR m rs cs = Some l /\
    stores_ok b (tile_bytes jc nc0 pc) l.
Proof using Hl.
  intros Hb Ht Hpc Hd. pose proof Ht as (Hjc & Hnc & _ & Hend & _). pose proof Hl as [].
  destruct (tile_copies_packed b jc nc0 pc pk (fun _ mb => mb) (fun pb _ => pb) Ht Hpc Hd)
    as (l & Hcl & Hf).
  { intros p j Hp Hj i Hi. apply Hb; [split; lia|done]. }
  exists l. split; [exact Hcl|]. apply finals_stores_ok, Hf.
Qed.

(** The column range of a thread, and the tile that holds column [j] of it. *)
Definition range_ok (s e : Z) : Prop :=
  0 <= s /\ (NR | s) /\ e <= n /\ (e = n \/ (NR | e)).

Lemma range_tile_ok s e j :
  range_ok s e -> s <= j < e ->
  let P := NC * (j / NC) in
  tile (Z.max s P) (Z.min e (P + NC) - Z.max s P) /\ NC * (Z.max s P / NC) = P.
Proof using Hl.
  intros (Hs & HdNR & He & Hcut) Hj P. pose proof Hl as []. pose proof (block_bounds NC lo_NC j) as HP.
  fold P in HP. assert (NC | P) as HdP by apply Z.divide_factor_l.
  assert (NR | P) as HNRP by by transitivity NC.
  assert (0 <= P) by (apply Z.mul_nonneg_nonneg, Z.div_pos; lia).
  assert (NC * (Z.max s P / NC) = P) as EP by (apply block_unique; (done || lia)).
  split; [|done]. unfold tile_ok. rewrite EP.
  assert (NR | Z.max s P) as HdS by (destruct (Z.max_spec s P) as [[_ ->]|[_ ->]]; done).
  split_and!; try lia; [done|]. destruct (Z.min_spec e (P + NC)) as [[_ ->]|[_ ->]].
  - destruct Hcut as [|]; [left; lia|right; by apply Z.divide_sub_r].
  - right. apply Z.divide_sub_r; [by apply Z.divide_add_r|done].
Qed.

Lemma thread_range_ok nw w :
  1 <= nw -> 0 <= w < nw -> range_ok (task_cut nw n NR false w) (task_cut nw n NR false (w + 1)).
Proof using Hl.
  intros Hnw Hw. pose proof Hl as [].
  pose proof (fun w => task_cut_mono nw n NR false w Hnw lo_n ltac:(lia)) as Hmono.
  pose proof (interval_le (task_cut nw n NR false) nw ltac:(lia) Hmono) as Hle.
  pose proof (Hle 0 w ltac:(lia) ltac:(lia) ltac:(lia)) as H0.
  pose proof (Hle (w + 1) nw ltac:(lia) ltac:(lia) ltac:(lia)) as H1.
  rewrite task_cut_first in H0 by lia. rewrite task_cut_last in H1 by lia. split_and!; try lia.
  - unfold task_cut. rewrite (proj2 (Z.eqb_neq w nw)) by lia. apply Z.divide_factor_l.
  - unfold task_cut. destruct (Z.eqb_spec (w + 1) nw); [by left|right]. apply Z.divide_factor_l.
Qed.

(** ** The walk of a thread

    [v] is the final value of the bytes written and [T jc nc0 pc] are the bytes of a
    tile: the walk is the same in both directions. *)
Section direction.
Context (src : buffer) (to_packed : bool) (v : Z -> Z) (T : Z -> Z -> Z -> Z -> Prop).
Hypothesis Htile : forall jc nc0 pc, tile jc nc0 -> 0 <= pc < k -> (KC | pc) ->
  exists l,
    (if to_packed
     then dlp_reorder_ref_packb src (start jc pc * es) ((rs * pc + jc * cs) * es) es kf nc0
            (Z.min (k - pc) KC) NR m rs cs
     else dlp_reorder_ref_unpackb src (start jc pc * es) ((rs * pc + jc * cs) * es) es kf nc0
            (Z.min (k - pc) KC) NR m rs cs) = Some l /\
    stores_ok v (T jc nc0 pc) l.

Lemma walk_panel_ok jc nc0 :
  tile jc nc0 ->
  exists l,
    ref_walk_panel src to_packed es kf k NR m KC rs cs jc (NC * (jc / NC)) (jc - NC * (jc / NC)) nc0
      (panel_width n m NC (NC * (jc / NC))) = Some l /\
    stores_ok v (fun a => exists p, 0 <= p < k /\ T jc nc0 (KC * (p / KC)) a) l.
Proof using Hl Htile.
  intros Ht. pose proof Hl as []. unfold ref_walk_panel.
  destruct (for_upto_ok (stores_ok v) (stores_ok_nil v) (stores_ok_app v) (loop_fuel 0 k) 0 k KC
    (fun pc => if to_packed
     then dlp_reorder_ref_packb src (start jc pc * es) ((rs * pc + jc * cs) * es) es kf nc0
            (Z.min (k - pc) KC) NR m rs cs
     else dlp_reorder_ref_unpackb src (start jc pc * es) ((rs * pc + jc * cs) * es) es kf nc0
            (Z.min (k - pc) KC) NR m rs cs) (T jc nc0)) as (l & Hloop & Hs).
  - done.
  - unfold loop_fuel. lia.
  - intros t Ht0 Htk. apply Htile; [done|lia|exists t; lia].
  - exists l. split.
    + rewrite <- Hloop. unfold tile_start, packed_index, block_height, k_padded.
      apply for_upto_ext. intros pc. cbn zeta.
      by replace (NC * (jc / NC) * _ + _ + _ + 0) with (NC * (jc / NC) * dlp_reorder_round_up k kf
        + panel_width n m NC (NC * (jc / NC)) * pc + (jc - NC * (jc / NC)) *
          dlp_reorder_round_up (Z.min (k - pc) KC) kf) by lia.
    + apply (stores_ok_ext _ _ _ _ (fun a => loop_blocks k KC lo_KC (fun pc => T jc nc0 pc a)) Hs).
Qed.

(** The tile of the range [[s, e)] that holds row [p], column [j]. *)
Definition cell_tile (s e j p a : Z) : Prop :=
  let P := NC * (j / NC) in
  T (Z.max s P) (Z.min e (P + NC) - Z.max s P) (KC * (p / KC)) a.

Lemma walk_jc_ok s e fuel jc :
  range_ok s e -> s <= jc -> (jc = s \/ (NC | jc)) -> Z.max 0 (e - jc) < Z.of_nat fuel ->
  exists l,
    ref_walk_jc src to_packed es kf n k NR m NC KC rs cs fuel jc e = Some l /\
    stores_ok v (fun a => exists j p, jc <= j < e /\ 0 <= p < k /\ cell_tile s e j p a) l.
Proof using Hl Htile.
  intros Hr. pose proof Hr as (Hs & _ & He & _). revert jc. pose proof Hl as [].
  induction fuel as [|fuel IH]; intros jc Hjc Hjcs Hf; [lia|]. cbn [ref_walk_jc].
  destruct (Z.ltb_spec jc e) as [Hlt|Hge].
  2: { exists []. split; [done|]. apply stores_ok_nil. intros a (j & p & ? & _). lia. }
  unfold dlp_gemm_get_B_panel_reordered_start_offset_width, dlp_gemm_adjust_B_panel_reordered_jc.
  rewrite (kmd_width_eq n k NR m NC KC kf Hl) by lia. rewrite (cquot_nonneg jc NC) by lia.
  rewrite (Z.mul_comm (jc / NC)). pose proof (block_bounds NC lo_NC jc) as HP.
  set (P := NC * (jc / NC)) in *.
  assert ((if P + NC <? jc + Z.min (e - jc) NC then NC - (jc - P) else Z.min (e - jc) NC)
    = Z.min e (P + NC) - jc) as -> by (destruct (Z.ltb_spec (P + NC) (jc + Z.min (e - jc) NC)); lia).
  assert (Z.max s P = jc) as Emax.
  { destruct Hjcs as [->|[q Hq]]; [lia|]. subst P. rewrite Hq, Z.div_mul by lia. lia. }
  assert (NC | P) as HdP by apply Z.divide_factor_l.
  destruct (range_tile_ok s e jc) as [Ht _]; [done|lia|]. fold P in Ht. rewrite Emax in Ht.
  destruct (walk_panel_ok jc _ Ht) as (l & Hw & HQ). fold P in Hw. rewrite Hw. cbn [mbind option_bind].
  destruct (IH (P + NC)) as (r & -> & HR); [lia|right; by apply Z.divide_add_r|lia|].
  cbn [mbind option_bind]. exists (l ++ r). split; [done|].
  eapply stores_ok_app; [|exact HQ|exact HR]. intros a. unfold cell_tile. split.
  - intros (j & p & Hj & Hp & HT). destruct (decide (j < P + NC)).
    + left. exists p. split; [done|]. rewrite (block_unique NC lo_NC P j HdP) in HT by lia.
      cbn zeta in HT. by rewrite Emax in HT.
    + right. exists j, p. split; [lia|done].
  - intros [(p & Hp & HT)|(j & p & Hj & Hp & HT)].
    + exists jc, p. split; [lia|]. split; [done|]. fold P. by rewrite Emax.
    + exists j, p. split; [lia|done].
Qed.

(** A thread of a team of [nw]. *)
Lemma walk_thread_ok nw w :
  1 <= nw -> 0 <= w < nw ->
  let s := task_cut nw n NR false w in let e := task_cut nw n NR false (w + 1) in
  exists l,
    ref_walk_thread src to_packed es kf n k NR m NC KC rs cs nw w = Some l /\
    stores_ok v (fun a => exists j p, s <= j < e /\ 0 <= p < k /\ cell_tile s e j p a) l.
Proof using Hl Htile.
  intros Hnw Hw s e. pose proof Hl as [].
  unfold ref_walk_thread. rewrite task_range_cut by lia. fold s e.
  apply walk_jc_ok; [by apply thread_range_ok|lia|by left|]. unfold loop_fuel. lia.
Qed.

(** The whole region: it terminates, and its stores settle. *)
Lemma walk_team_ok omp_team n_threads :
  (forall t, 1 <= t -> 1 <= omp_team t) ->
  let nw := omp_team (if 0 <? n_threads then n_threads else 1) in
  exists ls,
    dlp_reorder_ref_walk omp_team src to_packed es kf n k NR m NC KC rs cs n_threads = Some ls /\
    Forall (settles v) ls /\
    forall a, (exists l w, l ∈ ls /\ w ∈ l /\ w.1 = a) <->
      exists w j p, 0 <= w < nw /\
        let s := task_cut nw n NR false w in let e := task_cut nw n NR false (w + 1) in
        s <= j < e /\ 0 <= p < k /\ cell_tile s e j p a.
Proof using Hl Htile.
  intros Homp nw. assert (1 <= nw) as Hnw by (apply Homp; destruct (Z.ltb_spec 0 n_threads); lia).
  unfold dlp_reorder_ref_walk. fold nw.
  assert (exists ls, Forall2 (fun w l =>
    ref_walk_thread src to_packed es kf n k NR m NC KC rs cs nw w = Some l /\
    let s := task_cut nw n NR false w in let e := task_cut nw n NR false (w + 1) in
    stores_ok v (fun a => exists j p, s <= j < e /\ 0 <= p < k /\ cell_tile s e j p a) l)
    (seqZ 0 nw) ls) as [ls Hls].
  { apply Forall2_exists. intros w Hw%elem_of_seqZ.
    destruct (walk_thread_ok nw w Hnw ltac:(lia)) as (l & Hw1 & Hw2). by exists l. }
  exists ls. split; [|split].
  - apply mapM_Some. eapply Forall2_impl; [exact Hls|]. by intros w l [].
  - apply Forall2_Forall_r with (Q := settles v) in Hls; [done|].
    apply Forall_forall. by intros w _ l (_ & Hs & _).
  - intros a. split.
    + intros (l & [a' x] & Hl1 & Hx & <-). cbn [fst].
      destruct (Forall2_elem_r _ _ _ _ Hls Hl1) as (w & Hw%elem_of_seqZ & _ & _ & Hset).
      assert (exists x, (a', x) ∈ l) as (j & p & H)%Hset by by exists x.
      exists w, j, p. split; [lia|exact H].
    + intros (w & j & p & Hw & Hc).
      destruct (Forall2_elem_l _ _ _ w Hls) as (l & Hl1 & _ & _ & Hset); [apply elem_of_seqZ; lia|].
      destruct (proj2 (Hset a)) as [x Hx]; [by exists j, p|]. by exists l, (a, x).
Qed.
End direction.

(** ** The bytes of a team *)

Lemma column_owner nw j :
  1 <= nw -> 0 <= j < n ->
  exists w, 0 <= w < nw /\ task_cut nw n NR false w <= j < task_cut nw n NR false (w + 1).
Proof using Hl.
  intros Hnw Hj. pose proof Hl as []. destruct (owns_exists nw n NR false j) as (w & Hw & Ho); try lia.
  exists w. split; [done|]. specialize (Ho 0). rewrite owns_cut in Ho by lia. tauto.
Qed.

(** Packing writes the whole reordered buffer, once per tile. *)
Lemma pack_cells nw x :
  1 <= nw ->
  (exists w j p, 0 <= w < nw /\
     let s := task_cut nw n NR false w in let e := task_cut nw n NR false (w + 1) in
     s <= j < e /\ 0 <= p < k /\ cell_tile (fun jc nc0 pc x => in_tile n k m NC KC kf jc nc0 pc x) s e j p x) <->
  0 <= x < packed_elems n k m kf.
Proof using Hl.
  intros Hnw. pose proof Hl as []. cbn zeta. split.
  - intros (w & j & p & Hw & Hj & Hp & Hc). pose proof (thread_range_ok nw w Hnw Hw) as Hr.
    destruct (range_tile_ok _ _ j Hr Hj) as [Ht _]. revert Hc. unfold cell_tile.
    pose proof (block_bounds KC lo_KC p). assert (0 <= p / KC) by (apply Z.div_pos; lia).
    apply (tile_in_buffer n k NR m NC KC kf Hl); [done|lia|apply Z.divide_factor_l].
  - intros Hx. destruct (packed_index_surj n k NR m NC KC kf Hl x Hx)
      as (P & pc & c & y & Hco & ->). pose proof Hco as ([HP HdP] & [Hpc Hdpc] & Hc & _).
    pose proof (panel_width_bounds n k NR m NC KC kf Hl P HP HdP) as (HW & _ & HPW & _).
    destruct (column_owner nw (Z.min (P + c) (n - 1)) Hnw ltac:(lia)) as (w & Hw & Hj).
    set (j := Z.min (P + c) (n - 1)) in *. exists w, j, pc.
    pose proof (thread_range_ok nw w Hnw Hw) as Hr. split; [done|split; [done|split; [done|]]].
    destruct (range_tile_ok _ _ j Hr Hj) as [Ht EP]. unfold cell_tile. cbn zeta.
    assert (NC * (j / NC) = P) as EPj by (apply block_unique; (done || lia)).
    assert (KC * (pc / KC) = pc) as -> by (apply block_unique; (done || lia)).
    rewrite EPj in *. set (s := task_cut nw n NR false w) in *. set (e := task_cut nw n NR false (w + 1)) in *.
    apply (tile_coord n k NR m NC KC kf Hl); [done..|]. rewrite EP. exists c, y.
    split; [done|]. split; [|done]. split; [lia|].
    destruct Ht as (Hjc & Hnc & HdNR & _). assert (m | Z.max s P) by by transitivity NR.
    rewrite <- round_up_add by (done || lia). replace (Z.max s P + _) with (Z.min e (P + NC)) by lia.
    pose proof (round_up_bounds (Z.min e (P + NC)) m ltac:(lia) ltac:(done)).
    destruct Hr as (_ & _ & He & _). destruct (Z.le_gt_cases n (P + c)); [|lia].
    assert (Z.min e (P + NC) = n) as -> by lia. lia.
Qed.

(** Unpacking writes the bytes of the matrix. *)
Lemma unpack_cells nw a :
  1 <= nw ->
  (exists w j p, 0 <= w < nw /\
     let s := task_cut nw n NR false w in let e := task_cut nw n NR false (w + 1) in
     s <= j < e /\ 0 <= p < k /\ cell_tile tile_bytes s e j p a) <->
  exists p j, in_matrix p j /\ matrix_byte p j <= a < matrix_byte p j + es.
Proof using Hl.
  intros Hnw. pose proof Hl as []. cbn zeta. split.
  - intros (w & j & p & Hw & Hj & Hp & Hc). pose proof (thread_range_ok nw w Hnw Hw) as Hr.
    destruct (range_tile_ok _ _ j Hr Hj) as [(Hjc & _ & _ & Hend & _) _].
    destruct Hc as (p' & j' & Hp' & Hj' & Ha). exists p', j'. split; [|done].
    pose proof (block_bounds KC lo_KC p). assert (0 <= p / KC) by (apply Z.div_pos; lia).
    split; lia.
  - intros (p & j & [Hp Hj] & Ha). destruct (column_owner nw j Hnw Hj) as (w & Hw & Hjw).
    exists w, j, p. split; [done|split; [done|split; [done|]]]. exists p, j.
    pose proof (block_bounds KC lo_KC p). pose proof (block_bounds NC lo_NC j). split_and!; lia.
Qed.


(** ** The regions *)

(** The packed value of a byte, by search over the elements. *)
Definition packed_value (b : Z -> Z) (a : Z) : Z :=
  match filter (fun pj => pos pj.1 pj.2 = a / es)
          (p ← seqZ 0 k; (fun j => (p, j)) <$> seqZ 0 n) with
  | (p, j) :: _ => b (matrix_byte p j + a mod es)
  | [] => 0
  end.

Lemma packed_value_ok b : packed_values b (packed_value b).
Proof using Hl Hes.
  unfold packed_values, packed_value.
  set (grid := p ← seqZ 0 k; (fun j => (p, j)) <$> seqZ 0 n).
  assert (forall p j, (p, j) ∈ grid <-> in_matrix p j) as Hgrid.
  { intros p j. unfold grid, in_matrix. rewrite list_elem_of_bind. split.
    - intros (y & (x & [= -> ->] & Hx%elem_of_seqZ)%list_elem_of_fmap & Hy%elem_of_seqZ). lia.
    - intros [Hp Hj]. exists p. split; [apply list_elem_of_fmap; exists j; split; [done|]|];
        apply elem_of_seqZ; lia. }
  split.
  - intros p j i [Hp Hj] Hi. unfold packed_byte.
    assert ((pos p j * es + i) / es = pos p j) as -> by (apply byte_index; lia).
    assert ((pos p j * es + i) mod es = i) as ->
      by (symmetry; apply (Z.mod_unique _ _ (pos p j)); lia).
    destruct (filter _ grid) as [|[p' j'] l] eqn:E.
    + destruct (filter_nil_not_elem_of _ _ (p, j) E); [done|by apply Hgrid].
    + assert ((p', j') ∈ filter (fun pj => pos pj.1 pj.2 = pos p j) grid) as [Epos Hin]%list_elem_of_filter
        by (rewrite E; left).
      apply Hgrid in Hin as [Hp' Hj'].
      by destruct (elem_pos_inj n k NR m NC KC kf Hl p' j' p j Hp' Hj' Hp Hj Epos) as [-> ->].
  - intros a. destruct (filter _ grid) as [|[p j] l] eqn:E; [by left|right].
    assert ((p, j) ∈ filter (fun pj => pos pj.1 pj.2 = a / es) grid) as [Epos Hin]%list_elem_of_filter
      by (rewrite E; left).
    exists p, j. split; [by apply Hgrid|]. by cbn in Epos.
Qed.

Definition team_ok (omp_team : Z -> Z) : Prop := forall t, 1 <= t -> 1 <= omp_team t.

Lemma region_full openmp omp_team n_threads : (forall t, 1 <= t -> omp_team t = t) ->
  region_threads openmp omp_team n_threads = region_ways openmp n_threads /\ 1 <= region_ways openmp n_threads.
Proof.
  intros Homp. unfold region_threads. assert (1 <= region_ways openmp n_threads) as H1.
  { unfold region_ways. destruct openmp; [|done]. destruct (Z.ltb_spec 0 n_threads); lia. }
  split; [|done]. destruct openmp; [by apply Homp|done].
Qed.

Definition in_packed (a : Z) : Prop := 0 <= a < packed_elems n k m kf * es.

Lemma in_packed_div a : in_packed a <-> 0 <= a / es < packed_elems n k m kf.
Proof using Hes.
  unfold in_packed. pose proof (Z.div_mod a es). pose proof (Z.mod_pos_bound a es). nia.
Qed.

(** The result of packing, as a function of the matrix. *)
Definition is_packed (b : Z -> Z) (pk0 pk : buffer) : Prop :=
  (forall a, in_packed a -> pk !! a = Some (packed_value b a)) /\
  (forall a, ~ in_packed a -> pk !! a = pk0 !! a).

Lemma is_packed_unique b pk0 pk1 pk2 : is_packed b pk0 pk1 -> is_packed b pk0 pk2 -> pk1 = pk2.
Proof.
  intros [Hin1 Hout1] [Hin2 Hout2]. apply map_eq. intros a.
  destruct (decide (0 <= a < packed_elems n k m kf * es)) as [Ha|Ha].
  - by rewrite Hin1, Hin2.
  - by rewrite Hout1, Hout2.
Qed.

Lemma reorderb_ok src b pk0 :
  holds_matrix src b -> (forall a, in_packed a -> is_Some (pk0 !! a)) ->
  exists pk, is_packed b pk0 pk /\ forall omp_team n_threads, team_ok omp_team ->
    team_computes (dlp_reorder_ref_reorderb omp_team src es kf n k NR m NC KC rs cs n_threads) pk0 pk.
Proof using Hl Hes.
  intros Hb Hpk.
  assert (forall omp_team n_threads, team_ok omp_team -> exists pk, is_packed b pk0 pk /\
    team_computes (dlp_reorder_ref_reorderb omp_team src es kf n k NR m NC KC rs cs n_threads) pk0 pk) as H.
  { intros omp_team n_threads Homp.
    destruct (walk_team_ok src true (packed_value b)
      (fun jc nc0 pc a => in_tile n k m NC KC kf jc nc0 pc (a / es))) with (omp_team := omp_team)
      (n_threads := n_threads) as (ls & Hls & Hs & Hset); [|done|].
    { intros. apply packb_tile with (b := b); try done. apply packed_value_ok. }
    destruct (interleaving_result (packed_value b) in_packed ls pk0 Hs) as (pk & Hrun & Hin & Hout); [|done|].
    - intros a. rewrite Hset, in_packed_div. rewrite <- (pack_cells (omp_team (if 0 <? n_threads then n_threads else 1))).
      + done.
      + apply Homp. destruct (Z.ltb_spec 0 n_threads); lia.
    - exists pk. split; [by split|]. by exists ls. }
  destruct (H (fun t => t) 1) as (pk & Hpk1 & _); [by intros t|].
  exists pk. split; [done|]. intros omp_team n_threads Homp.
  destruct (H omp_team n_threads Homp) as (pk2 & Hpk2 & Hrun).
  by rewrite (is_packed_unique b pk0 pk pk2).
Qed.

Lemma is_packed_holds b pk0 pk : is_packed b pk0 pk -> holds_packed pk b.
Proof using Hl Hes.
  intros [Hin _] p j i [Hp Hj] Hi.
  pose proof (elem_pos_in_buffer n k NR m NC KC kf Hl p j Hp Hj).
  rewrite Hin; [|unfold in_packed, packed_byte; nia]. f_equal.
  by apply (proj1 (packed_value_ok b)).
Qed.

Definition in_matrix_bytes (a : Z) : Prop :=
  exists p j, in_matrix p j /\ matrix_byte p j <= a < matrix_byte p j + es.

Lemma unreorderb_ok pk b out0 omp_team n_threads :
  holds_packed pk b -> team_ok omp_team -> (forall a, in_matrix_bytes a -> is_Some (out0 !! a)) ->
  exists out,
    team_computes (dlp_reorder_ref_unreorderb omp_team pk es kf n k NR m NC KC rs cs n_threads) out0 out /\
    (forall a, in_matrix_bytes a -> out !! a = Some (b a)) /\
    (forall a, ~ in_matrix_bytes a -> out !! a = out0 !! a).
Proof using Hl.
  intros Hb Homp Hout0.
  destruct (walk_team_ok pk false b tile_bytes) with (omp_team := omp_team)
    (n_threads := n_threads) as (ls & Hls & Hs & Hset); [|done|].
  { intros. by apply unpackb_tile. }
  destruct (interleaving_result b in_matrix_bytes ls out0 Hs) as (out & Hrun & Hres); [|done|].
  - intros a. rewrite Hset. unfold in_matrix_bytes.
    rewrite <- (unpack_cells (omp_team (if 0 <? n_threads then n_threads else 1))).
    + done.
    + apply Homp. destruct (Z.ltb_spec 0 n_threads); lia.
  - exists out. split; [by exists ls|done].
Qed.

(** The destination after unpacking does not depend on the team either. *)
Lemma unreorderb_unique pk b out0 :
  holds_packed pk b -> (forall a, in_matrix_bytes a -> is_Some (out0 !! a)) ->
  exists out, (forall omp_team n_threads, team_ok omp_team ->
    team_computes (dlp_reorder_ref_unreorderb omp_team pk es kf n k NR m NC KC rs cs n_threads) out0 out) /\
    (forall a, in_matrix_bytes a -> out !! a = Some (b a)) /\
    (forall a, ~ in_matrix_bytes a -> out !! a = out0 !! a).
Proof using Hl.
  intros Hb Hout0.
  destruct (unreorderb_ok pk b out0 (fun t => t) 1 Hb) as (out & _ & Hin & Hout); [by intros t|done|].
  exists out. split; [|done]. intros omp_team n_threads Homp.
  destruct (unreorderb_ok pk b out0 omp_team n_threads Hb Homp Hout0) as (out2 & Hrun & Hin2 & Hout2).
  replace out with out2; [done|]. apply map_eq. intros a.
  destruct (decide (Exists (fun p => Exists (fun j => matrix_byte p j <= a < matrix_byte p j + es)
    (seqZ 0 n)) (seqZ 0 k))) as [Ha|Ha].
  - assert (in_matrix_bytes a); [|by rewrite Hin, Hin2].
    apply Exists_exists in Ha as (p & Hp%elem_of_seqZ & (j & Hj%elem_of_seqZ & Ha)%Exists_exists).
    exists p, j. split; [split; lia|done].
  - assert (~ in_matrix_bytes a); [|by rewrite Hout, Hout2].
    intros (p & j & [Hp Hj] & Hpj). apply Ha. apply Exists_exists. exists p.
    split; [apply elem_of_seqZ; lia|]. apply Exists_exists. exists j. split; [apply elem_of_seqZ; lia|done].
Qed.
End matrix.

(** ** Properties *)

(** What a caller of the reference routines has checked: the legality test passed, and
    the panel width is positive and a multiple of [NR], which the merge of a blocking
    with the context guarantees. *)
Definition blocks_checked (NR min_NR NC KC k_factor : Z) : Prop :=
  dlp_reorder_ref_blocks_legal NR min_NR KC k_factor = true /\ 0 < NC /\ NC mod NR = 0.

Lemma blocks_checked_layout n k NR m NC KC kf :
  blocks_checked NR m NC KC kf -> 0 <= n -> 0 <= k -> layout_ok n k NR m NC KC kf.
Proof.
  intros (Hleg & HNC & Hmod) Hn Hk. unfold dlp_reorder_ref_blocks_legal in Hleg.
  repeat (apply andb_prop in Hleg as [Hleg ?]). rewrite !Z.ltb_lt, !Z.eqb_eq in *.
  rewrite crem_nonneg in * by lia. split; try done; apply Z.mod_divide; (done || lia).
Qed.

(** The size a caller allocates for the packed matrix. *)
Definition packed_size (n k m kf es : Z) : Z :=
  dlp_reorder_round_up n m * dlp_reorder_round_up k kf * es.

(** C20. The packed buffer has one defined content: for any blocking the callers
    accept, any element size, strides and any number of threads, the parallel
    region stays inside the buffer of the computed size whatever the interleaving
    of its threads, always leaves the same bytes, holds element (p, j) at its
    position, zero in all padding and the old content outside. *)
Theorem ref_reorder_layout (b pk0 : buffer) (es kf n k NR m NC KC rs cs : Z) :
  blocks_checked NR m NC KC kf -> 0 <= n -> 0 <= k -> 0 < es ->
  (forall p j i, in_matrix n k p j -> 0 <= i < es -> is_Some (b !! (matrix_byte es rs cs p j + i))) ->
  (forall a, 0 <= a < packed_size n k m kf es -> is_Some (pk0 !! a)) ->
  exists pk,
    (forall omp_team n_threads, team_ok omp_team ->
       team_computes (dlp_reorder_ref_reorderb omp_team b es kf n k NR m NC KC rs cs n_threads) pk0 pk) /\
    (forall p j i, in_matrix n k p j -> 0 <= i < es ->
       pk !! (elem_pos n k NR m NC KC kf p j * es + i) = b !! (matrix_byte es rs cs p j + i)) /\
    (forall a, 0 <= a < packed_size n k m kf es ->
       (forall p j, in_matrix n k p j -> a / es <> elem_pos n k NR m NC KC kf p j) -> pk !! a = Some 0) /\
    (forall a, ~ (0 <= a < packed_size n k m kf es) -> pk !! a = pk0 !! a).
Proof.
  intros Hc Hn Hk Hes Hb Hpk. pose proof (blocks_checked_layout n k NR m NC KC kf Hc Hn Hk) as Hl.
  set (v := fun a => default 0 (b !! a)).
  assert (holds_matrix n k es rs cs b v) as Hbv.
  { intros p j i Hpj Hi. unfold v. by destruct (Hb p j i Hpj Hi) as [x ->]. }
  destruct (reorderb_ok n k NR m NC KC kf es rs cs Hl Hes b v pk0 Hbv Hpk) as (pk & Hpkd & Hrun).
  exists pk. split; [exact Hrun|]. split; [|split; [|exact (proj2 Hpkd)]].
  - intros p j i Hpj Hi. rewrite (Hbv p j i Hpj Hi).
    by apply (is_packed_holds n k NR m NC KC kf es rs cs Hl Hes v pk0).
  - intros a Ha Hno. rewrite (proj1 Hpkd a Ha). f_equal.
    destruct (proj2 (packed_value_ok n k NR m NC KC kf es rs cs Hl Hes v) a) as [|(p & j & Hpj & E)]; [done|].
    by destruct (Hno p j Hpj).
Qed.

(** Reordering then un-reordering gives the matrix back: the two regions may
    run on different numbers of threads and under any interleaving, every byte of
    the [k x n] window is restored and no other byte of the destination changes. *)
Theorem reorder_unreorder_roundtrip (b pk0 out0 : buffer) (es kf n k NR m NC KC rs cs : Z) :
  blocks_checked NR m NC KC kf -> 0 <= n -> 0 <= k -> 0 < es ->
  (forall p j i, in_matrix n k p j -> 0 <= i < es ->
     is_Some (b !! (matrix_byte es rs cs p j + i)) /\ is_Some (out0 !! (matrix_byte es rs cs p j + i))) ->
  (forall a, 0 <= a < packed_size n k m kf es -> is_Some (pk0 !! a)) ->
  exists pk out, forall team1 nt1 team2 nt2, team_ok team1 -> team_ok team2 ->
    team_computes (dlp_reorder_ref_reorderb team1 b es kf n k NR m NC KC rs cs nt1) pk0 pk /\
    team_computes (dlp_reorder_ref_unreorderb team2 pk es kf n k NR m NC KC rs cs nt2) out0 out /\
    (forall p j i, in_matrix n k p j -> 0 <= i < es ->
       out !! (matrix_byte es rs cs p j + i) = b !! (matrix_byte es rs cs p j + i)) /\
    (forall a, ~ in_matrix_bytes n k es rs cs a -> out !! a = out0 !! a).
Proof.
  intros Hc Hn Hk Hes Hb Hpk. pose proof (blocks_checked_layout n k NR m NC KC kf Hc Hn Hk) as Hl.
  set (v := fun a => default 0 (b !! a)).
  assert (holds_matrix n k es rs cs b v) as Hbv.
  { intros p j i Hpj Hi. unfold v. by destruct (Hb p j i Hpj Hi) as [[x ->] _]. }
  destruct (reorderb_ok n k NR m NC KC kf es rs cs Hl Hes b v pk0 Hbv Hpk) as (pk & Hpkd & Hrun).
  destruct (unreorderb_unique n k NR m NC KC kf es rs cs Hl pk v out0) as (out & Hout & Hin & Hframe).
  { by apply (is_packed_holds n k NR m NC KC kf es rs cs Hl Hes v pk0). }
  { intros a (p & j & Hpj & Ha). destruct (Hb p j (a - matrix_byte es rs cs p j) Hpj ltac:(lia)) as [_ H].
    by replace (matrix_byte es rs cs p j + (a - matrix_byte es rs cs p j)) with a in H by lia. }
  exists pk, out. intros team1 nt1 team2 nt2 H1 H2. split_and!; auto.
  intros p j i Hpj Hi. rewrite (Hbv p j i Hpj Hi). apply Hin. exists p, j. split; [done|lia].
Qed.

(** A [3 x 5] matrix of two-byte elements, row major, and its packed buffer for
    [NR = 4], [min_NR = 2], [NC = 4], [KC = 2], [k_factor = 2]. *)
Definition example_b : buffer := list_to_map ((fun a => (a, a + 1)) <$> seqZ 0 30).
Definition example_zeros (len : Z) : buffer := list_to_map ((fun a => (a, 0)) <$> seqZ 0 len).

Lemma in_window (P : Z -> Z -> Z -> Prop) n k es :
  Forall (fun p => Forall (fun j => Forall (P p j) (seqZ 0 es)) (seqZ 0 n)) (seqZ 0 k) ->
  forall p j i, in_matrix n k p j -> 0 <= i < es -> P p j i.
Proof.
  intros H p j i [Hp Hj] Hi. rewrite Forall_forall in H.
  specialize (H p ltac:(apply elem_of_seqZ; lia)). rewrite Forall_forall in H.
  specialize (H j ltac:(apply elem_of_seqZ; lia)). rewrite Forall_forall in H.
  apply H, elem_of_seqZ. lia.
Qed.

Lemma in_range (P : Z -> Prop) len :
  Forall P (seqZ 0 len) -> forall a, 0 <= a < len -> P a.
Proof. intros H a Ha. rewrite Forall_forall in H. apply H, elem_of_seqZ. lia. Qed.

Lemma example_checked : blocks_checked 4 2 4 2 2.
Proof. done. Defined.

Lemma ref_reorder_layout_witness :
  exists pk : buffer, pk !! (elem_pos 5 3 4 2 4 2 2 2 4 * 2 + 1) = Some 30 /\
    team_computes (dlp_reorder_ref_reorderb (fun t => t) example_b 2 2 5 3 4 2 4 2 5 1 3)
      (example_zeros 48) pk.
Proof.
  destruct (ref_reorder_layout example_b (example_zeros 48) 2 2 5 3 4 2 4 2 5 1 example_checked)
    as (pk & Hrun & Hel & _); [done..| | |].
  - apply in_window. repeat first [constructor | vm_compute; by eexists].
  - apply in_range. repeat first [constructor | vm_compute; by eexists].
  - exists pk. split; [|by apply Hrun; intros t]. by rewrite Hel by (split; lia).
Defined.

Lemma reorder_unreorder_roundtrip_witness :
  exists pk out : buffer,
    team_computes (dlp_reorder_ref_reorderb (fun t => t) example_b 2 2 5 3 4 2 4 2 5 1 3)
      (example_zeros 48) pk /\
    team_computes (dlp_reorder_ref_unreorderb (fun _ => 1) pk 2 2 5 3 4 2 4 2 5 1 8)
      (example_zeros 30) out /\ out !! 29 = Some 30.
Proof.
  destruct (reorder_unreorder_roundtrip example_b (example_zeros 48) (example_zeros 30)
    2 2 5 3 4 2 4 2 5 1 example_checked) as (pk & out & H); [done..| | |].
  - apply in_window. repeat first [done | split | constructor | vm_compute; by eexists].
  - apply in_range. repeat first [constructor | vm_compute; by eexists].
  - exists pk, out. destruct (H (fun t => t) 3 (fun _ => 1) 8) as (H1 & H2 & H3 & _);
      [by intros t|by intros t|]. split; [done|split; [done|]].
    change 29 with (matrix_byte 2 5 1 2 4 + 1). by rewrite (H3 2 4 1) by (split; lia).
Defined.
