(* ===== verification/GemmDriver.v ===== *)
(** * The 8-bit integer GEMM drivers
    (frame/s8s8s32/dlp_gemm_s8s8s32.c, frame/u8s8s32/dlp_gemm_u8s8s32.c)

    What one thread of the team does between entry and return: the buffers it
    allocates and frees, the barriers it passes, the packing calls and the kernel
    calls with all their arguments.  The two drivers are one program: [signed] tells
    the s8 driver, which keeps the column sums of B, from the u8 driver.  The kernels
    themselves (intrinsics or generated code) are parameters of [TeamMachine]. *)
From S2P Require Import Prelude DlpTypes PostOpTypes ThreadUtils ReorderLayout.
#[local] Open Scope Z_scope.

(** ** The actions of a thread *)

(** A pointer the driver forms: an element offset in the object it points into.
    [InPackB] is the buffer the chief of the team shares, [InOwnB] the buffer a thread
    packs B into on the GEMV path. *)
Inductive ptr :=
  | Null
  | InA (off : Z)
  | InB (off : Z)
  | InC (off : Z)
  | InPackA (off : Z)
  | InPackB (off : Z)
  | InOwnB (off : Z)
  | InTempC (off : Z).

#[export] Instance ptr_eq_dec : EqDecision ptr.
Proof. solve_decision. Defined.

Definition ptr_add (p : ptr) (d : Z) : ptr :=
  match p with
  | Null => Null
  | InA o => InA (o + d)
  | InB o => InB (o + d)
  | InC o => InC (o + d)
  | InPackA o => InPackA (o + d)
  | InPackB o => InPackB (o + d)
  | InOwnB o => InOwnB (o + d)
  | InTempC o => InTempC (o + d)
  end.

(** [dlp_offset_or_null_s32]. *)
Definition dlp_offset_or_null_s32 (base : ptr) (offset : Z) : ptr :=
  match base with Null => Null | _ => ptr_add base offset end.

(** The arguments of [dlp_execute_kernel], the post-op list included, and the fields of
    [post_ops_attr]; [alpha] is the driver's own in every call and left to the machine.
    [b_col_sum] is the byte address of the [int32_t] vector and the index of its first
    entry. *)
Record kernel_call := mk_kernel_call {
  kc_m0 : Z; kc_n0 : Z; kc_k0 : Z;
  kc_a : ptr; kc_rs_a : Z; kc_cs_a : Z; kc_ps_a : Z;
  kc_b : ptr; kc_rs_b : Z; kc_cs_b : Z; kc_n_sub : Z; kc_jc_rem : Z;
  kc_c : ptr; kc_rs_c : Z; kc_cs_c : Z; kc_beta : Z;
  post_op_c_i : Z; post_op_c_j : Z; is_first_k : bool; is_last_k : bool;
  b_sum_offset : Z; b_col_sum_vec : ptr; b_col_sum_index : Z;
  kc_post_op_list : list dlp_gemm_post_op;
  c_stor_type : DLP_TYPE; buf_downscale : ptr; rs_c_downscale : Z; cs_c_downscale : Z;
}.

(** The actions, in the order of the code.  [EvKernel pc c] is the call [c] made in
    the k block at [pc]; [EvFree] is the release of the shared buffer. *)
Inductive event :=
  | EvSend (comm size : Z)
  | EvBarrier (comm : Z)
  | EvFree (comm : Z)
  | EvAllocB (size : Z)
  | EvZeroColSum (base : ptr) (from to : Z)
  | EvGatherB (rs len : Z) (sum : ptr)
  | EvPackB (dst : ptr) (src n0 k0 : Z) (sum : ptr)
  | EvPackA (src m0 k0 : Z)
  | EvKernel (pc : Z) (c : kernel_call).

(** The value of an enumerator, for the comparisons of [c_downscale]. *)
Definition DLP_TYPE_value (t : DLP_TYPE) : Z :=
  match t with
  | DLP_INVALID => 0 | DLP_S4 => 1 | DLP_U4 => 2 | DLP_F4 => 3 | DLP_S8 => 4 | DLP_U8 => 5
  | DLP_S16 => 6 | DLP_U16 => 7 | DLP_F16 => 8 | DLP_BF16 => 9 | DLP_S32 => 10 | DLP_U32 => 11
  | DLP_F32 => 12 | DLP_MAX => 13
  end.

Definition dlp_get_packb_s8s8s32o32_min_NR : Z := 16.
Definition dlp_get_packb_u8s8s32o32_min_NR : Z := 16.

(** [dlp_gemm_col_sum_byte_offset]. *)
Definition dlp_gemm_col_sum_byte_offset (k : Z) : Z := dlp_make_multiple_of_n k 4.

(** The strides [dlp_packa_u8s8s32os32] reports for its block. *)
Definition dlp_packa_u8s8s32os32_strides (rs k0 : Z) : Z * Z :=
  if rs =? 1 then (k0, 4) else (4, 24).

(** [dlp_get_packa_strides_mfringe_u8s8s32os32]. *)
Definition dlp_get_packa_strides_mfringe_u8s8s32os32 (rs cs rs_use cs_use MR m_fringe : Z) : Z * Z :=
  if negb (rs =? 1) && (cs =? 1) && (MR <? cs_use)
  then (4, (cs_use `quot` MR) * m_fringe) else (rs_use, cs_use).

(** ** The driver *)

Section driver.
Context (signed : bool) (lcntx : dlp_gemm_cntx_t).
(** The strides the kernel that packs B reports for the width and height it packs. *)
Context (packb_strides : Z -> Z -> Z * Z).
Context (m n k rs_a cs_a : Z) (mtag_a : AOCL_DLP_MEMORY_TAG).
Context (rs_b cs_b : Z) (mtag_b : AOCL_DLP_MEMORY_TAG).
Context (rs_c cs_c : Z) (beta : Z) (c_downscale : DLP_TYPE) (post_op_list : list dlp_gemm_post_op).

Local Abbreviation NC := (NC (blksz lcntx)).
Local Abbreviation KC := (KC (blksz lcntx)).
Local Abbreviation MC := (MC (blksz lcntx)).
Local Abbreviation NR := (NR (blksz lcntx)).
Local Abbreviation MR := (MR (blksz lcntx)).

(** [c_downscale < DLP_S32 || c_downscale == DLP_F32]: the result is stored through
    [buf_downscale] and accumulated in a temporary buffer. *)
Definition downscaled : bool :=
  (DLP_TYPE_value c_downscale <? DLP_TYPE_value DLP_S32) || bool_decide (c_downscale = DLP_F32).

(** [post_ops_attr.buf_downscale]: the result buffer, when the result is not stored as it is
    accumulated. *)
Definition downscale_buffer : ptr := if downscaled then InC 0 else Null.

Definition packb_min_NR : Z :=
  if signed then dlp_get_packb_s8s8s32o32_min_NR else dlp_get_packb_u8s8s32o32_min_NR.

(** [dlp_gemm_get_packb_strides] and [dlp_gemm_get_packa_strides]. *)
Definition dlp_gemm_get_packb_strides : Z * Z := (packb_rs (pack_s lcntx), packb_cs (pack_s lcntx)).
Definition dlp_gemm_get_packa_strides : Z * Z := (packa_rs (pack_s lcntx), packa_cs (pack_s lcntx)).

(** The column sums exist in the s8 driver only. *)
Definition col_sums (p : ptr) : ptr := if signed then p else Null.
Definition col_sums_size (cols : Z) : Z := if signed then cols * 4 else 0.

(** What the loops hand to the kernel calls of one [(jc, pc)] iteration. *)
Record b_operand := mk_b_operand {
  b_use : ptr; rs_b_use : Z; cs_b_use : Z; col_sum_vec : ptr; col_sum_index : Z }.

(** The kernel call of a [jr] iteration; [b_sum] is [post_ops_attr.b_sum_offset] of the s8
    driver, which stays 0 in the u8 driver. *)
Definition tile_call (jr b_sum jc nc0 pc kc0 ic mc0 : Z) (a_use : ptr)
    (rs_a_use cs_a_use a_block_stride : Z) (bo : b_operand) (c_use_ic : ptr) (rs_c_use beta0 : Z)
    : kernel_call := {|
  kc_m0 := mc0; kc_n0 := Z.min (nc0 - jr) NR; kc_k0 := kc0;
  kc_a := a_use; kc_rs_a := rs_a_use; kc_cs_a := cs_a_use; kc_ps_a := a_block_stride;
  kc_b := ptr_add (b_use bo) (jr * dlp_make_multiple_of_n kc0 4);
  kc_rs_b := rs_b_use bo; kc_cs_b := cs_b_use bo; kc_n_sub := 0; kc_jc_rem := 0;
  kc_c := dlp_offset_or_null_s32 c_use_ic jr; kc_rs_c := rs_c_use; kc_cs_c := 1; kc_beta := beta0;
  post_op_c_i := ic; post_op_c_j := jc + jr;
  is_first_k := pc =? 0; is_last_k := k <=? pc + KC;
  b_sum_offset := if signed then b_sum else 0;
  b_col_sum_vec := col_sum_vec bo; b_col_sum_index := col_sum_index bo;
  kc_post_op_list := post_op_list; c_stor_type := c_downscale; buf_downscale := downscale_buffer;
  rs_c_downscale := rs_c; cs_c_downscale := cs_c |}.

(** The [jr] loop. *)
Fixpoint jr_loop (fuel : nat) (jr b_sum jc nc0 pc kc0 ic mc0 : Z) (a_use : ptr)
    (rs_a_use cs_a_use a_block_stride : Z) (bo : b_operand) (c_use_ic : ptr) (rs_c_use beta0 : Z)
    : option (list event) :=
  match fuel with
  | O => None
  | S fuel =>
      if jr <? nc0 then
        r ← jr_loop fuel (jr + NR) (b_sum + NR) jc nc0 pc kc0 ic mc0 a_use rs_a_use cs_a_use
              a_block_stride bo c_use_ic rs_c_use beta0;
        Some (EvKernel pc (tile_call jr b_sum jc nc0 pc kc0 ic mc0 a_use rs_a_use cs_a_use
                             a_block_stride bo c_use_ic rs_c_use beta0) :: r)
      else Some []
  end.

(** A for one [ic] iteration: the packing call, the pointer, row and column stride, and
    the stride of a block of rows. *)
Definition a_operand (pc kc0 ic mc0 : Z) : list event * ptr * Z * Z * Z :=
  match mtag_a, signed with
  | PACK, _ =>
      let '(rs_a_use, cs_a_use) := dlp_packa_u8s8s32os32_strides rs_a kc0 in
      ([EvPackA (rs_a * ic + cs_a * pc) mc0 kc0], InPackA 0, rs_a_use, cs_a_use,
       if cs_a =? 1 then dlp_make_multiple_of_n kc0 4 else rs_a_use)
  | REORDERED, false =>
      let '(rs_a_use, cs_a_use) := dlp_gemm_get_packa_strides in
      ([], InA (pc * m + dlp_make_multiple_of_n kc0 4 * ic), rs_a_use, cs_a_use,
       dlp_make_multiple_of_n kc0 4)
  | _, _ => ([], InA (rs_a * ic + cs_a * pc), rs_a, 4, rs_a)
  end.

(** One iteration of the [ic] loop. *)
Definition ic_body (ic_start ic_end jc nc0 pc kc0 beta0 : Z) (bo : b_operand) (c_use_jc : ptr)
    (rs_c_use ic : Z) : option (list event) :=
  let mc0 := Z.min (ic_end - ic) MC in
  let c_use_ic :=
    if downscaled then dlp_offset_or_null_s32 c_use_jc (rs_c_use * (ic - ic_start))
    else ptr_add c_use_jc (rs_c_use * ic) in
  let '(pack_a, a_use, rs_a_use, cs_a_use, a_block_stride) := a_operand pc kc0 ic mc0 in
  kernels ← jr_loop (loop_fuel 0 nc0) 0 0 jc nc0 pc kc0 ic mc0 a_use rs_a_use cs_a_use
              a_block_stride bo c_use_ic rs_c_use beta0;
  Some (pack_a ++ kernels).

(** The bytes of the shared buffer for a panel of [nc0] columns and [kc0] rows. *)
Definition pack_b_size (nc0 kc0 : Z) : Z :=
  let nc0_updated := dlp_make_multiple_of_n nc0 packb_min_NR in
  nc0_updated * dlp_make_multiple_of_n kc0 4 + col_sums_size nc0_updated.

(** Where the column sums of a panel of [nc0] columns are: [pack_b_column_sum] is set
    in the first k block. *)
Definition pack_b_column_sum (nc0 : Z) : Z :=
  dlp_make_multiple_of_n nc0 packb_min_NR * dlp_make_multiple_of_n (Z.min k KC) 4.

(** The part of the panel a thread packs, with the packing calls. *)
Definition pack_b_part (thread_ic : dlp_task_id_t) (jc nc0 pc kc0 : Z) : list event * (Z * Z) :=
  let kc0_updated := dlp_make_multiple_of_n kc0 4 in
  let '(jc_packb_start, jc_packb_end) := dlp_thread_task_range thread_ic nc0 NR false in
  let width := jc_packb_end - jc_packb_start in
  if (jc_packb_start <? jc_packb_end) && (jc_packb_start <? jc + nc0) then
    ((if signed && (pc =? 0)
      then [EvZeroColSum (InPackB (pack_b_column_sum nc0)) jc_packb_start jc_packb_end] else []) ++
     [EvPackB (InPackB (jc_packb_start * kc0_updated))
        (rs_b * pc + cs_b * jc + cs_b * jc_packb_start) width kc0
        (col_sums (InPackB (pack_b_column_sum nc0 + 4 * jc_packb_start)))],
     packb_strides width kc0)
  else ([], dlp_gemm_get_packb_strides).

(** The packing part of one [(jc, pc)] iteration when B is packed by the team. *)
Definition pack_b_body (thread_jc thread_ic : dlp_task_id_t) (jc nc0 pc kc0 : Z)
    : list event * b_operand :=
  let comm := work_id thread_jc in
  let '(part, (rs_b_use, cs_b_use)) := pack_b_part thread_ic jc nc0 pc kc0 in
  ((if dlp_thread_am_ochief thread_ic then [EvSend comm (pack_b_size nc0 kc0)] else []) ++
   [EvBarrier comm] ++ part ++ [EvBarrier comm],
   mk_b_operand (InPackB 0) rs_b_use cs_b_use (col_sums (InPackB (pack_b_column_sum nc0))) 0).

(** The operand when B was reordered beforehand. *)
Definition reordered_b (jc jc_cur_loop jc_cur_loop_rem n_sub_updated pc kc0 : Z) : b_operand :=
  let k_updated := dlp_make_multiple_of_n k 4 in
  let n_updated := dlp_make_multiple_of_n n 16 in
  let kc0_updated := dlp_make_multiple_of_n kc0 4 in
  let '(rs_b_use, cs_b_use) := dlp_gemm_get_packb_strides in
  mk_b_operand
    (InB (jc_cur_loop * k_updated + n_sub_updated * pc + jc_cur_loop_rem * kc0_updated))
    rs_b_use cs_b_use (col_sums (InB (k_updated * n_updated))) jc.

(** One iteration of the [pc] loop. *)
Definition pc_body (thread_jc thread_ic : dlp_task_id_t)
    (ic_start ic_end jc jc_cur_loop jc_cur_loop_rem nc0 n_sub_updated : Z) (c_use_jc : ptr)
    (rs_c_use pc : Z) : option (list event) :=
  let beta0 := if pc =? 0 then beta else 1 in
  let kc0 := Z.min (k - pc) KC in
  let '(pack, bo) :=
    match mtag_b with
    | PACK => pack_b_body thread_jc thread_ic jc nc0 pc kc0
    | _ => ([], reordered_b jc jc_cur_loop jc_cur_loop_rem n_sub_updated pc kc0)
    end in
  kernels ← for_upto (loop_fuel ic_start ic_end) ic_start ic_end MC
    (ic_body ic_start ic_end jc nc0 pc kc0 beta0 bo c_use_jc rs_c_use);
  Some (pack ++ kernels).

(** [( jc_cur_loop, jc_cur_loop_rem, nc0, n_sub_updated )] of a [jc] iteration. *)
Definition b_panel (jc nc0 : Z) : Z * Z * Z * Z :=
  match mtag_b with
  | REORDERED =>
      dlp_gemm_get_B_panel_reordered_start_offset_width jc n NC packb_min_NR nc0
  | _ => (jc, 0, nc0, 0)
  end.

(** [c_use_jc] and [rs_c_use] of a [jc] iteration. *)
Definition c_panel (jc nc0 : Z) : ptr * Z :=
  if bool_decide (c_downscale = DLP_S32) then (InC jc, rs_c)
  else if downscaled then (if KC <? k then InTempC 0 else Null, nc0)
  else (Null, rs_c).

(** The [jc] loop. *)
Fixpoint jc_loop (fuel : nat) (thread_jc thread_ic : dlp_task_id_t)
    (ic_start ic_end jc jc_end : Z) : option (list event) :=
  match fuel with
  | O => None
  | S fuel =>
      if jc <? jc_end then
        let nc0 := Z.min (jc_end - jc) NC in
        let '(jc_cur_loop, jc_cur_loop_rem, nc0, n_sub_updated) := b_panel jc nc0 in
        let '(c_use_jc, rs_c_use) := c_panel jc nc0 in
        l ← for_upto (loop_fuel 0 k) 0 k KC
              (pc_body thread_jc thread_ic ic_start ic_end jc jc_cur_loop jc_cur_loop_rem nc0
                 n_sub_updated c_use_jc rs_c_use);
        let jc := match mtag_b with
                  | REORDERED => dlp_gemm_adjust_B_panel_reordered_jc jc_cur_loop
                  | _ => jc
                  end in
        r ← jc_loop fuel thread_jc thread_ic ic_start ic_end (jc + NC) jc_end;
        Some (l ++ r)
      else Some []
  end.

(** The five loops. *)
Definition five_loops (thread : dlp_gemm_thrinfo_t) : option (list event) :=
  match mtag_b with
  | PACK | REORDERED =>
      let '(thread_jc, thread_ic) := dlp_gemm_gen_dlp_task_ids (Some thread) in
      let '(jc_start, jc_end) := dlp_thread_task_range thread_jc n NR false in
      let '(ic_start, ic_end) := dlp_thread_task_range thread_ic m MR false in
      l ← jc_loop (loop_fuel jc_start jc_end) thread_jc thread_ic ic_start ic_end jc_start jc_end;
      Some (l ++ match mtag_b with
                 | PACK =>
                     EvBarrier (work_id thread_jc) ::
                     (if dlp_thread_am_ochief thread_ic then [EvFree (work_id thread_jc)] else [])
                 | _ => []
                 end)
  | _ => Some []
  end.

(** ** The products with a vector

    [gemv_n1]: B is one column; the rows of C are split in sixteens among the threads. *)

(** The column of B: the packing loop, and what the kernel is given. *)
Definition gemv_n1_b : list event * b_operand :=
  let sums := dlp_gemm_col_sum_byte_offset k in
  match mtag_b with
  | PACK =>
      if signed then
        ([EvAllocB (sums + 4); EvGatherB rs_b k (InOwnB sums)],
         mk_b_operand (InOwnB 0) 1 1 (InOwnB sums) 0)
      else if negb (rs_b =? 1) then
        ([EvAllocB k; EvGatherB rs_b k Null], mk_b_operand (InOwnB 0) 1 1 Null 0)
      else ([], mk_b_operand (InB 0) rs_b cs_b Null 0)
  | REORDERED => ([], mk_b_operand (InB 0) rs_b cs_b (col_sums (InB sums)) 0)
  | _ => ([], mk_b_operand (InB 0) rs_b cs_b Null 0)
  end.

Definition gemv_n1_body (ic_end : Z) (bo : b_operand) (ic : Z) : option (list event) :=
  let mc0 := Z.min (ic_end - ic) MC in
  let '(pack_a, a_use, rs_a_use, cs_a_use) :=
    match mtag_a with
    | PACK =>
        let '(rs_a_use, cs_a_use) := dlp_packa_u8s8s32os32_strides rs_a k in
        ([EvPackA (rs_a * ic) mc0 k], InPackA 0, rs_a_use, cs_a_use)
    | _ => ([], InA (ic * rs_a), rs_a, cs_a)
    end in
  Some (pack_a ++ [EvKernel 0 {|
    kc_m0 := mc0; kc_n0 := 1; kc_k0 := k;
    kc_a := a_use; kc_rs_a := rs_a_use; kc_cs_a := cs_a_use; kc_ps_a := 1;
    kc_b := b_use bo; kc_rs_b := rs_b_use bo; kc_cs_b := cs_b_use bo; kc_n_sub := 0; kc_jc_rem := 0;
    kc_c := InC (ic * rs_c); kc_rs_c := rs_c; kc_cs_c := 1; kc_beta := beta;
    post_op_c_i := ic; post_op_c_j := 0; is_first_k := true; is_last_k := true;
    b_sum_offset := 0; b_col_sum_vec := col_sum_vec bo; b_col_sum_index := col_sum_index bo;
    kc_post_op_list := post_op_list; c_stor_type := c_downscale; buf_downscale := downscale_buffer;
    rs_c_downscale := rs_c; cs_c_downscale := cs_c |}]).

Definition gemv_n1 (thread : dlp_gemm_thrinfo_t) (thread_ic : dlp_task_id_t) : option (list event) :=
  let thread_ic := mk_task_id (ocomm_id thread_ic)
    (if n_way thread_ic =? 1 then thr_n_threads thread else n_way thread_ic) (thr_tid thread) in
  let '(ic_start, ic_end) := dlp_thread_task_range thread_ic m 16 false in
  let '(pack_b, bo) := gemv_n1_b in
  l ← for_upto (loop_fuel ic_start ic_end) ic_start ic_end MC (gemv_n1_body ic_end bo);
  Some (pack_b ++ l).

(** [gemv_m1]: A is one row; the columns of C are split in panels among the threads,
    and the kernel walks the k blocks itself. *)
Definition gemv_m1_a : list event * ptr * Z * Z :=
  match mtag_a with
  | PACK =>
      let '(rs_a_use, cs_a_use) := dlp_packa_u8s8s32os32_strides rs_a k in
      let '(rs_a_use, cs_a_use) :=
        dlp_get_packa_strides_mfringe_u8s8s32os32 rs_a cs_a rs_a_use cs_a_use MR 1 in
      ([EvPackA 0 1 k], InPackA 0, rs_a_use, cs_a_use)
  | _ => ([], InA 0, rs_a, 4)
  end.

(** One packing call of the [pc] loop of a panel. *)
Definition gemv_m1_pack (jc nc0 : Z) (pc : Z) : event :=
  let nc0_updated := dlp_make_multiple_of_n nc0 packb_min_NR in
  EvPackB (InOwnB (nc0_updated * pc)) (rs_b * pc + jc * cs_b) nc0 (Z.min (k - pc) KC)
    (col_sums (InOwnB (nc0_updated * dlp_make_multiple_of_n k 4))).

(** The panel of B: what is packed, and what the kernel is given. *)
Definition gemv_m1_b (jc jc_cur_loop nc0 : Z) : list event * b_operand :=
  let k_updated := dlp_make_multiple_of_n k 4 in
  let n_updated := dlp_make_multiple_of_n n 16 in
  match mtag_b with
  | REORDERED =>
      let '(rs_b_use, cs_b_use) := dlp_gemm_get_packb_strides in
      ([], mk_b_operand (InB (jc_cur_loop * k_updated)) rs_b_use cs_b_use
             (col_sums (InB (k_updated * n_updated))) jc)
  | PACK =>
      let nc0_updated := dlp_make_multiple_of_n nc0 packb_min_NR in
      let sums := nc0_updated * k_updated in
      let kc_last := k - KC * ((k - 1) `quot` KC) in
      let '(rs_b_use, cs_b_use) := packb_strides nc0 kc_last in
      ([EvAllocB (nc0_updated * k_updated + col_sums_size nc0_updated)] ++
       (if signed then [EvZeroColSum (InOwnB sums) 0 nc0] else []) ++
       (gemv_m1_pack jc nc0 <$> loop_points 0 k KC),
       mk_b_operand (InOwnB 0) rs_b_use cs_b_use (col_sums (InOwnB sums)) 0)
  | _ => ([], mk_b_operand (InB 0) rs_b cs_b Null 0)
  end.

Fixpoint gemv_m1_loop (fuel : nat) (a_use : ptr) (rs_a_use cs_a_use jc jc_end : Z)
    : option (list event) :=
  match fuel with
  | O => None
  | S fuel =>
      if jc <? jc_end then
        let nc0 := Z.min (jc_end - jc) NC in
        let '(jc_cur_loop, jc_cur_loop_rem, nc0, n_sub_updated) := b_panel jc nc0 in
        let '(pack_b, bo) := gemv_m1_b jc jc_cur_loop nc0 in
        let n_sub_updated :=
          match mtag_b with PACK => dlp_make_multiple_of_n nc0 packb_min_NR | _ => n_sub_updated end in
        let call := {|
          kc_m0 := 1; kc_n0 := nc0; kc_k0 := k;
          kc_a := a_use; kc_rs_a := rs_a_use; kc_cs_a := cs_a_use; kc_ps_a := 1;
          kc_b := b_use bo; kc_rs_b := rs_b_use bo; kc_cs_b := cs_b_use bo;
          kc_n_sub := n_sub_updated; kc_jc_rem := jc_cur_loop_rem;
          kc_c := InC jc; kc_rs_c := rs_c; kc_cs_c := cs_c; kc_beta := beta;
          post_op_c_i := 0; post_op_c_j := jc; is_first_k := true; is_last_k := true;
          b_sum_offset := 0; b_col_sum_vec := col_sum_vec bo; b_col_sum_index := col_sum_index bo;
          kc_post_op_list := post_op_list; c_stor_type := c_downscale; buf_downscale := downscale_buffer;
          rs_c_downscale := rs_c; cs_c_downscale := cs_c |} in
        let jc := match mtag_b with
                  | REORDERED => dlp_gemm_adjust_B_panel_reordered_jc jc_cur_loop
                  | _ => jc
                  end in
        r ← gemv_m1_loop fuel a_use rs_a_use cs_a_use (jc + NC) jc_end;
        Some (pack_b ++ EvKernel 0 call :: r)
      else Some []
  end.

Definition gemv_m1 (thread : dlp_gemm_thrinfo_t) (thread_jc : dlp_task_id_t) : option (list event) :=
  let thread_jc := mk_task_id (ocomm_id thread_jc)
    (if n_way thread_jc =? 1 then thr_n_threads thread else n_way thread_jc) (thr_tid thread) in
  let '(jc_start, jc_end) := dlp_thread_task_range thread_jc n NR false in
  let '(pack_a, a_use, rs_a_use, cs_a_use) := gemv_m1_a in
  l ← gemv_m1_loop (loop_fuel jc_start jc_end) a_use rs_a_use cs_a_use jc_start jc_end;
  Some (pack_a ++ l).

Definition gemv (thread : dlp_gemm_thrinfo_t) : option (list event) :=
  let '(thread_jc, thread_ic) := dlp_gemm_gen_dlp_task_ids (Some thread) in
  if n =? 1 then gemv_n1 thread thread_ic else gemv_m1 thread thread_jc.

(** The driver, in a build with the AVX512 kernels. *)
Definition rowvar (thread : dlp_gemm_thrinfo_t) : option (list event) :=
  if bool_decide (mtag_b = UNPACKED) then Some []
  else if (m =? 1) || (n =? 1) then gemv thread
  else five_loops thread.
End driver.

Definition dlp_gemm_rowvar_s8s8s32o32 := rowvar true.
Definition dlp_gemm_rowvar_u8s8s32o32 := rowvar false.
Definition dlp_gemv_rowvar_s8s8s32o32 := gemv true.
Definition dlp_gemv_rowvar_u8s8s32os32 := gemv false.
