(* ===== verification/TeamMachine.v ===== *)
(** * A team of threads running a GEMM driver

    The traces of [GemmDriver] as a machine: the threads share the output and, per
    group, the buffer B is packed into; a thread has the block of A it packed last and,
    on the GEMV path, a buffer of its own.  A step is one action of one thread, or a
    barrier that all threads of a group have reached.  The kernels enter by [kernels]
    and their contract [kernel_laws].  A buffer is used as bytes: the [int32_t] column
    sums live behind the [int8_t] panel in one allocation. *)
From S2P Require Import Prelude Word DlpTypes PostOpTypes PostOps ReorderLayout GemmDriver.
From stdpp Require Import relations.
#[local] Open Scope Z_scope.

(** ** Bytes *)

Definition to_i8 (z : Z) : Z := let u := z mod 2 ^ 8 in if u <? 2 ^ 7 then u else u - 2 ^ 8.

Definition load_i8 (b : Z -> Z) (a : Z) : Z := to_i8 (b a).

Definition load_i32 (b : Z -> Z) (a : Z) : Z :=
  to_i32 (b a mod 2 ^ 8 + 2 ^ 8 * (b (a + 1) mod 2 ^ 8) + 2 ^ 16 * (b (a + 2) mod 2 ^ 8)
          + 2 ^ 24 * (b (a + 3) mod 2 ^ 8)).

(** Little endian. *)
Definition store_i32 (b : Z -> Z) (a v : Z) (x : Z) : Z :=
  if (a <=? x) && (x <? a + 4) then v / 2 ^ (8 * (x - a)) mod 2 ^ 8 else b x.

(** [fill b lo hi f]: the bytes of [[lo, hi)] replaced. *)
Definition fill (b : Z -> Z) (lo hi : Z) (f : Z -> Z) (x : Z) : Z :=
  if (lo <=? x) && (x <? hi) then f x else b x.

(** [zsum f lo len] is [f lo + ... + f (lo + len - 1)]. *)
Definition zsum (f : Z -> Z) (lo len : Z) : Z := foldr (fun x acc => f x + acc) 0 (seqZ lo len).

(** ** Buffers, threads, states *)

Record pack_buf := mk_pack_buf { pb_size : Z; pb_bytes : Z -> Z }.

(** [th_group] is the jc work id; [th_a] the arguments of the last packing of A; the
    trace is cut at its barriers. *)
Record thread := mk_thread {
  th_group : Z;
  th_a : option (Z * Z * Z);
  th_b : option pack_buf;
  th_segs : list (list event);
}.

Record team_state := mk_team_state {
  st_threads : list thread;
  st_shared : Z -> option pack_buf;
  st_C : Z -> Z;
}.

(** A trace cut at its barriers; [None] if it passes a barrier of another group. *)
Fixpoint split_barriers (g : Z) (l : list event) : option (list (list event)) :=
  match l with
  | [] => Some [[]]
  | EvBarrier c :: l => if c =? g then r ← split_barriers g l; Some ([] :: r) else None
  | e :: l =>
      r ← split_barriers g l;
      match r with s :: ss => Some ((e :: s) :: ss) | [] => None end
  end.

(** ** The kernels *)

(** Which kernel the call was given: the tile kernel, or those for one column of B or
    one row of A. *)
Inductive kernel_kind := K_gemm | K_n1 | K_m1.

Definition kind_of (m n : Z) : kernel_kind :=
  if n =? 1 then K_n1 else if m =? 1 then K_m1 else K_gemm.

(** [packb src n0 k0 dst sum b]: the buffer bytes after packing [n0] columns and [k0]
    rows of B from the element [src]; [sum] is the byte address of the column sums.
    [packa src m0 k0]: the packed block of A.  [exec c a b s C]: the output after the
    call [c], whose operands read as [a], [b] and the column sums [s].  [epilogue ops i j v]:
    what the post-ops [ops] make of the value [v] of the element (i, j). *)
Record kernels := mk_kernels {
  packb : Z -> Z -> Z -> Z -> option Z -> (Z -> Z) -> Z -> Z;
  packa : Z -> Z -> Z -> Z -> Z;
  exec : kernel_call -> (Z -> Z -> Z) -> (Z -> Z -> Z) -> (Z -> Z) -> (Z -> Z) -> Z -> Z;
  epilogue : list dlp_gemm_post_op -> Z -> Z -> Z -> Z;
}.

(** A list without post-ops: its head is disabled. *)
Definition post_ops_disabled (ops : list dlp_gemm_post_op) : bool :=
  match ops with [] => true | op :: _ => bool_decide (op_code op = POST_OPS_DISABLE) end.

(** The post-ops of the list work on one element of C at a time: no fused GLU, which
    writes pairs of columns to another buffer. *)
Definition elementwise (ops : list dlp_gemm_post_op) : bool :=
  negb (dlp_gemm_post_op_list_has_shape_changing_glu (head ops)).

(** The element (i, j) that is stored for the accumulated value [v]. *)
Definition finish (ep : list dlp_gemm_post_op -> Z -> Z -> Z -> Z) (ops : list dlp_gemm_post_op) (i j v : Z) : Z :=
  if post_ops_disabled ops then v else ep ops i j v.

(** Position of row [kr], column [c] in a packed panel of [n0] columns and [k0] rows,
    as the packing kernels lay it out. *)
Definition panel_pos (NR n0 k0 kr c : Z) : Z :=
  let ch := chunk_at n0 NR 16 (dlp_reorder_round_up k0 4) c in
  offset ch + dlp_reorder_elem_offset kr (c - col_start ch) (slot ch) 4.

Section machine.
Context (signed : bool) (lcntx : dlp_gemm_cntx_t) (kind : kernel_kind).
(** The caller's A as elements, with its strides, and B as bytes. *)
Context (A : Z -> Z) (rs_a cs_a : Z) (Bmem : Z -> Z) (rs_b cs_b : Z) (alpha : Z).
Context (K : kernels).

Local Abbreviation NR := (NR (blksz lcntx)).
Local Abbreviation MR := (MR (blksz lcntx)).
Local Abbreviation KC := (KC (blksz lcntx)).

(** The s8 kernels add 128 to the elements of A and take the column sums off. *)
Definition a_bias : Z := if signed then 128 else 0.

(** What a packing call of B leaves in its buffer: the elements, the column sums
    added up, and nothing else touched. *)
Record packb_laws : Prop := mk_packb_laws {
  pl_elem : forall src n0 k0 dst sum b kr c, 0 <= kr < k0 -> 0 <= c < n0 ->
    (forall s, sum = Some s -> dst + dlp_reorder_round_up n0 16 * dlp_reorder_round_up k0 4 <= s) ->
    load_i8 (packb K src n0 k0 dst sum b) (dst + panel_pos NR n0 k0 kr c) =
    load_i8 Bmem (src + rs_b * kr + cs_b * c);
  pl_sum : forall src n0 k0 dst s b c, 0 <= c < n0 -> 0 <= k0 ->
    dst + dlp_reorder_round_up n0 16 * dlp_reorder_round_up k0 4 <= s ->
    load_i32 (packb K src n0 k0 dst (Some s) b) (s + 4 * c) =
    to_i32 (load_i32 b (s + 4 * c) +
            128 * zsum (fun kr => load_i8 Bmem (src + rs_b * kr + cs_b * c)) 0 k0);
  pl_frame : forall src n0 k0 dst sum b x, 0 <= n0 -> 0 <= k0 ->
    (x < dst \/ dst + dlp_reorder_round_up n0 16 * dlp_reorder_round_up k0 4 <= x) ->
    (forall s, sum = Some s -> x < s \/ s + 4 * dlp_reorder_round_up n0 16 <= x) ->
    packb K src n0 k0 dst sum b x = b x;
}.

(** What a call of the micro-kernel leaves in its tile of an [int32_t] result: the
    accumulated value, finished by the post-ops in the last k block. *)
Record tile_laws : Prop := mk_tile_laws {
  kl_tile : forall c a b s C co i' j', kc_c c = InC co -> kc_n0 c <= kc_rs_c c -> c_stor_type c = DLP_S32 ->
    elementwise (kc_post_op_list c) = true -> 0 <= i' < kc_m0 c -> 0 <= j' < kc_n0 c ->
    exec K c a b s C (co + i' * kc_rs_c c + j') =
    (if is_last_k c then finish (epilogue K) (kc_post_op_list c) (post_op_c_i c + i') (post_op_c_j c + j') else id)
      (to_i32 (kc_beta c * C (co + i' * kc_rs_c c + j') +
        alpha * (zsum (fun kr => (a i' kr + a_bias) * b kr j') 0 (kc_k0 c)
                 - (if signed && is_last_k c then s j' else 0))));
  kl_frame : forall c a b s C co x, kc_c c = InC co -> kc_n0 c <= kc_rs_c c -> c_stor_type c = DLP_S32 ->
    (forall i' j', 0 <= i' < kc_m0 c -> 0 <= j' < kc_n0 c -> x <> co + i' * kc_rs_c c + j') ->
    exec K c a b s C x = C x;
}.

Record kernel_laws : Prop := mk_kernel_laws {
  kl_packb : packb_laws;
  kl_packa : forall src m0 k0 i kr, rs_a = 1 -> 0 <= i < m0 -> 0 <= kr < k0 ->
    packa K src m0 k0 (i * k0 + kr) = A (src + i + cs_a * kr);
  kl_exec : tile_laws;
}.

(** ** How the kernels address their operands *)

Definition a_addr (c : kernel_call) (i kr : Z) : Z :=
  match kind with
  | K_gemm => kc_ps_a c * (MR * (i / MR)) + kc_rs_a c * (i mod MR) + kc_cs_a c * (kr / 4) + kr mod 4
  | K_n1 => kc_rs_a c * i + kr
  | K_m1 => kc_cs_a c * (kr / 4) + kr mod 4
  end.

Definition b_addr (c : kernel_call) (kr j : Z) : Z :=
  match kind with
  | K_gemm => panel_pos NR (kc_n0 c) (kc_k0 c) kr j
  | K_n1 => kr
  | K_m1 =>
      let pc := KC * (kr / KC) in
      let kc0 := Z.min (kc_k0 c - pc) KC in
      kc_n_sub c * pc + kc_jc_rem c * dlp_make_multiple_of_n kc0 4 +
      panel_pos NR (kc_n0 c) kc0 (kr - pc) j
  end.

(** The bytes of the panel a kernel may read. *)
Definition b_extent (c : kernel_call) : Z :=
  match kind with
  | K_gemm => dlp_reorder_round_up (kc_n0 c) 16 * dlp_reorder_round_up (kc_k0 c) 4
  | K_n1 => kc_k0 c
  | K_m1 => kc_n_sub c * dlp_reorder_round_up (kc_k0 c) 4
  end.

(** The column sum of column [j] of the call is at index [sum_at c j] of its vector. *)
Definition sum_at (c : kernel_call) (j : Z) : Z := b_col_sum_index c + b_sum_offset c + j.

Definition a_view (ta : option (Z * Z * Z)) (c : kernel_call) : option (Z -> Z -> Z) :=
  match kc_a c, ta with
  | InA o, _ => Some (fun i kr => A (o + a_addr c i kr))
  | InPackA o, Some (src, m0, k0) =>
      if (m0 =? kc_m0 c) && (k0 =? kc_k0 c)
      then Some (fun i kr => packa K src m0 k0 (o + a_addr c i kr)) else None
  | _, _ => None
  end.

Definition in_buf (ob : option pack_buf) (o len : Z) : option (Z -> Z) :=
  match ob with
  | Some b => if (0 <=? o) && (0 <=? len) && (o + len <=? pb_size b) then Some (pb_bytes b) else None
  | None => None
  end.

Definition b_view (tb sh : option pack_buf) (c : kernel_call) : option (Z -> Z -> Z) :=
  let view o bytes := Some (fun kr j => load_i8 bytes (o + b_addr c kr j)) in
  match kc_b c with
  | InB o => view o Bmem
  | InPackB o => bytes ← in_buf sh o (b_extent c); view o bytes
  | InOwnB o => bytes ← in_buf tb o (b_extent c); view o bytes
  | _ => None
  end.

Definition sum_view (tb sh : option pack_buf) (c : kernel_call) : option (Z -> Z) :=
  let view o bytes := Some (fun j => load_i32 bytes (o + 4 * sum_at c j)) in
  let len := 4 * sum_at c (kc_n0 c) in
  match b_col_sum_vec c with
  | InB o => view o Bmem
  | InPackB o => bytes ← in_buf sh o len; view o bytes
  | InOwnB o => bytes ← in_buf tb o len; view o bytes
  | Null => if signed then None else Some (fun _ => 0)
  | _ => None
  end.

(** ** One action *)

(** The address of the column sums in the buffer that is being packed. *)
Definition sum_address (sum : ptr) : option Z :=
  match sum with InPackB o | InOwnB o => Some o | _ => None end.

(** The regions a packing call stores to must be inside the buffer. *)
Definition pack_into (b : pack_buf) (o src n0 k0 : Z) (sum : option Z) : option pack_buf :=
  let cols := dlp_reorder_round_up n0 16 in
  if (0 <=? o) && (o + cols * dlp_reorder_round_up k0 4 <=? pb_size b) &&
     match sum with Some s => (0 <=? s) && (s + 4 * cols <=? pb_size b) | None => true end
  then Some (mk_pack_buf (pb_size b) (packb K src n0 k0 o sum (pb_bytes b))) else None.

Definition zero_sums (b : pack_buf) (o from to : Z) : option pack_buf :=
  if (0 <=? o + 4 * from) && (o + 4 * to <=? pb_size b)
  then Some (mk_pack_buf (pb_size b) (fill (pb_bytes b) (o + 4 * from) (o + 4 * to) (fun _ => 0)))
  else None.

(** The column copied by the GEMV path, with 128 times its sum as [int32_t]. *)
Definition gather (b : pack_buf) (rs len : Z) (sum : option Z) : option pack_buf :=
  if (0 <=? len) && (len <=? pb_size b) &&
     match sum with Some s => (0 <=? s) && (s + 4 <=? pb_size b) | None => true end
  then
    let bytes := fill (pb_bytes b) 0 len (fun x => Bmem (x * rs)) in
    let bytes := match sum with
                 | Some s => store_i32 bytes s
                     (to_i32 (to_i32 (zsum (fun p => load_i8 Bmem (p * rs)) 0 len) * 128))
                 | None => bytes
                 end in
    Some (mk_pack_buf (pb_size b) bytes)
  else None.

(** A fresh allocation holds any bytes. *)
Context (fresh : Z -> Z).

Definition alloc (ob : option pack_buf) (size : Z) : option pack_buf :=
  match ob with None => Some (mk_pack_buf size fresh) | Some _ => ob end.

(** [do_event g (ta, tb) (sh, C) e]: the action of a thread of the group [g]; [None] is
    undefined behaviour. *)
Definition do_event (g : Z) (ta : option (Z * Z * Z)) (tb sh : option pack_buf) (C : Z -> Z) (e : event)
    : option (option (Z * Z * Z) * option pack_buf * option pack_buf * (Z -> Z)) :=
  match e with
  | EvSend comm size => if comm =? g then Some (ta, tb, alloc sh size, C) else None
  | EvBarrier _ => None
  | EvFree comm => if comm =? g then Some (ta, tb, None, C) else None
  | EvAllocB size => Some (ta, alloc tb size, sh, C)
  | EvZeroColSum (InPackB o) from to => b ← sh; b ← zero_sums b o from to; Some (ta, tb, Some b, C)
  | EvZeroColSum (InOwnB o) from to => b ← tb; b ← zero_sums b o from to; Some (ta, Some b, sh, C)
  | EvZeroColSum _ _ _ => None
  | EvGatherB rs len sum => b ← tb; b ← gather b rs len (sum_address sum); Some (ta, Some b, sh, C)
  | EvPackB (InPackB o) src n0 k0 sum =>
      b ← sh; b ← pack_into b o src n0 k0 (sum_address sum); Some (ta, tb, Some b, C)
  | EvPackB (InOwnB o) src n0 k0 sum =>
      b ← tb; b ← pack_into b o src n0 k0 (sum_address sum); Some (ta, Some b, sh, C)
  | EvPackB _ _ _ _ _ => None
  | EvPackA src m0 k0 => Some (Some (src, m0, k0), tb, sh, C)
  | EvKernel pc c =>
      a ← a_view ta c; b ← b_view tb sh c; s ← sum_view tb sh c;
      Some (ta, tb, sh, exec K c a b s C)
  end.

(** ** Steps of the team *)

Definition release (g : Z) (th : thread) : thread :=
  if th_group th =? g then mk_thread (th_group th) (th_a th) (th_b th) (tail (th_segs th)) else th.

Definition set_shared (sh : Z -> option pack_buf) (g : Z) (b : option pack_buf) (x : Z) : option pack_buf :=
  if x =? g then b else sh x.

(** At a barrier, with more to do behind it. *)
Definition waiting (th : thread) : Prop := exists s ss, th_segs th = [] :: s :: ss.

Definition finished (th : thread) : Prop := th_segs th = [[]].

Inductive team_step (st : team_state) : team_state -> Prop :=
  | step_event t th e l ss ta tb sh C :
      st_threads st !! t = Some th -> th_segs th = (e :: l) :: ss ->
      do_event (th_group th) (th_a th) (th_b th) (st_shared st (th_group th)) (st_C st) e
        = Some (ta, tb, sh, C) ->
      team_step st (mk_team_state (<[t := mk_thread (th_group th) ta tb (l :: ss)]> (st_threads st))
                      (set_shared (st_shared st) (th_group th) sh) C)
  | step_barrier g :
      (exists th, th ∈ st_threads st /\ th_group th = g) ->
      (forall th, th ∈ st_threads st -> th_group th = g -> waiting th) ->
      team_step st (mk_team_state (release g <$> st_threads st) (st_shared st) (st_C st)).

Definition all_finished (st : team_state) : Prop := forall th, th ∈ st_threads st -> finished th.
End machine.
