(* ===== verification/TeamCorrect.v ===== *)
(** * What a team leaves in the output

    If every kernel call of the threads updates a tile of C by one k block, every element
    belongs to one thread whose calls on it go through the k blocks in order, and every
    call finds its operands ([views_ok]), then a run of the team leaves
    [beta * C + alpha * A * B], finished once by the post-ops.  Runs are finite, and they end with all threads done when
    no reachable state is stuck. *)
From S2P Require Import Prelude Word DlpTypes ReorderLayout GemmDriver TeamMachine.
From stdpp Require Import relations.
#[local] Open Scope Z_scope.

(** ** Sums *)

Lemma foldr_sum_app (f : Z -> Z) l l' :
  foldr (fun x acc => f x + acc) 0 (l ++ l') =
  foldr (fun x acc => f x + acc) 0 l + foldr (fun x acc => f x + acc) 0 l'.
Proof. induction l as [|x l IH]; cbn; lia. Qed.

Lemma zsum_split f lo n1 n2 :
  0 <= n1 -> 0 <= n2 -> zsum f lo (n1 + n2) = zsum f lo n1 + zsum f (lo + n1) n2.
Proof. intros. unfold zsum. by rewrite seqZ_app, foldr_sum_app. Qed.

Lemma zsum_shift f g lo d len :
  (forall x, 0 <= x < len -> f (lo + x) = g (d + x)) -> zsum f lo len = zsum g d len.
Proof.
  intros H. unfold zsum.
  assert (forall a, seqZ a len = Z.add a <$> seqZ 0 len) as E
    by (intros a; by rewrite fmap_add_seqZ, Z.add_0_r).
  rewrite (E lo), (E d).
  assert (forall x, x ∈ seqZ 0 len -> f (lo + x) = g (d + x)) as H'
    by (intros x Hx%elem_of_seqZ; apply H; lia).
  revert H'. generalize (seqZ 0 len). intros l H'. induction l as [|x l IH]; [done|]. cbn.
  rewrite H' by left. rewrite IH; [done|]. intros y Hy. apply H'. by right.
Qed.

Lemma zsum_ext f g lo len : (forall x, lo <= x < lo + len -> f x = g x) -> zsum f lo len = zsum g lo len.
Proof. intros H. apply zsum_shift. intros x Hx. apply H. lia. Qed.

Lemma zsum_nil f lo len : len <= 0 -> zsum f lo len = 0.
Proof. intros. unfold zsum. by rewrite seqZ_nil. Qed.

Lemma zsum_bias f g b lo len :
  zsum (fun p => (f p + b) * g p) lo len = zsum (fun p => f p * g p) lo len + b * zsum g lo len.
Proof. unfold zsum. induction (seqZ lo len) as [|x l IH]; cbn; lia. Qed.

(** Wrapping inside a sum. *)
Lemma to_i32_congr a b : a mod 2 ^ 32 = b mod 2 ^ 32 -> to_i32 a = to_i32 b.
Proof. intros E. unfold to_i32, to_u32. by rewrite E. Qed.

Lemma to_i32_mod a : to_i32 a mod 2 ^ 32 = a mod 2 ^ 32.
Proof.
  unfold to_i32, to_u32. zcase; [by rewrite Z.mod_mod|].
  rewrite <- (Z.mod_add _ 1), Z.mul_1_l, Z.sub_add by done. by rewrite Z.mod_mod.
Qed.

Lemma to_i32_sub_mul a q x y : to_i32 x = to_i32 y -> to_i32 (a - q * x) = to_i32 (a - q * y).
Proof.
  intros E. apply to_i32_congr.
  assert (x mod 2 ^ 32 = y mod 2 ^ 32) as H by (by rewrite <- (to_i32_mod x), E, to_i32_mod).
  by rewrite Zminus_mod, (Z.mul_mod q x), H, <- Z.mul_mod, <- Zminus_mod by done.
Qed.

(** ** Kernel calls of a trace *)

Definition kernel_of (e : event) : option (Z * kernel_call) :=
  match e with EvKernel pc c => Some (pc, c) | _ => None end.

Definition kernel_calls (l : list event) : list (Z * kernel_call) := omap kernel_of l.

(** [covers ij c]: the tile of C the call updates holds the element. *)
Definition covers (ij : Z * Z) (c : kernel_call) : bool :=
  (post_op_c_i c <=? ij.1) && (ij.1 <? post_op_c_i c + kc_m0 c) &&
  (post_op_c_j c <=? ij.2) && (ij.2 <? post_op_c_j c + kc_n0 c).

Definition cell_calls (ij : Z * Z) (l : list event) : list (Z * kernel_call) :=
  filter (fun x => covers ij x.2 = true) (kernel_calls l).

Lemma covers_true ij c :
  covers ij c = true <->
  post_op_c_i c <= ij.1 < post_op_c_i c + kc_m0 c /\ post_op_c_j c <= ij.2 < post_op_c_j c + kc_n0 c.
Proof. unfold covers. rewrite !andb_true_iff, !Z.leb_le, !Z.ltb_lt. lia. Qed.

Lemma kernel_calls_app l l' : kernel_calls (l ++ l') = kernel_calls l ++ kernel_calls l'.
Proof. apply omap_app. Qed.

Lemma cell_calls_app ij l l' : cell_calls ij (l ++ l') = cell_calls ij l ++ cell_calls ij l'.
Proof. unfold cell_calls. by rewrite kernel_calls_app, filter_app. Qed.

Lemma kernel_calls_cons e l :
  kernel_calls (e :: l) = match kernel_of e with Some x => x :: kernel_calls l | None => kernel_calls l end.
Proof. done. Qed.

(** Cutting a trace at its barriers keeps its kernel calls. *)
Lemma split_barriers_calls g l segs :
  split_barriers g l = Some segs -> kernel_calls (concat segs) = kernel_calls l.
Proof.
  revert segs. induction l as [|e l IH]; intros segs; cbn [split_barriers]; [by intros [= <-]|].
  destruct e; try (destruct (split_barriers g l) as [[|s ss]|]; cbn; [done| |done]; intros [= <-];
    cbn [concat app]; rewrite !kernel_calls_cons; cbn [kernel_of];
    first [by apply (IH (s :: ss)) | f_equal; by apply (IH (s :: ss))]).
  destruct (comm =? g); [|done]. destruct (split_barriers g l) as [r|]; [|done]. intros [= <-].
  cbn. by apply IH.
Qed.

Lemma split_barriers_cons g l segs : split_barriers g l = Some segs -> exists s ss, segs = s :: ss.
Proof.
  destruct l as [|e l]; cbn; [intros [= <-]; eauto|].
  destruct e; try (destruct (split_barriers g l) as [[|s ss]|]; cbn; [done| |done]; intros [= <-]; eauto).
  destruct (comm =? g); [|done]. destruct (split_barriers g l) as [r|]; [|done]. intros [= <-]. eauto.
Qed.

(** A part without barriers. *)
Definition no_barrier (e : event) : Prop := match e with EvBarrier _ => False | _ => True end.

Lemma split_no_barrier g l l' s ss :
  Forall no_barrier l -> split_barriers g l' = Some (s :: ss) ->
  split_barriers g (l ++ l') = Some ((l ++ s) :: ss).
Proof.
  intros Hl E. induction Hl as [|e l He Hl IH]; [done|]. cbn [app split_barriers]. rewrite IH. by destruct e.
Qed.

(** The end of a phase, and the end of the trace. *)
Definition at_end (th : thread) : bool := match th_segs th with [] :: _ => true | _ => false end.
Definition at_finish (th : thread) : bool := match th_segs th with [[]] => true | _ => false end.

(** What a thread has left to do. *)
Definition remaining (th : thread) : list event := concat (th_segs th).

Section correct.
Context (signed : bool) (lcntx : dlp_gemm_cntx_t) (kind : kernel_kind).
Context (A : Z -> Z) (rs_a cs_a : Z) (Bmem : Z -> Z) (rs_b cs_b : Z) (alpha : Z).
Context (K : kernels) (fresh : Z -> Z).
Hypothesis HK : kernel_laws signed lcntx A rs_a cs_a Bmem rs_b cs_b alpha K.

Local Abbreviation do_event := (do_event signed lcntx kind A Bmem K fresh).
Local Abbreviation team_step := (team_step signed lcntx kind A Bmem K fresh).

(** ** Runs are finite *)

Definition thread_work (th : thread) : nat := length (remaining th) + length (th_segs th).

Definition team_work (ts : list thread) : nat := sum_list_with thread_work ts.

Lemma sum_list_insert {X} (f : X -> nat) l i x y :
  l !! i = Some y -> (f x < f y)%nat -> (sum_list_with f (<[i := x]> l) < sum_list_with f l)%nat.
Proof.
  revert i. induction l as [|z l IH]; intros [|i]; simpl; try done.
  - intros [= ->]. lia.
  - intros Hi Hlt. specialize (IH i Hi Hlt). lia.
Qed.

Lemma release_work g th :
  (th_group th = g -> waiting th) -> (thread_work (release g th) <= thread_work th)%nat /\
  (th_group th = g -> thread_work (release g th) < thread_work th)%nat.
Proof.
  intros Hw. unfold release, thread_work, remaining. destruct (Z.eqb_spec (th_group th) g) as [E|E]; [|lia].
  destruct (Hw E) as (s & ss & ->). cbn. lia.
Qed.

Lemma team_step_work st st' :
  team_step st st' -> (team_work (st_threads st') < team_work (st_threads st))%nat.
Proof.
  intros [t th e l ss ta tb sh C Ht Hs _|g [th [Hth Hg]] Hw]; cbn.
  - eapply sum_list_insert; [exact Ht|]. unfold thread_work, remaining. rewrite Hs. cbn. lia.
  - unfold team_work. revert Hth Hw. induction (st_threads st) as [|th' l IH]; [by intros ?%elem_of_nil|].
    intros Hth Hw. cbn. destruct (release_work g th') as [Hle Hlt]; [apply Hw; left|].
    assert (sum_list_with thread_work (release g <$> l) <= sum_list_with thread_work l)%nat as Hl.
    { assert (forall th, th ∈ l -> th_group th = g -> waiting th) as Hw' by (intros; apply Hw; [by right|done]).
      clear -Hw'. induction l as [|x l IHl]; [done|]. cbn.
      destruct (release_work g x) as [? _]; [apply Hw'; left|].
      enough (sum_list_with thread_work (release g <$> l) <= sum_list_with thread_work l)%nat by lia.
      apply IHl. intros; apply Hw'; [by right|done]. }
    apply elem_of_cons in Hth as [->|Hth]; [specialize (Hlt Hg); lia|].
    enough (sum_list_with thread_work (release g <$> l) < sum_list_with thread_work l)%nat by lia.
    apply IH; [done|]. intros; apply Hw; [by right|done].
Qed.

Lemma run_bounded st j st' : nsteps team_step j st st' -> (j <= team_work (st_threads st))%nat.
Proof.
  induction 1 as [|j st1 st2 st3 H12 _ IH]; [lia|]. apply team_step_work in H12. lia.
Qed.

(** ** Calls and their operands *)

Context (m n k rs_c beta : Z) (ops : list PostOpTypes.dlp_gemm_post_op) (A0 B0 : Z -> Z -> Z).

(** The call updates a tile of C by the k block of [kc_k0] rows at [pc]. *)
Record call_ok (pc : Z) (c : kernel_call) : Prop := mk_call_ok {
  co_rows : 0 <= post_op_c_i c /\ 0 < kc_m0 c /\ post_op_c_i c + kc_m0 c <= m;
  co_cols : 0 <= post_op_c_j c /\ 0 < kc_n0 c /\ post_op_c_j c + kc_n0 c <= n;
  co_k : 0 <= pc /\ 0 < kc_k0 c /\ pc + kc_k0 c <= k;
  co_beta : kc_beta c = if pc =? 0 then beta else 1;
  co_last : is_last_k c = (pc + kc_k0 c =? k);
  co_c : kc_c c = InC (rs_c * post_op_c_i c + post_op_c_j c);
  co_rs_c : kc_rs_c c = rs_c;
  co_ops : kc_post_op_list c = ops;
  co_stor : c_stor_type c = DLP_S32;
}.

(** Its operands read as the rows, columns and column sums of the tile. *)
Record views_ok (pc : Z) (c : kernel_call) (a b : Z -> Z -> Z) (s : Z -> Z) : Prop := mk_views_ok {
  vo_a : forall i kr, 0 <= i < kc_m0 c -> 0 <= kr < kc_k0 c -> a i kr = A0 (post_op_c_i c + i) (pc + kr);
  vo_b : forall kr j, 0 <= kr < kc_k0 c -> 0 <= j < kc_n0 c -> b kr j = B0 (pc + kr) (post_op_c_j c + j);
  vo_s : forall j, signed = true -> pc + kc_k0 c = k -> 0 <= j < kc_n0 c ->
    to_i32 (s j) = to_i32 (128 * zsum (fun p => B0 p (post_op_c_j c + j)) 0 k);
}.

(** The calls on an element from the k block at [lo] on. *)
Fixpoint chain (lo : Z) (l : list (Z * kernel_call)) : Prop :=
  match l with
  | [] => lo = k
  | (pc, c) :: l => pc = lo /\ chain (lo + kc_k0 c) l
  end.

(** What the element is after the k blocks below [lo]. *)
Definition cell_value (c0 : Z) (i j lo : Z) : Z :=
  if lo =? 0 then c0
  else (if lo =? k then finish (epilogue K) ops i j else id)
         (to_i32 (beta * c0 +
           alpha * (zsum (fun p => (A0 i p + a_bias signed) * B0 p j) 0 lo
                    - (if signed && (lo =? k) then 128 * zsum (fun p => B0 p j) 0 k else 0)))).

Hypothesis Hrs : n <= rs_c.
Hypothesis Hops : elementwise ops = true.

Lemma kernel_covered i j pc c a b s C c0 :
  call_ok pc c -> views_ok pc c a b s -> covers (i, j) c = true ->
  C (rs_c * i + j) = cell_value c0 i j pc ->
  exec K c a b s C (rs_c * i + j) = cell_value c0 i j (pc + kc_k0 c).
Proof using HK Hrs Hops.
  intros Hc Hv [Hi Hj]%covers_true HC. destruct Hc as [Hr Hco Hk Hb Hla Ec Ers Eops Est]. cbn in Hi, Hj.
  pose proof (kl_tile _ _ _ (kl_exec _ _ _ _ _ _ _ _ _ _ HK) c a b s C _ (i - post_op_c_i c) (j - post_op_c_j c) Ec
    ltac:(lia) Est ltac:(by rewrite Eops) ltac:(lia) ltac:(lia)) as E. rewrite Ers, Eops in E.
  replace (rs_c * post_op_c_i c + post_op_c_j c + (i - post_op_c_i c) * rs_c + (j - post_op_c_j c))
    with (rs_c * i + j) in E by lia.
  rewrite E, HC, Hb, Hla. unfold cell_value.
  replace (post_op_c_i c + (i - post_op_c_i c)) with i by lia.
  replace (post_op_c_j c + (j - post_op_c_j c)) with j by lia.
  assert (zsum (fun kr => (a (i - post_op_c_i c) kr + a_bias signed) * b kr (j - post_op_c_j c)) 0 (kc_k0 c) =
          zsum (fun p => (A0 i p + a_bias signed) * B0 p j) pc (kc_k0 c)) as ->.
  { apply zsum_shift. intros x Hx. rewrite !Z.add_0_l, (vo_a _ _ _ _ _ Hv), (vo_b _ _ _ _ _ Hv) by lia.
    f_equal; f_equal; lia || (f_equal; lia). }
  replace (pc + kc_k0 c =? 0) with false by (symmetry; apply Z.eqb_neq; lia).
  assert (forall X Y, to_i32 (X + alpha * (Y - (if signed && (pc + kc_k0 c =? k) then s (j - post_op_c_j c) else 0))) =
          to_i32 (X + alpha * (Y - (if signed && (pc + kc_k0 c =? k)
                                    then 128 * zsum (fun p => B0 p j) 0 k else 0)))) as Es.
  { intros X Y. destruct signed eqn:Esg; [|done]. destruct (Z.eqb_spec (pc + kc_k0 c) k) as [El|El]; [|done].
    pose proof (vo_s _ _ _ _ _ Hv (j - post_op_c_j c) Esg El ltac:(lia)) as Hs.
    replace (post_op_c_j c + (j - post_op_c_j c)) with j in Hs by lia. cbn [andb].
    rewrite !Z.mul_sub_distr_l, !Z.add_sub_assoc. by apply to_i32_sub_mul. }
  rewrite Es. destruct (Z.eqb_spec pc 0) as [->|Hpc].
  { rewrite Z.add_0_l. done. }
  replace (pc =? k) with false by (symmetry; apply Z.eqb_neq; lia). cbn [id].
  rewrite Z.mul_1_l, to_i32_add_l, andb_false_r, (zsum_split _ 0 pc) by lia. rewrite Z.add_0_l. do 2 f_equal. lia.
Qed.

Lemma kernel_elsewhere i j pc c a b s C :
  0 <= i -> 0 <= j < n -> call_ok pc c -> covers (i, j) c = false ->
  exec K c a b s C (rs_c * i + j) = C (rs_c * i + j).
Proof using HK Hrs Hops.
  intros Hi Hj [Hr Hco Hk Hb Hla Ec Ers _ Est] Hcov. apply (kl_frame _ _ _ (kl_exec _ _ _ _ _ _ _ _ _ _ HK) c a b s C _ _ Ec);
    [lia|done|]. intros i' j' Hi' Hj' E. rewrite Ers in E.
  destruct (decompose_unique rs_c i j (post_op_c_i c + i') (post_op_c_j c + j')) as [-> ->]; [lia..|].
  assert (covers (post_op_c_i c + i', post_op_c_j c + j') c = true) as H
    by (apply covers_true; cbn; lia). congruence.
Qed.

(** ** The cells *)

Context (C0 : Z -> Z).

(** Every element has one thread with calls on it left, which go on where the value of
    the element is. *)
Record cells_ok (ts : list thread) (C : Z -> Z) : Prop := mk_cells_ok {
  cs_calls : forall th pc c, th ∈ ts -> (pc, c) ∈ kernel_calls (remaining th) -> call_ok pc c;
  cs_owner : forall i j, 0 <= i < m -> 0 <= j < n -> exists t th lo,
    ts !! t = Some th /\ chain lo (cell_calls (i, j) (remaining th)) /\
    C (rs_c * i + j) = cell_value (C0 (rs_c * i + j)) i j lo /\
    forall t' th', ts !! t' = Some th' -> t' <> t -> cell_calls (i, j) (remaining th') = [];
}.

Lemma release_remaining g th : (th_group th = g -> waiting th) -> remaining (release g th) = remaining th.
Proof using.
  intros Hw. unfold release, remaining. destruct (Z.eqb_spec (th_group th) g) as [E|E]; [|done].
  by destruct (Hw E) as (s & ss & ->).
Qed.

Lemma cells_release g ts C :
  (forall th, th ∈ ts -> th_group th = g -> waiting th) -> cells_ok ts C -> cells_ok (release g <$> ts) C.
Proof using.
  intros Hw [Hc Ho]. split.
  - intros th pc c (th' & -> & Hth)%list_elem_of_fmap. rewrite release_remaining by auto. eauto.
  - intros i j Hi Hj. destruct (Ho i j Hi Hj) as (t & th & lo & Ht & Hch & HC & Hother).
    exists t, (release g th), lo. pose proof (list_elem_of_lookup_2 _ _ _ Ht).
    rewrite list_lookup_fmap, Ht, release_remaining by auto. split_and!; try done.
    intros t' th' Ht' Hne. rewrite list_lookup_fmap in Ht'. apply fmap_Some in Ht' as (th2 & Ht2 & ->).
    pose proof (list_elem_of_lookup_2 _ _ _ Ht2). rewrite release_remaining by auto. eauto.
Qed.

(** An action keeps the cells: an event that is no kernel call leaves them, and a kernel
    call moves the elements of its tile on. *)
Lemma cells_event ts C t th e l ss ta tb sh sh' C' :
  cells_ok ts C -> ts !! t = Some th -> th_segs th = (e :: l) :: ss ->
  do_event (th_group th) (th_a th) (th_b th) sh C e = Some (ta, tb, sh', C') ->
  (forall pc c a b s, e = EvKernel pc c -> a_view lcntx kind A K (th_a th) c = Some a ->
     b_view lcntx kind Bmem (th_b th) sh c = Some b -> sum_view signed Bmem (th_b th) sh c = Some s ->
     views_ok pc c a b s) ->
  cells_ok (<[t := mk_thread (th_group th) ta tb (l :: ss)]> ts) C'.
Proof using HK Hrs Hops.
  intros [Hc Ho] Ht Hs Hdo Hv.
  set (th1 := mk_thread (th_group th) ta tb (l :: ss)).
  assert (remaining th = e :: remaining th1) as Hrem by (unfold remaining; by rewrite Hs).
  split.
  { intros th2 pc c Hth2 Hin. apply list_elem_of_lookup in Hth2 as [t2 Ht2].
    destruct (decide (t2 = t)) as [->|Hne].
    - rewrite list_lookup_insert_eq in Ht2 by by eapply lookup_lt_Some. injection Ht2 as <-.
      apply (Hc th); [by eapply list_elem_of_lookup_2|]. rewrite Hrem, kernel_calls_cons.
      destruct (kernel_of e); [by right|done].
    - rewrite list_lookup_insert_ne in Ht2 by done. apply (Hc th2); [by eapply list_elem_of_lookup_2|done]. }
  intros i j Hi Hj. destruct (Ho i j Hi Hj) as (t0 & th0 & lo & Ht0 & Hch & HC & Hother).
  assert (forall t2 th2, <[t := th1]> ts !! t2 = Some th2 ->
    exists th2', ts !! t2 = Some th2' /\ (t2 = t /\ th2 = th1 /\ th2' = th \/ t2 <> t /\ th2 = th2')) as Hlk.
  { intros t2 th2 Ht2. destruct (decide (t2 = t)) as [->|Hne].
    - rewrite list_lookup_insert_eq in Ht2 by by eapply lookup_lt_Some. injection Ht2 as <-. eauto 10.
    - rewrite list_lookup_insert_ne in Ht2 by done. eauto 10. }
  destruct (kernel_of e) as [[pc c]|] eqn:Ee.
  2: { assert (C' = C) as ->.
    { destruct e as [| | | |b0| |b0| |]; try done; cbn in Hdo; try (by destruct (_ =? _); simplify_eq);
        try (destruct b0; try done);
        repeat (apply bind_Some in Hdo as (? & _ & Hdo)); by simplify_eq. }
    assert (cell_calls (i, j) (remaining th) = cell_calls (i, j) (remaining th1)) as Ecell
      by (rewrite Hrem; unfold cell_calls; by rewrite kernel_calls_cons, Ee).
    destruct (decide (t0 = t)) as [->|Hne].
    - assert (th0 = th) as -> by congruence. exists t, th1, lo. rewrite <- Ecell.
      rewrite list_lookup_insert_eq by by eapply lookup_lt_Some. split_and!; try done.
      intros t' th' Ht' Hne. rewrite list_lookup_insert_ne in Ht' by done. eauto.
    - exists t0, th0, lo. rewrite list_lookup_insert_ne by done. split_and!; try done.
      intros t' th' Ht' Hne'. destruct (Hlk t' th' Ht') as (th2 & Ht2 & [(-> & -> & ->)|(? & ->)]); [|eauto].
      rewrite <- Ecell. eauto. }
  destruct e; try done. injection Ee as -> ->. cbn in Hdo.
  destruct (a_view lcntx kind A K (th_a th) c) as [a|] eqn:Ea; [|done]. cbn in Hdo.
  destruct (b_view lcntx kind Bmem (th_b th) sh c) as [b|] eqn:Eb; [|done]. cbn in Hdo.
  destruct (sum_view signed Bmem (th_b th) sh c) as [s|] eqn:Es; [|done]. cbn in Hdo. simplify_eq.
  assert (call_ok pc c) as Hok.
  { apply (Hc th); [by eapply list_elem_of_lookup_2|]. rewrite Hrem. left. }
  specialize (Hv pc c a b s eq_refl Ea Eb Es).
  assert (cell_calls (i, j) (remaining th) =
    (if covers (i, j) c then [(pc, c)] else []) ++ cell_calls (i, j) (remaining th1)) as Ecell.
  { rewrite Hrem. unfold cell_calls. rewrite kernel_calls_cons. cbn [kernel_of]. rewrite filter_cons. cbn.
    by destruct (covers (i, j) c). }
  destruct (covers (i, j) c) eqn:Ecov; cbn [app] in Ecell.
  - assert (t0 = t) as ->.
    { destruct (decide (t0 = t)) as [|Hne]; [done|]. specialize (Hother t th Ht ltac:(done)). congruence. }
    assert (th0 = th) as -> by congruence. rewrite Ecell in Hch. destruct Hch as [<- Hch].
    exists t, th1, (pc + kc_k0 c). rewrite list_lookup_insert_eq by by eapply lookup_lt_Some.
    split_and!; try done; [by apply kernel_covered|].
    intros t' th' Ht' Hne. rewrite list_lookup_insert_ne in Ht' by done. eauto.
  - rewrite (kernel_elsewhere i j pc) by (done || lia). destruct (decide (t0 = t)) as [->|Hne].
    + assert (th0 = th) as -> by congruence. exists t, th1, lo. rewrite <- Ecell.
      rewrite list_lookup_insert_eq by by eapply lookup_lt_Some. split_and!; try done.
      intros t' th' Ht' Hne. rewrite list_lookup_insert_ne in Ht' by done. eauto.
    + exists t0, th0, lo. rewrite list_lookup_insert_ne by done. split_and!; try done.
      intros t' th' Ht' Hne'. destruct (Hlk t' th' Ht') as (th2 & Ht2 & [(-> & -> & ->)|(? & ->)]); [|eauto].
      rewrite <- Ecell. eauto.
Qed.

(** ** Every run ends with the product *)

Lemma chain_value i j C th lo :
  0 < k -> chain lo (cell_calls (i, j) (remaining th)) -> remaining th = [] ->
  C (rs_c * i + j) = cell_value (C0 (rs_c * i + j)) i j lo ->
  C (rs_c * i + j) = finish (epilogue K) ops i j
    (to_i32 (beta * C0 (rs_c * i + j) + alpha * zsum (fun p => A0 i p * B0 p j) 0 k)).
Proof using.
  clear HK. intros Hk Hch Hr ->. rewrite Hr in Hch. cbn in Hch. subst lo. unfold cell_value.
  rewrite (proj2 (Z.eqb_neq k 0)), Z.eqb_refl, andb_true_r by lia. rewrite zsum_bias. unfold a_bias.
  do 2 f_equal. destruct signed; lia.
Qed.

(** [I] is an invariant of the team under which no action is undefined, every kernel
    call finds its operands, and threads that have all reached the end of a phase are
    done or can pass a barrier. *)
Record team_invariant (I : team_state -> Prop) : Prop := mk_team_invariant {
  ti_step : forall st st', I st -> team_step st st' -> I st';
  ti_defined : forall st t th e l ss, I st -> st_threads st !! t = Some th -> th_segs th = (e :: l) :: ss ->
    is_Some (do_event (th_group th) (th_a th) (th_b th) (st_shared st (th_group th)) (st_C st) e);
  ti_views : forall st t th pc c l ss a b s, I st -> st_threads st !! t = Some th ->
    th_segs th = (EvKernel pc c :: l) :: ss ->
    a_view lcntx kind A K (th_a th) c = Some a ->
    b_view lcntx kind Bmem (th_b th) (st_shared st (th_group th)) c = Some b ->
    sum_view signed Bmem (th_b th) (st_shared st (th_group th)) c = Some s ->
    views_ok pc c a b s;
  ti_barrier : forall st, I st -> (forall th, th ∈ st_threads st -> exists ss, th_segs th = [] :: ss) ->
    ~ all_finished st -> exists g, (exists th, th ∈ st_threads st /\ th_group th = g) /\
      (forall th, th ∈ st_threads st -> th_group th = g -> waiting th);
  ti_segs : forall st th, I st -> th ∈ st_threads st -> th_segs th <> [];
}.

(** Every run of the team can be continued until all threads are done, is bounded in
    length, and ends in a state that satisfies [P]. *)
Record team_ends (st0 : team_state) (P : team_state -> Prop) : Prop := mk_team_ends {
  te_progress : forall st, rtc team_step st0 st -> all_finished st \/ exists st', team_step st st';
  te_bounded : exists N, forall j st, nsteps team_step j st0 st -> (j <= N)%nat;
  te_result : forall st, rtc team_step st0 st -> all_finished st -> P st;
}.

Lemma team_invariant_ends I st0 :
  team_invariant I -> I st0 -> 0 < k -> cells_ok (st_threads st0) (st_C st0) ->
  team_ends st0 (fun st => forall i j, 0 <= i < m -> 0 <= j < n ->
    st_C st (rs_c * i + j) = finish (epilogue K) ops i j
      (to_i32 (beta * C0 (rs_c * i + j) + alpha * zsum (fun p => A0 i p * B0 p j) 0 k))).
Proof using HK Hrs Hops.
  intros HI HI0 Hk Hcells.
  assert (forall st, rtc team_step st0 st -> I st /\ cells_ok (st_threads st) (st_C st)) as Hreach.
  { intros st Hr. induction Hr as [|st1 st2 st3 H12 _ IH]; [done|]. apply IH.
    - by apply (ti_step _ HI st1).
    - destruct H12 as [t th e l ss ta tb sh C Ht Hs Hdo|g Hg Hw]; [|by apply cells_release].
      eapply cells_event; [exact Hcells|exact Ht|exact Hs|exact Hdo|].
      intros pc c a b s -> Ea Eb Es. by eapply (ti_views _ HI st1). }
  split.
  - intros st Hr. destruct (Hreach st Hr) as [HIs _].
    destruct (decide (Exists (fun th => at_end th = false) (st_threads st)))
      as [Hex|Hno].
    { apply Exists_exists in Hex as (th & Hth & Hc). unfold at_end in Hc.
      pose proof (ti_segs _ HI st th HIs Hth) as Hne.
      destruct (th_segs th) as [|[|e l] ss] eqn:Es; [done..|].
      apply list_elem_of_lookup in Hth as [t Ht].
      destruct (ti_defined _ HI st t th e l ss HIs Ht Es) as [[[[ta tb] sh] C] Hdo]. right. eexists.
      by eapply step_event. }
    assert (forall th, th ∈ st_threads st -> exists ss, th_segs th = [] :: ss) as Hend.
    { intros th Hth. pose proof (ti_segs _ HI st th HIs Hth) as Hne.
      destruct (th_segs th) as [|[|e l] ss] eqn:Es; [done|eauto|]. destruct Hno. apply Exists_exists.
      exists th. unfold at_end. by rewrite Es. }
    destruct (decide (Forall (fun th => at_finish th = true) (st_threads st))) as [Hfin|Hfin].
    { left. intros th Hth. rewrite Forall_forall in Hfin. specialize (Hfin th Hth). unfold at_finish in Hfin.
      destruct (Hend th Hth) as [[|s ss] Es]; unfold finished; by rewrite Es in *. }
    right. destruct (ti_barrier _ HI st HIs Hend) as (g & Hg & Hw).
    { intros Hall. apply Hfin, Forall_forall. intros th Hth. unfold at_finish. by rewrite (Hall th Hth). }
    eexists. by apply (step_barrier _ _ _ _ _ _ _ st g).
  - exists (team_work (st_threads st0)). intros j st. apply run_bounded.
  - intros st Hr Hfin i j Hi Hj. destruct (Hreach st Hr) as [_ [_ Ho]].
    destruct (Ho i j Hi Hj) as (t & th & lo & Ht & Hch & HC & _).
    apply (chain_value i j (st_C st) th lo); try done. unfold remaining.
    by rewrite (Hfin th) by by eapply list_elem_of_lookup_2.
Qed.
End correct.
