(* ===== verification/GemmCalls.v ===== *)
(** * The kernel calls of the five loops

    The loops of [GemmDriver] end, and what they emit has a shape that does not depend
    on the operands: every element of a thread's rows and columns gets the k blocks in
    order.  [trace_ok P S l]: the kernel calls of [l] satisfy [P], each with the block of
    A packed before it, and on the element [ij] they are the blocks [S ij]. *)
From S2P Require Import Prelude DlpTypes ThreadUtils ByteStore ReorderLayout Reorder GemmDriver.
From S2P Require Import TeamMachine TeamCorrect.
#[local] Open Scope Z_scope.

Definition a_block : Type := option (Z * Z * Z).

(** ** Traces without barriers *)

(** [kseq P ta l]: [l] packs A and calls kernels, each call [c] in the k block [pc]
    satisfying [P ta pc c] for the block [ta] packed last. *)
Fixpoint kseq (P : a_block -> Z -> kernel_call -> Prop) (ta : a_block) (l : list event) : Prop :=
  match l with
  | [] => True
  | EvPackA s m0 k0 :: l => kseq P (Some (s, m0, k0)) l
  | EvKernel pc c :: l => P ta pc c /\ kseq P ta l
  | _ => False
  end.

(** A k block of a call: where it starts and its height. *)
Definition call_block (x : Z * kernel_call) : Z * Z := (x.1, kc_k0 x.2).

Record trace_ok (P : a_block -> Z -> kernel_call -> Prop) (S : Z * Z -> list (Z * Z)) (l : list event)
    : Prop := mk_trace_ok {
  to_seq : forall ta, kseq P ta l;
  to_cells : forall ij, call_block <$> cell_calls ij l = S ij;
}.

Lemma kseq_app P ta l l' : kseq P ta l -> (forall ta, kseq P ta l') -> kseq P ta (l ++ l').
Proof.
  intros Hl Hl'. revert ta Hl. induction l as [|e l IH]; intros ta; cbn; [auto|].
  destruct e; try done; [|intros []; split]; auto.
Qed.

Lemma kseq_weaken (P Q : a_block -> Z -> kernel_call -> Prop) ta l :
  (forall ta pc c, P ta pc c -> Q ta pc c) -> kseq P ta l -> kseq Q ta l.
Proof.
  intros H. revert ta. induction l as [|e l IH]; intros ta; cbn; [done|].
  destruct e; try done; [|intros []; split]; auto.
Qed.

(** Every call satisfies what [P] says of the call alone. *)
Lemma kseq_calls P ta l (Q : Z -> kernel_call -> Prop) :
  (forall ta pc c, P ta pc c -> Q pc c) -> kseq P ta l -> forall pc c, (pc, c) ∈ kernel_calls l -> Q pc c.
Proof.
  intros H. revert ta. induction l as [|e l IH]; intros ta Hl pc c Hin; cbn in *; [by apply elem_of_nil in Hin|].
  destruct e; try done; [by eapply IH|]. destruct Hl as [Hp Hl].
  apply elem_of_cons in Hin as [[= -> ->]|Hin]; [by eapply H|by eapply IH].
Qed.

Lemma kseq_no_barrier P ta l : kseq P ta l -> Forall no_barrier l.
Proof.
  revert ta. induction l as [|e l IH]; intros ta Hl; [done|]. cbn in Hl.
  destruct e; try done; constructor; try done; [by eapply IH|]. destruct Hl as [_ Hl]. by eapply IH.
Qed.

Lemma trace_ok_nil P : trace_ok P (fun _ => []) [].
Proof. done. Qed.

Lemma trace_ok_app P S T l l' :
  trace_ok P S l -> trace_ok P T l' -> trace_ok P (fun ij => S ij ++ T ij) (l ++ l').
Proof.
  intros [Hs HS] [Ht HT]. split; [intros ta; by apply kseq_app|].
  intros ij. by rewrite cell_calls_app, fmap_app, HS, HT.
Qed.

Lemma trace_ok_ext P S T l : (forall ij, S ij = T ij) -> trace_ok P S l -> trace_ok P T l.
Proof. intros E [Hs HS]. split; [done|]. intros ij. by rewrite HS. Qed.

Lemma cell_calls_cons_other ij e l : kernel_of e = None -> cell_calls ij (e :: l) = cell_calls ij l.
Proof. intros E. unfold cell_calls. by rewrite kernel_calls_cons, E. Qed.

Lemma cell_calls_cons_kernel ij pc c l :
  cell_calls ij (EvKernel pc c :: l) = (if covers ij c then [(pc, c)] else []) ++ cell_calls ij l.
Proof.
  unfold cell_calls. rewrite kernel_calls_cons. cbn [kernel_of]. rewrite filter_cons. cbn.
  by destruct (covers ij c).
Qed.

(** The k blocks of a matrix with [k] rows, in order. *)
Definition k_blocks (k KC : Z) : list (Z * Z) := (fun pc => (pc, Z.min (k - pc) KC)) <$> loop_points 0 k KC.

Lemma chain_of_blocks k l : forall lo,
  chain k lo l <-> foldr (fun b ok lo => b.1 = lo /\ ok (lo + b.2)) (fun lo => lo = k) (call_block <$> l) lo.
Proof. induction l as [|[pc c] l IH]; intros lo; cbn; [done|]. by rewrite IH. Qed.

Lemma k_blocks_chain_from k KC lo :
  0 < KC -> 0 <= lo -> (lo < k \/ lo = k) ->
  foldr (fun b ok lo => b.1 = lo /\ ok (lo + b.2)) (fun lo => lo = k)
    ((fun pc => (pc, Z.min (k - pc) KC)) <$> loop_points lo k KC) lo.
Proof.
  intros HKC. remember (Z.to_nat (k - lo)) as fuel eqn:Hf.
  assert (k - lo <= Z.of_nat fuel) as Hle by lia. clear Hf. revert lo Hle.
  induction fuel as [|fuel IH]; intros lo Hle H0 Hlo; rewrite loop_points_unfold by done.
  { destruct (Z.ltb_spec lo k); [lia|]. cbn. lia. }
  destruct (Z.ltb_spec lo k); [|cbn; lia]. cbn. split; [done|].
  destruct (Z.le_gt_cases (k - lo) KC).
  - rewrite Z.min_l, loop_points_unfold by lia. rewrite (proj2 (Z.ltb_ge (lo + KC) k)) by lia. cbn. lia.
  - rewrite Z.min_r by lia. apply IH; lia.
Qed.

Lemma k_blocks_chain k KC l : 0 < k -> 0 < KC -> call_block <$> l = k_blocks k KC -> chain k 0 l.
Proof. intros Hk HKC E. apply chain_of_blocks. rewrite E. apply k_blocks_chain_from; lia. Qed.

(** ** The loops *)

Section loops.
Context (signed : bool) (lcntx : dlp_gemm_cntx_t) (packb_strides : Z -> Z -> Z * Z).
Context (m n k rs_a cs_a : Z) (mtag_a : AOCL_DLP_MEMORY_TAG).
Context (rs_b cs_b : Z) (mtag_b : AOCL_DLP_MEMORY_TAG) (rs_c cs_c beta : Z) (ops : list PostOpTypes.dlp_gemm_post_op).

Local Abbreviation NC := (NC (blksz lcntx)).
Local Abbreviation KC := (KC (blksz lcntx)).
Local Abbreviation MC := (MC (blksz lcntx)).
Local Abbreviation NR := (NR (blksz lcntx)).
Local Abbreviation MR := (MR (blksz lcntx)).
Local Abbreviation a_operand := (a_operand signed lcntx m rs_a cs_a mtag_a).

Lemma min_NR_16 : packb_min_NR signed = 16.
Proof using. by destruct signed. Qed.

(** The block of A that is packed when the kernels of an [ic] iteration run. *)
Definition packed_block (ta : a_block) (ic pc mc0 kc0 : Z) : a_block :=
  match mtag_a with PACK => Some (rs_a * ic + cs_a * pc, mc0, kc0) | _ => ta end.

(** The call of the tile at [(ic, jc + jr)] in the k block at [pc]. *)
Definition call_at (jc nc0 pc ic mc0 : Z) (bo : b_operand) (jr : Z) : kernel_call :=
  let kc0 := Z.min (k - pc) KC in
  let '(_, a_use, rs_a_use, cs_a_use, ps) := a_operand pc kc0 ic mc0 in
  tile_call signed lcntx k rs_c cs_c DLP_S32 ops jr jr jc nc0 pc kc0 ic mc0 a_use rs_a_use cs_a_use ps bo
    (InC (jc + rs_c * ic)) rs_c (if pc =? 0 then beta else 1).

Section panel.
Context (P : a_block -> Z -> kernel_call -> Prop).
Context (jc nc0 pc : Z) (bo : b_operand).
Hypothesis HNR : 0 < NR.
Hypothesis HMC : 0 < MC.

Lemma jr_loop_ok ta ic mc0 a_use rs_a_use cs_a_use ps fuel jr :
  0 < mc0 -> 0 <= jr -> (NR | jr) -> Z.max 0 (nc0 - jr) < Z.of_nat fuel ->
  (exists pre, a_operand pc (Z.min (k - pc) KC) ic mc0 = (pre, a_use, rs_a_use, cs_a_use, ps)) ->
  (forall jr, 0 <= jr < nc0 -> (NR | jr) -> P ta pc (call_at jc nc0 pc ic mc0 bo jr)) ->
  exists l,
    jr_loop signed lcntx k rs_c cs_c DLP_S32 ops fuel jr jr jc nc0 pc (Z.min (k - pc) KC) ic mc0 a_use rs_a_use cs_a_use ps
      bo (InC (jc + rs_c * ic)) rs_c (if pc =? 0 then beta else 1) = Some l /\
    kseq P ta l /\
    forall ij, call_block <$> cell_calls ij l =
      if decide (ic <= ij.1 < ic + mc0 /\ jc + jr <= ij.2 < jc + nc0)
      then [(pc, Z.min (k - pc) KC)] else [].
Proof using HNR.
  intros Hmc Hjr Hd Hf [pre Ea] HP. revert jr Hjr Hd Hf. induction fuel as [|fuel IH]; intros jr Hjr Hd Hf; [lia|].
  cbn [jr_loop]. destruct (Z.ltb_spec jr nc0) as [Hlt|Hge].
  2: { exists []. split_and!; [done..|]. intros ij. by rewrite decide_False by lia. }
  destruct (IH (jr + NR)) as (r & -> & Hr & Hcells); [lia|by apply Z.divide_add_r, Z.divide_refl|lia|].
  cbn [mbind option_bind]. eexists. split; [done|].
  specialize (HP jr ltac:(lia) Hd). unfold call_at in HP. rewrite Ea in HP.
  match goal with |- context [EvKernel pc ?c] => set (call := c) in * end.
  split; [done|]. intros ij. rewrite cell_calls_cons_kernel, fmap_app, Hcells.
  destruct (covers ij call) eqn:Ec.
  - apply covers_true in Ec as [Ei Ej]. cbn in Ei, Ej.
    rewrite (decide_False (P := ic <= _ < _ /\ _)) by lia. rewrite decide_True by lia. done.
  - assert (~ (ic <= ij.1 < ic + mc0 /\ jc + jr <= ij.2 < jc + jr + Z.min (nc0 - jr) NR)).
    { intros Hin. apply not_true_iff_false in Ec. apply Ec, covers_true. cbn. lia. }
    cbn [fmap list_fmap app]. apply decide_ext. lia.
Qed.

Lemma ic_loop_ok ic_start ic_end :
  (forall ta ic jr, ic_start <= ic < ic_end -> 0 <= jr < nc0 -> (NR | jr) ->
     P (packed_block ta ic pc (Z.min (ic_end - ic) MC) (Z.min (k - pc) KC)) pc
       (call_at jc nc0 pc ic (Z.min (ic_end - ic) MC) bo jr)) ->
  exists l,
    for_upto (loop_fuel ic_start ic_end) ic_start ic_end MC
      (ic_body signed lcntx m k rs_a cs_a mtag_a rs_c cs_c DLP_S32 ops ic_start ic_end jc nc0 pc (Z.min (k - pc) KC)
         (if pc =? 0 then beta else 1) bo (InC jc) rs_c) = Some l /\
    trace_ok P (fun ij => if decide (ic_start <= ij.1 < ic_end /\ jc <= ij.2 < jc + nc0)
                          then [(pc, Z.min (k - pc) KC)] else []) l.
Proof using HNR HMC.
  intros HP.
  destruct (for_upto_seq (trace_ok P) (trace_ok_nil P) (trace_ok_app P) (loop_fuel ic_start ic_end)
    ic_start ic_end MC
    (ic_body signed lcntx m k rs_a cs_a mtag_a rs_c cs_c DLP_S32 ops ic_start ic_end jc nc0 pc (Z.min (k - pc) KC)
         (if pc =? 0 then beta else 1) bo (InC jc) rs_c)
    (fun ic ij => if decide (ic <= ij.1 < Z.min ic_end (ic + MC))
                  then (if decide (jc <= ij.2 < jc + nc0) then [(pc, Z.min (k - pc) KC)] else []) else []))
    as (l & Hloop & HQ); [done|unfold loop_fuel; lia| |].
  - intros ic (t & Ht & -> & Hlt)%loop_points_elem; [|done]. set (ic := ic_start + t * MC) in *.
    assert (0 <= t * MC) by lia. unfold ic_body.
    change (downscaled DLP_S32) with false. cbn [ptr_add].
    set (mc0 := Z.min (ic_end - ic) MC) in *.
    destruct (a_operand pc (Z.min (k - pc) KC) ic mc0) as [[[[pre a_use] rs_a_use] cs_a_use] ps] eqn:Ea.
    assert (forall ta, exists ta', ta' = packed_block ta ic pc mc0 (Z.min (k - pc) KC) /\
      (forall l, kseq P ta' l -> kseq P ta (pre ++ l)) /\ kernel_calls pre = []) as Hpre.
    { intros ta. eexists. split; [done|]. unfold GemmDriver.a_operand in Ea. unfold packed_block.
      destruct mtag_a; try destruct signed; try destruct (dlp_packa_u8s8s32os32_strides _ _);
        try destruct dlp_gemm_get_packa_strides; by simplify_eq/=. }
    assert (exists l, jr_loop signed lcntx k rs_c cs_c DLP_S32 ops (loop_fuel 0 nc0) 0 0 jc nc0 pc (Z.min (k - pc) KC) ic mc0 a_use
      rs_a_use cs_a_use ps bo (InC (jc + rs_c * ic)) rs_c (if pc =? 0 then beta else 1) = Some l /\
      (forall ta, kseq P (packed_block ta ic pc mc0 (Z.min (k - pc) KC)) l) /\
      forall ij, call_block <$> cell_calls ij l =
        if decide (ic <= ij.1 < ic + mc0 /\ jc + 0 <= ij.2 < jc + nc0)
        then [(pc, Z.min (k - pc) KC)] else []) as (l & El & Hseq & Hcells).
    { assert (forall ta, exists l, jr_loop signed lcntx k rs_c cs_c DLP_S32 ops (loop_fuel 0 nc0) 0 0 jc nc0 pc (Z.min (k - pc) KC) ic mc0
        a_use rs_a_use cs_a_use ps bo (InC (jc + rs_c * ic)) rs_c (if pc =? 0 then beta else 1) = Some l /\
        kseq P (packed_block ta ic pc mc0 (Z.min (k - pc) KC)) l /\
        forall ij, call_block <$> cell_calls ij l =
          if decide (ic <= ij.1 < ic + mc0 /\ jc + 0 <= ij.2 < jc + nc0)
          then [(pc, Z.min (k - pc) KC)] else []) as Hta.
      { intros ta. apply jr_loop_ok; [lia|lia|apply Z.divide_0_r|unfold loop_fuel; lia|by exists pre|].
        intros jr Hjr Hd. apply HP; (lia || done). }
      destruct (Hta None) as (l & El & _ & Hcells). exists l. split_and!; [done| |done].
      intros ta. destruct (Hta ta) as (l' & El' & Hseq & _). rewrite El in El'. by simplify_eq. }
    rewrite El. cbn [mbind option_bind]. eexists. split; [done|]. split.
    + intros ta. destruct (Hpre ta) as (ta' & -> & Hp & _). by apply Hp.
    + intros ij. destruct (Hpre None) as (_ & _ & _ & Ep). rewrite cell_calls_app.
      unfold cell_calls at 1. rewrite Ep. cbn [filter list_filter fmap list_fmap app]. rewrite Hcells.
      subst mc0. repeat case_decide; try done; lia.
  - exists l. split; [done|]. eapply trace_ok_ext; [|exact HQ]. intros ij. cbn.
    rewrite (loop_points_select ic_start ic_end MC ij.1
      (fun _ => if decide (jc <= ij.2 < jc + nc0) then [(pc, Z.min (k - pc) KC)] else [])) by done.
    repeat case_decide; try done; lia.
Qed.
End panel.

Lemma foldr_const_cond {X} (Q : Prop) `{Decision Q} (f : Z -> X) (l : list Z) :
  foldr (fun t r => (if decide Q then [f t] else []) ++ r) [] l = if decide Q then f <$> l else [].
Proof using. case_decide; induction l as [|x l IH]; cbn in *; by rewrite ?IH. Qed.

(** ** The output tile and the left operand of a call *)

Hypothesis HKC : 0 < KC.

Lemma call_at_ok jc nc0 pc ic mc0 bo jr :
  0 <= jc -> jc + nc0 <= n -> 0 <= jr < nc0 -> 0 < NR -> 0 <= ic -> 0 < mc0 -> ic + mc0 <= m ->
  0 <= pc < k -> call_ok m n k rs_c beta ops pc (call_at jc nc0 pc ic mc0 bo jr).
Proof using HKC.
  intros Hjc Hn Hjr HNR Hic Hmc Hm Hpc. unfold call_at.
  destruct (a_operand _ _ _ _) as [[[[pre a_use] rs_a_use] cs_a_use] ps].
  assert ((k <=? pc + KC) = (pc + Z.min (k - pc) KC =? k)).
  { destruct (Z.leb_spec k (pc + KC)); symmetry; [apply Z.eqb_eq|apply Z.eqb_neq]; lia. }
  split; cbn; done || lia || (f_equal; lia).
Qed.

(** A is read in place by rows, or packed by columns. *)
Definition a_readable : Prop :=
  mtag_a = UNPACKED /\ cs_a = 1 \/ mtag_a = PACK /\ rs_a = 1 /\ cs_a <> 1.

Definition A_ok (kind : kernel_kind) (A : Z -> Z) (K : kernels) (ta : a_block) (pc : Z) (c : kernel_call) : Prop :=
  exists a, a_view lcntx kind A K ta c = Some a /\
    forall i kr, 0 <= i < kc_m0 c -> 0 <= kr < kc_k0 c ->
      a i kr = A (rs_a * (post_op_c_i c + i) + cs_a * (pc + kr)).

Lemma gemm_row_addr MR r i kr : 0 < MR -> r * (MR * (i / MR)) + r * (i mod MR) + 4 * (kr / 4) + kr mod 4 = r * i + kr.
Proof using.
  intros HMR. pose proof (Z.div_mod i MR ltac:(lia)). pose proof (Z.div_mod kr 4 ltac:(lia)).
  set (x := i / MR) in *. set (y := i mod MR) in *. rewrite <- Z.mul_add_distr_l. nia.
Qed.

Lemma call_at_A_ok A Bmem alpha K ta jc nc0 pc ic mc0 bo jr :
  kernel_laws signed lcntx A rs_a cs_a Bmem rs_b cs_b alpha K -> a_readable -> 0 < MR ->
  A_ok K_gemm A K (packed_block ta ic pc mc0 (Z.min (k - pc) KC)) pc (call_at jc nc0 pc ic mc0 bo jr).
Proof using.
  intros HK HA HMR. unfold A_ok, call_at, packed_block, GemmDriver.a_operand.
  destruct HA as [[-> ->]|(-> & Hrs & Hcs)].
  - destruct signed; (eexists; split; [reflexivity|]; intros i kr Hi Hkr; cbn in *;
      rewrite gemm_row_addr by done; f_equal; lia).
  - rewrite Hrs. unfold dlp_packa_u8s8s32os32_strides. cbn [Z.eqb Pos.eqb].
    rewrite (proj2 (Z.eqb_neq cs_a 1) Hcs). unfold a_view. cbn [tile_call kc_a kc_m0 kc_k0 post_op_c_i].
    rewrite !Z.eqb_refl. eexists. split; [reflexivity|]. intros i kr Hi Hkr.
    cbn [a_addr kc_ps_a kc_rs_a kc_cs_a tile_call]. rewrite gemm_row_addr, Z.add_0_l by done.
    rewrite (Z.mul_comm (Z.min (k - pc) KC) i), (kl_packa _ _ _ _ _ _ _ _ _ _ HK) by done. f_equal. lia.
Qed.
End loops.
