(* ===== verification/ReorderedTeam.v ===== *)
(** * Teams whose threads do not synchronise

    With B reordered in advance, and on the GEMV path, a thread uses the caller's
    matrices and its own buffers only.  [private_ok] says of such a trace that every
    action is defined and every kernel call finds its operands, whatever the other
    threads do; it makes an invariant of the team. *)
From S2P Require Import Prelude Word DlpTypes ThreadUtils ThreadDecor ByteStore ReorderLayout Reorder.
From S2P Require Import GemmDriver TeamMachine TeamCorrect GemmCalls.
#[local] Open Scope Z_scope.

Lemma to_i32_idemp x : to_i32 (to_i32 x) = to_i32 x.
Proof. apply to_i32_id, to_i32_range. Qed.

(** The buffer of a reordered B holds the matrix, and its column sums behind it. *)
Record reordered_B (signed : bool) (lcntx : dlp_gemm_cntx_t) (n k : Z) (Bmem : Z -> Z) (B0 : Z -> Z -> Z)
    : Prop := mk_reordered_B {
  rb_elem : forall p j, 0 <= p < k -> 0 <= j < n ->
    load_i8 Bmem (elem_pos n k (NR (blksz lcntx)) 16 (NC (blksz lcntx)) (KC (blksz lcntx)) 4 p j) = B0 p j;
  rb_sum : signed = true -> forall j, 0 <= j < n ->
    load_i32 Bmem (dlp_reorder_round_up k 4 * dlp_reorder_round_up n 16 + 4 * j) =
    to_i32 (128 * zsum (fun p => B0 p j) 0 k);
}.

Section operands.
Context (signed : bool) (lcntx : dlp_gemm_cntx_t) (kind : kernel_kind).
Context (A : Z -> Z) (rs_a cs_a : Z) (Bmem : Z -> Z) (rs_b cs_b : Z) (alpha : Z).
Context (K : kernels) (fresh : Z -> Z).
Context (k : Z) (B0 : Z -> Z -> Z).

(** The right operand of a call reads as its block of B, with the column sums where
    they are used. *)
Record B_reads (tb sh : option pack_buf) (pc : Z) (c : kernel_call) (b : Z -> Z -> Z) (s : Z -> Z)
    : Prop := mk_B_reads {
  br_b : b_view lcntx kind Bmem tb sh c = Some b;
  br_s : sum_view signed Bmem tb sh c = Some s;
  br_elem : forall kr j, 0 <= kr < kc_k0 c -> 0 <= j < kc_n0 c -> b kr j = B0 (pc + kr) (post_op_c_j c + j);
  br_sum : forall j, signed = true -> pc + kc_k0 c = k -> 0 <= j < kc_n0 c ->
    to_i32 (s j) = to_i32 (128 * zsum (fun p => B0 p (post_op_c_j c + j)) 0 k);
}.

Definition B_ok (tb sh : option pack_buf) (pc : Z) (c : kernel_call) : Prop :=
  exists b s, B_reads tb sh pc c b s.

(** Both operands, in the state of the thread. *)
Definition call_reads (ta : a_block) (tb sh : option pack_buf) (pc : Z) (c : kernel_call) : Prop :=
  A_ok lcntx rs_a cs_a kind A K ta pc c /\ B_ok tb sh pc c.

Local Abbreviation views_ok := (views_ok signed k (fun i p => A (rs_a * i + cs_a * p)) B0).

Lemma call_reads_views ta tb sh pc c a b s :
  call_reads ta tb sh pc c -> a_view lcntx kind A K ta c = Some a ->
  b_view lcntx kind Bmem tb sh c = Some b -> sum_view signed Bmem tb sh c = Some s ->
  views_ok pc c a b s.
Proof using.
  intros [(a' & Ea & Ha) (b' & s' & [Eb Es Hb Hs])] Ha' Hb' Hs'. simplify_eq. by split.
Qed.

Lemma call_reads_defined g ta tb sh C pc c :
  call_reads ta tb sh pc c ->
  exists C', do_event signed lcntx kind A Bmem K fresh g ta tb sh C (EvKernel pc c) = Some (ta, tb, sh, C').
Proof using.
  intros [(a & Ea & _) (b & s & [Eb Es _ _])]. cbn. rewrite Ea. cbn. rewrite Eb. cbn. rewrite Es. by eexists.
Qed.

(** ** Private traces *)

Local Abbreviation do_event := (do_event signed lcntx kind A Bmem K fresh).

Fixpoint private_ok (g : Z) (ta : a_block) (tb : option pack_buf) (l : list event) : Prop :=
  match l with
  | [] => True
  | e :: l => exists ta' tb',
      (forall sh C, exists C', do_event g ta tb sh C e = Some (ta', tb', sh, C')) /\
      match e with EvKernel pc c => forall sh, call_reads ta tb sh pc c | _ => True end /\
      private_ok g ta' tb' l
  end.

(** Traces that pack A and call kernels on operands that need no buffer of B. *)
Lemma private_kseq P g ta tb l :
  (forall ta pc c, P ta pc c -> forall sh, call_reads ta tb sh pc c) -> kseq P ta l -> private_ok g ta tb l.
Proof using.
  intros HP. revert ta. induction l as [|e l IH]; intros ta Hl; [done|]. cbn in Hl |- *.
  destruct e; try done.
  - eexists _, tb. split; [intros sh C; by eexists|]. split; [done|]. by apply IH.
  - destruct Hl as [Hp Hl]. exists ta, tb. split; [|split; [by apply HP|by apply IH]].
    intros sh C. by apply call_reads_defined, HP.
Qed.

Lemma private_no_barrier g ta tb l :
  private_ok g ta tb l -> Forall no_barrier l.
Proof using.
  revert ta tb. induction l as [|e l IH]; intros ta tb Hp; [done|]. destruct Hp as (ta' & tb' & Hdo & _ & Hp).
  constructor; [|by eapply IH]. destruct (Hdo None (fun _ => 0)) as [C' E]. by destruct e.
Qed.

Context (m n rs_c beta : Z) (ops : list PostOpTypes.dlp_gemm_post_op) (C0 : Z -> Z).
Hypothesis HK : kernel_laws signed lcntx A rs_a cs_a Bmem rs_b cs_b alpha K.
Hypothesis Hrs : n <= rs_c.
Hypothesis Hk : 0 < k.

Definition private_team (st : team_state) : Prop :=
  forall th, th ∈ st_threads st -> exists l, th_segs th = [l] /\ private_ok (th_group th) (th_a th) (th_b th) l.

Lemma private_team_invariant :
  team_invariant signed lcntx kind A Bmem K fresh k (fun i p => A (rs_a * i + cs_a * p)) B0 private_team.
Proof using.
  assert (forall st t th e l ss, private_team st -> st_threads st !! t = Some th -> th_segs th = (e :: l) :: ss ->
    ss = [] /\ exists ta' tb',
      (forall sh C, exists C', do_event (th_group th) (th_a th) (th_b th) sh C e = Some (ta', tb', sh, C')) /\
      match e with EvKernel pc c => forall sh, call_reads (th_a th) (th_b th) sh pc c | _ => True end /\
      private_ok (th_group th) ta' tb' l) as Hhead.
  { intros st t th e l ss HI Ht Hs. destruct (HI th) as (l' & El & Hl); [by eapply list_elem_of_lookup_2|].
    rewrite El in Hs. by simplify_eq. }
  split.
  - intros st st' HI [t th e l ss ta tb sh C Ht Hs Hdo|g [th [Hth Hg]] Hw].
    + destruct (Hhead _ _ _ _ _ _ HI Ht Hs) as (-> & ta' & tb' & Hdef & _ & Hl).
      destruct (Hdef (st_shared st (th_group th)) (st_C st)) as [C' E]. rewrite E in Hdo. simplify_eq.
      intros th2 Hth2. apply list_elem_of_lookup in Hth2 as [t2 Ht2]. cbn in Ht2.
      destruct (decide (t2 = t)) as [->|Hne].
      * rewrite list_lookup_insert_eq in Ht2 by by eapply lookup_lt_Some. simplify_eq. by exists l.
      * rewrite list_lookup_insert_ne in Ht2 by done. apply HI. by eapply list_elem_of_lookup_2.
    + destruct (HI th Hth) as (l & El & _). destruct (Hw th Hth Hg) as (s & ss & E). congruence.
  - intros st t th e l ss HI Ht Hs. destruct (Hhead _ _ _ _ _ _ HI Ht Hs) as (_ & ta' & tb' & Hdef & _).
    destruct (Hdef (st_shared st (th_group th)) (st_C st)) as [C' E]. eauto.
  - intros st t th pc c l ss a b s HI Ht Hs Ha Hb Hsm.
    destruct (Hhead _ _ _ _ _ _ HI Ht Hs) as (_ & ta' & tb' & _ & Hr & _). by eapply call_reads_views.
  - intros st HI Hend Hnot. destruct Hnot. intros th Hth. destruct (HI th Hth) as (l & El & _).
    destruct (Hend th Hth) as (ss & E). unfold finished. congruence.
  - intros st th HI Hth. by destruct (HI th Hth) as (l & -> & _).
Qed.
End operands.

(** ** The five loops over a reordered B *)

Section reordered.
Context (signed : bool) (lcntx : dlp_gemm_cntx_t) (packb_strides : Z -> Z -> Z * Z).
Context (A : Z -> Z) (rs_a cs_a : Z) (Bmem : Z -> Z) (rs_b cs_b alpha : Z) (K : kernels).
Context (m n k : Z) (mtag_a : AOCL_DLP_MEMORY_TAG) (rs_c cs_c beta : Z) (ops : list PostOpTypes.dlp_gemm_post_op) (B0 : Z -> Z -> Z).

Local Abbreviation NC := (NC (blksz lcntx)).
Local Abbreviation KC := (KC (blksz lcntx)).
Local Abbreviation MC := (MC (blksz lcntx)).
Local Abbreviation NR := (NR (blksz lcntx)).
Local Abbreviation MR := (MR (blksz lcntx)).

Hypothesis Hl : layout_ok n k NR 16 NC KC 4.
Hypothesis HMC : 0 < MC.
Hypothesis HMR : 0 < MR.
Hypothesis HK : kernel_laws signed lcntx A rs_a cs_a Bmem rs_b cs_b alpha K.
Hypothesis HA : a_readable rs_a cs_a mtag_a.
Hypothesis HB : reordered_B signed lcntx n k Bmem B0.

(** What the calls satisfy, whatever buffers the team has. *)
Definition reordered_call (ta : a_block) (pc : Z) (c : kernel_call) : Prop :=
  call_ok m n k rs_c beta ops pc c /\
  forall tb sh, call_reads signed lcntx K_gemm A rs_a cs_a Bmem K k B0 ta tb sh pc c.

(** A sub-panel of a tile is a tile. *)
Lemma subtile_ok jc nc0 jr :
  tile_ok n NR NC jc nc0 -> 0 <= jr < nc0 -> (NR | jr) ->
  tile_ok n NR NC (jc + jr) (Z.min (nc0 - jr) NR) /\ NC * ((jc + jr) / NC) = NC * (jc / NC).
Proof using Hl.
  intros (Ht0 & Ht1 & Ht2 & Ht3 & Ht4) Hjr Hd. destruct Hl.
  pose proof (block_bounds NC lo_NC jc) as HP.
  assert (NC * ((jc + jr) / NC) = NC * (jc / NC)) as EP
    by (apply block_unique; [done|apply Z.divide_factor_l|lia]).
  split; [|done]. unfold tile_ok. rewrite EP. split_and!; try lia; [by apply Z.divide_add_r|].
  destruct (Z.min_spec (nc0 - jr) NR) as [[_ ->]|[_ ->]]; [|by right].
  destruct Ht4 as [|]; [left; lia|right; by apply Z.divide_sub_r].
Qed.

Local Abbreviation call_at := (call_at signed lcntx m k rs_a cs_a mtag_a rs_c cs_c beta ops).
Local Abbreviation reordered_b := (reordered_b signed lcntx n k).

Lemma reordered_call_at ta jc nc0 cur rem nsub pc ic mc0 jr :
  tile_ok n NR NC jc nc0 -> cur = NC * (jc / NC) -> rem = jc - cur -> nsub = panel_width n 16 NC cur ->
  0 <= pc < k -> (KC | pc) -> 0 <= ic -> 0 < mc0 -> ic + mc0 <= m -> 0 <= jr < nc0 -> (NR | jr) ->
  reordered_call (packed_block rs_a cs_a mtag_a ta ic pc mc0 (Z.min (k - pc) KC)) pc
    (call_at jc nc0 pc ic mc0 (reordered_b jc cur rem nsub pc (Z.min (k - pc) KC)) jr).
Proof using Hl HMR HK HA HB.
  intros Ht -> -> -> Hpc Hd Hic Hmc Hm Hjr Hdj. pose proof Hl as [].
  assert (0 <= jc /\ jc + nc0 <= n) as [Hjc Hn].
  { destruct Ht as (? & ? & ? & ? & ?). split; [done|lia]. }
  split; [by apply call_at_ok|]. intros tb sh. split; [by eapply call_at_A_ok|].
  destruct (subtile_ok jc nc0 jr Ht Hjr Hdj) as [Hts EP].
  unfold GemmCalls.call_at, GemmDriver.reordered_b.
  destruct (a_operand _ _ _ _ _ _ _ _ _ _) as [[[[pre a_use] rs_a_use] cs_a_use] ps].
  destruct (dlp_gemm_get_packb_strides lcntx) as [rs_b_use cs_b_use].
  eexists _, (fun j => if signed then load_i32 Bmem
    (dlp_reorder_round_up k 4 * dlp_reorder_round_up n 16 + 4 * (jc + jr + j)) else 0).
  split; cbn -[dlp_make_multiple_of_n load_i8 load_i32]; [done|clear HK HB; by destruct signed| |].
  - intros kr j Hkr Hj. rewrite <- (rb_elem _ _ _ _ _ _ HB) by lia. f_equal.
    rewrite <- Z.add_assoc.
    rewrite (tile_elem_pos n k NR 16 NC KC 4 Hl (jc + jr) (Z.min (nc0 - jr) NR) pc kr j Hts) by done.
    unfold tile_start, packed_index. change dlp_make_multiple_of_n with dlp_reorder_round_up.
    rewrite EP. unfold panel_pos, block_height, k_padded. cbn zeta. lia.
  - intros j Hsg _ Hj. rewrite Hsg, (rb_sum _ _ _ _ _ _ HB Hsg) by lia. by rewrite to_i32_idemp.
Qed.

(** One panel: the k blocks in order. *)
Lemma reordered_pc_loop thread_jc thread_ic jc nc0 cur rem nsub ic_start ic_end :
  tile_ok n NR NC jc nc0 -> cur = NC * (jc / NC) -> rem = jc - cur -> nsub = panel_width n 16 NC cur ->
  0 <= ic_start -> ic_end <= m ->
  exists l,
    for_upto (loop_fuel 0 k) 0 k KC
      (pc_body signed lcntx packb_strides m n k rs_a cs_a mtag_a rs_b cs_b REORDERED rs_c cs_c beta DLP_S32 ops
         thread_jc thread_ic ic_start ic_end jc cur rem nc0 nsub (InC jc) rs_c) = Some l /\
    trace_ok reordered_call (fun ij => if decide (ic_start <= ij.1 < ic_end /\ jc <= ij.2 < jc + nc0)
                                       then k_blocks k KC else []) l.
Proof using Hl HMC HMR HK HA HB.
  intros Ht Hcur Hrem Hsub Hs He. pose proof Hl as [].
  destruct (for_upto_seq (trace_ok reordered_call) (trace_ok_nil _) (trace_ok_app _) (loop_fuel 0 k) 0 k KC
    (pc_body signed lcntx packb_strides m n k rs_a cs_a mtag_a rs_b cs_b REORDERED rs_c cs_c beta DLP_S32 ops
         thread_jc thread_ic ic_start ic_end jc cur rem nc0 nsub (InC jc) rs_c)
    (fun pc ij => if decide (ic_start <= ij.1 < ic_end /\ jc <= ij.2 < jc + nc0)
                  then [(pc, Z.min (k - pc) KC)] else []))
    as (l & Hloop & HQ); [done|unfold loop_fuel; lia| |].
  - intros pc (t & Ht' & -> & Hlt)%loop_points_elem; [|done]. set (pc := 0 + t * KC) in *.
    assert (0 <= pc < k) by lia. assert (KC | pc) by (exists t; lia). unfold pc_body. cbn [app].
    destruct (ic_loop_ok signed lcntx m k rs_a cs_a mtag_a rs_c cs_c beta ops reordered_call jc nc0 pc
      (reordered_b jc cur rem nsub pc (Z.min (k - pc) KC)) lo_NR HMC ic_start ic_end) as (l & -> & HQ).
    { intros ta ic jr Hic Hjr Hd. apply reordered_call_at; try done; lia. }
    cbn [mbind option_bind]. by exists l.
  - exists l. split; [done|]. eapply trace_ok_ext; [|exact HQ]. intros ij. cbn.
    by rewrite (foldr_const_cond _ (fun pc => (pc, Z.min (k - pc) KC))).
Qed.

(** The columns of one [jc] iteration of the range [[s, e)]. *)
Lemma reordered_panel s e jc :
  range_ok n NR s e -> s <= jc < e -> jc = s \/ (NC | jc) ->
  let P := NC * (jc / NC) in
  exists nc0, b_panel signed lcntx n REORDERED jc (Z.min (e - jc) NC) =
      (P, jc - P, nc0, panel_width n 16 NC P) /\
    0 < nc0 /\ jc + nc0 = Z.min e (P + NC) /\ tile_ok n NR NC jc nc0.
Proof using Hl.
  intros Hr Hjc Hjs P. pose proof Hr as (Hs & _ & He & _). pose proof Hl as [].
  pose proof (block_bounds NC lo_NC jc) as HP. fold P in HP. unfold b_panel. rewrite min_NR_16.
  assert (Z.max s P = jc) as Emax.
  { destruct Hjs as [->|[q Hq]]; [lia|]. subst P. rewrite Hq, Z.div_mul by lia. lia. }
  destruct (range_tile_ok n k NR _ NC KC 4 Hl s e jc) as [Ht _]; [done|lia|].
  fold P in Ht. rewrite Emax in Ht.
  unfold dlp_gemm_get_B_panel_reordered_start_offset_width.
  rewrite (kmd_width_eq n k NR _ NC KC 4 Hl) by lia. rewrite (cquot_nonneg jc NC) by lia.
  rewrite (Z.mul_comm (jc / NC)). fold P.
  assert ((if P + NC <? jc + Z.min (e - jc) NC then NC - (jc - P) else Z.min (e - jc) NC)
    = Z.min e (P + NC) - jc) as -> by (destruct (Z.ltb_spec (P + NC) (jc + Z.min (e - jc) NC)); lia).
  exists (Z.min e (P + NC) - jc). split; [done|]. split; [lia|]. split; [lia|done].
Qed.

Lemma reordered_jc_loop thread_jc thread_ic ic_start ic_end s e fuel jc :
  0 <= ic_start -> ic_end <= m -> range_ok n NR s e -> s <= jc -> jc = s \/ (NC | jc) ->
  Z.max 0 (e - jc) < Z.of_nat fuel ->
  exists l,
    jc_loop signed lcntx packb_strides m n k rs_a cs_a mtag_a rs_b cs_b REORDERED rs_c cs_c beta DLP_S32 ops
      fuel thread_jc thread_ic ic_start ic_end jc e = Some l /\
    trace_ok reordered_call (fun ij => if decide (ic_start <= ij.1 < ic_end /\ jc <= ij.2 < e)
                                       then k_blocks k KC else []) l.
Proof using Hl HMC HMR HK HA HB.
  intros Hi0 Hi1 Hr. pose proof Hr as (Hs & _ & He & _). pose proof Hl as [].
  revert jc. induction fuel as [|fuel IH]; intros jc Hjc Hjs Hf; [lia|]. cbn [jc_loop].
  destruct (Z.ltb_spec jc e) as [Hlt|Hge].
  2: { exists []. split; [done|]. eapply trace_ok_ext, trace_ok_nil. intros ij. by rewrite decide_False by lia. }
  destruct (reordered_panel s e jc Hr ltac:(lia) Hjs) as (nc0 & -> & Hn0 & Hend & Ht).
  pose proof (block_bounds NC lo_NC jc) as HP. set (P := NC * (jc / NC)) in *.
  change (c_panel lcntx k rs_c DLP_S32 jc nc0) with (InC jc, rs_c). cbn iota beta.
  destruct (reordered_pc_loop thread_jc thread_ic jc nc0 P (jc - P) (panel_width n 16 NC P) ic_start ic_end)
    as (l & -> & HQ); [done..|].
  cbn [mbind option_bind]. unfold dlp_gemm_adjust_B_panel_reordered_jc.
  destruct (IH (P + NC)) as (r & -> & HR); [lia| |lia|].
  { right. apply Z.divide_add_r; [apply Z.divide_factor_l|apply Z.divide_refl]. }
  cbn [mbind option_bind]. exists (l ++ r). split; [done|].
  eapply trace_ok_ext; [|apply (trace_ok_app _ _ _ _ _ HQ HR)]. intros ij. cbn.
  repeat case_decide; rewrite ?app_nil_r; try done; lia.
Qed.

Hypothesis Hm : 0 <= m.

Lemma thread_rows_ok ic w :
  1 <= ic -> 0 <= w < ic ->
  0 <= task_cut ic m MR false w /\ task_cut ic m MR false (w + 1) <= m.
Proof using HMR Hm.
  intros Hic Hw.
  pose proof (interval_le (task_cut ic m MR false) ic ltac:(lia)
    (fun w => task_cut_mono ic m MR false w Hic Hm ltac:(lia))) as Hle.
  pose proof (Hle 0 w) as H0. pose proof (Hle (w + 1) ic) as H1.
  rewrite task_cut_first in H0 by lia. rewrite task_cut_last in H1 by lia. lia.
Qed.

(** The elements of the thread [t] of a team of [ic * jc]. *)
Definition thread_owns (ic jc t : Z) (ij : Z * Z) : Prop :=
  owns (mk_task_id t jc (t / ic)) n NR false ij.2 /\ owns (mk_task_id (t mod ic) ic (t mod ic)) m MR false ij.1.

#[export] Instance thread_owns_dec ic jc t ij : Decision (thread_owns ic jc t ij).
Proof using. apply _. Defined.

Lemma reordered_thread thread ic jc :
  1 <= ic -> 1 <= jc -> thr_ic_ways thread = ic -> thr_jc_ways thread = jc ->
  0 <= thr_tid thread < ic * jc ->
  exists l, five_loops signed lcntx packb_strides m n k rs_a cs_a mtag_a rs_b cs_b REORDERED rs_c cs_c beta DLP_S32 ops
              thread = Some l /\
    trace_ok reordered_call (fun ij => if decide (thread_owns ic jc (thr_tid thread) ij)
                                       then k_blocks k KC else []) l.
Proof using Hl HMC HMR HK HA HB Hm.
  intros Hic Hjc Ei Ej Ht. pose proof Hl as [].
  destruct (grid_bounds ic jc (thr_tid thread) Hic Hjc Ht) as [Hw Hv].
  pose proof (thread_range_ok n k NR _ NC KC 4 Hl jc (thr_tid thread / ic) Hjc Hw) as Hr.
  destruct (thread_rows_ok ic (thr_tid thread mod ic) Hic Hv) as [Hi0 Hi1].
  set (s := task_cut jc n NR false (thr_tid thread / ic)) in *.
  set (e := task_cut jc n NR false (thr_tid thread / ic + 1)) in *.
  set (thread_jc := mk_task_id (thr_tid thread) jc (thr_tid thread / ic)).
  set (thread_ic := mk_task_id (thr_tid thread mod ic) ic (thr_tid thread mod ic)).
  destruct (reordered_jc_loop thread_jc thread_ic _ _ s e (loop_fuel s e) s Hi0 Hi1 Hr) as (l & Hloop & HQ);
    [lia|by left|unfold loop_fuel; lia|].
  exists l. split.
  - unfold five_loops. cbn [dlp_gemm_gen_dlp_task_ids]. rewrite Ei, Ej. cdiv.
    fold thread_jc thread_ic. subst thread_jc thread_ic. rewrite !task_range_cut by lia.
    fold s e. rewrite Hloop. cbn. by rewrite app_nil_r.
  - eapply trace_ok_ext; [|exact HQ]. intros ij. cbn beta. apply decide_ext.
    unfold thread_owns. rewrite !owns_cut by lia. fold s e. tauto.
Qed.
End reordered.
