(* ===== verification/PackedTeam.v ===== *)
(** * Teams that pack B together

    The threads with one jc work id share a buffer: the chief allocates it, all pack
    their columns of a panel, all read the panel, with a barrier before and after every
    packing.  [group_inv] follows a group through these phases; it says what the buffer
    holds, so that every kernel call finds its block of B and, in the s8 driver, the
    column sums. *)
From S2P Require Import Prelude Word DlpTypes ThreadUtils ThreadDecor ByteStore ReorderLayout Reorder.
From S2P Require Import GemmDriver TeamMachine TeamCorrect GemmCalls ReorderedTeam.
#[local] Open Scope Z_scope.

Local Abbreviation round_up := dlp_reorder_round_up.

(** ** Positions in a panel *)

Lemma panel_pos_bounds NR N k0 kr c :
  0 < NR -> (16 | NR) -> 0 <= kr < k0 -> 0 <= c < N ->
  0 <= panel_pos NR N k0 kr c < round_up N 16 * round_up k0 4.
Proof.
  intros HNR H16 Hkr Hc. unfold panel_pos, chunk_at.
  destruct (chunk_of N NR 16 c) as [g s] eqn:Ec. cbn [offset slot col_start].
  pose proof (chunk_of_bounds NR 16 HNR ltac:(lia) H16 N c g s Hc Ec) as (Hg1 & Hg2 & _ & [q ->] & Hds & Hs & Hgn).
  pose proof (round_up_bounds k0 4 ltac:(lia) ltac:(lia)) as [Hh Hdh].
  pose proof (elem_offset_bounds kr (c - q * 16) s 4 (round_up k0 4) ltac:(lia) Hdh ltac:(lia) ltac:(lia)).
  assert (0 <= NR * (c / NR)) by (apply Z.mul_nonneg_nonneg, Z.div_pos; lia).
  assert (q * 16 + s <= round_up N 16) as Hfit; [|nia].
  pose proof (round_up_bounds N 16 ltac:(lia) ltac:(lia)) as [? [t Ht]].
  destruct Hgn as [|[_ ->]]; [lia|]. rewrite Ht in *. lia.
Qed.

(** The columns [[lo, lo + w)] of a panel, packed on their own. *)
Lemma panel_pos_part NR N lo w k0 kr c :
  0 < NR -> (NR | lo) -> 0 <= c < w -> lo + w <= N -> lo + w = N \/ (NR | w) ->
  panel_pos NR N k0 kr (lo + c) = lo * round_up k0 4 + panel_pos NR w k0 kr c.
Proof.
  intros HNR Hd Hc Hle Hend. unfold panel_pos, chunk_at.
  destruct (chunk_of w NR 16 c) as [g s] eqn:Ec.
  rewrite (chunk_of_tile NR 16 HNR N lo w c g s Hd Hc Hle Hend Ec). cbn [offset slot col_start].
  replace (lo + c - (lo + g)) with (c - g) by lia. lia.
Qed.

Lemma load_i8_ext b b' a : b a = b' a -> load_i8 b a = load_i8 b' a.
Proof. unfold load_i8. by intros ->. Qed.

Lemma load_i32_ext b b' a : (forall x, a <= x < a + 4 -> b x = b' x) -> load_i32 b a = load_i32 b' a.
Proof. intros H. unfold load_i32. by rewrite !H by lia. Qed.

(** One [(jc, pc)] iteration: the columns [[p_jc, p_jc + p_nc)] and the k block at [p_pc]. *)
Record panel := mk_panel { p_jc : Z; p_nc : Z; p_pc : Z }.

Section group.
Context (signed : bool) (lcntx : dlp_gemm_cntx_t).
Context (A : Z -> Z) (rs_a cs_a : Z) (Bmem : Z -> Z) (rs_b cs_b alpha : Z) (K : kernels) (fresh : Z -> Z).
Context (n k ic g : Z).

Local Abbreviation NC := (NC (blksz lcntx)).
Local Abbreviation KC := (KC (blksz lcntx)).
Local Abbreviation NR := (NR (blksz lcntx)).
Local Abbreviation B0 := (fun p j => load_i8 Bmem (rs_b * p + cs_b * j)).

Hypothesis Hl : layout_ok n k NR 16 NC KC 4.
Hypothesis HK : kernel_laws signed lcntx A rs_a cs_a Bmem rs_b cs_b alpha K.
Hypothesis Hic : 1 <= ic.

Definition p_kc (q : panel) : Z := Z.min (k - p_pc q) KC.
Definition p_rows (q : panel) : Z := round_up (p_kc q) 4.
Definition p_cols (q : panel) : Z := round_up (p_nc q) 16.
Definition p_sums (q : panel) : Z := pack_b_column_sum signed lcntx k (p_nc q).
Definition p_cut (q : panel) (v : Z) : Z := task_cut ic (p_nc q) NR false v.

Definition panel_ok (q : panel) : Prop :=
  0 <= p_jc q /\ 0 < p_nc q /\ p_jc q + p_nc q <= n /\ 0 <= p_pc q < k.

Definition fits (q : panel) (size : Z) : Prop := p_sums q + col_sums_size signed (p_cols q) <= size.

Lemma panel_facts q : panel_ok q ->
  0 < p_kc q <= KC /\ p_kc q <= p_rows q /\ (4 | p_rows q) /\ p_nc q <= p_cols q /\ (16 | p_cols q) /\
  p_sums q = p_cols q * round_up (Z.min k KC) 4 /\ p_rows q <= round_up (Z.min k KC) 4.
Proof using Hl.
  intros (Hj & Hn & _ & Hp). pose proof Hl as []. unfold p_sums, p_rows, p_cols, p_kc, pack_b_column_sum.
  rewrite min_NR_16. change dlp_make_multiple_of_n with round_up.
  pose proof (round_up_bounds (Z.min (k - p_pc q) KC) 4 ltac:(lia) ltac:(lia)) as [? ?].
  pose proof (round_up_bounds (p_nc q) 16 ltac:(lia) ltac:(lia)) as [? ?].
  pose proof (round_up_bounds (Z.min k KC) 4 ltac:(lia) ltac:(lia)) as [? ?].
  split_and!; try done; try lia. apply round_up_least; (done || lia).
Qed.

Lemma elems_below_sums q c : panel_ok q -> 0 <= c -> c <= p_cols q -> c * p_rows q <= p_sums q.
Proof using Hl.
  intros Hq Hc Hle. destruct (panel_facts q Hq) as (? & ? & _ & ? & _ & -> & ?). nia.
Qed.

(** The columns of the thread [v]. *)
Lemma p_cut_facts q v : panel_ok q -> 0 <= v < ic ->
  0 <= p_cut q v <= p_cut q (v + 1) /\ p_cut q (v + 1) <= p_nc q /\ (NR | p_cut q v) /\
  (p_cut q (v + 1) = p_nc q \/ (NR | p_cut q (v + 1) - p_cut q v)).
Proof using signed Hl Hic.
  intros Hq Hv. pose proof Hq as (_ & Hn & _ & _). pose proof Hl as []. unfold p_cut.
  pose proof (fun w => task_cut_mono ic (p_nc q) NR false w Hic ltac:(lia) ltac:(lia)) as Hmono.
  pose proof (interval_le (task_cut ic (p_nc q) NR false) ic ltac:(lia) Hmono) as Hle.
  pose proof (Hle 0 v ltac:(lia) ltac:(lia) ltac:(lia)) as H0.
  pose proof (Hle (v + 1) ic ltac:(lia) ltac:(lia) ltac:(lia)) as H1.
  rewrite task_cut_first in H0 by lia. rewrite task_cut_last in H1 by lia. specialize (Hmono v Hv).
  assert (NR | task_cut ic (p_nc q) NR false v) as Hd.
  { unfold task_cut. rewrite (proj2 (Z.eqb_neq v ic)) by lia. apply Z.divide_factor_l. }
  split_and!; try lia; [done|]. unfold task_cut at 1 2. destruct (Z.eqb_spec (v + 1) ic); [by left|right].
  apply Z.divide_sub_r; [apply Z.divide_factor_l|done].
Qed.

(** Where the stores of the thread [v] end. *)
Definition p_end (q : panel) (v : Z) : Z := p_cut q v + round_up (p_cut q (v + 1) - p_cut q v) 16.

Lemma p_end_facts q v : panel_ok q -> 0 <= v < ic -> p_cut q (v + 1) <= p_end q v <= p_cols q.
Proof using signed Hl Hic.
  intros Hq Hv. destruct (p_cut_facts q v Hq Hv) as ([H0 H1] & H2 & Hd & Hend). pose proof Hl as [].
  destruct (panel_facts q Hq) as (_ & _ & _ & H3 & H4 & _).
  unfold p_end. pose proof (round_up_bounds (p_cut q (v + 1) - p_cut q v) 16 ltac:(lia) ltac:(lia)).
  split; [lia|]. rewrite <- round_up_add by (try lia; by apply (Z.divide_trans _ NR)).
  apply round_up_least; (done || lia).
Qed.

(** The stores of two threads are apart. *)
Lemma p_end_before q v v' :
  panel_ok q -> 0 <= v < ic -> 0 <= v' < ic -> v < v' -> p_cut q v' < p_nc q -> p_end q v <= p_cut q v'.
Proof using signed Hl Hic.
  intros Hq Hv Hv' Hlt Hne. destruct (p_cut_facts q v Hq Hv) as ([H0 H1] & H2 & Hd & Hend). pose proof Hl as [].
  pose proof Hq as (_ & Hn & _ & _).
  pose proof (fun w => task_cut_mono ic (p_nc q) NR false w Hic ltac:(lia) ltac:(lia)) as Hmono.
  pose proof (interval_le (task_cut ic (p_nc q) NR false) ic ltac:(lia) Hmono (v + 1) v'
    ltac:(lia) ltac:(lia) ltac:(lia)) as Hle. fold (p_cut q (v + 1)) (p_cut q v') in Hle.
  unfold p_end. destruct Hend as [|Hdw]; [lia|].
  rewrite reorder_round_up_multiple by (try lia; by apply (Z.divide_trans _ NR)). lia.
Qed.

(** ** Packing *)

Definition pack_ev (q : panel) (v : Z) : event :=
  EvPackB (InPackB (p_cut q v * p_rows q)) (rs_b * p_pc q + cs_b * p_jc q + cs_b * p_cut q v)
    (p_cut q (v + 1) - p_cut q v) (p_kc q) (col_sums signed (InPackB (p_sums q + 4 * p_cut q v))).

Definition part (v : Z) (q : panel) : list event :=
  if p_cut q v <? p_cut q (v + 1) then
    (if signed && (p_pc q =? 0)
     then [EvZeroColSum (InPackB (p_sums q)) (p_cut q v) (p_cut q (v + 1))] else []) ++ [pack_ev q v]
  else [].

(** The columns [[lo, hi)] are packed, with their sums over the rows below [p]. *)
Definition elems_in (b : Z -> Z) (q : panel) (lo hi : Z) : Prop := forall kr j,
  0 <= kr < p_kc q -> lo <= j < hi ->
  load_i8 b (panel_pos NR (p_nc q) (p_kc q) kr j) = B0 (p_pc q + kr) (p_jc q + j).

Definition sums_in (b : Z -> Z) (q : panel) (lo hi p : Z) : Prop := signed = true -> forall j, lo <= j < hi ->
  load_i32 b (p_sums q + 4 * j) = to_i32 (128 * zsum (fun p => B0 p (p_jc q + j)) 0 p).

Definition packed (b : Z -> Z) (q : panel) (lo hi : Z) : Prop :=
  elems_in b q lo hi /\ sums_in b q lo hi (p_pc q + p_kc q).

(** How far the thread [v] is with its part, [r] being what is left of it. *)
Definition stage (q : panel) (v : Z) (r : list event) (b : Z -> Z) : Prop :=
  r = part v q /\ (p_pc q <> 0 -> sums_in b q (p_cut q v) (p_cut q (v + 1)) (p_pc q)) \/
  r = [pack_ev q v] /\ p_cut q v < p_cut q (v + 1) /\ sums_in b q (p_cut q v) (p_cut q (v + 1)) (p_pc q) \/
  r = [] /\ packed b q (p_cut q v) (p_cut q (v + 1)).

Lemma stage_done q v b : stage q v [] b -> packed b q (p_cut q v) (p_cut q (v + 1)).
Proof using.
  clear HK. intros [[E Hs]|[[E _]|[_ Hp]]]; [|done|done]. unfold part in E.
  destruct (Z.ltb_spec (p_cut q v) (p_cut q (v + 1))).
  - by destruct (signed && (p_pc q =? 0)).
  - split; [intros kr j _ ?|intros _ j ?]; lia.
Qed.

(** The addresses the thread [v] may store to. *)
Definition touched (q : panel) (v x : Z) : Prop :=
  p_cut q v * p_rows q <= x < p_end q v * p_rows q \/
  p_sums q + 4 * p_cut q v <= x < p_sums q + 4 * p_end q v.

Lemma elem_untouched q v v' kr j :
  panel_ok q -> 0 <= v < ic -> 0 <= v' < ic -> v <> v' -> p_cut q v' < p_cut q (v' + 1) ->
  0 <= kr < p_kc q -> p_cut q v <= j < p_cut q (v + 1) ->
  ~ touched q v' (panel_pos NR (p_nc q) (p_kc q) kr j).
Proof using signed Hl Hic.
  clear HK. intros Hq Hv Hv' Hne Hlt Hkr Hj Ht. pose proof Hl as [].
  destruct (p_cut_facts q v Hq Hv) as ([Hc0 Hc1] & Hc2 & Hd & Hend).
  destruct (p_cut_facts q v' Hq Hv') as ([Hc0' Hc1'] & Hc2' & _ & _).
  destruct (panel_facts q Hq) as (? & ? & _).
  pose proof (p_end_facts q v Hq Hv) as [He0 He]. pose proof (p_end_facts q v' Hq Hv') as [He0' He'].
  pose proof (panel_pos_bounds NR (p_cut q (v + 1) - p_cut q v) (p_kc q) kr (j - p_cut q v)
    lo_NR lo_m_NR Hkr ltac:(lia)) as Hp.
  replace j with (p_cut q v + (j - p_cut q v)) in Ht by lia.
  rewrite (panel_pos_part NR _ _ (p_cut q (v + 1) - p_cut q v)) in Ht;
    [|done|done|lia|lia|destruct Hend; [left; lia|by right]].
  fold (p_rows q) in Hp, Ht. set (x := panel_pos _ _ _ _ _) in *.
  assert (p_cut q v * p_rows q + x < p_end q v * p_rows q) by (unfold p_end; lia).
  pose proof (elems_below_sums q (p_end q v) Hq ltac:(lia) He).
  destruct Ht as [Ht|Ht]; [|lia].
  destruct (Z.lt_ge_cases v v') as [Hlt'|Hge].
  - pose proof (p_end_before q v v' Hq Hv Hv' Hlt' ltac:(lia)). nia.
  - pose proof (p_end_before q v' v Hq Hv' Hv ltac:(lia) ltac:(lia)). nia.
Qed.

Lemma sum_untouched q v v' j x :
  panel_ok q -> 0 <= v < ic -> 0 <= v' < ic -> v <> v' -> p_cut q v' < p_cut q (v' + 1) ->
  p_cut q v <= j < p_cut q (v + 1) -> p_sums q + 4 * j <= x < p_sums q + 4 * j + 4 -> ~ touched q v' x.
Proof using signed Hl Hic.
  clear HK. intros Hq Hv Hv' Hne Hlt Hj Hx Ht.
  destruct (p_cut_facts q v Hq Hv) as ([Hc0 Hc1] & Hc2 & _ & _).
  destruct (p_cut_facts q v' Hq Hv') as ([Hc0' Hc1'] & Hc2' & _ & _).
  pose proof (p_end_facts q v Hq Hv) as [He0 He]. pose proof (p_end_facts q v' Hq Hv') as [He0' He'].
  pose proof (elems_below_sums q (p_end q v') Hq ltac:(lia) He').
  destruct Ht as [Ht|Ht]; [lia|]. destruct (Z.lt_ge_cases v v') as [Hlt'|Hge].
  - pose proof (p_end_before q v v' Hq Hv Hv' Hlt' ltac:(lia)). lia.
  - pose proof (p_end_before q v' v Hq Hv' Hv ltac:(lia) ltac:(lia)). lia.
Qed.

(** The work of another thread leaves the stage. *)
Lemma stage_frame q v v' r b b' :
  panel_ok q -> 0 <= v < ic -> 0 <= v' < ic -> v <> v' -> p_cut q v' < p_cut q (v' + 1) ->
  (forall x, ~ touched q v' x -> b' x = b x) -> stage q v r b -> stage q v r b'.
Proof using signed Hl Hic.
  clear HK. intros Hq Hv Hv' Hne Hlt Hfr.
  assert (forall p, sums_in b q (p_cut q v) (p_cut q (v + 1)) p -> sums_in b' q (p_cut q v) (p_cut q (v + 1)) p) as Hs.
  { intros p H Hsg j Hj. rewrite <- (H Hsg j Hj). apply load_i32_ext. intros x Hx.
    apply Hfr. by apply (sum_untouched q v v' j). }
  intros [[E H]|[(E & H1 & H2)|(E & H1 & H2)]]; [left|right; left|right; right]; split; auto.
  split; [|auto]. intros kr j Hkr Hj. rewrite <- (H1 kr j Hkr Hj). apply load_i8_ext, Hfr.
  by apply (elem_untouched q v).
Qed.

Local Abbreviation do_event := (do_event signed lcntx K_gemm A Bmem K fresh).

Lemma load_i32_zero b a : (forall x, a <= x < a + 4 -> b x = 0) -> load_i32 b a = 0.
Proof using. intros H. unfold load_i32. by rewrite !H by lia. Qed.

(** The two actions of a part; the sums must be in the buffer in the s8 driver only. *)
Lemma zero_step q v ta tb b :
  panel_ok q -> 0 <= v < ic -> signed = true -> fits q (pb_size b) -> p_pc q = 0 ->
  p_cut q v < p_cut q (v + 1) ->
  exists b', (forall C, do_event g ta tb (Some b) C
      (EvZeroColSum (InPackB (p_sums q)) (p_cut q v) (p_cut q (v + 1))) = Some (ta, tb, Some b', C)) /\
    pb_size b' = pb_size b /\ sums_in (pb_bytes b') q (p_cut q v) (p_cut q (v + 1)) (p_pc q) /\
    forall x, ~ touched q v x -> pb_bytes b' x = pb_bytes b x.
Proof using signed Hl Hic.
  clear HK. intros Hq Hv Hsg Hfit Hpc Hlt. destruct (p_cut_facts q v Hq Hv) as ([Hc0 Hc1] & Hc2 & _).
  destruct (panel_facts q Hq) as (? & ? & _ & Hcols & _). pose proof (p_end_facts q v Hq Hv) as [He0 He1].
  pose proof (elems_below_sums q 0 Hq ltac:(lia) ltac:(lia)).
  unfold fits, col_sums_size in Hfit. rewrite Hsg in Hfit. cbn iota in Hfit.
  eexists (mk_pack_buf (pb_size b) _). split; [|split; [reflexivity|split]].
  - intros C. cbn [TeamMachine.do_event mbind option_bind]. unfold zero_sums.
    rewrite (proj2 (Z.leb_le 0 _)), (proj2 (Z.leb_le _ (pb_size b))) by lia. done.
  - intros _ j Hj. rewrite Hpc, zsum_nil by lia. rewrite load_i32_zero; [done|]. intros x Hx. cbn [pb_bytes].
    unfold fill. by rewrite (proj2 (Z.leb_le _ x)), (proj2 (Z.ltb_lt x _)) by lia.
  - intros x Hx. cbn [pb_bytes]. unfold fill. destruct (Z.leb_spec (p_sums q + 4 * p_cut q v) x); [|done].
    destruct (Z.ltb_spec x (p_sums q + 4 * p_cut q (v + 1))); [|done]. destruct Hx. right. lia.
Qed.

Lemma pack_step q v ta tb b :
  panel_ok q -> 0 <= v < ic -> fits q (pb_size b) -> p_cut q v < p_cut q (v + 1) ->
  sums_in (pb_bytes b) q (p_cut q v) (p_cut q (v + 1)) (p_pc q) ->
  exists b', (forall C, do_event g ta tb (Some b) C (pack_ev q v) = Some (ta, tb, Some b', C)) /\
    pb_size b' = pb_size b /\ packed (pb_bytes b') q (p_cut q v) (p_cut q (v + 1)) /\
    forall x, ~ touched q v x -> pb_bytes b' x = pb_bytes b x.
Proof using Hl HK Hic.
  intros Hq Hv Hfit Hlt Hs. pose proof Hl as [].
  destruct (p_cut_facts q v Hq Hv) as ([Hc0 Hc1] & Hc2 & Hd & Hend).
  destruct (panel_facts q Hq) as (? & ? & _ & Hcols & _). pose proof (p_end_facts q v Hq Hv) as [He0 He1].
  pose proof (elems_below_sums q (p_end q v) Hq ltac:(lia) He1) as He2.
  assert (p_cut q v * p_rows q + round_up (p_cut q (v + 1) - p_cut q v) 16 * round_up (p_kc q) 4
          = p_end q v * p_rows q) as Ee by (unfold p_end, p_rows; lia).
  assert (p_sums q + 4 * p_cut q v + 4 * round_up (p_cut q (v + 1) - p_cut q v) 16
          = p_sums q + 4 * p_end q v) as Es by (unfold p_end; lia).
  pose proof Hq as (? & ? & ? & ?).
  set (sum := sum_address (col_sums signed (InPackB (p_sums q + 4 * p_cut q v)))).
  assert (sum = if signed then Some (p_sums q + 4 * p_cut q v) else None) as Esum
    by (subst sum; unfold col_sums; by destruct signed).
  assert (forall s, sum = Some s -> s = p_sums q + 4 * p_cut q v) as Hsum
    by (intros s'; rewrite Esum; destruct signed; [by intros [= <-]|done]).
  eexists (mk_pack_buf (pb_size b) _). split; [|split; [reflexivity|split; [split|]]].
  - intros C. cbn [TeamMachine.do_event pack_ev mbind option_bind]. fold sum. unfold pack_into.
    rewrite Ee. unfold fits, col_sums_size in Hfit.
    rewrite (proj2 (Z.leb_le 0 (p_cut q v * p_rows q))) by nia.
    rewrite (proj2 (Z.leb_le _ (pb_size b))) by (destruct signed; lia).
    assert (match sum with Some s => (0 <=? s) && (s + 4 * round_up (p_cut q (v + 1) - p_cut q v) 16 <=? pb_size b)
            | None => true end = true) as ->; [|reflexivity].
    rewrite Esum. destruct signed; [|done].
    rewrite (proj2 (Z.leb_le 0 _)), (proj2 (Z.leb_le _ (pb_size b))) by nia. done.
  - intros kr j Hkr Hj. cbn [pb_bytes]. replace j with (p_cut q v + (j - p_cut q v)) at 1 by lia.
    rewrite (panel_pos_part NR _ _ (p_cut q (v + 1) - p_cut q v))
      by (done || lia || (destruct Hend; [left; lia|by right])).
    fold (p_rows q).
    rewrite (pl_elem _ _ _ _ _ (kl_packb _ _ _ _ _ _ _ _ _ _ HK)); [|done|lia|intros s' ->%Hsum; lia].
    f_equal. lia.
  - intros Hsg j Hj. cbn [pb_bytes]. rewrite Esum, Hsg.
    replace (p_sums q + 4 * j) with (p_sums q + 4 * p_cut q v + 4 * (j - p_cut q v)) by lia.
    rewrite (pl_sum _ _ _ _ _ (kl_packb _ _ _ _ _ _ _ _ _ _ HK)) by lia.
    replace (p_sums q + 4 * p_cut q v + 4 * (j - p_cut q v)) with (p_sums q + 4 * j) by lia.
    rewrite (Hs Hsg j Hj), to_i32_add_l, <- Z.mul_add_distr_l.
    rewrite (zsum_split _ 0 (p_pc q)) by lia. do 3 f_equal. rewrite Z.add_0_l.
    apply zsum_shift. intros x Hx. f_equal. lia.
  - intros x Hx. cbn [pb_bytes]. apply (pl_frame _ _ _ _ _ (kl_packb _ _ _ _ _ _ _ _ _ _ HK)); [lia|lia|..].
    + rewrite Ee. destruct (Z.lt_ge_cases x (p_cut q v * p_rows q)); [by left|right].
      destruct (Z.lt_ge_cases x (p_end q v * p_rows q)); [|lia]. destruct Hx. by left.
    + intros s' ->%Hsum. rewrite Es. destruct (Z.lt_ge_cases x (p_sums q + 4 * p_cut q v)); [by left|right].
      destruct (Z.lt_ge_cases x (p_sums q + 4 * p_end q v)); [|lia]. destruct Hx. by right.
Qed.

(** One action of a part. *)
Lemma stage_step q v e r ta tb b :
  panel_ok q -> 0 <= v < ic -> fits q (pb_size b) -> stage q v (e :: r) (pb_bytes b) ->
  p_cut q v < p_cut q (v + 1) /\ kernel_of e = None /\
  exists b', (forall C, do_event g ta tb (Some b) C e = Some (ta, tb, Some b', C)) /\
    pb_size b' = pb_size b /\ stage q v r (pb_bytes b') /\
    forall x, ~ touched q v x -> pb_bytes b' x = pb_bytes b x.
Proof using Hl HK Hic.
  intros Hq Hv Hfit [[E Hs]|[([= -> ->] & Hlt & Hs)|[E _]]]; [| |done].
  - unfold part in E. destruct (Z.ltb_spec (p_cut q v) (p_cut q (v + 1))) as [Hlt|]; [|done].
    destruct (signed && (p_pc q =? 0)) eqn:Ez; cbn [app] in E; injection E as -> ->.
    + apply andb_true_iff in Ez as [Hsg Hpc%Z.eqb_eq].
      destruct (zero_step q v ta tb b Hq Hv Hsg Hfit Hpc Hlt) as (b' & Hdo & Hsz & Hs' & Hfr).
      split; [done|]. split; [done|]. exists b'. split_and!; try done. right; left. done.
    + assert (sums_in (pb_bytes b) q (p_cut q v) (p_cut q (v + 1)) (p_pc q)) as Hs'.
      { intros Hsg. rewrite Hsg in Ez. apply Hs; [|done]. by apply Z.eqb_neq. }
      destruct (pack_step q v ta tb b Hq Hv Hfit Hlt Hs') as (b' & Hdo & Hsz & Hp & Hfr).
      split; [done|]. split; [done|]. exists b'. split_and!; try done. right; right. done.
  - destruct (pack_step q v ta tb b Hq Hv Hfit Hlt Hs) as (b' & Hdo & Hsz & Hp & Hfr).
    split; [done|]. split; [done|]. exists b'. split_and!; try done. right; right. done.
Qed.

(** ** The phases of a group *)

Context (kern : Z -> panel -> list event) (size : Z).

(** A call that finds its operands when the buffer holds the panel [q]. *)
Definition packed_call (q : panel) (ta : a_block) (pc : Z) (c : kernel_call) : Prop :=
  A_ok lcntx rs_a cs_a K_gemm A K ta pc c /\
  forall tb b, fits q (pb_size b) -> packed (pb_bytes b) q 0 (p_nc q) ->
    B_ok signed lcntx K_gemm Bmem k B0 tb (Some b) pc c.

Hypothesis Hkern : forall v q ta, 0 <= v < ic -> panel_ok q -> kseq (packed_call q) ta (kern v q).

(** The trace of the thread [v] over the panels [qs], cut at the barriers: the chief
    sends the buffer before the first barrier, and frees it after the last. *)
Definition send (v : Z) (qs : list panel) : list event :=
  match qs with
  | q :: _ => if v =? 0 then [EvSend g (pack_b_size signed (p_nc q) (p_kc q))] else []
  | [] => []
  end.

Definition free (v : Z) : list event := if v =? 0 then [EvFree g] else [].

Fixpoint rest (v : Z) (qs : list panel) : list (list event) :=
  match qs with
  | [] => [free v]
  | q :: qs => part v q :: (kern v q ++ send v qs) :: rest v qs
  end.

(** The k blocks of a panel follow each other. *)
Fixpoint linked (prev : option panel) (qs : list panel) : Prop :=
  match qs with
  | [] => True
  | q :: qs =>
      (p_pc q = 0 \/ exists q0, prev = Some q0 /\ p_jc q = p_jc q0 /\ p_nc q = p_nc q0 /\
                                p_pc q = p_pc q0 + p_kc q0) /\ linked (Some q) qs
  end.

(** The phase after a barrier: kernels on the panel packed last, with the panels to
    come; packing; or the end. *)
Inductive phase :=
  | PKernels (prev : option panel) (qs : list panel)
  | PPacking (q : panel) (qs : list panel)
  | PFree.

Definition fit_panel (q : panel) : Prop := panel_ok q /\ fits q size.

Definition phase_ok (ph : phase) : Prop :=
  match ph with
  | PKernels prev qs =>
      match prev with
      | Some q => fit_panel q
      | None => forall q qs', qs = q :: qs' -> pack_b_size signed (p_nc q) (p_kc q) = size
      end /\ Forall fit_panel qs /\ linked prev qs
  | PPacking q qs => fit_panel q /\ Forall fit_panel qs /\ linked (Some q) qs
  | PFree => True
  end.

Definition call_in (prev : option panel) (ta : a_block) (pc : Z) (c : kernel_call) : Prop :=
  exists q, prev = Some q /\ packed_call q ta pc c.

Definition thread_in (ph : phase) (v : Z) (th : thread) (buf : option pack_buf) : Prop :=
  match ph with
  | PKernels prev qs => exists r s, th_segs th = (r ++ s) :: rest v qs /\
      kseq (call_in prev) (th_a th) r /\ (prev = None -> r = []) /\ (s = [] \/ s = send v qs)
  | PPacking q qs => exists r b, th_segs th = r :: (kern v q ++ send v qs) :: rest v qs /\
      buf = Some b /\ stage q v r (pb_bytes b)
  | PFree => th_segs th = [free v] \/ th_segs th = [[]]
  end.

Definition buffer_in (ph : phase) (buf : option pack_buf) (chief : thread) : Prop :=
  match ph, buf with
  | PKernels prev qs, Some b =>
      pb_size b = size /\ forall q, prev = Some q -> packed (pb_bytes b) q 0 (p_nc q)
  | PKernels prev qs, None => prev = None /\ th_segs chief = send 0 qs :: rest 0 qs
  | PPacking _ _, Some b => pb_size b = size
  | PPacking _ _, None => False
  | PFree, _ => True
  end.

(** The threads of the group, [ths v] with the ic work id [v], and their buffer. *)
Record group_inv (ph : phase) (buf : option pack_buf) (ths : Z -> thread) : Prop := mk_group_inv {
  gi_phase : phase_ok ph;
  gi_buffer : buffer_in ph buf (ths 0);
  gi_group : forall v, 0 <= v < ic -> th_group (ths v) = g;
  gi_thread : forall v, 0 <= v < ic -> thread_in ph v (ths v) buf;
}.

Definition set_thread (ths : Z -> thread) (v : Z) (th : thread) (x : Z) : thread :=
  if x =? v then th else ths x.

Lemma set_thread_eq ths v th : set_thread ths v th v = th.
Proof using. unfold set_thread. by rewrite Z.eqb_refl. Qed.

Lemma set_thread_ne ths v th x : x <> v -> set_thread ths v th x = ths x.
Proof using. intros. unfold set_thread. by rewrite (proj2 (Z.eqb_neq x v)). Qed.

Lemma group_set ph buf buf' ths v ta tb segs :
  group_inv ph buf ths -> thread_in ph v (mk_thread g ta tb segs) buf' ->
  buffer_in ph buf' (set_thread ths v (mk_thread g ta tb segs) 0) ->
  (forall v', 0 <= v' < ic -> v' <> v -> thread_in ph v' (ths v') buf -> thread_in ph v' (ths v') buf') ->
  group_inv ph buf' (set_thread ths v (mk_thread g ta tb segs)).
Proof using.
  intros [Hp _ Hg Ht] Hv Hb Hother. split; [done|done| |].
  - intros v' Hv'. unfold set_thread. destruct (v' =? v); [done|by apply Hg].
  - intros v' Hv'. unfold set_thread. destruct (Z.eqb_spec v' v) as [->|]; [done|]. apply Hother; auto.
Qed.

Local Abbreviation call_reads := (call_reads signed lcntx K_gemm A rs_a cs_a Bmem K k B0).

(** An action of a thread is defined, finds its operands, and keeps the invariant. *)
Definition action_ok (ph : phase) (buf : option pack_buf) (ths : Z -> thread) (v : Z) (e : event)
    (segs : list (list event)) : Prop :=
  exists ta tb buf',
    (forall C, exists C', do_event g (th_a (ths v)) (th_b (ths v)) buf C e = Some (ta, tb, buf', C')) /\
    (forall pc c, e = EvKernel pc c -> call_reads (th_a (ths v)) (th_b (ths v)) buf pc c) /\
    group_inv ph buf' (set_thread ths v (mk_thread g ta tb segs)).

Lemma send_action prev qs buf ths v e l ss :
  group_inv (PKernels prev qs) buf ths -> 0 <= v < ic -> th_segs (ths v) = (e :: l) :: ss ->
  e :: l = send v qs -> ss = rest v qs -> action_ok (PKernels prev qs) buf ths v e (l :: ss).
Proof using.
  clear Hkern. intros HI Hv Hs Es ->. destruct qs as [|q qs]; [done|]. cbn in Es.
  destruct (Z.eqb_spec v 0) as [->|]; [|done]. injection Es as -> ->.
  exists (th_a (ths 0)), (th_b (ths 0)), (alloc fresh buf (pack_b_size signed (p_nc q) (p_kc q))).
  split; [|split; [done|]].
  { intros C. eexists. cbn. by rewrite Z.eqb_refl. }
  pose proof (gi_phase _ _ _ HI) as [Hp _]. pose proof (gi_buffer _ _ _ HI) as Hb.
  apply (group_set _ buf); [done| | |done].
  - exists [], []. split_and!; try done. by left.
  - rewrite set_thread_eq. destruct buf as [b|]; [done|]. destruct Hb as [-> _]. cbn. split; [|done].
    by apply (Hp q qs).
Qed.

Lemma kernels_action prev qs buf ths v e l ss r s :
  group_inv (PKernels prev qs) buf ths -> 0 <= v < ic -> th_segs (ths v) = (e :: l) :: ss ->
  l = r ++ s -> ss = rest v qs -> kseq (call_in prev) (th_a (ths v)) (e :: r) -> prev <> None ->
  s = [] \/ s = send v qs -> action_ok (PKernels prev qs) buf ths v e (l :: ss).
Proof using.
  clear Hkern. intros HI Hv Hs -> -> Hseq Hne Hsend. pose proof (gi_phase _ _ _ HI) as [Hp _].
  pose proof (gi_buffer _ _ _ HI) as Hb. destruct prev as [q|]; [|done]. destruct buf as [b|]; [|by destruct Hb].
  assert (exists ta, (forall C, exists C', do_event g (th_a (ths v)) (th_b (ths v)) (Some b) C e
      = Some (ta, th_b (ths v), Some b, C')) /\ kseq (call_in (Some q)) ta r /\
    forall pc c, e = EvKernel pc c -> call_reads (th_a (ths v)) (th_b (ths v)) (Some b) pc c)
    as (ta & Hdef & Hr & Hread).
  { destruct e; try done; cbn in Hseq.
    - eexists. split; [intros C; by eexists|done].
    - destruct Hseq as [(q' & [= <-] & HA & HB) Hr]. exists (th_a (ths v)).
      assert (call_reads (th_a (ths v)) (th_b (ths v)) (Some b) pc c) as Hread.
      { split; [done|]. destruct Hb as [Hsz Hb]. apply HB; [rewrite Hsz; apply Hp|by apply Hb]. }
      split_and!; [intros C; by apply (call_reads_defined _ _ _ _ rs_a cs_a _ _ _ k B0)|done|by intros pc' c' [= <- <-]]. }
  exists ta, (th_b (ths v)), (Some b). split; [done|]. split; [done|].
  apply (group_set _ (Some b)); [done| |done|done].
  exists r, s. by split_and!.
Qed.

Lemma packing_action q qs buf ths v e l ss :
  group_inv (PPacking q qs) buf ths -> 0 <= v < ic -> th_segs (ths v) = (e :: l) :: ss ->
  action_ok (PPacking q qs) buf ths v e (l :: ss).
Proof using Hl HK Hic.
  clear Hkern. intros HI Hv Hs. pose proof (gi_phase _ _ _ HI) as ([Hq Hf] & _).
  pose proof (gi_buffer _ _ _ HI) as Hb. destruct (gi_thread _ _ _ HI v Hv) as (r & b & Es & -> & Hst).
  cbn in Hb. rewrite Hs in Es. injection Es as <- ->. rewrite <- Hb in Hf.
  destruct (stage_step q v e l (th_a (ths v)) (th_b (ths v)) b Hq Hv Hf Hst)
    as (Hlt & Hke & b2 & Hdo & Hsz2 & Hst2 & Hfr).
  exists (th_a (ths v)), (th_b (ths v)), (Some b2). split; [intros C; eauto|].
  split; [by intros pc c ->|]. apply (group_set _ (Some b)); [done| |by cbn; rewrite Hsz2|].
  - exists l, b2. by split_and!.
  - intros v' Hv' Hne (r' & b0 & Es' & [= <-] & Hst'). exists r', b2. split_and!; [done|done|].
    by apply (stage_frame q v' v r' (pb_bytes b)).
Qed.

Lemma group_event ph buf ths v e l ss :
  group_inv ph buf ths -> 0 <= v < ic -> th_segs (ths v) = (e :: l) :: ss ->
  action_ok ph buf ths v e (l :: ss).
Proof using Hl HK Hic.
  clear Hkern. intros HI Hv Hs. pose proof (gi_thread _ _ _ HI v Hv) as Ht.
  destruct ph as [prev qs|q qs|].
  - destruct Ht as (r & s & Es & Hr & Hnone & Hsend). rewrite Hs in Es. injection Es as Er Ess.
    destruct r as [|e' r].
    + cbn in Er. destruct Hsend as [->|Esend]; [done|]. apply send_action; congruence.
    + injection Er as <- ->. eapply kernels_action; try done. intros E. by specialize (Hnone E).
  - by apply packing_action.
  - destruct Ht as [Es|Es]; rewrite Hs in Es; [|done]. unfold free in Es.
    destruct (Z.eqb_spec v 0) as [->|]; [|done]. injection Es as -> -> ->.
    exists (th_a (ths 0)), (th_b (ths 0)), None. split; [|split; [done|]].
    + intros C. eexists. cbn. by rewrite Z.eqb_refl.
    + apply (group_set _ buf); [done|by right|done|done].
Qed.

(** ** Barriers *)

Lemma rest_cons v qs : exists s ss, rest v qs = s :: ss.
Proof using. destruct qs; cbn; eauto. Qed.

Lemma release_at th s ss : th_group th = g -> th_segs th = [] :: s :: ss ->
  release g th = mk_thread g (th_a th) (th_b th) (s :: ss).
Proof using. intros <- E. unfold release. by rewrite Z.eqb_refl, E. Qed.

(** Every column of a panel is one thread's. *)
Lemma packed_all q b :
  panel_ok q -> (forall v, 0 <= v < ic -> packed b q (p_cut q v) (p_cut q (v + 1))) -> packed b q 0 (p_nc q).
Proof using Hl Hic.
  clear HK Hkern. intros (_ & Hn & _ & _) Hall. pose proof Hl as [].
  assert (forall j, 0 <= j < p_nc q -> exists v, 0 <= v < ic /\ p_cut q v <= j < p_cut q (v + 1)) as Hv.
  { intros j Hj. apply (interval_exists (task_cut ic (p_nc q) NR false) ic); [lia| |].
    - intros. apply task_cut_mono; lia.
    - rewrite task_cut_first, task_cut_last by lia. done. }
  split.
  - intros kr j Hkr Hj. destruct (Hv j Hj) as (v & Hv' & Hjv). by apply (Hall v Hv').
  - intros Hsg j Hj. destruct (Hv j Hj) as (v & Hv' & Hjv). by apply (proj2 (Hall v Hv')).
Qed.

Lemma sums_carry b q0 q v :
  panel_ok q -> 0 <= v < ic -> p_jc q = p_jc q0 -> p_nc q = p_nc q0 -> p_pc q = p_pc q0 + p_kc q0 ->
  packed b q0 0 (p_nc q0) -> sums_in b q (p_cut q v) (p_cut q (v + 1)) (p_pc q).
Proof using Hl Hic.
  clear HK Hkern. intros Hq Hv Ej En Ep [_ Hs] Hsg j Hj.
  destruct (p_cut_facts q v Hq Hv) as ([H0 _] & H1 & _).
  specialize (Hs Hsg j ltac:(lia)). unfold p_sums in *. by rewrite En, Ej, Ep.
Qed.

Lemma group_release ph buf ths :
  group_inv ph buf ths -> (forall v, 0 <= v < ic -> waiting (ths v)) ->
  exists ph', group_inv ph' buf (fun v => release g (ths v)).
Proof using Hl Hic Hkern.
  clear HK. intros [Hp Hb Hg Ht] Hw. assert (0 <= 0 < ic) as H0 by lia.
  assert (forall v, 0 <= v < ic -> th_group (release g (ths v)) = g) as Hg'.
  { intros v Hv. unfold release. rewrite (Hg v Hv), Z.eqb_refl. done. }
  destruct ph as [prev qs|q qs|].
  - assert (forall v, 0 <= v < ic -> th_segs (ths v) = [] :: rest v qs) as Hs.
    { intros v Hv. destruct (Ht v Hv) as (r & s & E & _), (Hw v Hv) as (s' & ss & E'). congruence. }
    destruct qs as [|q qs].
    { exists PFree. split; [done|done|done|]. intros v Hv. left.
      by rewrite (release_at _ (free v) []) by (auto; by rewrite Hs). }
    destruct buf as [b|].
    2: { destruct Hb as [-> Hb]. rewrite (Hs 0 H0) in Hb. done. }
    destruct Hp as (Hprev & Hfit & Hlink). inversion Hfit as [|? ? Hfq Hfqs]; subst.
    destruct Hlink as [Hlink Hlinks]. exists (PPacking q qs). split; [done|apply Hb|done|].
    intros v Hv. exists (part v q), b.
    rewrite (release_at _ (part v q) ((kern v q ++ send v qs) :: rest v qs)) by (auto; by rewrite Hs).
    split_and!; [done|done|]. left. split; [done|]. intros Hne.
    destruct Hlink as [|(q0 & -> & Ej & En & Ep)]; [done|]. destruct Hb as [_ Hb].
    apply (sums_carry _ q0); try done; [apply Hfq|by apply Hb].
  - destruct buf as [b|]; [|done]. destruct Hp as ([Hq Hf] & Hfit & Hlink).
    assert (forall v, 0 <= v < ic -> th_segs (ths v) = [] :: (kern v q ++ send v qs) :: rest v qs /\
      packed (pb_bytes b) q (p_cut q v) (p_cut q (v + 1))) as Hs.
    { intros v Hv. destruct (Ht v Hv) as (r & b' & E & [= <-] & Hst), (Hw v Hv) as (s' & ss & E').
      rewrite E in E'. injection E' as -> _ _. split; [done|]. by apply stage_done. }
    exists (PKernels (Some q) qs). split; [done| |done|].
    + split; [done|]. intros q' [= <-]. apply packed_all; [done|]. intros v Hv. by apply Hs.
    + intros v Hv. exists (kern v q), (send v qs).
      rewrite (release_at _ (kern v q ++ send v qs) (rest v qs)) by (auto; by apply Hs).
      split_and!; [done| |done|by right]. eapply kseq_weaken; [|by apply Hkern].
      intros ta pc c Hc. by exists q.
  - destruct (Ht 0 H0) as [E|E], (Hw 0 H0) as (s & ss & E'); congruence.
Qed.

(** At the end of a phase the threads can pass the barrier, or are done. *)
Lemma group_end ph buf ths :
  group_inv ph buf ths -> (forall v, 0 <= v < ic -> exists ss, th_segs (ths v) = [] :: ss) ->
  (forall v, 0 <= v < ic -> waiting (ths v)) \/ (forall v, 0 <= v < ic -> finished (ths v)).
Proof using.
  clear HK Hkern. intros [_ _ _ Ht] Hend. destruct ph as [prev qs|q qs|].
  - left. intros v Hv. destruct (Ht v Hv) as (r & s & E & _), (Hend v Hv) as (ss & E').
    destruct (rest_cons v qs) as (s2 & ss2 & Er). exists s2, ss2. congruence.
  - left. intros v Hv. destruct (Ht v Hv) as (r & b & E & _), (Hend v Hv) as (ss & E').
    exists (kern v q ++ send v qs), (rest v qs). congruence.
  - right. intros v Hv. destruct (Ht v Hv) as [E|E], (Hend v Hv) as (ss & E'); unfold finished; congruence.
Qed.

(** The start of a group over the panels [qs]. *)
Lemma group_start qs ths :
  (forall q qs', qs = q :: qs' -> pack_b_size signed (p_nc q) (p_kc q) = size) ->
  Forall fit_panel qs -> linked None qs ->
  (forall v, 0 <= v < ic -> th_group (ths v) = g /\ th_segs (ths v) = send v qs :: rest v qs) ->
  group_inv (PKernels None qs) None ths.
Proof using Hic.
  clear HK Hkern Hl. intros Hsz Hfit Hlink Hs. split; [done| |by intros; apply Hs|].
  - split; [done|]. apply Hs. lia.
  - intros v Hv. exists [], (send v qs). split_and!; try done; [by apply Hs|by right].
Qed.

Lemma group_inv_ext ph buf ths ths' :
  (forall v, 0 <= v < ic -> ths v = ths' v) -> group_inv ph buf ths -> group_inv ph buf ths'.
Proof using Hic.
  clear HK Hkern Hl. intros E [Hp Hb Hg Ht]. rewrite (E 0) in Hb by lia.
  split; [done|done| |]; intros v Hv; rewrite <- E by done; auto.
Qed.
End group.

Arguments gi_group {signed lcntx A rs_a cs_a Bmem rs_b cs_b K n k ic g kern size ph buf ths}.
Arguments gi_thread {signed lcntx A rs_a cs_a Bmem rs_b cs_b K n k ic g kern size ph buf ths}.
Arguments group_end {signed lcntx A rs_a cs_a Bmem rs_b cs_b K n k ic g kern size ph buf ths}.

(** ** The team *)

Section team.
Context (signed : bool) (lcntx : dlp_gemm_cntx_t).
Context (A : Z -> Z) (rs_a cs_a : Z) (Bmem : Z -> Z) (rs_b cs_b alpha : Z) (K : kernels) (fresh : Z -> Z).
Context (n k ic jc : Z) (kern : Z -> Z -> panel -> list event) (size : Z -> Z) (tids : list Z).

Local Abbreviation NC := (NC (blksz lcntx)).
Local Abbreviation KC := (KC (blksz lcntx)).
Local Abbreviation NR := (NR (blksz lcntx)).
Local Abbreviation B0 := (fun p j => load_i8 Bmem (rs_b * p + cs_b * j)).
Local Abbreviation do_event := (do_event signed lcntx K_gemm A Bmem K fresh).
Local Abbreviation group_inv g :=
  (group_inv signed lcntx A rs_a cs_a Bmem rs_b cs_b K n k ic g (kern g) (size g)).

Hypothesis Hl : layout_ok n k NR 16 NC KC 4.
Hypothesis HK : kernel_laws signed lcntx A rs_a cs_a Bmem rs_b cs_b alpha K.
Hypothesis Hic : 1 <= ic.
Hypothesis Hkern : forall g v q ta, 0 <= g < jc -> 0 <= v < ic -> panel_ok n k q ->
  kseq (packed_call signed lcntx A rs_a cs_a Bmem rs_b cs_b K k q) ta (kern g v q).
Hypothesis Htids : tids ≡ₚ seqZ 0 (ic * jc).

(** The threads in the order of [tids]; thread [g * ic + v] is the [v]-th of group [g]. *)
Definition packed_team (st : team_state) : Prop := exists ths : Z -> thread,
  st_threads st = ths <$> tids /\
  forall g, 0 <= g < jc -> exists ph, group_inv g ph (st_shared st g) (fun v => ths (g * ic + v)).

Lemma tids_grid id : id ∈ tids <-> exists g v, 0 <= g < jc /\ 0 <= v < ic /\ id = g * ic + v.
Proof using Hic Htids.
  clear HK Hkern Hl. rewrite Htids, elem_of_seqZ. split.
  - intros Hid. destruct (Z.le_gt_cases jc 0); [nia|].
    destruct (grid_bounds ic jc id Hic ltac:(lia) ltac:(lia)) as [? ?].
    exists (id / ic), (id mod ic). split_and!; try lia. pose proof (Z.div_mod id ic). lia.
  - intros (g & v & ? & ? & ->). nia.
Qed.

Lemma fmap_set_thread (ths : Z -> thread) t id x :
  tids !! t = Some id -> <[t := x]> (ths <$> tids) = set_thread ths id x <$> tids.
Proof using Htids.
  clear HK Hkern Hl. intros Ht. apply list_eq. intros t'.
  assert (NoDup tids) as Hnd by (rewrite Htids; apply NoDup_seqZ).
  rewrite list_lookup_fmap. destruct (decide (t' = t)) as [->|Hne].
  - rewrite list_lookup_insert_eq by (rewrite length_fmap; by eapply lookup_lt_Some).
    rewrite Ht. cbn. by rewrite set_thread_eq.
  - rewrite list_lookup_insert_ne, list_lookup_fmap by done.
    destruct (tids !! t') as [id'|] eqn:Ht'; [|done]. cbn. rewrite set_thread_ne; [done|].
    intros ->. apply Hne. by eapply NoDup_lookup.
Qed.

(** The thread of a team index, with its group. *)
Lemma packed_lookup st t th :
  packed_team st -> st_threads st !! t = Some th ->
  exists ths g v ph, 0 <= g < jc /\ 0 <= v < ic /\ tids !! t = Some (g * ic + v) /\ th = ths (g * ic + v) /\
    st_threads st = ths <$> tids /\ group_inv g ph (st_shared st g) (fun v => ths (g * ic + v)) /\
    forall g, 0 <= g < jc -> exists ph, group_inv g ph (st_shared st g) (fun v => ths (g * ic + v)).
Proof using Hic Htids.
  clear HK Hkern Hl. intros (ths & Eths & HI) Ht. pose proof Ht as Ht'. rewrite Eths, list_lookup_fmap in Ht'.
  apply fmap_Some in Ht' as (id & Hid & ->).
  assert (id ∈ tids) as (g & v & Hg & Hv & ->)%tids_grid by by eapply list_elem_of_lookup_2.
  destruct (HI g Hg) as [ph Hph]. by exists ths, g, v, ph.
Qed.

Lemma packed_action st t th e l ss :
  packed_team st -> st_threads st !! t = Some th -> th_segs th = (e :: l) :: ss ->
  exists ta tb buf,
    (forall C, exists C', do_event (th_group th) (th_a th) (th_b th) (st_shared st (th_group th)) C e
      = Some (ta, tb, buf, C')) /\
    (forall pc c, e = EvKernel pc c ->
      call_reads signed lcntx K_gemm A rs_a cs_a Bmem K k B0 (th_a th) (th_b th) (st_shared st (th_group th)) pc c) /\
    forall C, packed_team (mk_team_state (<[t := mk_thread (th_group th) ta tb (l :: ss)]> (st_threads st))
                (set_shared (st_shared st) (th_group th) buf) C).
Proof using Hl HK Hic Htids.
  intros HI Ht Hs. destruct (packed_lookup st t th HI Ht) as (ths & g & v & ph & Hg & Hv & Htid & -> & Eths & Hph & HIg).
  rewrite (gi_group Hph v Hv).
  destruct (group_event _ _ _ _ _ _ _ _ alpha K fresh n k ic g Hl HK Hic _ _ _ _ _ _ _ _ _ Hph Hv Hs)
    as (ta & tb & buf & Hdef & Hread & Hinv).
  exists ta, tb, buf. split; [done|]. split; [done|]. intros C.
  exists (set_thread ths (g * ic + v) (mk_thread g ta tb (l :: ss))). cbn [st_threads st_shared]. split.
  { by rewrite Eths, (fmap_set_thread _ _ (g * ic + v)). }
  intros g' Hg'. unfold set_shared. destruct (Z.eqb_spec g' g) as [->|Hne].
  - exists ph. eapply group_inv_ext; [done| |exact Hinv]. intros v' Hv'. unfold set_thread.
    destruct (Z.eqb_spec v' v) as [->|]; [by rewrite Z.eqb_refl|]. by rewrite (proj2 (Z.eqb_neq _ _)) by lia.
  - destruct (HIg g' Hg') as [ph' Hph']. exists ph'. eapply group_inv_ext; [done| |exact Hph'].
    intros v' Hv'. cbn. rewrite set_thread_ne; [done|]. nia.
Qed.

Lemma packed_barrier st g :
  packed_team st -> (exists th, th ∈ st_threads st /\ th_group th = g) ->
  (forall th, th ∈ st_threads st -> th_group th = g -> waiting th) ->
  packed_team (mk_team_state (release g <$> st_threads st) (st_shared st) (st_C st)).
Proof using Hl Hic Hkern Htids.
  clear HK. intros (ths & Eths & HI) (th & Hth & Hgr) Hw.
  assert (forall g v, 0 <= g < jc -> 0 <= v < ic -> ths (g * ic + v) ∈ st_threads st /\
    th_group (ths (g * ic + v)) = g) as Hin.
  { intros g' v Hg' Hv. split.
    - rewrite Eths. apply list_elem_of_fmap_2, tids_grid. eauto.
    - destruct (HI g' Hg') as [ph Hph]. by apply (gi_group Hph v). }
  exists (fun id => release g (ths id)). cbn [st_threads st_shared]. split.
  { by rewrite Eths, <- list_fmap_compose. }
  intros g' Hg'. destruct (HI g' Hg') as [ph Hph]. destruct (decide (g' = g)) as [->|Hne].
  - eapply group_release; [done|done|by intros; apply Hkern|exact Hph|]. intros v Hv. by apply Hw; apply Hin.
  - exists ph. eapply group_inv_ext; [done| |exact Hph]. intros v Hv. cbn. unfold release.
    destruct (Hin g' v Hg' Hv) as [_ ->]. by rewrite (proj2 (Z.eqb_neq g' g)).
Qed.

Lemma packed_team_invariant :
  team_invariant signed lcntx K_gemm A Bmem K fresh k (fun i p => A (rs_a * i + cs_a * p)) B0 packed_team.
Proof using Hl HK Hic Hkern Htids.
  split.
  - intros st st' HI [t th e l ss ta tb sh C Ht Hs Hdo|g Hg Hw]; [|by apply packed_barrier].
    destruct (packed_action st t th e l ss HI Ht Hs) as (ta' & tb' & buf & Hdef & _ & Hinv).
    destruct (Hdef (st_C st)) as [C' E]. rewrite E in Hdo. simplify_eq. apply Hinv.
  - intros st t th e l ss HI Ht Hs.
    destruct (packed_action st t th e l ss HI Ht Hs) as (ta' & tb' & buf & Hdef & _).
    destruct (Hdef (st_C st)) as [C' E]. eauto.
  - intros st t th pc c l ss a b s HI Ht Hs Ha Hb Hsm.
    destruct (packed_action st t th _ l ss HI Ht Hs) as (ta' & tb' & buf & _ & Hread & _).
    by eapply call_reads_views; [by apply Hread| | |].
  - intros st (ths & Eths & HI) Hend Hnot.
    destruct (decide (Exists (fun id => at_finish (ths id) = false) tids)) as [Hex|Hno].
    2: { destruct Hnot. intros th. rewrite Eths. intros (id & -> & Hid)%list_elem_of_fmap.
      destruct (at_finish (ths id)) eqn:Ef; [|destruct Hno; apply Exists_exists; exists id; split; [by apply list_elem_of_In|done]].
      unfold at_finish in Ef. unfold finished. destruct (th_segs (ths id)) as [|[|] [|]]; done. }
    apply Exists_exists in Hex as (id & (g & v & Hg & Hv & ->)%list_elem_of_In%tids_grid & Hf).
    assert (forall g v, 0 <= g < jc -> 0 <= v < ic -> ths (g * ic + v) ∈ st_threads st) as Hin.
    { intros g' v' Hg' Hv'. rewrite Eths. apply list_elem_of_fmap_2, tids_grid. eauto. }
    destruct (HI g Hg) as [ph Hph].
    destruct (group_end Hph) as [Hw|Hfin].
    { intros v' Hv'. by apply Hend, Hin. }
    2: { exfalso. specialize (Hfin v Hv). cbn in Hfin. unfold finished in Hfin. unfold at_finish in Hf.
         by rewrite Hfin in Hf. }
    exists g. split.
    { exists (ths (g * ic + v)). split; [by apply Hin|]. by apply (gi_group Hph v). }
    intros th. rewrite Eths. intros (id & -> & (g' & v' & Hg' & Hv' & ->)%tids_grid)%list_elem_of_fmap Egr.
    destruct (HI g' Hg') as [ph' Hph']. rewrite (gi_group Hph' v' Hv') in Egr.
    subst g'. by apply Hw.
  - intros st th (ths & Eths & HI). rewrite Eths.
    intros (id & -> & (g & v & Hg & Hv & ->)%tids_grid)%list_elem_of_fmap. destruct (HI g Hg) as [ph Hph].
    pose proof (gi_thread Hph v Hv) as Ht.
    destruct ph as [prev qs|q qs|]; [destruct Ht as (r & s & -> & _)|destruct Ht as (r & b & -> & _)
      |destruct Ht as [-> | ->]]; done.
Qed.
End team.
