(* ===== verification/PackedDriver.v ===== *)
(** * The five loops when the team packs B

    The trace of a thread, cut at its barriers, is the one [PackedTeam] follows: per
    panel the packing, a barrier, the kernels; and its kernel calls are those of its
    rows in every panel. *)
From S2P Require Import Prelude Word DlpTypes ThreadUtils ThreadDecor ByteStore ReorderLayout Reorder.
From S2P Require Import GemmDriver TeamMachine TeamCorrect GemmCalls ReorderedTeam PackedTeam.
#[local] Open Scope Z_scope.

Section driver.
Context (signed : bool) (lcntx : dlp_gemm_cntx_t) (packb_strides : Z -> Z -> Z * Z).
Context (A : Z -> Z) (rs_a cs_a : Z) (Bmem : Z -> Z) (rs_b cs_b alpha : Z) (K : kernels).
Context (m n k ic jc : Z) (mtag_a : AOCL_DLP_MEMORY_TAG) (rs_c cs_c beta : Z) (ops : list PostOpTypes.dlp_gemm_post_op).

Local Abbreviation NC := (NC (blksz lcntx)).
Local Abbreviation KC := (KC (blksz lcntx)).
Local Abbreviation MC := (MC (blksz lcntx)).
Local Abbreviation NR := (NR (blksz lcntx)).
Local Abbreviation MR := (MR (blksz lcntx)).
Local Abbreviation panel_ok := (panel_ok n k).
Local Abbreviation p_kc := (p_kc lcntx k).
Local Abbreviation packed_call := (packed_call signed lcntx A rs_a cs_a Bmem rs_b cs_b K k).

Hypothesis Hl : layout_ok n k NR 16 NC KC 4.
Hypothesis HMC : 0 < MC.
Hypothesis HMR : 0 < MR.
Hypothesis HK : kernel_laws signed lcntx A rs_a cs_a Bmem rs_b cs_b alpha K.
Hypothesis HA : a_readable rs_a cs_a mtag_a.
Hypothesis Hic : 1 <= ic.
Hypothesis Hm : 0 <= m.

(** ** The kernels of a panel *)

Definition panel_operand (q : panel) (strides : Z * Z) : b_operand :=
  mk_b_operand (InPackB 0) strides.1 strides.2
    (col_sums signed (InPackB (pack_b_column_sum signed lcntx k (p_nc q)))) 0.

Local Abbreviation call_at := (call_at signed lcntx m k rs_a cs_a mtag_a rs_c cs_c beta ops).

Lemma packed_call_at q strides ta ic0 mc0 jr :
  panel_ok q -> 0 <= jr < p_nc q -> (NR | jr) ->
  packed_call q (packed_block rs_a cs_a mtag_a ta ic0 (p_pc q) mc0 (p_kc q)) (p_pc q)
    (call_at (p_jc q) (p_nc q) (p_pc q) ic0 mc0 (panel_operand q strides) jr).
Proof using Hl HMR HK HA.
  intros Hq Hjr Hd. pose proof Hl as []. pose proof (panel_facts signed lcntx n k Hl q Hq) as
    (Hkc & Hrows & _ & Hcols & [t Hc16] & Hsums & Hrows').
  split; [by eapply call_at_A_ok|]. intros tb b Hfit [He Hs]. unfold fits in Hfit.
  set (nr0 := Z.min (p_nc q - jr) NR).
  assert (jr + nr0 = p_nc q \/ (NR | nr0)) as Hend.
  { subst nr0. destruct (Z.min_spec (p_nc q - jr) NR) as [[_ ->]|[_ ->]]; [left; lia|by right]. }
  assert (jr + dlp_reorder_round_up nr0 16 <= p_cols q) as Hext.
  { assert (16 | jr) by by apply (Z.divide_trans _ NR). rewrite <- round_up_add by (try lia; done).
    apply round_up_least; try lia. by exists t. }
  assert (0 <= dlp_reorder_round_up nr0 16) by (pose proof (round_up_bounds nr0 16); lia).
  assert ((jr + dlp_reorder_round_up nr0 16) * p_rows lcntx k q <= p_sums signed lcntx k q) as Hbytes
    by (rewrite Hsums; nia).
  assert (0 <= p_sums signed lcntx k q) as Hs0 by nia.
  assert (0 <= col_sums_size signed (p_cols q)) by (unfold col_sums_size; destruct signed; lia).
  unfold GemmCalls.call_at.
  destruct (a_operand _ _ _ _ _ _ _ _ _ _) as [[[[pre a_use] rs_a_use] cs_a_use] ps].
  eexists _, (fun j => if signed then load_i32 (pb_bytes b) (p_sums signed lcntx k q + 4 * (jr + j)) else 0).
  split.
  - unfold b_view, in_buf.
    cbn [kc_b kc_n0 kc_k0 tile_call panel_operand b_use ptr_add b_extent]. fold nr0 (p_kc q).
    change (dlp_make_multiple_of_n (p_kc q) 4) with (p_rows lcntx k q).
    change (dlp_reorder_round_up (p_kc q) 4) with (p_rows lcntx k q).
    rewrite (proj2 (Z.leb_le 0 (0 + _))), (proj2 (Z.leb_le 0 (_ * _))), (proj2 (Z.leb_le _ (pb_size b))) by nia.
    reflexivity.
  - unfold sum_view, in_buf, sum_at.
    cbn [b_col_sum_vec b_col_sum_index b_sum_offset kc_n0 tile_call panel_operand col_sum_vec col_sum_index].
    fold (p_sums signed lcntx k q) nr0. unfold col_sums, col_sums_size in *.
    destruct signed; [|done].
    rewrite (proj2 (Z.leb_le 0 (p_sums true lcntx k q))), (proj2 (Z.leb_le 0 (4 * _))),
      (proj2 (Z.leb_le _ (pb_size b))) by lia. reflexivity.
  - cbn [kc_k0 kc_n0 tile_call post_op_c_j]. fold nr0 (p_kc q). intros kr j Hkr Hj.
    replace (p_jc q + jr + j) with (p_jc q + (jr + j)) by lia. rewrite <- (He kr (jr + j)) by lia.
    f_equal. rewrite (panel_pos_part NR _ jr nr0) by (done || lia). done.
  - intros j Hsg Hlast Hj. cbn [kc_k0 kc_n0 tile_call post_op_c_j] in *. fold (p_kc q) in Hlast. fold nr0 in Hj.
    rewrite (Hs Hsg (jr + j)) by lia. rewrite Hlast, Hsg, to_i32_idemp. do 2 f_equal.
    apply zsum_ext. intros x _. f_equal. lia.
Qed.

(** The thread [v] of a group: its rows, the strides it has after packing, its kernels. *)
Definition row_start (v : Z) : Z := task_cut ic m MR false v.

Definition part_strides (v : Z) (q : panel) : Z * Z :=
  (pack_b_part signed lcntx packb_strides k rs_b cs_b (mk_task_id v ic v) (p_jc q) (p_nc q) (p_pc q) (p_kc q)).2.

Definition kern (v : Z) (q : panel) : list event :=
  default [] (for_upto (loop_fuel (row_start v) (row_start (v + 1))) (row_start v) (row_start (v + 1)) MC
    (ic_body signed lcntx m k rs_a cs_a mtag_a rs_c cs_c DLP_S32 ops (row_start v) (row_start (v + 1)) (p_jc q) (p_nc q) (p_pc q)
       (p_kc q) (if p_pc q =? 0 then beta else 1) (panel_operand q (part_strides v q)) (InC (p_jc q)) rs_c)).

Lemma kern_ok v q :
  0 <= v < ic -> panel_ok q ->
  for_upto (loop_fuel (row_start v) (row_start (v + 1))) (row_start v) (row_start (v + 1)) MC
    (ic_body signed lcntx m k rs_a cs_a mtag_a rs_c cs_c DLP_S32 ops (row_start v) (row_start (v + 1)) (p_jc q) (p_nc q) (p_pc q)
       (p_kc q) (if p_pc q =? 0 then beta else 1) (panel_operand q (part_strides v q)) (InC (p_jc q)) rs_c)
    = Some (kern v q) /\
  trace_ok (fun ta pc c => call_ok m n k rs_c beta ops pc c /\ packed_call q ta pc c)
    (fun ij => if decide (row_start v <= ij.1 < row_start (v + 1) /\ p_jc q <= ij.2 < p_jc q + p_nc q)
               then [(p_pc q, p_kc q)] else []) (kern v q).
Proof using Hl HMC HMR HK HA Hic Hm.
  intros Hv Hq. pose proof Hl as []. pose proof Hq as (Hj & Hn & Hjn & Hpc).
  destruct (thread_rows_ok lcntx m HMR Hm ic v Hic Hv) as [Hi0 Hi1].
  fold (row_start v) (row_start (v + 1)) in Hi0, Hi1.
  destruct (ic_loop_ok signed lcntx m k rs_a cs_a mtag_a rs_c cs_c beta ops
    (fun ta pc c => call_ok m n k rs_c beta ops pc c /\ packed_call q ta pc c)
    (p_jc q) (p_nc q) (p_pc q) (panel_operand q (part_strides v q)) lo_NR HMC (row_start v) (row_start (v + 1)))
    as (l & El & HQ).
  { intros ta i0 jr Hi Hjr Hd. split; [|by apply packed_call_at]. apply call_at_ok; (done || lia). }
  unfold kern. fold (p_kc q) in El. rewrite El. done.
Qed.

(** ** The packing of a panel *)

Local Abbreviation part := (part signed lcntx rs_b cs_b k ic).
Local Abbreviation group_id g v := (mk_task_id (g * ic + v) jc g).

Lemma pack_b_body_eq g v q :
  0 <= v < ic -> panel_ok q ->
  pack_b_body signed lcntx packb_strides k rs_b cs_b (group_id g v) (mk_task_id v ic v)
    (p_jc q) (p_nc q) (p_pc q) (p_kc q) =
  (send signed lcntx k g v [q] ++ [EvBarrier g] ++ part v q ++ [EvBarrier g], panel_operand q (part_strides v q)).
Proof using Hl Hic.
  clear HK. intros Hv Hq. pose proof Hl as []. pose proof Hq as (Hj & Hn & _ & _).
  destruct (p_cut_facts signed lcntx n k ic Hl Hic q v Hq Hv) as ([Hc0 Hc1] & Hc2 & _).
  unfold pack_b_body, part_strides, panel_operand. cbn [work_id].
  assert ((pack_b_part signed lcntx packb_strides k rs_b cs_b (mk_task_id v ic v) (p_jc q) (p_nc q) (p_pc q) (p_kc q)).1
    = part v q) as Epart.
  { unfold pack_b_part, PackedTeam.part. rewrite task_range_cut by lia.
    fold (p_cut lcntx ic q v) (p_cut lcntx ic q (v + 1)).
    destruct (Z.ltb_spec (p_cut lcntx ic q v) (p_cut lcntx ic q (v + 1))); [|done].
    rewrite (proj2 (Z.ltb_lt _ (p_jc q + p_nc q))) by lia. done. }
  destruct (pack_b_part _ _ _ _ _ _ _ _ _ _ _) as [p [rs cs]]. cbn in Epart. by rewrite Epart.
Qed.

(** ** The panels of a thread *)

(** [[s, e)] is the column range; a jc iteration is one panel per k block. *)
Definition panels (s e : Z) : list panel :=
  jc0 ← loop_points s e NC; mk_panel jc0 (Z.min (e - jc0) NC) <$> loop_points 0 k KC.

Lemma panels_unfold s e :
  panels s e = if s <? e
               then (mk_panel s (Z.min (e - s) NC) <$> loop_points 0 k KC) ++ panels (s + NC) e else [].
Proof using Hl.
  clear HK. destruct Hl. unfold panels. rewrite (loop_points_unfold s e) by done.
  by destruct (s <? e).
Qed.

Lemma panels_ok s e : 0 <= s -> e <= n -> Forall panel_ok (panels s e).
Proof using Hl.
  clear HK. intros Hs He. pose proof Hl as []. apply Forall_forall. intros q.
  intros (jc0 & Hq & (t & Ht & -> & Hlt)%loop_points_elem)%list_elem_of_In%list_elem_of_bind; [|done].
  apply list_elem_of_fmap in Hq as (pc & -> & (u & Hu & -> & Hlt')%loop_points_elem); [|done].
  unfold PackedTeam.panel_ok. cbn. nia.
Qed.

Lemma panels_linked e : forall s prev, linked lcntx k prev (panels s e).
Proof using Hl.
  clear HK. pose proof Hl as []. apply (loop_ind e NC (fun s => forall prev, linked lcntx k prev (panels s e))); [done| |].
  { intros s Hs prev. rewrite panels_unfold. by rewrite (proj2 (Z.ltb_ge s e)). }
  intros s Hs IH prev. rewrite panels_unfold, (proj2 (Z.ltb_lt s e)) by done.
  set (nc := Z.min (e - s) NC).
  assert (forall lo prev, lo = 0 \/ prev = Some (mk_panel s nc (lo - KC)) ->
    linked lcntx k prev ((mk_panel s nc <$> loop_points lo k KC) ++ panels (s + NC) e)) as Hblocks.
  2: { apply Hblocks. by left. }
  apply (loop_ind k KC (fun lo => forall prev, lo = 0 \/ prev = Some (mk_panel s nc (lo - KC)) ->
    linked lcntx k prev ((mk_panel s nc <$> loop_points lo k KC) ++ panels (s + NC) e))); [done| |].
  { intros lo Hlo prev' _. rewrite loop_points_unfold, (proj2 (Z.ltb_ge lo k)) by done. apply IH. }
  intros lo Hlo IHlo prev' Hprev. rewrite loop_points_unfold, (proj2 (Z.ltb_lt lo k)) by done. cbn. split.
  - destruct Hprev as [-> | ->]; [by left|right]. eexists. split_and!; try done. cbn. unfold PackedTeam.p_kc. cbn. lia.
  - apply IHlo. right. f_equal. f_equal. lia.
Qed.

(** The buffer the first panel asks for holds every panel. *)
Definition panels_size (s e : Z) : Z := pack_b_size signed (Z.min (e - s) NC) (Z.min k KC).

Lemma panels_fit s e : 0 < k -> 0 <= s -> Forall (fun q => fits signed lcntx k q (panels_size s e)) (panels s e).
Proof using Hl.
  clear HK. intros Hk Hs. pose proof Hl as []. apply Forall_forall. intros q.
  intros (jc0 & Hq & (t & Ht & -> & Hlt)%loop_points_elem)%list_elem_of_In%list_elem_of_bind; [|done].
  apply list_elem_of_fmap in Hq as (pc & -> & _). unfold fits, p_sums, p_cols, panels_size, pack_b_size, pack_b_column_sum.
  rewrite min_NR_16. cbn [p_nc]. change dlp_make_multiple_of_n with dlp_reorder_round_up.
  assert (0 <= t * NC) by nia.
  pose proof (round_up_bounds (Z.min (e - s) NC) 16 ltac:(lia) ltac:(lia)) as [? ?].
  pose proof (round_up_bounds (Z.min k KC) 4 ltac:(lia) ltac:(lia)) as [? ?].
  assert (dlp_reorder_round_up (Z.min (e - (s + t * NC)) NC) 16 <= dlp_reorder_round_up (Z.min (e - s) NC) 16)
    by (apply round_up_least; (done || lia)).
  unfold col_sums_size. destruct signed; nia.
Qed.

Lemma panels_head s e q qs :
  0 < k -> panels s e = q :: qs -> pack_b_size signed (p_nc q) (p_kc q) = panels_size s e.
Proof using Hl.
  clear HK. intros Hk. pose proof Hl as []. rewrite panels_unfold, loop_points_unfold by done.
  destruct (Z.ltb_spec s e); [|done]. rewrite (proj2 (Z.ltb_lt 0 k)) by done. intros [= <- _].
  cbn. unfold PackedTeam.p_kc, panels_size. cbn. by rewrite Z.sub_0_r.
Qed.

(** ** The trace *)

Definition panel_trace (g v : Z) (q : panel) : list event :=
  send signed lcntx k g v [q] ++ [EvBarrier g] ++ part v q ++ [EvBarrier g] ++ kern v q.

Local Abbreviation jc_loop := (jc_loop signed lcntx packb_strides m n k rs_a cs_a mtag_a rs_b cs_b PACK rs_c cs_c beta DLP_S32 ops).

Lemma pc_body_trace g v jc0 nc pc :
  0 <= v < ic -> panel_ok (mk_panel jc0 nc pc) ->
  pc_body signed lcntx packb_strides m n k rs_a cs_a mtag_a rs_b cs_b PACK rs_c cs_c beta DLP_S32 ops (group_id g v) (mk_task_id v ic v)
    (row_start v) (row_start (v + 1)) jc0 jc0 0 nc 0 (InC jc0) rs_c pc
  = Some (panel_trace g v (mk_panel jc0 nc pc)).
Proof using Hl HMC HMR HK HA Hic Hm.
  intros Hv Hq. unfold pc_body. pose proof (pack_b_body_eq g v _ Hv Hq) as E. unfold PackedTeam.p_kc in E.
  cbn [p_jc p_nc p_pc] in E. rewrite E.
  destruct (kern_ok v _ Hv Hq) as [Ek _]. unfold PackedTeam.p_kc in Ek. cbn [p_jc p_nc p_pc] in Ek. rewrite Ek.
  cbn [mbind option_bind]. unfold panel_trace. by rewrite <- !app_assoc.
Qed.

Lemma packed_jc_loop g v e jc0 fuel :
  0 <= v < ic -> 0 <= jc0 -> e <= n -> Z.max 0 (e - jc0) < Z.of_nat fuel ->
  jc_loop fuel (group_id g v) (mk_task_id v ic v) (row_start v) (row_start (v + 1)) jc0 e
  = Some (concat (panel_trace g v <$> panels jc0 e)).
Proof using Hl HMC HMR HK HA Hic Hm.
  intros Hv Hj He. pose proof Hl as []. revert jc0 Hj. induction fuel as [|fuel IH]; intros jc0 Hj Hf; [lia|].
  cbn [GemmDriver.jc_loop]. rewrite panels_unfold. destruct (Z.ltb_spec jc0 e) as [Hlt|]; [|done].
  unfold b_panel. cbn iota beta. change (c_panel lcntx k rs_c DLP_S32 jc0 (Z.min (e - jc0) NC)) with (InC jc0, rs_c).
  cbn iota beta. rewrite (for_upto_concat (fun pc => panel_trace g v (mk_panel jc0 (Z.min (e - jc0) NC) pc)));
    [|done|unfold loop_fuel; lia|].
  2: { intros pc (t & Ht & -> & Hlt')%loop_points_elem; [|done]. apply pc_body_trace; [done|].
       unfold PackedTeam.panel_ok. cbn. nia. }
  cbn [mbind option_bind]. rewrite IH by lia. cbn [mbind option_bind].
  by rewrite fmap_app, concat_app, <- list_fmap_compose.
Qed.

(** Cut at its barriers. *)
Lemma trace_split g v qs : forall cur,
  0 <= v < ic -> Forall panel_ok qs -> Forall no_barrier cur ->
  split_barriers g (cur ++ concat (panel_trace g v <$> qs) ++ EvBarrier g :: free g v) =
  Some ((cur ++ send signed lcntx k g v qs) :: rest signed lcntx rs_b cs_b k ic g kern v qs).
Proof using Hl HMC HMR HK HA Hic Hm.
  intros cur Hv Hqs. revert cur. induction Hqs as [|q qs Hq Hqs IH]; intros cur Hc.
  - cbn [fmap list_fmap concat app send rest]. apply split_no_barrier; [done|]. cbn. rewrite Z.eqb_refl.
    unfold free. destruct (v =? 0); done.
  - cbn [fmap list_fmap concat rest]. unfold panel_trace at 1. rewrite <- !app_assoc. cbn [app].
    assert (Forall no_barrier (send signed lcntx k g v (q :: qs))) as Hs
      by (cbn; destruct (v =? 0); repeat constructor).
    change (send signed lcntx k g v [q]) with (send signed lcntx k g v (q :: qs)).
    rewrite (split_no_barrier g cur _ (send signed lcntx k g v (q :: qs))
      (part v q :: (kern v q ++ send signed lcntx k g v qs) :: rest signed lcntx rs_b cs_b k ic g kern v qs));
      [done|done|].
    rewrite <- (app_nil_r (send signed lcntx k g v (q :: qs))) at 2.
    apply split_no_barrier; [done|]. cbn [split_barriers]. rewrite Z.eqb_refl.
    rewrite (split_no_barrier g (part v q) _ []
      ((kern v q ++ send signed lcntx k g v qs) :: rest signed lcntx rs_b cs_b k ic g kern v qs)).
    + cbn. by rewrite app_nil_r.
    + unfold PackedTeam.part, pack_ev. destruct (_ <? _); [|constructor]. destruct (_ && _); repeat constructor.
    + cbn [split_barriers]. rewrite Z.eqb_refl.
      rewrite (IH (kern v q)); [done|]. destruct (kern_ok v q Hv Hq) as [_ [Hseq _]].
      by eapply (kseq_no_barrier _ None).
Qed.

(** The kernel calls of a thread on an element. *)
Lemma panels_cells v e ij : 0 <= v < ic -> forall s, 0 <= s -> e <= n ->
  call_block <$> cell_calls ij (concat (kern v <$> panels s e)) =
  if decide (row_start v <= ij.1 < row_start (v + 1) /\ s <= ij.2 < e) then k_blocks k KC else [].
Proof using Hl HMC HMR HK HA Hic Hm.
  intros Hv. pose proof Hl as [].
  assert (forall qs, Forall panel_ok qs -> call_block <$> cell_calls ij (concat (kern v <$> qs)) =
    concat ((fun q => if decide (row_start v <= ij.1 < row_start (v + 1) /\ p_jc q <= ij.2 < p_jc q + p_nc q)
                      then [(p_pc q, p_kc q)] else []) <$> qs)) as Hcells.
  { intros qs Hqs. induction Hqs as [|q qs Hq _ IH]; [done|]. cbn [fmap list_fmap concat].
    rewrite cell_calls_app, fmap_app, IH. destruct (kern_ok v q Hv Hq) as [_ [_ ->]]. done. }
  intros s. pattern s. revert s. apply (loop_ind e NC); [done| |].
  { intros s Hs _ _. rewrite panels_unfold, (proj2 (Z.ltb_ge s e)), decide_False by lia. done. }
  intros s Hs IH Hs0 He. pose proof (panels_ok s e Hs0 He) as Hok. rewrite Hcells by done.
  rewrite panels_unfold, (proj2 (Z.ltb_lt s e)) by done. rewrite fmap_app, concat_app.
  rewrite <- (Hcells (panels (s + NC) e)) by (apply panels_ok; lia). rewrite IH, <- list_fmap_compose by lia.
  assert (forall (P : Prop) (HP : Decision P) l,
    concat ((fun pc => if HP then [(pc, Z.min (k - pc) KC)] else []) <$> l) =
    if HP then (fun pc => (pc, Z.min (k - pc) KC)) <$> l else []) as Hconst.
  { intros P HP l. induction l as [|x l IHl]; [by destruct HP|]. cbn. rewrite IHl. by destruct HP. }
  unfold compose. cbn [p_jc p_nc p_pc]. unfold PackedTeam.p_kc. cbn [p_pc]. rewrite Hconst. fold (k_blocks k KC).
  repeat case_decide; rewrite ?app_nil_r; try done; lia.
Qed.
End driver.
