(* ===== verification/GemvTeam.v ===== *)
(** * The products with a vector

    With one column or one row of C, every thread packs what it needs into a buffer of
    its own: the column of B with its sum, or panel by panel the columns it owns. *)
From S2P Require Import Prelude Word DlpTypes ThreadUtils ThreadDecor ByteStore ReorderLayout Reorder.
From S2P Require Import GemmDriver TeamMachine TeamCorrect GemmCalls ReorderedTeam PackedTeam PackedDriver.
#[local] Open Scope Z_scope.

Local Abbreviation round_up := dlp_reorder_round_up.

Lemma load_i8_store b a v x : ~ (a <= x < a + 4) -> load_i8 (store_i32 b a v) x = load_i8 b x.
Proof.
  intros Hx. apply load_i8_ext. unfold store_i32.
  destruct (Z.leb_spec a x), (Z.ltb_spec x (a + 4)); cbn; (done || lia).
Qed.

Lemma load_i32_store b a v : load_i32 (store_i32 b a v) a = to_i32 v.
Proof.
  assert (forall i, 0 <= i < 4 -> store_i32 b a v (a + i) = v / 2 ^ (8 * i) mod 2 ^ 8) as E.
  { intros i Hi. unfold store_i32. rewrite (proj2 (Z.leb_le a _)), (proj2 (Z.ltb_lt _ (a + 4))) by lia.
    cbn [andb]. by replace (a + i - a) with i by lia. }
  unfold load_i32. rewrite <- (Z.add_0_r a) at 2. rewrite !E by lia. rewrite !Z.mod_mod by lia.
  apply to_i32_congr. rewrite <- (Z.mod_mod v (2 ^ 32)) by lia. f_equal. set (u := 2 ^ 8).
  replace (2 ^ (8 * 0)) with 1 by done. change (2 ^ (8 * 1)) with u.
  change (2 ^ (8 * 2)) with (u * u). change (2 ^ (8 * 3)) with (u * u * u).
  change (2 ^ 16) with (u * u). change (2 ^ 24) with (u * u * u). change (2 ^ 32) with (u * (u * (u * u))).
  rewrite Z.div_1_r, !Z.rem_mul_r by (subst u; lia). rewrite <- !Z.div_div by (subst u; lia). lia.
Qed.

(** A reordered column is contiguous, with its sum behind it. *)
Record reordered_column (signed : bool) (Bmem : Z -> Z) (k : Z) (B0 : Z -> Z -> Z) : Prop := mk_reordered_column {
  rc_elem : forall p, 0 <= p < k -> load_i8 Bmem p = B0 p 0;
  rc_sum : signed = true ->
    load_i32 Bmem (dlp_gemm_col_sum_byte_offset k) = to_i32 (128 * zsum (fun p => B0 p 0) 0 k);
}.

Lemma column_offset k : 0 <= k -> k <= dlp_gemm_col_sum_byte_offset k.
Proof.
  intros Hk. unfold dlp_gemm_col_sum_byte_offset. change dlp_make_multiple_of_n with dlp_reorder_round_up.
  pose proof (round_up_bounds k 4 ltac:(lia) ltac:(lia)). lia.
Qed.

(** The loop that copies a column and sums it up. *)
Lemma gather_column (signed : bool) Bmem rs k b :
  0 <= k ->
  (if signed then dlp_gemm_col_sum_byte_offset k + 4 else k) <= pb_size b ->
  exists b', gather Bmem b rs k (if signed then Some (dlp_gemm_col_sum_byte_offset k) else None) = Some b' /\
    pb_size b' = pb_size b /\ reordered_column signed (pb_bytes b') k (fun p _ => load_i8 Bmem (rs * p)).
Proof.
  intros Hk Hsz. pose proof (column_offset k Hk) as Hoff. unfold gather.
  assert (forall p, 0 <= p < k -> load_i8 (fill (pb_bytes b) 0 k (fun x => Bmem (x * rs))) p = load_i8 Bmem (rs * p)) as He.
  { intros p Hp. unfold load_i8, fill. rewrite (proj2 (Z.leb_le 0 p)), (proj2 (Z.ltb_lt p k)) by lia.
    cbn [andb]. do 2 f_equal. lia. }
  assert ((0 <=? k) && (k <=? pb_size b) &&
    match (if signed then Some (dlp_gemm_col_sum_byte_offset k) else None) with
    | Some s => (0 <=? s) && (s + 4 <=? pb_size b) | None => true end = true) as ->.
  { destruct signed; rewrite !andb_true_iff, ?andb_true_iff, !Z.leb_le; lia. }
  eexists. split; [reflexivity|]. split; [done|]. cbn [pb_bytes]. destruct signed; split; try done.
  - intros p Hp. rewrite load_i8_store by lia. by apply He.
  - intros _. rewrite load_i32_store, to_i32_idemp. apply to_i32_congr.
    rewrite Z.mul_mod, to_i32_mod, <- Z.mul_mod by lia. f_equal. rewrite (Z.mul_comm 128). f_equal.
    apply zsum_ext. intros p Hp. f_equal. lia.
Qed.

Section column.
Context (signed : bool) (lcntx : dlp_gemm_cntx_t).
Context (A : Z -> Z) (rs_a cs_a : Z) (Bmem : Z -> Z) (rs_b cs_b alpha : Z) (K : kernels) (fresh : Z -> Z).
Context (m k : Z) (mtag_a mtag_b : AOCL_DLP_MEMORY_TAG) (rs_c cs_c beta : Z) (ops : list PostOpTypes.dlp_gemm_post_op) (B0 : Z -> Z -> Z).

Local Abbreviation MC := (MC (blksz lcntx)).
Local Abbreviation do_event := (do_event signed lcntx K_n1 A Bmem K fresh).
Local Abbreviation private_ok := (private_ok signed lcntx K_n1 A rs_a cs_a Bmem K fresh k B0).

(** B is the caller's column, or was reordered. *)
Definition column_given : Prop :=
  mtag_b = PACK /\ (forall p, 0 <= p < k -> B0 p 0 = load_i8 Bmem (rs_b * p)) \/
  mtag_b = REORDERED /\ reordered_column signed Bmem k B0.

Hypothesis HK : kernel_laws signed lcntx A rs_a cs_a Bmem rs_b cs_b alpha K.
Hypothesis HMC : 0 < MC.
Hypothesis Hk : 0 < k.
Hypothesis HA : mtag_a = UNPACKED /\ cs_a = 1 \/ mtag_a = PACK /\ rs_a = 1.
Hypothesis HB : column_given.

Local Abbreviation b_of := (gemv_n1_b signed k rs_b cs_b mtag_b).

(** The operand reads as the column in the buffer [tb]. *)
Definition column_reads (bo : b_operand) (tb : option pack_buf) : Prop := forall sh c,
  kc_b c = b_use bo -> b_col_sum_vec c = col_sum_vec bo -> b_col_sum_index c = col_sum_index bo ->
  b_sum_offset c = 0 -> kc_n0 c = 1 -> kc_k0 c = k -> post_op_c_j c = 0 ->
  B_ok signed lcntx K_n1 Bmem k B0 tb sh 0 c.

(** A column in a buffer of the thread. *)
Lemma own_column_reads b rs cs sum :
  k <= pb_size b -> (forall p, 0 <= p < k -> load_i8 (pb_bytes b) p = B0 p 0) ->
  (signed = true -> exists o, sum = InOwnB o /\ 0 <= o /\ o + 4 <= pb_size b /\
    load_i32 (pb_bytes b) o = to_i32 (128 * zsum (fun p => B0 p 0) 0 k)) ->
  (signed = false -> sum = Null) -> column_reads (mk_b_operand (InOwnB 0) rs cs sum 0) (Some b).
Proof using Hk.
  clear HK HB. intros Hsz He Hsum Hnull sh c Eb Es Ei Eo En Ek Ej. cbn in Eb, Es, Ei.
  assert (exists s, sum_view signed Bmem (Some b) sh c = Some s /\
    (signed = true -> s 0 = to_i32 (128 * zsum (fun p => B0 p 0) 0 k))) as (s & Hs & Hs0).
  { unfold sum_view, sum_at, in_buf. rewrite Es, Ei, Eo, En. destruct signed.
    - destruct (Hsum eq_refl) as (o & -> & H0 & H4 & Hv).
      rewrite (proj2 (Z.leb_le 0 o)), (proj2 (Z.leb_le _ (pb_size b))) by lia. cbn. eexists. split; [done|].
      intros _. cbn. by rewrite Z.add_0_r.
    - rewrite Hnull by done. by eexists. }
  eexists _, s. split.
  - unfold b_view, in_buf, b_extent. rewrite Eb, Ek. cbn [orb andb].
    rewrite (proj2 (Z.leb_le 0 k)), (proj2 (Z.leb_le _ (pb_size b))) by lia. reflexivity.
  - exact Hs.
  - rewrite Ek, En, Ej. intros kr j Hkr Hj. cbn. assert (j = 0) as -> by lia. by apply He.
  - rewrite En, Ej. intros j Hsg _ Hj. assert (j = 0) as -> by lia. by rewrite Hs0, to_i32_idemp.
Qed.

(** A column read in place. *)
Lemma column_in_place rs cs sum tb :
  (forall p, 0 <= p < k -> load_i8 Bmem p = B0 p 0) ->
  (signed = true -> exists o, sum = InB o /\ load_i32 Bmem o = to_i32 (128 * zsum (fun p => B0 p 0) 0 k)) ->
  (signed = false -> sum = Null) -> column_reads (mk_b_operand (InB 0) rs cs sum 0) tb.
Proof using Hk.
  clear HK HB. intros He Hsum Hnull sh c Eb Es Ei Eo En Ek Ej. cbn in Eb, Es, Ei.
  assert (exists s, sum_view signed Bmem tb sh c = Some s /\
    (signed = true -> s 0 = to_i32 (128 * zsum (fun p => B0 p 0) 0 k))) as (s & Hs & Hs0).
  { unfold sum_view, sum_at. rewrite Es, Ei, Eo. destruct signed.
    - destruct (Hsum eq_refl) as (o & -> & Hv). eexists. split; [done|]. intros _. cbn. by rewrite Z.add_0_r.
    - rewrite Hnull by done. by eexists. }
  eexists _, s. split.
  - unfold b_view. rewrite Eb. reflexivity.
  - exact Hs.
  - rewrite Ek, En, Ej. intros kr j Hkr Hj. cbn. assert (j = 0) as -> by lia. by apply He.
  - rewrite En, Ej. intros j Hsg _ Hj. assert (j = 0) as -> by lia. by rewrite Hs0, to_i32_idemp.
Qed.

(** After the packing loop the operand reads as the column. *)
Lemma gemv_n1_b_ok g : exists tb, column_reads b_of.2 tb /\
  kernel_calls b_of.1 = [] /\ forall ta l, private_ok g ta tb l -> private_ok g ta None (b_of.1 ++ l).
Proof using Hk HB.
  clear HK. unfold gemv_n1_b. destruct HB as [(-> & He)|(-> & Hrc)].
  - destruct (signed || negb (rs_b =? 1)) eqn:Ecopy.
    + set (sz := if signed then dlp_gemm_col_sum_byte_offset k + 4 else k).
      destruct (gather_column signed Bmem rs_b k (mk_pack_buf sz fresh)) as (b & Eg & Hsz & [Hbe Hbs]); [lia|done|].
      pose proof (column_offset k ltac:(lia)) as Hoff. cbn [pb_size] in Hsz.
      assert (column_reads (mk_b_operand (InOwnB 0) 1 1 (col_sums signed (InOwnB (dlp_gemm_col_sum_byte_offset k))) 0) (Some b)) as Hr.
      { apply own_column_reads; rewrite ?Hsz.
        - subst sz. destruct signed; lia.
        - intros p Hp. by rewrite Hbe, He.
        - intros Hsg. exists (dlp_gemm_col_sum_byte_offset k). subst sz. unfold col_sums. rewrite Hsg in *.
          split_and!; [done|lia|lia|]. rewrite Hbs by done. do 2 f_equal. apply zsum_ext. intros p Hp. rewrite He by lia. done.
        - intros ->. done. }
      assert (gemv_n1_b signed k rs_b cs_b PACK = ([EvAllocB sz; EvGatherB rs_b k
        (col_sums signed (InOwnB (dlp_gemm_col_sum_byte_offset k)))], mk_b_operand (InOwnB 0) 1 1
        (col_sums signed (InOwnB (dlp_gemm_col_sum_byte_offset k))) 0)) as Eb.
      { unfold gemv_n1_b, sz, col_sums. destruct signed; [done|]. cbn [orb] in Ecopy. by rewrite Ecopy. }
      unfold gemv_n1_b in Eb. rewrite Eb. exists (Some b). split; [exact Hr|]. split; [done|].
      intros ta l Hpl. cbn [app fst]. eexists ta, _. split; [intros sh C; by eexists|]. split; [done|].
      eexists ta, (Some b). split; [|by split]. intros sh C. eexists.
      cbn [TeamMachine.do_event alloc mbind option_bind].
      assert (sum_address (col_sums signed (InOwnB (dlp_gemm_col_sum_byte_offset k))) =
        if signed then Some (dlp_gemm_col_sum_byte_offset k) else None) as -> by by destruct signed.
      rewrite Eg. reflexivity.
    + apply orb_false_iff in Ecopy as [Hsg E1%negb_false_iff%Z.eqb_eq]. rewrite Hsg, E1. cbn.
      exists None. split; [|split; [done|by intros]]. apply column_in_place; try by rewrite Hsg.
      intros p Hp. rewrite He, E1 by done. f_equal. lia.
  - exists None. split; [|split; [done|by intros]]. destruct Hrc as [He Hs].
    apply column_in_place; [done| |].
    + intros Hsg. exists (dlp_gemm_col_sum_byte_offset k). cbn [col_sum_vec snd]. unfold col_sums. rewrite Hsg.
      split; [done|]. by apply Hs.
    + intros Hsg. unfold col_sums. by rewrite Hsg.
Qed.

Definition column_call (tb : option pack_buf) (ta : a_block) (pc : Z) (c : kernel_call) : Prop :=
  call_ok m 1 k rs_c beta ops pc c /\
  forall sh, call_reads signed lcntx K_n1 A rs_a cs_a Bmem K k B0 ta tb sh pc c.

Local Abbreviation n1_body := (gemv_n1_body lcntx k rs_a cs_a mtag_a rs_c cs_c beta DLP_S32 ops).

Lemma gemv_n1_body_ok e bo tb i0 :
  column_reads bo tb -> 0 <= i0 -> i0 < e -> e <= m ->
  exists l, n1_body e bo i0 = Some l /\
    trace_ok (column_call tb) (fun ij => if decide (i0 <= ij.1 < Z.min e (i0 + MC) /\ ij.2 = 0)
                                        then [(0, k)] else []) l.
Proof using HK HMC Hk HA.
  clear HB. intros Hb Hi Hlt He. set (mc0 := Z.min (e - i0) MC).
  assert (forall c, post_op_c_i c = i0 -> kc_m0 c = mc0 -> post_op_c_j c = 0 -> kc_n0 c = 1 -> kc_k0 c = k ->
    kc_beta c = beta -> is_last_k c = true -> kc_c c = InC (i0 * rs_c) -> kc_rs_c c = rs_c ->
    kc_post_op_list c = ops -> c_stor_type c = DLP_S32 -> call_ok m 1 k rs_c beta ops 0 c) as Hcall.
  { intros c Ei Em Ej En Ek Eb El Ec Er Eo Es. split; rewrite ?Ei, ?Em, ?Ej, ?En, ?Ek, ?Eb, ?El, ?Ec, ?Er;
      first [done | lia | by symmetry; apply Z.eqb_eq | f_equal; lia]. }
  assert (forall pre c, kernel_calls pre = [] -> (forall ta, kseq (column_call tb) ta (pre ++ [EvKernel 0 c])) ->
    post_op_c_i c = i0 -> kc_m0 c = mc0 -> post_op_c_j c = 0 -> kc_n0 c = 1 -> kc_k0 c = k ->
    trace_ok (column_call tb) (fun ij => if decide (i0 <= ij.1 < Z.min e (i0 + MC) /\ ij.2 = 0)
                                        then [(0, k)] else []) (pre ++ [EvKernel 0 c])) as Htrace.
  { intros pre c Hpre Hseq Ei Em Ej En Ek. split; [done|]. intros ij. rewrite cell_calls_app.
    unfold cell_calls at 1. rewrite Hpre, cell_calls_cons_kernel. cbn [filter list_filter app].
    destruct (covers ij c) eqn:Ec.
    - apply covers_true in Ec. rewrite Ei, Em, Ej, En in Ec. rewrite decide_True by lia. change ([(0, kc_k0 c)] = [(0, k)]). by rewrite Ek.
    - rewrite decide_False; [done|]. intros Hij. apply not_true_iff_false in Ec. apply Ec, covers_true.
      rewrite Ei, Em, Ej, En. lia. }
  unfold gemv_n1_body. fold mc0. destruct HA as [[-> Hcs]|[-> Hrs]].
  - eexists. split; [reflexivity|]. apply Htrace; try done. intros ta. cbn [app kseq]. split; [|done].
    split; [by apply Hcall|]. intros sh. split; [|by apply Hb]. eexists. split; [reflexivity|].
    cbn. intros i kr Hi' Hkr. f_equal. rewrite Hcs. lia.
  - unfold dlp_packa_u8s8s32os32_strides. rewrite Hrs. cbn [Z.eqb Pos.eqb]. eexists. split; [reflexivity|].
    apply Htrace; try done. intros ta. cbn [app kseq]. split; [|done].
    split; [by apply Hcall|]. intros sh. split; [|by apply Hb]. eexists. split.
    + unfold a_view. cbn [kc_a kc_m0 kc_k0]. rewrite !Z.eqb_refl. reflexivity.
    + cbn [kc_m0 kc_k0 post_op_c_i a_addr kc_rs_a]. intros i kr Hi' Hkr.
      rewrite Z.add_0_l, (Z.mul_comm k i), (kl_packa _ _ _ _ _ _ _ _ _ _ HK) by done. f_equal. rewrite Hrs. lia.
Qed.

(** A thread on the rows [[s, e)]. *)
Lemma gemv_n1_rows s e bo tb :
  column_reads bo tb -> 0 <= s -> e <= m ->
  exists l, for_upto (loop_fuel s e) s e MC (n1_body e bo) = Some l /\
    trace_ok (column_call tb) (fun ij => if decide (s <= ij.1 < e /\ ij.2 = 0) then [(0, k)] else []) l.
Proof using HK HMC Hk HA.
  clear HB. intros Hb Hs He.
  destruct (for_upto_seq (trace_ok (column_call tb)) (trace_ok_nil _) (trace_ok_app _) (loop_fuel s e) s e MC
    (n1_body e bo) (fun i0 ij => if decide (i0 <= ij.1 < Z.min e (i0 + MC))
                                 then (if decide (ij.2 = 0) then [(0, k)] else []) else []))
    as (l & Hloop & HQ); [done|unfold loop_fuel; lia| |].
  - intros i0 (t & Ht & -> & Hlt)%loop_points_elem; [|done].
    destruct (gemv_n1_body_ok e bo tb (s + t * MC) Hb ltac:(nia) Hlt He) as (l & El & HQ).
    exists l. split; [done|]. eapply trace_ok_ext; [|exact HQ]. intros ij. cbn. repeat case_decide; done || lia.
  - exists l. split; [done|]. eapply trace_ok_ext; [|exact HQ]. intros ij. cbn.
    rewrite (loop_points_select s e MC ij.1 (fun _ => if decide (ij.2 = 0) then [(0, k)] else [])) by done.
    repeat case_decide; done || lia.
Qed.

(** The work ids of the threads: all of them when the dimension is not split. *)
Definition gemv_ways (ways n_threads : Z) : Z := if ways =? 1 then n_threads else ways.

Hypothesis Hm : 0 <= m.

Lemma task_range_bounds oc nw w bf :
  1 <= nw -> 0 <= w -> 1 <= bf -> exists s e, dlp_thread_task_range (mk_task_id oc nw w) m bf false = (s, e) /\
    0 <= s /\ e <= m.
Proof using Hm.
  clear HK HB HA Hk. intros Hnw Hw Hbf. destruct (Z.lt_ge_cases w nw).
  - rewrite task_range_cut by lia. eexists _, _. split; [done|].
    pose proof (fun w => task_cut_mono nw m bf false w Hnw Hm Hbf) as Hmono.
    pose proof (interval_le (task_cut nw m bf false) nw ltac:(lia) Hmono) as Hle.
    pose proof (Hle 0 w ltac:(lia) ltac:(lia) ltac:(lia)) as H0.
    pose proof (Hle (w + 1) nw ltac:(lia) ltac:(lia) ltac:(lia)) as H1.
    rewrite task_cut_first in H0 by lia. rewrite task_cut_last in H1 by lia. lia.
  - rewrite task_range_retired by lia. by exists m, m.
Qed.

Lemma gemv_n1_thread g thread thread_ic :
  1 <= thr_n_threads thread -> 1 <= n_way thread_ic -> 0 <= thr_tid thread ->
  exists l, gemv_n1 signed lcntx m k rs_a cs_a mtag_a rs_b cs_b mtag_b rs_c cs_c beta DLP_S32 ops thread thread_ic = Some l /\
    private_ok g None None l /\
    (forall pc c, (pc, c) ∈ kernel_calls l -> call_ok m 1 k rs_c beta ops pc c) /\
    forall ij, call_block <$> cell_calls ij l =
      if decide (owns (mk_task_id 0 (gemv_ways (n_way thread_ic) (thr_n_threads thread)) (thr_tid thread)) m 16 false ij.1
                 /\ ij.2 = 0) then [(0, k)] else [].
Proof using HK HMC Hk HA HB Hm.
  intros Hnt Hnw Htid. unfold gemv_n1. fold (gemv_ways (n_way thread_ic) (thr_n_threads thread)).
  set (nw := gemv_ways _ _). assert (1 <= nw) by (subst nw; unfold gemv_ways; destruct (_ =? _); lia).
  assert (forall oc, dlp_thread_task_range (mk_task_id oc nw (thr_tid thread)) m 16 false =
    dlp_thread_task_range (mk_task_id 0 nw (thr_tid thread)) m 16 false) as Eoc by done.
  destruct (task_range_bounds 0 nw (thr_tid thread) 16 ltac:(done) Htid ltac:(lia)) as (s & e & Er & Hs & He).
  rewrite Eoc, Er. destruct (gemv_n1_b_ok g) as (tb & Hb & Hcalls & Hpriv).
  destruct b_of as [pack_b bo]. cbn [fst snd] in Hb, Hcalls, Hpriv.
  destruct (gemv_n1_rows s e bo tb Hb Hs He) as (l & El & [Hseq Hcells]). rewrite El.
  cbn [mbind option_bind]. eexists. split; [done|]. split_and!.
  - apply Hpriv. eapply private_kseq; [|apply Hseq]. intros ta pc c Hc. apply Hc.
  - rewrite kernel_calls_app, Hcalls. eapply kseq_calls; [|apply (Hseq None)]. intros ta pc c Hc. apply Hc.
  - intros ij. rewrite cell_calls_app. unfold cell_calls at 1. rewrite Hcalls. cbn [filter list_filter app].
    rewrite Hcells. apply decide_ext. unfold owns. by rewrite Er.
Qed.
End column.

(** ** One row *)

Section row.
Context (signed : bool) (lcntx : dlp_gemm_cntx_t) (packb_strides : Z -> Z -> Z * Z).
Context (A : Z -> Z) (rs_a cs_a : Z) (Bmem : Z -> Z) (rs_b cs_b alpha : Z) (K : kernels) (fresh : Z -> Z).
Context (n k : Z) (mtag_a mtag_b : AOCL_DLP_MEMORY_TAG) (rs_c cs_c beta : Z) (ops : list PostOpTypes.dlp_gemm_post_op) (B0 : Z -> Z -> Z).

Local Abbreviation NC := (NC (blksz lcntx)).
Local Abbreviation KC := (KC (blksz lcntx)).
Local Abbreviation NR := (NR (blksz lcntx)).
Local Abbreviation private_ok := (private_ok signed lcntx K_m1 A rs_a cs_a Bmem K fresh k B0).
Local Abbreviation do_event := (do_event signed lcntx K_m1 A Bmem K fresh).

(** B is the caller's matrix, or was reordered. *)
Definition row_given : Prop :=
  mtag_b = PACK /\ (forall p j, 0 <= p < k -> 0 <= j < n -> B0 p j = load_i8 Bmem (rs_b * p + cs_b * j)) \/
  mtag_b = REORDERED /\ reordered_B signed lcntx n k Bmem B0.

Hypothesis Hl : layout_ok n k NR 16 NC KC 4.
Hypothesis HK : kernel_laws signed lcntx A rs_a cs_a Bmem rs_b cs_b alpha K.
Hypothesis Hk : 0 < k.
Hypothesis HA : mtag_a = UNPACKED /\ cs_a = 1 \/ mtag_a = PACK /\ rs_a = 1.
Hypothesis HB : row_given.

(** *** A panel in a buffer of the thread *)

Definition m1_width (nc : Z) : Z := round_up nc 16.
Definition m1_sums (nc : Z) : Z := m1_width nc * round_up k 4.
Definition m1_size (nc : Z) : Z := m1_sums nc + col_sums_size signed (m1_width nc).

(** The rows below [hi] are packed, with their column sums. *)
Definition m1_elems (b : Z -> Z) (jc nc hi : Z) : Prop := forall p j, 0 <= p < k -> p < hi -> 0 <= j < nc ->
  load_i8 b (m1_width nc * (KC * (p / KC)) +
             panel_pos NR nc (Z.min (k - KC * (p / KC)) KC) (p - KC * (p / KC)) j) = B0 p (jc + j).

Definition m1_sums_in (b : Z -> Z) (jc nc hi : Z) : Prop := signed = true -> forall j, 0 <= j < nc ->
  load_i32 b (m1_sums nc + 4 * j) = to_i32 (128 * zsum (fun p => B0 p (jc + j)) 0 (Z.min hi k)).

Definition m1_content (b : Z -> Z) (jc nc hi : Z) : Prop := m1_elems b jc nc hi /\ m1_sums_in b jc nc hi.

Local Abbreviation m1_pack := (gemv_m1_pack signed lcntx k rs_b cs_b).

Lemma m1_facts nc : 0 < nc ->
  nc <= m1_width nc /\ k <= round_up k 4 /\ 0 <= m1_sums nc /\ 0 <= col_sums_size signed (m1_width nc).
Proof using Hk.
  clear HK HB. intros Hn. unfold m1_sums, m1_width, col_sums_size.
  pose proof (round_up_bounds nc 16 ltac:(lia) ltac:(lia)). pose proof (round_up_bounds k 4 ltac:(lia) ltac:(lia)).
  destruct signed; nia.
Qed.

(** One packing call moves on by a k block. *)
Lemma m1_pack_step jc nc pc b :
  mtag_b = PACK -> 0 <= jc -> 0 < nc -> jc + nc <= n -> 0 <= pc < k -> (KC | pc) -> m1_size nc <= pb_size b ->
  m1_content (pb_bytes b) jc nc pc ->
  exists b', (forall g ta sh C, do_event g ta (Some b) sh C (m1_pack jc nc pc) = Some (ta, Some b', sh, C)) /\
    pb_size b' = pb_size b /\ m1_content (pb_bytes b') jc nc (pc + KC).
Proof using Hl HK Hk HB.
  intros Htag Hjc Hn Hjn Hpc Hd Hsz [He Hs]. pose proof Hl as [].
  destruct (m1_facts nc Hn) as (Hw & Hk4 & Hs0 & Hcs0).
  assert (forall p j, 0 <= p < k -> 0 <= j < n -> B0 p j = load_i8 Bmem (rs_b * p + cs_b * j)) as HB0.
  { destruct HB as [[_ H]|[H _]]; [done|congruence]. }
  set (kc := Z.min (k - pc) KC).
  pose proof (block_height_bounds n k NR 16 NC KC 4 Hl pc Hpc Hd) as (Hbh & Hbh0 & _ & Hbhk).
  unfold block_height, k_padded in Hbh, Hbh0, Hbhk. fold kc in Hbh, Hbh0, Hbhk.
  assert (m1_width nc * pc + m1_width nc * round_up kc 4 <= m1_sums nc) as Hend by (unfold m1_sums; nia).
  set (sum := sum_address (col_sums signed (InOwnB (m1_sums nc)))).
  assert (sum = if signed then Some (m1_sums nc) else None) as Esum
    by (subst sum; unfold col_sums; by destruct signed).
  assert (forall s, sum = Some s -> s = m1_sums nc) as Hsum
    by (intros s'; rewrite Esum; destruct signed; [by intros [= <-]|done]).
  unfold m1_size, col_sums_size in *.
  exists (mk_pack_buf (pb_size b) (packb K (rs_b * pc + jc * cs_b) nc kc (m1_width nc * pc) sum (pb_bytes b))).
  split; [|split; [done|split]].
  - intros g ta sh C. unfold gemv_m1_pack. rewrite min_NR_16.
    cbn [TeamMachine.do_event mbind option_bind]. change dlp_make_multiple_of_n with round_up.
    fold (m1_width nc) kc. fold (m1_sums nc) sum. unfold pack_into. fold (m1_width nc).
    rewrite (proj2 (Z.leb_le 0 (m1_width nc * pc))), (proj2 (Z.leb_le _ (pb_size b))) by (destruct signed; nia).
    assert (match sum with Some s => (0 <=? s) && (s + 4 * m1_width nc <=? pb_size b) | None => true end = true)
      as ->; [|reflexivity].
    rewrite Esum. destruct signed; [|done].
    rewrite (proj2 (Z.leb_le 0 _)), (proj2 (Z.leb_le _ (pb_size b))) by lia. done.
  - intros p j Hp Hhi Hj. cbn [pb_bytes]. pose proof (block_bounds KC lo_KC p) as HP.
    assert (0 <= KC * (p / KC)) by (apply Z.mul_nonneg_nonneg, Z.div_pos; lia).
    destruct (Z.lt_ge_cases p pc) as [Hlt|Hge].
    + rewrite <- (He p j Hp Hlt Hj). apply load_i8_ext, (pl_frame _ _ _ _ _ (kl_packb _ _ _ _ _ _ _ _ _ _ HK)); [lia|lia|..].
      * left. assert (KC * (p / KC) + KC <= pc).
        { destruct Hd as [t ->]. assert (p / KC < t); [|nia]. apply Z.div_lt_upper_bound; lia. }
        pose proof (block_height_bounds n k NR 16 NC KC 4 Hl (KC * (p / KC)) ltac:(lia) (Z.divide_factor_l _ _))
          as ([_ Hh] & _). unfold block_height in Hh.
        pose proof (panel_pos_bounds NR nc (Z.min (k - KC * (p / KC)) KC) (p - KC * (p / KC)) j
          lo_NR lo_m_NR ltac:(lia) Hj) as Hpp. fold (m1_width nc) in Hpp. nia.
      * intros s' ->%Hsum. left. fold (m1_width nc).
        pose proof (block_height_bounds n k NR 16 NC KC 4 Hl (KC * (p / KC)) ltac:(lia) (Z.divide_factor_l _ _))
          as (_ & _ & _ & Hh). unfold block_height, k_padded in Hh.
        pose proof (panel_pos_bounds NR nc (Z.min (k - KC * (p / KC)) KC) (p - KC * (p / KC)) j
          lo_NR lo_m_NR ltac:(lia) Hj) as Hpp. fold (m1_width nc) in Hpp. unfold m1_sums. nia.
    + assert (KC * (p / KC) = pc) as -> by (apply block_unique; (done || lia)). fold kc.
      rewrite (pl_elem _ _ _ _ _ (kl_packb _ _ _ _ _ _ _ _ _ _ HK)); [|lia|done|].
      * rewrite HB0 by lia. f_equal. lia.
      * intros s' ->%Hsum. fold (m1_width nc). lia.
  - intros Hsg j Hj. cbn [pb_bytes]. rewrite Esum, Hsg.
    rewrite (pl_sum _ _ _ _ _ (kl_packb _ _ _ _ _ _ _ _ _ _ HK)); [|done|lia|fold (m1_width nc); lia].
    rewrite (Hs Hsg j Hj), to_i32_add_l, <- Z.mul_add_distr_l, Z.min_l by lia.
    replace (Z.min (pc + KC) k) with (pc + kc) by lia. rewrite (zsum_split _ 0 pc) by lia.
    do 3 f_equal. rewrite Z.add_0_l. apply zsum_shift. intros x Hx. rewrite HB0 by lia. f_equal. lia.
Qed.

(** The packing loop. *)
Lemma m1_pack_loop g jc nc : mtag_b = PACK -> 0 <= jc -> 0 < nc -> jc + nc <= n -> forall pc b,
  0 <= pc -> (KC | pc) -> m1_size nc <= pb_size b -> m1_content (pb_bytes b) jc nc pc ->
  exists b', pb_size b' = pb_size b /\ m1_content (pb_bytes b') jc nc k /\
    forall ta l, private_ok g ta (Some b') l ->
      private_ok g ta (Some b) ((m1_pack jc nc <$> loop_points pc k KC) ++ l).
Proof using Hl HK Hk HB.
  intros Htag Hjc Hn Hjn. pose proof Hl as []. intros pc. pattern pc. revert pc. apply (loop_ind k KC); [done| |].
  - intros pc Hpc b _ _ Hsz [He Hs]. exists b. split; [done|]. split; [split|].
    + intros p j Hp _ Hj. apply He; lia.
    + intros Hsg j Hj. rewrite (Hs Hsg j Hj). do 3 f_equal. lia.
    + intros ta l Hpl. by rewrite loop_points_unfold, (proj2 (Z.ltb_ge pc k)).
  - intros pc Hpc IH b H0 Hd Hsz Hc.
    destruct (m1_pack_step jc nc pc b Htag Hjc Hn Hjn ltac:(done) Hd Hsz Hc) as (b1 & Hdo & Hsz1 & Hc1).
    destruct (IH b1) as (b' & Hsz' & Hc' & Hpriv); [lia|by apply Z.divide_add_r, Z.divide_refl|by rewrite Hsz1|done|].
    exists b'. split; [congruence|]. split; [done|]. intros ta l Hpl.
    rewrite loop_points_unfold, (proj2 (Z.ltb_lt pc k)) by done. cbn [fmap list_fmap app].
    exists ta, (Some b1). split; [intros sh C; eexists; apply Hdo|]. split; [done|]. by apply Hpriv.
Qed.

(** *** The panel of a [jc] iteration *)

Local Abbreviation b_of := (gemv_m1_b signed lcntx packb_strides n k rs_b cs_b mtag_b).

(** The operand [bo] reads as the [nc] columns from [jc] on; [nsub] and [rem] are the
    panel width and offset the kernel is given. *)
Definition panel_reads (bo : b_operand) (jc nc nsub rem : Z) (tb : option pack_buf) : Prop := forall sh c,
  kc_b c = b_use bo -> b_col_sum_vec c = col_sum_vec bo -> b_col_sum_index c = col_sum_index bo ->
  b_sum_offset c = 0 -> kc_n0 c = nc -> kc_k0 c = k -> post_op_c_j c = jc -> kc_n_sub c = nsub -> kc_jc_rem c = rem ->
  B_ok signed lcntx K_m1 Bmem k B0 tb sh 0 c.

(** A buffer of the thread is large enough for panels of [nc] columns. *)
Definition room (tb : option pack_buf) (nc : Z) : Prop :=
  mtag_b = PACK -> forall b, tb = Some b -> m1_size nc <= pb_size b.

Lemma m1_packed_reads b jc nc rs cs :
  0 < nc -> m1_size nc <= pb_size b -> m1_content (pb_bytes b) jc nc k ->
  panel_reads (mk_b_operand (InOwnB 0) rs cs (col_sums signed (InOwnB (m1_sums nc))) 0) jc nc (m1_width nc) 0 (Some b).
Proof using Hk.
  clear HK HB Hl. intros Hn Hsz [He Hs] sh c Eb Es Ei Eo En Ek Ej Esub Erem. cbn in Eb, Es, Ei.
  destruct (m1_facts nc Hn) as (Hw & Hk4 & Hs0 & Hcs0). unfold m1_size in Hsz.
  eexists _, (fun j => if signed then load_i32 (pb_bytes b) (m1_sums nc + 4 * j) else 0). split.
  - unfold b_view, in_buf, b_extent. rewrite Eb, Ek, Esub. fold (m1_sums nc).
    rewrite (proj2 (Z.leb_le 0 (m1_sums nc))), (proj2 (Z.leb_le _ (pb_size b))) by lia. reflexivity.
  - unfold sum_view, in_buf, sum_at. rewrite Es, Ei, Eo, En. unfold col_sums, col_sums_size in *. destruct signed; [|done].
    rewrite (proj2 (Z.leb_le 0 (m1_sums nc))), (proj2 (Z.leb_le 0 (4 * _))), (proj2 (Z.leb_le _ (pb_size b))) by lia.
    reflexivity.
  - rewrite Ek, En, Ej. intros kr j Hkr Hj. unfold b_addr. rewrite Ek, En, Esub, Erem.
    change (B0 (0 + kr)) with (B0 kr). rewrite <- (He kr j) by lia.
    f_equal. lia.
  - rewrite En, Ej. intros j Hsg _ Hj. rewrite Hsg, (Hs Hsg j Hj), to_i32_idemp. do 3 f_equal. lia.
Qed.

Lemma m1_panel_packed g jc nc cur tb :
  mtag_b = PACK -> 0 <= jc -> 0 < nc -> jc + nc <= n -> room tb nc ->
  kernel_calls (b_of jc cur nc).1 = [] /\
  exists tb', room tb' nc /\ panel_reads (b_of jc cur nc).2 jc nc (m1_width nc) 0 tb' /\
    forall ta l, private_ok g ta tb' l -> private_ok g ta tb ((b_of jc cur nc).1 ++ l).
Proof using Hl HK Hk HB.
  intros Htag Hjc Hn Hjn Hroom. unfold gemv_m1_b. rewrite Htag, min_NR_16.
  change dlp_make_multiple_of_n with round_up. fold (m1_width nc). fold (m1_sums nc). fold (m1_size nc).
  destruct (packb_strides _ _) as [rs cs]. cbn [fst snd]. split.
  { rewrite !kernel_calls_app. assert (kernel_calls (if signed then [EvZeroColSum (InOwnB (m1_sums nc)) 0 nc] else []) = [])
      as -> by (clear -signed; by destruct signed).
    cbn [app]. rewrite kernel_calls_cons. cbn [kernel_of]. induction (loop_points 0 k KC) as [|x l IH]; [done|done]. }
  destruct (m1_facts nc Hn) as (Hw & Hk4 & Hs0 & Hcs0).
  assert (exists b0, alloc fresh tb (m1_size nc) = Some b0 /\ m1_size nc <= pb_size b0) as (b0 & Hal & Hsz0).
  { destruct tb as [b|]; eexists; (split; [done|]); [by apply Hroom|apply Z.le_refl]. }
  assert (exists b1, m1_size nc <= pb_size b1 /\ m1_content (pb_bytes b1) jc nc 0 /\
    forall ta l, private_ok g ta (Some b1) l ->
      private_ok g ta (Some b0) ((if signed then [EvZeroColSum (InOwnB (m1_sums nc)) 0 nc] else []) ++ l))
    as (b1 & Hsz1 & Hc1 & Hpriv1).
  { unfold m1_size, col_sums_size in *. destruct signed eqn:Hsg.
    - exists (mk_pack_buf (pb_size b0) (fill (pb_bytes b0) (m1_sums nc + 4 * 0) (m1_sums nc + 4 * nc) (fun _ => 0))).
      split; [done|]. split; [split|].
      + intros p j Hp Hlt. lia.
      + intros _ j Hj. cbn [pb_bytes]. rewrite zsum_nil by lia. rewrite load_i32_zero; [done|].
        intros x Hx. unfold fill. by rewrite (proj2 (Z.leb_le _ x)), (proj2 (Z.ltb_lt x _)) by lia.
      + intros ta l Hpl. cbn [app]. exists ta. eexists. split; [|split; [done|exact Hpl]].
        intros sh C. eexists. cbn [TeamMachine.do_event mbind option_bind]. unfold zero_sums.
        rewrite (proj2 (Z.leb_le 0 _)), (proj2 (Z.leb_le _ (pb_size b0))) by lia. reflexivity.
    - exists b0. split; [done|]. split; [split|done]; [intros p j Hp Hlt; lia|intros Hsg'; congruence]. }
  destruct (m1_pack_loop g jc nc Htag Hjc Hn Hjn 0 b1 ltac:(lia) (Z.divide_0_r _) Hsz1 Hc1)
    as (b2 & Hsz2 & Hc2 & Hpriv2).
  exists (Some b2). split; [intros _ b [= <-]; lia|]. split; [apply m1_packed_reads; (done || lia)|].
  intros ta l Hpl. cbn [app]. exists ta, (Some b0). split; [intros sh C; eexists; cbn; by rewrite Hal|].
  split; [done|]. rewrite <- app_assoc. by apply Hpriv1, Hpriv2.
Qed.

Lemma m1_panel_reordered g jc nc tb :
  mtag_b = REORDERED -> tile_ok n NR NC jc nc ->
  kernel_calls (b_of jc (NC * (jc / NC)) nc).1 = [] /\
  panel_reads (b_of jc (NC * (jc / NC)) nc).2 jc nc (panel_width n 16 NC (NC * (jc / NC))) (jc - NC * (jc / NC)) tb /\
  forall ta l, private_ok g ta tb l -> private_ok g ta tb ((b_of jc (NC * (jc / NC)) nc).1 ++ l).
Proof using Hl Hk HB.
  clear HK. intros Htag Ht. unfold gemv_m1_b. rewrite Htag. destruct (dlp_gemm_get_packb_strides lcntx) as [rs cs].
  cbn [fst snd app]. split; [done|]. split; [|done]. pose proof Hl as [].
  assert (reordered_B signed lcntx n k Bmem B0) as HR by (destruct HB as [[? _]|[_ ?]]; [congruence|done]).
  clear HB. intros sh c Eb Es Ei Eo En Ek Ej Esub Erem. cbn [b_use col_sum_vec col_sum_index] in Eb, Es, Ei.
  change dlp_make_multiple_of_n with round_up in Eb, Es.
  eexists _, (fun j => if signed then load_i32 Bmem (round_up k 4 * round_up n 16 + 4 * (jc + j)) else 0). split.
  - unfold b_view. rewrite Eb. reflexivity.
  - unfold sum_view, sum_at. rewrite Es, Ei, Eo. unfold col_sums. clear HR. destruct signed; [|done]. f_equal.
    by rewrite Z.add_0_r.
  - rewrite Ek, En, Ej. intros kr j Hkr Hj. change (0 + kr) with kr. unfold b_addr. rewrite Ek, En, Esub, Erem.
    destruct Ht as (H0 & H1 & H2 & H3 & H4). pose proof (block_bounds KC lo_KC kr) as HP.
    assert (0 <= KC * (kr / KC)) by (apply Z.mul_nonneg_nonneg, Z.div_pos; lia).
    rewrite <- (rb_elem _ _ _ _ _ _ HR kr (jc + j)) by lia. f_equal.
    assert (tile_ok n NR NC jc nc) as Ht by (unfold tile_ok; by split_and!).
    pose proof (tile_elem_pos n k NR 16 NC KC 4 Hl jc nc (KC * (kr / KC)) (kr - KC * (kr / KC)) j Ht
      ltac:(lia) (Z.divide_factor_l _ _) ltac:(lia) ltac:(lia)) as E.
    replace (KC * (kr / KC) + (kr - KC * (kr / KC))) with kr in E by lia. rewrite E.
    unfold tile_start, packed_index, panel_pos, block_height, k_padded. cbn zeta.
    change dlp_make_multiple_of_n with round_up. lia.
  - rewrite En, Ej. intros j Hsg _ Hj. destruct Ht as (H0 & H1 & H2 & H3 & H4).
    rewrite (rb_sum _ _ _ _ _ _ HR Hsg) by lia. by rewrite Hsg, to_i32_idemp.
Qed.

(** *** The columns of a thread *)

Local Abbreviation m1_loop := (gemv_m1_loop signed lcntx packb_strides n k rs_b cs_b mtag_b rs_c cs_c beta DLP_S32 ops).

(** The row of A as the kernel is given it. *)
Definition row_reads (ta : a_block) (a_use : ptr) (cs : Z) : Prop := forall c,
  kc_a c = a_use -> kc_cs_a c = cs -> kc_m0 c = 1 -> kc_k0 c = k -> post_op_c_i c = 0 ->
  A_ok lcntx rs_a cs_a K_m1 A K ta 0 c.

Lemma m1_size_mono nc nc' : 0 < nc' -> nc' <= nc -> m1_size nc' <= m1_size nc.
Proof using Hk.
  clear HK HB Hl. intros H0 Hle. unfold m1_size, m1_sums, m1_width, col_sums_size.
  pose proof (round_up_bounds nc 16 ltac:(lia) ltac:(lia)) as [? Hd]. pose proof (round_up_bounds k 4 ltac:(lia) ltac:(lia)).
  pose proof (round_up_least nc' 16 (round_up nc 16) ltac:(lia) ltac:(lia) ltac:(lia) Hd).
  destruct signed; nia.
Qed.

(** One iteration: the panel it takes, what it packs, and where the next one begins. *)
Lemma m1_iteration g s e jc tb :
  range_ok n NR s e -> s <= jc < e -> (mtag_b = REORDERED -> jc = s \/ (NC | jc)) ->
  room tb (Z.min (e - jc) NC) ->
  exists cur rem nc nsub, b_panel signed lcntx n mtag_b jc (Z.min (e - jc) NC) = (cur, rem, nc, nsub) /\
    let next := match mtag_b with REORDERED => dlp_gemm_adjust_B_panel_reordered_jc cur | _ => jc end + NC in
    0 < nc /\ jc + nc = Z.min e next /\ (mtag_b = REORDERED -> (NC | next)) /\
    kernel_calls (b_of jc cur nc).1 = [] /\
    exists tb', (next < e -> room tb' (Z.min (e - next) NC)) /\
      panel_reads (b_of jc cur nc).2 jc nc
        (match mtag_b with PACK => dlp_make_multiple_of_n nc (packb_min_NR signed) | _ => nsub end) rem tb' /\
      forall ta l, private_ok g ta tb' l -> private_ok g ta tb ((b_of jc cur nc).1 ++ l).
Proof using Hl HK Hk HB.
  intros Hr Hjc Hd Hroom. pose proof Hr as (Hs & _ & He & _). pose proof Hl as []. destruct HB as [[Htag _]|[Htag _]].
  - rewrite Htag. cbn [b_panel]. eexists jc, 0, _, 0. split; [reflexivity|]. cbn iota zeta. rewrite min_NR_16.
    destruct (m1_panel_packed g jc (Z.min (e - jc) NC) jc tb Htag ltac:(lia) ltac:(lia) ltac:(lia) Hroom)
      as (Hcalls & tb' & Hroom' & Hreads & Hpriv). rewrite Htag in Hcalls, Hreads, Hpriv.
    split; [lia|]. split; [lia|]. split; [done|]. split; [done|]. exists tb'. split; [|done].
    intros Hlt _ b Eb. specialize (Hroom' Htag b Eb).
    pose proof (m1_size_mono (Z.min (e - jc) NC) (Z.min (e - (jc + NC)) NC) ltac:(lia) ltac:(lia)). lia.
  - destruct (reordered_panel signed lcntx n k Hl s e jc Hr Hjc (Hd Htag)) as (nc & Ep & Hn & Hend & Ht).
    rewrite Htag. eexists _, _, nc, _. split; [exact Ep|]. cbn iota zeta.
    unfold dlp_gemm_adjust_B_panel_reordered_jc.
    destruct (m1_panel_reordered g jc nc tb Htag Ht) as (Hcalls & Hreads & Hpriv). rewrite Htag in Hcalls, Hreads, Hpriv.
    split; [done|]. split; [done|]. split.
    { intros _. apply Z.divide_add_r; [apply Z.divide_factor_l|apply Z.divide_refl]. }
    split; [done|]. exists tb. split; [intros _ E; congruence|done].
Qed.

Lemma m1_loop_ok g ta a_use rs cs s e fuel : row_reads ta a_use cs -> range_ok n NR s e -> forall jc tb,
  s <= jc -> (mtag_b = REORDERED -> jc = s \/ (NC | jc)) -> (jc < e -> room tb (Z.min (e - jc) NC)) ->
  Z.max 0 (e - jc) < Z.of_nat fuel ->
  exists l, m1_loop fuel a_use rs cs jc e = Some l /\ private_ok g ta tb l /\
    (forall pc c, (pc, c) ∈ kernel_calls l -> call_ok 1 n k rs_c beta ops pc c) /\
    forall ij, call_block <$> cell_calls ij l = if decide (ij.1 = 0 /\ jc <= ij.2 < e) then [(0, k)] else [].
Proof using Hl HK Hk HB.
  intros HA0 Hr. pose proof Hr as (Hs & _ & He & _). pose proof Hl as [].
  induction fuel as [|fuel IH]; intros jc tb Hjc Hd Hroom Hf; [lia|].
  cbn [gemv_m1_loop]. destruct (Z.ltb_spec jc e) as [Hlt|Hge].
  2: { exists []. split_and!; [done|done|by intros pc c ?%elem_of_nil|]. intros ij. by rewrite decide_False by lia. }
  destruct (m1_iteration g s e jc tb Hr ltac:(lia) Hd (Hroom Hlt))
    as (cur & rem & nc & nsub & -> & Hn & Hend & Hd' & Hcalls & tb' & Hroom' & Hreads & Hpriv).
  cbn zeta in *. destruct (b_of jc cur nc) as [pack_b bo]. cbn [fst snd] in Hcalls, Hreads, Hpriv.
  set (next := _ + NC) in Hend, Hd', Hroom' |- *.
  destruct (IH next tb') as (r & -> & Hpr & Hcr & Hcells); [lia|intros; right; auto|done|lia|].
  cbn [mbind option_bind]. match goal with |- context [EvKernel 0 ?c] => set (call := c) end.
  assert (call_ok 1 n k rs_c beta ops 0 call) as Hok.
  { split; cbn; first [done | lia | by symmetry; apply Z.eqb_eq | f_equal; lia]. }
  eexists. split; [done|]. split_and!.
  - apply Hpriv.
    assert (forall sh, call_reads signed lcntx K_m1 A rs_a cs_a Bmem K k B0 ta tb' sh 0 call) as Hcr'.
    { intros sh. split; [by apply HA0|by apply Hreads]. }
    exists ta, tb'. split; [intros sh C; by eapply call_reads_defined|]. split; [done|exact Hpr].
  - intros pc c. rewrite kernel_calls_app, Hcalls, kernel_calls_cons. cbn [app kernel_of].
    intros [[= -> ->]|Hin]%elem_of_cons; [done|by apply Hcr].
  - intros ij. rewrite cell_calls_app, fmap_app. unfold cell_calls at 1. rewrite Hcalls. cbn [filter list_filter fmap list_fmap app].
    rewrite cell_calls_cons_kernel, fmap_app, Hcells. destruct (covers ij call) eqn:Ec.
    + apply covers_true in Ec. cbn in Ec. rewrite (decide_False (P := _ /\ next <= _ < _)) by lia.
      rewrite decide_True by lia. done.
    + cbn [fmap list_fmap app]. apply decide_ext. assert (~ (ij.1 = 0 /\ jc <= ij.2 < jc + nc)); [|lia].
      intros Hij. apply not_true_iff_false in Ec. apply Ec, covers_true. cbn. lia.
Qed.

(** The row of A: in place, or packed. *)
Lemma gemv_m1_a_ok g : exists a_use rs cs ta,
  (gemv_m1_a lcntx k rs_a cs_a mtag_a).1 = ((gemv_m1_a lcntx k rs_a cs_a mtag_a).1.1.1, a_use, rs) /\
  (gemv_m1_a lcntx k rs_a cs_a mtag_a).2 = cs /\ row_reads ta a_use cs /\
  kernel_calls (gemv_m1_a lcntx k rs_a cs_a mtag_a).1.1.1 = [] /\
  forall tb l, private_ok g ta tb l -> private_ok g None tb ((gemv_m1_a lcntx k rs_a cs_a mtag_a).1.1.1 ++ l).
Proof using HK HA.
  clear HB Hk Hl. unfold gemv_m1_a. destruct HA as [[-> Hcs]|[-> Hrs]].
  - exists (InA 0), rs_a, 4, None. split; [done|]. split; [done|]. split; [|done].
    intros c Ea Ecs Em Ek Ei. eexists. split; [unfold a_view; rewrite Ea; reflexivity|].
    rewrite Em, Ek, Ei. intros i kr Hi Hkr. cbn [a_addr]. rewrite Ecs, Hcs. f_equal.
    assert (i = 0) as -> by lia. pose proof (Z.div_mod kr 4 ltac:(lia)). lia.
  - unfold dlp_packa_u8s8s32os32_strides, dlp_get_packa_strides_mfringe_u8s8s32os32. rewrite Hrs. cbn [Z.eqb Pos.eqb negb andb].
    exists (InPackA 0), k, 4, (Some (0, 1, k)). split; [done|]. split; [done|]. split; [|split; [done|]].
    + intros c Ea Ecs Em Ek Ei. eexists. split; [unfold a_view; rewrite Ea, Em, Ek, !Z.eqb_refl; reflexivity|].
      rewrite Em, Ek, Ei. intros i kr Hi Hkr. cbn [a_addr]. rewrite Ecs.
      replace (0 + (4 * (kr / 4) + kr mod 4)) with (0 * k + kr) by (pose proof (Z.div_mod kr 4 ltac:(lia)); lia).
      rewrite (kl_packa _ _ _ _ _ _ _ _ _ _ HK) by (done || lia). f_equal. assert (i = 0) as -> by lia. lia.
    + intros tb l Hpl. cbn [fst app]. eexists _, tb. split; [intros sh C; by eexists|by split].
Qed.

Lemma gemv_m1_thread g thread thread_jc :
  1 <= thr_n_threads thread -> 1 <= n_way thread_jc -> 0 <= thr_tid thread ->
  exists l, gemv_m1 signed lcntx packb_strides n k rs_a cs_a mtag_a rs_b cs_b mtag_b rs_c cs_c beta DLP_S32 ops thread thread_jc = Some l /\
    private_ok g None None l /\
    (forall pc c, (pc, c) ∈ kernel_calls l -> call_ok 1 n k rs_c beta ops pc c) /\
    forall ij, call_block <$> cell_calls ij l =
      if decide (ij.1 = 0 /\
        owns (mk_task_id 0 (gemv_ways (n_way thread_jc) (thr_n_threads thread)) (thr_tid thread)) n NR false ij.2)
      then [(0, k)] else [].
Proof using Hl HK Hk HA HB.
  intros Hnt Hnw Htid. unfold gemv_m1. fold (gemv_ways (n_way thread_jc) (thr_n_threads thread)). pose proof Hl as [].
  set (nw := gemv_ways _ _). assert (1 <= nw) by (subst nw; unfold gemv_ways; destruct (_ =? _); lia).
  destruct (gemv_m1_a_ok g) as (a_use & rs & cs & ta & Ea & Ecs & Hreads & Hcalls & Hpriv).
  destruct (gemv_m1_a _ _ _ _ _) as [[[pack_a a_use'] rs'] cs']. cbn [fst snd] in *.
  injection Ea as -> ->. subst cs'.
  assert (exists l, (let '(jc_start, jc_end) := dlp_thread_task_range (mk_task_id (ocomm_id thread_jc) nw (thr_tid thread)) n NR false in
    m1_loop (loop_fuel jc_start jc_end) a_use rs cs jc_start jc_end) = Some l /\ private_ok g ta None l /\
    (forall pc c, (pc, c) ∈ kernel_calls l -> call_ok 1 n k rs_c beta ops pc c) /\
    forall ij, call_block <$> cell_calls ij l =
      if decide (ij.1 = 0 /\ owns (mk_task_id 0 nw (thr_tid thread)) n NR false ij.2) then [(0, k)] else [])
    as (l & El & Hpl & Hok & Hcells).
  { destruct (Z.lt_ge_cases (thr_tid thread) nw) as [Hlt|Hge].
    - rewrite task_range_cut by lia.
      pose proof (thread_range_ok n k NR _ NC KC 4 Hl nw (thr_tid thread) ltac:(done) ltac:(lia)) as Hr.
      destruct (m1_loop_ok g ta a_use rs cs _ _ (loop_fuel (task_cut nw n NR false (thr_tid thread))
        (task_cut nw n NR false (thr_tid thread + 1))) Hreads Hr (task_cut nw n NR false (thr_tid thread)) None)
        as (l & El & Hpl & Hok & Hcells); [lia|by left|by intros _ _ b ?|unfold loop_fuel; lia|].
      exists l. split_and!; try done. intros ij. rewrite Hcells. apply decide_ext. rewrite owns_cut by lia. tauto.
    - rewrite task_range_retired by lia. exists []. split_and!; [|done|by intros pc c ?%elem_of_nil|].
      + unfold loop_fuel. cbn [gemv_m1_loop]. by rewrite Z.ltb_irrefl.
      + intros ij. rewrite decide_False; [done|]. rewrite owns_cut by lia. lia. }
  destruct (dlp_thread_task_range _ _ _ _) as [s e]. rewrite El. cbn [mbind option_bind].
  eexists. split; [done|]. split_and!.
  - by apply Hpriv.
  - intros pc c. rewrite kernel_calls_app, Hcalls. apply Hok.
  - intros ij. rewrite cell_calls_app. unfold cell_calls at 1. rewrite Hcalls. cbn [filter list_filter app].
    apply Hcells.
Qed.
End row.
