(* ===== verification/RefKernels.v ===== *)
(** * Kernels that keep the contract

    [kernel_laws] read as a program: packing that stores every element of a panel where
    the layout has it, with the column sums behind, and a tile product.  The hypotheses
    on the kernels can therefore be met, for any matrices and strides. *)
From S2P Require Import Prelude Word DlpTypes ThreadUtils ReorderLayout GemmDriver TeamMachine TeamCorrect.
From S2P Require Import GemmCalls ReorderedTeam PackedTeam GemvTeam.
From stdpp Require Import list.
#[local] Open Scope Z_scope.

Local Abbreviation round_up := dlp_reorder_round_up.

(** Two elements of a panel have different positions. *)
Lemma panel_pos_inj NR n0 k0 kr c kr' c' :
  0 < NR -> (16 | NR) -> 0 <= kr < k0 -> 0 <= c < n0 -> 0 <= kr' < k0 -> 0 <= c' < n0 ->
  panel_pos NR n0 k0 kr c = panel_pos NR n0 k0 kr' c' -> kr = kr' /\ c = c'.
Proof.
  intros HNR H16 Hk Hc Hk' Hc' E.
  assert (layout_ok n0 k0 NR 16 (NR * n0) (4 * k0) 4) as Hl.
  { split; first [done | lia | apply Z.divide_factor_l | nia]. }
  assert (forall kr c, 0 <= kr < k0 -> 0 <= c < n0 ->
    elem_pos n0 k0 NR 16 (NR * n0) (4 * k0) 4 kr c = panel_pos NR n0 k0 kr c) as Epos.
  { intros kr0 c0 Hk0 Hc0. unfold elem_pos, panel_pos, chunk_at. rewrite !Z.div_small, !Z.mul_0_r by nia.
    destruct (chunk_of n0 NR 16 c0) as [g s]. cbn [offset slot col_start].
    unfold packed_index, block_height. rewrite Z.min_l by lia. rewrite !Z.sub_0_r. lia. }
  apply (elem_pos_inj n0 k0 NR 16 (NR * n0) (4 * k0) 4 Hl); try done. by rewrite !Epos.
Qed.

Section ref.
Context (signed : bool) (lcntx : dlp_gemm_cntx_t).
Context (A : Z -> Z) (rs_a cs_a : Z) (Bmem : Z -> Z) (rs_b cs_b alpha : Z).

Local Abbreviation NR := (NR (blksz lcntx)).

(** The element of a panel at a position, when there is one. *)
Definition panel_elem (n0 k0 pos : Z) : option (Z * Z) :=
  find (fun e => panel_pos NR n0 k0 e.1 e.2 =? pos)
    (kr ← seqZ 0 k0; (fun c => (kr, c)) <$> seqZ 0 n0).

Definition ref_packb (src n0 k0 dst : Z) (sum : option Z) (b : Z -> Z) (x : Z) : Z :=
  let panel :=
    if (dst <=? x) && (x <? dst + round_up n0 16 * round_up k0 4)
    then match panel_elem n0 k0 (x - dst) with
         | Some (kr, c) => Bmem (src + rs_b * kr + cs_b * c)
         | None => 0
         end
    else b x in
  match sum with
  | Some s =>
      if (s <=? x) && (x <? s + 4 * n0) then
        let c := (x - s) / 4 in
        store_i32 b (s + 4 * c)
          (load_i32 b (s + 4 * c) + 128 * zsum (fun kr => load_i8 Bmem (src + rs_b * kr + cs_b * c)) 0 k0) x
      else panel
  | None => panel
  end.

Definition ref_packa (src m0 k0 x : Z) : Z := A (src + x / k0 + cs_a * (x mod k0)).

(** A chain of post-ops with [ReLU] in it, and no other. *)
Definition ref_epilogue (ops : list PostOpTypes.dlp_gemm_post_op) (i j v : Z) : Z :=
  if existsb (fun op => match PostOpTypes.op_code op with PostOpTypes.POST_OPS_RELU => true | _ => false end) ops
  then Z.max 0 v else v.

Definition ref_exec (c : kernel_call) (a b : Z -> Z -> Z) (s C : Z -> Z) (x : Z) : Z :=
  match kc_c c with
  | InC co =>
      let i' := (x - co) / kc_rs_c c in
      let j' := (x - co) mod kc_rs_c c in
      if bool_decide (0 <= i' < kc_m0 c /\ 0 <= j' < kc_n0 c)
      then (if is_last_k c
            then finish ref_epilogue (kc_post_op_list c) (post_op_c_i c + i') (post_op_c_j c + j') else id)
             (to_i32 (kc_beta c * C x +
               alpha * (zsum (fun kr => (a i' kr + a_bias signed) * b kr j') 0 (kc_k0 c)
                        - (if signed && is_last_k c then s j' else 0))))
      else C x
  | _ => C x
  end.

Definition ref_kernels : kernels := mk_kernels ref_packb ref_packa ref_exec ref_epilogue.

Hypothesis HNR : 0 < NR.
Hypothesis H16 : (16 | NR).

Lemma panel_elem_at n0 k0 kr c :
  0 <= kr < k0 -> 0 <= c < n0 -> panel_elem n0 k0 (panel_pos NR n0 k0 kr c) = Some (kr, c).
Proof using HNR H16.
  intros Hk Hc. unfold panel_elem.
  destruct (find _ _) as [[kr' c']|] eqn:E.
  - apply find_some in E as [Hin Epos%Z.eqb_eq]. cbn in Epos.
    apply list_elem_of_In, list_elem_of_bind in Hin as (kr0 & Hin & Hk0%elem_of_seqZ).
    apply list_elem_of_fmap in Hin as (c0 & [= -> ->] & Hc0%elem_of_seqZ).
    destruct (panel_pos_inj NR n0 k0 kr0 c0 kr c) as [-> ->]; try done; lia.
  - exfalso. assert (panel_pos NR n0 k0 (kr, c).1 (kr, c).2 =? panel_pos NR n0 k0 kr c = false) as Hne;
      [apply (find_none _ _ E)|]; cycle 1.
    + cbn in Hne. by rewrite Z.eqb_refl in Hne.
    + apply list_elem_of_In, list_elem_of_bind. exists kr. split; [|apply elem_of_seqZ; lia].
      apply list_elem_of_fmap. exists c. split; [done|]. apply elem_of_seqZ. lia.
Qed.

Lemma ref_packb_laws : packb_laws lcntx Bmem rs_b cs_b ref_kernels.
Proof using HNR H16.
  split; cbn [packb ref_kernels].
  - intros src n0 k0 dst sum b kr c Hkr Hc Hs. pose proof (panel_pos_bounds NR n0 k0 kr c HNR H16 Hkr Hc) as Hp.
    set (p := panel_pos NR n0 k0 kr c) in *. unfold load_i8. f_equal. unfold ref_packb.
    rewrite (proj2 (Z.leb_le dst _)), (proj2 (Z.ltb_lt (dst + p) (dst + _))) by lia. cbn [andb].
    replace (dst + p - dst) with p by lia. subst p. rewrite panel_elem_at by done. destruct sum as [s|]; [|done].
    specialize (Hs s eq_refl). by rewrite (proj2 (Z.leb_gt s _)) by lia.
  - intros src n0 k0 dst s b c Hc _ Hs. set (v := load_i32 b (s + 4 * c) + _).
    transitivity (load_i32 (store_i32 b (s + 4 * c) v) (s + 4 * c)); [|apply load_i32_store].
    apply load_i32_ext. intros x Hx. unfold ref_packb.
    rewrite (proj2 (Z.leb_le s x)), (proj2 (Z.ltb_lt x (s + 4 * n0))) by lia. cbn [andb].
    assert ((x - s) / 4 = c) as -> by (symmetry; apply (Z.div_unique _ 4 c (x - s - 4 * c)); lia). done.
  - intros src n0 k0 dst sum b x _ _ Hx Hs. unfold ref_packb.
    assert ((dst <=? x) && (x <? dst + round_up n0 16 * round_up k0 4) = false) as ->.
    { destruct (Z.leb_spec dst x); [|done]. destruct (Z.ltb_spec x (dst + round_up n0 16 * round_up k0 4)); [lia|done]. }
    destruct sum as [s|]; [|done]. specialize (Hs s eq_refl).
    destruct (Z.leb_spec s x); [|done]. destruct (Z.ltb_spec x (s + 4 * n0)); [|done]. exfalso.
    pose proof (round_up_bounds n0 16 ltac:(lia) ltac:(lia)). lia.
Qed.

Lemma ref_tile_laws : tile_laws signed alpha ref_kernels.
Proof using.
  split; cbn [exec epilogue ref_kernels].
  - intros c a b s C co i' j' Ec Hrs _ _ Hi Hj. unfold ref_exec. rewrite Ec.
    replace (co + i' * kc_rs_c c + j' - co) with (j' + i' * kc_rs_c c) by lia.
    rewrite Z.div_add, Z.mod_add by lia. rewrite Z.div_small, Z.mod_small, Z.add_0_l by lia.
    by rewrite bool_decide_eq_true_2.
  - intros c a b s C co x Ec Hrs _ Hout. unfold ref_exec. rewrite Ec.
    case_bool_decide as H; [|done]. destruct H as [Hi Hj].
    destruct (Hout _ _ Hi Hj). pose proof (Z.div_mod (x - co) (kc_rs_c c)). lia.
Qed.

Lemma ref_kernels_laws : kernel_laws signed lcntx A rs_a cs_a Bmem rs_b cs_b alpha ref_kernels.
Proof using HNR H16.
  split; [apply ref_packb_laws| |apply ref_tile_laws].
  intros src m0 k0 i kr _ Hi Hkr. cbn [packa ref_kernels]. unfold ref_packa.
  rewrite (Z.add_comm (i * k0)), Z.div_add, Z.mod_add, Z.div_small, Z.mod_small, Z.add_0_l by lia. done.
Qed.
End ref.
