(* ===== verification/GemmResult.v ===== *)
(** * What the GEMM drivers compute

    A team of threads that runs the 8-bit driver, on any shape, ends with the product:
    the cases of [ReorderedTeam], [PackedTeam] and [GemvTeam] put together. *)
From S2P Require Import Prelude Word DlpTypes ThreadUtils ThreadDecor ByteStore ReorderLayout Reorder.
From S2P Require Import GemmDriver TeamMachine TeamCorrect GemmCalls ReorderedTeam PackedTeam PackedDriver GemvTeam RefKernels.
From stdpp Require Import relations.
#[local] Open Scope Z_scope.

(** ** A team at its start *)

Definition start_thread (driver : dlp_gemm_thrinfo_t -> option (list event)) (c : gemm_call) : option thread :=
  l ← driver (call_thread c);
  segs ← split_barriers (call_comm c) l;
  Some (mk_thread (call_comm c) None None segs).

Definition start_team (driver : dlp_gemm_thrinfo_t -> option (list event)) (calls : list gemm_call) (C : Z -> Z)
    : option team_state :=
  ths ← mapM (start_thread driver) calls; Some (mk_team_state ths (fun _ => None) C).

Section start.
Context (driver : dlp_gemm_thrinfo_t -> option (list event)) (ic jc comm : Z) (calls : list gemm_call).
Hypothesis Hic : 1 <= ic.
Hypothesis Hjc : 1 <= jc.
Hypothesis Hteam : full_team ic jc comm calls.

Local Abbreviation thrinfo id := (mk_thrinfo (ic * jc) id ic jc comm).
Local Abbreviation tids := (thr_tid ∘ call_thread <$> calls).

(** The thread with an id, and what it runs. *)
Definition team_trace (id : Z) : list event := default [] (driver (thrinfo id)).
Definition team_segs (id : Z) : list (list event) := default [] (split_barriers (id / ic) (team_trace id)).
Definition team_thread (id : Z) : thread := mk_thread (id / ic) None None (team_segs id).

(** Each thread's driver ends, and passes the barriers of its group only. *)
Hypothesis Hruns : forall id, 0 <= id < ic * jc ->
  is_Some (driver (thrinfo id)) /\ is_Some (split_barriers (id / ic) (team_trace id)).

Lemma call_thread_eq c : c ∈ calls -> call_thread c = thrinfo (thr_tid (call_thread c)).
Proof using Hteam.
  intros Hc. destruct (ft_ways _ _ _ _ Hteam c Hc) as (Ei & Ej & Ec & En).
  destruct (call_thread c). cbn in *. congruence.
Qed.

Lemma start_team_eq C : start_team driver calls C =
  Some (mk_team_state (team_thread <$> tids) (fun _ => None) C).
Proof using Hic Hteam Hruns.
  unfold start_team. enough (mapM (start_thread driver) calls = Some (team_thread <$> tids)) as -> by done.
  apply mapM_Some. rewrite <- list_fmap_compose, Forall2_fmap_r. apply Forall2_same_length_lookup_2; [done|].
  intros i c c' Hc Hc'. simplify_eq. apply list_elem_of_lookup_2 in Hc.
  pose proof (team_tid_bounds ic jc comm calls Hteam c Hc) as Hid.
  destruct (Hruns _ Hid) as [[l El] [segs Es]]. unfold start_thread, compose.
  pose proof (call_thread_eq c Hc) as Ec. set (id := thr_tid (call_thread c)) in *.
  assert (call_comm c = id / ic) as ->.
  { unfold call_comm. by rewrite (team_task_ids ic jc comm calls Hic Hteam c Hc). }
  unfold team_thread, team_segs, team_trace in *. rewrite Ec, El in *. cbn in *. rewrite Es. done.
Qed.

Lemma team_remaining id : 0 <= id < ic * jc ->
  kernel_calls (remaining (team_thread id)) = kernel_calls (team_trace id).
Proof using Hruns.
  intros Hid. destruct (Hruns id Hid) as [_ [segs Es]]. unfold remaining, team_thread, team_segs. cbn. rewrite Es.
  by eapply split_barriers_calls.
Qed.

(** Every element of C has one thread, whose calls on it are the k blocks in order. *)
Record team_cells (m n k rs_c beta : Z) (ops : list PostOpTypes.dlp_gemm_post_op) (own : Z -> Z * Z -> Prop) (blocks : list (Z * Z)) : Prop := mk_team_cells {
  tc_calls : forall id pc c, 0 <= id < ic * jc -> (pc, c) ∈ kernel_calls (team_trace id) ->
    call_ok m n k rs_c beta ops pc c;
  tc_own : forall id ij, 0 <= id < ic * jc -> own id ij -> call_block <$> cell_calls ij (team_trace id) = blocks;
  tc_other : forall id ij, 0 <= id < ic * jc -> ~ own id ij -> cell_calls ij (team_trace id) = [];
  tc_chain : forall l, call_block <$> l = blocks -> chain k 0 l;
  tc_owner : forall i j, 0 <= i < m -> 0 <= j < n -> exists id, 0 <= id < ic * jc /\ own id (i, j) /\
    forall id', 0 <= id' < ic * jc -> own id' (i, j) -> id' = id;
}.

Lemma tids_elem id : id ∈ tids <-> 0 <= id < ic * jc.
Proof using Hteam. rewrite (ft_tids _ _ _ _ Hteam), elem_of_seqZ. lia. Qed.

Lemma start_cells signed alpha K m n k rs_c beta ops own blocks A0 B0 C :
  team_cells m n k rs_c beta ops own blocks ->
  cells_ok signed alpha K m n k rs_c beta ops A0 B0 C (team_thread <$> tids) C.
Proof using Hteam Hruns.
  intros [Hcalls Hown Hother Hchain Howner].
  assert (forall id ij, 0 <= id < ic * jc ->
    cell_calls ij (remaining (team_thread id)) = cell_calls ij (team_trace id)) as Hcell
    by (intros id ij Hid; unfold cell_calls; by rewrite team_remaining).
  split.
  - intros th pc c (id & -> & Hid%tids_elem)%list_elem_of_fmap. rewrite team_remaining by done. by apply Hcalls.
  - intros i j Hi Hj. destruct (Howner i j Hi Hj) as (id & Hid & Ho & Huniq).
    assert (id ∈ tids) as [t Ht]%list_elem_of_lookup by by apply tids_elem.
    exists t, (team_thread id), 0. split_and!.
    + by rewrite list_lookup_fmap, Ht.
    + rewrite Hcell by done. by apply Hchain, Hown.
    + done.
    + intros t' th' Ht' Hne. rewrite list_lookup_fmap in Ht'. apply fmap_Some in Ht' as (id' & Hid' & ->).
      assert (0 <= id' < ic * jc) as Hr' by (apply tids_elem; by eapply list_elem_of_lookup_2).
      rewrite Hcell by done. apply Hother; [done|]. intros Ho'. apply Hne.
      assert (id' = id) as -> by by apply Huniq. apply (NoDup_lookup tids t' t id); try done.
      rewrite (ft_tids _ _ _ _ Hteam). apply NoDup_seqZ.
Qed.

(** ** Threads that do not synchronise *)

Section private.
Context (signed : bool) (lcntx : dlp_gemm_cntx_t) (kind : kernel_kind).
Context (A : Z -> Z) (rs_a cs_a : Z) (Bmem : Z -> Z) (rs_b cs_b alpha : Z) (K : kernels) (fresh : Z -> Z).
Context (m n k rs_c beta : Z) (ops : list PostOpTypes.dlp_gemm_post_op) (B0 : Z -> Z -> Z) (own : Z -> Z * Z -> Prop) (blocks : list (Z * Z)) (C0 : Z -> Z).

Hypothesis HK : kernel_laws signed lcntx A rs_a cs_a Bmem rs_b cs_b alpha K.
Hypothesis Hrs : n <= rs_c.
Hypothesis Hops : elementwise ops = true.
Hypothesis Hk : 0 < k.
Hypothesis Hprivate : forall id, 0 <= id < ic * jc ->
  private_ok signed lcntx kind A rs_a cs_a Bmem K fresh k B0 (id / ic) None None (team_trace id).
Hypothesis Hcells : team_cells m n k rs_c beta ops own blocks.

Lemma private_ends : exists st0, start_team driver calls C0 = Some st0 /\
  team_ends signed lcntx kind A Bmem K fresh st0 (fun st => forall i j, 0 <= i < m -> 0 <= j < n ->
    st_C st (rs_c * i + j) = finish (epilogue K) ops i j (to_i32 (beta * C0 (rs_c * i + j) +
      alpha * zsum (fun p => A (rs_a * i + cs_a * p) * B0 p j) 0 k))).
Proof using Hic Hteam Hruns HK Hrs Hops Hk Hprivate Hcells.
  eexists. split; [apply start_team_eq|].
  eapply (team_invariant_ends _ _ _ _ rs_a cs_a _ rs_b cs_b alpha _ _ HK m n k rs_c beta ops
    (fun i p => A (rs_a * i + cs_a * p)) B0 Hrs Hops C0).
  - by apply (private_team_invariant signed lcntx kind A rs_a cs_a Bmem K fresh k B0).
  - intros th (id & -> & Hid%tids_elem)%list_elem_of_fmap. exists (team_trace id). split; [|by apply Hprivate].
    unfold team_thread, team_segs. cbn.
    rewrite <- (app_nil_r (team_trace id)), (split_no_barrier _ (team_trace id) [] [] []); [done| |done].
    by eapply private_no_barrier, Hprivate.
  - done.
  - by eapply start_cells.
Qed.
End private.
End start.

(** ** Who owns an element *)

Lemma grid_owner ic jc m n MR NR i j :
  1 <= ic -> 1 <= jc -> 1 <= MR -> 1 <= NR -> 0 <= i < m -> 0 <= j < n ->
  exists id, 0 <= id < ic * jc /\
    (owns (mk_task_id id jc (id / ic)) n NR false j /\ owns (mk_task_id (id mod ic) ic (id mod ic)) m MR false i) /\
    forall id', 0 <= id' < ic * jc ->
      owns (mk_task_id id' jc (id' / ic)) n NR false j /\ owns (mk_task_id (id' mod ic) ic (id' mod ic)) m MR false i ->
      id' = id.
Proof.
  intros Hic Hjc HMR HNR Hi Hj.
  destruct (owns_exists jc n NR false j) as (w & Hw & How); [lia..|].
  destruct (owns_exists ic m MR false i) as (v & Hv & Hov); [lia..|].
  destruct (grid_inverse ic w v) as [Ew Ev]; [lia..|]. exists (w * ic + v). rewrite Ew, Ev.
  split; [nia|]. split; [by split|]. intros id' Hid' [Ho1 Ho2].
  assert (id' / ic = w) by (apply (owns_unique id' 0 jc _ _ n NR false j); [lia..|done|done]).
  assert (id' mod ic = v) by (apply (owns_unique (id' mod ic) 0 ic _ _ m MR false i); [lia..|done|done]).
  pose proof (tid_of_grid ic id' Hic). lia.
Qed.

(** On the vector paths the work ids are the thread ids. *)
Lemma line_owner ic jc ways len bf i :
  1 <= ic -> 1 <= jc -> ways = ic \/ ways = jc -> 1 <= bf -> 0 <= i < len ->
  let own id := owns (mk_task_id 0 (gemv_ways ways (ic * jc)) id) len bf false i in
  exists id, 0 <= id < ic * jc /\ own id /\ forall id', 0 <= id' < ic * jc -> own id' -> id' = id.
Proof.
  intros Hic Hjc Hways Hbf Hi own. subst own. cbn beta. unfold gemv_ways.
  set (nw := if ways =? 1 then ic * jc else ways).
  assert (1 <= nw <= ic * jc) as Hnw by (subst nw; destruct (Z.eqb_spec ways 1), Hways; subst; nia).
  destruct (owns_exists nw len bf false i) as (w & Hw & How); [lia..|]. exists w. split; [lia|]. split; [done|].
  intros id' _ Ho. apply (owns_unique 0 0 nw _ _ len bf false i); [lia..|done|done].
Qed.

(** ** The driver *)

Lemma kernel_calls_concat (f : panel -> list event) qs x :
  x ∈ kernel_calls (concat (f <$> qs)) -> exists q, q ∈ qs /\ x ∈ kernel_calls (f q).
Proof.
  induction qs as [|q qs IH]; [by intros ?%elem_of_nil|]. cbn [fmap list_fmap concat].
  rewrite kernel_calls_app. intros [Hx|(q' & Hq' & Hx)%IH]%elem_of_app; [exists q|exists q'];
    (split; [rewrite elem_of_cons; tauto|done]).
Qed.

Section result.
Context (signed : bool) (lcntx : dlp_gemm_cntx_t) (packb_strides : Z -> Z -> Z * Z).
Context (A : Z -> Z) (rs_a cs_a : Z) (Bmem : Z -> Z) (rs_b cs_b alpha : Z) (K : kernels) (fresh : Z -> Z).
Context (m n k : Z) (mtag_a mtag_b : AOCL_DLP_MEMORY_TAG) (rs_c cs_c beta : Z) (ops : list PostOpTypes.dlp_gemm_post_op) (B0 : Z -> Z -> Z).
Context (ic jc comm : Z) (calls : list gemm_call) (C0 : Z -> Z).

Local Abbreviation NC := (NC (blksz lcntx)).
Local Abbreviation KC := (KC (blksz lcntx)).
Local Abbreviation MC := (MC (blksz lcntx)).
Local Abbreviation NR := (NR (blksz lcntx)).
Local Abbreviation MR := (MR (blksz lcntx)).
Local Abbreviation driver := (rowvar signed lcntx packb_strides m n k rs_a cs_a mtag_a rs_b cs_b mtag_b rs_c cs_c
  beta DLP_S32 ops).
Local Abbreviation thrinfo id := (mk_thrinfo (ic * jc) id ic jc comm).
Local Abbreviation product st := (forall i j, 0 <= i < m -> 0 <= j < n ->
  st_C st (rs_c * i + j) = finish (epilogue K) ops i j (to_i32 (beta * C0 (rs_c * i + j) +
    alpha * zsum (fun p => A (rs_a * i + cs_a * p) * B0 p j) 0 k))).

(** A is used by rows as it is, or by columns and packed. *)
Definition A_given : Prop :=
  mtag_a = UNPACKED /\ cs_a = 1 \/ mtag_a = PACK /\ rs_a = 1 /\ (m = 1 \/ cs_a <> 1).

(** B is the caller's matrix, or was reordered. *)
Definition B_given : Prop :=
  mtag_b = PACK /\ (forall p j, 0 <= p < k -> 0 <= j < n -> B0 p j = load_i8 Bmem (rs_b * p + cs_b * j)) \/
  mtag_b = REORDERED /\
    if n =? 1 then reordered_column signed Bmem k B0 else reordered_B signed lcntx n k Bmem B0.

Hypothesis Hl : layout_ok n k NR 16 NC KC 4.
Hypothesis HMC : 0 < MC.
Hypothesis HMR : 0 < MR.
Hypothesis HK : kernel_laws signed lcntx A rs_a cs_a Bmem rs_b cs_b alpha K.
Hypothesis HA : A_given.
Hypothesis HB : B_given.
Hypothesis Hm : 1 <= m.
Hypothesis Hn : 1 <= n.
Hypothesis Hk : 1 <= k.
Hypothesis Hrs : n <= rs_c.
Hypothesis Hops : elementwise ops = true.
Hypothesis Hic : 1 <= ic.
Hypothesis Hjc : 1 <= jc.
Hypothesis Hteam : full_team ic jc comm calls.

Lemma team_trace_of (Q : Z -> list event -> Prop) :
  (forall id, 0 <= id < ic * jc -> exists l, driver (thrinfo id) = Some l /\ Q id l) ->
  forall id, 0 <= id < ic * jc ->
    is_Some (driver (thrinfo id)) /\ Q id (team_trace driver ic jc comm id).
Proof using.
  intros H id Hid. destruct (H id Hid) as (l & El & HQ). unfold team_trace. rewrite El. eauto.
Qed.

(** Threads that do not synchronise: it is enough to look at their traces. *)
Lemma private_driver_ends kind (own : Z -> Z * Z -> Prop) `{!forall id ij, Decision (own id ij)} blocks :
  (forall id, 0 <= id < ic * jc -> exists l, driver (thrinfo id) = Some l /\
    private_ok signed lcntx kind A rs_a cs_a Bmem K fresh k B0 (id / ic) None None l /\
    (forall pc c, (pc, c) ∈ kernel_calls l -> call_ok m n k rs_c beta ops pc c) /\
    forall ij, call_block <$> cell_calls ij l = if decide (own id ij) then blocks else []) ->
  (forall l, call_block <$> l = blocks -> chain k 0 l) ->
  (forall i j, 0 <= i < m -> 0 <= j < n -> exists id, 0 <= id < ic * jc /\ own id (i, j) /\
    forall id', 0 <= id' < ic * jc -> own id' (i, j) -> id' = id) ->
  exists st0, start_team driver calls C0 = Some st0 /\
    team_ends signed lcntx kind A Bmem K fresh st0 (fun st => product st).
Proof using HK Hk Hrs Hops Hic Hteam.
  clear HA HB Hl HMC HMR. intros Hd Hchain Hown. pose proof (team_trace_of _ Hd) as Htr.
  assert (forall id, 0 <= id < ic * jc -> is_Some (driver (thrinfo id)) /\
    is_Some (split_barriers (id / ic) (team_trace driver ic jc comm id))) as Hruns.
  { intros id Hid. destruct (Htr id Hid) as (Hs & Hpr & _). split; [done|]. eexists.
    rewrite <- (app_nil_r (team_trace _ _ _ _ _)). apply split_no_barrier; [|done].
    by eapply private_no_barrier. }
  eapply (private_ends driver ic jc comm calls Hic Hteam Hruns); try done; [lia|by intros; apply Htr|].
  apply (mk_team_cells driver ic jc comm m n k rs_c beta ops own blocks); try done.
  - intros id pc c Hid Hin. by eapply Htr.
  - intros id ij Hid Ho. destruct (Htr id Hid) as (_ & _ & _ & ->). by rewrite decide_True.
  - intros id ij Hid Ho. destruct (Htr id Hid) as (_ & _ & _ & E). specialize (E ij).
    rewrite decide_False in E by done. by apply fmap_nil_inv in E.
Qed.

Lemma column_ends : n = 1 -> exists st0, start_team driver calls C0 = Some st0 /\
  team_ends signed lcntx (kind_of m n) A Bmem K fresh st0 (fun st => product st).
Proof using HMC HK HA HB Hm Hn Hk Hrs Hops Hic Hjc Hteam.
  clear Hl. intros En. pose proof HK as HK'.
  assert (mtag_a = UNPACKED /\ cs_a = 1 \/ mtag_a = PACK /\ rs_a = 1) as HA'
    by (destruct HA as [?|(? & ? & _)]; auto).
  assert (mtag_b = PACK \/ mtag_b = REORDERED) as Htag by (destruct HB as [[? _]|[? _]]; auto).
  assert (column_given signed Bmem rs_b k mtag_b B0) as HB'.
  { destruct HB as [[? H]|[? H]]; [left|right]; (split; [done|]).
    - intros p Hp. rewrite H by lia. f_equal. lia.
    - by rewrite En in H. }
  assert (kind_of m n = K_n1) as -> by (unfold kind_of; by rewrite En).
  apply (private_driver_ends K_n1 (fun id ij => owns (mk_task_id 0 (gemv_ways ic (ic * jc)) id) m 16 false ij.1 /\
    ij.2 = 0) [(0, k)]).
  - intros id Hid. unfold rowvar, gemv.
    rewrite bool_decide_false by (destruct Htag as [-> | ->]; done). rewrite En, orb_true_r. cbn [Z.eqb Pos.eqb].
    cbn [dlp_gemm_gen_dlp_task_ids thr_tid thr_ic_ways thr_jc_ways].
    destruct (gemv_n1_thread signed lcntx A rs_a cs_a Bmem rs_b cs_b alpha K fresh m k mtag_a mtag_b rs_c cs_c beta ops B0
      HK HMC ltac:(lia) HA' HB' ltac:(lia) (id / ic) (thrinfo id)
      (mk_task_id (id `rem` ic) ic (id `rem` ic))) as (l & El & Hp & Hok & Hcells); [cbn; nia|cbn; lia|cbn; lia|].
    exists l. by split_and!.
  - intros l El. destruct l as [|[pc c] [|]]; try done. injection El as -> Ec. cbn. lia.
  - intros i j Hi Hj. destruct (line_owner ic jc ic m 16 i) as (id & Hid & Ho & Hu); [lia..|by left|lia|done|].
    exists id. split; [done|]. split; [split; [done|cbn; lia]|]. intros id' Hid' [Ho' _]. by apply Hu.
Qed.

Lemma row_ends : m = 1 -> n <> 1 -> exists st0, start_team driver calls C0 = Some st0 /\
  team_ends signed lcntx (kind_of m n) A Bmem K fresh st0 (fun st => product st).
Proof using Hl HK HA HB Hm Hn Hk Hrs Hops Hic Hjc Hteam.
  intros Em En.
  assert (mtag_a = UNPACKED /\ cs_a = 1 \/ mtag_a = PACK /\ rs_a = 1) as HA'
    by (destruct HA as [?|(? & ? & _)]; auto).
  assert (mtag_b = PACK \/ mtag_b = REORDERED) as Htag by (destruct HB as [[? _]|[? _]]; auto).
  assert (row_given signed lcntx Bmem rs_b cs_b n k mtag_b B0) as HB'.
  { destruct HB as [?|[? H]]; [by left|right]. by rewrite (proj2 (Z.eqb_neq n 1)) in H. }
  assert (kind_of m n = K_m1) as -> by (unfold kind_of; by rewrite (proj2 (Z.eqb_neq n 1)), Em).
  apply (private_driver_ends K_m1 (fun id ij => ij.1 = 0 /\
    owns (mk_task_id 0 (gemv_ways jc (ic * jc)) id) n NR false ij.2) [(0, k)]).
  - intros id Hid. unfold rowvar, gemv.
    rewrite bool_decide_false by (destruct Htag as [-> | ->]; done).
    rewrite (proj2 (Z.eqb_neq n 1)), Em by done. cbn [Z.eqb Pos.eqb orb].
    cbn [dlp_gemm_gen_dlp_task_ids thr_tid thr_ic_ways thr_jc_ways].
    destruct (gemv_m1_thread signed lcntx packb_strides A rs_a cs_a Bmem rs_b cs_b alpha K fresh n k mtag_a mtag_b rs_c
      cs_c beta ops B0 Hl HK ltac:(lia) HA' HB' (id / ic) (thrinfo id)
      (mk_task_id id jc (id `quot` ic))) as (l & El & Hp & Hok & Hcells); [cbn; nia|cbn; lia|cbn; lia|].
    exists l. by split_and!.
  - intros l El. destruct l as [|[pc c] [|]]; try done. injection El as -> Ec. cbn. lia.
  - intros i j Hi Hj. destruct (line_owner ic jc jc n NR j) as (id & Hid & Ho & Hu); [lia..|by right| |done|].
    { destruct Hl. lia. }
    exists id. split; [done|]. split; [split; [cbn; lia|done]|]. intros id' Hid' [_ Ho']. by apply Hu.
Qed.

Lemma reordered_ends : m <> 1 -> n <> 1 -> mtag_b = REORDERED -> exists st0, start_team driver calls C0 = Some st0 /\
  team_ends signed lcntx (kind_of m n) A Bmem K fresh st0 (fun st => product st).
Proof using Hl HMC HMR HK HA HB Hm Hn Hk Hrs Hops Hic Hjc Hteam.
  intros Em En Htag. pose proof Hl as [].
  assert (a_readable rs_a cs_a mtag_a) as HA' by (destruct HA as [?|(? & ? & [|])]; [by left|done|by right]).
  assert (reordered_B signed lcntx n k Bmem B0) as HB'.
  { destruct HB as [[? _]|[_ H]]; [congruence|]. by rewrite (proj2 (Z.eqb_neq n 1)) in H. }
  assert (kind_of m n = K_gemm) as -> by (unfold kind_of; by rewrite !(proj2 (Z.eqb_neq _ 1))).
  apply (private_driver_ends K_gemm (thread_owns lcntx m n ic jc) (k_blocks k KC)).
  - intros id Hid. destruct (reordered_thread signed lcntx packb_strides A rs_a cs_a Bmem rs_b cs_b alpha K m n k mtag_a
      rs_c cs_c beta ops B0 Hl HMC HMR HK HA' HB' ltac:(lia) (thrinfo id) ic jc Hic Hjc eq_refl eq_refl Hid) as (l & El & [Hseq Hcells]).
    exists l. split_and!.
    + unfold rowvar. rewrite bool_decide_false by by rewrite Htag. rewrite !(proj2 (Z.eqb_neq _ 1)) by done.
      cbn [orb]. by rewrite Htag.
    + eapply private_kseq; [|apply Hseq]. intros ta pc c Hc. apply Hc.
    + eapply kseq_calls; [|apply (Hseq None)]. intros ta pc c Hc. apply Hc.
    + exact Hcells.
  - intros l. apply k_blocks_chain; lia.
  - intros i j Hi Hj. apply (grid_owner ic jc m n MR NR i j); lia.
Qed.

(** ** B packed by the team *)

Local Abbreviation B1 := (fun p j => load_i8 Bmem (rs_b * p + cs_b * j)).
Local Abbreviation col_cut g := (task_cut jc n NR false g).
Local Abbreviation group_panels g := (panels lcntx k (col_cut g) (col_cut (g + 1))).
Local Abbreviation group_kern := (kern signed lcntx packb_strides rs_a cs_a rs_b cs_b m k ic mtag_a rs_c cs_c beta ops).

Lemma packed_thread id : m <> 1 -> n <> 1 -> mtag_b = PACK -> 0 <= id < ic * jc ->
  exists l, driver (thrinfo id) = Some l /\
    split_barriers (id / ic) l = Some (send signed lcntx k (id / ic) (id mod ic) (group_panels (id / ic)) ::
      rest signed lcntx rs_b cs_b k ic (id / ic) group_kern (id mod ic) (group_panels (id / ic))) /\
    kernel_calls l = kernel_calls (concat (group_kern (id mod ic) <$> group_panels (id / ic))).
Proof using Hl HMC HMR HK HA Hm Hn Hk Hic Hjc.
  clear HB. intros Em En Htag Hid. pose proof Hl as [].
  assert (a_readable rs_a cs_a mtag_a) as HA' by (destruct HA as [?|(? & ? & [|])]; [by left|done|by right]).
  destruct (grid_bounds ic jc id Hic Hjc Hid) as [Hg Hv].
  pose proof (thread_range_ok n k NR _ NC KC 4 Hl jc (id / ic) Hjc Hg) as (Hs & _ & He & _).
  unfold rowvar. rewrite bool_decide_false by by rewrite Htag. rewrite !(proj2 (Z.eqb_neq _ 1)) by done.
  cbn [orb]. unfold five_loops. rewrite Htag. cbn [dlp_gemm_gen_dlp_task_ids thr_tid thr_ic_ways thr_jc_ways]. cdiv.
  rewrite !task_range_cut by lia.
  assert (id = id / ic * ic + id mod ic) as Eid by (pose proof (Z.div_mod id ic); lia).
  set (g := id / ic) in *. set (v := id mod ic) in *.
  replace (mk_task_id id jc g) with (mk_task_id (g * ic + v) jc g) by (f_equal; lia).
  pose proof (packed_jc_loop signed lcntx packb_strides A rs_a cs_a Bmem rs_b cs_b alpha K m n k ic jc mtag_a rs_c cs_c beta ops
    Hl HMC HMR HK HA' Hic ltac:(lia) g v (col_cut (g + 1)) (col_cut g) (loop_fuel (col_cut g) (col_cut (g + 1))) Hv Hs He
    ltac:(unfold loop_fuel; lia)) as El. unfold row_start in El. rewrite El. clear El.
  cbn [mbind option_bind work_id dlp_thread_am_ochief ocomm_id].
  eexists. split; [reflexivity|]. split.
  - pose proof (trace_split signed lcntx packb_strides A rs_a cs_a Bmem rs_b cs_b alpha K m n k ic mtag_a rs_c cs_c beta ops
      Hl HMC HMR HK HA' Hic ltac:(lia) g v (group_panels g) [] Hv (panels_ok lcntx n k Hl _ _ Hs He) ltac:(constructor)) as E.
    exact E.
  - rewrite kernel_calls_app.
    assert (kernel_calls (EvBarrier g :: (if dlp_thread_am_ochief (mk_task_id v ic v) then [EvFree g] else [])) = [])
      as -> by (clear; by destruct (dlp_thread_am_ochief _)).
    rewrite app_nil_r. clear. induction (group_panels g) as [|q qs IH]; [done|].
    cbn [fmap list_fmap concat]. rewrite !kernel_calls_app. f_equal; [|exact IH].
    unfold panel_trace, send, part, pack_ev. rewrite !kernel_calls_app.
    destruct (v =? 0), (p_cut lcntx ic q v <? p_cut lcntx ic q (v + 1)), (signed && (p_pc q =? 0)); done.
Qed.

Lemma packed_cells own :
  m <> 1 -> n <> 1 -> mtag_b = PACK -> own = thread_owns lcntx m n ic jc ->
  team_cells driver ic jc comm m n k rs_c beta ops own (k_blocks k KC).
Proof using B0 C0 fresh Hl HMC HMR HK HA Hm Hn Hk Hic Hjc.
  clear HB. intros Em En Htag ->. pose proof Hl as [].
  assert (a_readable rs_a cs_a mtag_a) as HA' by (destruct HA as [?|(? & ? & [|])]; [by left|done|by right]).
  pose proof (fun id Hid => team_trace_of _ (fun id Hid => packed_thread id Em En Htag Hid) id Hid) as Htr.
  assert (forall id, 0 <= id < ic * jc -> 0 <= id mod ic < ic /\ 0 <= col_cut (id / ic) /\ col_cut (id / ic + 1) <= n /\
    0 <= id / ic < jc) as Hb.
  { intros id Hid. destruct (grid_bounds ic jc id Hic Hjc Hid) as [Hg Hv].
    pose proof (thread_range_ok n k NR _ NC KC 4 Hl jc (id / ic) Hjc Hg) as (Hs & _ & He & _). tauto. }
  assert (forall id ij, 0 <= id < ic * jc -> call_block <$> cell_calls ij (team_trace driver ic jc comm id) =
    if decide (thread_owns lcntx m n ic jc id ij) then k_blocks k KC else []) as Hcells.
  { intros id ij Hid. destruct (Hb id Hid) as (Hv & Hs & He & Hg). destruct (Htr id Hid) as (_ & _ & E).
    unfold cell_calls. rewrite E. fold (cell_calls ij (concat (group_kern (id mod ic) <$> group_panels (id / ic)))).
    rewrite (panels_cells signed lcntx packb_strides A rs_a cs_a Bmem rs_b cs_b alpha K m n k ic mtag_a rs_c cs_c beta ops
      Hl HMC HMR HK HA' Hic ltac:(lia)) by done.
    apply decide_ext. unfold thread_owns. rewrite !owns_cut by lia. unfold row_start. tauto. }
  split.
  - intros id pc c Hid Hin. destruct (Htr id Hid) as (_ & _ & E). rewrite E in Hin.
    apply kernel_calls_concat in Hin as (q & Hq & Hin). destruct (Hb id Hid) as (Hv & Hs & He & Hg).
    pose proof (panels_ok lcntx n k Hl _ _ Hs He) as Hok. rewrite Forall_forall in Hok.
    destruct (kern_ok signed lcntx packb_strides A rs_a cs_a Bmem rs_b cs_b alpha K m n k ic mtag_a rs_c cs_c beta ops
      Hl HMC HMR HK HA' Hic ltac:(lia) (id mod ic) q Hv (Hok q Hq)) as [_ [Hseq _]].
    eapply kseq_calls; [|apply (Hseq None)|exact Hin]. intros ta pc' c' Hc. apply Hc.
  - intros id ij Hid Ho. rewrite Hcells by done. by rewrite decide_True.
  - intros id ij Hid Ho. specialize (Hcells id ij Hid). rewrite decide_False in Hcells by done.
    by apply fmap_nil_inv in Hcells.
  - intros l. apply k_blocks_chain; lia.
  - intros i j Hi Hj. apply (grid_owner ic jc m n MR NR i j); lia.
Qed.

Lemma packed_ends : m <> 1 -> n <> 1 -> mtag_b = PACK -> exists st0, start_team driver calls C0 = Some st0 /\
  team_ends signed lcntx (kind_of m n) A Bmem K fresh st0 (fun st => forall i j, 0 <= i < m -> 0 <= j < n ->
    st_C st (rs_c * i + j) = finish (epilogue K) ops i j (to_i32 (beta * C0 (rs_c * i + j) +
      alpha * zsum (fun p => A (rs_a * i + cs_a * p) * B1 p j) 0 k))).
Proof using B0 Hl HMC HMR HK HA Hm Hn Hk Hrs Hops Hic Hjc Hteam.
  clear HB. intros Em En Htag. pose proof Hl as [].
  assert (a_readable rs_a cs_a mtag_a) as HA' by (destruct HA as [?|(? & ? & [|])]; [by left|done|by right]).
  assert (kind_of m n = K_gemm) as -> by (unfold kind_of; by rewrite !(proj2 (Z.eqb_neq _ 1))).
  pose proof (fun id Hid => team_trace_of _ (fun id Hid => packed_thread id Em En Htag Hid) id Hid) as Htr.
  assert (forall id, 0 <= id < ic * jc -> is_Some (driver (thrinfo id)) /\
    is_Some (split_barriers (id / ic) (team_trace driver ic jc comm id))) as Hruns.
  { intros id Hid. destruct (Htr id Hid) as (? & E & _). by rewrite E. }
  eexists. split; [by apply (start_team_eq driver ic jc comm calls Hic Hteam Hruns)|].
  eapply (team_invariant_ends _ _ _ _ rs_a cs_a _ rs_b cs_b alpha _ _ HK m n k rs_c beta ops
    (fun i p => A (rs_a * i + cs_a * p)) B1 Hrs Hops C0).
  - apply (packed_team_invariant signed lcntx A rs_a cs_a Bmem rs_b cs_b alpha K fresh n k ic jc (fun _ => group_kern)
      (fun g => panels_size signed lcntx k (col_cut g) (col_cut (g + 1))) (thr_tid ∘ call_thread <$> calls) Hl HK Hic).
    + intros g v q ta Hg Hv Hq.
      destruct (kern_ok signed lcntx packb_strides A rs_a cs_a Bmem rs_b cs_b alpha K m n k ic mtag_a rs_c cs_c beta ops
        Hl HMC HMR HK HA' Hic ltac:(lia) v q Hv Hq) as [_ [Hseq _]].
      eapply kseq_weaken; [|apply Hseq]. intros ta' pc c Hc. apply Hc.
    + apply (ft_tids _ _ _ _ Hteam).
  - exists (team_thread driver ic jc comm). split; [done|]. intros g Hg. cbn [st_shared].
    pose proof (thread_range_ok n k NR _ NC KC 4 Hl jc g Hjc Hg) as (Hs & _ & He & _).
    exists (PKernels None (group_panels g)). apply group_start; [done| | | |].
    + intros q qs Eq. apply (panels_head signed lcntx n k Hl _ _ q qs); [lia|done].
    + pose proof (panels_ok lcntx n k Hl _ _ Hs He) as Hok.
      pose proof (panels_fit signed lcntx n k Hl (col_cut g) (col_cut (g + 1)) ltac:(lia) Hs) as Hfit.
      rewrite Forall_forall in *. intros q Hq. split; auto.
    + apply (panels_linked lcntx n k Hl).
    + intros v Hv. destruct (grid_inverse ic g v Hic Hv) as [Eg Ev].
      assert (0 <= g * ic + v < ic * jc) as Hid by nia. destruct (Htr _ Hid) as (_ & E & _).
      unfold team_thread, team_segs. cbn [th_group th_segs]. rewrite E, Eg, Ev. done.
  - lia.
  - eapply start_cells; [done|done|]. by apply packed_cells.
Qed.

(** *** Every shape *)

Lemma team_ends_impl kind st0 (P Q : team_state -> Prop) :
  (forall st, P st -> Q st) -> team_ends signed lcntx kind A Bmem K fresh st0 P ->
  team_ends signed lcntx kind A Bmem K fresh st0 Q.
Proof using. clear. intros HPQ [Hp Hb Hr]. split; auto. Qed.
End result.

(** The product, whatever the shape. *)
Lemma int8_gemm_team_runs (signed : bool) (lcntx : dlp_gemm_cntx_t) (packb_strides : Z -> Z -> Z * Z)
    (A : Z -> Z) (rs_a cs_a : Z) (Bmem : Z -> Z) (rs_b cs_b alpha : Z) (K : kernels) (fresh : Z -> Z)
    (m n k : Z) (mtag_a mtag_b : AOCL_DLP_MEMORY_TAG) (rs_c cs_c beta : Z) (ops : list PostOpTypes.dlp_gemm_post_op)
    (B0 : Z -> Z -> Z) (ic jc comm : Z) (calls : list gemm_call) (C0 : Z -> Z) :
  let b := blksz lcntx in
  (n <> 1 -> blocks_checked (NR b) 16 (NC b) (KC b) 4) -> 0 < MC b -> 0 < MR b ->
  kernel_laws signed lcntx A rs_a cs_a Bmem rs_b cs_b alpha K ->
  A_given rs_a cs_a m mtag_a -> B_given signed lcntx Bmem rs_b cs_b n k mtag_b B0 ->
  1 <= m -> 1 <= n -> 1 <= k -> n <= rs_c -> elementwise ops = true ->
  1 <= ic -> 1 <= jc -> full_team ic jc comm calls ->
  exists st0,
    start_team (rowvar signed lcntx packb_strides m n k rs_a cs_a mtag_a rs_b cs_b mtag_b rs_c cs_c beta DLP_S32 ops)
      calls C0 = Some st0 /\
    team_ends signed lcntx (kind_of m n) A Bmem K fresh st0 (fun st =>
      forall i j, 0 <= i < m -> 0 <= j < n ->
      st_C st (rs_c * i + j) = finish (epilogue K) ops i j (to_i32 (beta * C0 (rs_c * i + j) +
        alpha * zsum (fun p => A (rs_a * i + cs_a * p) * B0 p j) 0 k))).
Proof.
  intros b Hblk HMC HMR HK HA HB Hm Hn Hk Hrs Hops Hic Hjc Hteam.
  destruct (decide (n = 1)) as [En|En]; [by apply (column_ends _ _ _ _ _ _ _ _ _ alpha _ _ _ _ _ _ _ _ _ _ _ _ ic jc comm)|].
  pose proof (blocks_checked_layout n k (NR b) _ (NC b) (KC b) 4 (Hblk En) ltac:(lia) ltac:(lia)) as Hl.
  destruct (decide (m = 1)) as [Em|Em]; [by apply (row_ends _ _ _ _ _ _ _ _ _ alpha _ _ _ _ _ _ _ _ _ _ _ _ ic jc comm)|].
  destruct HB as [[Htag HB0]|[Htag HB]]; [|by apply (reordered_ends _ _ _ _ _ _ _ _ _ alpha _ _ _ _ _ _ _ _ _ _ _ _ ic jc comm); try done; right].
  destruct (packed_ends signed lcntx packb_strides A rs_a cs_a Bmem rs_b cs_b alpha K fresh m n k mtag_a mtag_b
    rs_c cs_c beta ops B0 ic jc comm calls C0) as (st0 & E & Hends); try done.
  exists st0. split; [done|]. eapply team_ends_impl; [|exact Hends]. intros st H i j Hi Hj.
  rewrite H by done. do 4 f_equal. apply zsum_ext. intros p Hp. by rewrite HB0 by lia.
Qed.

(** C2. The 8-bit integer drivers compute the product, on every shape and with every
    packing.  For every blocking, B packed by the threads of a group or column by column
    on the vector paths, or reordered beforehand, A by rows or packed by columns: on
    every team the decorator may launch each thread's driver ends, and in every
    interleaving of the actions of the threads no action is undefined (no access outside
    a buffer, no use of a buffer before it is sent or after it is freed, no operand a
    kernel cannot read), the team is never stuck at a barrier, every run is finite, and
    when all threads are done the element (i, j) of C is
    [beta * C + alpha * sum_p A(i, p) * B(p, j)] in [int32_t], wrapping around, the
    [s8] column-sum correction included.  For a call with post-ops that work element by
    element, they are applied to that value, at (i, j), once, by the last k block; without
    post-ops [finish] is the identity.  The kernels, and what post-ops make of a value,
    enter by their contract. *)
Theorem int8_gemm_team_product (signed : bool) (lcntx : dlp_gemm_cntx_t) (packb_strides : Z -> Z -> Z * Z)
    (A : Z -> Z) (rs_a cs_a : Z) (Bmem : Z -> Z) (rs_b cs_b alpha : Z) (K : kernels) (fresh : Z -> Z)
    (m n k : Z) (mtag_a mtag_b : AOCL_DLP_MEMORY_TAG) (rs_c cs_c beta : Z) (ops : list PostOpTypes.dlp_gemm_post_op)
    (B0 : Z -> Z -> Z) (ic jc comm : Z) (calls : list gemm_call) (C0 : Z -> Z) :
  let b := blksz lcntx in
  (n <> 1 -> blocks_checked (NR b) 16 (NC b) (KC b) 4) -> 0 < MC b -> 0 < MR b ->
  kernel_laws signed lcntx A rs_a cs_a Bmem rs_b cs_b alpha K ->
  A_given rs_a cs_a m mtag_a -> B_given signed lcntx Bmem rs_b cs_b n k mtag_b B0 ->
  1 <= m -> 1 <= n -> 1 <= k -> n <= rs_c -> elementwise ops = true ->
  1 <= ic -> 1 <= jc -> full_team ic jc comm calls ->
  exists st0,
    start_team (rowvar signed lcntx packb_strides m n k rs_a cs_a mtag_a rs_b cs_b mtag_b rs_c cs_c beta DLP_S32 ops)
      calls C0 = Some st0 /\
    team_ends signed lcntx (kind_of m n) A Bmem K fresh st0 (fun st =>
      forall i j, 0 <= i < m -> 0 <= j < n ->
      st_C st (rs_c * i + j) = finish (epilogue K) ops i j (to_i32 (beta * C0 (rs_c * i + j) +
        alpha * zsum (fun p => A (rs_a * i + cs_a * p) * B0 p j) 0 k))).
Proof. apply int8_gemm_team_runs. Qed.

(** ** A concrete team *)

(** Two threads on a [3 x 18] result of s8 matrices, k = 6 in two blocks, A transposed:
    the threads pack B together, and A block by block. *)
Definition example_cntx : dlp_gemm_cntx_t :=
  mk_cntx (mk_blksz 2 16 4 16 1) 0 (mk_pack_s 0 0 64 16) (mk_sup 0 0 0) (mk_hints 0 0).

Definition example_team : list gemm_call :=
  (fun t => mk_call t 0 (mk_thrinfo 2 t 2 1 0) DLP_CLASSIC_RNTM_INITIALIZER PACK PACK) <$> seqZ 0 2.

Lemma example_full_team : full_team 2 1 0 example_team.
Proof. split; [reflexivity|]. intros c (t & -> & _)%list_elem_of_fmap. done. Qed.

Definition example_A (x : Z) : Z := 2 * x - 5.
Definition example_B (x : Z) : Z := (3 * x - 40) mod 256.

Lemma int8_gemm_team_product_witness :
  let K := ref_kernels true example_cntx example_A 3 example_B 18 1 3 in
  exists st0,
    start_team (rowvar true example_cntx (fun _ _ => (64, 16)) 3 18 6 1 3 PACK 18 1 PACK 20 1 2 DLP_S32 [])
      example_team (fun x => 100 + x) = Some st0 /\
    length (st_threads st0) = 2%nat /\
    team_ends true example_cntx K_gemm example_A example_B K (fun _ => 7) st0 (fun st =>
      st_C st (20 * 2 + 17) = 2 * 157 + 3 * ((-1) * 11 + 5 * 65 + 11 * 119 + 17 * (-83) + 23 * (-29) + 29 * 25)).
Proof.
  destruct (int8_gemm_team_product true example_cntx (fun _ _ => (64, 16)) example_A 1 3 example_B 18 1 3
    (ref_kernels true example_cntx example_A 3 example_B 18 1 3) (fun _ => 7) 3 18 6 PACK PACK 20 1 2 []
    (fun p j => load_i8 example_B (18 * p + 1 * j)) 2 1 0 example_team (fun x => 100 + x))
    as (st0 & E & Hends); [by intros _|done|done|by apply ref_kernels_laws; [|by exists 1]
    |right; split; [done|split; [done|by right]]|by left|lia|lia|lia|lia|done|lia|lia|apply example_full_team|].
  exists st0. split; [exact E|]. split.
  - revert E. clear. intros E. vm_compute in E. injection E as <-. reflexivity.
  - eapply team_ends_impl; [|exact Hends]. intros st H. rewrite (H 2 17) by lia. vm_compute. reflexivity.
Defined.
