(* ===== verification/Simd.v ===== *)
(** * Vector registers

    The AVX-512 intrinsics the packing kernels use, on registers as lists of bytes with
    the lowest first.  A data movement acts on lists of any type, so what it does to the
    bytes of a matrix is what it does to their indices ([simd] rewrites with these
    naturality laws, and the shuffles of a kernel are evaluated once on indices).  The
    arithmetic on 32-bit lanes is described by [epi32].  A cast to a wider register
    leaves the upper bytes undefined: the list stays short until they are inserted. *)
From S2P Require Import Prelude Word TeamMachine TeamCorrect GemvTeam.
From stdpp Require Import list.
#[local] Open Scope Z_scope.

Create HintDb simd.

Abbreviation mem := (Z -> Z).
Abbreviation vec := (list Z).

(** ** Movement of elements *)

Section movement.
Context {A : Type}.
Implicit Types x y : list A.

(** The [i]th group of [w] bytes. *)
Definition lane (w i : nat) x : list A := take w (drop (w * i) x).

(** Unpack: the groups of [w] bytes of the low or high halves of two 16-byte lanes in
    turn. *)
Definition unpack_lane (w : nat) (hi : bool) x y : list A :=
  concat ((fun g => let g' := if hi then (8 / w + g)%nat else g in lane w g' x ++ lane w g' y) <$> seq 0 (8 / w)).

Definition unpack (lanes w : nat) (hi : bool) x y : list A :=
  concat ((fun l => unpack_lane w hi (lane 16 l x) (lane 16 l y)) <$> seq 0 lanes).

Definition _mm_unpacklo_epi8 := unpack 1 1 false.
Definition _mm_unpackhi_epi8 := unpack 1 1 true.
Definition _mm_unpacklo_epi16 := unpack 1 2 false.
Definition _mm_unpackhi_epi16 := unpack 1 2 true.
Definition _mm256_unpacklo_epi8 := unpack 2 1 false.
Definition _mm256_unpackhi_epi8 := unpack 2 1 true.
Definition _mm256_unpacklo_epi16 := unpack 2 2 false.
Definition _mm256_unpackhi_epi16 := unpack 2 2 true.
Definition _mm_unpacklo_epi32 := unpack 1 4 false.
Definition _mm_unpackhi_epi32 := unpack 1 4 true.
Definition _mm_unpacklo_epi64 := unpack 1 8 false.
Definition _mm_unpackhi_epi64 := unpack 1 8 true.
Definition _mm512_unpacklo_epi8 := unpack 4 1 false.
Definition _mm512_unpackhi_epi8 := unpack 4 1 true.
Definition _mm512_unpacklo_epi16 := unpack 4 2 false.
Definition _mm512_unpackhi_epi16 := unpack 4 2 true.
Definition _mm512_unpacklo_epi32 := unpack 4 4 false.
Definition _mm512_unpackhi_epi32 := unpack 4 4 true.
Definition _mm512_unpacklo_epi64 := unpack 4 8 false.
Definition _mm512_unpackhi_epi64 := unpack 4 8 true.

(** The index register of a permutation, as its 64-bit elements. *)
Definition _mm512_setr_epi64 (e0 e1 e2 e3 e4 e5 e6 e7 : Z) : list Z := [e0; e1; e2; e3; e4; e5; e6; e7].

(** Bit 3 of an index chooses the source, the bits below it the element. *)
Definition _mm512_permutex2var_epi64 x (idx : list Z) y : list A :=
  concat ((fun i => lane 8 (Z.to_nat (i mod 8)) (if Z.testbit i 3 then y else x)) <$> idx).

(** Elements of four bytes, bit 4 chooses the source. *)
Definition _mm512_setr_epi32 (l : list Z) : list Z := l.
Definition _mm512_permutex2var_epi32 x (idx : list Z) y : list A :=
  concat ((fun i => lane 4 (Z.to_nat (i mod 16)) (if Z.testbit i 4 then y else x)) <$> idx).

(** Elements of two bytes, bit 5 chooses the source; the elements of the index are given
    from the highest. *)
Definition _mm512_set_epi16 (es : list Z) : list Z := rev es.
Definition _mm512_permutex2var_epi16 x (idx : list Z) y : list A :=
  concat ((fun i => lane 2 (Z.to_nat (i mod 32)) (if Z.testbit i 5 then y else x)) <$> idx).

(** Two of the four 16-byte lanes of both registers; the bits of [imm] that clear a lane
    are not used. *)
Definition _mm256_permute2f128_si256 x y (imm : Z) : list A :=
  concat ((fun s => lane 16 (Z.to_nat (s mod 2)) (if Z.testbit s 1 then y else x)) <$> [imm mod 4; imm / 16 mod 4]).

Definition _mm512_castsi512_si256 x : list A := take 32 x.
Definition _mm512_castsi512_si128 x : list A := take 16 x.

Definition _mm512_shuffle_i64x2 x y (imm : Z) : list A :=
  lane 16 (Z.to_nat (imm mod 4)) x ++ lane 16 (Z.to_nat (imm / 4 mod 4)) x ++
  lane 16 (Z.to_nat (imm / 16 mod 4)) y ++ lane 16 (Z.to_nat (imm / 64 mod 4)) y.

Definition _mm256_shuffle_i32x4 x y (imm : Z) : list A :=
  lane 16 (Z.to_nat (imm mod 2)) x ++ lane 16 (Z.to_nat (imm / 2 mod 2)) y.

Definition _mm512_castsi128_si512 x : list A := x.
Definition _mm512_castsi256_si512 x : list A := x.

(** The 16 or 32 bytes at position [k] replaced. *)
Definition insert_bytes (w k : nat) x y : list A := take (w * k) x ++ y ++ drop (w * k + w) x.
Definition _mm512_inserti32x4 x y (k : nat) : list A := insert_bytes 16 k x y.
Definition _mm512_inserti32x8 x y (k : nat) : list A := insert_bytes 32 k x y.

Definition _mm512_extracti32x4_epi32 x (k : nat) : list A := lane 16 k x.
Definition _mm256_extracti32x4_epi32 x (k : nat) : list A := lane 16 k x.

End movement.

(** Naturality. *)
Section natural.
Context {A B : Type} (f : A -> B).

Lemma concat_natural {I} (h : I -> list B) (h' : I -> list A) (l : list I) :
  (forall i, h i = f <$> h' i) -> concat (h <$> l) = f <$> concat (h' <$> l).
Proof.
  intros H. induction l as [|i l IH]; [done|].
  change (h i ++ concat (h <$> l) = f <$> (h' i ++ concat (h' <$> l))). by rewrite fmap_app, H, IH.
Qed.

Lemma lane_natural w i x : lane w i (f <$> x) = f <$> lane w i x.
Proof. unfold lane. by rewrite fmap_take, fmap_drop. Qed.

Lemma unpack_lane_natural w hi x y : unpack_lane w hi (f <$> x) (f <$> y) = f <$> unpack_lane w hi x y.
Proof.
  unfold unpack_lane. apply (concat_natural _ _ (seq 0 _)). intros g. cbn zeta. by rewrite fmap_app, !lane_natural.
Qed.

Lemma unpack_natural n w hi x y : unpack n w hi (f <$> x) (f <$> y) = f <$> unpack n w hi x y.
Proof.
  unfold unpack. apply (concat_natural _ _ (seq 0 n)). intros l. by rewrite !lane_natural, unpack_lane_natural.
Qed.

Lemma permutex2var_natural x idx y :
  _mm512_permutex2var_epi64 (f <$> x) idx (f <$> y) = f <$> _mm512_permutex2var_epi64 x idx y.
Proof.
  unfold _mm512_permutex2var_epi64. apply (concat_natural _ _ idx). intros i. case_match; by rewrite lane_natural.
Qed.

Lemma permutex2var32_natural x idx y :
  _mm512_permutex2var_epi32 (f <$> x) idx (f <$> y) = f <$> _mm512_permutex2var_epi32 x idx y.
Proof.
  unfold _mm512_permutex2var_epi32. apply (concat_natural _ _ idx). intros i. case_match; by rewrite lane_natural.
Qed.

Lemma permutex2var16_natural x idx y :
  _mm512_permutex2var_epi16 (f <$> x) idx (f <$> y) = f <$> _mm512_permutex2var_epi16 x idx y.
Proof.
  unfold _mm512_permutex2var_epi16. apply (concat_natural _ _ idx). intros i. case_match; by rewrite lane_natural.
Qed.

Lemma permute2f128_natural x y imm :
  _mm256_permute2f128_si256 (f <$> x) (f <$> y) imm = f <$> _mm256_permute2f128_si256 x y imm.
Proof.
  unfold _mm256_permute2f128_si256. apply (concat_natural _ _ [imm mod 4; _]). intros i. case_match; by rewrite lane_natural.
Qed.

Lemma cast256_natural x : _mm512_castsi512_si256 (f <$> x) = f <$> _mm512_castsi512_si256 x.
Proof. symmetry. apply fmap_take. Qed.

Lemma cast128_natural x : _mm512_castsi512_si128 (f <$> x) = f <$> _mm512_castsi512_si128 x.
Proof. symmetry. apply fmap_take. Qed.

Lemma shuffle_natural x y imm : _mm512_shuffle_i64x2 (f <$> x) (f <$> y) imm = f <$> _mm512_shuffle_i64x2 x y imm.
Proof. unfold _mm512_shuffle_i64x2. by rewrite !fmap_app, !lane_natural. Qed.

Lemma shuffle256_natural x y imm : _mm256_shuffle_i32x4 (f <$> x) (f <$> y) imm = f <$> _mm256_shuffle_i32x4 x y imm.
Proof. unfold _mm256_shuffle_i32x4. by rewrite !fmap_app, !lane_natural. Qed.

Lemma insert_natural w k x y : insert_bytes w k (f <$> x) (f <$> y) = f <$> insert_bytes w k x y.
Proof. unfold insert_bytes. by rewrite !fmap_app, fmap_take, fmap_drop. Qed.
End natural.

#[export] Hint Rewrite @lane_natural @unpack_natural @permutex2var_natural @permutex2var32_natural
  @permutex2var16_natural @permute2f128_natural
  @cast256_natural @cast128_natural @shuffle_natural
  @shuffle256_natural @insert_natural : simd.

(** Evaluate a sequence of movements on vectors that are images of index lists. *)
Ltac simd_move :=
  unfold _mm_unpacklo_epi8, _mm_unpackhi_epi8, _mm_unpacklo_epi16, _mm_unpackhi_epi16,
    _mm_unpacklo_epi32, _mm_unpackhi_epi32, _mm_unpacklo_epi64, _mm_unpackhi_epi64,
    _mm256_unpacklo_epi8, _mm256_unpackhi_epi8, _mm256_unpacklo_epi16, _mm256_unpackhi_epi16,
    _mm512_unpacklo_epi8, _mm512_unpackhi_epi8, _mm512_unpacklo_epi16, _mm512_unpackhi_epi16,
    _mm512_unpacklo_epi32, _mm512_unpackhi_epi32, _mm512_unpacklo_epi64, _mm512_unpackhi_epi64,
    _mm512_inserti32x4, _mm512_inserti32x8, _mm512_castsi128_si512, _mm512_castsi256_si512 in *;
  autorewrite with simd.

(** ** 32-bit lanes *)

(** Little-endian bytes. *)
Definition bytes32 (z : Z) : vec := (fun i => z / 2 ^ (8 * i) mod 2 ^ 8) <$> seqZ 0 4.

Definition byte_at (x : vec) (i : Z) : Z := x !!! Z.to_nat i.

Definition lane32 (x : vec) (i : Z) : Z := load_i32 (byte_at x) (4 * i).

(** The signed 32-bit lanes of a register, and the register with given lanes. *)
Definition epi32 (x : vec) : list Z := lane32 x <$> seqZ 0 (Z.of_nat (length x) / 4).

Definition of_epi32 (l : list Z) : vec := concat (bytes32 <$> l).

Definition _mm512_add_epi32 (x y : vec) : vec := of_epi32 (zip_with Z.add (epi32 x) (epi32 y)).

(** A shift count of 32 or more, seen unsigned, clears the lane. *)
Definition _mm512_sllv_epi32 (x count : vec) : vec :=
  of_epi32 (zip_with (fun a c => if to_u32 c <? 32 then Z.shiftl a (to_u32 c) else 0) (epi32 x) (epi32 count)).

Definition _mm512_set1_epi32 (z : Z) : vec := of_epi32 (replicate 16 z).
(** [_mm512_set_epi32(e15, ..., e0)], the elements from the lowest. *)
Definition _mm512_set_epi32 (es : list Z) : vec := of_epi32 es.

(** Sign extension of 16 bytes. *)
Definition _mm512_cvtepi8_epi32 (x : vec) : vec := of_epi32 (to_i8 <$> x).

Definition _mm512_reduce_add_epi32 (x : vec) : Z := to_i32 (foldr Z.add 0 (epi32 x)).

Definition _mm_setzero_si128 : vec := replicate 16 0.
Definition _mm256_setzero_si256 : vec := replicate 32 0.
Definition _mm512_setzero_si512 : vec := replicate 64 0.

(** ** Loads and stores *)

Definition loadu (n : Z) (m : mem) (p : Z) : vec := (fun i => m (p + i)) <$> seqZ 0 n.
Definition maskz_loadu (n mask : Z) (m : mem) (p : Z) : vec :=
  (fun i => if Z.testbit mask i then m (p + i) else 0) <$> seqZ 0 n.

Definition _mm_loadu_si128 := loadu 16.
Definition _mm512_loadu_si512 := loadu 64.
Definition _mm512_maskz_loadu_epi8 := maskz_loadu 64.
Definition _mm256_maskz_loadu_epi8 := maskz_loadu 32.
Definition _mm_maskz_loadu_epi8 := maskz_loadu 16.

(** Mask bits of elements of two bytes. *)
Definition maskz_loadu_epi16 (n mask : Z) (m : mem) (p : Z) : vec :=
  (fun i => if Z.testbit mask (i / 2) then m (p + i) else 0) <$> seqZ 0 n.
Definition _mm512_maskz_loadu_epi16 := maskz_loadu_epi16 64.
Definition _mm256_maskz_loadu_epi16 := maskz_loadu_epi16 32.

Definition _mm512_storeu_si512 (m : mem) (p : Z) (v : vec) (x : Z) : Z :=
  if (p <=? x) && (x <? p + Z.of_nat (length v)) then byte_at v (x - p) else m x.

Definition _mm_storeu_si128 := _mm512_storeu_si512.

(** The elements of [w] bytes that the mask has. *)
Definition mask_storeu (w : Z) (m : mem) (p mask : Z) (v : vec) (x : Z) : Z :=
  if (p <=? x) && (x <? p + Z.of_nat (length v)) && Z.testbit mask ((x - p) / w)
  then byte_at v (x - p) else m x.

Definition _mm_mask_storeu_epi8 := mask_storeu 1.
Definition _mm_mask_storeu_epi16 := mask_storeu 2.
Definition _mm_mask_storeu_epi32 := mask_storeu 4.
Definition _mm_mask_storeu_epi64 := mask_storeu 8.
Definition _mm256_mask_storeu_epi64 := mask_storeu 8.
Definition _mm512_mask_storeu_epi16 := mask_storeu 2.

(** ** Lemmas *)

(** The first [n] bytes of a register, stored. *)
Definition prefix_store (n : Z) (m : mem) (p : Z) (v : vec) : mem := fill m p (p + n) (fun y => byte_at v (y - p)).

Lemma storeu_prefix m p v x : _mm512_storeu_si512 m p v x = prefix_store (Z.of_nat (length v)) m p v x.
Proof. done. Qed.

Lemma mask_storeu_prefix w n m p v x : 0 < w -> 0 <= n -> w * n <= Z.of_nat (length v) ->
  mask_storeu w m p (Z.ones n) v x = prefix_store (w * n) m p v x.
Proof.
  intros Hw Hn Hv. unfold mask_storeu, prefix_store, fill.
  destruct (Z.leb_spec p x); [|done]. cbn [andb].
  assert (0 <= (x - p) / w) by (apply Z.div_pos; lia).
  destruct (Z.ltb_spec x (p + w * n)).
  - rewrite (proj2 (Z.ltb_lt x _)) by lia. rewrite Z.ones_spec_low; [done|]. split; [done|]. apply Z.div_lt_upper_bound; lia.
  - rewrite Z.ones_spec_high; [by destruct (x <? _)|]. split; [done|]. apply Z.div_le_lower_bound; lia.
Qed.

Lemma seqZ_lookup_total n i : 0 <= i < n -> byte_at (seqZ 0 n) i = i.
Proof.
  intros Hi. unfold byte_at. apply list_lookup_total_correct. rewrite lookup_seqZ. lia.
Qed.

Lemma byte_at_image (h : Z -> Z) n i : 0 <= i < n -> byte_at (h <$> seqZ 0 n) i = h i.
Proof.
  intros Hi. unfold byte_at. apply list_lookup_total_correct. rewrite list_lookup_fmap, fmap_Some.
  exists i. split; [|done]. apply lookup_seqZ. lia.
Qed.

Lemma storeu_image m p (h : Z -> Z) n x :
  0 <= n -> _mm512_storeu_si512 m p (h <$> seqZ 0 n) x = fill m p (p + n) (fun y => h (y - p)) x.
Proof.
  intros Hn. unfold _mm512_storeu_si512, fill. rewrite length_fmap, length_seqZ, Z2Nat.id by done.
  destruct (Z.leb_spec p x); [|done]. destruct (Z.ltb_spec x (p + n)); [|done]. cbn. apply byte_at_image. lia.
Qed.

Lemma lane32_loadu m p n i : 0 <= i -> 4 * i + 4 <= n -> lane32 (loadu n m p) i = load_i32 m (p + 4 * i).
Proof.
  intros Hi Hn. unfold lane32, load_i32, loadu. rewrite !byte_at_image by lia. by rewrite !Z.add_assoc.
Qed.

Lemma length_of_epi32 l : length (of_epi32 l) = (4 * length l)%nat.
Proof.
  induction l as [|z l IH]; [done|].
  change (of_epi32 (z :: l)) with (bytes32 z ++ of_epi32 l). rewrite length_app, IH. cbn [length]. change (length (bytes32 z)) with 4%nat. lia.
Qed.

Lemma of_epi32_byte l i j : 0 <= j < 4 -> 0 <= i < Z.of_nat (length l) ->
  byte_at (of_epi32 l) (4 * i + j) = (l !!! Z.to_nat i) / 2 ^ (8 * j) mod 2 ^ 8.
Proof.
  intros Hj. revert i. induction l as [|z l IH]; intros i Hi; [cbn in Hi; lia|].
  change (of_epi32 (z :: l)) with (bytes32 z ++ of_epi32 l). unfold byte_at.
  destruct (decide (i = 0)) as [->|Hi0].
  - rewrite lookup_total_app_l by (change (length (bytes32 z)) with 4%nat; lia).
    replace (4 * 0 + j) with j by lia. apply (byte_at_image (fun i => z / 2 ^ (8 * i) mod 2 ^ 8) 4). lia.
  - rewrite lookup_total_app_r by (change (length (bytes32 z)) with 4%nat; lia). change (length (bytes32 z)) with 4%nat.
    replace (Z.to_nat (4 * i + j) - 4)%nat with (Z.to_nat (4 * (i - 1) + j)) by lia.
    fold (byte_at (of_epi32 l) (4 * (i - 1) + j)). rewrite IH by (cbn [length] in Hi; lia).
    replace (Z.to_nat i) with (S (Z.to_nat (i - 1))) by lia. done.
Qed.

Lemma lane32_of_epi32 l i : 0 <= i < Z.of_nat (length l) -> lane32 (of_epi32 l) i = to_i32 (l !!! Z.to_nat i).
Proof.
  intros Hi. rewrite <- (load_i32_store (fun _ => 0) 0). unfold lane32. set (z := _ !!! _).
  unfold load_i32, store_i32. replace (4 * i) with (4 * i + 0) by lia. rewrite <- !Z.add_assoc. cbn [Z.add Pos.add Pos.succ].
  rewrite !of_epi32_byte by lia. fold z. cbn. done.
Qed.

(** A register of sixteen 32-bit lanes known modulo [2 ^ 32]. *)
Definition lanes (x : vec) (g : Z -> Z) : Prop :=
  length x = 64%nat /\ forall i, 0 <= i < 16 -> lane32 x i = to_i32 (g i).

Lemma lanes_epi32 x g : lanes x g -> epi32 x = (fun i => to_i32 (g i)) <$> seqZ 0 16.
Proof.
  intros [Hl H]. unfold epi32. rewrite Hl. apply list_fmap_ext. intros j i Hi. apply H.
  apply lookup_seqZ in Hi. change (Z.of_nat 64 / 4) with 16 in Hi. lia.
Qed.

Lemma lanes_of_epi32 (g : Z -> Z) : lanes (of_epi32 (g <$> seqZ 0 16)) g.
Proof.
  split; [by rewrite length_of_epi32, length_fmap, length_seqZ|].
  intros i Hi. rewrite lane32_of_epi32; [|rewrite length_fmap, length_seqZ; lia].
  f_equal. by apply (byte_at_image g).
Qed.

Lemma lanes_congr x g h : lanes x g -> (forall i, 0 <= i < 16 -> to_i32 (g i) = to_i32 (h i)) -> lanes x h.
Proof. intros [Hl H] E. split; [done|]. intros i Hi. by rewrite H, E. Qed.

Lemma lanes_ext x g h : lanes x g -> (forall i, 0 <= i < 16 -> g i = h i) -> lanes x h.
Proof. intros H E. apply (lanes_congr x g h H). intros i Hi. by rewrite E. Qed.

Lemma zip_with_image (f : Z -> Z -> Z) (g h : Z -> Z) l :
  zip_with f (g <$> l) (h <$> l) = (fun i => f (g i) (h i)) <$> l.
Proof. induction l as [|i l IH]; [done|]. cbn. by rewrite IH. Qed.

Lemma to_i32_add a b : to_i32 (to_i32 a + to_i32 b) = to_i32 (a + b).
Proof. by rewrite to_i32_add_l, Z.add_comm, to_i32_add_l, Z.add_comm. Qed.

Lemma to_i32_mul a b : to_i32 (a * to_i32 b) = to_i32 (a * b).
Proof. apply to_i32_congr. by rewrite <- Z.mul_mod_idemp_r, to_i32_mod, Z.mul_mod_idemp_r by done. Qed.

Lemma lanes_add x y g h : lanes x g -> lanes y h -> lanes (_mm512_add_epi32 x y) (fun i => g i + h i).
Proof.
  intros Hx Hy. unfold _mm512_add_epi32. rewrite (lanes_epi32 x g Hx), (lanes_epi32 y h Hy), zip_with_image.
  eapply lanes_congr; [apply lanes_of_epi32|]. intros i _. apply to_i32_add.
Qed.

Lemma lanes_set1 z : lanes (_mm512_set1_epi32 z) (fun _ => z).
Proof.
  unfold _mm512_set1_epi32. replace (replicate 16 z) with ((fun _ => z) <$> seqZ 0 16) by done. apply lanes_of_epi32.
Qed.

Lemma lanes_sllv x g n : 0 <= n < 32 ->
  lanes x g -> lanes (_mm512_sllv_epi32 x (_mm512_set1_epi32 n)) (fun i => 2 ^ n * g i).
Proof.
  intros Hn Hx. unfold _mm512_sllv_epi32.
  rewrite (lanes_epi32 x g Hx), (lanes_epi32 _ _ (lanes_set1 n)), zip_with_image.
  eapply lanes_congr; [apply lanes_of_epi32|]. intros i _. cbn beta.
  assert (to_u32 (to_i32 n) = n) as ->.
  { rewrite to_i32_id by (unfold int32_t; lia). apply Z.mod_small. lia. }
  destruct (Z.ltb_spec n 32); [|lia]. rewrite Z.shiftl_mul_pow2 by lia. rewrite Z.mul_comm. apply to_i32_mul.
Qed.

Lemma lanes_cvt (e : Z -> Z) : lanes (_mm512_cvtepi8_epi32 (e <$> seqZ 0 16)) (fun i => to_i8 (e i)).
Proof. unfold _mm512_cvtepi8_epi32. rewrite <- list_fmap_compose. apply lanes_of_epi32. Qed.

Lemma load_i32_range b a : to_i32 (load_i32 b a) = load_i32 b a.
Proof. apply to_i32_id, to_i32_range. Qed.

Lemma lanes_load m p : lanes (_mm512_loadu_si512 m p) (fun i => load_i32 m (p + 4 * i)).
Proof.
  split; [done|]. intros i Hi. rewrite load_i32_range. apply lane32_loadu; lia.
Qed.

Lemma lanes_store m p x g i : lanes x g -> 0 <= i < 16 ->
  load_i32 (_mm512_storeu_si512 m p x) (p + 4 * i) = to_i32 (g i).
Proof.
  intros [Hl H] Hi. rewrite <- H by done. unfold lane32, load_i32, _mm512_storeu_si512. rewrite Hl.
  repeat (zcase; [|lia]; zcase; [|lia]). cbn [andb].
  by replace (p + 4 * i - p) with (4 * i) by lia;
    replace (p + 4 * i + 1 - p) with (4 * i + 1) by lia;
    replace (p + 4 * i + 2 - p) with (4 * i + 2) by lia;
    replace (p + 4 * i + 3 - p) with (4 * i + 3) by lia.
Qed.

Lemma storeu_out m p v x : (x < p \/ p + Z.of_nat (length v) <= x) -> _mm512_storeu_si512 m p v x = m x.
Proof.
  intros Hx. unfold _mm512_storeu_si512. destruct (Z.leb_spec p x); [|done].
  destruct (Z.ltb_spec x (p + Z.of_nat (length v))); [lia|done].
Qed.

Lemma lanes_zero : lanes _mm512_setzero_si512 (fun _ => 0).
Proof.
  split; [done|]. intros i Hi. unfold lane32, load_i32, byte_at, _mm512_setzero_si512.
  by rewrite !lookup_total_replicate_2 by lia.
Qed.

Lemma lanes_reduce x g : lanes x g -> _mm512_reduce_add_epi32 x = to_i32 (zsum g 0 16).
Proof.
  intros H. unfold _mm512_reduce_add_epi32, zsum. rewrite (lanes_epi32 x g H).
  induction (seqZ 0 16) as [|i l IH]; [done|]. cbn [foldr fmap list_fmap]. by rewrite to_i32_add_l, Z.add_comm, <- to_i32_add_l, IH, to_i32_add_l, Z.add_comm.
Qed.
