(* ===== verification/PackB8.v ===== *)
(** * The packing kernels of B for 8-bit integers
    (kernels/zen4/s8s8s32/dlp_gemm_packb_s8_amd512vnni.c,
    kernels/zen4/u8s8s32/dlp_gemm_packb_amd512vnni.c)

    The kernels written with intrinsics: the rearrangement of four rows, the column sums
    of the signed kernels, the loops over rows and columns with their remainders.  A
    register keeps the name of its variable, reused as the code reuses it. *)
From S2P Require Import Prelude Word DlpTypes ReorderLayout TeamMachine TeamCorrect Simd.
From stdpp Require Import list.
#[local] Open Scope Z_scope.

(** ** Rearrangements

    Four rows of 64, 32 or 16 columns as the groups of four bytes the dot product
    reads. *)
Section rearrange.
Context {A : Type}.

(** The indexes of the permutations: a0-a1-b0-b1-a2-a3-b2-b3 and a0-a1-a2-a3-b0-b1-b2-b3. *)
Definition selector1 := _mm512_setr_epi64 0x0 0x1 0x8 0x9 0x2 0x3 0xA 0xB.
Definition selector1_1 := _mm512_setr_epi64 0x4 0x5 0xC 0xD 0x6 0x7 0xE 0xF.
Definition selector2 := _mm512_setr_epi64 0x0 0x1 0x2 0x3 0x8 0x9 0xA 0xB.
Definition selector2_1 := _mm512_setr_epi64 0x4 0x5 0x6 0x7 0xC 0xD 0xE 0xF.

(** The registers in the order they are stored. *)
Definition rearrange64 (a0 b0 c0 d0 : list A) : list (list A) :=
  let a01 := _mm512_unpacklo_epi8 a0 b0 in
  let a0 := _mm512_unpackhi_epi8 a0 b0 in
  let c01 := _mm512_unpacklo_epi8 c0 d0 in
  let c0 := _mm512_unpackhi_epi8 c0 d0 in
  let b0 := _mm512_unpacklo_epi16 a01 c01 in
  let a01 := _mm512_unpackhi_epi16 a01 c01 in
  let d0 := _mm512_unpacklo_epi16 a0 c0 in
  let c01 := _mm512_unpackhi_epi16 a0 c0 in
  let a0 := _mm512_permutex2var_epi64 b0 selector1 a01 in
  let c0 := _mm512_permutex2var_epi64 d0 selector1 c01 in
  let b0 := _mm512_permutex2var_epi64 b0 selector1_1 a01 in
  let d0 := _mm512_permutex2var_epi64 d0 selector1_1 c01 in
  let a01 := _mm512_permutex2var_epi64 a0 selector2 c0 in
  let c01 := _mm512_permutex2var_epi64 b0 selector2 d0 in
  let a0 := _mm512_permutex2var_epi64 a0 selector2_1 c0 in
  let c0 := _mm512_permutex2var_epi64 b0 selector2_1 d0 in
  [a01; a0; c01; c0].

Definition rearrange32 (a0_32 b0_32 c0_32 d0_32 : list A) : list (list A) :=
  let a01_32 := _mm256_unpacklo_epi8 a0_32 b0_32 in
  let a0_32 := _mm256_unpackhi_epi8 a0_32 b0_32 in
  let c01_32 := _mm256_unpacklo_epi8 c0_32 d0_32 in
  let c0_32 := _mm256_unpackhi_epi8 c0_32 d0_32 in
  let b0_32 := _mm256_unpacklo_epi16 a01_32 c01_32 in
  let a01_32 := _mm256_unpackhi_epi16 a01_32 c01_32 in
  let d0_32 := _mm256_unpacklo_epi16 a0_32 c0_32 in
  let c01_32 := _mm256_unpackhi_epi16 a0_32 c0_32 in
  let a0_32 := _mm256_shuffle_i32x4 b0_32 a01_32 0x0 in
  let c0_32 := _mm256_shuffle_i32x4 b0_32 a01_32 0x3 in
  let b0_32 := _mm256_shuffle_i32x4 d0_32 c01_32 0x0 in
  let d0_32 := _mm256_shuffle_i32x4 d0_32 c01_32 0x3 in
  let a0_zmm := _mm512_castsi256_si512 a0_32 in
  let a0_zmm := _mm512_inserti32x8 a0_zmm b0_32 1 in
  let b0_zmm := _mm512_castsi256_si512 c0_32 in
  let b0_zmm := _mm512_inserti32x8 b0_zmm d0_32 1 in
  [a0_zmm; b0_zmm].

Definition rearrange16 (a0_16 b0_16 c0_16 d0_16 : list A) : list (list A) :=
  let a01_16 := _mm_unpacklo_epi8 a0_16 b0_16 in
  let a0_16 := _mm_unpackhi_epi8 a0_16 b0_16 in
  let c01_16 := _mm_unpacklo_epi8 c0_16 d0_16 in
  let c0_16 := _mm_unpackhi_epi8 c0_16 d0_16 in
  let b0_16 := _mm_unpacklo_epi16 a01_16 c01_16 in
  let a01_16 := _mm_unpackhi_epi16 a01_16 c01_16 in
  let d0_16 := _mm_unpacklo_epi16 a0_16 c0_16 in
  let c01_16 := _mm_unpackhi_epi16 a0_16 c0_16 in
  let a0_zmm := _mm512_castsi128_si512 b0_16 in
  let a0_zmm := _mm512_inserti32x4 a0_zmm a01_16 1 in
  let a0_zmm := _mm512_inserti32x4 a0_zmm d0_16 2 in
  let a0_zmm := _mm512_inserti32x4 a0_zmm c01_16 3 in
  [a0_zmm].
End rearrange.

(** On index rows: register [q] of the result holds columns [16 * q ...] with the four
    rows of a column together, for rows of [w] columns. *)
Definition grouped (w : Z) (q : Z) : list Z := (fun o => w * (o mod 4) + (16 * q + o / 4)) <$> seqZ 0 64.

Section rearranged.
Context (g : Z -> Z).

Lemma rearrange64_ok :
  rearrange64 (g <$> seqZ 0 64) (g <$> seqZ 64 64) (g <$> seqZ 128 64) (g <$> seqZ 192 64) =
  (fun q => g <$> grouped 64 q) <$> seqZ 0 4.
Proof.
  unfold rearrange64. cbn zeta. simd_move.
  replace (seqZ 0 4) with [0; 1; 2; 3] by done. cbn [fmap list_fmap]. repeat f_equal; vm_compute; reflexivity.
Qed.

Lemma rearrange32_ok :
  rearrange32 (g <$> seqZ 0 32) (g <$> seqZ 32 32) (g <$> seqZ 64 32) (g <$> seqZ 96 32) =
  (fun q => g <$> grouped 32 q) <$> seqZ 0 2.
Proof.
  unfold rearrange32. cbn zeta. simd_move.
  replace (seqZ 0 2) with [0; 1] by done. cbn [fmap list_fmap]. repeat f_equal; vm_compute; reflexivity.
Qed.

Lemma rearrange16_ok :
  rearrange16 (g <$> seqZ 0 16) (g <$> seqZ 16 16) (g <$> seqZ 32 16) (g <$> seqZ 48 16) = [g <$> grouped 16 0].
Proof.
  unfold rearrange16. cbn zeta. simd_move. repeat f_equal; vm_compute; reflexivity.
Qed.
End rearranged.

(** ** The transposition of the column-major kernels

    Sixteen registers, one per column, become sixteen registers of four rows each. *)
Section transpose.
Context {A : Type}.

Definition col_selector1 := _mm512_setr_epi64 0x0 0x1 0x8 0x9 0x4 0x5 0xC 0xD.
Definition col_selector2 := _mm512_setr_epi64 0x2 0x3 0xA 0xB 0x6 0x7 0xE 0xF.

(** [b_reg] after the macro. *)
Definition UNPACKHILO32_AVX512 (a_reg : list (list A)) : list (list A) :=
  let a i := a_reg !!! i in
  [_mm512_unpacklo_epi32 (a 0%nat) (a 1%nat); _mm512_unpackhi_epi32 (a 0%nat) (a 1%nat);
   _mm512_unpacklo_epi32 (a 2%nat) (a 3%nat); _mm512_unpackhi_epi32 (a 2%nat) (a 3%nat);
   _mm512_unpacklo_epi32 (a 4%nat) (a 5%nat); _mm512_unpackhi_epi32 (a 4%nat) (a 5%nat);
   _mm512_unpacklo_epi32 (a 6%nat) (a 7%nat); _mm512_unpackhi_epi32 (a 6%nat) (a 7%nat);
   _mm512_unpacklo_epi32 (a 8%nat) (a 9%nat); _mm512_unpackhi_epi32 (a 8%nat) (a 9%nat);
   _mm512_unpacklo_epi32 (a 10%nat) (a 11%nat); _mm512_unpackhi_epi32 (a 10%nat) (a 11%nat);
   _mm512_unpacklo_epi32 (a 12%nat) (a 13%nat); _mm512_unpackhi_epi32 (a 12%nat) (a 13%nat);
   _mm512_unpacklo_epi32 (a 14%nat) (a 15%nat); _mm512_unpackhi_epi32 (a 14%nat) (a 15%nat)].

(** [a_reg] after the macro. *)
Definition UNPACKHILO64_AVX512 (b_reg : list (list A)) : list (list A) :=
  let b i := b_reg !!! i in
  [_mm512_unpacklo_epi64 (b 0%nat) (b 2%nat); _mm512_unpacklo_epi64 (b 4%nat) (b 6%nat);
   _mm512_unpacklo_epi64 (b 8%nat) (b 10%nat); _mm512_unpacklo_epi64 (b 12%nat) (b 14%nat);
   _mm512_unpacklo_epi64 (b 1%nat) (b 3%nat); _mm512_unpacklo_epi64 (b 5%nat) (b 7%nat);
   _mm512_unpacklo_epi64 (b 9%nat) (b 11%nat); _mm512_unpacklo_epi64 (b 13%nat) (b 15%nat);
   _mm512_unpackhi_epi64 (b 0%nat) (b 2%nat); _mm512_unpackhi_epi64 (b 4%nat) (b 6%nat);
   _mm512_unpackhi_epi64 (b 8%nat) (b 10%nat); _mm512_unpackhi_epi64 (b 12%nat) (b 14%nat);
   _mm512_unpackhi_epi64 (b 1%nat) (b 3%nat); _mm512_unpackhi_epi64 (b 5%nat) (b 7%nat);
   _mm512_unpackhi_epi64 (b 9%nat) (b 11%nat); _mm512_unpackhi_epi64 (b 13%nat) (b 15%nat)].

(** [b_reg] after the macro. *)
Definition PERMUTEX2_VAR64_AVX512 (a_reg : list (list A)) : list (list A) :=
  let p1 i j := _mm512_permutex2var_epi64 (a_reg !!! i) col_selector1 (a_reg !!! j) in
  let p2 i j := _mm512_permutex2var_epi64 (a_reg !!! i) col_selector2 (a_reg !!! j) in
  [p1 0%nat 1%nat; p1 2%nat 3%nat; p1 8%nat 9%nat; p1 10%nat 11%nat;
   p1 4%nat 5%nat; p1 6%nat 7%nat; p1 12%nat 13%nat; p1 14%nat 15%nat;
   p2 0%nat 1%nat; p2 2%nat 3%nat; p2 8%nat 9%nat; p2 10%nat 11%nat;
   p2 4%nat 5%nat; p2 6%nat 7%nat; p2 12%nat 13%nat; p2 14%nat 15%nat].

(** [a_reg] after the macro. *)
Definition SHUFFLE64x2_AVX512 (b_reg : list (list A)) : list (list A) :=
  let s i j imm := _mm512_shuffle_i64x2 (b_reg !!! i) (b_reg !!! j) imm in
  [s 0%nat 1%nat 0x44; s 2%nat 3%nat 0x44; s 4%nat 5%nat 0x44; s 6%nat 7%nat 0x44;
   s 8%nat 9%nat 0x44; s 10%nat 11%nat 0x44; s 12%nat 13%nat 0x44; s 14%nat 15%nat 0x44;
   s 0%nat 1%nat 0xEE; s 2%nat 3%nat 0xEE; s 4%nat 5%nat 0xEE; s 6%nat 7%nat 0xEE;
   s 8%nat 9%nat 0xEE; s 10%nat 11%nat 0xEE; s 12%nat 13%nat 0xEE; s 14%nat 15%nat 0xEE].

Definition transpose16 (a_reg : list (list A)) : list (list A) :=
  SHUFFLE64x2_AVX512 (PERMUTEX2_VAR64_AVX512 (UNPACKHILO64_AVX512 (UNPACKHILO32_AVX512 a_reg))).
End transpose.

(** Rows [4 * t ...] of the sixteen columns, the four rows of a column together. *)
Definition regrouped (t : Z) : list Z := (fun o => 64 * (o / 4) + (4 * t + o mod 4)) <$> seqZ 0 64.

Lemma transpose16_ok (g : Z -> Z) :
  transpose16 ((fun j => g <$> seqZ (64 * j) 64) <$> seqZ 0 16) = (fun t => g <$> regrouped t) <$> seqZ 0 16.
Proof.
  replace (seqZ 0 16) with [0; 1; 2; 3; 4; 5; 6; 7; 8; 9; 10; 11; 12; 13; 14; 15] by done.
  cbn [fmap list_fmap].
  unfold transpose16, UNPACKHILO32_AVX512. cbn [list_lookup_total lookup_total].
  simd_move. unfold UNPACKHILO64_AVX512. cbn [list_lookup_total lookup_total]. simd_move.
  unfold PERMUTEX2_VAR64_AVX512. cbn [list_lookup_total lookup_total]. autorewrite with simd.
  unfold SHUFFLE64x2_AVX512. cbn [list_lookup_total lookup_total]. autorewrite with simd.
  repeat f_equal; vm_compute; reflexivity.
Qed.

(** ** The row-major kernels

    The loop over the rows, four at a time, and the rows that are left: [step] gets the
    rows read.  In the code the loop body and the code of the rest differ in the rows
    only, those that are missing are zero and not added to the column sums. *)
Definition k_rest {R} (k_full_pieces k_partial_pieces : Z) (ld : Z -> R) : list R :=
  if k_partial_pieces =? 3 then [ld (k_full_pieces + 0); ld (k_full_pieces + 1); ld (k_full_pieces + 2)]
  else if k_partial_pieces =? 2 then [ld (k_full_pieces + 0); ld (k_full_pieces + 1)]
  else [ld (k_full_pieces + 0)].

Definition row_loop {S R} (KC : Z) (ld : Z -> R) (step : S -> Z -> list R -> S) (st : S) : S :=
  let k_full_pieces := (KC `quot` 4) * 4 in
  let k_partial_pieces := KC `rem` 4 in
  let st := foldl (fun st kr => step st kr [ld (kr + 0); ld (kr + 1); ld (kr + 2); ld (kr + 3)]) st
              (loop_points 0 k_full_pieces 4) in
  if 0 <? k_partial_pieces
  then step st k_full_pieces (k_rest k_full_pieces k_partial_pieces ld)
  else st.

(** [a0], [b0], [c0], [d0] with the missing ones zero. *)
Definition regs4 {A} (f : vec -> vec -> vec -> vec -> A) (zero : vec) (rows : list vec) : A :=
  f (default zero (rows !! 0%nat)) (default zero (rows !! 1%nat))
    (default zero (rows !! 2%nat)) (default zero (rows !! 3%nat)).

(** The register [i] stored at [addr i]. *)
Definition store_regs (m : mem) (addr : Z -> Z) (regs : list vec) : mem :=
  foldl (fun m ir => _mm512_storeu_si512 m (addr ir.1) ir.2) m (zip (seqZ 0 (Z.of_nat (length regs))) regs).

(** [add(sum, sllv(add(a0, add(b0, ...)), mul_128))] on sixteen columns of the rows. *)
Definition mul_128 : vec := _mm512_set1_epi32 7.

Fixpoint add_rows (rows : list vec) : vec :=
  match rows with
  | [] => _mm512_setzero_si512
  | [a] => _mm512_cvtepi8_epi32 a
  | a :: rows => _mm512_add_epi32 (_mm512_cvtepi8_epi32 a) (add_rows rows)
  end.

Definition add_columns (sum : vec) (rows : list vec) : vec :=
  _mm512_add_epi32 sum (_mm512_sllv_epi32 (add_rows rows) mul_128).

(** The state of a row loop: the buffer, the sums, and [kr_new], the 64-byte chunks
    written (the kernel for 64 columns uses [kr]). *)
Record row_state := mk_row_state { rs_mem : mem; rs_sums : list vec; rs_kr_new : Z }.

(** Sums of the chunks [q] of sixteen columns, loaded before and stored after. *)
Definition load_sums (m : mem) (sum : Z) (chunks : Z) : list vec :=
  (fun q => _mm512_loadu_si512 m (sum + 4 * (16 * q))) <$> seqZ 0 chunks.

Definition store_sums (sum : Z) (st : row_state) : mem :=
  store_regs (rs_mem st) (fun q => sum + 4 * (16 * q)) (rs_sums st).

(** The loop of a kernel: [widths] is what a row is read in, [chunk q] the sixteen
    columns of the [q]th sum in a row, [shuffle] the registers to store. *)
Section row_kernel.
Context {R : Type} (signed : bool) (p sum KC chunks : Z) (ld : Z -> R).
Context (chunk : Z -> R -> vec) (shuffle : list R -> list vec).

Definition row_step (st : row_state) (kr : Z) (rows : list R) : row_state :=
  let sums := if signed
              then zip_with (fun q sum => add_columns sum (chunk q <$> rows)) (seqZ 0 chunks) (rs_sums st)
              else rs_sums st in
  let regs := shuffle rows in
  mk_row_state (store_regs (rs_mem st) (fun i => p + (rs_kr_new st + i) * 64) regs) sums
    (rs_kr_new st + Z.of_nat (length regs)).

Definition row_kernel (m : mem) : mem :=
  let st := mk_row_state m (if signed then load_sums m sum chunks else []) 0 in
  let st := row_loop KC ld row_step st in
  if signed then store_sums sum st else rs_mem st.
End row_kernel.

(** The kernels for a panel of 64, 48, 32, 16 or fewer columns from the element [b] of
    [B], to [p], with the column sums at [sum] when [signed]. *)
Section row_major.
Context (signed : bool) (B : mem).

Definition lane_chunk (q : Z) (a : vec) : vec := _mm512_extracti32x4_epi32 a (Z.to_nat q).

Definition packb_nr64_panel (m : mem) (p sum b ldb KC : Z) : mem :=
  row_kernel signed p sum KC 4 (fun kr => _mm512_loadu_si512 B (b + ldb * kr))
    lane_chunk (regs4 rearrange64 _mm512_setzero_si512) m.

Definition packb_nr48_row_major (m : mem) (p sum b ldb KC : Z) : mem :=
  row_kernel signed p sum KC 3
    (fun kr => (_mm256_maskz_loadu_epi8 0xFFFFFFFF B (b + ldb * kr),
                _mm_maskz_loadu_epi8 0xFFFF B (b + ldb * kr + 32)))
    (fun q r => if q =? 2 then r.2 else _mm256_extracti32x4_epi32 r.1 (Z.to_nat q))
    (fun rows => regs4 rearrange32 _mm256_setzero_si256 (fst <$> rows) ++
                 regs4 rearrange16 _mm_setzero_si128 (snd <$> rows)) m.

Definition packb_nr32_row_major (m : mem) (p sum b ldb KC : Z) : mem :=
  row_kernel signed p sum KC 2 (fun kr => _mm256_maskz_loadu_epi8 0xFFFFFFFF B (b + ldb * kr))
    (fun q a => _mm256_extracti32x4_epi32 a (Z.to_nat q)) (regs4 rearrange32 _mm256_setzero_si256) m.

Definition packb_nr16_row_major (m : mem) (p sum b ldb KC : Z) : mem :=
  row_kernel signed p sum KC 1 (fun kr => _mm_maskz_loadu_epi8 0xFFFF B (b + ldb * kr))
    (fun _ a => a) (regs4 rearrange16 _mm_setzero_si128) m.

Definition packb_nrlt16_row_major (m : mem) (p sum b ldb KC n0_partial_rem : Z) : mem :=
  let load_mask := Z.shiftr 0xFFFF (16 - n0_partial_rem) in
  row_kernel signed p sum KC 1 (fun kr => _mm_maskz_loadu_epi8 load_mask B (b + ldb * kr))
    (fun _ a => a) (regs4 rearrange16 _mm_setzero_si128) m.
End row_major.

Definition dlp_packb_nr48_s8s8s32os32_row_major := packb_nr48_row_major true.
Definition dlp_packb_nr32_s8s8s32os32_row_major := packb_nr32_row_major true.
Definition dlp_packb_nr16_s8s8s32os32_row_major := packb_nr16_row_major true.
Definition dlp_packb_nrlt16_s8s8s32os32_row_major := packb_nrlt16_row_major true.

(** The kernels of the unsigned type with [int4_upscale == FALSE]. *)
Definition dlp_packb_nr48_u8s8s32o32_row_major := packb_nr48_row_major false.
Definition dlp_packb_nr32_u8s8s32o32_row_major := packb_nr32_row_major false.
Definition dlp_packb_nr16_u8s8s32o32_row_major := packb_nr16_row_major false.
Definition dlp_packb_nrlt16_u8s8s32o32_row_major := packb_nrlt16_row_major false.

(** ** The columns

    All four kernels for any number of columns split it the same way: panels of [NR], the
    largest of 48, 32 and 16 that fits the rest, and what is left.  [panel w] packs [w]
    columns, [lt16] fewer than 16; they get the first column. *)
Definition split_columns (NC : Z) (panel : Z -> mem -> Z -> mem) (lt16 : mem -> Z -> Z -> mem) (m : mem) : mem :=
  let NR := 64 in
  let n_full_pieces := NC `quot` NR in
  let n_full_pieces_loop_limit := n_full_pieces * NR in
  let n_partial_pieces := NC `rem` NR in
  let m := foldl (panel 64) m (loop_points 0 n_full_pieces_loop_limit NR) in
  if 0 <? n_partial_pieces then
    let n0_partial_rem := n_partial_pieces `rem` 16 in
    let n0_48 := n_partial_pieces `quot` 48 in
    let n0_32 := n_partial_pieces `quot` 32 in
    let n0_16 := n_partial_pieces `quot` 16 in
    let '(m, n0_partial_pack) :=
      if n0_48 =? 1 then (panel 48 m n_full_pieces_loop_limit, 48)
      else if n0_32 =? 1 then (panel 32 m n_full_pieces_loop_limit, 32)
      else if n0_16 =? 1 then (panel 16 m n_full_pieces_loop_limit, 16)
      else (m, 0) in
    if 0 <? n0_partial_rem
    then lt16 m (n_full_pieces_loop_limit + n0_partial_pack) n0_partial_rem
    else m
  else m.

(** [KC] with the padding to a multiple of four. *)
Definition KC_updated (KC : Z) : Z :=
  let k_partial_pieces := KC `rem` 4 in
  if 0 <? k_partial_pieces then KC + (4 - k_partial_pieces) else KC.

(** The kernels return the strides of the packed panel with the buffer. *)
Definition packb_row_major (signed : bool) (B m : mem) (pack_b_buffer sum b ldb NC KC : Z) : mem * (Z * Z) :=
  let KCu := KC_updated KC in
  let NR := 64 in
  (split_columns NC
     (fun w m jc =>
        let kernel := if w =? 64 then packb_nr64_panel else if w =? 48 then packb_nr48_row_major
                      else if w =? 32 then packb_nr32_row_major else packb_nr16_row_major in
        kernel signed B m (pack_b_buffer + jc * KCu) (sum + 4 * jc) (b + jc) ldb KC)
     (fun m jc rem =>
        packb_nrlt16_row_major signed B m (pack_b_buffer + jc * KCu) (sum + 4 * jc) (b + jc) ldb KC rem) m,
   (NR * 4, NR)).

Definition dlp_packb_nr64_s8s8s32os32_row_major := packb_row_major true.
(** With [int4_upscale] and [signed_upscale] FALSE, and without sums. *)
Definition dlp_packb_nr64_u8s8s32o32_row_major (B m : mem) (pack_b_buffer b rs_b NC KC : Z) : mem * (Z * Z) :=
  packb_row_major false B m pack_b_buffer 0 b rs_b NC KC.

(** ** The column-major kernels *)

(** The arrays [sum[64]] and [a_reg[16]]: the sums of the columns by their index. *)
Definition sum_cols (widen : vec -> vec) (a_reg : list vec) (jr : Z) (sum : Z -> vec) (c : Z) : vec :=
  if (jr <=? c) && (c <? jr + 16)
  then _mm512_add_epi32 (sum c) (widen (a_reg !!! Z.to_nat (c - jr)))
  else sum c.

Definition widen_16 (k : nat) (a : vec) : vec := _mm512_cvtepi8_epi32 (_mm512_extracti32x4_epi32 a k).

Definition SUM_16_COLS_AVX512_K64 := sum_cols (fun a =>
  let sum0 := _mm512_add_epi32 (widen_16 0 a) (widen_16 1 a) in
  let sum1 := _mm512_add_epi32 (widen_16 2 a) (widen_16 3 a) in
  _mm512_add_epi32 sum0 sum1).
Definition SUM_16_COLS_AVX512_K32 := sum_cols (fun a => _mm512_add_epi32 (widen_16 0 a) (widen_16 1 a)).
Definition SUM_16_COLS_AVX512_K16 := sum_cols (widen_16 0).

Record col_state := mk_col_state { cs_mem : mem; cs_sum : Z -> vec; cs_kr : Z }.

Section col_kernel.
Context (signed : bool) (p sum NR KC : Z).
(** [load mask kr c]: the register of column [c] from row [kr]. *)
Context (load : Z -> Z -> Z -> vec).

(** One turn of the inner loop: sixteen columns from [jr]. *)
Definition col_block (mask regs kr : Z) (SUM : list vec -> Z -> (Z -> vec) -> Z -> vec)
    (st : mem * (Z -> vec)) (jr : Z) : mem * (Z -> vec) :=
  let a_reg := (fun i => load mask kr (jr + i)) <$> seqZ 0 16 in
  (store_regs st.1 (fun i => p + jr * 4 + (kr + 4 * i) * NR) (take (Z.to_nat regs) (transpose16 a_reg)),
   if signed then SUM a_reg jr st.2 else st.2).

(** [for (; (kr + len - 1) < KC; kr += len)] with the loop over the columns. *)
Definition col_level (len mask regs : Z) (SUM : list vec -> Z -> (Z -> vec) -> Z -> vec) (st : col_state) : col_state :=
  foldl (fun st kr =>
      let r := foldl (col_block mask regs kr SUM) (cs_mem st, cs_sum st) (loop_points 0 NR 16) in
      mk_col_state r.1 r.2 (cs_kr st + len))
    st (loop_points (cs_kr st) (KC - (len - 1)) len).

Definition col_levels (st : col_state) : col_state :=
  let st := col_level 64 0xFFFFFFFFFFFFFFFF 16 SUM_16_COLS_AVX512_K64 st in
  let st := col_level 32 0xFFFFFFFF 8 SUM_16_COLS_AVX512_K32 st in
  let st := col_level 16 0xFFFF 4 SUM_16_COLS_AVX512_K16 st in
  let st := col_level 8 0xFF 2 SUM_16_COLS_AVX512_K16 st in
  let st := col_level 4 0x0F 1 SUM_16_COLS_AVX512_K16 st in
  let st := col_level 3 0x07 1 SUM_16_COLS_AVX512_K16 st in
  let st := col_level 2 0x03 1 SUM_16_COLS_AVX512_K16 st in
  col_level 1 0x01 1 SUM_16_COLS_AVX512_K16 st.

(** The sums of sixteen columns reduced, shifted and added to those in memory. *)
Definition reduce_sums (sums : Z -> vec) (m : mem) (jr : Z) : mem :=
  let sum0 := _mm512_set_epi32 ((fun i => _mm512_reduce_add_epi32 (sums (jr + i))) <$> seqZ 0 16) in
  let sum0 := _mm512_sllv_epi32 sum0 mul_128 in
  let sum1 := _mm512_loadu_si512 m (sum + 4 * jr) in
  let sum1 := _mm512_add_epi32 sum0 sum1 in
  _mm512_storeu_si512 m (sum + 4 * jr) sum1.

Definition col_kernel (m : mem) : mem :=
  let st := col_levels (mk_col_state m (fun _ => _mm512_setzero_si512) 0) in
  if signed then foldl (reduce_sums (cs_sum st)) (cs_mem st) (loop_points 0 NR 16) else cs_mem st.
End col_kernel.

Section col_major.
Context (signed : bool) (B : mem).

(** The first loop loads whole registers. *)
Definition load_col (b ldb mask kr c : Z) : vec :=
  if mask =? 0xFFFFFFFFFFFFFFFF then _mm512_loadu_si512 B (b + ldb * c + kr)
  else _mm512_maskz_loadu_epi8 mask B (b + ldb * c + kr).

Definition packb_nr_mult_16_col_major (m : mem) (p sum b NR ldb KC : Z) : mem :=
  col_kernel signed p sum NR KC (load_col b ldb) m.

Definition packb_nrlt16_col_major (m : mem) (p sum b ldb KC n0_partial_rem : Z) : mem :=
  let NR := 16 in
  col_kernel signed p sum NR KC
    (fun mask kr c => if c <? n0_partial_rem then load_col b ldb mask kr c else _mm512_setzero_si512) m.

Definition packb_col_major (m : mem) (pack_b_buffer sum b ldb NC KC : Z) : mem * (Z * Z) :=
  let KCu := KC_updated KC in
  let NR := 64 in
  (split_columns NC
     (fun w m jc => packb_nr_mult_16_col_major m (pack_b_buffer + jc * KCu) (sum + 4 * jc) (b + jc * ldb) w ldb KC)
     (fun m jc rem => packb_nrlt16_col_major m (pack_b_buffer + jc * KCu) (sum + 4 * jc) (b + jc * ldb) ldb KC rem) m,
   (NR * 4, NR)).
End col_major.

Definition dlp_packb_nr_mult_16_s8s8s32o32_col_major := packb_nr_mult_16_col_major true.
Definition dlp_packb_nrlt16_s8s8s32o32_col_major := packb_nrlt16_col_major true.
Definition dlp_packb_nr64_s8s8s32os32_col_major := packb_col_major true.
Definition dlp_packb_nr_mult_16_u8s8s32o32_col_major := packb_nr_mult_16_col_major false.
Definition dlp_packb_nrlt16_u8s8s32o32_col_major := packb_nrlt16_col_major false.
Definition dlp_packb_nr64_u8s8s32o32_col_major (B m : mem) (pack_b_buffer b ldb NC KC : Z) : mem * (Z * Z) :=
  packb_col_major false B m pack_b_buffer 0 b ldb NC KC.

(** ** The entry points *)
Definition dlp_packb_nr64_s8s8s32os32 (B m : mem) (pack_b_buffer pack_b_column_sum b rs_b cs_b NC KC : Z)
    : mem * (Z * Z) :=
  if cs_b =? 1 then dlp_packb_nr64_s8s8s32os32_row_major B m pack_b_buffer pack_b_column_sum b rs_b NC KC
  else dlp_packb_nr64_s8s8s32os32_col_major B m pack_b_buffer pack_b_column_sum b cs_b NC KC.

Definition dlp_packb_nr64_u8s8s32o32 (B m : mem) (pack_b_buffer b rs_b cs_b NC KC : Z) : mem * (Z * Z) :=
  if cs_b =? 1 then dlp_packb_nr64_u8s8s32o32_row_major B m pack_b_buffer b rs_b NC KC
  else dlp_packb_nr64_u8s8s32o32_col_major B m pack_b_buffer b cs_b NC KC.
