(* ===== verification/PackB8Ok.v ===== *)
(** * The packing kernels of B are correct

    Every kernel of [PackB8] leaves a panel with the four rows of a column together,
    padded with zeros, adds the column sums, and writes nothing else. *)
From S2P Require Import Prelude Word DlpTypes ReorderLayout TeamMachine TeamCorrect Simd PackB8.
From stdpp Require Import list.
#[local] Open Scope Z_scope.

Local Abbreviation round_up := dlp_reorder_round_up.

(** ** Stores of registers *)

Lemma store_regs_seq m addr (H : Z -> vec) n : 0 <= n ->
  store_regs m addr (H <$> seqZ 0 n) = foldl (fun m i => _mm512_storeu_si512 m (addr i) (H i)) m (seqZ 0 n).
Proof.
  intros Hn. unfold store_regs. rewrite length_fmap, length_seqZ, Z2Nat.id by done.
  generalize (seqZ 0 n). clear Hn. intros l. revert m. induction l as [|i l IH]; intros m; [done|]. apply IH.
Qed.

(** Registers that hold the values [val] of the addresses they go to. *)
Lemma store_regs_val m addr val n x : 0 <= n ->
  let m' := store_regs m addr ((fun i => (fun o => val (addr i + o)) <$> seqZ 0 64) <$> seqZ 0 n) in
  ((exists i, 0 <= i < n /\ addr i <= x < addr i + 64) -> m' x = val x) /\
  ((forall i, 0 <= i < n -> ~ (addr i <= x < addr i + 64)) -> m' x = m x).
Proof.
  intros Hn m'. subst m'. rewrite store_regs_seq by done. pattern n. revert n Hn.
  apply natlike_ind; [split; [intros (i & ? & _); lia|done]|]. intros n Hn [IH1 IH2].
  unfold Z.succ. rewrite seqZ_app, foldl_app, Z.add_0_l, (seqZ_cons n), (seqZ_nil (Z.succ n)) by lia. cbn [foldl].
  set (m' := foldl _ _ _) in *. rewrite storeu_image by lia. unfold fill.
  destruct (Z.leb_spec (addr n) x); [destruct (Z.ltb_spec x (addr n + 64))|]; cbn [andb].
  - replace (addr n + (x - addr n)) with x by lia. split; [done|]. intros Hx. exfalso. apply (Hx n); lia.
  - split; [intros (i & Hi & Hx); apply IH1; exists i; split; [|done]|intros Hx; apply IH2; intros; apply Hx; lia].
    destruct (decide (i = n)) as [->|]; lia.
  - split; [intros (i & Hi & Hx); apply IH1; exists i; split; [|done]|intros Hx; apply IH2; intros; apply Hx; lia].
    destruct (decide (i = n)) as [->|]; lia.
Qed.

(** Registers at consecutive addresses fill an interval. *)
Lemma store_regs_fill m addr a val n x : 0 <= n -> (forall i, addr i = a + 64 * i) ->
  store_regs m addr ((fun i => (fun o => val (a + 64 * i + o)) <$> seqZ 0 64) <$> seqZ 0 n) x =
  fill m a (a + 64 * n) val x.
Proof.
  intros Hn Ha. destruct (store_regs_val m addr val n x Hn) as [Hin Hout].
  assert (forall i, (fun o => val (addr i + o)) <$> seqZ 0 64 = (fun o => val (a + 64 * i + o)) <$> seqZ 0 64) as E
    by (intros i; by rewrite Ha).
  rewrite (list_fmap_ext _ (fun i => (fun o => val (a + 64 * i + o)) <$> seqZ 0 64)) in Hin, Hout by (intros; apply E).
  unfold fill. destruct (Z.leb_spec a x); [destruct (Z.ltb_spec x (a + 64 * n))|]; cbn [andb].
  - apply Hin. exists ((x - a) / 64). rewrite Ha. pose proof (Z.div_mod (x - a) 64). pose proof (Z.mod_pos_bound (x - a) 64).
    split; [|lia]. split; [apply Z.div_pos|apply Z.div_lt_upper_bound]; lia.
  - apply Hout. intros i Hi. rewrite Ha. lia.
  - apply Hout. intros i Hi. rewrite Ha. lia.
Qed.

Lemma fill_ext m m' lo hi f x : m x = m' x -> fill m lo hi f x = fill m' lo hi f x.
Proof. intros H. unfold fill. by rewrite H. Qed.

Lemma fill_fill m lo mid hi f x : lo <= mid <= hi -> fill (fill m lo mid f) mid hi f x = fill m lo hi f x.
Proof. intros H. unfold fill. repeat (zcase; cbn [andb]; try lia; try done). Qed.

Lemma fill_in m lo hi f x : lo <= x < hi -> fill m lo hi f x = f x.
Proof. intros H. unfold fill. repeat (zcase; cbn [andb]; try lia; try done). Qed.

Lemma fill_out m lo hi f x : (x < lo \/ hi <= x) -> fill m lo hi f x = m x.
Proof. intros H. unfold fill. repeat (zcase; cbn [andb]; try lia; try done). Qed.

(** ** The loop over the rows *)

Lemma loop_points_foldl {S} (f : S -> Z -> S) (I : Z -> S -> Prop) step hi :
  0 < step -> forall lo st, I lo st -> (forall x st, lo <= x -> x < hi -> (step | x - lo) -> I x st -> I (x + step) (f st x)) ->
  exists e, I e (foldl f st (loop_points lo hi step)) /\ hi <= e /\ lo <= e /\ (lo < hi -> e < hi + step) /\ (step | e - lo) /\ (hi <= lo -> e = lo).
Proof.
  intros Hs lo. apply (loop_ind hi step (fun lo => forall st, I lo st ->
    (forall x st, lo <= x -> x < hi -> (step | x - lo) -> I x st -> I (x + step) (f st x)) ->
    exists e, I e (foldl f st (loop_points lo hi step)) /\ hi <= e /\ lo <= e /\ (lo < hi -> e < hi + step) /\
      (step | e - lo) /\ (hi <= lo -> e = lo)) Hs); clear lo.
  - intros lo Hlo st HI _. rewrite loop_points_unfold by done. rewrite (proj2 (Z.ltb_ge lo hi)) by done.
    exists lo. split_and!; try done; try lia. rewrite Z.sub_diag. apply Z.divide_0_r.
  - intros lo Hlo IH st HI Hstep. rewrite loop_points_unfold by done. rewrite (proj2 (Z.ltb_lt lo hi)) by done.
    cbn [foldl]. destruct (IH (f st lo)) as (e & HIe & He & Hle & Hlt & [q Hq] & Hend).
    + apply Hstep; try lia; try done. rewrite Z.sub_diag. apply Z.divide_0_r.
    + intros x st' Hx Hhi [q Hq]. apply Hstep; try lia. exists (q + 1). lia.
    + exists e. split_and!; try done; try lia. exists (q + 1). lia.
Qed.

Lemma round_up_4 k : 0 <= k -> round_up k 4 = 4 * ((k + 3) / 4).
Proof. intros Hk. rewrite round_up_eq by lia. do 2 f_equal. lia. Qed.

Lemma KC_updated_eq k : 0 <= k -> KC_updated k = round_up k 4.
Proof.
  intros Hk. unfold KC_updated. rewrite crem_nonneg, round_up_4 by lia. zcase; dlia.
Qed.

Lemma seqZ_from_0 x n : seqZ x n = Z.add x <$> seqZ 0 n.
Proof. rewrite fmap_add_seqZ. f_equal. lia. Qed.

Lemma row_loop_ok {S R} KC (ld : Z -> R) (step : S -> Z -> list R -> S) (I : Z -> S -> Prop) st :
  0 <= KC -> I 0 st ->
  (forall kr st, 0 <= kr < KC -> (4 | kr) -> I kr st -> I (kr + 4) (step st kr (ld <$> seqZ kr (Z.min 4 (KC - kr))))) ->
  I (round_up KC 4) (row_loop KC ld step st).
Proof.
  intros HKC HI Hstep. unfold row_loop. rewrite cquot_nonneg, crem_nonneg by lia.
  assert (KC = 4 * (KC / 4) + KC mod 4 /\ 0 <= KC mod 4 < 4) as [Ek Hr].
  { split; [apply Z.div_mod; lia|apply Z.mod_pos_bound; lia]. }
  set (r := KC mod 4) in *. set (kf := KC / 4 * 4). assert (0 <= kf) by (unfold kf; dlia).
  destruct (loop_points_foldl
    (fun st kr => step st kr [ld (kr + 0); ld (kr + 1); ld (kr + 2); ld (kr + 3)]) I 4 kf ltac:(lia) 0 st HI)
    as (e & HIe & He1 & He2 & He3 & [q Hq] & Hend).
  { intros x st' Hx Hhi [q Hq] HIx. specialize (Hstep x st' ltac:(unfold kf in Hhi; lia) ltac:(exists q; lia) HIx).
    rewrite Z.min_l in Hstep by (unfold kf in Hhi; lia).
    by rewrite seqZ_from_0 in Hstep. }
  assert (e = kf) as -> by (destruct (decide (0 < kf)); [unfold kf in *; lia|rewrite Hend; lia]).
  set (st' := foldl _ _ _) in *. rewrite round_up_4 by done. destruct (Z.ltb_spec 0 r).
  - replace (4 * ((KC + 3) / 4)) with (kf + 4) by (unfold kf; dlia).
    specialize (Hstep kf st' ltac:(unfold kf; lia) ltac:(exists (KC / 4); unfold kf; lia) HIe).
    rewrite Z.min_r in Hstep by (unfold kf; lia). replace (KC - kf) with r in Hstep by (unfold kf; lia).
    rewrite seqZ_from_0 in Hstep. unfold k_rest. by assert (r = 1 \/ r = 2 \/ r = 3) as [E|[E|E]] by lia; rewrite E in *.
  - by replace (4 * ((KC + 3) / 4)) with kf by (unfold kf; dlia).
Qed.

(** ** The split of the columns *)

(** [I n] holds of the buffer when the first [n] columns are done; a step takes a whole
    chunk. *)
Lemma split_columns_ind n0 panel lt16 (I : Z -> mem -> Prop) m :
  let N := round_up n0 16 in
  0 <= n0 -> I 0 m ->
  (forall n w m, 0 <= n -> n + w <= n0 -> w = 64 \/ w = 48 \/ w = 32 \/ w = 16 -> n + w <= N ->
     (forall c, n <= c < n + w -> chunk_of n0 64 16 c = (n, w)) -> I n m -> I (n + w) (panel w m n)) ->
  (forall n rem m, 0 <= n -> 0 < rem < 16 -> n + rem = n0 -> n + 16 = N ->
     (forall c, n <= c < n0 -> chunk_of n0 64 16 c = (n, 16)) -> I n m -> I (n + 16) (lt16 m n rem)) ->
  I N (split_columns n0 panel lt16 m).
Proof.
  intros N Hn0 H0 Hpanel Hlt16.
  unfold split_columns. cbn zeta. rewrite !cquot_nonneg, !crem_nonneg by (try apply Z.rem_nonneg; lia).
  pose proof (Z.div_mod n0 64 ltac:(lia)) as En. pose proof (Z.mod_pos_bound n0 64 ltac:(lia)) as Hpart.
  set (part := n0 mod 64) in *. set (lim := n0 / 64 * 64). assert (0 <= n0 / 64) by (apply Z.div_pos; lia).
  rewrite ?cquot_nonneg, ?crem_nonneg by lia.
  assert (N = 16 * ((n0 + 15) / 16)) as EN by (unfold N; rewrite round_up_eq by lia; do 2 f_equal; lia).
  destruct (loop_points_foldl (panel 64) I 64 lim ltac:(lia) 0 m H0) as (e & He & He1 & He2 & He3 & [q Hq] & He4).
  { intros n m1 Hn Hlim [q Hq] Hok. apply Hpanel; try done; unfold lim in *; try lia; [rewrite EN; dlia|].
    intros c Hc. unfold chunk_of. replace (64 * (c / 64)) with n by dlia.
    by rewrite (proj2 (Z.leb_le (n + 64) n0)) by lia. }
  assert (e = lim) as -> by (destruct (decide (0 < lim)); [unfold lim in *; lia|rewrite He4; unfold lim in *; lia]).
  set (m1 := foldl _ _ _) in *. destruct (Z.ltb_spec 0 part); cycle 1.
  { replace N with lim by (rewrite EN; unfold lim; dlia). done. }
  set (whole := 16 * (part / 16)). set (rem := part mod 16).
  pose proof (Z.div_mod part 16 ltac:(lia)) as Ep. pose proof (Z.mod_pos_bound part 16 ltac:(lia)) as Hrem. fold rem in Ep, Hrem.
  assert (forall c, lim <= c < n0 -> chunk_of n0 64 16 c = (if c <? lim + whole then (lim, whole) else (lim + whole, 16))) as Hchunk.
  { intros c Hc. unfold chunk_of. replace (64 * (c / 64)) with lim by (unfold lim in *; dlia).
    rewrite (proj2 (Z.leb_gt (lim + 64) n0)) by (unfold lim; lia).
    replace (16 * ((n0 - lim) / 16)) with whole by (unfold whole; do 2 f_equal; unfold lim; lia). done. }
  assert (exists m2, (if part / 48 =? 1 then (panel 48 m1 lim, 48) else if part / 32 =? 1 then (panel 32 m1 lim, 32)
                      else if part / 16 =? 1 then (panel 16 m1 lim, 16) else (m1, 0)) = (m2, whole) /\ I (lim + whole) m2)
    as (m2 & -> & Hm2).
  { assert (forall w, w = 48 \/ w = 32 \/ w = 16 -> whole = w -> I (lim + whole) (panel w m1 lim)) as Hw.
    { intros w Hw Ew. rewrite Ew. apply Hpanel; try done; unfold lim, whole in *; try lia; [rewrite EN; dlia|].
      intros c Hc. rewrite Hchunk by lia. rewrite (proj2 (Z.ltb_lt c _)) by lia. by rewrite Ew. }
    destruct (Z.eqb_spec (part / 48) 1); [|destruct (Z.eqb_spec (part / 32) 1); [|destruct (Z.eqb_spec (part / 16) 1)]].
    - assert (whole = 48) as E by (unfold whole; dlia). exists (panel 48 m1 lim). split; [by rewrite E|]. by apply Hw; [left|].
    - assert (whole = 32) as E by (unfold whole; dlia). exists (panel 32 m1 lim). split; [by rewrite E|]. by apply Hw; [right; left|].
    - assert (whole = 16) as E by (unfold whole; dlia). exists (panel 16 m1 lim). split; [by rewrite E|]. by apply Hw; [right; right|].
    - assert (whole = 0) as E by (unfold whole; dlia). exists m1. rewrite E, Z.add_0_r. done. }
  destruct (Z.ltb_spec 0 rem); cycle 1.
  { replace N with (lim + whole) by (rewrite EN; unfold lim, whole; dlia). done. }
  replace N with (lim + whole + 16) by (rewrite EN; unfold lim, whole; dlia).
  apply Hlt16; try done; unfold lim, whole in *; try lia; [rewrite EN; dlia|].
  intros c Hc. rewrite Hchunk by lia. by rewrite (proj2 (Z.ltb_ge c _)) by lia.
Qed.

(** ** Panels

    A panel of [w] columns at [p] whose element in row [r], column [c] is [el r c]; the
    columns of the padding are zero in [el], its rows are cut off here. *)
Section panel.
Context (el : Z -> Z -> Z) (w p k0 : Z).

Definition panel_val (x : Z) : Z :=
  let o := x - p in
  let r := 4 * (o / (4 * w)) + o mod 4 in
  let c := (o mod (4 * w)) / 4 in
  if r <? k0 then el r c else 0.

(** What a kernel does to the panel and to the sums of its columns. *)
Record panel_ok (sum : option Z) (m m' : mem) : Prop := mk_panel_ok {
  po_bytes : forall x, (forall s, sum = Some s -> ~ (s <= x < s + 4 * w)) ->
    m' x = fill m p (p + w * round_up k0 4) panel_val x;
  po_sums : forall s i, sum = Some s -> p + w * round_up k0 4 <= s -> 0 <= i < w ->
    load_i32 m' (s + 4 * i) =
    to_i32 (load_i32 m (s + 4 * i) + 128 * zsum (fun r => to_i8 (el r i)) 0 k0);
}.

Hypothesis Hw : 0 < w.
Hypothesis Hk0 : 0 <= k0.

(** Byte [o] of the group of rows at [kr]. *)
Lemma panel_val_at kr o : (4 | kr) -> 0 <= o < 4 * w ->
  panel_val (p + w * kr + o) = (if kr + o mod 4 <? k0 then el (kr + o mod 4) (o / 4) else 0).
Proof using Hw.
  intros [q ->] Ho. unfold panel_val.
  replace (p + w * (q * 4) + o - p) with (o + q * (4 * w)) by lia.
  rewrite Z.div_add, Z.mod_add, (Z.div_small o (4 * w)), (Z.mod_small o (4 * w)) by lia.
  replace ((o + q * (4 * w)) mod 4) with (o mod 4)
    by (replace (q * (4 * w)) with (q * w * 4) by lia; by rewrite Z.mod_add).
  by replace (4 * (0 + q)) with (q * 4) by lia.
Qed.
End panel.

(** ** The row kernels *)
Section row_kernel.
Context {R : Type} (signed : bool) (p sum KC chunks : Z) (ld : Z -> R).
Context (chunk : Z -> R -> vec) (shuffle : list R -> list vec).
Context (el : Z -> Z -> Z) (m : mem).

Local Abbreviation w := (16 * chunks).
Local Abbreviation val := (panel_val el w p KC).
Local Abbreviation col_sum n i := (zsum (fun r => to_i8 (el r i)) 0 n).

Hypothesis HKC : 0 <= KC.
Hypothesis Hchunks : 1 <= chunks.
(** The registers stored for the rows from [kr] hold the panel, and the chunks of a row
    its columns. *)
Hypothesis Hshuffle : forall kr, 0 <= kr < KC -> (4 | kr) ->
  shuffle (ld <$> seqZ kr (Z.min 4 (KC - kr))) =
  (fun q => (fun o => val (p + w * kr + 64 * q + o)) <$> seqZ 0 64) <$> seqZ 0 chunks.
Hypothesis Hchunk : forall q r, 0 <= q < chunks ->
  chunk q (ld r) = (fun i => el r (16 * q + i)) <$> seqZ 0 16.

Lemma lanes_add_rows q l : 0 <= q < chunks -> l <> [] ->
  lanes (add_rows (chunk q <$> (ld <$> l))) (fun i => foldr (fun r acc => to_i8 (el r (16 * q + i)) + acc) 0 l).
Proof using Hchunk.
  intros Hq. induction l as [|r [|r2 l] IH]; intros Hl; [done|..].
  - cbn [fmap list_fmap add_rows]. rewrite Hchunk by done. eapply lanes_ext; [apply lanes_cvt|].
    intros i Hi. cbn [foldr]. lia.
  - specialize (IH ltac:(done)). cbn [fmap list_fmap] in IH |- *. set (tail := chunk q (ld r2) :: _) in IH |- *.
    change (add_rows (chunk q (ld r) :: tail)) with (_mm512_add_epi32 (_mm512_cvtepi8_epi32 (chunk q (ld r))) (add_rows tail)).
    rewrite Hchunk by done. apply (lanes_add _ _ _ _ (lanes_cvt _) IH).
Qed.

(** The loop invariant: the rows up to [kr] are in place and in the sums. *)
Definition row_inv (kr : Z) (st : row_state) : Prop :=
  (forall x, rs_mem st x = fill m p (p + w * kr) val x) /\ 64 * rs_kr_new st = w * kr /\
  (signed = true -> exists F, rs_sums st = F <$> seqZ 0 chunks /\
     forall q, 0 <= q < chunks ->
       lanes (F q) (fun i => load_i32 m (sum + 4 * (16 * q) + 4 * i) + 128 * col_sum (Z.min kr KC) (16 * q + i))).

Lemma row_step_inv kr st : 0 <= kr < KC -> (4 | kr) -> row_inv kr st ->
  row_inv (kr + 4) (row_step signed p chunks chunk shuffle st kr (ld <$> seqZ kr (Z.min 4 (KC - kr)))).
Proof using HKC Hchunk Hchunks Hshuffle.
  intros Hkr H4 (Hm & Hnew & Hsums). unfold row_step. rewrite Hshuffle by done. split_and!; cbn [rs_mem rs_sums rs_kr_new].
  - intros x. rewrite (store_regs_fill _ _ (p + w * kr)) by lia. rewrite (fill_ext _ (fill m p (p + w * kr) val)) by done.
    replace (p + w * kr + 64 * chunks) with (p + w * (kr + 4)) by lia. apply fill_fill. nia.
  - rewrite length_fmap, length_seqZ. lia.
  - intros Hs. destruct (Hsums Hs) as (F & EF & HF). rewrite Hs, EF.
    exists (fun q => add_columns (F q) (chunk q <$> (ld <$> seqZ kr (Z.min 4 (KC - kr))))). split.
    + generalize (seqZ 0 chunks). intros l. induction l as [|q l IH]; [done|]. cbn [fmap list_fmap zip_with]. f_equal. apply IH.
    + intros q Hq. unfold add_columns, mul_128. eapply lanes_ext.
      { apply lanes_add; [by apply HF|]. apply lanes_sllv; [lia|]. apply lanes_add_rows; [done|]. rewrite seqZ_cons by lia. done. }
      intros i Hi. cbn beta. rewrite (Z.min_l kr) by lia.
      replace (Z.min (kr + 4) KC) with (kr + Z.min 4 (KC - kr)) by lia. rewrite (zsum_split _ 0) by lia.
      rewrite Z.add_0_l. change (2 ^ 7) with 128. unfold zsum. lia.
Qed.

Lemma row_kernel_ok :
  panel_ok el w p KC (if signed then Some sum else None) m
    (row_kernel signed p sum KC chunks ld chunk shuffle m).
Proof using HKC Hchunk Hchunks Hshuffle.
  assert (row_inv (round_up KC 4) (row_loop KC ld (row_step signed p chunks chunk shuffle)
    (mk_row_state m (if signed then load_sums m sum chunks else []) 0))) as (Hm & _ & Hsums).
  { apply row_loop_ok; [done| |apply row_step_inv]. split_and!; cbn [rs_mem rs_sums rs_kr_new]; [|lia|].
    - intros x. rewrite fill_out; [done|lia].
    - intros ->. eexists. split; [reflexivity|]. intros q Hq. eapply lanes_ext; [apply lanes_load|].
      intros i Hi. cbn beta. rewrite Z.min_l, zsum_nil by lia. lia. }
  unfold row_kernel. set (st := row_loop _ _ _ _) in *. destruct signed; cycle 1.
  { split; [|done]. intros x _. apply Hm. }
  destruct (Hsums eq_refl) as (F & EF & HF). unfold store_sums. rewrite EF, store_regs_seq by lia.
  set (put := fun m i => _mm512_storeu_si512 m (sum + 4 * (16 * i)) (F i)).
  assert (forall n m0, 0 <= n <= chunks ->
    (forall x, (x < sum \/ sum + 64 * n <= x) -> foldl put m0 (seqZ 0 n) x = m0 x) /\
    forall i, 0 <= i < 16 * n -> load_i32 (foldl put m0 (seqZ 0 n)) (sum + 4 * i) =
      to_i32 (load_i32 m (sum + 4 * i) + 128 * col_sum KC i)) as Hput.
  { intros n m0 [Hn Hnc]. revert Hnc. pattern n. revert n Hn. apply natlike_ind; [split; [done|lia]|]. intros n Hn IH Hnc.
    specialize (IH ltac:(lia)) as [IHo IHi]. pose proof (HF n ltac:(lia)) as HFn.
    unfold Z.succ. rewrite seqZ_app, foldl_app, Z.add_0_l, (seqZ_cons n), (seqZ_nil (Z.succ n)) by lia. cbn [foldl].
    set (m1 := foldl put m0 _) in *. unfold put. split.
    - intros x Hx. rewrite storeu_out by (rewrite (proj1 HFn); lia). apply IHo. lia.
    - intros i Hi. destruct (decide (i < 16 * n)).
      + rewrite <- IHi by lia. unfold load_i32. rewrite !storeu_out by (rewrite (proj1 HFn); lia). done.
      + replace (sum + 4 * i) with (sum + 4 * (16 * n) + 4 * (i - 16 * n)) by lia. erewrite lanes_store; [|exact HFn|lia].
        cbn beta. rewrite Z.min_r by (rewrite round_up_4; dlia). by replace (16 * n + (i - 16 * n)) with i by lia. }
  split.
  - intros x Hx. rewrite <- Hm. apply Hput; [lia|]. specialize (Hx sum eq_refl). lia.
  - intros s i [= <-] Hs Hi. apply Hput; lia.
Qed.
End row_kernel.

(** ** The rearranged registers hold the panel *)
Section groups.
Context (el : Z -> Z -> Z) (w p KC kr off W : Z).
Hypothesis HKC : 0 <= kr < KC.
Hypothesis H4 : (4 | kr).
Hypothesis HW : 16 <= W.
Hypothesis Hoff : 0 <= off /\ off + W <= w /\ (16 | off).

(** The four rows from [kr], columns from [off], by their index in the registers. *)
Definition row_index (i : Z) : Z := if kr + i / W <? KC then el (kr + i / W) (off + i mod W) else 0.

Lemma regs4_rows {A} (f : vec -> vec -> vec -> vec -> A) (ld : Z -> vec) (zero : vec) :
  (forall r, ld r = (fun c => el r (off + c)) <$> seqZ 0 W) -> zero = replicate (Z.to_nat W) 0 ->
  regs4 f zero (ld <$> seqZ kr (Z.min 4 (KC - kr))) =
  f (row_index <$> seqZ 0 W) (row_index <$> seqZ W W) (row_index <$> seqZ (2 * W) W) (row_index <$> seqZ (3 * W) W).
Proof using HKC HW.
  intros Hld Hzero.
  assert (forall j, 0 <= j < 4 ->
    default zero ((ld <$> seqZ kr (Z.min 4 (KC - kr))) !! Z.to_nat j) = row_index <$> seqZ (j * W) W) as H.
  { intros j Hj. rewrite (seqZ_from_0 (j * W)), <- list_fmap_compose, list_lookup_fmap.
    assert (forall c, 0 <= c < W -> (row_index ∘ Z.add (j * W)) c = if kr + j <? KC then el (kr + j) (off + c) else 0) as E.
    { intros c Hc. cbn. unfold row_index. rewrite (Z.add_comm (j * W)), Z.div_add, Z.mod_add, (Z.div_small c), (Z.mod_small c) by lia.
      done. }
    destruct (Z.ltb_spec (kr + j) KC).
    - rewrite (proj2 (lookup_seqZ kr (Z.min 4 (KC - kr)) (Z.to_nat j) (kr + j))) by lia. cbn [fmap option_fmap option_map default].
      rewrite Hld. apply list_fmap_ext. intros i c Hc%lookup_seqZ. by rewrite E by lia.
    - rewrite lookup_seqZ_ge by lia. cbn. rewrite Hzero. clear Hzero.
      rewrite (list_fmap_ext _ (fun _ => 0)) by (intros i c Hc%lookup_seqZ; by rewrite E by lia).
      replace (Z.to_nat W) with (length (seqZ 0 W)) by (rewrite length_seqZ; lia).
      generalize (seqZ 0 W). intros l. induction l as [|c l IH]; [done|]. cbn [length replicate fmap list_fmap]. by rewrite IH. }
  unfold regs4. pose proof (H 0 ltac:(lia)) as H0. pose proof (H 1 ltac:(lia)) as H1.
  pose proof (H 2 ltac:(lia)) as H2. pose proof (H 3 ltac:(lia)) as H3.
  change (Z.to_nat 0) with 0%nat in H0. change (Z.to_nat 1) with 1%nat in H1.
  change (Z.to_nat 2) with 2%nat in H2. change (Z.to_nat 3) with 3%nat in H3.
  rewrite H0, H1, H2, H3. f_equal; do 2 f_equal; lia.
Qed.

Lemma grouped_val q : 0 <= q -> 16 * q + 16 <= W ->
  row_index <$> grouped W q = (fun o => panel_val el w p KC (p + w * kr + 64 * (off / 16 + q) + o)) <$> seqZ 0 64.
Proof using H4 HW Hoff HKC.
  intros Hq HqW. unfold grouped. rewrite <- list_fmap_compose. apply list_fmap_ext. intros j o Ho%lookup_seqZ. cbn.
  destruct Hoff as (Ho1 & Ho2 & [d Hd]).
  assert (0 <= o / 4 < 16 /\ 0 <= o mod 4 < 4) as [? ?] by (split; [dlia|apply Z.mod_pos_bound; lia]).
  unfold row_index. rewrite (Z.add_comm (W * (o mod 4))), (Z.mul_comm W), Z.div_add, Z.mod_add by lia.
  rewrite (Z.div_small (16 * q + o / 4)), (Z.mod_small (16 * q + o / 4)) by lia.
  replace (off / 16) with d by (rewrite Hd, Z.div_mul by lia; done).
  replace (p + w * kr + 64 * (d + q) + o) with (p + w * kr + (64 * (d + q) + o)) by lia.
  rewrite panel_val_at by (done || lia).
  replace ((64 * (d + q) + o) mod 4) with (o mod 4)
    by (replace (64 * (d + q) + o) with (o + 16 * (d + q) * 4) by lia; by rewrite Z.mod_add).
  replace ((64 * (d + q) + o) / 4) with (off + (16 * q + o / 4))
    by (replace (64 * (d + q) + o) with (o + 16 * (d + q) * 4) by lia; rewrite Z.div_add by lia; lia).
  done.
Qed.
End groups.

(** ** The five row-major kernels *)
Section row_major.
Context (signed : bool) (B m : mem) (p sum b ldb KC : Z).
Hypothesis HKC : 0 <= KC.

Local Abbreviation sum_opt := (if signed then Some sum else None).

(** Row [r], column [c] of a row-major B with [n0] columns. *)
Definition row_elem (n0 r c : Z) : Z := if c <? n0 then B (b + ldb * r + c) else 0.

Lemma loadu_elem n r off W : off + W <= n ->
  loadu W B (b + ldb * r + off) = (fun c => row_elem n r (off + c)) <$> seqZ 0 W.
Proof.
  intros Hn. apply list_fmap_ext. intros i c Hc%lookup_seqZ. unfold row_elem. rewrite (proj2 (Z.ltb_lt _ n)) by lia. f_equal. lia.
Qed.

Lemma maskz_ones W m0 a : 0 <= W -> maskz_loadu W (Z.ones W) m0 a = loadu W m0 a.
Proof. intros HW. apply list_fmap_ext. intros i c Hc%lookup_seqZ. by rewrite Z.ones_spec_low by lia. Qed.

Lemma maskz_elem n0 r : 0 <= n0 <= 16 ->
  maskz_loadu 16 (Z.shiftr 0xFFFF (16 - n0)) B (b + ldb * r) = (fun c => row_elem n0 r c) <$> seqZ 0 16.
Proof.
  intros Hn. apply list_fmap_ext. intros i c Hc%lookup_seqZ. unfold row_elem.
  rewrite Z.shiftr_spec by lia. change 0xFFFF with (Z.ones 16). destruct (Z.ltb_spec c n0).
  - rewrite Z.ones_spec_low by lia. f_equal.
  - by rewrite Z.ones_spec_high by lia.
Qed.

Lemma extract_image (h : Z -> Z) W q : 0 <= q -> 16 * q + 16 <= W ->
  lane 16 (Z.to_nat q) (h <$> seqZ 0 W) = (fun i => h (16 * q + i)) <$> seqZ 0 16.
Proof.
  intros Hq HW. rewrite lane_natural. unfold lane.
  replace W with (16 * q + (W - 16 * q)) by lia. rewrite seqZ_app, drop_app_length' by (rewrite ?length_seqZ; lia).
  replace (W - 16 * q) with (16 + (W - 16 * q - 16)) by lia. rewrite seqZ_app, take_app_length' by (rewrite ?length_seqZ; lia).
  rewrite Z.add_0_l, seqZ_from_0, <- list_fmap_compose. done.
Qed.

Lemma nr64_panel_ok :
  panel_ok (row_elem 64) 64 p KC sum_opt m (packb_nr64_panel signed B m p sum b ldb KC).
Proof using HKC.
  assert (forall r, _mm512_loadu_si512 B (b + ldb * r) = (fun c => row_elem 64 r (0 + c)) <$> seqZ 0 64) as Hld.
  { intros r. rewrite <- (Z.add_0_r (b + ldb * r)). by apply loadu_elem. }
  apply (row_kernel_ok _ _ _ _ 4); try done.
  - intros kr Hkr H4. rewrite (regs4_rows (row_elem 64) KC kr 0 64) by (done || lia).
    rewrite rearrange64_ok. apply list_fmap_ext. intros i q Hq%lookup_seqZ.
    rewrite (grouped_val (row_elem 64) 64 p KC kr 0 64) by (done || lia || (split_and!; [lia..|by exists 0])). done.
  - intros q r Hq. rewrite Hld. unfold lane_chunk, _mm512_extracti32x4_epi32. rewrite extract_image by lia. done.
Qed.

Lemma nr32_panel_ok :
  panel_ok (row_elem 32) 32 p KC sum_opt m (packb_nr32_row_major signed B m p sum b ldb KC).
Proof using HKC.
  assert (forall r, _mm256_maskz_loadu_epi8 0xFFFFFFFF B (b + ldb * r) = (fun c => row_elem 32 r (0 + c)) <$> seqZ 0 32) as Hld.
  { intros r. rewrite <- (Z.add_0_r (b + ldb * r)). rewrite <- loadu_elem by done. by apply (maskz_ones 32). }
  apply (row_kernel_ok _ _ _ _ 2); try done.
  - intros kr Hkr H4. rewrite (regs4_rows (row_elem 32) KC kr 0 32) by (done || lia).
    rewrite rearrange32_ok. apply list_fmap_ext. intros i q Hq%lookup_seqZ.
    rewrite (grouped_val (row_elem 32) 32 p KC kr 0 32) by (done || lia || (split_and!; [lia..|by exists 0])). done.
  - intros q r Hq. rewrite Hld. unfold _mm256_extracti32x4_epi32. rewrite extract_image by lia. done.
Qed.

Lemma nrle16_panel_ok mask n0 :
  0 <= n0 <= 16 -> (forall r, _mm_maskz_loadu_epi8 mask B (b + ldb * r) = (fun c => row_elem n0 r c) <$> seqZ 0 16) ->
  panel_ok (row_elem n0) 16 p KC sum_opt m
    (row_kernel signed p sum KC 1 (fun kr => _mm_maskz_loadu_epi8 mask B (b + ldb * kr)) (fun _ a => a)
       (regs4 rearrange16 _mm_setzero_si128) m).
Proof using HKC.
  intros Hn Hld. apply (row_kernel_ok _ _ _ _ 1); try done.
  - intros kr Hkr H4. rewrite (regs4_rows (row_elem n0) KC kr 0 16) by (done || lia || (intros r; by rewrite Hld)).
    rewrite rearrange16_ok. cbn. f_equal.
    rewrite (grouped_val (row_elem n0) 16 p KC kr 0 16) by (done || lia || (split_and!; [lia..|by exists 0])). done.
  - intros q r Hq. rewrite Hld. assert (q = 0) as -> by lia. done.
Qed.

Lemma nr16_panel_ok :
  panel_ok (row_elem 16) 16 p KC sum_opt m (packb_nr16_row_major signed B m p sum b ldb KC).
Proof using HKC.
  apply nrle16_panel_ok; [lia|]. intros r. rewrite <- maskz_elem by lia. by rewrite Z.shiftr_0_r.
Qed.

Lemma nrlt16_panel_ok n0 : 0 <= n0 <= 16 ->
  panel_ok (row_elem n0) 16 p KC sum_opt m (packb_nrlt16_row_major signed B m p sum b ldb KC n0).
Proof using HKC. intros Hn. apply nrle16_panel_ok; [done|]. intros r. by apply maskz_elem. Qed.

Lemma nr48_panel_ok :
  panel_ok (row_elem 48) 48 p KC sum_opt m (packb_nr48_row_major signed B m p sum b ldb KC).
Proof using HKC.
  assert (forall r, _mm256_maskz_loadu_epi8 0xFFFFFFFF B (b + ldb * r) = (fun c => row_elem 48 r (0 + c)) <$> seqZ 0 32) as Hld1.
  { intros r. rewrite <- (Z.add_0_r (b + ldb * r)). rewrite <- loadu_elem by done. by apply (maskz_ones 32). }
  assert (forall r, _mm_maskz_loadu_epi8 0xFFFF B (b + ldb * r + 32) = (fun c => row_elem 48 r (32 + c)) <$> seqZ 0 16) as Hld2.
  { intros r. rewrite <- loadu_elem by done. by apply (maskz_ones 16). }
  apply (row_kernel_ok _ _ _ _ 3); try done.
  - intros kr Hkr H4. rewrite <- !list_fmap_compose.
    rewrite (regs4_rows (row_elem 48) KC kr 0 32), (regs4_rows (row_elem 48) KC kr 32 16) by (done || lia).
    rewrite rearrange32_ok, rearrange16_ok. replace (seqZ 0 3) with [0; 1; 2] by done.
    replace (seqZ 0 2) with [0; 1] by done. cbn [fmap list_fmap app].
    rewrite !(grouped_val (row_elem 48) 48 p KC kr 0 32) by (done || lia || (split_and!; [lia..|by exists 0])).
    rewrite (grouped_val (row_elem 48) 48 p KC kr 32 16) by (done || lia || (split_and!; [lia..|by exists 2])). done.
  - intros q r Hq. cbn [fst snd]. destruct (Z.eqb_spec q 2) as [->|].
    + by rewrite Hld2.
    + rewrite Hld1. unfold _mm256_extracti32x4_epi32. rewrite extract_image by lia. done.
Qed.
End row_major.
