(* ===== verification/PackB8Col.v ===== *)
(** * The column-major packing kernels of B are correct

    The loops of [PackB8] over sixteen columns and 64, 32, 16, 8, 4, 3, 2 or 1 rows. *)
From S2P Require Import Prelude Word DlpTypes ReorderLayout TeamMachine TeamCorrect Simd PackB8 PackB8Ok.
From stdpp Require Import list.
#[local] Open Scope Z_scope.

Local Abbreviation round_up := dlp_reorder_round_up.

(** ** Sums of lanes *)

Lemma zsum_add f g lo n : zsum (fun i => f i + g i) lo n = zsum f lo n + zsum g lo n.
Proof. unfold zsum. induction (seqZ lo n) as [|i l IH]; [done|]. cbn [foldr]. lia. Qed.

Lemma zsum_zero f lo n : (forall i, lo <= i < lo + n -> f i = 0) -> zsum f lo n = 0.
Proof.
  intros H. rewrite (zsum_ext f (fun _ => 0)) by done. unfold zsum. clear H.
  induction (seqZ lo n) as [|i l IH]; [done|]. exact IH.
Qed.

(** Sixteen lanes whose sum is the sum of [e] over [len] rows. *)
Definition lanes_sum (x : vec) (total : Z) : Prop := exists h, lanes x h /\ zsum h 0 16 = total.

Lemma lanes_sum_add x y a b : lanes_sum x a -> lanes_sum y b -> lanes_sum (_mm512_add_epi32 x y) (a + b).
Proof.
  intros (h & Hx & Hh) (g & Hy & Hg). exists (fun i => h i + g i). split; [by apply lanes_add|]. rewrite zsum_add. lia.
Qed.

Section widen.
Context (e : Z -> Z).

Lemma widen_16_ok (k : nat) : (k < 4)%nat ->
  lanes_sum (widen_16 k (e <$> seqZ 0 64)) (zsum (fun i => to_i8 (e i)) (16 * Z.of_nat k) 16).
Proof.
  intros Hk. exists (fun i => to_i8 (e (16 * Z.of_nat k + i))). split.
  - unfold widen_16, _mm512_extracti32x4_epi32. rewrite <- (Nat2Z.id k), extract_image by lia.
    rewrite Nat2Z.id. apply (lanes_cvt (fun i => e (16 * Z.of_nat k + i))).
  - apply zsum_shift. intros i Hi. do 2 f_equal.
Qed.

(** A register of [len] rows and zeros below, each macro on its lengths. *)
Lemma widen_len W (f : vec -> vec) len :
  lanes_sum (f (e <$> seqZ 0 64)) (zsum (fun i => to_i8 (e i)) 0 W) -> 0 <= len <= W ->
  (forall i, len <= i -> e i = 0) ->
  lanes_sum (f (e <$> seqZ 0 64)) (zsum (fun i => to_i8 (e i)) 0 len).
Proof.
  intros H Hlen He. replace W with (len + (W - len)) in H by lia. rewrite zsum_split, Z.add_0_l in H by lia.
  rewrite (zsum_zero _ len), Z.add_0_r in H; [done|]. intros i Hi. by rewrite He by lia.
Qed.
End widen.

(** What a [SUM_16_COLS] macro does to one column. *)
Definition sum_macro (len : Z) (SUM : list vec -> Z -> (Z -> vec) -> Z -> vec) : Prop :=
  exists f, SUM = sum_cols f /\
    forall e, (forall i, len <= i -> e i = 0) ->
      lanes_sum (f (e <$> seqZ 0 64)) (zsum (fun i => to_i8 (e i)) 0 len).

Lemma sum_K64 : sum_macro 64 SUM_16_COLS_AVX512_K64.
Proof.
  eexists. split; [reflexivity|]. intros e He. cbn zeta beta. change 64 with ((16 + 16) + (16 + 16)).
  rewrite !zsum_split by lia.
  repeat apply lanes_sum_add.
  - apply (widen_16_ok e 0). lia.
  - apply (widen_16_ok e 1). lia.
  - apply (widen_16_ok e 2). lia.
  - apply (widen_16_ok e 3). lia.
Qed.

Lemma sum_K32 : sum_macro 32 SUM_16_COLS_AVX512_K32.
Proof.
  eexists. split; [reflexivity|]. intros e He. cbn beta. change 32 with (16 + 16). rewrite !zsum_split by lia.
  apply lanes_sum_add; [apply (widen_16_ok e 0)|apply (widen_16_ok e 1)]; lia.
Qed.

Lemma sum_K16 len : 0 <= len <= 16 -> sum_macro len SUM_16_COLS_AVX512_K16.
Proof.
  intros Hlen. eexists. split; [reflexivity|]. intros e He. apply (widen_len e 16); [|done..]. apply (widen_16_ok e 0). lia.
Qed.

(** ** Sixteen columns, some rows *)
Section col_kernel.
Context (signed : bool) (p sum NR KC : Z) (load : Z -> Z -> Z -> vec) (el : Z -> Z -> Z).
Hypothesis HNR : 0 < NR.
Hypothesis HNR16 : (16 | NR).
Hypothesis HKC : 0 <= KC.
(** A register read under a mask of [len] bytes holds [len] rows of a column. *)
Hypothesis Hload : forall len kr c, 0 <= len <= 64 ->
  load (Z.ones len) kr c = (fun i => if i <? len then el (kr + i) c else 0) <$> seqZ 0 64.

Local Abbreviation val := (panel_val el NR p KC).
Local Abbreviation col_sum n c := (zsum (fun r => to_i8 (el r c)) 0 n).

Section block.
Context (m0 : mem) (kr len regs : Z) (SUM : list vec -> Z -> (Z -> vec) -> Z -> vec).
Hypothesis Hkr : 0 <= kr /\ (4 | kr).
Hypothesis Hlen : 0 < len <= 64 /\ kr + len <= KC /\ ((4 | len) \/ kr + len = KC).
Hypothesis Hregs : regs = (len + 3) / 4.
Hypothesis HSUM : sum_macro len SUM.

(** The bytes of the columns below [jr] of these rows. *)
Definition block_done (jr x : Z) : bool :=
  (p + kr * NR <=? x) && (x <? p + (kr + 4 * regs) * NR) && ((x - p) mod (4 * NR) <? 4 * jr).

Definition block_inv (jr : Z) (st : mem * (Z -> vec)) : Prop :=
  (forall x, st.1 x = if block_done jr x then val x else m0 x) /\
  (signed = true -> forall c, 0 <= c < NR ->
     lanes_sum (st.2 c) (col_sum (if c <? jr then kr + len else kr) c)).

(** Register [i] of the columns from [jr] at its place. *)
Lemma block_reg jr i : 0 <= jr -> (16 | jr) -> jr + 16 <= NR -> 0 <= i < regs ->
  (fun k => (if k mod 64 <? len then el (kr + k mod 64) (jr + k / 64) else 0)) <$> regrouped i =
  (fun o => val (p + jr * 4 + (kr + 4 * i) * NR + o)) <$> seqZ 0 64.
Proof using HNR HNR16 HKC Hload Hkr Hlen Hregs HSUM m0 signed.
  intros Hjr Hj16 HjN Hi. unfold regrouped. rewrite <- list_fmap_compose. apply list_fmap_ext.
  intros j o Ho%lookup_seqZ. cbn.
  assert (0 <= o / 4 < 16 /\ 0 <= o mod 4 < 4) as [? ?] by (split; [dlia|apply Z.mod_pos_bound; lia]).
  assert (4 * i + 4 <= len + 3) by (pose proof Hregs; dlia).
  rewrite (Z.add_comm (64 * (o / 4))), (Z.mul_comm 64), Z.div_add, Z.mod_add by lia.
  rewrite (Z.div_small (4 * i + o mod 4)), (Z.mod_small (4 * i + o mod 4)) by lia.
  replace (p + jr * 4 + (kr + 4 * i) * NR + o) with (p + NR * (kr + 4 * i) + (4 * jr + o)) by lia.
  rewrite panel_val_at; [|lia| |lia]; cycle 1. { destruct Hkr as [_ [q ->]]. exists (q + i). lia. }
  replace ((4 * jr + o) mod 4) with (o mod 4) by (rewrite Z.add_comm, (Z.mul_comm 4), Z.mod_add; lia).
  replace ((4 * jr + o) / 4) with (jr + o / 4) by (rewrite (Z.add_comm (4 * jr)), (Z.mul_comm 4), Z.div_add; lia).
  rewrite Z.add_assoc, Z.add_0_l. destruct Hlen as (Hl & HlK & Hl4).
  assert (4 * i + o mod 4 < len <-> kr + 4 * i + o mod 4 < KC) as Hiff.
  { split; [lia|]. intros HK. destruct Hl4 as [[q ->]|]; [|lia]. pose proof Hregs. dlia. }
  destruct (Z.ltb_spec (4 * i + o mod 4) len), (Z.ltb_spec (kr + 4 * i + o mod 4) KC); done || lia.
Qed.

(** The bytes the registers of the columns from [jr] go to. *)
Lemma block_cover jr x : 0 <= jr -> jr + 16 <= NR -> 0 < regs ->
  block_done (jr + 16) x = true /\ (exists i, 0 <= i < regs /\
     p + jr * 4 + (kr + 4 * i) * NR <= x < p + jr * 4 + (kr + 4 * i) * NR + 64) \/
  block_done (jr + 16) x = block_done jr x /\ (forall i, 0 <= i < regs ->
     ~ (p + jr * 4 + (kr + 4 * i) * NR <= x < p + jr * 4 + (kr + 4 * i) * NR + 64)).
Proof using HNR HNR16 HKC Hload Hkr Hlen Hregs HSUM m0 signed.
  intros Hjr HjN Hr. destruct Hkr as [Hkr0 [q Hq]]. unfold block_done.
  set (y := x - p). pose proof (Z.div_mod y (4 * NR) ltac:(lia)) as Ey.
  pose proof (Z.mod_pos_bound y (4 * NR) ltac:(lia)) as Hb. set (d := y / (4 * NR)) in *. set (r := y mod (4 * NR)) in *.
  assert (forall i, p + jr * 4 + (kr + 4 * i) * NR <= x < p + jr * 4 + (kr + 4 * i) * NR + 64 ->
    d = q + i /\ 4 * jr <= r < 4 * jr + 64) as Huniq.
  { intros i Hi. assert (d = q + i) as Ed; [|subst d; nia].
    symmetry. apply (Z.div_unique y (4 * NR) (q + i) (y - 4 * NR * (q + i))); nia. }
  destruct (decide (p + kr * NR <= x < p + (kr + 4 * regs) * NR)) as [Hx|Hx].
  - rewrite (proj2 (Z.leb_le (p + kr * NR) x)), (proj2 (Z.ltb_lt x _)) by lia. cbn [andb].
    assert (q <= d < q + regs) as Hd by nia.
    destruct (decide (4 * jr <= r < 4 * jr + 64)) as [Hrj|Hrj].
    + left. split; [apply Z.ltb_lt; lia|]. exists (d - q). split; [lia|]. nia.
    + right. split; [destruct (Z.ltb_spec r (4 * (jr + 16))), (Z.ltb_spec r (4 * jr)); lia || done|].
      intros i Hi HX. apply Huniq in HX as [? ?]. lia.
  - right. split.
    + destruct (Z.leb_spec (p + kr * NR) x); [|done]. destruct (Z.ltb_spec x (p + (kr + 4 * regs) * NR)); [lia|done].
    + intros i Hi HX. apply Hx. nia.
Qed.

Lemma block_step jr st : 0 <= jr -> (16 | jr) -> jr < NR -> block_inv jr st ->
  block_inv (jr + 16) (col_block signed p NR load (Z.ones len) regs kr SUM st jr).
Proof using HNR HNR16 HKC Hload Hkr Hlen Hregs HSUM m0 signed.
  intros Hjr Hj16 HjN [Hm Hs].
  assert (jr + 16 <= NR) as HjN' by (destruct HNR16 as [a ->], Hj16 as [b0 ->]; lia).
  assert (0 < regs <= 16) as Hr by (pose proof Hregs; dlia).
  set (g := fun k => if k mod 64 <? len then el (kr + k mod 64) (jr + k / 64) else 0).
  assert ((fun i => load (Z.ones len) kr (jr + i)) <$> seqZ 0 16 = (fun j => g <$> seqZ (64 * j) 64) <$> seqZ 0 16) as Ereg.
  { apply list_fmap_ext. intros ix j Hj%lookup_seqZ. rewrite Hload by lia. rewrite (seqZ_from_0 (64 * j)), <- list_fmap_compose.
    apply list_fmap_ext. intros iy i Hi%lookup_seqZ. cbn. unfold g.
    rewrite (Z.add_comm (64 * j)), (Z.mul_comm 64), Z.div_add, Z.mod_add, (Z.div_small i), (Z.mod_small i) by lia.
    rewrite !Z.add_0_l. done. }
  unfold col_block. rewrite Ereg. split; cbn [fst snd].
  - rewrite transpose16_ok, <- fmap_take.
    replace (take (Z.to_nat regs) (seqZ 0 16)) with (seqZ 0 regs); cycle 1.
    { replace 16 with (regs + (16 - regs)) by lia. rewrite seqZ_app, take_app_length' by (rewrite ?length_seqZ; lia). done. }
    rewrite (list_fmap_ext (fun t => g <$> regrouped t)
      (fun i => (fun o => val (p + jr * 4 + (kr + 4 * i) * NR + o)) <$> seqZ 0 64) (seqZ 0 regs))
      by (intros ix i Hi%lookup_seqZ; apply block_reg; done || lia).
    intros x. destruct (store_regs_val st.1 (fun i => p + jr * 4 + (kr + 4 * i) * NR) val regs x ltac:(lia)) as [Hin Hout].
    destruct (block_cover jr x ltac:(lia) ltac:(lia) ltac:(lia)) as [[-> Hx]|[-> Hx]].
    + by apply Hin.
    + rewrite (Hout Hx). apply Hm.
  - intros ->. specialize (Hs eq_refl). destruct HSUM as (f & -> & Hf). intros c Hc. unfold sum_cols.
    specialize (Hs c Hc). destruct (Z.leb_spec jr c) as [Hjc|Hjc]; cbn [andb].
    + rewrite (proj2 (Z.ltb_ge c jr)) in Hs by lia. destruct (Z.ltb_spec c (jr + 16)); [|done].
      rewrite zsum_split, Z.add_0_l by lia. apply lanes_sum_add; [exact Hs|].
      rewrite (list_lookup_total_correct ((fun j => g <$> seqZ (64 * j) 64) <$> seqZ 0 16) (Z.to_nat (c - jr))
        (g <$> seqZ (64 * (c - jr)) 64)); cycle 1.
      { rewrite list_lookup_fmap, (proj2 (lookup_seqZ 0 16 (Z.to_nat (c - jr)) (c - jr))) by lia. done. }
      set (e := fun i => if i <? len then el (kr + i) c else 0).
      replace (g <$> seqZ (64 * (c - jr)) 64) with (e <$> seqZ 0 64); cycle 1.
      { rewrite (seqZ_from_0 (64 * (c - jr))), <- list_fmap_compose. apply list_fmap_ext. intros ix i Hi%lookup_seqZ. cbn. unfold e, g.
        rewrite (Z.add_comm (64 * _)), (Z.mul_comm 64), Z.div_add, Z.mod_add, (Z.div_small i), (Z.mod_small i) by lia.
        rewrite !Z.add_0_l. by replace (jr + (c - jr)) with c by lia. }
      rewrite (zsum_shift (fun r => to_i8 (el r c)) (fun i => to_i8 (e i)) kr 0 len).
      * apply Hf. intros i Hi. unfold e. by rewrite (proj2 (Z.ltb_ge i len)) by lia.
      * intros i Hi. unfold e. by rewrite Z.add_0_l, (proj2 (Z.ltb_lt i len)) by lia.
    + rewrite (proj2 (Z.ltb_lt c jr)) in Hs by lia. by rewrite (proj2 (Z.ltb_lt c (jr + 16))) by lia.
Qed.

(** All columns of these rows. *)
Lemma block_all sums :
  (signed = true -> forall c, 0 <= c < NR -> lanes_sum (sums c) (col_sum kr c)) ->
  let r := foldl (col_block signed p NR load (Z.ones len) regs kr SUM) (m0, sums) (loop_points 0 NR 16) in
  (forall x, r.1 x = fill m0 (p + NR * kr) (p + NR * (kr + 4 * regs)) val x) /\
  (signed = true -> forall c, 0 <= c < NR -> lanes_sum (r.2 c) (col_sum (kr + len) c)).
Proof using HNR HNR16 HKC Hload Hkr Hlen Hregs HSUM m0 signed.
  intros Hsums. destruct (loop_points_foldl (col_block signed p NR load (Z.ones len) regs kr SUM) block_inv 16 NR
    ltac:(lia) 0 (m0, sums)) as (e & [Hm Hs] & He1 & _ & He2 & Hd & _).
  - split; cbn [fst snd].
    + intros x. unfold block_done. pose proof (Z.mod_pos_bound (x - p) (4 * NR)).
      by rewrite (proj2 (Z.ltb_ge ((x - p) mod (4 * NR)) _)), andb_false_r by lia.
    + intros E c Hc. rewrite (proj2 (Z.ltb_ge c 0)) by lia. by apply Hsums.
  - intros x st Hx HxN Hd. rewrite Z.sub_0_r in Hd. by apply block_step.
  - assert (e = NR) as -> by (destruct HNR16 as [a ->], Hd as [b0 Hb]; lia). split.
    + intros x. rewrite Hm. unfold block_done, fill. pose proof (Z.mod_pos_bound (x - p) (4 * NR)).
      rewrite (proj2 (Z.ltb_lt ((x - p) mod (4 * NR)) _)), andb_true_r by lia.
      by rewrite (Z.mul_comm kr), (Z.mul_comm (kr + 4 * regs)).
    + intros E c Hc. specialize (Hs E c Hc). by rewrite (proj2 (Z.ltb_lt c NR)) in Hs by lia.
Qed.
End block.

(** ** The levels *)
Context (m : mem).

Definition level_inv (bound : Z) (st : col_state) : Prop :=
  0 <= cs_kr st <= KC /\ KC - cs_kr st < bound /\ (cs_kr st < KC -> (4 | cs_kr st)) /\
  (forall x, cs_mem st x = fill m p (p + NR * round_up (cs_kr st) 4) val x) /\
  (signed = true -> forall c, 0 <= c < NR -> lanes_sum (cs_sum st c) (col_sum (cs_kr st) c)).

Lemma round_up_mult k : 0 <= k -> (4 | k) -> round_up k 4 = k.
Proof. intros Hk Hd. apply reorder_round_up_multiple; lia || done. Qed.

Lemma col_level_ok len mask regs SUM bound st :
  0 < len <= 64 -> mask = Z.ones len -> regs = (len + 3) / 4 -> sum_macro len SUM ->
  (4 | len) \/ bound <= len + 1 -> level_inv bound st ->
  level_inv len (col_level signed p NR KC load len mask regs SUM st).
Proof using HNR HNR16 HKC Hload.
  intros Hlen -> Hregs HSUM Hl4 Hst. unfold col_level.
  match goal with |- level_inv _ (foldl ?f _ _) => set (step := f) end.
  destruct (loop_points_foldl step (fun x st => level_inv bound st /\ cs_kr st = x) len (KC - (len - 1))
    ltac:(lia) (cs_kr st) st) as (e & [Hi <-] & He & _); [done| |].
  - intros x s0 Hx Hhi _ [(Hkr & Hb & H4 & Hm & Hs) <-].
    specialize (H4 ltac:(lia)). rewrite (round_up_mult (cs_kr s0)) in Hm by (done || lia).
    assert (round_up (cs_kr s0 + len) 4 = cs_kr s0 + 4 * regs) as Eru.
    { rewrite round_up_4 by lia. destruct H4 as [q Hq]. rewrite Hq, Hregs. dlia. }
    assert (0 <= cs_kr s0 /\ (4 | cs_kr s0)) as Hk4 by (split; [lia|done]).
    assert (0 < len <= 64 /\ cs_kr s0 + len <= KC /\ ((4 | len) \/ cs_kr s0 + len = KC)) as HlK
      by (split_and!; [lia..|]; destruct Hl4; [by left|right; lia]).
    destruct (block_all (cs_mem s0) (cs_kr s0) len regs SUM Hk4 HlK Hregs HSUM (cs_sum s0) Hs) as [Hbm Hbs].
    subst step. cbn beta. set (r := foldl _ _ _) in *. split; [|done]. split_and!; cbn [cs_kr cs_mem cs_sum]; try lia.
    + intros HK. destruct Hl4 as [Hl4|]; [by apply Z.divide_add_r|lia].
    + intros y. rewrite Hbm, Eru. rewrite (fill_ext _ (fill m p (p + NR * cs_kr s0) val)) by done. apply fill_fill. assert (0 <= regs) by (rewrite Hregs; dlia). nia.
    + done.
  - destruct Hi as (H1 & H2 & H3 & H4 & H5). split_and!; done || lia.
Qed.

Lemma col_levels_ok st : level_inv (KC + 1) st -> cs_kr (col_levels signed p NR KC load st) = KC /\
  level_inv 1 (col_levels signed p NR KC load st).
Proof using HNR HNR16 HKC Hload.
  intros H. assert (level_inv 1 (col_levels signed p NR KC load st)) as H'; [|split; [|done]; destruct H' as (? & ? & _); lia].
  unfold col_levels.
  apply (col_level_ok 1 _ _ _ 2); [lia|reflexivity|reflexivity|by apply sum_K16|by right|].
  apply (col_level_ok 2 _ _ _ 3); [lia|reflexivity|reflexivity|by apply sum_K16|by right|].
  apply (col_level_ok 3 _ _ _ 4); [lia|reflexivity|reflexivity|by apply sum_K16|by right|].
  apply (col_level_ok 4 _ _ _ 8); [lia|reflexivity|reflexivity|by apply sum_K16|by left; exists 1|].
  apply (col_level_ok 8 _ _ _ 16); [lia|reflexivity|reflexivity|by apply sum_K16|by left; exists 2|].
  apply (col_level_ok 16 _ _ _ 32); [lia|reflexivity|reflexivity|by apply sum_K16|by left; exists 4|].
  apply (col_level_ok 32 _ _ _ 64); [lia|reflexivity|reflexivity|apply sum_K32|by left; exists 8|].
  apply (col_level_ok 64 _ _ _ (KC + 1)); [lia|reflexivity|reflexivity|apply sum_K64|by left; exists 16|].
  exact H.
Qed.

(** ** The sums *)
Lemma reduce_sums_ok sums m1 jr : 0 <= jr -> jr + 16 <= NR ->
  (forall c, 0 <= c < NR -> lanes_sum (sums c) (col_sum KC c)) ->
  (forall x, (x < sum + 4 * jr \/ sum + 4 * (jr + 16) <= x) -> reduce_sums sum sums m1 jr x = m1 x) /\
  (forall i, jr <= i < jr + 16 -> load_i32 (reduce_sums sum sums m1 jr) (sum + 4 * i) =
     to_i32 (load_i32 m1 (sum + 4 * i) + 128 * col_sum KC i)).
Proof using HNR.
  intros Hjr HjN Hsums. unfold reduce_sums, _mm512_set_epi32, mul_128.
  assert (lanes (_mm512_add_epi32
    (_mm512_sllv_epi32 (of_epi32 ((fun i => _mm512_reduce_add_epi32 (sums (jr + i))) <$> seqZ 0 16)) (_mm512_set1_epi32 7))
    (_mm512_loadu_si512 m1 (sum + 4 * jr)))
    (fun i => 2 ^ 7 * col_sum KC (jr + i) + load_i32 m1 (sum + 4 * jr + 4 * i))) as Hl.
  { apply lanes_add; [|apply lanes_load]. apply lanes_sllv; [lia|].
    eapply lanes_congr; [apply lanes_of_epi32|]. intros i Hi. cbn beta.
    destruct (Hsums (jr + i) ltac:(lia)) as (h & Hh & <-). rewrite (lanes_reduce _ _ Hh). apply to_i32_id, to_i32_range. }
  split.
  - intros x Hx. apply storeu_out. rewrite (proj1 Hl). lia.
  - intros i Hi. replace (sum + 4 * i) with (sum + 4 * jr + 4 * (i - jr)) by lia.
    erewrite lanes_store; [|exact Hl|lia]. cbn beta. replace (jr + (i - jr)) with i by lia. f_equal. lia.
Qed.

Lemma col_kernel_ok :
  panel_ok el NR p KC (if signed then Some sum else None) m (col_kernel signed p sum NR KC load m).
Proof using HNR HNR16 HKC Hload.
  destruct (col_levels_ok (mk_col_state m (fun _ => _mm512_setzero_si512) 0)) as [Ek (_ & _ & _ & Hm & Hs)].
  { split_and!; cbn [cs_kr cs_mem cs_sum]; try lia.
    - intros _. by exists 0.
    - intros x. rewrite fill_out; [done|]. change (round_up 0 4) with 0. lia.
    - intros _ c Hc. exists (fun _ => 0). split; [apply lanes_zero|done]. }
  unfold col_kernel. set (st := col_levels _ _ _ _ _ _) in *. rewrite Ek in Hm, Hs.
  destruct signed; cycle 1. { split; [|done]. intros x _. apply Hm. }
  specialize (Hs eq_refl).
  destruct (loop_points_foldl (reduce_sums sum (cs_sum st)) (fun jr m1 => 0 <= jr /\ (16 | jr) /\
    (forall x, (x < sum \/ sum + 4 * jr <= x) -> m1 x = cs_mem st x) /\
    forall i, 0 <= i < jr -> load_i32 m1 (sum + 4 * i) =
      to_i32 (load_i32 (cs_mem st) (sum + 4 * i) + 128 * col_sum KC i)) 16 NR ltac:(lia) 0 (cs_mem st))
    as (e & (_ & Hd & Hout & Hsum) & He1 & _ & He2 & _).
  - split_and!; try done; try lia. by exists 0.
  - intros jr m1 Hjr HjN _ (_ & Hd & Hout & Hsum).
    assert (jr + 16 <= NR) by (destruct HNR16 as [a ->], Hd as [b0 ->]; lia).
    destruct (reduce_sums_ok (cs_sum st) m1 jr ltac:(lia) ltac:(lia) Hs) as [Ho Hi].
    split_and!; [lia|apply Z.divide_add_r; [done|by exists 1]| |].
    + intros x Hx. rewrite Ho by lia. apply Hout. lia.
    + intros i Hi0. destruct (decide (i < jr)).
      * rewrite <- Hsum by lia. unfold load_i32. rewrite !Ho by lia. done.
      * rewrite Hi by lia. do 2 f_equal. unfold load_i32. rewrite !Hout by lia. done.
  - assert (e = NR) as -> by (destruct HNR16 as [a ->], Hd as [b0 ->]; lia). split.
    + intros x Hx. rewrite <- Hm. apply Hout. specialize (Hx sum eq_refl). lia.
    + intros s i [= <-] Hsp Hi. rewrite Hsum by lia. do 2 f_equal. unfold load_i32.
      rewrite !Hm, !fill_out by lia. done.
Qed.
End col_kernel.
