(* ===== verification/PackB8Laws.v ===== *)
(** * The packing kernels of B keep the packing contract

    [packb_laws] asks of a packing kernel what the drivers and the reorder functions rely
    on.  The kernels of [PackB8] keep it for any number of rows and columns. *)
From S2P Require Import Prelude Word DlpTypes ByteStore ReorderLayout Reorder GemmDriver TeamMachine TeamCorrect PackedTeam Simd PackB8 PackB8Ok PackB8Col.
From stdpp Require Import list gmap.
#[local] Open Scope Z_scope.

Local Abbreviation round_up := dlp_reorder_round_up.

(** ** Columns of a panel *)

Lemma panel_val_ext el el' w p k0 x : 0 < w -> (forall r c, 0 <= c < w -> el r c = el' r c) ->
  panel_val el w p k0 x = panel_val el' w p k0 x.
Proof.
  intros Hw H. unfold panel_val. case_match; [|done]. apply H.
  pose proof (Z.mod_pos_bound (x - p) (4 * w)). split; [dlia|]. apply Z.div_lt_upper_bound; lia.
Qed.

Lemma panel_ok_ext el el' w p k0 sum m m' : 0 < w -> (forall r c, 0 <= c < w -> el r c = el' r c) ->
  panel_ok el w p k0 sum m m' -> panel_ok el' w p k0 sum m m'.
Proof.
  intros Hw H [Hb Hs]. split.
  - intros x Hx. rewrite Hb by done. unfold fill. case_match; [|done]. by apply panel_val_ext.
  - intros s i E Hd Hi. rewrite (Hs s i) by done. do 3 f_equal. apply zsum_ext. intros r Hr. by rewrite H.
Qed.

Lemma panel_val_elem el w p k0 r c : 0 < w -> 0 <= r < k0 -> 0 <= c < w ->
  panel_val el w p k0 (p + (4 * w) * (r / 4) + 4 * c + r mod 4) = el r c.
Proof.
  intros Hw Hr Hc. pose proof (Z.div_mod r 4 ltac:(lia)) as Er. pose proof (Z.mod_pos_bound r 4 ltac:(lia)) as Hr4.
  replace (p + 4 * w * (r / 4) + 4 * c + r mod 4) with (p + w * (4 * (r / 4)) + (4 * c + r mod 4)) by lia.
  rewrite panel_val_at; [|lia|by exists (r / 4); lia|lia].
  replace ((4 * c + r mod 4) mod 4) with (r mod 4)
    by (rewrite Z.add_comm, (Z.mul_comm 4), Z.mod_add, Z.mod_mod by lia; done).
  replace ((4 * c + r mod 4) / 4) with c
    by (rewrite (Z.add_comm (4 * c)), (Z.mul_comm 4), Z.div_add, Z.div_small by lia; lia).
  rewrite <- Er. by rewrite (proj2 (Z.ltb_lt r k0)) by lia.
Qed.

Lemma round_up_4_facts k : 0 <= k -> 0 <= round_up k 4 /\ (4 | round_up k 4) /\ k <= round_up k 4.
Proof. intros Hk. rewrite round_up_4 by done. split_and!; [dlia|by exists ((k + 3) / 4); lia|dlia]. Qed.

Section columns.
Context (elem : Z -> Z -> Z) (n0 k0 dst : Z) (sum : option Z).
Hypothesis Hn0 : 0 <= n0.
Hypothesis Hk0 : 0 <= k0.

Local Abbreviation KCu := (round_up k0 4).
Local Abbreviation N := (round_up n0 16).
Local Abbreviation pos r c := (panel_pos 64 n0 k0 r c).

Definition sums_behind : Prop := forall s, sum = Some s -> dst + N * KCu <= s.

(** The first [n] columns, a boundary of chunks, are packed. *)
Record cols_ok (n : Z) (m m' : mem) : Prop := mk_cols_ok {
  co_pos : forall r c, 0 <= r < k0 -> 0 <= c < n0 -> c < n -> 0 <= pos r c < n * KCu;
  co_elem : forall r c, sums_behind -> 0 <= r < k0 -> 0 <= c < n0 -> c < n ->
    m' (dst + pos r c) = elem r c;
  co_pad : forall x, sums_behind -> dst <= x < dst + n * KCu ->
    (forall r c, 0 <= r < k0 -> 0 <= c < n0 -> x <> dst + pos r c) -> m' x = 0;
  co_sum : forall s c, sums_behind -> sum = Some s -> 0 <= c < n0 -> c < n ->
    load_i32 m' (s + 4 * c) = to_i32 (load_i32 m (s + 4 * c) + 128 * zsum (fun r => to_i8 (elem r c)) 0 k0);
  co_frame : forall x, ~ (dst <= x < dst + n * KCu) -> (forall s, sum = Some s -> ~ (s <= x < s + 4 * n)) -> m' x = m x;
}.

(** The position of an element in the chunk of its column. *)
Lemma pos_in_chunk r c g w : 0 <= r -> chunk_of n0 64 16 c = (g, w) -> g <= c ->
  pos r c = g * KCu + (4 * w) * (r / 4) + 4 * (c - g) + r mod 4.
Proof.
  intros Hr E Hg. unfold panel_pos, chunk_at. rewrite E. cbn [offset slot col_start].
  unfold dlp_reorder_elem_offset. rewrite cquot_nonneg, crem_nonneg by lia. lia.
Qed.

(** One more chunk. *)
Lemma cols_step n w m m1 m2 : 0 <= n -> 0 < w -> n + w <= N ->
  (forall c, n <= c < n + w -> c < n0 -> chunk_of n0 64 16 c = (n, w)) ->
  panel_ok (fun r c => if c <? n0 - n then elem r (n + c) else 0) w (dst + n * KCu) k0
    ((fun s => s + 4 * n) <$> sum) m1 m2 ->
  cols_ok n m m1 -> cols_ok (n + w) m m2.
Proof using Hn0 Hk0.
  intros Hn Hw HN Hchunk [Hb Hs] [Hold Helem Hpad Hsum Hframe].
  destruct (round_up_4_facts k0 Hk0) as (HK & [q Hq] & HkK). set (p := dst + n * KCu) in *.
  set (el := fun r c => _) in Hb, Hs.
  assert (forall x, sums_behind -> x < dst + N * KCu -> m2 x = fill m1 p (p + w * KCu) (panel_val el w p k0) x) as Hb'.
  { intros x Hd Hx. apply Hb. intros s (s0 & E & ->)%fmap_Some. specialize (Hd s0 E). lia. }
  assert (forall r c, 0 <= r < k0 -> 0 <= c < n0 -> n <= c < n + w ->
    pos r c = n * KCu + (4 * w) * (r / 4) + 4 * (c - n) + r mod 4) as Hpos.
  { intros r c Hr Hc Hcn. apply pos_in_chunk; [lia| |lia]. apply Hchunk; lia. }
  assert (forall r c, 0 <= r < k0 -> 0 <= c < w -> 0 <= (4 * w) * (r / 4) + 4 * c + r mod 4 < w * KCu) as Hin.
  { intros r c Hr Hc. pose proof (Z.div_mod r 4 ltac:(lia)). pose proof (Z.mod_pos_bound r 4 ltac:(lia)).
    assert (0 <= r / 4 <= q - 1) by lia. assert (0 <= 4 * w * (r / 4) <= 4 * w * (q - 1)) by nia. rewrite Hq. lia. }
  assert ((n + w) * KCu <= N * KCu /\ 0 <= n * KCu) as [HnN Hn_pos] by (split; [apply Z.mul_le_mono_nonneg_r; lia|nia]).
  assert (forall r c, 0 <= r < k0 -> 0 <= c < n0 -> n <= c < n + w -> n * KCu <= pos r c < (n + w) * KCu) as Hnew.
  { intros r c Hr Hc Hcn. rewrite Hpos by done. specialize (Hin r (c - n) Hr ltac:(lia)). lia. }
  assert (forall x, sums_behind -> x < dst + N * KCu -> ~ (p <= x < p + w * KCu) -> m2 x = m1 x) as Hkeep.
  { intros x Hd Hx Hx'. rewrite Hb' by done. apply fill_out. lia. }
  split.
  - intros r c Hr Hc Hcw. destruct (decide (c < n)) as [Hcn|].
    + specialize (Hold r c Hr Hc Hcn). nia.
    + specialize (Hnew r c Hr Hc ltac:(lia)). nia.
  - intros r c Hd Hr Hc Hcw. destruct (decide (c < n)) as [Hcn|].
    + pose proof (Hold r c Hr Hc Hcn). rewrite Hkeep; [by apply Helem|done|nia|lia].
    + pose proof (Hnew r c Hr Hc ltac:(lia)). rewrite Hb' by (done || nia). rewrite fill_in by nia.
      rewrite Hpos by lia. replace (dst + (n * KCu + 4 * w * (r / 4) + 4 * (c - n) + r mod 4))
        with (p + 4 * w * (r / 4) + 4 * (c - n) + r mod 4) by lia.
      rewrite panel_val_elem by lia. subst el. cbn beta. rewrite (proj2 (Z.ltb_lt (c - n) _)) by lia. f_equal. lia.
  - intros x Hd Hx Hnone. destruct (decide (x < p)).
    + rewrite Hkeep; [apply Hpad; done || lia|done|nia|lia].
    + rewrite Hb' by (done || nia). rewrite fill_in by (subst p; lia). unfold panel_val.
      set (o := x - p). set (r := 4 * (o / (4 * w)) + o mod 4). set (c := o mod (4 * w) / 4).
      pose proof (Z.div_mod o (4 * w) ltac:(lia)) as Eo. pose proof (Z.mod_pos_bound o (4 * w) ltac:(lia)) as Ho.
      assert (0 <= o) by lia. assert (0 <= o / (4 * w)) by (apply Z.div_pos; lia).
      assert (o mod 4 = (o mod (4 * w)) mod 4) as Em
        by (apply Znumtheory.Zmod_div_mod; [lia|lia|by exists w; lia]).
      pose proof (Z.div_mod (o mod (4 * w)) 4 ltac:(lia)) as Ec. pose proof (Z.mod_pos_bound (o mod (4 * w)) 4 ltac:(lia)).
      assert (0 <= c < w) by (subst c; split; [apply Z.div_pos; lia|apply Z.div_lt_upper_bound; lia]).
      assert (r / 4 = o / (4 * w) /\ r mod 4 = o mod 4) as [Er1 Er2].
      { subst r. rewrite Em. split.
        - rewrite Z.add_comm, (Z.mul_comm 4 (o / _)), Z.div_add, Z.div_small; lia.
        - rewrite Z.add_comm, (Z.mul_comm 4 (o / _)), Z.mod_add, Z.mod_small; lia. }
      destruct (Z.ltb_spec r k0); [|done]. subst el. cbn beta. destruct (Z.ltb_spec c (n0 - n)); [|done].
      exfalso. apply (Hnone r (n + c)); [lia|lia|]. rewrite Hpos, Er1, Er2 by lia.
      replace (n + c - n) with c by lia. unfold c in *. subst p. lia.
  - intros s c Hd Es Hc Hcw. pose proof (Hd s Es) as Hds.
    destruct (decide (c < n)) as [Hcn|].
    + rewrite <- Hsum by done. unfold load_i32.
      assert (forall x, s <= x < s + 4 * n -> m2 x = m1 x) as Hk.
      { intros x Hx. rewrite Hb; [apply fill_out; subst p; lia|]. intros s1 (s2 & E2 & ->)%fmap_Some. simplify_eq. lia. }
      rewrite !Hk by lia. done.
    + replace (s + 4 * c) with (s + 4 * n + 4 * (c - n)) by lia.
      rewrite (Hs (s + 4 * n) (c - n)); [|by rewrite Es|subst p; lia|lia].
      replace (s + 4 * n + 4 * (c - n)) with (s + 4 * c) by lia. f_equal. f_equal.
      * unfold load_i32. rewrite !Hframe; [done|..]; try lia; intros s1 E1; simplify_eq; lia.
      * f_equal. apply zsum_ext. intros r Hr. subst el. cbn beta. rewrite (proj2 (Z.ltb_lt (c - n) _)) by lia.
        do 2 f_equal. lia.
  - intros x Hx Hxs. rewrite Hb; cycle 1.
    { intros s (s0 & E & ->)%fmap_Some. specialize (Hxs s0 E). lia. }
    rewrite fill_out by (subst p; lia). apply Hframe; [lia|]. intros s Es. specialize (Hxs s Es). lia.
Qed.

(** ** All columns *)
Context (panel : Z -> mem -> Z -> mem) (lt16 : mem -> Z -> Z -> mem).

Hypothesis Hpanel : forall w m jc, w = 64 \/ w = 48 \/ w = 32 \/ w = 16 ->
  panel_ok (fun r c => if c <? w then elem r (jc + c) else 0) w (dst + jc * KCu) k0
    ((fun s => s + 4 * jc) <$> sum) m (panel w m jc).
Hypothesis Hlt16 : forall m jc rem, 0 <= rem < 16 ->
  panel_ok (fun r c => if c <? rem then elem r (jc + c) else 0) 16 (dst + jc * KCu) k0
    ((fun s => s + 4 * jc) <$> sum) m (lt16 m jc rem).

Lemma split_columns_ok m : cols_ok N m (split_columns n0 panel lt16 m).
Proof using Hn0 Hk0 Hpanel Hlt16.
  apply (split_columns_ind n0 panel lt16 (fun n m1 => cols_ok n m m1)); [done|..].
  - split; try lia; intros; lia || done.
  - intros n w m1 Hn Hnw Hw HN Hchunk. apply cols_step; try done; [lia|by intros; apply Hchunk|].
    eapply panel_ok_ext; [lia| |by apply Hpanel]. intros r c Hc. cbn beta.
    by rewrite (proj2 (Z.ltb_lt c w)), (proj2 (Z.ltb_lt c (n0 - n))) by lia.
  - intros n rem m1 Hn Hrem En EN Hchunk. apply cols_step; try done; [lia|by intros; apply Hchunk; lia|].
    eapply panel_ok_ext; [lia| |apply Hlt16; lia]. intros r c Hc. cbn beta. by replace (n0 - n) with rem by lia.
Qed.
End columns.

(** ** The kernels *)
Section kernels.
Context (signed : bool) (B : mem) (src s dst rs_b cs_b n0 k0 : Z).
Hypothesis Hn0 : 0 <= n0.
Hypothesis Hk0 : 0 <= k0.

Local Abbreviation sum := (if signed then Some s else None).

(** Row [r], column [c] of the panel in the caller's matrix. *)
Definition src_elem (r c : Z) : Z := B (src + rs_b * r + cs_b * c).

Lemma sum_at_column jc : (fun s => s + 4 * jc) <$> sum = if signed then Some (s + 4 * jc) else None.
Proof. by destruct signed. Qed.

Lemma row_major_ok m : cs_b = 1 ->
  cols_ok src_elem n0 k0 dst sum (round_up n0 16) m (packb_row_major signed B m dst s src rs_b n0 k0).1.
Proof using Hn0 Hk0.
  intros Hcs. unfold packb_row_major. cbn [fst]. rewrite KC_updated_eq by done.
  apply split_columns_ok; [done|done| |].
  - intros w m1 jc Hw. rewrite sum_at_column. eapply (panel_ok_ext (row_elem B (src + jc) rs_b w)); [lia| |].
    { intros r c Hc. unfold row_elem, src_elem. case_match; [|done]. f_equal. lia. }
    destruct Hw as [-> | [-> | [-> | ->]]]; cbn [Z.eqb Pos.eqb];
      [by apply nr64_panel_ok|by apply nr48_panel_ok|by apply nr32_panel_ok|by apply nr16_panel_ok].
  - intros m1 jc rem Hrem. rewrite sum_at_column. eapply (panel_ok_ext (row_elem B (src + jc) rs_b rem)); [lia| |].
    { intros r c Hc. unfold row_elem, src_elem. case_match; [|done]. f_equal. lia. }
    apply nrlt16_panel_ok; lia.
Qed.

Lemma load_col_image b ldb len kr c : 0 <= len <= 64 ->
  load_col B b ldb (Z.ones len) kr c = (fun i => if i <? len then B (b + ldb * c + kr + i) else 0) <$> seqZ 0 64.
Proof.
  intros Hlen. unfold load_col. destruct (Z.eqb_spec (Z.ones len) 0xFFFFFFFFFFFFFFFF) as [E|_].
  - assert (len = 64) as ->.
    { change 0xFFFFFFFFFFFFFFFF with (Z.ones 64) in E. destruct (decide (len = 64)); [done|].
      apply (f_equal (fun z => Z.testbit z len)) in E. by rewrite Z.ones_spec_high, Z.ones_spec_low in E by lia. }
    apply list_fmap_ext. intros i x Hx%lookup_seqZ. by rewrite (proj2 (Z.ltb_lt x 64)) by lia.
  - apply list_fmap_ext. intros i x Hx%lookup_seqZ. destruct (Z.ltb_spec x len).
    + by rewrite Z.ones_spec_low by lia.
    + by rewrite Z.ones_spec_high by lia.
Qed.

Lemma col_major_ok m : rs_b = 1 ->
  cols_ok src_elem n0 k0 dst sum (round_up n0 16) m (packb_col_major signed B m dst s src cs_b n0 k0).1.
Proof using Hn0 Hk0.
  intros Hrs. unfold packb_col_major. cbn [fst]. rewrite KC_updated_eq by done.
  apply split_columns_ok; [done|done| |].
  - intros w m1 jc Hw. rewrite sum_at_column.
    eapply (panel_ok_ext (fun r c => B (src + jc * cs_b + cs_b * c + r))); [lia| |].
    { intros r c Hc. unfold src_elem. rewrite (proj2 (Z.ltb_lt c w)) by lia. f_equal. rewrite Hrs. lia. }
    apply col_kernel_ok; [lia|destruct Hw as [-> | [-> | [-> | ->]]]; [by exists 4|by exists 3|by exists 2|by exists 1]|done|].
    intros len kr c Hlen. rewrite load_col_image by done. apply list_fmap_ext. intros i x _. case_match; [|done]. f_equal. lia.
  - intros m1 jc rem Hrem. rewrite sum_at_column.
    eapply (panel_ok_ext (fun r c => if c <? rem then B (src + jc * cs_b + cs_b * c + r) else 0)); [lia| |].
    { intros r c Hc. unfold src_elem. case_match; [|done]. f_equal. rewrite Hrs. lia. }
    apply col_kernel_ok; [lia|by exists 1|done|].
    intros len kr c Hlen. destruct (Z.ltb_spec c rem).
    + rewrite load_col_image by done. apply list_fmap_ext. intros i x _. case_match; [|done]. f_equal. lia.
    + unfold _mm512_setzero_si512. symmetry.
      rewrite (list_fmap_ext _ (fun _ => 0)) by (intros i x _; by case_match). done.
Qed.
End kernels.

(** A call through [packb_fun_ptr] of the context, which has these kernels: the one of
    the signed type has the column sums.  The drivers and the reorder functions of
    symmetric quantization and the mixed drivers call them so; those of [GemmDriver] and
    [ReorderInt8] call a generated kernel instead. *)
Definition intrinsics_packb (Bmem : mem) (rs_b cs_b src n0 k0 dst : Z) (sum : option Z) (b : mem) : mem :=
  match sum with
  | Some s => (dlp_packb_nr64_s8s8s32os32 Bmem b dst s src rs_b cs_b n0 k0).1
  | None => (dlp_packb_nr64_u8s8s32o32 Bmem b dst src rs_b cs_b n0 k0).1
  end.

(** The strides are those of a row-major or of a column-major matrix. *)
Definition unit_stride (rs_b cs_b : Z) : Prop := cs_b = 1 \/ rs_b = 1.

Lemma intrinsics_packb_ok Bmem rs_b cs_b src n0 k0 dst sum b :
  unit_stride rs_b cs_b -> 0 <= n0 -> 0 <= k0 ->
  cols_ok (src_elem Bmem src rs_b cs_b) n0 k0 dst sum (round_up n0 16) b
    (intrinsics_packb Bmem rs_b cs_b src n0 k0 dst sum b).
Proof.
  intros Hu Hn Hk. unfold intrinsics_packb, dlp_packb_nr64_s8s8s32os32, dlp_packb_nr64_u8s8s32o32.
  destruct (Z.eqb_spec cs_b 1) as [Hcs|Hcs].
  - destruct sum as [s|]; [by apply (row_major_ok true)|by apply (row_major_ok false)].
  - destruct Hu as [|Hrs]; [done|].
    destruct sum as [s|]; [by apply (col_major_ok true)|by apply (col_major_ok false)].
Qed.

(** ** The contract of the drivers *)

Lemma load_i8_byte b a b' a' : b a = b' a' -> load_i8 b a = load_i8 b' a'.
Proof. unfold load_i8. by intros ->. Qed.

Section contract.
Context (lcntx : dlp_gemm_cntx_t) (Bmem : mem) (rs_b cs_b : Z) (K : kernels).

(** The hand-written kernels keep the contract [GemmDriver] and [ReorderInt8] state for
    the generated ones, out of a row- or column-major matrix: elements in place, column
    sums added up, nothing else touched. *)
Lemma packb_intrinsics_laws :
  NR (blksz lcntx) = 64 -> unit_stride rs_b cs_b -> packb K = intrinsics_packb Bmem rs_b cs_b ->
  packb_laws lcntx Bmem rs_b cs_b K.
Proof.
  intros HNR Hu HK. split; rewrite HK, ?HNR.
  - intros src n0 k0 dst sum b kr c Hkr Hc Hs.
    pose proof (intrinsics_packb_ok Bmem rs_b cs_b src n0 k0 dst sum b Hu ltac:(lia) ltac:(lia)) as Hok.
    apply load_i8_byte. apply (co_elem _ _ _ _ _ _ _ _ Hok); [done|done|done|].
    pose proof (round_up_bounds n0 16 ltac:(lia) ltac:(lia)). lia.
  - intros src n0 k0 dst s b c Hc Hk Hs.
    pose proof (intrinsics_packb_ok Bmem rs_b cs_b src n0 k0 dst (Some s) b Hu ltac:(lia) Hk) as Hok.
    apply (co_sum _ _ _ _ _ _ _ _ Hok); [by intros s' [= <-]|done|done|].
    pose proof (round_up_bounds n0 16 ltac:(lia) ltac:(lia)). lia.
  - intros src n0 k0 dst sum b x Hn Hk Hx Hs.
    apply (co_frame _ _ _ _ _ _ _ _ (intrinsics_packb_ok Bmem rs_b cs_b src n0 k0 dst sum b Hu Hn Hk)); [lia|].
    intros s Es. specialize (Hs s Es). lia.
Qed.
End contract.

(** ** The reference packer *)

Lemma panel_byte n0 k0 c kr dst :
  let ch := chunk_at n0 64 16 (round_up k0 4) c in
  dst + (offset ch + dlp_reorder_elem_offset kr (c - col_start ch) (slot ch) 4) * 1 = dst + panel_pos 64 n0 k0 kr c.
Proof. cbn zeta. unfold panel_pos. lia. Qed.

(** A panel, packed by the reference packer out of the matrix the kernels read. *)
Lemma ref_panel_ok (Bmem : mem) (Bbuf : buffer) rs_b cs_b src n0 k0 dst v :
  0 <= n0 ->
  (forall r c, 0 <= r < k0 -> 0 <= c < n0 -> Bbuf !! (src + (r * rs_b + c * cs_b) * 1) = Some (v (dst + panel_pos 64 n0 k0 r c))) ->
  (forall x, (forall r c, 0 <= r < k0 -> 0 <= c < n0 -> x <> dst + panel_pos 64 n0 k0 r c) ->
     dst <= x < dst + round_up n0 16 * round_up k0 4 -> v x = 0) ->
  exists l, dlp_reorder_ref_packb Bbuf dst src 1 4 n0 k0 64 16 rs_b cs_b = Some l /\
    stores_ok v (fun x => dst <= x < dst + round_up n0 16 * round_up k0 4) l.
Proof.
  intros Hn Hb Hz. unfold dlp_reorder_ref_packb, dlp_reorder_copy_elem. cbn zeta.
  destruct (tile_copies 64 16 n0 k0 (round_up k0 4) ltac:(lia) ltac:(lia) ltac:(by exists 4) Hn v
    (fun r c x => x = dst + panel_pos 64 n0 k0 r c)
    (fun ch kr i => memcpy Bbuf (dst + (offset ch + dlp_reorder_elem_offset kr i (slot ch) 4) * 1)
                      (src + (kr * rs_b + (col_start ch + i) * cs_b) * 1) 1)) as (l & Hcl & Hf).
  { intros kr c Hkr Hc. cbn zeta. rewrite panel_byte. set (ch := chunk_at _ _ _ _ _).
    replace (col_start ch + (c - col_start ch)) with c by lia.
    destruct (memcpy_finals Bbuf v (dst + panel_pos 64 n0 k0 kr c) (src + (kr * rs_b + c * cs_b) * 1) 1) as (l & Hl & Hf).
    { intros i Hi. replace i with 0 by lia. rewrite !Z.add_0_r. by apply Hb. }
    exists l. split; [done|]. intros a x. rewrite (Hf a x). apply and_iff_compat_r. lia. }
  rewrite Hcl. cbn [mbind option_bind]. eexists. split; [done|].
  assert (forall r c, 0 <= r < k0 -> 0 <= c < n0 ->
    dst <= dst + panel_pos 64 n0 k0 r c < dst + round_up n0 16 * round_up k0 4) as Hin.
  { intros r c Hr Hc. pose proof (panel_pos_bounds 64 n0 k0 r c ltac:(lia) ltac:(by exists 4) Hr Hc). lia. }
  assert (forall a, (exists kr c, 0 <= kr < k0 /\ 0 <= c < n0 /\ a = dst + panel_pos 64 n0 k0 kr c) \/
    (forall r c, 0 <= r < k0 -> 0 <= c < n0 -> a <> dst + panel_pos 64 n0 k0 r c)) as Hdec.
  { intros a. destruct (decide (Exists (fun rc => a = dst + panel_pos 64 n0 k0 rc.1 rc.2)
      (r ← seqZ 0 k0; (fun c => (r, c)) <$> seqZ 0 n0))) as [He|Hne].
    - left. apply Exists_exists in He as ([r c] & Hrc & ->). apply list_elem_of_bind in Hrc as (r' & Hrc & Hr%elem_of_seqZ).
      apply list_elem_of_fmap in Hrc as (c' & [= -> ->] & Hc%elem_of_seqZ). exists r', c'. split_and!; done || lia.
    - right. intros r c Hr Hc ->. apply Hne, Exists_exists. exists (r, c). split; [|done].
      apply list_elem_of_bind. exists r. split; [|apply elem_of_seqZ; lia]. apply list_elem_of_fmap. exists c.
      split; [done|apply elem_of_seqZ; lia]. }
  assert (dlp_reorder_panel_elems n0 k0 16 4 * 1 = round_up n0 16 * round_up k0 4) as Esz
    by (unfold dlp_reorder_panel_elems; lia).
  split.
  - apply settles_overwritten; [|apply (finals_stores_ok _ _ _ Hf)].
    intros [a x] [Ha Hx]%memset_zero_elem. cbn [fst snd] in *. subst x.
    destruct (Hdec a) as [(r & c & Hr & Hc & Ea)|Hno]; [right|left; symmetry; apply Hz; [done|lia]].
    apply Hf. split; [|done]. by exists r, c.
  - intros a. setoid_rewrite elem_of_app. split.
    + intros [x [[Ha _]%memset_zero_elem|[(r & c & Hr & Hc & ->) _]%Hf]]; [cbn in Ha; lia|by apply Hin].
    + intros Ha. exists 0. left. apply memset_zero_elem. cbn. split; [lia|done].
Qed.

(** C4. The kernels written with intrinsics leave the bytes of the reference packer, for
    every element and all the padding of a panel, out of a row- or column-major matrix of
    any size; both stay inside the panel, but that the kernel of the signed type adds to
    each of the [int32_t] behind it 128 times the sum of its column. *)
Theorem intrinsics_packb_reference (Bmem : mem) (Bbuf pk0 : buffer) rs_b cs_b src n0 k0 dst sum m :
  unit_stride rs_b cs_b -> 0 <= n0 -> 0 <= k0 -> sums_behind n0 k0 dst sum ->
  (forall r c, 0 <= r < k0 -> 0 <= c < n0 ->
     Bbuf !! (src + (r * rs_b + c * cs_b)) = Some (Bmem (src + rs_b * r + cs_b * c))) ->
  (forall x, dst <= x < dst + round_up n0 16 * round_up k0 4 -> is_Some (pk0 !! x)) ->
  exists l pk, dlp_reorder_ref_packb Bbuf dst src 1 4 n0 k0 64 16 rs_b cs_b = Some l /\
    apply_stores pk0 l = Some pk /\
    (forall x, dst <= x < dst + round_up n0 16 * round_up k0 4 ->
       pk !! x = Some (intrinsics_packb Bmem rs_b cs_b src n0 k0 dst sum m x)) /\
    (forall x, ~ (dst <= x < dst + round_up n0 16 * round_up k0 4) -> pk !! x = pk0 !! x /\
       ((forall s, sum = Some s -> ~ (s <= x < s + 4 * round_up n0 16)) ->
        intrinsics_packb Bmem rs_b cs_b src n0 k0 dst sum m x = m x)) /\
    (forall s c, sum = Some s -> 0 <= c < n0 ->
       load_i32 (intrinsics_packb Bmem rs_b cs_b src n0 k0 dst sum m) (s + 4 * c) =
         to_i32 (load_i32 m (s + 4 * c) +
                 128 * zsum (fun r => to_i8 (src_elem Bmem src rs_b cs_b r c)) 0 k0)).
Proof.
  intros Hu Hn Hk Hs HB Hpk.
  pose proof (intrinsics_packb_ok Bmem rs_b cs_b src n0 k0 dst sum m Hu Hn Hk) as [_ Helem Hpad Hsum Hframe].
  set (v := intrinsics_packb _ _ _ _ _ _ _ _ _) in *. pose proof (round_up_bounds n0 16 Hn ltac:(lia)) as [Hru _].
  destruct (ref_panel_ok Bmem Bbuf rs_b cs_b src n0 k0 dst v Hn) as (l & Hl & Hset & Hdom).
  { intros r c Hr Hc. rewrite Z.mul_1_r, HB, Helem by (done || lia). done. }
  { intros x Hno Hx. apply Hpad; [done|done|]. intros r c Hr Hc. by apply Hno. }
  destruct (settles_apply v l pk0 Hset) as (pk & Hpk' & Hv).
  { intros [a x] Hw. apply Hpk, Hdom. by exists x. }
  exists l, pk. split; [done|]. split; [done|]. split; [|split; [|intros s c Es Hc; apply Hsum; done || lia]].
  - intros x Hx. apply Hv. apply Hdom in Hx as [y Hy]. by apply (list_elem_of_fmap_2 fst) in Hy.
  - intros x Hx. split; [|by apply Hframe]. apply Hv. intros ([a y] & -> & Hy)%list_elem_of_fmap. apply Hx, Hdom. by exists y.
Qed.

(** Three columns of two rows, signed, the sums right behind the panel. *)
Lemma intrinsics_packb_reference_witness :
  exists l pk, dlp_reorder_ref_packb (list_to_map ((fun a => (a, a + 1)) <$> seqZ 0 6)) 0 0 1 4 3 2 64 16 3 1 = Some l /\
    apply_stores (list_to_map ((fun a => (a, 9)) <$> seqZ 0 64) : buffer) l = Some pk /\
    pk !! 5 = Some (intrinsics_packb (fun x => x + 1) 3 1 0 3 2 0 (Some 64) (fun _ => 9) 5) /\
    intrinsics_packb (fun x => x + 1) 3 1 0 3 2 0 (Some 64) (fun _ => 9) 5 = 5.
Proof.
  destruct (intrinsics_packb_reference (fun x => x + 1) (list_to_map ((fun a => (a, a + 1)) <$> seqZ 0 6))
    (list_to_map ((fun a => (a, 9)) <$> seqZ 0 64)) 3 1 0 3 2 0 (Some 64) (fun _ => 9)) as (l & pk & Hl & Ha & Hin & _).
  - by left.
  - lia.
  - lia.
  - intros s [= <-]. by vm_compute.
  - intros r c Hr Hc. assert (r = 0 \/ r = 1) as [-> | ->] by lia; assert (c = 0 \/ c = 1 \/ c = 2) as [-> | [-> | ->]] by lia;
      vm_compute; reflexivity.
  - apply in_range. repeat first [constructor | vm_compute; by eexists].
  - exists l, pk. split; [done|]. split; [done|]. split; [by apply Hin|]. vm_compute. reflexivity.
Defined.
