(* ===== verification/PackB16.v ===== *)
(** * The packing and unpacking kernels of B for bf16
    (kernels/zen4/bf16bf16f32/dlp_gemm_packb_bf16_amd512vnni.c,
    dlp_gemm_unpackb_bf16_amd512vnni.c)

    The kernels written with intrinsics, on the registers of [Simd] and with the split of
    the columns and the transposition of [PackB8], which the bf16 files repeat.  Memory
    is bytes, so an index of a [bfloat16*] counts twice. *)
From S2P Require Import Prelude DlpTypes ReorderLayout TeamMachine TeamCorrect Simd PackB8.
From stdpp Require Import list.
#[local] Open Scope Z_scope.

(** [p + i] for [bfloat16* p]. *)
Definition bf16_at (p i : Z) : Z := p + 2 * i.

(** ** Packing: two rows together *)
Section rearrange.
Context {A : Type}.

(** The registers of two rows of 32 or 16 elements, in the order they are stored. *)
Definition rearrange2x32 (a0 c0 : list A) : list A * list A :=
  let a01 := _mm512_unpacklo_epi16 a0 c0 in
  let a0 := _mm512_unpackhi_epi16 a0 c0 in
  let b0 := _mm512_permutex2var_epi64 a01 selector1 a0 in
  let a0 := _mm512_permutex2var_epi64 a01 selector1_1 a0 in
  (b0, a0).

Definition rearrange2x16 (a0 c0 : list A) : list A * list A :=
  let a01 := _mm256_unpacklo_epi16 a0 c0 in
  let a0 := _mm256_unpackhi_epi16 a0 c0 in
  let b0 := _mm256_permute2f128_si256 a01 a0 0x20 in
  let a0 := _mm256_permute2f128_si256 a01 a0 0x31 in
  (b0, a0).
End rearrange.

(** The loop over the rows, two at a time, and the last row of an odd number, with zeros
    for the one that is missing.  [step] gets the counter [kr_new], which [step] of the
    code advances by [inc]; the kernels for 64 columns use [kr]. *)
Definition row_loop2 {R} (KC inc : Z) (ld : Z -> R) (zero : R) (step : mem -> Z -> R -> R -> mem) (m : mem) : mem :=
  let k_full_pieces_blks := KC `quot` 2 in
  let k_full_pieces := k_full_pieces_blks * 2 in
  let k_partial_pieces := KC `rem` 2 in
  let '(m, kr_new) :=
    foldl (fun st kr => (step st.1 st.2 (ld (kr + 0)) (ld (kr + 1)), st.2 + inc)) (m, 0)
      (loop_points 0 k_full_pieces 2) in
  if 0 <? k_partial_pieces then step m kr_new (ld (k_full_pieces + 0)) zero else m.

(** The kernels for a panel at [p] of the columns from the element [b] of [B]. *)
Section pack_row_major.
Context (B : mem) (p b ldb KC : Z).

(** The body of the loops over [jc] and [kr]. *)
Definition bf16_packb_nr64_panel (m : mem) : mem :=
  let NR := 64 in
  row_loop2 KC 2
    (fun kr => (_mm512_loadu_si512 B (bf16_at b (ldb * kr)), _mm512_loadu_si512 B (bf16_at b (ldb * kr + 32))))
    (_mm512_setzero_si512, _mm512_setzero_si512)
    (fun m kr r0 r1 =>
       let '(a0, b0) := r0 in let '(c0, d0) := r1 in
       let '(b0', a0) := rearrange2x32 a0 c0 in
       let '(d0', c0) := rearrange2x32 b0 d0 in
       let m := _mm512_storeu_si512 m (bf16_at p ((kr + 0) * NR)) b0' in
       let m := _mm512_storeu_si512 m (bf16_at p ((kr + 0) * NR + 32)) a0 in
       let m := _mm512_storeu_si512 m (bf16_at p ((kr + 1) * NR)) d0' in
       _mm512_storeu_si512 m (bf16_at p ((kr + 1) * NR + 32)) c0) m.

Definition dlp_packb_nr48_bf16bf16f32of32_row_major (m : mem) : mem :=
  let NR1 := 32 in
  let NR2 := 16 in
  row_loop2 KC 3
    (fun kr => (_mm512_loadu_si512 B (bf16_at b (ldb * kr)), _mm256_maskz_loadu_epi16 0xFFFF B (bf16_at b (ldb * kr + NR1))))
    (_mm512_setzero_si512, _mm256_setzero_si256)
    (fun m kr_new r0 r1 =>
       let '(a0x, a0) := r0 in let '(c0x, c0) := r1 in
       let '(b0x, a0x) := rearrange2x32 a0x c0x in
       let m := _mm512_storeu_si512 m (bf16_at p ((kr_new + 0) * NR1)) b0x in
       let m := _mm512_storeu_si512 m (bf16_at p ((kr_new + 1) * NR1)) a0x in
       let '(b0, a0) := rearrange2x16 a0 c0 in
       let m := _mm256_mask_storeu_epi64 m (bf16_at p ((kr_new + 2) * NR1)) 0xFF b0 in
       _mm256_mask_storeu_epi64 m (bf16_at p ((kr_new + 2) * NR1 + NR2)) 0xFF a0) m.

Definition dlp_packb_nr32_bf16bf16f32of32_row_major (m : mem) : mem :=
  let NR := 32 in
  row_loop2 KC 2 (fun kr => _mm512_loadu_si512 B (bf16_at b (ldb * kr))) _mm512_setzero_si512
    (fun m kr_new a0 c0 =>
       let '(b0, a0) := rearrange2x32 a0 c0 in
       let m := _mm512_storeu_si512 m (bf16_at p (kr_new * NR)) b0 in
       _mm512_storeu_si512 m (bf16_at p ((kr_new + 1) * NR)) a0) m.

(** The kernels for 16 and for fewer columns differ in the mask of the loads. *)
Definition bf16_packb_nrle16_row_major (load_mask : Z) (m : mem) : mem :=
  let NR := 16 in
  row_loop2 KC 2 (fun kr => _mm256_maskz_loadu_epi16 load_mask B (bf16_at b (ldb * kr))) _mm256_setzero_si256
    (fun m kr_new a0 c0 =>
       let '(b0, a0) := rearrange2x16 a0 c0 in
       let m := _mm256_mask_storeu_epi64 m (bf16_at p ((kr_new + 0) * NR)) 0xFF b0 in
       _mm256_mask_storeu_epi64 m (bf16_at p ((kr_new + 1) * NR)) 0xFF a0) m.

Definition dlp_packb_nr16_bf16bf16f32of32_row_major : mem -> mem := bf16_packb_nrle16_row_major 0xFFFF.

Definition dlp_packb_nrlt16_bf16bf16f32of32_row_major (n0_partial_rem : Z) : mem -> mem :=
  let load_mask := Z.shiftr 0xFFFF (16 - n0_partial_rem) in
  bf16_packb_nrle16_row_major load_mask.
End pack_row_major.

(** [KC] with the padding to an even number. *)
Definition bf16_KC_updated (KC : Z) : Z :=
  let k_partial_pieces := KC `rem` 2 in
  if 0 <? k_partial_pieces then KC + (2 - k_partial_pieces) else KC.

Definition dlp_packb_nr64_bf16bf16f32of32_row_major (B m : mem) (pack_b_buffer b ldb NC KC : Z) : mem * (Z * Z) :=
  let KCu := bf16_KC_updated KC in
  let NR := 64 in
  (split_columns NC
     (fun w m jc =>
        let kernel := if w =? 64 then bf16_packb_nr64_panel
                      else if w =? 48 then dlp_packb_nr48_bf16bf16f32of32_row_major
                      else if w =? 32 then dlp_packb_nr32_bf16bf16f32of32_row_major
                      else dlp_packb_nr16_bf16bf16f32of32_row_major in
        kernel B (bf16_at pack_b_buffer (jc * KCu)) (bf16_at b jc) ldb KC m)
     (fun m jc rem =>
        dlp_packb_nrlt16_bf16bf16f32of32_row_major B (bf16_at pack_b_buffer (jc * KCu)) (bf16_at b jc) ldb KC rem m) m,
   (NR * 2, NR `quot` 2)).

(** ** Packing: sixteen columns at a time *)
Section pack_col_major.
Context (p NR KC : Z).
(** [load mask kr c]: the register of column [c] from row [kr]. *)
Context (load : Z -> Z -> Z -> vec).

(** One turn of the inner loop: sixteen columns from [jr], [regs] registers stored. *)
Definition bf16_col_block (mask regs kr : Z) (m : mem) (jr : Z) : mem :=
  let a_reg := (fun i => load mask kr (jr + i)) <$> seqZ 0 16 in
  store_regs m (fun i => bf16_at p (jr * 2 + (kr + 2 * i) * NR)) (take (Z.to_nat regs) (transpose16 a_reg)).

(** [for (; (kr + len - 1) < KC; kr += len)] with the loop over the columns. *)
Definition bf16_col_level (len mask regs : Z) (st : mem * Z) : mem * Z :=
  foldl (fun st kr => (foldl (bf16_col_block mask regs kr) st.1 (loop_points 0 NR 16), st.2 + len)) st
    (loop_points st.2 (KC - (len - 1)) len).

Definition bf16_col_kernel (m : mem) : mem :=
  let st := bf16_col_level 32 0xFFFFFFFF 16 (m, 0) in
  let st := bf16_col_level 16 0xFFFF 8 st in
  let st := bf16_col_level 8 0xFF 4 st in
  let st := bf16_col_level 4 0x0F 2 st in
  let st := bf16_col_level 2 0x03 1 st in
  (bf16_col_level 1 0x01 1 st).1.
End pack_col_major.

Section pack_columns.
Context (B : mem).

(** The first loop loads whole registers. *)
Definition bf16_load_col (b ldb mask kr c : Z) : vec :=
  if mask =? 0xFFFFFFFF then _mm512_loadu_si512 B (bf16_at b (ldb * c + kr))
  else _mm512_maskz_loadu_epi16 mask B (bf16_at b (ldb * c + kr)).

Definition dlp_packb_nr_mult_16_bf16bf16f32of32_col_major (pack_b_buffer b NR ldb KC : Z) (m : mem) : mem :=
  bf16_col_kernel pack_b_buffer NR KC (bf16_load_col b ldb) m.

Definition dlp_packb_nrlt16_bf16bf16f32of32_col_major (pack_b_buffer b ldb KC n0_partial_rem : Z) (m : mem) : mem :=
  let NR := 16 in
  bf16_col_kernel pack_b_buffer NR KC
    (fun mask kr c => if c <? n0_partial_rem then bf16_load_col b ldb mask kr c else _mm512_setzero_si512) m.

Definition dlp_packb_nr64_bf16bf16f32of32_col_major (m : mem) (pack_b_buffer b ldb NC KC : Z) : mem * (Z * Z) :=
  let KCu := bf16_KC_updated KC in
  let NR := 64 in
  (split_columns NC
     (fun w m jc =>
        dlp_packb_nr_mult_16_bf16bf16f32of32_col_major (bf16_at pack_b_buffer (jc * KCu)) (bf16_at b (jc * ldb)) w ldb KC m)
     (fun m jc rem =>
        dlp_packb_nrlt16_bf16bf16f32of32_col_major (bf16_at pack_b_buffer (jc * KCu)) (bf16_at b (jc * ldb)) ldb KC rem m) m,
   (NR * 2, NR `quot` 2)).
End pack_columns.

Definition dlp_packb_nr64_bf16bf16f32of32 (B m : mem) (pack_b_buffer b rs_b cs_b NC KC : Z) : mem * (Z * Z) :=
  if cs_b =? 1 then dlp_packb_nr64_bf16bf16f32of32_row_major B m pack_b_buffer b rs_b NC KC
  else dlp_packb_nr64_bf16bf16f32of32_col_major B m pack_b_buffer b cs_b NC KC.

(** ** Unpacking rows *)

Definition selector_even : list Z := _mm512_set_epi16
  [0x1E; 0x1C; 0x1A; 0x18; 0x16; 0x14; 0x12; 0x10; 0xE; 0xC; 0xA; 0x8; 0x6; 0x4; 0x2; 0x0;
   0x3E; 0x3C; 0x3A; 0x38; 0x36; 0x34; 0x32; 0x30; 0x2E; 0x2C; 0x2A; 0x28; 0x26; 0x24; 0x22; 0x20].
Definition selector_odd : list Z := _mm512_set_epi16
  [0x1F; 0x1D; 0x1B; 0x19; 0x17; 0x15; 0x13; 0x11; 0xF; 0xD; 0xB; 0x9; 0x7; 0x5; 0x3; 0x1;
   0x3F; 0x3D; 0x3B; 0x39; 0x37; 0x35; 0x33; 0x31; 0x2F; 0x2D; 0x2B; 0x29; 0x27; 0x25; 0x23; 0x21].

(** The loop over pairs of rows and the last row of an odd number. *)
Definition unpack_row_loop (KC inc : Z) (both last : mem -> Z -> Z -> mem) (m : mem) : mem :=
  let k_full_pieces_blks := KC `quot` 2 in
  let k_full_pieces := k_full_pieces_blks * 2 in
  let k_partial_pieces := KC `rem` 2 in
  let '(m, kr_new) :=
    foldl (fun st kr => (both st.1 kr st.2, st.2 + inc)) (m, 0) (loop_points 0 k_full_pieces 2) in
  if 0 <? k_partial_pieces then last m k_full_pieces kr_new else m.

(** From the panel at [b] of the packed memory [P] to the column [u] of the matrix. *)
Section unpack_row_major.
Context (P : mem) (b u KC ldb : Z).

(** The body of the loops over [jc] and [kr]. *)
Definition bf16_unpackb_nr64_panel : mem -> mem :=
  let NR := 64 in
  unpack_row_loop KC 2
    (fun m kr _ =>
       let a0 := _mm512_loadu_si512 P (bf16_at b ((kr + 0) * NR)) in
       let b0 := _mm512_loadu_si512 P (bf16_at b ((kr + 0) * NR + 32)) in
       let c0 := _mm512_loadu_si512 P (bf16_at b ((kr + 1) * NR)) in
       let d0 := _mm512_loadu_si512 P (bf16_at b ((kr + 1) * NR + 32)) in
       let a01 := _mm512_permutex2var_epi16 b0 selector_even a0 in
       let b0 := _mm512_permutex2var_epi16 b0 selector_odd a0 in
       let c01 := _mm512_permutex2var_epi16 d0 selector_even c0 in
       let d0 := _mm512_permutex2var_epi16 d0 selector_odd c0 in
       let m := _mm512_storeu_si512 m (bf16_at u (ldb * (kr + 0))) a01 in
       let m := _mm512_storeu_si512 m (bf16_at u (ldb * (kr + 0) + 32)) c01 in
       let m := _mm512_storeu_si512 m (bf16_at u (ldb * (kr + 1))) b0 in
       _mm512_storeu_si512 m (bf16_at u (ldb * (kr + 1) + 32)) d0)
    (fun m kr _ =>
       let a0 := _mm512_loadu_si512 P (bf16_at b ((kr + 0) * NR)) in
       let b0 := _mm512_loadu_si512 P (bf16_at b ((kr + 0) * NR + 32)) in
       let c0 := _mm512_loadu_si512 P (bf16_at b ((kr + 1) * NR)) in
       let d0 := _mm512_loadu_si512 P (bf16_at b ((kr + 1) * NR + 32)) in
       let a01 := _mm512_permutex2var_epi16 b0 selector_even a0 in
       let c01 := _mm512_permutex2var_epi16 d0 selector_even c0 in
       let m := _mm512_storeu_si512 m (bf16_at u (ldb * (kr + 0))) a01 in
       _mm512_storeu_si512 m (bf16_at u (ldb * (kr + 0) + 32)) c01).

Definition dlp_unpackb_nr48_bf16bf16f32of32_row_major : mem -> mem :=
  let NR1 := 32 in
  unpack_row_loop KC 3
    (fun m kr kr_new =>
       let a0 := _mm512_loadu_si512 P (bf16_at b ((kr_new + 0) * NR1)) in
       let b0 := _mm512_loadu_si512 P (bf16_at b ((kr_new + 1) * NR1)) in
       let a01 := _mm512_permutex2var_epi16 b0 selector_even a0 in
       let b0 := _mm512_permutex2var_epi16 b0 selector_odd a0 in
       let m := _mm512_storeu_si512 m (bf16_at u (ldb * (kr + 0))) a01 in
       let m := _mm512_storeu_si512 m (bf16_at u (ldb * (kr + 1))) b0 in
       let c0 := _mm512_loadu_si512 P (bf16_at b ((kr_new + 2) * NR1)) in
       let d0 := _mm512_setzero_si512 in
       let c01 := _mm512_permutex2var_epi16 d0 selector_even c0 in
       let d0 := _mm512_permutex2var_epi16 d0 selector_odd c0 in
       let m := _mm512_mask_storeu_epi16 m (bf16_at u (ldb * (kr + 0) + NR1)) 0xFFFF c01 in
       _mm512_mask_storeu_epi16 m (bf16_at u (ldb * (kr + 1) + NR1)) 0xFFFF d0)
    (fun m kr kr_new =>
       let a0 := _mm512_loadu_si512 P (bf16_at b ((kr_new + 0) * NR1)) in
       let b0 := _mm512_loadu_si512 P (bf16_at b ((kr_new + 1) * NR1)) in
       let a01 := _mm512_permutex2var_epi16 b0 selector_even a0 in
       let m := _mm512_storeu_si512 m (bf16_at u (ldb * (kr + 0))) a01 in
       let c0 := _mm512_loadu_si512 P (bf16_at b ((kr_new + 2) * NR1)) in
       let c01 := _mm512_permutex2var_epi16 c0 selector_even c0 in
       _mm512_mask_storeu_epi16 m (bf16_at u (ldb * (kr + 0) + NR1)) 0xFFFF c01).

Definition dlp_unpackb_nr32_bf16bf16f32of32_row_major : mem -> mem :=
  let NR := 32 in
  unpack_row_loop KC 2
    (fun m kr _ =>
       let a0 := _mm512_loadu_si512 P (bf16_at b ((kr + 0) * NR)) in
       let c0 := _mm512_loadu_si512 P (bf16_at b ((kr + 1) * NR)) in
       let a01 := _mm512_permutex2var_epi16 c0 selector_even a0 in
       let c0 := _mm512_permutex2var_epi16 c0 selector_odd a0 in
       let m := _mm512_storeu_si512 m (bf16_at u (ldb * (kr + 0))) a01 in
       _mm512_storeu_si512 m (bf16_at u (ldb * (kr + 1))) c0)
    (fun m kr _ =>
       let a0 := _mm512_loadu_si512 P (bf16_at b ((kr + 0) * NR)) in
       let c0 := _mm512_loadu_si512 P (bf16_at b ((kr + 1) * NR)) in
       let a0 := _mm512_permutex2var_epi16 c0 selector_even a0 in
       _mm512_storeu_si512 m (bf16_at u (ldb * (kr + 0))) a0).

(** The kernels for 16 and for fewer columns differ in the mask of the stores. *)
Definition bf16_unpackb_nrle16_row_major (store_mask : Z) : mem -> mem :=
  let NR := 16 in
  unpack_row_loop KC 2
    (fun m kr _ =>
       let a0 := _mm512_loadu_si512 P (bf16_at b ((kr + 0) * NR)) in
       let a01 := _mm512_permutex2var_epi16 a0 selector_even a0 in
       let c0 := _mm512_permutex2var_epi16 a0 selector_odd a0 in
       let m := _mm512_mask_storeu_epi16 m (bf16_at u (ldb * (kr + 0))) store_mask a01 in
       _mm512_mask_storeu_epi16 m (bf16_at u (ldb * (kr + 1))) store_mask c0)
    (fun m kr _ =>
       let a0 := _mm512_loadu_si512 P (bf16_at b ((kr + 0) * NR)) in
       let a0 := _mm512_permutex2var_epi16 a0 selector_even a0 in
       _mm512_mask_storeu_epi16 m (bf16_at u (ldb * (kr + 0))) store_mask a0).

Definition dlp_unpackb_nr16_bf16bf16f32of32_row_major : mem -> mem := bf16_unpackb_nrle16_row_major 0xFFFF.

Definition dlp_unpackb_nrlt16_bf16bf16f32of32_row_major (n0_partial_rem : Z) : mem -> mem :=
  let store_mask := Z.shiftr 0xFFFF (16 - n0_partial_rem) in
  bf16_unpackb_nrle16_row_major store_mask.
End unpack_row_major.

Definition dlp_unpackb_nr64_bf16bf16f32of32_row_major (P m : mem) (b unpack_b_buffer NC KC ldb : Z) : mem :=
  let KCu := bf16_KC_updated KC in
  split_columns NC
    (fun w m jc =>
       let kernel := if w =? 64 then bf16_unpackb_nr64_panel
                     else if w =? 48 then dlp_unpackb_nr48_bf16bf16f32of32_row_major
                     else if w =? 32 then dlp_unpackb_nr32_bf16bf16f32of32_row_major
                     else dlp_unpackb_nr16_bf16bf16f32of32_row_major in
       kernel P (bf16_at b (jc * KCu)) (bf16_at unpack_b_buffer jc) KC ldb m)
    (fun m jc rem =>
       dlp_unpackb_nrlt16_bf16bf16f32of32_row_major P (bf16_at b (jc * KCu)) (bf16_at unpack_b_buffer jc) KC ldb rem m) m.

(** ** Unpacking columns *)
Section unpack_col_major.
Context (P : mem) (b u NR KC ldb : Z).
(** How many of the sixteen columns are stored. *)
Context (count : Z).

(** One turn of the inner loop: [regs] registers loaded over those of the turn before,
    the columns stored whole at [len = 32] and under a mask of [len] elements below. *)
Definition bf16_unpack_block (len regs kr : Z) (st : mem * list vec) (jr : Z) : mem * list vec :=
  let a_reg := ((fun i => _mm512_loadu_si512 P (bf16_at b (jr * 2 + (kr + 2 * i) * NR))) <$> seqZ 0 regs)
                 ++ drop (Z.to_nat regs) st.2 in
  let a_reg := transpose16 a_reg in
  (foldl (fun m i =>
      let dst := bf16_at u (ldb * (jr + i) + kr) in
      if len =? 32 then _mm512_storeu_si512 m dst (a_reg !!! Z.to_nat i)
      else _mm512_mask_storeu_epi16 m dst (Z.ones len) (a_reg !!! Z.to_nat i))
    st.1 (seqZ 0 count), a_reg).

Definition bf16_unpack_level (len regs : Z) (st : mem * list vec * Z) : mem * list vec * Z :=
  foldl (fun st kr => (foldl (bf16_unpack_block len regs kr) st.1 (loop_points 0 NR 16), st.2 + len)) st
    (loop_points st.2 (KC - (len - 1)) len).

Definition bf16_unpack_kernel (m : mem) : mem :=
  let a_reg := replicate 16 _mm512_setzero_si512 in
  let st := bf16_unpack_level 32 16 (m, a_reg, 0) in
  let st := bf16_unpack_level 16 8 st in
  let st := bf16_unpack_level 8 4 st in
  let st := bf16_unpack_level 4 2 st in
  let st := bf16_unpack_level 2 1 st in
  (bf16_unpack_level 1 1 st).1.1.
End unpack_col_major.

Definition dlp_unpackb_nr_mult_16_bf16bf16f32of32_col_major (P : mem) (b unpack_b_buffer NR KC ldb : Z) (m : mem) : mem :=
  bf16_unpack_kernel P b unpack_b_buffer NR KC ldb 16 m.

Definition dlp_unpackb_nrlt16_bf16bf16f32of32_col_major (P : mem) (b unpack_b_buffer KC ldb n0_partial_rem : Z) (m : mem) : mem :=
  let NR := 16 in
  bf16_unpack_kernel P b unpack_b_buffer NR KC ldb n0_partial_rem m.

Definition dlp_unpackb_nr64_bf16bf16f32of32_col_major (P m : mem) (b unpack_b_buffer NC KC ldb : Z) : mem :=
  let KCu := bf16_KC_updated KC in
  split_columns NC
    (fun w m jc =>
       dlp_unpackb_nr_mult_16_bf16bf16f32of32_col_major P (bf16_at b (jc * KCu)) (bf16_at unpack_b_buffer (jc * ldb)) w KC ldb m)
    (fun m jc rem =>
       dlp_unpackb_nrlt16_bf16bf16f32of32_col_major P (bf16_at b (jc * KCu)) (bf16_at unpack_b_buffer (jc * ldb)) KC ldb rem m) m.

Definition dlp_unpackb_nr64_bf16bf16f32of32 (P m : mem) (b unpack_b_buffer NC KC rs_b cs_b : Z) : mem :=
  if cs_b =? 1 then dlp_unpackb_nr64_bf16bf16f32of32_row_major P m b unpack_b_buffer NC KC rs_b
  else dlp_unpackb_nr64_bf16bf16f32of32_col_major P m b unpack_b_buffer NC KC cs_b.
