(* ===== verification/PackB16Ok.v ===== *)
(** * The packing kernels of B for bf16 are correct

    A matrix of [KC] rows of bf16 is a matrix of [2 * KC] rows of bytes: row [2 * r + t]
    has byte [t] of the elements of row [r].  Seen so, the layout the bf16 kernels write
    is the one of the 8-bit kernels, and what is proved of those about panels, chunks and
    the transposition holds here too. *)
From S2P Require Import Prelude DlpTypes ReorderLayout TeamMachine TeamCorrect Simd PackB8 PackB8Ok PackB8Col PackB8Laws PackB16.
From stdpp Require Import list.
#[local] Open Scope Z_scope.

Local Abbreviation round_up := dlp_reorder_round_up.

Lemma quotient_rest n a b : 0 <= b < n -> (n * a + b) / n = a /\ (n * a + b) mod n = b.
Proof. intros Hb. split; symmetry; [apply (Z.div_unique _ _ a b)|apply (Z.mod_unique _ _ a b)]; lia. Qed.

Lemma bf16_KC_updated_eq k : 0 <= k -> 2 * bf16_KC_updated k = round_up (2 * k) 4.
Proof.
  intros Hk. unfold bf16_KC_updated. rewrite crem_nonneg, round_up_4 by lia. zcase; dlia.
Qed.

(** A register stored whole, through a full mask or not. *)
Lemma store_val m p val n x : 0 <= n ->
  _mm512_storeu_si512 m p ((fun o => val (p + o)) <$> seqZ 0 n) x = fill m p (p + n) val x.
Proof.
  intros Hn. rewrite storeu_image by done. unfold fill. case_match; [|done]. f_equal. lia.
Qed.

Lemma mask_store_full w mask m p v x : 0 < w ->
  (forall i, 0 <= i < Z.of_nat (length v) -> Z.testbit mask (i / w) = true) ->
  mask_storeu w m p mask v x = _mm512_storeu_si512 m p v x.
Proof.
  intros Hw Hm. unfold mask_storeu, _mm512_storeu_si512.
  destruct (Z.leb_spec p x); [|done]. destruct (Z.ltb_spec x (p + Z.of_nat (length v))); [|done]. cbn [andb].
  by rewrite Hm by lia.
Qed.

Lemma mask_store_val m p val x :
  _mm256_mask_storeu_epi64 m p 0xFF ((fun o => val (p + o)) <$> seqZ 0 32) x = fill m p (p + 32) val x.
Proof.
  unfold _mm256_mask_storeu_epi64. rewrite mask_store_full; [by apply store_val|lia|].
  intros i. rewrite length_fmap, length_seqZ. intros Hi. change 0xFF with (Z.ones 8). apply Z.ones_spec_low.
  split; [dlia|]. apply Z.div_lt_upper_bound; lia.
Qed.

(** Stores one behind the other fill an interval. *)
Lemma store_next m m' a q d n hi val x :
  (forall y, m' y = fill m a q val y) -> d = q -> a <= q -> 0 <= n -> hi = q + n ->
  _mm512_storeu_si512 m' d ((fun o => val (q + o)) <$> seqZ 0 n) x = fill m a hi val x.
Proof.
  intros Hm -> Ha Hn ->. rewrite store_val by done. rewrite (fill_ext _ (fill m a q val)) by done. apply fill_fill. lia.
Qed.

Lemma mask_store_next m m' a q d hi val x :
  (forall y, m' y = fill m a q val y) -> d = q -> a <= q -> hi = q + 32 ->
  _mm256_mask_storeu_epi64 m' d 0xFF ((fun o => val (q + o)) <$> seqZ 0 32) x = fill m a hi val x.
Proof.
  intros Hm -> Ha ->. rewrite mask_store_val. rewrite (fill_ext _ (fill m a q val)) by done. apply fill_fill. lia.
Qed.

Lemma fill_none m a q val x : a = q -> m x = fill m a q val x.
Proof. intros ->. rewrite fill_out; [done|lia]. Qed.

Ltac store_chain :=
  lazymatch goal with
  | |- _mm512_storeu_si512 _ _ _ _ = _ => eapply store_next; [intro; store_chain|unfold bf16_at; lia|lia|lia|lia]
  | |- _mm256_mask_storeu_epi64 _ _ _ _ _ = _ => eapply mask_store_next; [intro; store_chain|unfold bf16_at; lia|lia|lia]
  | |- _ => apply fill_none; lia
  end.

(** ** Two rows together *)
Section rearranged.
Context (g : Z -> Z).

(** Register [q] of rows of [W] elements: the index of its bytes in the two rows. *)
Definition paired (W q : Z) : list Z :=
  (fun o => 2 * W * ((o mod 4) / 2) + (2 * ((W / 2) * q + o / 4) + o mod 2)) <$> seqZ 0 (2 * W).

Lemma rearrange2x32_ok :
  rearrange2x32 (g <$> seqZ 0 64) (g <$> seqZ 64 64) = (g <$> paired 32 0, g <$> paired 32 1).
Proof. unfold rearrange2x32. cbn zeta. simd_move. f_equal; f_equal; vm_compute; reflexivity. Qed.

Lemma rearrange2x16_ok :
  rearrange2x16 (g <$> seqZ 0 32) (g <$> seqZ 32 32) = (g <$> paired 16 0, g <$> paired 16 1).
Proof. unfold rearrange2x16. cbn zeta. simd_move. f_equal; f_equal; vm_compute; reflexivity. Qed.
End rearranged.

(** ** Rows *)
Section rows.
Context (el : Z -> Z -> Z) (w p KC : Z).
Hypothesis Hw : 0 < w.
Hypothesis HKC : 0 <= KC.

Local Abbreviation val := (panel_val el w p (2 * KC)).

(** [W] elements of row [r] from column [off], zero past the last row. *)
Definition row_reg (off W r : Z) : vec :=
  (fun i => if r <? KC then el (2 * r + i mod 2) (off + i / 2) else 0) <$> seqZ 0 (2 * W).

Lemma row_reg_end off W r : KC <= r -> row_reg off W r = replicate (Z.to_nat (2 * W)) 0.
Proof using.
  intros Hr. unfold row_reg. rewrite (list_fmap_ext _ (fun _ => 0)) by (intros; by rewrite (proj2 (Z.ltb_ge r KC)) by lia).
  rewrite <- (length_seqZ 0 (2 * W)). induction (seqZ 0 (2 * W)) as [|i l IH]; [done|]. cbn. by rewrite IH.
Qed.

(** The index of two rows from [kr] in the registers. *)
Definition rows_index (off W kr i : Z) : Z :=
  if kr + i / (2 * W) <? KC then el (2 * (kr + i / (2 * W)) + (i mod (2 * W)) mod 2) (off + (i mod (2 * W)) / 2) else 0.

Lemma row_reg_index off W kr j : 0 < W -> 0 <= j ->
  row_reg off W (kr + j) = rows_index off W kr <$> seqZ (2 * W * j) (2 * W).
Proof using.
  intros HW Hj. rewrite (seqZ_from_0 (2 * W * j)), <- list_fmap_compose. apply list_fmap_ext. intros ix i Hi%lookup_seqZ.
  cbn. unfold rows_index. by destruct (quotient_rest (2 * W) j i ltac:(lia)) as [-> ->].
Qed.

(** A register of a pair is a part of the panel. *)
Lemma paired_val off W kr q : W = 32 \/ W = 16 -> 0 <= q < 2 -> 0 <= off -> off + W <= w -> (2 | kr) ->
  rows_index off W kr <$> paired W q =
  (fun o => val (p + w * (2 * kr) + 4 * off + 2 * W * q + o)) <$> seqZ 0 (2 * W).
Proof using Hw.
  intros HW Hq Hoff HoW [t Ht]. unfold paired. rewrite <- list_fmap_compose. apply list_fmap_ext. intros ix o Ho%lookup_seqZ. cbn.
  assert (0 <= o mod 4 < 4) as Hm4 by (apply Z.mod_pos_bound; lia).
  assert (exists h, W = 2 * h /\ 0 < h /\ W / 2 = h) as (h & Eh & Hh & ->) by (destruct HW as [-> | ->]; [by exists 16|by exists 8]).
  assert (0 <= o / 4 < h) by (split; [dlia|apply Z.div_lt_upper_bound; lia]).
  assert (0 <= o mod 4 / 2 < 2 /\ 0 <= o mod 2 < 2) as [? ?] by (split; [dlia|apply Z.mod_pos_bound; lia]).
  assert (o mod 4 = 2 * (o mod 4 / 2) + o mod 2) as E4 by dlia.
  set (i := 2 * W * (o mod 4 / 2) + (2 * (h * q + o / 4) + o mod 2)). unfold rows_index.
  assert (0 <= 2 * (h * q + o / 4) + o mod 2 < 2 * W) as Hin by nia.
  assert (i / (2 * W) = o mod 4 / 2 /\ i mod (2 * W) = 2 * (h * q + o / 4) + o mod 2) as [-> ->].
  { by apply quotient_rest. }
  replace (p + w * (2 * kr) + 4 * off + 2 * W * q + o) with (p + w * (2 * kr) + (4 * (off + h * q) + o)) by lia.
  rewrite panel_val_at; [|done|exists t; lia|nia].
  assert ((4 * (off + h * q) + o) mod 4 = o mod 4 /\ (4 * (off + h * q) + o) / 4 = off + h * q + o / 4) as [-> ->].
  { rewrite Z.add_comm, (Z.mul_comm 4), Z.div_add, Z.mod_add by lia. split; lia. }
  assert ((2 * (h * q + o / 4) + o mod 2) mod 2 = o mod 2 /\ (2 * (h * q + o / 4) + o mod 2) / 2 = h * q + o / 4) as [-> ->].
  { destruct (quotient_rest 2 (h * q + o / 4) (o mod 2)); done. }
  replace (2 * kr + o mod 4) with (2 * (kr + o mod 4 / 2) + o mod 2) by lia. rewrite Z.add_assoc.
  destruct (Z.ltb_spec (kr + o mod 4 / 2) KC), (Z.ltb_spec (2 * (kr + o mod 4 / 2) + o mod 2) (2 * KC)); done || lia.
Qed.

Lemma pair32 off kr : 0 <= off -> off + 32 <= w -> (2 | kr) ->
  rearrange2x32 (row_reg off 32 kr) (row_reg off 32 (kr + 1)) =
  ((fun o => val (p + w * (2 * kr) + 4 * off + o)) <$> seqZ 0 64,
   (fun o => val (p + w * (2 * kr) + 4 * off + 64 + o)) <$> seqZ 0 64).
Proof using Hw.
  intros Hoff HoW Hkr. rewrite <- (Z.add_0_r kr) at 1. rewrite !row_reg_index by lia.
  change (2 * 32 * 0) with 0. change (2 * 32 * 1) with 64. change (2 * 32) with 64 at 1 2.
  rewrite rearrange2x32_ok, !paired_val by (done || lia || by left). f_equal; apply list_fmap_ext; intros; f_equal; lia.
Qed.

Lemma pair16 off kr : 0 <= off -> off + 16 <= w -> (2 | kr) ->
  rearrange2x16 (row_reg off 16 kr) (row_reg off 16 (kr + 1)) =
  ((fun o => val (p + w * (2 * kr) + 4 * off + o)) <$> seqZ 0 32,
   (fun o => val (p + w * (2 * kr) + 4 * off + 32 + o)) <$> seqZ 0 32).
Proof using Hw.
  intros Hoff HoW Hkr. rewrite <- (Z.add_0_r kr) at 1. rewrite !row_reg_index by lia.
  change (2 * 16 * 0) with 0. change (2 * 16 * 1) with 32. change (2 * 16) with 32 at 1 2.
  rewrite rearrange2x16_ok, !paired_val by (done || lia || by right). f_equal; apply list_fmap_ext; intros; f_equal; lia.
Qed.

(** The loop, for a step that puts two rows in place. *)
Lemma row_loop2_ok {R} inc (ld row : Z -> R) zero step m :
  (forall r, r < KC -> ld r = row r) -> (forall r, KC <= r -> zero = row r) ->
  (forall m kr kr_new x, 0 <= kr < KC -> (2 | kr) -> 2 * kr_new = inc * kr ->
     step m kr_new (row kr) (row (kr + 1)) x = fill m (p + w * (2 * kr)) (p + w * (2 * (kr + 2))) val x) ->
  panel_ok el w p (2 * KC) None m (row_loop2 KC inc ld zero step m).
Proof using Hw HKC.
  intros Hld Hz Hstep. split; [|done]. intros x _. unfold row_loop2. rewrite cquot_nonneg, crem_nonneg by lia.
  pose proof (Z.div_mod KC 2 ltac:(lia)) as Ek. pose proof (Z.mod_pos_bound KC 2 ltac:(lia)) as Hr.
  set (kf := KC / 2 * 2). assert (0 <= kf) by (unfold kf; dlia).
  destruct (loop_points_foldl (fun st kr => (step st.1 st.2 (ld (kr + 0)) (ld (kr + 1)), st.2 + inc))
    (fun kr st => (forall x, st.1 x = fill m p (p + w * (2 * kr)) val x) /\ 2 * st.2 = inc * kr) 2 kf ltac:(lia) 0 (m, 0))
    as (e & [He Hn] & He1 & He2 & He3 & [q Hq] & He4).
  { split; cbn [fst snd]; [|lia]. intros y. rewrite fill_out; [done|lia]. }
  { intros kr [m1 kn] Hkr Hlt [q Hq] [Hm1 Hkn]. cbn [fst snd] in *. split; [|lia].
    intros y. rewrite Z.add_0_r, !Hld by (unfold kf in Hlt; lia). rewrite (Hstep m1 kr) by (unfold kf in Hlt; lia || (exists q; lia)).
    rewrite (fill_ext _ (fill m p (p + w * (2 * kr)) val)) by done. apply fill_fill. nia. }
  assert (e = kf) as -> by (destruct (decide (0 < kf)); [unfold kf in *; lia|rewrite He4; unfold kf in *; lia]).
  destruct (foldl _ _ _) as [m1 kn]. cbn [fst snd] in *. rewrite round_up_4 by lia. destruct (Z.ltb_spec 0 (KC mod 2)).
  - rewrite Z.add_0_r, Hld, (Hz (kf + 1)) by (unfold kf; lia). rewrite (Hstep m1 kf) by (unfold kf; lia || (exists (KC / 2); lia)).
    rewrite (fill_ext _ (fill m p (p + w * (2 * kf)) val)) by done. rewrite fill_fill by nia.
    by replace (4 * ((2 * KC + 3) / 4)) with (2 * (kf + 2)) by (unfold kf; dlia).
  - rewrite He. by replace (4 * ((2 * KC + 3) / 4)) with (2 * kf) by (unfold kf; dlia).
Qed.
End rows.

(** ** The row-major kernels *)
Section row_major.
Context (B : mem) (p b ldb KC : Z).
Hypothesis HKC : 0 <= KC.

(** Row [R] of bytes, column [c], of a row-major B with [n0] columns. *)
Definition bf16_row_elem (n0 R c : Z) : Z :=
  if c <? n0 then B (bf16_at b (ldb * (R / 2) + c) + R mod 2) else 0.

Lemma row_elem_reg n0 off W r i : r < KC -> 0 <= i < 2 * W ->
  (if r <? KC then bf16_row_elem n0 (2 * r + i mod 2) (off + i / 2) else 0) =
  if off + i / 2 <? n0 then B (bf16_at b (ldb * r + off) + i) else 0.
Proof using.
  intros Hr Hi. rewrite (proj2 (Z.ltb_lt r KC)) by done. unfold bf16_row_elem.
  destruct (quotient_rest 2 r (i mod 2) ltac:(apply Z.mod_pos_bound; lia)) as [-> ->].
  case_match; [|done]. f_equal. unfold bf16_at. pose proof (Z.div_mod i 2). lia.
Qed.

Lemma load_row_reg n0 off W r : r < KC -> off + W <= n0 ->
  loadu (2 * W) B (bf16_at b (ldb * r + off)) = row_reg (bf16_row_elem n0) KC off W r.
Proof using.
  intros Hr Hn. apply list_fmap_ext. intros ix i Hi%lookup_seqZ. rewrite (row_elem_reg _ _ W) by (done || lia).
  rewrite (proj2 (Z.ltb_lt _ n0)); [done|]. assert (i / 2 < W) by (apply Z.div_lt_upper_bound; lia). lia.
Qed.

Lemma maskz_row_reg n0 off r : r < KC -> 0 <= n0 - off <= 16 ->
  _mm256_maskz_loadu_epi16 (Z.shiftr 0xFFFF (16 - (n0 - off))) B (bf16_at b (ldb * r + off)) =
  row_reg (bf16_row_elem n0) KC off 16 r.
Proof using.
  intros Hr Hn. apply list_fmap_ext. intros ix i Hi%lookup_seqZ. rewrite (row_elem_reg _ _ 16) by (done || lia).
  assert (0 <= i / 2) by dlia. rewrite Z.shiftr_spec by done. change 0xFFFF with (Z.ones 16).
  destruct (Z.ltb_spec (off + i / 2) n0).
  - by rewrite Z.ones_spec_low by lia.
  - by rewrite Z.ones_spec_high by lia.
Qed.

Local Abbreviation ok n0 w := (panel_ok (bf16_row_elem n0) w p (2 * KC) None).

Lemma bf16_nr64_ok m : ok 64 64 m (bf16_packb_nr64_panel B p b ldb KC m).
Proof using HKC.
  set (row := fun r => (row_reg (bf16_row_elem 64) KC 0 32 r, row_reg (bf16_row_elem 64) KC 32 32 r)).
  apply (row_loop2_ok _ 64 p KC ltac:(lia) HKC 2 _ row).
  - intros r Hr. unfold row. rewrite <- !load_row_reg by lia. by rewrite Z.add_0_r.
  - intros r Hr. unfold row. by rewrite !row_reg_end by done.
  - intros m1 kr kn x Hkr H2 Hkn. assert (kn = kr) as -> by lia. unfold row.
    rewrite (pair32 _ 64 p KC ltac:(lia) 0), (pair32 _ 64 p KC ltac:(lia) 32) by (done || lia).
    cbv zeta. store_chain.
Qed.

Lemma bf16_nr48_ok m : ok 48 48 m (dlp_packb_nr48_bf16bf16f32of32_row_major B p b ldb KC m).
Proof using HKC.
  set (row := fun r => (row_reg (bf16_row_elem 48) KC 0 32 r, row_reg (bf16_row_elem 48) KC 32 16 r)).
  apply (row_loop2_ok _ 48 p KC ltac:(lia) HKC 3 _ row).
  - intros r Hr. unfold row. rewrite <- load_row_reg, <- maskz_row_reg by lia. by rewrite Z.add_0_r.
  - intros r Hr. unfold row. by rewrite !row_reg_end by done.
  - intros m1 kr kn x Hkr H2 Hkn. unfold row.
    rewrite (pair32 _ 48 p KC ltac:(lia) 0), (pair16 _ 48 p KC ltac:(lia) 32) by (done || lia). cbv zeta. store_chain.
Qed.

Lemma bf16_nr32_ok m : ok 32 32 m (dlp_packb_nr32_bf16bf16f32of32_row_major B p b ldb KC m).
Proof using HKC.
  apply (row_loop2_ok _ 32 p KC ltac:(lia) HKC 2 _ (row_reg (bf16_row_elem 32) KC 0 32)).
  - intros r Hr. rewrite <- load_row_reg by lia. by rewrite Z.add_0_r.
  - intros r Hr. by rewrite row_reg_end by done.
  - intros m1 kr kn x Hkr H2 Hkn. rewrite (pair32 _ 32 p KC ltac:(lia) 0) by (done || lia). cbv zeta. store_chain.
Qed.

Lemma bf16_nrlt16_ok n0 m : 0 <= n0 <= 16 ->
  ok n0 16 m (dlp_packb_nrlt16_bf16bf16f32of32_row_major B p b ldb KC n0 m).
Proof using HKC.
  intros Hn. apply (row_loop2_ok _ 16 p KC ltac:(lia) HKC 2 _ (row_reg (bf16_row_elem n0) KC 0 16)).
  - intros r Hr. rewrite <- maskz_row_reg by lia. by rewrite Z.add_0_r, Z.sub_0_r.
  - intros r Hr. by rewrite row_reg_end by done.
  - intros m1 kr kn x Hkr H2 Hkn. rewrite (pair16 _ 16 p KC ltac:(lia) 0) by (done || lia). cbv zeta. store_chain.
Qed.

Lemma bf16_nr16_ok m : ok 16 16 m (dlp_packb_nr16_bf16bf16f32of32_row_major B p b ldb KC m).
Proof using HKC. apply (bf16_nrlt16_ok 16). lia. Qed.
End row_major.

(** ** The column-major kernels

    Their turns are those of the 8-bit kernels, with twice the rows. *)
Lemma store_regs_addr m addr addr' regs : (forall i, addr i = addr' i) -> store_regs m addr regs = store_regs m addr' regs.
Proof.
  intros H. unfold store_regs. generalize (zip (seqZ 0 (Z.of_nat (length regs))) regs). intros l. revert m.
  induction l as [|[i r] l IH]; intros m; [done|]. cbn. by rewrite H, IH.
Qed.

Section col_kernel.
Context (p NR KC : Z) (load : Z -> Z -> Z -> vec) (el : Z -> Z -> Z).
Hypothesis HNR : 0 < NR.
Hypothesis HNR16 : (16 | NR).
Hypothesis HKC : 0 <= KC.
(** A register read under a mask of [len] elements holds [2 * len] rows of bytes. *)
Hypothesis Hload : forall len kr c, 0 <= len <= 32 ->
  load (Z.ones len) kr c = (fun i => if i <? 2 * len then el (2 * kr + i) c else 0) <$> seqZ 0 64.

Local Abbreviation val := (panel_val el NR p (2 * KC)).

(** The registers as the 8-bit kernels load them. *)
Definition load_bytes_of (mask kr c : Z) : vec := (fun i => if Z.testbit mask i then el (kr + i) c else 0) <$> seqZ 0 64.

Lemma load_bytes_of_ones len kr c : 0 <= len <= 64 ->
  load_bytes_of (Z.ones len) kr c = (fun i => if i <? len then el (kr + i) c else 0) <$> seqZ 0 64.
Proof using.
  intros Hlen. apply list_fmap_ext. intros ix i Hi%lookup_seqZ. destruct (Z.ltb_spec i len).
  - by rewrite Z.ones_spec_low by lia.
  - by rewrite Z.ones_spec_high by lia.
Qed.

Lemma bf16_col_block_bytes len regs kr SUM sums m jr : 0 <= len <= 32 ->
  bf16_col_block p NR load (Z.ones len) regs kr m jr =
  (col_block false p NR load_bytes_of (Z.ones (2 * len)) regs (2 * kr) SUM (m, sums) jr).1.
Proof using Hload.
  intros Hlen. unfold bf16_col_block, col_block. cbn [fst].
  rewrite (list_fmap_ext (fun i => load (Z.ones len) kr (jr + i)) (fun i => load_bytes_of (Z.ones (2 * len)) (2 * kr) (jr + i))).
  - apply store_regs_addr. intros i. unfold bf16_at. lia.
  - intros ix i _. by rewrite Hload, load_bytes_of_ones by lia.
Qed.

Lemma bf16_col_blocks_bytes len regs kr SUM sums l m : 0 <= len <= 32 ->
  foldl (bf16_col_block p NR load (Z.ones len) regs kr) m l =
  (foldl (col_block false p NR load_bytes_of (Z.ones (2 * len)) regs (2 * kr) SUM) (m, sums) l).1.
Proof using Hload.
  intros Hlen. revert m sums. induction l as [|jr l IH]; intros m sums; [done|]. cbn [foldl].
  rewrite (bf16_col_block_bytes _ _ _ SUM sums) by done. rewrite (surjective_pairing (col_block _ _ _ _ _ _ _ _ (m, sums) jr)) at 2.
  by rewrite <- IH.
Qed.

Lemma some_sum_macro len : 0 <= len <= 16 \/ len = 32 \/ len = 64 -> exists SUM, sum_macro len SUM.
Proof using.
  intros [H|[-> | ->]]; eexists; [by apply sum_K16|by apply sum_K32|by apply sum_K64].
Qed.

Context (m : mem).

(** Before the rows at the counter, fewer than [bound] are left. *)
Definition bf16_level_inv (bound : Z) (st : mem * Z) : Prop :=
  0 <= st.2 <= KC /\ KC - st.2 < bound /\ (st.2 < KC -> (2 | st.2)) /\
  forall x, st.1 x = fill m p (p + NR * round_up (2 * st.2) 4) val x.

Lemma bf16_col_level_ok len mask regs bound st :
  0 <= 2 * len <= 16 \/ 2 * len = 32 \/ 2 * len = 64 -> 0 < len -> mask = Z.ones len -> regs = (2 * len + 3) / 4 ->
  (2 | len) \/ bound <= len + 1 -> bf16_level_inv bound st ->
  bf16_level_inv len (bf16_col_level p NR KC load len mask regs st).
Proof using HNR HNR16 HKC Hload.
  intros Hlen Hl0 -> Hregs Hl2 Hst. unfold bf16_col_level. destruct (some_sum_macro (2 * len) Hlen) as [SUM HSUM].
  match goal with |- bf16_level_inv _ (foldl ?f _ _) => set (step := f) end.
  destruct (loop_points_foldl step (fun x st => bf16_level_inv bound st /\ st.2 = x) len (KC - (len - 1))
    ltac:(lia) st.2 st) as (e & [Hi <-] & He & _); [done| |].
  - intros x [m0 kr] Hx Hhi _ [(Hkr & Hb & H2 & Hm) Ekr]. cbn [fst snd] in *. subst x.
    destruct (H2 ltac:(lia)) as [q Hq]. rewrite reorder_round_up_multiple in Hm by (lia || (exists q; lia)).
    assert (round_up (2 * (kr + len)) 4 = 2 * kr + 4 * regs) as Eru by (rewrite round_up_4 by lia; rewrite Hregs; dlia).
    destruct (block_all false p NR (2 * KC) load_bytes_of el HNR HNR16 ltac:(lia) load_bytes_of_ones
      m0 (2 * kr) (2 * len) regs SUM) with (sums := fun _ : Z => [] : vec) as [Hbm _]; [split; [lia|exists q; lia]| |done|done|done|].
    { split_and!; [lia..|]. destruct Hl2 as [[t Ht]|]; [left; exists t; lia|right; lia]. }
    subst step. cbn beta. rewrite (bf16_col_blocks_bytes _ _ _ SUM (fun _ => [])) by lia. split; [|done].
    split_and!; cbn [fst snd]; try lia.
    + intros HK. destruct Hl2 as [[t Ht]|]; [exists (q + t); lia|lia].
    + intros y. rewrite Hbm, Eru. rewrite (fill_ext _ (fill m p (p + NR * (2 * kr)) val)) by done.
      apply fill_fill. assert (0 <= regs) by (rewrite Hregs; dlia). nia.
  - destruct Hi as (H1 & H3 & H4 & H5). split_and!; done || lia.
Qed.

Lemma bf16_col_kernel_ok : panel_ok el NR p (2 * KC) None m (bf16_col_kernel p NR KC load m).
Proof using HNR HNR16 HKC Hload.
  assert (bf16_level_inv (KC + 1) (m, 0)) as H0.
  { split_and!; cbn [fst snd]; try lia; [by exists 0|]. intros x. change (round_up (2 * 0) 4) with 0. rewrite fill_out; [done|lia]. }
  unfold bf16_col_kernel. cbv zeta.
  match goal with |- panel_ok _ _ _ _ _ _ (fst ?st) => assert (bf16_level_inv 1 st) as (Hk & Hlt & _ & Hm) end.
  - apply (bf16_col_level_ok 1 _ _ 2); [lia|lia|reflexivity|reflexivity|by right|].
    apply (bf16_col_level_ok 2 _ _ 4); [lia|lia|reflexivity|reflexivity|left; by exists 1|].
    apply (bf16_col_level_ok 4 _ _ 8); [lia|lia|reflexivity|reflexivity|left; by exists 2|].
    apply (bf16_col_level_ok 8 _ _ 16); [lia|lia|reflexivity|reflexivity|left; by exists 4|].
    apply (bf16_col_level_ok 16 _ _ 32); [lia|lia|reflexivity|reflexivity|left; by exists 8|].
    apply (bf16_col_level_ok 32 _ _ (KC + 1)); [lia|lia|reflexivity|reflexivity|left; by exists 16|]. exact H0.
  - split; [|done]. intros x _. rewrite Hm. by replace (snd _) with KC by lia.
Qed.
End col_kernel.

(** ** All columns *)
Section kernels.
Context (B : mem) (src dst rs_b cs_b n0 k0 : Z).
Hypothesis Hn0 : 0 <= n0.
Hypothesis Hk0 : 0 <= k0.

(** Row [R] of bytes, column [c] of the panel in the caller's matrix. *)
Definition bf16_elem (R c : Z) : Z := B (bf16_at src (rs_b * (R / 2) + cs_b * c) + R mod 2).

Lemma bf16_panel_start jc : bf16_at dst (jc * bf16_KC_updated k0) = dst + jc * round_up (2 * k0) 4.
Proof using Hk0. rewrite <- bf16_KC_updated_eq by done. unfold bf16_at. lia. Qed.

Lemma bf16_row_major_ok m : cs_b = 1 ->
  cols_ok bf16_elem n0 (2 * k0) dst None (round_up n0 16) m (dlp_packb_nr64_bf16bf16f32of32_row_major B m dst src rs_b n0 k0).1.
Proof using Hn0 Hk0.
  intros Hcs. unfold dlp_packb_nr64_bf16bf16f32of32_row_major. cbn [fst]. apply split_columns_ok; [done|lia|..].
  - intros w m1 jc Hw. cbn [fmap option_fmap option_map]. rewrite bf16_panel_start.
    eapply (panel_ok_ext (bf16_row_elem B (bf16_at src jc) rs_b w)); [lia| |].
    { intros R c Hc. unfold bf16_row_elem, bf16_elem, bf16_at. case_match; [|done]. f_equal. lia. }
    destruct Hw as [-> | [-> | [-> | ->]]]; cbn [Z.eqb Pos.eqb];
      [by apply bf16_nr64_ok|by apply bf16_nr48_ok|by apply bf16_nr32_ok|by apply bf16_nr16_ok].
  - intros m1 jc rem Hrem. cbn [fmap option_fmap option_map]. rewrite bf16_panel_start.
    eapply (panel_ok_ext (bf16_row_elem B (bf16_at src jc) rs_b rem)); [lia| |by apply bf16_nrlt16_ok; lia].
    intros R c Hc. unfold bf16_row_elem, bf16_elem, bf16_at. case_match; [|done]. f_equal. lia.
Qed.

Lemma bf16_load_col_image b ldb len kr c : 0 <= len <= 32 ->
  bf16_load_col B b ldb (Z.ones len) kr c =
  (fun i => if i <? 2 * len then B (bf16_at b (ldb * c + kr) + i) else 0) <$> seqZ 0 64.
Proof using.
  intros Hlen. unfold bf16_load_col. destruct (Z.eqb_spec (Z.ones len) 0xFFFFFFFF) as [E|_].
  - assert (len = 32) as ->.
    { change 0xFFFFFFFF with (Z.ones 32) in E. destruct (decide (len = 32)); [done|].
      apply (f_equal (fun z => Z.testbit z len)) in E. by rewrite Z.ones_spec_high, Z.ones_spec_low in E by lia. }
    apply list_fmap_ext. intros i x Hx%lookup_seqZ. by rewrite (proj2 (Z.ltb_lt x _)) by lia.
  - apply list_fmap_ext. intros ix i Hi%lookup_seqZ. assert (0 <= i / 2) by dlia. destruct (Z.ltb_spec i (2 * len)).
    + rewrite Z.ones_spec_low; [done|]. split; [done|]. apply Z.div_lt_upper_bound; lia.
    + rewrite Z.ones_spec_high; [done|]. split; [lia|]. apply Z.div_le_lower_bound; lia.
Qed.

Lemma bf16_col_major_ok m : rs_b = 1 ->
  cols_ok bf16_elem n0 (2 * k0) dst None (round_up n0 16) m (dlp_packb_nr64_bf16bf16f32of32_col_major B m dst src cs_b n0 k0).1.
Proof using Hn0 Hk0.
  intros Hrs. unfold dlp_packb_nr64_bf16bf16f32of32_col_major. cbn [fst].
  assert (forall jc R c, bf16_elem R (jc + c) = B (bf16_at (bf16_at src (jc * cs_b)) (cs_b * c) + R)) as Hel.
  { intros jc R c. unfold bf16_elem, bf16_at. f_equal. pose proof (Z.div_mod R 2). rewrite Hrs. lia. }
  apply split_columns_ok; [done|lia|..].
  - intros w m1 jc Hw. cbn [fmap option_fmap option_map]. rewrite bf16_panel_start.
    eapply (panel_ok_ext (fun R c => B (bf16_at (bf16_at src (jc * cs_b)) (cs_b * c) + R))); [lia| |].
    { intros R c Hc. rewrite (proj2 (Z.ltb_lt c w)) by lia. by rewrite Hel. }
    apply bf16_col_kernel_ok; [lia|destruct Hw as [-> | [-> | [-> | ->]]]; [by exists 4|by exists 3|by exists 2|by exists 1]|done|].
    intros len kr c Hlen. rewrite bf16_load_col_image by done. apply list_fmap_ext. intros i x _. case_match; [|done].
    f_equal. unfold bf16_at. lia.
  - intros m1 jc rem Hrem. cbn [fmap option_fmap option_map]. rewrite bf16_panel_start.
    eapply (panel_ok_ext (fun R c => if c <? rem then B (bf16_at (bf16_at src (jc * cs_b)) (cs_b * c) + R) else 0)); [lia| |].
    { intros R c Hc. case_match; [|done]. by rewrite Hel. }
    apply bf16_col_kernel_ok; [lia|by exists 1|done|].
    intros len kr c Hlen. destruct (Z.ltb_spec c rem).
    + rewrite bf16_load_col_image by done. apply list_fmap_ext. intros i x _. case_match; [|done].
      f_equal. unfold bf16_at. lia.
    + unfold _mm512_setzero_si512. symmetry.
      rewrite (list_fmap_ext _ (fun _ => 0)) by (intros i x _; by case_match). done.
Qed.

(** The kernel out of a row- or column-major matrix. *)
Lemma bf16_packb_ok m : unit_stride rs_b cs_b ->
  cols_ok bf16_elem n0 (2 * k0) dst None (round_up n0 16) m
    (dlp_packb_nr64_bf16bf16f32of32 B m dst src rs_b cs_b n0 k0).1.
Proof using Hn0 Hk0.
  intros Hu. unfold dlp_packb_nr64_bf16bf16f32of32. destruct (Z.eqb_spec cs_b 1) as [Hcs|Hcs].
  - by apply bf16_row_major_ok.
  - destruct Hu as [|Hrs]; [done|]. by apply bf16_col_major_ok.
Qed.
End kernels.
