(* ===== verification/UnpackB16.v ===== *)
(** * The unpacking kernels of B for bf16 are correct

    Whatever packed matrix they are given, the kernels of [PackB16] put every element
    back at its place in a row- or column-major matrix and write nothing else. *)
From S2P Require Import Prelude DlpTypes ReorderLayout TeamMachine TeamCorrect Simd PackB8 PackB8Ok PackB8Laws PackB16 PackB16Ok.
From stdpp Require Import list.
#[local] Open Scope Z_scope.

Local Abbreviation round_up := dlp_reorder_round_up.

(** ** Memory that takes its final values

    The bytes of [X] have the final value [v], no other byte changes to anything else. *)
Record writes (v : Z -> Z) (X : Z -> Prop) (m m' : mem) : Prop := mk_writes {
  wr_in : forall a, X a -> m' a = v a;
  wr_mono : forall a, m' a = v a \/ m' a = m a;
  wr_out : forall a, ~ X a -> m' a = m a;
}.

Section writes.
Context (v : Z -> Z).

Lemma writes_none X m : (forall a, ~ X a) -> writes v X m m.
Proof. intros HX. split; [by intros a ?%HX|by right|done]. Qed.

Lemma writes_trans X Y Z m m1 m2 : (forall a, Z a <-> X a \/ Y a) ->
  writes v X m m1 -> writes v Y m1 m2 -> writes v Z m m2.
Proof.
  intros HZ [I1 M1 O1] [I2 M2 O2]. split.
  - intros a [HX|HY]%HZ; [|by apply I2]. destruct (M2 a) as [|E]; [done|]. rewrite E. by apply I1.
  - intros a. destruct (M2 a) as [|E]; [by left|]. rewrite E. apply M1.
  - intros a Ha. rewrite HZ in Ha. rewrite O2, O1; tauto.
Qed.

Lemma writes_ext X Y m m' : (forall a, X a <-> Y a) -> writes v X m m' -> writes v Y m m'.
Proof. intros H. apply (writes_trans (fun _ => False) X Y m m m'); [intros a; rewrite <- H; tauto|by apply writes_none; auto]. Qed.

(** The last store first. *)
Lemma writes_after X Y m m1 m2 : writes v Y m1 m2 -> writes v X m m1 -> writes v (fun a => X a \/ Y a) m m2.
Proof. intros HY HX. by eapply writes_trans. Qed.

Lemma writes_prefix n m m' p x :
  (forall y, m' y = prefix_store n m p x y) -> (forall i, 0 <= i < n -> byte_at x i = v (p + i)) ->
  writes v (fun a => p <= a < p + n) m m'.
Proof.
  intros Hm Hx. assert (forall a, p <= a < p + n -> m' a = v a) as Hin.
  { intros a Ha. rewrite Hm. unfold prefix_store. rewrite fill_in, Hx by lia. f_equal. lia. }
  assert (forall a, ~ (p <= a < p + n) -> m' a = m a) as Hout.
  { intros a Ha. rewrite Hm. apply fill_out. lia. }
  split; [done| |done]. intros a. destruct (decide (p <= a < p + n)); [left|right]; auto.
Qed.

(** Storing the registers of an element range. *)
Lemma writes_storeu m p x :
  (forall i, 0 <= i < Z.of_nat (length x) -> byte_at x i = v (p + i)) ->
  writes v (fun a => p <= a < p + Z.of_nat (length x)) m (_mm512_storeu_si512 m p x).
Proof. intros Hx. apply (writes_prefix _ _ _ _ x); [|done]. intros y. apply storeu_prefix. Qed.

Lemma writes_mask16 m p n x : 0 <= n -> 2 * n <= Z.of_nat (length x) ->
  (forall i, 0 <= i < 2 * n -> byte_at x i = v (p + i)) ->
  writes v (fun a => p <= a < p + 2 * n) m (_mm512_mask_storeu_epi16 m p (Z.ones n) x).
Proof. intros Hn Hl Hx. apply (writes_prefix _ _ _ _ x); [|done]. intros y. by apply mask_storeu_prefix. Qed.

(** A loop. *)
Lemma writes_foldl {A} (f : mem -> A -> mem) (X : A -> Z -> Prop) l m :
  (forall m x, x ∈ l -> writes v (X x) m (f m x)) -> writes v (fun a => exists x, x ∈ l /\ X x a) m (foldl f m l).
Proof.
  revert m. induction l as [|x l IH]; intros m Hf.
  - apply writes_none. intros a (x & Hx & _). by apply elem_of_nil in Hx.
  - cbn [foldl]. eapply writes_trans; [|apply Hf; left|apply IH; intros; apply Hf; by right].
    intros a. cbn. setoid_rewrite elem_of_cons. naive_solver.
Qed.
End writes.

(** ** Picking a row of a pair *)

Lemma byte_at_list (x : vec) n : length x = Z.to_nat n -> x = byte_at x <$> seqZ 0 n.
Proof.
  intros Hx. apply list_eq. intros i. rewrite list_lookup_fmap. destruct (decide (Z.of_nat i < n)).
  - rewrite (proj2 (lookup_seqZ 0 n i (Z.of_nat i))) by lia. cbn. unfold byte_at. rewrite Nat2Z.id.
    apply list_lookup_lookup_total_lt. lia.
  - rewrite !lookup_ge_None_2; [done|rewrite length_seqZ; lia|lia].
Qed.

Definition selector (h : Z) : list Z := if h =? 0 then selector_even else selector_odd.

Lemma length_permute16 (y : vec) h (a : vec) : length y = 64%nat -> length a = 64%nat ->
  length (_mm512_permutex2var_epi16 y (selector h) a) = 64%nat.
Proof.
  intros Hy Ha. rewrite (byte_at_list y 64 Hy), (byte_at_list a 64 Ha).
  unfold selector. by destruct (h =? 0).
Qed.

Lemma permute16_byte (y : vec) h (a : vec) i : (h = 0 \/ h = 1) -> length y = 64%nat -> length a = 64%nat -> 0 <= i < 64 ->
  byte_at (_mm512_permutex2var_epi16 y (selector h) a) i =
  byte_at (if i <? 32 then a else y) (4 * ((i mod 32) / 2) + 2 * h + i mod 2).
Proof.
  intros Hh Hy Ha Hi. set (f := fun k => if k <? 64 then byte_at a k else byte_at y (k - 64)).
  assert (a = f <$> seqZ 0 64) as Ea.
  { rewrite (byte_at_list a 64 Ha) at 1. apply list_fmap_ext. intros ix k Hk%lookup_seqZ. unfold f. by rewrite (proj2 (Z.ltb_lt k 64)) by lia. }
  assert (y = f <$> seqZ 64 64) as Ey.
  { rewrite (byte_at_list y 64 Hy) at 1. rewrite (seqZ_from_0 64), <- list_fmap_compose. apply list_fmap_ext. intros ix k Hk%lookup_seqZ.
    cbn. unfold f. rewrite (proj2 (Z.ltb_ge (64 + k) 64)) by lia. f_equal. lia. }
  rewrite Ea, Ey at 1. rewrite permutex2var16_natural.
  assert (_mm512_permutex2var_epi16 (seqZ 64 64) (selector h) (seqZ 0 64) = (fun i => 4 * (i / 2) + 2 * h + i mod 2) <$> seqZ 0 64) as ->
    by (destruct Hh as [-> | ->]; vm_compute; reflexivity).
  rewrite <- list_fmap_compose, byte_at_image by done. cbn. unfold f.
  pose proof (Z.mod_pos_bound i 2 ltac:(lia)). destruct (Z.ltb_spec i 32).
  - rewrite (Z.mod_small i 32) by lia. assert (i / 2 <= 15) by dlia. by rewrite (proj2 (Z.ltb_lt _ 64)) by lia.
  - assert (16 <= i / 2) by dlia. rewrite (proj2 (Z.ltb_ge _ 64)) by lia. f_equal.
    assert (i mod 32 = i - 32) as -> by (symmetry; apply (Z.mod_unique i 32 1); lia). dlia.
Qed.

(** ** The row-major kernels *)
Section row_major.
Context (P : mem) (v : Z -> Z) (p u w n0 KC ldb : Z).
Hypothesis HKC : 0 <= KC.
Hypothesis Hn0 : 0 <= n0 <= w.
(** The panel at [p], [w] columns wide, holds the final values of [n0] columns. *)
Hypothesis HP : forall R c, 0 <= R < 2 * KC -> 0 <= c < n0 ->
  P (p + w * (4 * (R / 4)) + 4 * c + R mod 4) = v (bf16_at u (ldb * (R / 2) + c) + R mod 2).

(** [W] elements of row [r] from column [off]. *)
Definition segment (r off W a : Z) : Prop :=
  bf16_at u (ldb * r + off) <= a < bf16_at u (ldb * r + off) + 2 * W.

(** Sixteen columns of the pair of rows from [kr]. *)
Lemma pair_byte kr off h i : 0 <= kr -> (2 | kr) -> h = 0 \/ h = 1 -> kr + h < KC -> 0 <= off -> 0 <= i < 32 -> off + i / 2 < n0 ->
  byte_at (_mm512_loadu_si512 P (p + w * (2 * kr) + 4 * off)) (4 * (i / 2) + 2 * h + i mod 2) =
  v (bf16_at u (ldb * (kr + h) + off) + i).
Proof using HP.
  intros Hkr [q Hq] Hh HhK Hoff Hi Hin. pose proof (Z.mod_pos_bound i 2 ltac:(lia)). assert (0 <= i / 2 < 16) by dlia.
  unfold _mm512_loadu_si512, loadu. rewrite byte_at_image by lia.
  specialize (HP (2 * kr + 2 * h + i mod 2) (off + i / 2) ltac:(lia) ltac:(lia)).
  destruct (quotient_rest 4 q (2 * h + i mod 2) ltac:(lia)) as [E1 E2].
  destruct (quotient_rest 2 (kr + h) (i mod 2) ltac:(lia)) as [E3 E4].
  replace (2 * kr + 2 * h + i mod 2) with (4 * q + (2 * h + i mod 2)) in HP at 1 2 by lia. rewrite E1, E2 in HP.
  replace (2 * kr + 2 * h + i mod 2) with (2 * (kr + h) + i mod 2) in HP by lia. rewrite E3, E4 in HP.
  replace (p + w * (2 * kr) + 4 * off + (4 * (i / 2) + 2 * h + i mod 2))
    with (p + w * (4 * q) + 4 * (off + i / 2) + (2 * h + i mod 2)) by (rewrite Hq; lia).
  rewrite HP. f_equal. unfold bf16_at. pose proof (Z.div_mod i 2). lia.
Qed.

(** The register of 32 columns of a row, and the first 16 of one. *)
Lemma pick_byte y kr off h i : 0 <= kr -> (2 | kr) -> h = 0 \/ h = 1 -> kr + h < KC -> 0 <= off -> length y = 64%nat ->
  (i < 32 \/ y = _mm512_loadu_si512 P (p + w * (2 * kr) + 4 * (off + 16))) ->
  0 <= i < 64 -> off + i / 2 < n0 ->
  byte_at (_mm512_permutex2var_epi16 y (selector h) (_mm512_loadu_si512 P (p + w * (2 * kr) + 4 * off))) i =
  v (bf16_at u (ldb * (kr + h) + off) + i).
Proof using HP.
  intros Hkr H2 Hh HhK Hoff Hy Hyi Hi Hin. rewrite permute16_byte by done. destruct (Z.ltb_spec i 32).
  - rewrite (Z.mod_small i 32) by lia. apply pair_byte; done || lia.
  - destruct Hyi as [|E]; [lia|]. rewrite E. assert (i mod 32 = i - 32) as -> by (symmetry; apply (Z.mod_unique i 32 1); lia).
    replace (i mod 2) with ((i - 32) mod 2) by dlia.
    assert ((i - 32) / 2 = i / 2 - 16) by dlia.
    rewrite pair_byte by (done || lia). f_equal. unfold bf16_at. lia.
Qed.

Lemma write32 m kr off h d y a : 0 <= kr -> (2 | kr) -> h = 0 \/ h = 1 -> kr + h < KC -> 0 <= off -> off + 32 <= n0 ->
  d = bf16_at u (ldb * (kr + h) + off) ->
  y = _mm512_loadu_si512 P (p + w * (2 * kr) + 4 * (off + 16)) -> a = _mm512_loadu_si512 P (p + w * (2 * kr) + 4 * off) ->
  writes v (segment (kr + h) off 32) m (_mm512_storeu_si512 m d (_mm512_permutex2var_epi16 y (selector h) a)).
Proof using HP.
  intros Hkr H2 Hh HhK Hoff Hn -> Ey ->. assert (length y = 64%nat) as Hy by by rewrite Ey.
  assert (Z.of_nat (length (_mm512_permutex2var_epi16 y (selector h) (_mm512_loadu_si512 P (p + w * (2 * kr) + 4 * off)))) = 64) as El
    by by rewrite length_permute16.
  eapply writes_ext; [|apply writes_storeu; rewrite El]; [intros a; unfold segment; rewrite El; lia|].
  intros i Hi. apply pick_byte; try done; [by right|dlia].
Qed.

Lemma write16 m kr off h d y a n mask : 0 <= kr -> (2 | kr) -> h = 0 \/ h = 1 -> kr + h < KC -> 0 <= off -> 0 <= n <= 16 -> off + n <= n0 ->
  d = bf16_at u (ldb * (kr + h) + off) -> length y = 64%nat -> a = _mm512_loadu_si512 P (p + w * (2 * kr) + 4 * off) ->
  mask = Z.ones n ->
  writes v (segment (kr + h) off n) m (_mm512_mask_storeu_epi16 m d mask (_mm512_permutex2var_epi16 y (selector h) a)).
Proof using HP.
  intros Hkr H2 Hh HhK Hoff Hn Hon -> Hy -> ->.
  apply writes_mask16; [lia|rewrite length_permute16 by done; lia|].
  intros i Hi. apply pick_byte; try done; [left; lia|lia|]. assert (i / 2 < n) by (apply Z.div_lt_upper_bound; lia). lia.
Qed.

Lemma segment_split r W1 W2 a : 0 <= W1 -> 0 <= W2 -> segment r 0 (W1 + W2) a <-> segment r 0 W1 a \/ segment r W1 W2 a.
Proof using. unfold segment, bf16_at. lia. Qed.

(** The loop over the rows. *)
Lemma unpack_row_loop_ok inc both last m :
  (forall m kr kn, 0 <= kr -> kr + 2 <= KC -> (2 | kr) -> 2 * kn = inc * kr ->
     writes v (fun a => segment kr 0 n0 a \/ segment (kr + 1) 0 n0 a) m (both m kr kn)) ->
  (forall m kr kn, 0 <= kr -> kr + 1 = KC -> (2 | kr) -> 2 * kn = inc * kr ->
     writes v (segment kr 0 n0) m (last m kr kn)) ->
  writes v (fun a => exists r, 0 <= r < KC /\ segment r 0 n0 a) m (unpack_row_loop KC inc both last m).
Proof using HKC.
  intros Hboth Hlast. unfold unpack_row_loop. rewrite cquot_nonneg, crem_nonneg by lia.
  pose proof (Z.div_mod KC 2 ltac:(lia)) as Ek. pose proof (Z.mod_pos_bound KC 2 ltac:(lia)) as Hr.
  set (kf := KC / 2 * 2). assert (0 <= kf) by (unfold kf; dlia).
  destruct (loop_points_foldl (fun st kr => (both st.1 kr st.2, st.2 + inc))
    (fun kr st => writes v (fun a => exists r, 0 <= r < kr /\ segment r 0 n0 a) m st.1 /\ 2 * st.2 = inc * kr) 2 kf ltac:(lia) 0 (m, 0))
    as (e & [He Hn] & He1 & He2 & He3 & [q Hq] & He4).
  { split; cbn [fst snd]; [|lia]. apply writes_none. intros a (r & ? & _). lia. }
  { intros kr [m1 kn] Hkr Hlt [q Hq] [Hm1 Hkn]. cbn [fst snd] in *. split; [|lia].
    eapply writes_trans; [|exact Hm1|apply Hboth; [lia|unfold kf in Hlt; lia|exists q; lia|done]].
    intros a. cbn. split.
    - intros (r & Hr' & Ha). destruct (decide (r < kr)); [left; by exists r; split; [lia|]|right].
      destruct (decide (r = kr)) as [->|]; [by left|right]. by replace (kr + 1) with r by lia.
    - intros [(r & Hr' & Ha)|[Ha|Ha]]; [exists r|exists kr|exists (kr + 1)]; (split; [lia|done]). }
  assert (e = kf) as -> by (destruct (decide (0 < kf)); [unfold kf in *; lia|rewrite He4; unfold kf in *; lia]).
  destruct (foldl _ _ _) as [m1 kn]. cbn [fst snd] in *. destruct (Z.ltb_spec 0 (KC mod 2)).
  - eapply writes_trans; [|exact He|apply Hlast; [lia|unfold kf; lia|exists (KC / 2); unfold kf; lia|done]].
    intros a. cbn. split.
    + intros (r & Hr' & Ha). destruct (decide (r < kf)); [left; by exists r; split; [lia|]|right].
      by replace kf with r by (unfold kf in *; lia).
    + intros [(r & Hr' & Ha)|Ha]; [exists r|exists kf]; (split; [unfold kf in *; lia|done]).
  - replace KC with kf by (unfold kf; lia). done.
Qed.
End row_major.

(** The five kernels. *)
Section row_kernels.
Context (P : mem) (v : Z -> Z) (p u KC ldb : Z).
Hypothesis HKC : 0 <= KC.

(** The panel at [p] holds [n0] of [w] columns of the matrix at [u], by rows. *)
Definition holds_rows (w n0 : Z) : Prop := forall R c, 0 <= R < 2 * KC -> 0 <= c < n0 ->
  P (p + w * (4 * (R / 4)) + 4 * c + R mod 4) = v (bf16_at u (ldb * (R / 2) + c) + R mod 2).

Definition rows_of (n0 a : Z) : Prop := exists r, 0 <= r < KC /\ segment u ldb r 0 n0 a.

(** A chain of stores of parts of the pair of rows from [kr], as the list of these parts:
    the column and the parity of each. *)
Ltac part32 HP kr off h :=
  apply (write32 _ _ _ _ _ _ _ _ HP _ kr off h);
    [done|done|lia|lia|lia|lia|unfold bf16_at; lia|f_equal; unfold bf16_at; lia|f_equal; unfold bf16_at; lia].
Ltac part16 HP kr off h n :=
  apply (write16 _ _ _ _ _ _ _ _ HP _ kr off h _ _ _ n);
    [done|done|lia|lia|lia|lia|lia|unfold bf16_at; lia|done|f_equal; unfold bf16_at; lia|done].
Ltac parts tac := eapply writes_ext; cycle 1; [tac|intros a; unfold segment, bf16_at; lia].

Lemma bf16_unpack_nr64_ok m : holds_rows 64 64 ->
  writes v (rows_of 64) m (bf16_unpackb_nr64_panel P p u KC ldb m).
Proof using HKC.
  intros HP. apply (unpack_row_loop_ok v u 64 KC ldb HKC); intros m1 kr kn Hkr HkK H2 _; cbv zeta;
    change selector_even with (selector 0); change selector_odd with (selector 1).
  - parts ltac:(eapply writes_after; [part32 HP kr 32 1|eapply writes_after; [part32 HP kr 0 1|eapply writes_after; [part32 HP kr 32 0|part32 HP kr 0 0]]]).
  - parts ltac:(eapply writes_after; [part32 HP kr 32 0|part32 HP kr 0 0]).
Qed.

Lemma bf16_unpack_nr48_ok m : holds_rows 48 48 ->
  writes v (rows_of 48) m (dlp_unpackb_nr48_bf16bf16f32of32_row_major P p u KC ldb m).
Proof using HKC.
  intros HP. apply (unpack_row_loop_ok v u 48 KC ldb HKC); intros m1 kr kn Hkr HkK H2 Hkn; cbv zeta;
    change selector_even with (selector 0); change selector_odd with (selector 1).
  - parts ltac:(eapply writes_after; [part16 HP kr 32 1 16|eapply writes_after; [part16 HP kr 32 0 16|eapply writes_after; [part32 HP kr 0 1|part32 HP kr 0 0]]]).
  - parts ltac:(eapply writes_after; [part16 HP kr 32 0 16|part32 HP kr 0 0]).
Qed.

Lemma bf16_unpack_nr32_ok m : holds_rows 32 32 ->
  writes v (rows_of 32) m (dlp_unpackb_nr32_bf16bf16f32of32_row_major P p u KC ldb m).
Proof using HKC.
  intros HP. apply (unpack_row_loop_ok v u 32 KC ldb HKC); intros m1 kr kn Hkr HkK H2 _; cbv zeta;
    change selector_even with (selector 0); change selector_odd with (selector 1).
  - parts ltac:(eapply writes_after; [part32 HP kr 0 1|part32 HP kr 0 0]).
  - parts ltac:(part32 HP kr 0 0).
Qed.

Lemma bf16_unpack_nrlt16_ok n0 m : 0 <= n0 <= 16 -> holds_rows 16 n0 ->
  writes v (rows_of n0) m (dlp_unpackb_nrlt16_bf16bf16f32of32_row_major P p u KC ldb n0 m).
Proof using HKC.
  intros Hn HP. assert (Z.shiftr 0xFFFF (16 - n0) = Z.ones n0) as Em.
  { apply Z.bits_inj'. intros i Hi. rewrite Z.shiftr_spec by done. change 0xFFFF with (Z.ones 16). destruct (Z.ltb_spec i n0).
    - by rewrite !Z.ones_spec_low by lia.
    - by rewrite !Z.ones_spec_high by lia. }
  apply (unpack_row_loop_ok v u n0 KC ldb HKC); intros m1 kr kn Hkr HkK H2 _; cbv zeta; rewrite Em;
    change selector_even with (selector 0); change selector_odd with (selector 1).
  - parts ltac:(eapply writes_after; [part16 HP kr 0 1 n0|part16 HP kr 0 0 n0]).
  - parts ltac:(part16 HP kr 0 0 n0).
Qed.

Lemma bf16_unpack_nr16_ok m : holds_rows 16 16 ->
  writes v (rows_of 16) m (dlp_unpackb_nr16_bf16bf16f32of32_row_major P p u KC ldb m).
Proof using HKC. apply (bf16_unpack_nrlt16_ok 16). lia. Qed.
End row_kernels.

(** ** The column-major kernels *)

(** Sixteen registers. *)
Definition sixteen_regs (l : list vec) : Prop := length l = 16%nat /\ Forall (fun r => length r = 64%nat) l.

Lemma transpose16_bytes l : sixteen_regs l ->
  sixteen_regs (transpose16 l) /\
  forall i o, 0 <= i < 16 -> 0 <= o < 64 ->
    byte_at (transpose16 l !!! Z.to_nat i) o = byte_at (l !!! Z.to_nat (o / 4)) (4 * i + o mod 4).
Proof.
  intros [Hl HF]. set (g := fun k => byte_at (l !!! Z.to_nat (k / 64)) (k mod 64)).
  assert (l = (fun j => g <$> seqZ (64 * j) 64) <$> seqZ 0 16) as El.
  { apply list_eq. intros i. rewrite list_lookup_fmap. destruct (decide (Z.of_nat i < 16)).
    - rewrite (proj2 (lookup_seqZ 0 16 i (Z.of_nat i))) by lia. cbn [fmap option_fmap option_map].
      destruct (lookup_lt_is_Some_2 l i ltac:(lia)) as [r Hr]. rewrite Hr. f_equal.
      rewrite (byte_at_list r 64) by (rewrite Forall_lookup in HF; by apply (HF i)).
      rewrite (seqZ_from_0 (64 * _)), <- list_fmap_compose. apply list_fmap_ext. intros ix k Hk%lookup_seqZ. cbn. unfold g.
      destruct (quotient_rest 64 (Z.of_nat i) k ltac:(lia)) as [-> ->]. by rewrite Nat2Z.id, (list_lookup_total_correct l i r).
    - rewrite !lookup_ge_None_2; [done|rewrite length_seqZ; lia|lia]. }
  assert (transpose16 l = (fun t => g <$> regrouped t) <$> seqZ 0 16) as -> by (rewrite El at 1; apply transpose16_ok).
  split; [split; [done|]|].
  - apply Forall_fmap, Forall_forall. intros t _. cbn. by rewrite length_fmap.
  - intros i o Hi Ho. pose proof (Z.mod_pos_bound o 4 ltac:(lia)).
    rewrite (list_lookup_total_correct _ _ (g <$> regrouped i)) by (rewrite list_lookup_fmap, (proj2 (lookup_seqZ 0 16 (Z.to_nat i) i)) by lia; done).
    unfold regrouped. rewrite <- list_fmap_compose, byte_at_image by done. cbn. unfold g.
    by destruct (quotient_rest 64 (o / 4) (4 * i + o mod 4) ltac:(lia)) as [-> ->].
Qed.

Section col_major.
Context (P : mem) (v : Z -> Z) (p u NR KC ldb count ncols : Z).
Hypothesis HKC : 0 <= KC.
Hypothesis HNR : 0 < NR /\ (16 | NR).
Hypothesis Hcols : count = 16 /\ ncols = NR \/ NR = 16 /\ ncols = count /\ 0 <= count <= 16.

(** The panel at [p] holds [ncols] columns of the matrix at [u], by columns. *)
Definition holds_cols : Prop := forall R c, 0 <= R < 2 * KC -> 0 <= c < ncols ->
  P (p + NR * (4 * (R / 4)) + 4 * c + R mod 4) = v (bf16_at u (ldb * c) + R).
Hypothesis HP : holds_cols.

(** The elements of rows [lo] to [hi] of column [c]. *)
Definition column_run (lo hi c a : Z) : Prop := bf16_at u (ldb * c + lo) <= a < bf16_at u (ldb * c + hi).
Definition columns_of (lo hi a : Z) : Prop := exists c, 0 <= c < ncols /\ column_run lo hi c a.

Section block.
Context (len regs kr : Z).
Hypothesis Hlen : 0 < len <= 32.
Hypothesis Hregs : regs = (2 * len + 3) / 4.
Hypothesis Hkr : 0 <= kr /\ (2 | kr) /\ kr + len <= KC.

(** The registers of the turn at [jr]. *)
Lemma block_regs l jr : sixteen_regs l ->
  let l' := ((fun i => _mm512_loadu_si512 P (bf16_at p (jr * 2 + (kr + 2 * i) * NR))) <$> seqZ 0 regs) ++ drop (Z.to_nat regs) l in
  sixteen_regs l' /\ forall t, 0 <= t < regs -> l' !!! Z.to_nat t = _mm512_loadu_si512 P (bf16_at p (jr * 2 + (kr + 2 * t) * NR)).
Proof using Hlen Hregs.
  intros [Hl HF] l'. subst l'. assert (0 < regs <= 16) as Hr by (rewrite Hregs; dlia). split; [split|].
  - rewrite length_app, length_fmap, length_seqZ, length_drop. lia.
  - apply Forall_app. split; [|by apply Forall_drop]. apply Forall_fmap, Forall_forall. by intros t _.
  - intros t Ht. rewrite lookup_total_app_l by (rewrite length_fmap, length_seqZ; lia).
    apply list_lookup_total_correct. by rewrite list_lookup_fmap, (proj2 (lookup_seqZ 0 regs (Z.to_nat t) t)) by lia.
Qed.

Lemma unpack_block_ok m l jr : sixteen_regs l -> 0 <= jr -> jr + count <= ncols -> 0 <= count <= 16 ->
  let st := bf16_unpack_block P p u NR ldb count len regs kr (m, l) jr in
  writes v (fun a => exists c, jr <= c < jr + count /\ column_run kr (kr + len) c a) m st.1 /\ sixteen_regs st.2.
Proof using HP Hlen Hregs Hkr.
  intros Hl Hjr Hjc Hcnt. unfold bf16_unpack_block. cbv zeta. cbn [fst snd].
  destruct (block_regs l jr Hl) as [Hl' Hlk]. set (l' := _ ++ _) in *.
  destruct (transpose16_bytes l' Hl') as [Ht Hb]. split; [|done].
  eapply writes_ext; [|apply (writes_foldl v _ (fun i => column_run kr (kr + len) (jr + i)))].
  { intros a. cbn. setoid_rewrite elem_of_seqZ. split.
    - intros (i & Hi & Ha). exists (jr + i). split; [lia|done].
    - intros (c & Hc & Ha). exists (c - jr). replace (jr + (c - jr)) with c by lia. split; [lia|done]. }
  intros m1 i Hi%elem_of_seqZ.
  assert (length (transpose16 l' !!! Z.to_nat i) = 64%nat) as Hlen64.
  { destruct Ht as [Ht1 Ht2]. rewrite Forall_lookup in Ht2. apply (Ht2 (Z.to_nat i)). apply list_lookup_lookup_total_lt. lia. }
  assert (forall o, 0 <= o < 2 * len -> byte_at (transpose16 l' !!! Z.to_nat i) o = v (bf16_at u (ldb * (jr + i) + kr) + o)) as Hby.
  { intros o Ho. pose proof (Z.mod_pos_bound o 4 ltac:(lia)). assert (0 <= o / 4 < regs) by (rewrite Hregs; dlia).
    destruct Hkr as (Hk0 & [q Hq] & HkK).
    rewrite Hb, Hlk by lia. unfold _mm512_loadu_si512, loadu. rewrite byte_at_image by lia.
    specialize (HP (2 * kr + o) (jr + i) ltac:(lia) ltac:(lia)).
    assert ((2 * kr + o) / 4 = q + o / 4 /\ (2 * kr + o) mod 4 = o mod 4) as [E1 E2] by (rewrite Hq; dlia).
    rewrite E1, E2 in HP.
    replace (bf16_at p (jr * 2 + (kr + 2 * (o / 4)) * NR) + (4 * i + o mod 4))
      with (p + NR * (4 * (q + o / 4)) + 4 * (jr + i) + o mod 4) by (unfold bf16_at; rewrite Hq; lia).
    rewrite HP. f_equal. unfold bf16_at. lia. }
  destruct (Z.eqb_spec len 32) as [E|E].
  - eapply writes_ext; [|apply writes_storeu; rewrite Hlen64; intros o Ho; apply Hby; lia].
    intros a. unfold column_run, bf16_at. rewrite Hlen64. lia.
  - eapply writes_ext; [|apply writes_mask16; [lia|lia|exact Hby]]. intros a. unfold column_run, bf16_at. lia.
Qed.

Lemma unpack_blocks_ok m l : sixteen_regs l ->
  let st := foldl (bf16_unpack_block P p u NR ldb count len regs kr) (m, l) (loop_points 0 NR 16) in
  writes v (columns_of kr (kr + len)) m st.1 /\ sixteen_regs st.2.
Proof using HP Hlen Hregs Hkr HNR Hcols.
  intros Hl. destruct HNR as [HN0 [d Hd]].
  destruct (loop_points_foldl (bf16_unpack_block P p u NR ldb count len regs kr)
    (fun jr st => writes v (fun a => exists c, 0 <= c < Z.min jr ncols /\ column_run kr (kr + len) c a) m st.1 /\ sixteen_regs st.2) 16 NR
    ltac:(lia) 0 (m, l)) as (e & [Hw Hr] & He1 & _ & He2 & [q Hq] & _).
  - split; [|done]. apply writes_none. intros a (c & Hc & _). lia.
  - intros jr [m1 l1] Hjr HjN [t Ht] [Hw Hr]. cbn [fst snd] in *.
    destruct (unpack_block_ok m1 l1 jr Hr) as [Hw' Hr']; [lia|lia|lia|]. split; [|exact Hr'].
    eapply writes_trans; [|exact Hw|exact Hw']. intros a. cbn. split.
    + intros (c & Hc & Ha). destruct (decide (c < jr)); [left|right]; exists c; (split; [lia|done]).
    + intros [(c & Hc & Ha)|(c & Hc & Ha)]; exists c; (split; [lia|done]).
  - split; [|exact Hr]. eapply writes_ext; [|exact Hw]. intros a. unfold columns_of.
    by replace (Z.min e ncols) with ncols by lia.
Qed.
End block.

Context (m : mem).

Definition unpack_level_inv (bound : Z) (st : mem * list vec * Z) : Prop :=
  0 <= st.2 <= KC /\ KC - st.2 < bound /\ (st.2 < KC -> (2 | st.2)) /\
  writes v (columns_of 0 st.2) m st.1.1 /\ sixteen_regs st.1.2.

Lemma unpack_level_ok len regs bound st :
  0 < len <= 32 -> regs = (2 * len + 3) / 4 -> (2 | len) \/ bound <= len + 1 -> unpack_level_inv bound st ->
  unpack_level_inv len (bf16_unpack_level P p u NR KC ldb count len regs st).
Proof using HKC HP HNR Hcols.
  intros Hlen Hregs Hl2 Hst. unfold bf16_unpack_level.
  match goal with |- unpack_level_inv _ (foldl ?f _ _) => set (step := f) end.
  destruct (loop_points_foldl step (fun x st => unpack_level_inv bound st /\ st.2 = x) len (KC - (len - 1))
    ltac:(lia) st.2 st) as (e & [Hi <-] & He & _); [done| |].
  - intros x [[m0 l0] kr] Hx Hhi _ [(Hkr & Hb & H2 & Hw & Hr) Ekr]. cbn [fst snd] in *. subst x.
    destruct (H2 ltac:(lia)) as [q Hq].
    destruct (unpack_blocks_ok len regs kr Hlen Hregs) with (m := m0) (l := l0) as [Hw' Hr']; [split_and!; [lia|by exists q|lia]|done|].
    subst step. cbn [fst snd]. split; [|done]. split_and!; cbn [fst snd]; [lia|lia|lia| | |exact Hr'].
    + intros HK. destruct Hl2 as [[t Ht]|]; [exists (q + t); lia|lia].
    + eapply writes_trans; [|exact Hw|exact Hw']. intros a. unfold columns_of, column_run, bf16_at. split.
      * intros (c & Hc & Ha). destruct (decide (a < u + 2 * (ldb * c + kr))); [left|right]; exists c; lia.
      * intros [(c & Hc & Ha)|(c & Hc & Ha)]; exists c; lia.
  - destruct Hi as (H1 & H3 & H4 & H5 & H6). split_and!; done || lia.
Qed.

Lemma bf16_unpack_kernel_ok : writes v (columns_of 0 KC) m (bf16_unpack_kernel P p u NR KC ldb count m).
Proof using HKC HP HNR Hcols.
  assert (unpack_level_inv (KC + 1) (m, replicate 16 _mm512_setzero_si512, 0)) as H0.
  { split_and!; cbn [fst snd]; try lia; [intros _; by exists 0| |].
    - apply writes_none. intros a (c & _ & Ha). unfold column_run in Ha. lia.
    - split; [done|]. repeat constructor. }
  unfold bf16_unpack_kernel. cbv zeta.
  match goal with |- writes _ _ _ (fst (fst ?st)) => assert (unpack_level_inv 1 st) as (Hk & Hlt & _ & Hm & _) end.
  - apply (unpack_level_ok 1 _ 2); [lia|reflexivity|by right|].
    apply (unpack_level_ok 2 _ 4); [lia|reflexivity|left; by exists 1|].
    apply (unpack_level_ok 4 _ 8); [lia|reflexivity|left; by exists 2|].
    apply (unpack_level_ok 8 _ 16); [lia|reflexivity|left; by exists 4|].
    apply (unpack_level_ok 16 _ 32); [lia|reflexivity|left; by exists 8|].
    apply (unpack_level_ok 32 _ (KC + 1)); [lia|reflexivity|left; by exists 16|]. exact H0.
  - by replace (snd _) with KC in Hm by lia.
Qed.
End col_major.

(** ** All columns *)
Section unpack.
Context (P : mem) (v : Z -> Z) (b u rs_b cs_b n0 k0 : Z).
Hypothesis Hn0 : 0 <= n0.
Hypothesis Hk0 : 0 <= k0.

(** The packed panel at [b] holds the matrix at [u]. *)
Definition holds_panel : Prop := forall R c, 0 <= R < 2 * k0 -> 0 <= c < n0 ->
  P (b + panel_pos 64 n0 (2 * k0) R c) = v (bf16_at u (rs_b * (R / 2) + cs_b * c) + R mod 2).
Hypothesis HP : holds_panel.

(** The bytes of the first [n] columns. *)
Definition matrix_bytes (n a : Z) : Prop := exists r c, 0 <= r < k0 /\ 0 <= c < n /\
  bf16_at u (rs_b * r + cs_b * c) <= a < bf16_at u (rs_b * r + cs_b * c) + 2.

(** A chunk of [w] columns from [n], of which [nc] are there. *)
Lemma chunk_holds n w nc R c :
  0 <= n -> nc <= w -> n + nc <= n0 -> (forall c, n <= c < n + nc -> chunk_of n0 64 16 c = (n, w)) ->
  0 <= R < 2 * k0 -> 0 <= c < nc ->
  P (bf16_at b (n * bf16_KC_updated k0) + w * (4 * (R / 4)) + 4 * c + R mod 4) =
  v (bf16_at u (rs_b * (R / 2) + cs_b * (n + c)) + R mod 2).
Proof using HP Hk0.
  intros Hn Hw Hnc Hch HR Hc. rewrite <- HP by lia. f_equal.
  rewrite (pos_in_chunk n0 (2 * k0) R (n + c) n w) by (lia || apply Hch; lia).
  rewrite <- bf16_KC_updated_eq by done. unfold bf16_at. lia.
Qed.

Lemma matrix_bytes_add n nc m m1 m2 (X : Z -> Prop) : 0 <= n -> 0 <= nc ->
  (forall a, X a <-> exists r c, 0 <= r < k0 /\ 0 <= c < nc /\
     bf16_at u (rs_b * r + cs_b * (n + c)) <= a < bf16_at u (rs_b * r + cs_b * (n + c)) + 2) ->
  writes v (matrix_bytes n) m m1 -> writes v X m1 m2 -> writes v (matrix_bytes (n + nc)) m m2.
Proof using.
  intros Hn Hnc HX. apply writes_trans. intros a. rewrite HX. unfold matrix_bytes. split.
  - intros (r & c & Hr & Hc & Ha). destruct (decide (c < n)); [left; exists r, c; (split_and!; lia)|right].
    exists r, (c - n). replace (n + (c - n)) with c by lia. split_and!; lia.
  - intros [(r & c & Hr & Hc & Ha)|(r & c & Hr & Hc & Ha)]; [exists r, c|exists r, (n + c)]; split_and!; lia.
Qed.

(** Parts of rows and of columns, as bytes of the matrix. *)
Lemma rows_matrix n nc a : cs_b = 1 -> rows_of (bf16_at u n) k0 rs_b nc a <-> exists r c, 0 <= r < k0 /\ 0 <= c < nc /\
  bf16_at u (rs_b * r + cs_b * (n + c)) <= a < bf16_at u (rs_b * r + cs_b * (n + c)) + 2.
Proof using.
  intros ->. unfold rows_of, segment, bf16_at. split.
  - intros (r & Hr & Ha). exists r, ((a - (u + 2 * n + 2 * (rs_b * r))) / 2).
    set (o := a - _) in *. pose proof (Z.div_mod o 2). pose proof (Z.mod_pos_bound o 2).
    split; [done|]. split; [split; [apply Z.div_pos|apply Z.div_lt_upper_bound]|]; lia.
  - intros (r & c & Hr & Hc & Ha). exists r. lia.
Qed.

Lemma columns_matrix n nc a : rs_b = 1 -> columns_of (bf16_at u (n * cs_b)) cs_b nc 0 k0 a <-> exists r c, 0 <= r < k0 /\ 0 <= c < nc /\
  bf16_at u (rs_b * r + cs_b * (n + c)) <= a < bf16_at u (rs_b * r + cs_b * (n + c)) + 2.
Proof using.
  intros ->. unfold columns_of, column_run, bf16_at. split.
  - intros (c & Hc & Ha). exists ((a - (u + 2 * (n * cs_b) + 2 * (cs_b * c))) / 2), c.
    set (o := a - _) in *. pose proof (Z.div_mod o 2). pose proof (Z.mod_pos_bound o 2).
    split; [split; [apply Z.div_pos|apply Z.div_lt_upper_bound]|]; lia.
  - intros (r & c & Hr & Hc & Ha). exists c. lia.
Qed.

Lemma bf16_unpackb_ok m : unit_stride rs_b cs_b ->
  writes v (matrix_bytes n0) m (dlp_unpackb_nr64_bf16bf16f32of32 P m b u n0 k0 rs_b cs_b).
Proof using Hn0 Hk0 HP.
  intros Hu.
  assert (forall n m' (I : Z -> mem -> Prop), I = (fun n m' => writes v (matrix_bytes (Z.min n n0)) m m') ->
    n = round_up n0 16 -> I n m' -> writes v (matrix_bytes n0) m m') as Hend.
  { intros n m' I -> -> H. pose proof (round_up_bounds n0 16 ltac:(lia) ltac:(lia)). by rewrite Z.min_r in H by lia. }
  assert (writes v (matrix_bytes (Z.min 0 n0)) m m) as H0.
  { apply writes_none. intros a (r & c & _ & Hc & _). lia. }
  unfold dlp_unpackb_nr64_bf16bf16f32of32. destruct (Z.eqb_spec cs_b 1) as [Hcs|Hcs].
  - eapply Hend; [reflexivity..|]. apply split_columns_ind; [done|done|..]; cbn beta.
    + intros n w m1 Hn Hnw Hw _ Hch HI. rewrite Z.min_l in HI |- * by lia.
      eapply (matrix_bytes_add n w); [lia|lia|intros a; by apply rows_matrix|exact HI|].
      assert (holds_rows P v (bf16_at b (n * bf16_KC_updated k0)) (bf16_at u n) k0 rs_b w w) as Hh.
      { intros R c HR Hc. rewrite (chunk_holds n w w) by (done || lia). f_equal. rewrite Hcs. unfold bf16_at. lia. }
      destruct Hw as [-> | [-> | [-> | ->]]]; cbn [Z.eqb Pos.eqb];
        [by apply bf16_unpack_nr64_ok|by apply bf16_unpack_nr48_ok|by apply bf16_unpack_nr32_ok|by apply bf16_unpack_nr16_ok].
    + intros n rem m1 Hn Hrem En EN Hch HI. rewrite Z.min_l in HI by lia. rewrite Z.min_r by lia. rewrite <- En.
      eapply (matrix_bytes_add n rem); [lia|lia|intros a; by apply rows_matrix|exact HI|].
      apply bf16_unpack_nrlt16_ok; [done|lia|]. intros R c HR Hc.
      rewrite (chunk_holds n 16 rem) by (lia || (intros; apply Hch; lia)). f_equal. rewrite Hcs. unfold bf16_at. lia.
  - destruct Hu as [|Hrs]; [done|]. eapply Hend; [reflexivity..|]. apply split_columns_ind; [done|done|..]; cbn beta.
    + intros n w m1 Hn Hnw Hw _ Hch HI. rewrite Z.min_l in HI |- * by lia.
      eapply (matrix_bytes_add n w); [lia|lia|intros a; by apply columns_matrix|exact HI|].
      apply bf16_unpack_kernel_ok; [done| |by left|].
      { split; [lia|]. destruct Hw as [-> | [-> | [-> | ->]]]; [by exists 4|by exists 3|by exists 2|by exists 1]. }
      intros R c HR Hc. rewrite (chunk_holds n w w) by (done || lia). f_equal. rewrite Hrs. unfold bf16_at. pose proof (Z.div_mod R 2). lia.
    + intros n rem m1 Hn Hrem En EN Hch HI. rewrite Z.min_l in HI by lia. rewrite Z.min_r by lia. rewrite <- En.
      eapply (matrix_bytes_add n rem); [lia|lia|intros a; by apply columns_matrix|exact HI|].
      apply bf16_unpack_kernel_ok; [done|split; [lia|by exists 1]|right; split_and!; done || lia|].
      intros R c HR Hc. rewrite (chunk_holds n 16 rem) by (lia || (intros; apply Hch; lia)).
      f_equal. rewrite Hrs. unfold bf16_at. pose proof (Z.div_mod R 2). lia.
Qed.
End unpack.
