(* ===== verification/ReorderBf16.v ===== *)
(** * Reordering B for the bf16 products
    (frame/bf16bf16f32/dlp_gemm_reorder_bf16.c, the bf16 x bf16 functions)

    The threads split the columns and each packs or unpacks its tiles with the kernel of
    the context; the kernels are those of [PackB16].  Both directions call the kernel of
    the same tiles.  Whatever the interleaving of the calls, the packed matrix is the one
    of the portable packer, and unpacking it gives the matrix back. *)
From S2P Require Import Prelude DlpTypes ThreadUtils ByteStore ReorderLayout Reorder TeamMachine TeamCorrect GemvTeam.
From S2P Require Import Simd PackB8Ok PackB8Laws PackB16 PackB16Ok UnpackB16.
From stdpp Require Import list gmap.
#[local] Open Scope Z_scope.

Local Abbreviation round_up := dlp_reorder_round_up.

(** ** The code *)

(** The arguments of one call of a packing or unpacking kernel: the offsets in the packed
    and in the caller's matrix, in elements, and the tile's size. *)
Record packb_call := mk_packb_call { tc_packed : Z; tc_matrix : Z; tc_nc0 : Z; tc_kc0 : Z }.

Definition dlp_get_packb_bf16bf16f32of32_min_NR : Z := 16.

Section reorder.
Context (lcntx : dlp_gemm_cntx_t) (rs_b cs_b n k : Z).

Local Abbreviation NC := (NC (blksz lcntx)).
Local Abbreviation KC := (KC (blksz lcntx)).
Local Abbreviation NR := (NR (blksz lcntx)).

(** The call of a [pc] iteration. *)
Definition bf16_packb_call (jc jc_cur_loop jc_cur_loop_rem nc0 n_sub_updated pc : Z) : packb_call :=
  let k_updated := k + Z.land k 0x1 in
  let kc0 := Z.min (k - pc) KC in
  let kc0_updated := kc0 + Z.land kc0 0x1 in
  mk_packb_call (jc_cur_loop * k_updated + n_sub_updated * pc + jc_cur_loop_rem * kc0_updated)
    (rs_b * pc + jc * cs_b) nc0 kc0.

(** The [jc] loop. *)
Fixpoint bf16_jc_loop (fuel : nat) (jc jc_end : Z) : option (list packb_call) :=
  match fuel with
  | O => None
  | S fuel =>
      if jc <? jc_end then
        let nc0 := Z.min (jc_end - jc) NC in
        let '(jc_cur_loop, jc_cur_loop_rem, nc0, n_sub_updated) :=
          dlp_gemm_get_B_panel_reordered_start_offset_width jc n NC 16 nc0 in
        l ← for_upto (loop_fuel 0 k) 0 k KC
              (fun pc => Some [bf16_packb_call jc jc_cur_loop jc_cur_loop_rem nc0 n_sub_updated pc]);
        let jc := dlp_gemm_adjust_B_panel_reordered_jc jc_cur_loop in
        r ← bf16_jc_loop fuel (jc + NC) jc_end;
        Some (l ++ r)
      else Some []
  end.

(** One thread of the region. *)
Definition bf16_thread (n_way work_id : Z) : option (list packb_call) :=
  let '(jc_start, jc_end) := dlp_thread_task_range (mk_task_id 0 n_way work_id) n NR false in
  bf16_jc_loop (loop_fuel jc_start jc_end) jc_start jc_end.

(** The region, in a build with or without OpenMP. *)
Definition bf16_region (openmp : bool) (omp_team : Z -> Z) (n_threads : Z) : option (list (list packb_call)) :=
  mapM (bf16_thread (region_ways openmp n_threads)) (seqZ 0 (region_threads openmp omp_team n_threads)).

(** A packing call.  [jit] is the kernel behind the handle of the context, which is taken
    when there is one; it gets the arguments of the other.  The state has the strides
    every call returns. *)
Definition bf16_packer := mem -> mem -> Z -> Z -> Z -> Z -> Z -> Z -> mem * (Z * Z).

Definition bf16_pack_call (jit : option bf16_packer) (B : mem) (st : mem * (Z * Z)) (t : packb_call) : mem * (Z * Z) :=
  let packb_fun_ptr := match jit with Some f => f | None => dlp_packb_nr64_bf16bf16f32of32 end in
  packb_fun_ptr B st.1 (bf16_at 0 (tc_packed t)) (bf16_at 0 (tc_matrix t)) rs_b cs_b (tc_nc0 t) (tc_kc0 t).

Definition bf16_unpack_call (P : mem) (m : mem) (t : packb_call) : mem :=
  dlp_unpackb_nr64_bf16bf16f32of32 P m (bf16_at 0 (tc_packed t)) (bf16_at 0 (tc_matrix t)) (tc_nc0 t) (tc_kc0 t) rs_b cs_b.

(** The calls of the threads; a run of them, in the order of an execution, starts with
    the strides of the matrix. *)
Definition dlp_reorderb_nr64_bf16bf16f32of32 (openmp : bool) (omp_team : Z -> Z) (n_threads : Z)
    : option (list (list packb_call)) :=
  bf16_region openmp omp_team n_threads.

Definition run_reorder (jit : option bf16_packer) (B m : mem) (ws : list packb_call) : mem * (Z * Z) :=
  foldl (bf16_pack_call jit B) (m, (rs_b, cs_b)) ws.

(** Widths the kernel does not know go to the portable unpacker, which reads the packed
    buffer [pack_b]. *)
Inductive unreorder_work :=
  | UnreorderRef (threads : option (list (list store)))
  | UnreorderTiles (threads : option (list (list packb_call))).

Definition dlp_unreorderb_nr64_bf16bf16f32of32 (openmp : bool) (omp_team : Z -> Z) (pack_b : buffer) (n_threads : Z)
    : unreorder_work :=
  if negb (NR =? 64)
  then UnreorderRef (dlp_reorder_ref_unreorderb (region_threads openmp omp_team) pack_b 2 2 n k NR dlp_get_packb_bf16bf16f32of32_min_NR NC KC
                       rs_b cs_b n_threads)
  else UnreorderTiles (bf16_region openmp omp_team n_threads).

Definition run_unreorder (P m : mem) (ws : list packb_call) : mem := foldl (bf16_unpack_call P) m ws.
End reorder.

(** ** A packed panel

    Byte [t] of row [kr], column [c] of a panel, as the portable code counts. *)
Lemma bf16_round_up k : 0 <= k -> 2 * round_up k 2 = round_up (2 * k) 4 /\ round_up k 2 = k + Z.land k 0x1.
Proof.
  intros Hk. rewrite round_up_4, (round_up_eq k 2) by lia.
  assert (Z.land k 0x1 = k mod 2) as -> by exact (Z.land_ones k 1 ltac:(lia)). split; dlia.
Qed.

Definition bf16_panel_byte (NR nc kc kr c t : Z) : Z :=
  let ch := chunk_at nc NR 16 (round_up kc 2) c in
  2 * (offset ch + dlp_reorder_elem_offset kr (c - col_start ch) (slot ch) 2) + t.

Lemma bf16_panel_byte_64 nc kc kr c t : 0 <= kr < kc -> 0 <= c < nc -> 0 <= t < 2 ->
  bf16_panel_byte 64 nc kc kr c t = panel_pos 64 nc (2 * kc) (2 * kr + t) c.
Proof.
  intros Hkr Hc Ht. unfold bf16_panel_byte, chunk_at. destruct (chunk_of nc 64 16 c) as [g w] eqn:E. cbn [offset slot col_start].
  pose proof (chunk_of_bounds 64 16 ltac:(lia) ltac:(lia) ltac:(by exists 4) nc c g w Hc E) as (_ & Hg & _).
  rewrite (pos_in_chunk nc (2 * kc) (2 * kr + t) c g w) by (done || lia).
  destruct (bf16_round_up kc ltac:(lia)) as [<- _]. unfold dlp_reorder_elem_offset. rewrite cquot_nonneg, crem_nonneg by lia.
  assert ((2 * kr + t) / 4 = kr / 2 /\ (2 * kr + t) mod 4 = 2 * (kr mod 2) + t) as [-> ->] by dlia. lia.
Qed.

(** What a packing kernel does: the elements of the panel at [src] go to their places
    from [dst] on, the padding is cleared, and nothing else changes. *)
Record packs_panel (NR rs cs : Z) (B : mem) (src nc kc dst : Z) (m m' : mem) : Prop := mk_packs_panel {
  pp_elem : forall kr c t, 0 <= kr < kc -> 0 <= c < nc -> 0 <= t < 2 ->
    m' (dst + bf16_panel_byte NR nc kc kr c t) = B (bf16_at src (kr * rs + c * cs) + t);
  pp_pad : forall a, dst <= a < dst + 2 * (round_up nc 16 * round_up kc 2) ->
    (forall kr c t, 0 <= kr < kc -> 0 <= c < nc -> 0 <= t < 2 -> a <> dst + bf16_panel_byte NR nc kc kr c t) -> m' a = 0;
  pp_frame : forall a, ~ (dst <= a < dst + 2 * (round_up nc 16 * round_up kc 2)) -> m' a = m a;
}.

(** The kernel with intrinsics does it in panels of 64 columns. *)
Lemma intrinsics_packs_panel rs cs B src nc kc dst m :
  unit_stride rs cs -> 0 <= nc -> 0 <= kc ->
  packs_panel 64 rs cs B src nc kc dst m (dlp_packb_nr64_bf16bf16f32of32 B m dst src rs cs nc kc).1.
Proof.
  intros Hu Hn Hk. destruct (bf16_packb_ok B src dst rs cs nc kc Hn Hk m Hu) as [_ Helem Hpad _ Hframe].
  destruct (bf16_round_up kc Hk) as [E4 _]. pose proof (round_up_bounds nc 16 ltac:(lia) ltac:(lia)) as [Hru _].
  assert (sums_behind nc (2 * kc) dst None) as Hsb by done. rewrite <- E4 in *.
  assert (round_up nc 16 * (2 * round_up kc 2) = 2 * (round_up nc 16 * round_up kc 2)) as E by lia. rewrite E in *. split.
  - intros kr c t Hkr Hc Ht. rewrite bf16_panel_byte_64, Helem by (done || lia). unfold bf16_elem.
    destruct (quotient_rest 2 kr t Ht) as [-> ->]. by rewrite (Z.mul_comm rs), (Z.mul_comm cs).
  - intros a Ha Hno. apply Hpad; [done|done|]. intros R c HR Hc ->.
    pose proof (Z.div_mod R 2 ltac:(lia)) as ER. pose proof (Z.mod_pos_bound R 2 ltac:(lia)) as HbR.
    assert (0 <= R / 2 < kc) by (split; [apply Z.div_pos|apply Z.div_lt_upper_bound]; lia).
    apply (Hno (R / 2) c (R mod 2)); [done..|]. by rewrite bf16_panel_byte_64, <- ER by done.
  - intros a Ha. by apply Hframe.
Qed.

(** The cells of a grid can be searched. *)
Lemma grid_search (f : Z -> Z -> Z) (x k n : Z) :
  (exists r c, 0 <= r < k /\ 0 <= c < n /\ f r c = x) \/ (forall r c, 0 <= r < k -> 0 <= c < n -> f r c <> x).
Proof.
  destruct (decide (Exists (fun r => Exists (fun c => f r c = x) (seqZ 0 n)) (seqZ 0 k))) as [He|Hne]; [left|right].
  - apply Exists_exists in He as (r & Hr%elem_of_seqZ & He). apply Exists_exists in He as (c & Hc%elem_of_seqZ & Hp).
    exists r, c. split; [lia|]. split; [lia|done].
  - intros r c Hr Hc Hp. apply Hne, Exists_exists. exists r. split; [apply elem_of_seqZ; lia|].
    apply Exists_exists. exists c. split; [apply elem_of_seqZ; lia|done].
Qed.

(** ** The tiles of a region *)
Section team.
Context (lcntx : dlp_gemm_cntx_t) (rs_b cs_b n k : Z).

Local Abbreviation NC := (NC (blksz lcntx)).
Local Abbreviation KC := (KC (blksz lcntx)).
Local Abbreviation NR := (NR (blksz lcntx)).
Local Abbreviation pos := (elem_pos n k NR 16 NC KC 2).
Local Abbreviation start := (tile_start n k 16 NC KC 2).

Hypothesis Hl : layout_ok n k NR 16 NC KC 2.

(** The call for a tile. *)
Definition call_of (jc nc pc : Z) : packb_call :=
  mk_packb_call (start jc pc) (rs_b * pc + jc * cs_b) nc (Z.min (k - pc) KC).

Definition is_tile (t : packb_call) : Prop :=
  exists jc nc pc, t = call_of jc nc pc /\ tile_ok n NR NC jc nc /\ 0 <= pc < k /\ (KC | pc).

(** The call for the tile of the range [[s, e)] with row [p], column [j]. *)
Definition cell_call (s e j p : Z) : packb_call :=
  let P := NC * (j / NC) in
  call_of (Z.max s P) (Z.min e (P + NC) - Z.max s P) (KC * (p / KC)).

Lemma bf16_jc_loop_ok s e fuel jc :
  range_ok n NR s e -> s <= jc -> (jc = s \/ (NC | jc)) -> Z.max 0 (e - jc) < Z.of_nat fuel ->
  exists ts, bf16_jc_loop lcntx rs_b cs_b n k fuel jc e = Some ts /\ Forall is_tile ts /\
    forall j p, jc <= j < e -> 0 <= p < k -> cell_call s e j p ∈ ts.
Proof using Hl.
  intros Hr. pose proof Hr as (Hs & _ & He & _). revert jc. pose proof Hl as [].
  induction fuel as [|fuel IH]; intros jc Hjc Hjcs Hf; [lia|]. cbn [bf16_jc_loop].
  destruct (Z.ltb_spec jc e) as [Hlt|Hge].
  2: { exists []. split_and!; [done|done|]. intros j p ? _. lia. }
  unfold dlp_gemm_get_B_panel_reordered_start_offset_width, dlp_gemm_adjust_B_panel_reordered_jc.
  rewrite (kmd_width_eq n k NR 16 NC KC 2 Hl) by lia. rewrite (cquot_nonneg jc NC) by lia.
  rewrite (Z.mul_comm (jc / NC)). pose proof (block_bounds NC lo_NC jc) as HP.
  set (P := NC * (jc / NC)) in *.
  assert ((if P + NC <? jc + Z.min (e - jc) NC then NC - (jc - P) else Z.min (e - jc) NC)
    = Z.min e (P + NC) - jc) as -> by (destruct (Z.ltb_spec (P + NC) (jc + Z.min (e - jc) NC)); lia).
  assert (Z.max s P = jc) as Emax.
  { destruct Hjcs as [->|[q Hq]]; [lia|]. subst P. rewrite Hq, Z.div_mul by lia. lia. }
  assert (NC | P) as HdP by apply Z.divide_factor_l.
  destruct (range_tile_ok n k NR 16 NC KC 2 Hl s e jc Hr) as [Ht _]; [lia|]. fold P in Ht. rewrite Emax in Ht.
  rewrite (for_upto_concat (fun pc => [call_of jc (Z.min e (P + NC) - jc) pc]));
    [cbn [mbind option_bind]|done|unfold loop_fuel; lia|].
  2: { intros pc Hpc. apply loop_points_elem in Hpc as (q & Hq & -> & Hlt2); [|done].
       do 2 f_equal. unfold bf16_packb_call, call_of. f_equal.
       rewrite <- (proj2 (bf16_round_up k ltac:(lia))), <- (proj2 (bf16_round_up (Z.min (k - (0 + q * KC)) KC) ltac:(lia))).
       unfold tile_start, packed_index, k_padded, block_height. fold P. lia. }
  destruct (IH (P + NC)) as (ts & -> & Hts & Hcov); [lia|right; by apply Z.divide_add_r|lia|].
  cbn [mbind option_bind]. exists ((call_of jc (Z.min e (P + NC) - jc) <$> loop_points 0 k KC) ++ ts). split_and!.
  - do 2 f_equal. induction (loop_points 0 k KC) as [|pc l IHl]; [done|]. cbn [fmap list_fmap concat app]. f_equal. exact IHl.
  - apply Forall_app. split; [|done]. apply Forall_fmap, Forall_forall. intros pc Hpc.
    apply loop_points_elem in Hpc as (q & Hq & -> & Hlt2); [|done].
    exists jc, (Z.min e (P + NC) - jc), (0 + q * KC). split; [done|]. split; [exact Ht|]. split; [lia|exists q; lia].
  - intros j p Hj Hp. apply elem_of_app. destruct (decide (j < P + NC)); [left|right; apply Hcov; lia].
    unfold cell_call. rewrite (block_unique NC lo_NC P j HdP) by lia. cbv zeta. rewrite Emax.
    apply list_elem_of_fmap_2, loop_points_elem; [done|]. pose proof (block_bounds KC lo_KC p).
    exists (p / KC). split; [apply Z.div_pos; lia|lia].
Qed.

Lemma bf16_region_ok openmp omp_team n_threads : (forall t, 1 <= t -> omp_team t = t) ->
  let nw := region_ways openmp n_threads in
  exists ls, bf16_region lcntx rs_b cs_b n k openmp omp_team n_threads = Some ls /\
    (forall l t, l ∈ ls -> t ∈ l -> is_tile t) /\ 1 <= nw /\
    forall w j p, 0 <= w < nw -> task_cut nw n NR false w <= j < task_cut nw n NR false (w + 1) -> 0 <= p < k ->
      exists l, l ∈ ls /\ cell_call (task_cut nw n NR false w) (task_cut nw n NR false (w + 1)) j p ∈ l.
Proof using Hl.
  intros Homp nw. destruct (region_full openmp omp_team n_threads Homp) as [Eth Hnw]. fold nw in Eth, Hnw.
  pose proof Hl as []. unfold bf16_region. rewrite Eth. fold nw.
  assert (exists ls, Forall2 (fun w l => bf16_thread lcntx rs_b cs_b n k nw w = Some l /\ Forall is_tile l /\
    let s := task_cut nw n NR false w in let e := task_cut nw n NR false (w + 1) in
    forall j p, s <= j < e -> 0 <= p < k -> cell_call s e j p ∈ l) (seqZ 0 nw) ls) as [ls Hls].
  { apply Forall2_exists. intros w Hw%elem_of_seqZ. unfold bf16_thread. rewrite task_range_cut by lia.
    apply bf16_jc_loop_ok; [apply (thread_range_ok n k NR 16 NC KC 2 Hl); lia|lia|by left|unfold loop_fuel; lia]. }
  exists ls. split_and!; [|..|done|].
  - apply mapM_Some. eapply Forall2_impl; [exact Hls|]. by intros w l [].
  - intros l t Hl1 Ht. destruct (Forall2_elem_r _ _ _ _ Hls Hl1) as (w & _ & _ & HF & _).
    by apply (proj1 (Forall_forall _ _) HF).
  - intros w j p Hw Hj Hp. destruct (Forall2_elem_l _ _ _ w Hls) as (l & Hl1 & _ & _ & Hc); [apply elem_of_seqZ; lia|].
    exists l. split; [done|]. by apply Hc.
Qed.

(** ** One call *)

(** Byte [t] of an element of a tile. *)
Lemma tile_byte jc nc pc kr c t :
  tile_ok n NR NC jc nc -> 0 <= pc < k -> (KC | pc) -> 0 <= kr < Z.min (k - pc) KC -> 0 <= c < nc ->
  bf16_at 0 (start jc pc) + bf16_panel_byte NR nc (Z.min (k - pc) KC) kr c t = 2 * pos (pc + kr) (jc + c) + t.
Proof using Hl.
  intros Ht Hpc Hd Hkr Hc. rewrite (tile_elem_pos n k NR 16 NC KC 2 Hl jc nc pc kr c) by done.
  unfold bf16_panel_byte, block_height, bf16_at. lia.
Qed.

(** The kernel behind the handle packs a panel; without a handle the panels are the 64
    columns of the other kernel. *)
Definition packer_packs (jit : option bf16_packer) : Prop :=
  match jit with
  | Some f => forall B m dst src n0 k0, 0 <= n0 -> 0 <= k0 -> packs_panel NR rs_b cs_b B src n0 k0 dst m (f B m dst src rs_b cs_b n0 k0).1
  | None => NR = 64
  end.

Lemma pack_call_packs jit B st t :
  unit_stride rs_b cs_b -> packer_packs jit -> 0 <= tc_nc0 t -> 0 <= tc_kc0 t ->
  packs_panel NR rs_b cs_b B (bf16_at 0 (tc_matrix t)) (tc_nc0 t) (tc_kc0 t) (bf16_at 0 (tc_packed t))
    st.1 (bf16_pack_call rs_b cs_b jit B st t).1.
Proof using.
  intros Hu Hjit Hn Hk. unfold bf16_pack_call, packer_packs in *. destruct jit as [f|]; [by apply Hjit|].
  rewrite Hjit. by apply intrinsics_packs_panel.
Qed.

(** The bytes of a tile in the packed matrix. *)
Definition tile_area (t : packb_call) (a : Z) : Prop :=
  2 * tc_packed t <= a < 2 * (tc_packed t + round_up (tc_nc0 t) 16 * round_up (tc_kc0 t) 2).

Lemma tile_area_in_tile jc nc pc a : tile_area (call_of jc nc pc) a <-> in_tile n k 16 NC KC 2 jc nc pc (a / 2).
Proof using.
  unfold tile_area, in_tile, block_height. cbn [tc_packed tc_nc0 tc_kc0 call_of].
  pose proof (Z.div_mod a 2). pose proof (Z.mod_pos_bound a 2). lia.
Qed.

Lemma pack_call_writes jit B v st t :
  unit_stride rs_b cs_b -> packer_packs jit -> is_tile t -> packed_values n k NR 16 NC KC 2 2 rs_b cs_b B v ->
  writes v (tile_area t) st.1 (bf16_pack_call rs_b cs_b jit B st t).1.
Proof using Hl.
  intros Hu Hjit (jc & nc & pc & -> & Ht & Hpc & Hd) [Hv Hz]. pose proof Hl as [].
  pose proof Ht as (Hjc & Hnc & _ & Hend & _). set (kc := Z.min (k - pc) KC).
  destruct (pack_call_packs jit B st (call_of jc nc pc) Hu Hjit ltac:(cbn; lia) ltac:(cbn; lia)) as [Helem Hpad Hframe].
  set (m' := (bf16_pack_call _ _ _ _ _ _).1) in *. cbn [tc_packed tc_matrix tc_nc0 tc_kc0 call_of] in Helem, Hpad, Hframe.
  fold kc in Helem, Hpad, Hframe.
  assert (forall a, tile_area (call_of jc nc pc) a <->
    bf16_at 0 (start jc pc) <= a < bf16_at 0 (start jc pc) + 2 * (round_up nc 16 * round_up kc 2)) as Harea.
  { intros a. unfold tile_area. cbn [tc_packed tc_nc0 tc_kc0 call_of]. fold kc. unfold bf16_at. lia. }
  assert (forall a, tile_area (call_of jc nc pc) a -> m' a = v a) as Hin.
  { intros a Ha. pose proof (Z.div_mod a 2 ltac:(lia)) as Ea. pose proof (Z.mod_pos_bound a 2 ltac:(lia)) as Hb.
    destruct (grid_search (fun kr c => pos (pc + kr) (jc + c)) (a / 2) kc nc) as [(kr & c & Hkr & Hc & Epos)|Hno].
    - pose proof (tile_byte jc nc pc kr c (a mod 2) Ht Hpc Hd Hkr Hc) as Ebyte. fold kc in Ebyte.
      rewrite Epos, <- Ea in Ebyte. rewrite <- Ebyte at 1. rewrite Helem by done.
      specialize (Hv (pc + kr) (jc + c) (a mod 2) ltac:(split; lia) Hb). unfold packed_byte, matrix_byte in Hv.
      rewrite Epos, (Z.mul_comm (a / 2)), <- Ea in Hv. rewrite Hv. unfold bf16_at. f_equal. lia.
    - rewrite Hpad; [|by apply Harea|].
      + destruct (Hz a) as [->|(p & j & [Hp Hj] & Epos)]; [done|exfalso]. apply tile_area_in_tile in Ha. rewrite Epos in Ha.
        destruct (tile_elems n k NR 16 NC KC 2 Hl jc nc pc p j Ht Hpc Hd Hp Hj Ha) as [Hp' Hj'].
        apply (Hno (p - pc) (j - jc)); [lia|lia|]. rewrite Epos. f_equal; lia.
      + intros kr c t Hkr Hc Hbt Exact. apply (Hno kr c Hkr Hc).
        pose proof (tile_byte jc nc pc kr c t Ht Hpc Hd Hkr Hc) as Ebyte. fold kc in Ebyte. rewrite <- Exact in Ebyte.
        rewrite Ebyte. by destruct (quotient_rest 2 (pos (pc + kr) (jc + c)) t Hbt) as [-> _]. }
  assert (forall a, ~ tile_area (call_of jc nc pc) a -> m' a = st.1 a) as Hout.
  { intros a Ha. apply Hframe. by rewrite <- Harea. }
  split; [done| |done]. intros a.
  destruct (decide (bf16_at 0 (start jc pc) <= a < bf16_at 0 (start jc pc) + 2 * (round_up nc 16 * round_up kc 2))) as [Ha|Ha].
  - left. by apply Hin, Harea.
  - right. apply Hout. by rewrite Harea.
Qed.

(** The calls of a run, in any order. *)
Lemma run_reorder_writes jit B v ws m :
  unit_stride rs_b cs_b -> packer_packs jit -> (forall t, t ∈ ws -> is_tile t) -> packed_values n k NR 16 NC KC 2 2 rs_b cs_b B v ->
  writes v (fun a => exists t, t ∈ ws /\ tile_area t a) m (run_reorder rs_b cs_b jit B m ws).1.
Proof using Hl.
  intros Hu Hjit Hws Hv. unfold run_reorder. change m with (m, (rs_b, cs_b)).1 at 1.
  generalize (m, (rs_b, cs_b)). clear m. intros st. revert st Hws.
  induction ws as [|t ws IH]; intros st Hws.
  - apply writes_none. intros a (t & Ht & _). by apply elem_of_nil in Ht.
  - cbn [foldl]. eapply writes_trans; [|by apply pack_call_writes; [..|apply Hws; left|]|apply IH; intros; apply Hws; by right].
    intros a. cbn. setoid_rewrite elem_of_cons. naive_solver.
Qed.

(** The calls of all threads cover the packed matrix. *)
Lemma region_covers openmp omp_team n_threads ls ws a :
  (forall t, 1 <= t -> omp_team t = t) -> bf16_region lcntx rs_b cs_b n k openmp omp_team n_threads = Some ls -> interleaving ls ws ->
  (forall t, t ∈ ws -> is_tile t) /\
  ((exists t, t ∈ ws /\ tile_area t a) <-> in_packed n k 16 2 2 a) /\
  forall p j, 0 <= p < k -> 0 <= j < n -> exists s e, s <= j < e /\ range_ok n NR s e /\ cell_call s e j p ∈ ws.
Proof using Hl.
  intros Homp Els Hws. destruct (bf16_region_ok openmp omp_team n_threads Homp) as (ls' & Els' & Hgood & Hnw & Hcov).
  rewrite Els in Els'. injection Els' as <-. set (nw := region_ways openmp n_threads) in *. pose proof Hl as [].
  assert (forall t, t ∈ ws -> is_tile t) as Hall.
  { intros t (i & l & Hi & Ht)%(interleaving_elem _ _ _ Hws). apply (Hgood l); [by apply list_elem_of_lookup_2 in Hi|done]. }
  assert (forall w j p, 0 <= w < nw -> task_cut nw n NR false w <= j < task_cut nw n NR false (w + 1) -> 0 <= p < k ->
    cell_call (task_cut nw n NR false w) (task_cut nw n NR false (w + 1)) j p ∈ ws) as Hin.
  { intros w j p Hw Hj Hp. destruct (Hcov w j p Hw Hj Hp) as (l & [i Hi]%list_elem_of_lookup & Ht).
    apply (interleaving_elem _ _ _ Hws). by exists i, l. }
  split; [done|]. split.
  - rewrite (in_packed_div n k 16 2 2 ltac:(lia)), <- (pack_cells n k NR 16 NC KC 2 Hl nw) by done. split.
    + intros (t & Ht & Ha). destruct (Hall t Ht) as (jc & nc & pc & -> & Hok & Hpc & Hd).
      apply (pack_cells n k NR 16 NC KC 2 Hl nw); [done|]. rewrite tile_area_in_tile in Ha. by eapply tile_in_buffer.
    + intros (w & j & p & Hw & Hj & Hp & Hc). exists (cell_call (task_cut nw n NR false w) (task_cut nw n NR false (w + 1)) j p).
      split; [by apply Hin|]. unfold cell_call. by apply tile_area_in_tile.
  - intros p j Hp Hj. destruct (column_owner n k NR 16 NC KC 2 Hl nw j Hnw Hj) as (w & Hw & Hwj).
    eexists _, _. split; [exact Hwj|]. split; [by apply (thread_range_ok n k NR 16 NC KC 2 Hl)|]. by apply Hin.
Qed.

(** What the region leaves, in every interleaving of its calls. *)
Lemma reorder_region_done jit B v m openmp omp_team n_threads :
  unit_stride rs_b cs_b -> packer_packs jit -> packed_values n k NR 16 NC KC 2 2 rs_b cs_b B v ->
  (forall t, 1 <= t -> omp_team t = t) ->
  exists ls, dlp_reorderb_nr64_bf16bf16f32of32 lcntx rs_b cs_b n k openmp omp_team n_threads = Some ls /\
    forall ws, interleaving ls ws -> writes v (in_packed n k 16 2 2) m (run_reorder rs_b cs_b jit B m ws).1.
Proof using Hl.
  intros Hu Hjit Hv Homp. destruct (bf16_region_ok openmp omp_team n_threads Homp) as (ls & Els & _).
  exists ls. split; [exact Els|]. intros ws Hws.
  pose proof (fun a => region_covers openmp omp_team n_threads ls ws a Homp Els Hws) as Hcov.
  eapply writes_ext; [|apply run_reorder_writes; [done|done|apply (Hcov 0)|done]].
  intros a. cbn. apply (proj1 (proj2 (Hcov a))).
Qed.

(** ** Unpacking *)

Hypothesis HNR : NR = 64.

(** The bytes a tile has in the caller's matrix. *)
Definition tile_window (t : packb_call) (a : Z) : Prop :=
  matrix_bytes (bf16_at 0 (tc_matrix t)) rs_b cs_b (tc_kc0 t) (tc_nc0 t) a.

Lemma unpack_call_writes P v m t :
  unit_stride rs_b cs_b -> is_tile t ->
  (forall p j i, in_matrix n k p j -> 0 <= i < 2 -> P (packed_byte n k NR 16 NC KC 2 2 p j + i) = v (matrix_byte 2 rs_b cs_b p j + i)) ->
  writes v (tile_window t) m (bf16_unpack_call rs_b cs_b P m t).
Proof using Hl HNR.
  intros Hu (jc & nc & pc & -> & Ht & Hpc & Hd) HP. pose proof Hl as []. pose proof Ht as (Hjc & Hnc & _ & Hend & _).
  apply bf16_unpackb_ok; cbn [tc_packed tc_matrix tc_nc0 tc_kc0 call_of]; [lia|lia| |done].
  intros R c HR Hc. pose proof (Z.div_mod R 2 ltac:(lia)) as ER. pose proof (Z.mod_pos_bound R 2 ltac:(lia)) as HbR.
  assert (0 <= R / 2 < Z.min (k - pc) KC) by (split; [apply Z.div_pos|apply Z.div_lt_upper_bound]; lia).
  pose proof (tile_byte jc nc pc (R / 2) c (R mod 2) Ht Hpc Hd ltac:(lia) Hc) as E.
  assert (bf16_panel_byte NR nc (Z.min (k - pc) KC) (R / 2) c (R mod 2) = panel_pos 64 nc (2 * Z.min (k - pc) KC) R c) as Ep
    by (by rewrite HNR, bf16_panel_byte_64, <- ER by lia).
  rewrite <- Ep, E.
  assert (in_matrix n k (pc + R / 2) (jc + c)) as Hm by (split; lia). specialize (HP _ _ (R mod 2) Hm HbR).
  unfold packed_byte, matrix_byte in HP. rewrite (Z.mul_comm 2). rewrite HP. f_equal. unfold bf16_at. lia.
Qed.

Lemma run_unreorder_writes P v ws m :
  unit_stride rs_b cs_b -> (forall t, t ∈ ws -> is_tile t) ->
  (forall p j i, in_matrix n k p j -> 0 <= i < 2 -> P (packed_byte n k NR 16 NC KC 2 2 p j + i) = v (matrix_byte 2 rs_b cs_b p j + i)) ->
  (forall p j, 0 <= p < k -> 0 <= j < n -> exists s e, s <= j < e /\ range_ok n NR s e /\ cell_call s e j p ∈ ws) ->
  writes v (in_matrix_bytes n k 2 rs_b cs_b) m (run_unreorder rs_b cs_b P m ws).
Proof using Hl HNR.
  intros Hu Hws HP Hcov. pose proof Hl as [].
  eapply writes_ext; [|apply (writes_foldl v _ tile_window); intros m1 t Ht; by apply unpack_call_writes; [|apply Hws|]].
  intros a. cbn. unfold in_matrix_bytes, tile_window, matrix_bytes. split.
  - intros (t & Ht & r & c & Hr & Hc & Ha). destruct (Hws t Ht) as (jc & nc & pc & -> & Htile & Hpc & _).
    destruct Htile as (Hjc & Hnc & _ & Hend & _). cbn [tc_packed tc_matrix tc_nc0 tc_kc0 call_of] in *.
    exists (pc + r), (jc + c). split; [split; lia|]. unfold matrix_byte, bf16_at in *. lia.
  - intros (p & j & [Hp Hj] & Ha). destruct (Hcov p j Hp Hj) as (s & e & Hse & Hr & Hin).
    eexists. split; [exact Hin|]. unfold cell_call. pose proof (block_bounds NC lo_NC j). pose proof (block_bounds KC lo_KC p).
    set (P0 := NC * (j / NC)) in *. set (pc := KC * (p / KC)) in *. cbv zeta. cbn [tc_packed tc_matrix tc_nc0 tc_kc0 call_of].
    exists (p - pc), (j - Z.max s P0). split; [lia|]. split; [lia|]. unfold matrix_byte, bf16_at in *. lia.
Qed.
(** What the unpacking leaves, in every interleaving of its calls. *)
Lemma unreorder_region_done P v m pack_b openmp omp_team n_threads :
  unit_stride rs_b cs_b -> (forall t, 1 <= t -> omp_team t = t) ->
  (forall p j i, in_matrix n k p j -> 0 <= i < 2 -> P (packed_byte n k NR 16 NC KC 2 2 p j + i) = v (matrix_byte 2 rs_b cs_b p j + i)) ->
  exists ls, dlp_unreorderb_nr64_bf16bf16f32of32 lcntx rs_b cs_b n k openmp omp_team pack_b n_threads = UnreorderTiles (Some ls) /\
    forall ws, interleaving ls ws -> writes v (in_matrix_bytes n k 2 rs_b cs_b) m (run_unreorder rs_b cs_b P m ws).
Proof using Hl HNR.
  intros Hu Homp HP. destruct (bf16_region_ok openmp omp_team n_threads Homp) as (ls & Els & _).
  exists ls. split; [unfold dlp_unreorderb_nr64_bf16bf16f32of32; by rewrite HNR, Els|]. intros ws Hws.
  destruct (region_covers openmp omp_team n_threads ls ws 0 Homp Els Hws) as (Ht & _ & Hcov). by apply run_unreorder_writes.
Qed.
End team.

(** ** Properties *)

(** C5. The bf16 packing with intrinsics is the portable packing, on legal blocks and with
    the team asked for.  For a row- or column-major matrix of any size, blocks that fit
    the packed layout ([blocks_checked]), a build without OpenMP or one whose runtime
    delivers as many threads as are asked for, any number of threads and every
    interleaving of their calls, the region leaves every byte of the packed matrix as the
    portable packer does, padding included, and no other byte changes; a kernel behind the
    context's handle takes the place of the other for any panel width, if it packs a
    panel.  A smaller team loses columns ([ReorderInt8.short_team_skips]) and other blocks
    lose elements ([ApiReorderBf16.bf16_odd_blocks_lose_elements]). *)
Theorem bf16_reorder_reference (lcntx : dlp_gemm_cntx_t) (rs_b cs_b n k : Z) (jit : option bf16_packer)
    (B m : mem) (b pk0 : buffer) (openmp : bool) (omp_team : Z -> Z) (n_threads : Z) :
  let NR := NR (blksz lcntx) in
  let NC := NC (blksz lcntx) in
  let KC := KC (blksz lcntx) in
  blocks_checked NR 16 NC KC 2 -> 0 <= n -> 0 <= k ->
  unit_stride rs_b cs_b -> packer_packs lcntx rs_b cs_b jit -> (forall t, 1 <= t -> omp_team t = t) ->
  (forall p j i, in_matrix n k p j -> 0 <= i < 2 ->
     b !! (matrix_byte 2 rs_b cs_b p j + i) = Some (B (matrix_byte 2 rs_b cs_b p j + i))) ->
  (forall a, 0 <= a < packed_size n k 16 2 2 -> is_Some (pk0 !! a)) ->
  exists pk ls,
    (forall team nt, team_ok team ->
       team_computes (dlp_reorder_ref_reorderb team b 2 2 n k NR 16 NC KC rs_b cs_b nt) pk0 pk) /\
    dlp_reorderb_nr64_bf16bf16f32of32 lcntx rs_b cs_b n k openmp omp_team n_threads = Some ls /\
    forall ws, interleaving ls ws ->
      let m' := (run_reorder rs_b cs_b jit B m ws).1 in
      (forall a, 0 <= a < packed_size n k 16 2 2 -> pk !! a = Some (m' a)) /\
      (forall a, ~ (0 <= a < packed_size n k 16 2 2) -> m' a = m a).
Proof.
  intros NR NC KC Hc Hn Hk Hu Hjit Homp Hb Hpk. pose proof (blocks_checked_layout n k NR 16 NC KC 2 Hc Hn Hk) as Hl.
  destruct (reorderb_ok n k NR 16 NC KC 2 2 rs_b cs_b Hl ltac:(lia) b B pk0 Hb Hpk) as (pk & [Hin _] & Hrun).
  destruct (reorder_region_done lcntx rs_b cs_b n k Hl jit B _ m openmp omp_team n_threads Hu Hjit
    (packed_value_ok n k NR 16 NC KC 2 2 rs_b cs_b Hl ltac:(lia) B) Homp) as (ls & Els & Hall).
  exists pk, ls. split; [exact Hrun|]. split; [exact Els|]. intros ws [Hw _ Hout]%Hall. split.
  - intros a Ha. rewrite (Hin a Ha). f_equal. symmetry. by apply Hw.
  - intros a Ha. by apply Hout.
Qed.

(** Three rows of two columns, by rows, on two threads. *)
Definition bf16_reorder_cntx : dlp_gemm_cntx_t :=
  mk_cntx (mk_blksz 6 64 2 64 6) 0 (mk_pack_s 0 0 128 32) (mk_sup 0 0 0) (mk_hints 0 0).

Lemma bf16_reorder_reference_witness :
  exists pk ls,
    dlp_reorderb_nr64_bf16bf16f32of32 bf16_reorder_cntx 2 1 2 3 true (fun t => t) 2 = Some ls /\
    pk !! 2 = Some ((run_reorder 2 1 None (fun a => a + 1) (fun _ => 9) (concat ls)).1 2) /\
    team_computes (dlp_reorder_ref_reorderb (fun t => t) (list_to_map ((fun a => (a, a + 1)) <$> seqZ 0 12)) 2 2 2 3 64 16 64 2 2 1 1)
      (example_zeros 128) pk.
Proof.
  destruct (bf16_reorder_reference bf16_reorder_cntx 2 1 2 3 None (fun a => a + 1) (fun _ => 9)
    (list_to_map ((fun a => (a, a + 1)) <$> seqZ 0 12)) (example_zeros 128) true (fun t => t) 2) as (pk & ls & Hrun & Els & Hall).
  - done.
  - lia.
  - lia.
  - by left.
  - reflexivity.
  - done.
  - apply (in_window (fun p j i => _ !! (matrix_byte 2 2 1 p j + i) = Some (matrix_byte 2 2 1 p j + i + 1)) 2 3 2).
    repeat first [constructor | vm_compute; reflexivity].
  - apply in_range. repeat first [constructor | vm_compute; by eexists].
  - exists pk, ls. split; [done|]. split; [|apply Hrun; by intros t].
    apply (Hall (concat ls) (interleaving_concat ls)). vm_compute. split; [done|reflexivity].
Defined.
