(* ===== verification/PackA8.v ===== *)
(** * The packing kernels of A for 8-bit integers
    (kernels/zen4/u8s8s32/dlp_gemm_packa_amd512vnni.c)

    The kernels for a transposed A: registers of 16 bytes hold columns, a transposition
    makes them rows, which are stored one after the other.  The registers keep what
    earlier steps left in them, [b_reg] starts uninitialised.  The kernels for an A stored
    by rows interleave four bytes of each of up to six rows, 64 columns at a time. *)
From S2P Require Import Prelude Word TeamMachine TeamCorrect GemvTeam Simd PackB8.
From stdpp Require Import list.
#[local] Open Scope Z_scope.

(** ** The transpositions *)
Section macros.
Context {A : Type}.

(** The arrays [a_reg] and [b_reg]. *)
Definition reg_file : Type := list (list A) * list (list A).

Definition assign (r : list (list A)) (l : list (nat * list A)) : list (list A) :=
  foldl (fun r iv => <[iv.1 := iv.2]> r) r l.

(** One macro: registers of [b_reg] from pairs of registers of [a_reg], or the other way. *)
Definition to_b (f : list A -> list A -> list A) (l : list (nat * nat * nat)) (s : reg_file) : reg_file :=
  (s.1, assign s.2 ((fun '(d, i, j) => (d, f (s.1 !!! i) (s.1 !!! j))) <$> l)).
Definition to_a (f : list A -> list A -> list A) (l : list (nat * nat * nat)) (s : reg_file) : reg_file :=
  (assign s.1 ((fun '(d, i, j) => (d, f (s.2 !!! i) (s.2 !!! j))) <$> l), s.2).

Definition UNPACKLOW_EPI8 := to_b _mm_unpacklo_epi8
  [(0, 0, 1); (1, 2, 3); (2, 4, 5); (3, 6, 7); (4, 8, 9); (5, 10, 11); (6, 12, 13); (7, 14, 15)]%nat.
Definition UNPACKHI_EPI8 := to_b _mm_unpackhi_epi8
  [(8, 0, 1); (9, 2, 3); (10, 4, 5); (11, 6, 7); (12, 8, 9); (13, 10, 11); (14, 12, 13); (15, 14, 15)]%nat.

Definition UNPACKLOW_EPI16 := to_a _mm_unpacklo_epi16
  [(0, 0, 1); (1, 2, 3); (2, 4, 5); (3, 6, 7); (8, 8, 9); (9, 10, 11); (10, 12, 13); (11, 14, 15)]%nat.
Definition UNPACKHI_EPI16 := to_a _mm_unpackhi_epi16
  [(4, 0, 1); (5, 2, 3); (6, 4, 5); (7, 6, 7); (12, 8, 9); (13, 10, 11); (14, 12, 13); (15, 14, 15)]%nat.

Definition UNPACKLOW_EPI32 := to_b _mm_unpacklo_epi32
  [(0, 0, 1); (1, 2, 3); (2, 4, 5); (3, 6, 7); (8, 8, 9); (9, 10, 11); (10, 12, 13); (11, 14, 15)]%nat.
Definition UNPACKHI_EPI32 := to_b _mm_unpackhi_epi32
  [(4, 0, 1); (5, 2, 3); (6, 4, 5); (7, 6, 7); (12, 8, 9); (13, 10, 11); (14, 12, 13); (15, 14, 15)]%nat.

Definition UNPACKLOW_EPI64 := to_a _mm_unpacklo_epi64
  [(0, 0, 1); (2, 2, 3); (4, 4, 5); (6, 6, 7); (8, 8, 9); (10, 10, 11); (12, 12, 13); (14, 14, 15)]%nat.
Definition UNPACKHI_EPI64 := to_a _mm_unpackhi_epi64
  [(1, 0, 1); (3, 2, 3); (5, 4, 5); (7, 6, 7); (9, 8, 9); (11, 10, 11); (13, 12, 13); (15, 14, 15)]%nat.

Definition UNPACKLOW_EPI16_MR8 := to_a _mm_unpacklo_epi16 [(0, 0, 1); (1, 2, 3); (2, 4, 5); (3, 6, 7)]%nat.
Definition UNPACKHI_EPI16_MR8 := to_a _mm_unpackhi_epi16 [(4, 0, 1); (5, 2, 3); (6, 4, 5); (7, 6, 7)]%nat.
Definition UNPACKLOW_EPI32_MR8 := to_b _mm_unpacklo_epi32 [(0, 0, 1); (1, 2, 3); (2, 4, 5); (3, 6, 7)]%nat.
Definition UNPACKHI_EPI32_MR8 := to_b _mm_unpackhi_epi32 [(4, 0, 1); (5, 2, 3); (6, 4, 5); (7, 6, 7)]%nat.
Definition UNPACKLOW_EPI64_MR8 := to_a _mm_unpacklo_epi64 [(0, 0, 1); (2, 2, 3); (4, 4, 5); (6, 6, 7)]%nat.
Definition UNPACKHI_EPI64_MR8 := to_a _mm_unpackhi_epi64 [(1, 0, 1); (3, 2, 3); (5, 4, 5); (7, 6, 7)]%nat.

Definition UNPACKLOW_EPI32_MR4 := to_b _mm_unpacklo_epi32 [(0, 0, 1); (1, 2, 3)]%nat.
Definition UNPACKHI_EPI32_MR4 := to_b _mm_unpackhi_epi32 [(4, 0, 1); (5, 2, 3)]%nat.
Definition UNPACKLOW_EPI64_MR4 := to_a _mm_unpacklo_epi64 [(0, 0, 1); (4, 4, 5)]%nat.
Definition UNPACKHI_EPI64_MR4 := to_a _mm_unpackhi_epi64 [(1, 0, 1); (5, 4, 5)]%nat.

Definition transpose_mr16 (s : reg_file) : reg_file :=
  UNPACKHI_EPI64 (UNPACKLOW_EPI64 (UNPACKHI_EPI32 (UNPACKLOW_EPI32
    (UNPACKHI_EPI16 (UNPACKLOW_EPI16 (UNPACKHI_EPI8 (UNPACKLOW_EPI8 s))))))).

Definition transpose_mr8 (s : reg_file) : reg_file :=
  UNPACKHI_EPI64_MR8 (UNPACKLOW_EPI64_MR8 (UNPACKHI_EPI32_MR8 (UNPACKLOW_EPI32_MR8
    (UNPACKHI_EPI16_MR8 (UNPACKLOW_EPI16_MR8 (UNPACKLOW_EPI8 s)))))).

Definition transpose_mr4 (s : reg_file) : reg_file :=
  UNPACKHI_EPI64_MR4 (UNPACKLOW_EPI64_MR4 (UNPACKHI_EPI32_MR4 (UNPACKLOW_EPI32_MR4
    (UNPACKLOW_EPI16_MR8 (UNPACKLOW_EPI8 s))))).
End macros.

(** ** The kernels *)

Definition SET_REGISTERS_ZERO : list vec := replicate 16 _mm_setzero_si128.

(** The variables of a kernel: the registers, the buffer and [kr]. *)
Record pack_state := mk_pack_state { regs : @reg_file Z; packed : mem; kr : Z }.

(** The stores of one step, the registers of the rows in the order they are stored;
    [row_stores] is [MASKED_STORE_EPI32] and the like for sixteen rows. *)
Definition row_stores (store : mem -> Z -> vec -> mem) (dst KC kr : Z) (rows : list nat) (a_reg : list vec) (m : mem) : mem :=
  foldl (fun m '(i, r) => store m (dst + i * KC + kr) (a_reg !!! r)) m (zip (seqZ 0 (Z.of_nat (length rows))) rows).

Definition rows_mr16 : list nat := [0; 1; 4; 5; 2; 3; 6; 7; 8; 9; 12; 13; 10; 11; 14; 15]%nat.
Definition rows_mr8 : list nat := [0; 1; 4; 5; 2; 3; 6; 7]%nat.
Definition rows_mr4 : list nat := [0; 1; 4; 5]%nat.
(** [switch (m_left)] *)
Definition rows_mrlt4 (m_left : Z) : list nat :=
  if m_left =? 3 then [0; 1; 4]%nat else if m_left =? 2 then [0; 1]%nat else if m_left =? 1 then [0]%nat else [].

Definition MASKED_STORE_EPI32 (mask : Z) (m : mem) (p : Z) := _mm_mask_storeu_epi32 m p mask.
Definition MASKED_STORE_EPI16 (mask : Z) (m : mem) (p : Z) := _mm_mask_storeu_epi16 m p mask.
Definition MASKED_STORE_EPI8 (mask : Z) (m : mem) (p : Z) := _mm_mask_storeu_epi8 m p mask.

Section kernel.
Context (ld : Z -> vec) (transpose : @reg_file Z -> @reg_file Z) (rows : list nat) (dst KC : Z).

(** [n] columns from [kr] on: load, transpose, store, [kr += n]. *)
Definition pack_step (n : Z) (store : mem -> Z -> vec -> mem) (s : pack_state) : pack_state :=
  let a_reg := assign (regs s).1 ((fun o => (Z.to_nat o, ld (kr s + o))) <$> seqZ 0 n) in
  let rf := transpose (a_reg, (regs s).2) in
  mk_pack_state rf (row_stores store dst KC (kr s) rows rf.1 (packed s)) (kr s + n).

(** The loop over the columns and its remainders of 8, 4, 2 and 1. *)
Definition pack_rows (rf : @reg_file Z) (m : mem) : pack_state :=
  let k_partial_pieces := KC `rem` 16 in
  let s := foldl (fun s _ => pack_step 16 _mm_storeu_si128 s) (mk_pack_state rf m 0) (loop_points 0 (KC - 15) 16) in
  if 0 <? k_partial_pieces then
    let s := if kr s + 7 <? KC then pack_step 8 (MASKED_STORE_EPI32 0x03) s else s in
    let s := if kr s + 3 <? KC then pack_step 4 (MASKED_STORE_EPI32 0x01) s else s in
    let s := if kr s + 1 <? KC then pack_step 2 (MASKED_STORE_EPI16 0x01) s else s in
    if kr s <? KC then pack_step 1 (MASKED_STORE_EPI8 0x01) s else s
  else s.
End kernel.

Section kernels.
(** [b_reg] of each kernel before its first assignment. *)
Context (garbage : list vec) (a : mem).

Definition dlp_packa_mr8_u8s8s32o32_col_major (pack_a_buffer src cs KC : Z) (m : mem) : mem :=
  packed (pack_rows (fun kr => _mm_maskz_loadu_epi8 0xFF a (src + kr * cs)) transpose_mr8 rows_mr8 pack_a_buffer KC
    (SET_REGISTERS_ZERO, garbage) m).

Definition dlp_packa_mr4_u8s8s32o32_col_major (pack_a_buffer src cs KC : Z) (m : mem) : mem :=
  packed (pack_rows (fun kr => _mm_maskz_loadu_epi8 0x0F a (src + kr * cs)) transpose_mr4 rows_mr4 pack_a_buffer KC
    (SET_REGISTERS_ZERO, garbage) m).

Definition dlp_packa_mrlt4_u8s8s32o32_col_major (pack_a_buffer src cs KC m_left : Z) (m : mem) : mem :=
  let mask := Z.shiftr 0xFFFF (16 - m_left) in
  packed (pack_rows (fun kr => _mm_maskz_loadu_epi8 mask a (src + kr * cs)) transpose_mr4 (rows_mrlt4 m_left)
    pack_a_buffer KC (SET_REGISTERS_ZERO, garbage) m).

(** The buffer and the strides [rs_a] and [cs_a] of the packed block. *)
Definition dlp_packa_mr16_u8s8s32o32_col_major (pack_a_buffer src rs cs MC KC : Z) (m : mem) : mem * (Z * Z) :=
  let mr := 16 in
  let m_partial_pieces := MC `rem` mr in
  let m_left := MC `rem` 4 in
  let '(rf, m, ic) :=
    foldl (fun '(rf, m, _) ic =>
        let s := pack_rows (fun kr => _mm_loadu_si128 a (src + ic * rs + kr * cs)) transpose_mr16 rows_mr16
                   (pack_a_buffer + ic * KC) KC rf m in
        (regs s, packed s, ic + mr))
      (SET_REGISTERS_ZERO, garbage, m, 0) (loop_points 0 (MC - (mr - 1)) mr) in
  let m :=
    if 0 <? m_partial_pieces then
      let '(m, ic) :=
        if ic + 8 - 1 <? MC
        then (dlp_packa_mr8_u8s8s32o32_col_major (pack_a_buffer + ic * KC) (src + ic * rs) cs KC m, ic + 8)
        else (m, ic) in
      let '(m, ic) :=
        if ic + 4 - 1 <? MC
        then (dlp_packa_mr4_u8s8s32o32_col_major (pack_a_buffer + ic * KC) (src + ic * rs) cs KC m, ic + 4)
        else (m, ic) in
      if negb (m_left =? 0)
      then dlp_packa_mrlt4_u8s8s32o32_col_major (pack_a_buffer + ic * KC) (src + ic * rs) cs KC m_left m
      else m
    else m in
  (m, (KC, 4)).
End kernels.

(** ** A stored by rows

    The rearrangement of a step as the pieces it stores, in order, with their offsets. *)
Inductive piece (A : Type) :=
  | Full (off : Z) (v : list A)
  | LastPiece256 (off : Z) (v : list A)
  | LastPiece128 (off : Z) (v : list A).
Arguments Full {A} off v.
Arguments LastPiece256 {A} off v.
Arguments LastPiece128 {A} off v.

Section rows.
Context {A : Type}.

(** Four rows: [a01], [a0], [c01], [c0]. *)
Definition interleave4 (a0 b0 c0 d0 : list A) : list A * list A * list A * list A :=
  let a01 := _mm512_unpacklo_epi32 a0 b0 in
  let a0 := _mm512_unpackhi_epi32 a0 b0 in
  let c01 := _mm512_unpacklo_epi32 c0 d0 in
  let c0 := _mm512_unpackhi_epi32 c0 d0 in
  let b0 := _mm512_unpacklo_epi64 a01 c01 in
  let a01 := _mm512_unpackhi_epi64 a01 c01 in
  let d0 := _mm512_unpacklo_epi64 a0 c0 in
  let c01 := _mm512_unpackhi_epi64 a0 c0 in
  let a0 := _mm512_permutex2var_epi64 b0 selector1 a01 in
  let c0 := _mm512_permutex2var_epi64 d0 selector1 c01 in
  let b0 := _mm512_permutex2var_epi64 b0 selector1_1 a01 in
  let d0 := _mm512_permutex2var_epi64 d0 selector1_1 c01 in
  let a01 := _mm512_permutex2var_epi64 a0 selector2 c0 in
  let c01 := _mm512_permutex2var_epi64 b0 selector2 d0 in
  let a0 := _mm512_permutex2var_epi64 a0 selector2_1 c0 in
  let c0 := _mm512_permutex2var_epi64 b0 selector2_1 d0 in
  (a01, a0, c01, c0).

Definition m6_pieces (a0 b0 c0 d0 e0 f0 : list A) : list (piece A) :=
  let e01 := _mm512_unpacklo_epi32 e0 f0 in
  let e0 := _mm512_unpackhi_epi32 e0 f0 in
  let '(a01, a0, c01, c0) := interleave4 a0 b0 c0 d0 in
  let selector3 := _mm512_setr_epi64 0x0 0x1 0x8 0x2 0x3 0x9 0x4 0x5 in
  let selector4 := _mm512_setr_epi64 0x8 0x6 0x7 0x9 0x0 0x0 0x0 0x0 in
  let selector5 := _mm512_setr_epi64 0x0 0x1 0xA 0x2 0x3 0xB 0x4 0x5 in
  let selector6 := _mm512_setr_epi64 0xA 0x6 0x7 0xB 0x0 0x0 0x0 0x0 in
  let selector7 := _mm512_setr_epi64 0x0 0x1 0xC 0x2 0x3 0xD 0x4 0x5 in
  let selector8 := _mm512_setr_epi64 0xC 0x6 0x7 0xD 0x0 0x0 0x0 0x0 in
  let selector9 := _mm512_setr_epi64 0x0 0x1 0xE 0x2 0x3 0xF 0x4 0x5 in
  let selector10 := _mm512_setr_epi64 0xE 0x6 0x7 0xF 0x0 0x0 0x0 0x0 in
  let b0 := _mm512_permutex2var_epi64 a01 selector3 e01 in
  let a01 := _mm512_permutex2var_epi64 a01 selector4 e0 in
  let d0 := _mm512_permutex2var_epi64 a0 selector5 e01 in
  let a0 := _mm512_permutex2var_epi64 a0 selector6 e0 in
  let b0' := _mm512_permutex2var_epi64 c01 selector7 e01 in
  let c01 := _mm512_permutex2var_epi64 c01 selector8 e0 in
  let d0' := _mm512_permutex2var_epi64 c0 selector9 e01 in
  let c0 := _mm512_permutex2var_epi64 c0 selector10 e0 in
  [Full 0 b0; Full 64 a01; Full 96 d0; LastPiece256 160 (_mm512_castsi512_si256 a0);
   Full 192 b0'; Full 256 c01; Full 288 d0'; LastPiece256 352 (_mm512_castsi512_si256 c0)].

Definition m5_pieces (a0 b0 c0 d0 e0 : list A) : list (piece A) :=
  let '(a01, a0, c01, c0) := interleave4 a0 b0 c0 d0 in
  let selector3 := _mm512_setr_epi32 [0x0; 0x1; 0x2; 0x3; 0x10; 0x4; 0x5; 0x6; 0x7; 0x11; 0x8; 0x9; 0xA; 0xB; 0x12; 0xC] in
  let selector4 := _mm512_setr_epi32 [0xD; 0xE; 0xF; 0x13; 0x0; 0x0; 0x0; 0x0; 0x0; 0x0; 0x0; 0x0; 0x0; 0x0; 0x0; 0x0] in
  let selector5 := _mm512_setr_epi32 [0x0; 0x1; 0x2; 0x3; 0x14; 0x4; 0x5; 0x6; 0x7; 0x15; 0x8; 0x9; 0xA; 0xB; 0x16; 0xC] in
  let selector6 := _mm512_setr_epi32 [0xD; 0xE; 0xF; 0x17; 0x0; 0x0; 0x0; 0x0; 0x0; 0x0; 0x0; 0x0; 0x0; 0x0; 0x0; 0x0] in
  let selector7 := _mm512_setr_epi32 [0x0; 0x1; 0x2; 0x3; 0x18; 0x4; 0x5; 0x6; 0x7; 0x19; 0x8; 0x9; 0xA; 0xB; 0x1A; 0xC] in
  let selector8 := _mm512_setr_epi32 [0xD; 0xE; 0xF; 0x1B; 0x0; 0x0; 0x0; 0x0; 0x0; 0x0; 0x0; 0x0; 0x0; 0x0; 0x0; 0x0] in
  let selector9 := _mm512_setr_epi32 [0x0; 0x1; 0x2; 0x3; 0x1C; 0x4; 0x5; 0x6; 0x7; 0x1D; 0x8; 0x9; 0xA; 0xB; 0x1E; 0xC] in
  let selector10 := _mm512_setr_epi32 [0xD; 0xE; 0xF; 0x1F; 0x0; 0x0; 0x0; 0x0; 0x0; 0x0; 0x0; 0x0; 0x0; 0x0; 0x0; 0x0] in
  let b0 := _mm512_permutex2var_epi32 a01 selector3 e0 in
  let a01 := _mm512_permutex2var_epi32 a01 selector4 e0 in
  let d0 := _mm512_permutex2var_epi32 a0 selector5 e0 in
  let a0 := _mm512_permutex2var_epi32 a0 selector6 e0 in
  let b0' := _mm512_permutex2var_epi32 c01 selector7 e0 in
  let c01 := _mm512_permutex2var_epi32 c01 selector8 e0 in
  let d0' := _mm512_permutex2var_epi32 c0 selector9 e0 in
  let c0 := _mm512_permutex2var_epi32 c0 selector10 e0 in
  [Full 0 b0; Full 64 a01; Full 80 d0; LastPiece128 144 (_mm512_castsi512_si128 a0);
   Full 160 b0'; Full 224 c01; Full 240 d0'; LastPiece128 304 (_mm512_castsi512_si128 c0)].

Definition m4_pieces (a0 b0 c0 d0 : list A) : list (piece A) :=
  let '(a01, a0, c01, c0) := interleave4 a0 b0 c0 d0 in
  [Full 0 a01; Full 64 a0; Full 128 c01; Full 192 c0].

Definition m3_pieces (a0 b0 c0 : list A) : list (piece A) :=
  let selector3 := _mm512_setr_epi32 [0x0; 0x1; 0x10; 0x2; 0x3; 0x11; 0x4; 0x5; 0x12; 0x6; 0x7; 0x13; 0x8; 0x9; 0x14; 0xA] in
  let selector4 := _mm512_setr_epi32 [0xB; 0x15; 0xC; 0xD; 0x16; 0xE; 0xF; 0x17; 0x0; 0x0; 0x0; 0x0; 0x0; 0x0; 0x0; 0x0] in
  let selector5 := _mm512_setr_epi32 [0x0; 0x1; 0x18; 0x2; 0x3; 0x19; 0x4; 0x5; 0x1A; 0x6; 0x7; 0x1B; 0x8; 0x9; 0x1C; 0xA] in
  let selector6 := _mm512_setr_epi32 [0xB; 0x1D; 0xC; 0xD; 0x1E; 0xE; 0xF; 0x1F; 0x0; 0x0; 0x0; 0x0; 0x0; 0x0; 0x0; 0x0] in
  let a01 := _mm512_unpacklo_epi32 a0 b0 in
  let a0 := _mm512_unpackhi_epi32 a0 b0 in
  let b0 := _mm512_permutex2var_epi64 a01 selector1 a0 in
  let a01 := _mm512_permutex2var_epi64 a01 selector1_1 a0 in
  let a0 := _mm512_permutex2var_epi32 b0 selector3 c0 in
  let b0 := _mm512_permutex2var_epi32 b0 selector4 c0 in
  let a0' := _mm512_permutex2var_epi32 a01 selector5 c0 in
  let b0' := _mm512_permutex2var_epi32 a01 selector6 c0 in
  [Full 0 a0; Full 64 b0; Full 96 a0'; LastPiece256 160 (_mm512_castsi512_si256 b0')].

Definition m2_pieces (a0 b0 : list A) : list (piece A) :=
  let a01 := _mm512_unpacklo_epi32 a0 b0 in
  let a0 := _mm512_unpackhi_epi32 a0 b0 in
  let b0 := _mm512_permutex2var_epi64 a01 selector1 a0 in
  let a01 := _mm512_permutex2var_epi64 a01 selector1_1 a0 in
  [Full 0 b0; Full 64 a01].

Definition m1_pieces (a0 : list A) : list (piece A) := [Full 0 a0].
End rows.

Definition store_piece (m : mem) (base : Z) (p : piece Z) : mem :=
  match p with
  | Full off v => _mm512_storeu_si512 m (base + off) v
  | LastPiece256 off v => _mm256_mask_storeu_epi64 m (base + off) 0xFF v
  | LastPiece128 off v => _mm_mask_storeu_epi64 m (base + off) 0xFF v
  end.

(** The loop over the columns, [NR] at a time, for [w] rows; [ld r] reads a row. *)
Definition k64_loop (w : Z) (pieces : (Z -> vec) -> list (piece Z)) (a : mem) (dst src lda KC : Z) (m : mem) : mem :=
  let NR := 64 in
  foldl (fun m kr =>
      foldl (fun m p => store_piece m (dst + kr * w) p) m
        (pieces (fun r => _mm512_loadu_si512 a (src + lda * r + kr))))
    m (loop_points 0 KC NR).

Definition dlp_packa_m5_k64_u8s8s32o32 (a : mem) (dst src lda KC : Z) (m : mem) : mem :=
  k64_loop 5 (fun ld => m5_pieces (ld 0) (ld 1) (ld 2) (ld 3) (ld 4)) a dst src lda KC m.
Definition dlp_packa_m4_k64_u8s8s32o32 (a : mem) (dst src lda KC : Z) (m : mem) : mem :=
  k64_loop 4 (fun ld => m4_pieces (ld 0) (ld 1) (ld 2) (ld 3)) a dst src lda KC m.
Definition dlp_packa_m3_k64_u8s8s32o32 (a : mem) (dst src lda KC : Z) (m : mem) : mem :=
  k64_loop 3 (fun ld => m3_pieces (ld 0) (ld 1) (ld 2)) a dst src lda KC m.
Definition dlp_packa_m2_k64_u8s8s32o32 (a : mem) (dst src lda KC : Z) (m : mem) : mem :=
  k64_loop 2 (fun ld => m2_pieces (ld 0) (ld 1)) a dst src lda KC m.
Definition dlp_packa_m1_k64_u8s8s32o32 (a : mem) (dst src lda KC : Z) (m : mem) : mem :=
  k64_loop 1 (fun ld => m1_pieces (ld 0)) a dst src lda KC m.

(** Six rows at a time, then the rows that are left. *)
Definition dlp_packa_k64_u8s8s32o32 (a : mem) (dst src lda MC KC : Z) (m : mem) : mem * (Z * Z) :=
  let MR := 6 in
  let m_full_pieces := MC `quot` MR in
  let m_full_pieces_loop_limit := m_full_pieces * MR in
  let m_partial_pieces := MC `rem` MR in
  let m := foldl (fun m ic =>
      k64_loop 6 (fun ld => m6_pieces (ld 0) (ld 1) (ld 2) (ld 3) (ld 4) (ld 5)) a
        (dst + ic * KC) (src + lda * ic) lda KC m)
    m (loop_points 0 m_full_pieces_loop_limit MR) in
  let dst := dst + m_full_pieces_loop_limit * KC in
  let src := src + lda * m_full_pieces_loop_limit in
  let m :=
    if 0 <? m_partial_pieces then
      if m_partial_pieces =? 5 then dlp_packa_m5_k64_u8s8s32o32 a dst src lda KC m
      else if m_partial_pieces =? 4 then dlp_packa_m4_k64_u8s8s32o32 a dst src lda KC m
      else if m_partial_pieces =? 3 then dlp_packa_m3_k64_u8s8s32o32 a dst src lda KC m
      else if m_partial_pieces =? 2 then dlp_packa_m2_k64_u8s8s32o32 a dst src lda KC m
      else if m_partial_pieces =? 1 then dlp_packa_m1_k64_u8s8s32o32 a dst src lda KC m
      else m
    else m in
  (m, (4, 24)).

(** The kernels of the s8 directory (kernels/zen4/s8s8s32/dlp_gemm_packa_s8_amd512vnni.c)
    are the same code on [int8_t]. *)
Definition dlp_packa_m5_k64_s8s8s32os32 := dlp_packa_m5_k64_u8s8s32o32.
Definition dlp_packa_m4_k64_s8s8s32os32 := dlp_packa_m4_k64_u8s8s32o32.
Definition dlp_packa_m3_k64_s8s8s32os32 := dlp_packa_m3_k64_u8s8s32o32.
Definition dlp_packa_m2_k64_s8s8s32os32 := dlp_packa_m2_k64_u8s8s32o32.
Definition dlp_packa_m1_k64_s8s8s32os32 := dlp_packa_m1_k64_u8s8s32o32.
Definition dlp_packa_k64_s8s8s32os32 := dlp_packa_k64_u8s8s32o32.

(** ** The packing kernel of the context *)
Definition dlp_packa_u8s8s32os32 (garbage : list vec) (a : mem) (pack_a_buffer src rs cs MC KC : Z) (m : mem) : mem * (Z * Z) :=
  if rs =? 1
  then dlp_packa_mr16_u8s8s32o32_col_major garbage a pack_a_buffer src rs cs MC KC m
  else dlp_packa_k64_u8s8s32o32 a pack_a_buffer src rs MC KC m.
