(* ===== verification/PackA8Ok.v ===== *)
(** * The packing kernels of A are correct

    Whatever the registers hold from earlier steps, every kernel of [PackA8] leaves the
    rows of its block one after the other and writes no byte besides. *)
From S2P Require Import Prelude Word TeamMachine TeamCorrect GemvTeam Simd PackB8 PackB8Ok PackA8.
From stdpp Require Import list.
#[local] Open Scope Z_scope.

(** ** Registers *)

(** Sixteen registers of sixteen bytes. *)
Definition regs_ok (r : list vec) : Prop := length r = 16%nat /\ Forall (fun v => length v = 16%nat) r.

Lemma vec_image (v : vec) n : 0 <= n -> length v = Z.to_nat n -> v = byte_at v <$> seqZ 0 n.
Proof.
  intros Hn Hv. apply list_eq. intros i. rewrite list_lookup_fmap. destruct (v !! i) as [x|] eqn:E.
  - pose proof (lookup_lt_Some _ _ _ E). rewrite (proj2 (lookup_seqZ 0 n i (Z.of_nat i))) by lia. cbn.
    unfold byte_at. rewrite Nat2Z.id. by rewrite (list_lookup_total_correct _ _ _ E).
  - apply lookup_ge_None in E. rewrite lookup_seqZ_ge by lia. done.
Qed.

(** The registers as parts of one sequence of bytes. *)
Lemma regs_image r : regs_ok r ->
  r = (fun j => (fun i => byte_at (r !!! Z.to_nat (i / 16)) (i mod 16)) <$> seqZ (16 * j) 16) <$> seqZ 0 16.
Proof.
  intros [Hl Hr]. apply list_eq. intros j. rewrite list_lookup_fmap. destruct (r !! j) as [v|] eqn:E.
  - pose proof (lookup_lt_Some _ _ _ E). rewrite (proj2 (lookup_seqZ 0 16 j (Z.of_nat j))) by lia. cbn. f_equal.
    rewrite (seqZ_from_0 (16 * _)), <- list_fmap_compose.
    rewrite (vec_image v 16) at 1; [|done|by apply (Forall_lookup_1 _ _ _ _ Hr E)].
    apply list_fmap_ext. intros k x Hx%lookup_seqZ. cbn.
    assert ((16 * Z.of_nat j + x) / 16 = Z.of_nat j /\ (16 * Z.of_nat j + x) mod 16 = x) as [-> ->] by (split; dlia).
    rewrite Nat2Z.id. by rewrite (list_lookup_total_correct _ _ _ E).
  - apply lookup_ge_None in E. by rewrite lookup_seqZ_ge by lia.
Qed.

Lemma unpack_length w hi (x y : vec) : w = 1%nat \/ w = 2%nat \/ w = 4%nat \/ w = 8%nat ->
  length x = 16%nat -> length y = 16%nat -> length (unpack 1 w hi x y) = 16%nat.
Proof.
  intros Hw Hx Hy. rewrite (vec_image x 16), (vec_image y 16) by done.
  set (g := fun i => if i <? 16 then byte_at x i else byte_at y (i - 16)).
  assert (byte_at x <$> seqZ 0 16 = g <$> seqZ 0 16) as ->.
  { apply list_fmap_ext. intros j i Hi%lookup_seqZ. unfold g. by rewrite (proj2 (Z.ltb_lt i 16)) by lia. }
  assert (byte_at y <$> seqZ 0 16 = g <$> seqZ 16 16) as ->.
  { rewrite (seqZ_from_0 16), <- list_fmap_compose. apply list_fmap_ext. intros j i Hi%lookup_seqZ. unfold g. cbn.
    rewrite (proj2 (Z.ltb_ge (16 + i) 16)) by lia. f_equal. lia. }
  rewrite unpack_natural, length_fmap. by destruct Hw as [-> | [-> | [-> | ->]]], hi.
Qed.

Lemma regs_ok_get r i : regs_ok r -> (i < 16)%nat -> length (r !!! i) = 16%nat.
Proof.
  intros [Hl Hr] Hi. destruct (lookup_lt_is_Some_2 r i) as [v E]; [lia|].
  rewrite (list_lookup_total_correct _ _ _ E). apply (Forall_lookup_1 _ _ _ _ Hr E).
Qed.

Lemma regs_ok_assign r l : regs_ok r -> Forall (fun iv => length iv.2 = 16%nat) l -> regs_ok (assign r l).
Proof.
  intros Hr Hl. revert r Hr. induction Hl as [|[i v] l Hv _ IH]; intros r Hr; [done|]. apply IH. destruct Hr as [H1 H2].
  split; cbn; [by rewrite length_insert|]. by apply Forall_insert.
Qed.

Definition file_ok (s : @reg_file Z) : Prop := regs_ok s.1 /\ regs_ok s.2.

Definition small (l : list (nat * nat * nat)) : Prop := Forall (fun d => (d.1.2 < 16 /\ d.2 < 16)%nat) l.

Lemma to_b_ok w hi l s : w = 1%nat \/ w = 2%nat \/ w = 4%nat \/ w = 8%nat -> small l -> file_ok s -> file_ok (to_b (unpack 1 w hi) l s).
Proof.
  intros Hw Hl [Ha Hb]. split; [done|]. apply regs_ok_assign; [done|]. apply Forall_fmap. eapply Forall_impl; [exact Hl|].
  intros [[d i] j] [Hi Hj]. by apply unpack_length; [|apply regs_ok_get..].
Qed.

Lemma to_a_ok w hi l s : w = 1%nat \/ w = 2%nat \/ w = 4%nat \/ w = 8%nat -> small l -> file_ok s -> file_ok (to_a (unpack 1 w hi) l s).
Proof.
  intros Hw Hl [Ha Hb]. split; [|done]. apply regs_ok_assign; [done|]. apply Forall_fmap. eapply Forall_impl; [exact Hl|].
  intros [[d i] j] [Hi Hj]. by apply unpack_length; [|apply regs_ok_get..].
Qed.

Ltac macros_ok := repeat first [apply to_a_ok | apply to_b_ok]; try tauto; repeat (constructor; [cbn; lia|]); try constructor.


(** ** The transpositions *)

Lemma sixteen {A} (b : list A) : length b = 16%nat ->
  exists b0 b1 b2 b3 b4 b5 b6 b7 b8 b9 b10 b11 b12 b13 b14 b15,
    b = [b0; b1; b2; b3; b4; b5; b6; b7; b8; b9; b10; b11; b12; b13; b14; b15].
Proof.
  intros H. repeat (destruct b as [|? b]; [discriminate H|]). destruct b; [|discriminate H]. by repeat eexists.
Qed.

(** Evaluate the macros on registers that are images of index lists. *)
Ltac macro_move := unfold to_a, to_b; cbn [fst snd fmap list_fmap assign foldl insert list_insert list_lookup_total lookup_total]; simd_move.

Lemma rows_image (g : Z -> Z) (n : Z) :
  (fun i => (fun o => g (16 * o + i)) <$> seqZ 0 16) <$> seqZ 0 n = (fun i => g <$> ((fun o => 16 * o + i) <$> seqZ 0 16)) <$> seqZ 0 n.
Proof. apply list_fmap_ext. intros _ i _. by rewrite <- list_fmap_compose. Qed.

Lemma transpose_mr16_image (g : Z -> Z) (b : list vec) : length b = 16%nat ->
  (fun r => (transpose_mr16 ((fun j => g <$> seqZ (16 * j) 16) <$> seqZ 0 16, b)).1 !!! r) <$> rows_mr16 =
  (fun i => (fun o => g (16 * o + i)) <$> seqZ 0 16) <$> seqZ 0 16.
Proof.
  intros (b0 & b1 & b2 & b3 & b4 & b5 & b6 & b7 & b8 & b9 & b10 & b11 & b12 & b13 & b14 & b15 & ->)%sixteen.
  rewrite rows_image. replace (seqZ 0 16) with [0; 1; 2; 3; 4; 5; 6; 7; 8; 9; 10; 11; 12; 13; 14; 15] by done.
  cbn [fmap list_fmap]. unfold transpose_mr16, UNPACKLOW_EPI8. macro_move. unfold UNPACKHI_EPI8. macro_move.
  unfold UNPACKLOW_EPI16. macro_move. unfold UNPACKHI_EPI16. macro_move.
  unfold UNPACKLOW_EPI32. macro_move. unfold UNPACKHI_EPI32. macro_move.
  unfold UNPACKLOW_EPI64. macro_move. unfold UNPACKHI_EPI64. macro_move.
  unfold rows_mr16. cbn [fmap list_fmap list_lookup_total lookup_total]. repeat f_equal; vm_compute; reflexivity.
Qed.

Lemma transpose_mr8_image (g : Z -> Z) (b : list vec) : length b = 16%nat ->
  (fun r => (transpose_mr8 ((fun j => g <$> seqZ (16 * j) 16) <$> seqZ 0 16, b)).1 !!! r) <$> rows_mr8 =
  (fun i => (fun o => g (16 * o + i)) <$> seqZ 0 16) <$> seqZ 0 8.
Proof.
  intros (b0 & b1 & b2 & b3 & b4 & b5 & b6 & b7 & b8 & b9 & b10 & b11 & b12 & b13 & b14 & b15 & ->)%sixteen.
  rewrite rows_image. replace (seqZ 0 16) with [0; 1; 2; 3; 4; 5; 6; 7; 8; 9; 10; 11; 12; 13; 14; 15] by done.
  replace (seqZ 0 8) with [0; 1; 2; 3; 4; 5; 6; 7] by done.
  cbn [fmap list_fmap]. unfold transpose_mr8, UNPACKLOW_EPI8. macro_move.
  unfold UNPACKLOW_EPI16_MR8. macro_move. unfold UNPACKHI_EPI16_MR8. macro_move.
  unfold UNPACKLOW_EPI32_MR8. macro_move. unfold UNPACKHI_EPI32_MR8. macro_move.
  unfold UNPACKLOW_EPI64_MR8. macro_move. unfold UNPACKHI_EPI64_MR8. macro_move.
  unfold rows_mr8. cbn [fmap list_fmap list_lookup_total lookup_total]. repeat f_equal; vm_compute; reflexivity.
Qed.

Lemma transpose_mr4_image (g : Z -> Z) (b : list vec) : length b = 16%nat ->
  (fun r => (transpose_mr4 ((fun j => g <$> seqZ (16 * j) 16) <$> seqZ 0 16, b)).1 !!! r) <$> rows_mr4 =
  (fun i => (fun o => g (16 * o + i)) <$> seqZ 0 16) <$> seqZ 0 4.
Proof.
  intros (b0 & b1 & b2 & b3 & b4 & b5 & b6 & b7 & b8 & b9 & b10 & b11 & b12 & b13 & b14 & b15 & ->)%sixteen.
  rewrite rows_image. replace (seqZ 0 16) with [0; 1; 2; 3; 4; 5; 6; 7; 8; 9; 10; 11; 12; 13; 14; 15] by done.
  replace (seqZ 0 4) with [0; 1; 2; 3] by done.
  cbn [fmap list_fmap]. unfold transpose_mr4, UNPACKLOW_EPI8. macro_move.
  unfold UNPACKLOW_EPI16_MR8. macro_move.
  unfold UNPACKLOW_EPI32_MR4. macro_move. unfold UNPACKHI_EPI32_MR4. macro_move.
  unfold UNPACKLOW_EPI64_MR4. macro_move. unfold UNPACKHI_EPI64_MR4. macro_move.
  unfold rows_mr4. cbn [fmap list_fmap list_lookup_total lookup_total]. repeat f_equal; vm_compute; reflexivity.
Qed.

(** What the kernels need of their transposition: register [rows[i]] then holds byte [i]
    of every register. *)
Record transposes (transpose : @reg_file Z -> @reg_file Z) (rows : list nat) : Prop := mk_transposes {
  tr_file : forall s, file_ok s -> file_ok (transpose s);
  tr_rows : forall s, file_ok s -> (fun r => (transpose s).1 !!! r) <$> rows =
    (fun i => (fun o => byte_at (s.1 !!! Z.to_nat o) i) <$> seqZ 0 16) <$> seqZ 0 (Z.of_nat (length rows));
  tr_count : (length rows <= 16)%nat;
}.

Lemma transposes_image transpose rows : (length rows <= 16)%nat ->
  (forall s, file_ok s -> file_ok (transpose s)) ->
  (forall g b, length b = 16%nat ->
     (fun r => (transpose ((fun j => g <$> seqZ (16 * j) 16) <$> seqZ 0 16, b)).1 !!! r) <$> rows =
     (fun i => (fun o => g (16 * o + i)) <$> seqZ 0 16) <$> seqZ 0 (Z.of_nat (length rows))) ->
  transposes transpose rows.
Proof.
  intros Hlen Hfile H. split; [done| |done]. intros [a b] [Ha Hb]. cbn [fst snd] in *.
  pose proof (H (fun i => byte_at (a !!! Z.to_nat (i / 16)) (i mod 16)) b (proj1 Hb)) as E.
  rewrite <- (regs_image a Ha) in E. rewrite E. apply list_fmap_ext. intros j i Hi%lookup_seqZ.
  apply list_fmap_ext. intros k o Ho%lookup_seqZ.
  assert ((16 * o + i) / 16 = o /\ (16 * o + i) mod 16 = i) as [-> ->] by (split; dlia). done.
Qed.

Lemma transposes_mr16 : transposes transpose_mr16 rows_mr16.
Proof.
  apply transposes_image; [cbn; lia| |apply transpose_mr16_image]. intros s Hs. unfold transpose_mr16. macros_ok; done.
Qed.

Lemma transposes_mr8 : transposes transpose_mr8 rows_mr8.
Proof.
  apply transposes_image; [cbn; lia| |apply transpose_mr8_image]. intros s Hs. unfold transpose_mr8. macros_ok; done.
Qed.

Lemma transposes_mr4 : transposes transpose_mr4 rows_mr4.
Proof.
  apply transposes_image; [cbn; lia| |apply transpose_mr4_image]. intros s Hs. unfold transpose_mr4. macros_ok; done.
Qed.

(** Fewer rows. *)
Lemma transposes_take t rows n : transposes t rows -> transposes t (take n rows).
Proof.
  intros [Hfile Hrows Hc]. split; [done| |rewrite length_take; lia]. intros s Hs. rewrite fmap_take, Hrows by done.
  rewrite <- fmap_take. f_equal. rewrite length_take. destruct (decide (n < length rows)%nat).
  - rewrite Nat.min_l by lia. replace (Z.of_nat (length rows)) with (Z.of_nat n + Z.of_nat (length rows - n)) by lia.
    rewrite seqZ_app by lia. apply take_app_length'. rewrite length_seqZ. lia.
  - rewrite Nat.min_r by lia. apply take_ge. rewrite length_seqZ. lia.
Qed.

Lemma transposes_mrlt4 m : 1 <= m <= 3 -> transposes transpose_mr4 (rows_mrlt4 m) /\ length (rows_mrlt4 m) = Z.to_nat m.
Proof.
  intros Hm. assert (rows_mrlt4 m = take (Z.to_nat m) rows_mr4) as ->
    by (assert (m = 1 \/ m = 2 \/ m = 3) as [-> | [-> | ->]] by lia; done).
  split; [apply transposes_take, transposes_mr4|]. rewrite length_take. cbn [rows_mr4 length]. lia.
Qed.

(** ** Rows of the packed block *)

(** The first [k] elements of [w] rows, [KC] bytes apart, are packed. *)
Record packed_upto (el : Z -> Z -> Z) (dst KC w k : Z) (m m' : mem) : Prop := mk_packed_upto {
  pu_elem : forall i q, 0 <= i < w -> 0 <= q < k -> m' (dst + i * KC + q) = el i q;
  pu_frame : forall x, (forall i q, 0 <= i < w -> 0 <= q < k -> x <> dst + i * KC + q) -> m' x = m x;
}.

Lemma row_position KC i q i' q' : 0 <= q < KC -> 0 <= q' < KC -> i * KC + q = i' * KC + q' -> i = i' /\ q = q'.
Proof. intros Hq Hq' E. assert (i = i') as -> by nia. split; lia. Qed.

Lemma row_stores_image store dst KC kr rows a (h : Z -> vec) m :
  (fun r => a !!! r) <$> rows = h <$> seqZ 0 (Z.of_nat (length rows)) ->
  row_stores store dst KC kr rows a m =
  foldl (fun m i => store m (dst + i * KC + kr) (h i)) m (seqZ 0 (Z.of_nat (length rows))).
Proof.
  unfold row_stores. generalize (seqZ 0 (Z.of_nat (length rows))). intros l. revert rows m.
  induction l as [|i l IH]; intros [|r rows] m E; try done. cbn in E. injection E as E1 E2.
  cbn [zip zip_with foldl]. rewrite E1. by apply IH.
Qed.

(** [store] writes [n] bytes of a register. *)
Definition stores_prefix (store : mem -> Z -> vec -> mem) (n : Z) : Prop :=
  forall m p v x, length v = 16%nat -> store m p v x = prefix_store n m p v x.

Lemma row_stores_ok store n dst KC kr w h m :
  stores_prefix store n -> 0 <= n <= 16 -> 0 <= kr -> kr + n <= KC -> 0 <= w ->
  let m' := foldl (fun m i => store m (dst + i * KC + kr) ((fun o => h i o) <$> seqZ 0 16)) m (seqZ 0 w) in
  (forall i o, 0 <= i < w -> 0 <= o < n -> m' (dst + i * KC + (kr + o)) = h i o) /\
  (forall x, (forall i o, 0 <= i < w -> 0 <= o < n -> x <> dst + i * KC + (kr + o)) -> m' x = m x).
Proof.
  intros Hst Hn Hkr HKC Hw m'. subst m'. pattern w. revert w Hw.
  apply natlike_ind; [split; [lia|done]|]. intros w Hw [IH1 IH2].
  unfold Z.succ. rewrite seqZ_app, foldl_app, Z.add_0_l, (seqZ_cons w), (seqZ_nil (Z.succ w)) by lia. cbn [foldl].
  set (m' := foldl _ _ _) in *.
  assert (forall x, store m' (dst + w * KC + kr) ((fun o => h w o) <$> seqZ 0 16) x =
    fill m' (dst + w * KC + kr) (dst + w * KC + kr + n) (fun y => h w (y - (dst + w * KC + kr))) x) as E.
  { intros x. rewrite Hst by (by rewrite length_fmap, length_seqZ). unfold prefix_store, fill.
    destruct (Z.leb_spec (dst + w * KC + kr) x); [|done]. destruct (Z.ltb_spec x (dst + w * KC + kr + n)); [|done].
    cbn [andb]. by rewrite byte_at_image by lia. }
  split.
  - intros i o Hi Ho. rewrite E. destruct (decide (i = w)) as [->|].
    + rewrite fill_in by lia. f_equal. lia.
    + rewrite fill_out; [apply IH1; lia|]. assert (i * KC <= w * KC - KC) by nia. lia.
  - intros x Hx. rewrite E. rewrite fill_out.
    + apply IH2. intros i o Hi Ho. apply Hx; lia.
    + destruct (decide (x < dst + w * KC + kr)); [by left|]. destruct (decide (x < dst + w * KC + kr + n)); [|right; lia].
      exfalso. apply (Hx w (x - (dst + w * KC + kr))); lia.
Qed.

Lemma storeu_16 : stores_prefix _mm_storeu_si128 16.
Proof. intros m p v x Hv. unfold _mm_storeu_si128. by rewrite storeu_prefix, Hv. Qed.

Lemma masked_prefix w n : 0 < w -> 0 <= n -> w * n <= 16 -> stores_prefix (fun m p => mask_storeu w m p (Z.ones n)) (w * n).
Proof. intros Hw Hn Hwn m p v x Hv. apply mask_storeu_prefix; lia. Qed.

(** ** The loop over the columns *)
Section loop.
Context (ld : Z -> vec) (transpose : @reg_file Z -> @reg_file Z) (rows : list nat) (dst KC : Z) (m0 : mem).
Context (el : Z -> Z -> Z).

Local Abbreviation w := (Z.of_nat (length rows)).

Hypothesis Ht : transposes transpose rows.
Hypothesis Hld : forall q, exists f, ld q = f <$> seqZ 0 16 /\ forall i, 0 <= i < w -> f i = el i q.

Record at_column (k : Z) (s : pack_state) : Prop := mk_at_column {
  ac_file : file_ok (regs s);
  ac_kr : kr s = k;
  ac_packed : packed_upto el dst KC w k m0 (packed s);
}.

Lemma ld_length q : length (ld q) = 16%nat.
Proof using Hld. destruct (Hld q) as (f & -> & _). by rewrite length_fmap, length_seqZ. Qed.

Lemma load_regs a q n : 0 <= n <= 16 -> regs_ok a ->
  let a' := assign a ((fun o => (Z.to_nat o, ld (q + o))) <$> seqZ 0 n) in
  regs_ok a' /\ forall o, 0 <= o < n -> a' !!! Z.to_nat o = ld (q + o).
Proof using Hld.
  intros [Hn0 Hn] Ha a'. subst a'. split.
  { apply regs_ok_assign; [done|]. apply Forall_fmap, Forall_forall. intros o _. apply ld_length. }
  revert Hn. pattern n. revert n Hn0. apply natlike_ind; [lia|]. intros n Hn IH Hle o Ho. unfold Z.succ in *.
  unfold assign in *. rewrite seqZ_app, fmap_app, foldl_app, Z.add_0_l, (seqZ_cons n), (seqZ_nil (Z.succ n)) by lia.
  cbn [fmap list_fmap foldl fst snd]. set (a' := foldl _ _ _) in *.
  assert (length a' = 16%nat) as Hl.
  { apply (regs_ok_assign a); [done|]. apply Forall_fmap, Forall_forall. intros o' _. apply ld_length. }
  destruct (decide (o = n)) as [->|].
  - by rewrite list_lookup_total_insert_eq by lia.
  - rewrite list_lookup_total_insert_ne by lia. apply IH; lia.
Qed.

Lemma pack_step_ok n store s k : stores_prefix store n -> 0 <= n <= 16 -> 0 <= k -> k + n <= KC ->
  at_column k s -> at_column (k + n) (pack_step ld transpose rows dst KC n store s).
Proof using Ht Hld.
  intros Hst Hn Hk HKC [[Ha Hb] Ekr [Helem Hframe]]. unfold pack_step. rewrite Ekr.
  destruct (load_regs (regs s).1 k n Hn Ha) as [Ha' Hl]. cbn zeta in Ha', Hl. set (a' := assign _ _) in *.
  set (rf := transpose (a', (regs s).2)).
  assert (file_ok (a', (regs s).2)) as Hf by done.
  split; cbn [regs kr packed]; [by apply (tr_file _ _ Ht)|done|].
  rewrite (row_stores_image _ _ _ _ _ _ (fun i => (fun o => byte_at (a' !!! Z.to_nat o) i) <$> seqZ 0 16))
    by (by apply (tr_rows _ _ Ht)).
  destruct (row_stores_ok store n dst KC k w (fun i o => byte_at (a' !!! Z.to_nat o) i) (packed s) Hst Hn Hk HKC ltac:(lia))
    as [Hin Hout]. cbn zeta in Hin, Hout. split.
  - intros i q Hi Hq. destruct (decide (q < k)).
    + rewrite Hout; [apply Helem; lia|]. intros i' o Hi' Ho E.
      destruct (row_position KC i q i' (k + o)); lia.
    + replace q with (k + (q - k)) at 1 by lia. rewrite Hin, Hl by lia. destruct (Hld (k + (q - k))) as (f & -> & Ef).
      pose proof (tr_count _ _ Ht). rewrite byte_at_image by lia. rewrite Ef by lia. f_equal. lia.
  - intros x Hx. rewrite Hout; [apply Hframe; intros i q Hi Hq; apply Hx; lia|].
    intros i o Hi Ho. apply Hx; lia.
Qed.

Lemma pack_rest_ok n store s k : stores_prefix store n -> 0 <= n <= 16 -> 0 <= k -> at_column k s ->
  let s' := if kr s + (n - 1) <? KC then pack_step ld transpose rows dst KC n store s else s in
  at_column (if k + n <=? KC then k + n else k) s'.
Proof using Ht Hld.
  intros Hst Hn Hk Hs. cbn zeta. rewrite (ac_kr _ _ Hs). destruct (Z.ltb_spec (k + (n - 1)) KC).
  - rewrite (proj2 (Z.leb_le (k + n) KC)) by lia. apply pack_step_ok; (done || lia).
  - by rewrite (proj2 (Z.leb_gt (k + n) KC)) by lia.
Qed.

Lemma pack_rows_ok rf m : 0 <= KC -> file_ok rf -> m0 = m -> at_column KC (pack_rows ld transpose rows dst KC rf m).
Proof using Ht Hld.
  intros HKC Hrf Em. unfold pack_rows. cbn zeta. rewrite crem_nonneg by lia.
  pose proof (Z.div_mod KC 16 ltac:(lia)) as EK. pose proof (Z.mod_pos_bound KC 16 ltac:(lia)) as Hr.
  set (r := KC mod 16) in *. set (full := 16 * (KC / 16)) in *. assert (0 <= full) by (unfold full; dlia).
  destruct (loop_points_foldl (fun s _ => pack_step ld transpose rows dst KC 16 _mm_storeu_si128 s)
    (fun k s => at_column k s) 16 (KC - 15) ltac:(lia) 0 (mk_pack_state rf m 0)) as (e & He & He1 & He2 & He3 & [q Hq] & He4).
  { split; [done|done|]. subst m. split; [lia|done]. }
  { intros k s Hk Hlt _ Hs. apply pack_step_ok; [apply storeu_16|lia..|done]. }
  assert (e = full) as -> by (unfold full in *; destruct (decide (0 < KC - 15)); [|rewrite He4]; lia).
  set (s0 := foldl _ _ _) in *. destruct (Z.ltb_spec 0 r); cycle 1.
  { replace KC with full at 1 by lia. done. }
  pose proof (pack_rest_ok 8 (MASKED_STORE_EPI32 0x03) s0 full (masked_prefix 4 2 ltac:(lia) ltac:(lia) ltac:(lia)) ltac:(lia) ltac:(lia) He) as H1.
  cbn zeta in H1. change (8 - 1) with 7 in H1. set (s1 := if _ <? KC then _ else s0) in *.
  set (k1 := if full + 8 <=? KC then _ else _) in H1. assert (0 <= k1 /\ KC - 8 < k1 <= KC) as Hk1 by (unfold k1; zcase; lia).
  pose proof (pack_rest_ok 4 (MASKED_STORE_EPI32 0x01) s1 k1 (masked_prefix 4 1 ltac:(lia) ltac:(lia) ltac:(lia)) ltac:(lia) ltac:(lia) H1) as H2.
  cbn zeta in H2. change (4 - 1) with 3 in H2. set (s2 := if _ <? KC then _ else s1) in *.
  set (k2 := if k1 + 4 <=? KC then _ else _) in H2. assert (0 <= k2 /\ KC - 4 < k2 <= KC) as Hk2 by (unfold k2; zcase; lia).
  pose proof (pack_rest_ok 2 (MASKED_STORE_EPI16 0x01) s2 k2 (masked_prefix 2 1 ltac:(lia) ltac:(lia) ltac:(lia)) ltac:(lia) ltac:(lia) H2) as H3.
  cbn zeta in H3. change (2 - 1) with 1 in H3. set (s3 := if _ <? KC then _ else s2) in *.
  set (k3 := if k2 + 2 <=? KC then _ else _) in H3. assert (0 <= k3 /\ KC - 2 < k3 <= KC) as Hk3 by (unfold k3; zcase; lia).
  pose proof (pack_rest_ok 1 (MASKED_STORE_EPI8 0x01) s3 k3 (masked_prefix 1 1 ltac:(lia) ltac:(lia) ltac:(lia)) ltac:(lia) ltac:(lia) H3) as H4.
  cbn zeta in H4. change (1 - 1) with 0 in H4. rewrite Z.add_0_r in H4.
  replace (if k3 + 1 <=? KC then k3 + 1 else k3) with KC in H4 by (zcase; lia). exact H4.
Qed.
End loop.

(** ** The kernels *)

Lemma packed_more el dst KC w1 w2 m m1 m2 : 0 <= w1 -> 0 <= w2 ->
  packed_upto el dst KC w1 KC m m1 -> packed_upto (fun i q => el (w1 + i) q) (dst + w1 * KC) KC w2 KC m1 m2 ->
  packed_upto el dst KC (w1 + w2) KC m m2.
Proof.
  intros H1 H2 [He1 Hf1] [He2 Hf2]. split.
  - intros i q Hi Hq. destruct (decide (i < w1)).
    + rewrite Hf2; [apply He1; lia|]. intros i' q' Hi' Hq' E.
      destruct (row_position KC i q (w1 + i') q'); lia.
    + replace (dst + i * KC + q) with (dst + w1 * KC + (i - w1) * KC + q) by lia. rewrite He2 by lia. f_equal. lia.
  - intros x Hx. rewrite Hf2; [apply Hf1; intros i q Hi Hq; apply Hx; lia|].
    intros i q Hi Hq ->. apply (Hx (w1 + i) q); lia.
Qed.

Lemma packed_ext el el' dst KC w k m m' : (forall i q, 0 <= i < w -> 0 <= q < k -> el i q = el' i q) ->
  packed_upto el dst KC w k m m' -> packed_upto el' dst KC w k m m'.
Proof. intros E [He Hf]. split; [|done]. intros i q Hi Hq. by rewrite He, E. Qed.

Lemma packed_none el dst KC m : packed_upto el dst KC 0 KC m m.
Proof. split; [lia|done]. Qed.

Lemma zeros_ok : regs_ok SET_REGISTERS_ZERO.
Proof. split; [done|]. by repeat constructor. Qed.

Section kernels.
Context (garbage : list vec) (a : mem).
Hypothesis Hg : regs_ok garbage.

(** The elements of a column-major block. *)
Definition col_elem (src cs i q : Z) : Z := a (src + i + q * cs).

Lemma masked_kernel_ok n mask transpose rows dst src cs KC m :
  0 <= KC -> mask = Z.ones n -> transposes transpose rows -> Z.of_nat (length rows) <= n ->
  packed_upto (col_elem src cs) dst KC (Z.of_nat (length rows)) KC m
    (packed (pack_rows (fun kr => _mm_maskz_loadu_epi8 mask a (src + kr * cs)) transpose rows dst KC (SET_REGISTERS_ZERO, garbage) m)).
Proof using Hg.
  intros HKC -> Ht Hn.
  eapply ac_packed, (pack_rows_ok _ _ _ _ _ _ (col_elem src cs) Ht); [|done|by split; [apply zeros_ok|]|done].
  intros q. eexists. split; [reflexivity|]. intros i Hi. cbn beta. rewrite Z.ones_spec_low by lia. unfold col_elem. f_equal. lia.
Qed.

Lemma mr8_ok dst src cs KC m : 0 <= KC ->
  packed_upto (col_elem src cs) dst KC 8 KC m (dlp_packa_mr8_u8s8s32o32_col_major garbage a dst src cs KC m).
Proof using Hg. intros HKC. by apply (masked_kernel_ok 8 _ _ rows_mr8); [|..|apply transposes_mr8|]. Qed.

Lemma mr4_ok dst src cs KC m : 0 <= KC ->
  packed_upto (col_elem src cs) dst KC 4 KC m (dlp_packa_mr4_u8s8s32o32_col_major garbage a dst src cs KC m).
Proof using Hg. intros HKC. by apply (masked_kernel_ok 4 _ _ rows_mr4); [|..|apply transposes_mr4|]. Qed.

Lemma mrlt4_ok dst src cs KC m_left m : 0 <= KC -> 1 <= m_left <= 3 ->
  packed_upto (col_elem src cs) dst KC m_left KC m (dlp_packa_mrlt4_u8s8s32o32_col_major garbage a dst src cs KC m_left m).
Proof using Hg.
  intros HKC Hm. destruct (transposes_mrlt4 m_left Hm) as [Ht Hl].
  replace m_left with (Z.of_nat (length (rows_mrlt4 m_left))) at 1 by lia.
  apply (masked_kernel_ok m_left); [done| |done|lia].
  by assert (m_left = 1 \/ m_left = 2 \/ m_left = 3) as [-> | [-> | ->]] by lia.
Qed.

Lemma mr16_rows_ok dst src rs cs KC ic rf m : 0 <= KC -> rs = 1 -> file_ok rf ->
  let s := pack_rows (fun kr => _mm_loadu_si128 a (src + ic * rs + kr * cs)) transpose_mr16 rows_mr16 (dst + ic * KC) KC rf m in
  file_ok (regs s) /\
  packed_upto (fun i q => col_elem src cs (ic + i) q) (dst + ic * KC) KC 16 KC m (packed s).
Proof using.
  intros HKC -> Hrf s.
  assert (at_column rows_mr16 (dst + ic * KC) KC m (fun i q => col_elem src cs (ic + i) q) KC s) as [H1 _ H2].
  { apply pack_rows_ok; [apply transposes_mr16| |done..]. intros q. eexists. split; [reflexivity|].
    intros i Hi. cbn beta. unfold col_elem. f_equal. lia. }
  done.
Qed.

(** [w] more rows with a kernel of its own. *)
Section more_rows.
Context (f : Z -> Z -> mem -> mem) (dst src rs cs KC w : Z).
Hypothesis Hf : forall dst src m, packed_upto (col_elem src cs) dst KC w KC m (f dst src m).
Hypothesis Hrs : rs = 1.
Hypothesis Hw : 0 <= w.

Lemma more_rows_ok ic m m1 : 0 <= ic -> packed_upto (col_elem src cs) dst KC ic KC m m1 ->
  packed_upto (col_elem src cs) dst KC (ic + w) KC m (f (dst + ic * KC) (src + ic * rs) m1).
Proof using Hf Hrs Hw.
  intros Hic H1. apply (packed_more _ _ _ _ _ m m1); [done..|].
  eapply packed_ext; [|apply Hf]. intros i q _ _. unfold col_elem. f_equal. lia.
Qed.

Lemma more_rows_if MC ic m m1 : 0 <= ic -> packed_upto (col_elem src cs) dst KC ic KC m m1 ->
  exists m2 ic2, (if ic + w - 1 <? MC then (f (dst + ic * KC) (src + ic * rs) m1, ic + w) else (m1, ic)) = (m2, ic2) /\
    packed_upto (col_elem src cs) dst KC ic2 KC m m2 /\ ic2 = (if ic + w <=? MC then ic + w else ic).
Proof using Hf Hrs Hw.
  intros Hic H1. destruct (Z.ltb_spec (ic + w - 1) MC); eexists _, _; (split; [reflexivity|]).
  - rewrite (proj2 (Z.leb_le (ic + w) MC)) by lia. split; [by apply more_rows_ok|done].
  - by rewrite (proj2 (Z.leb_gt (ic + w) MC)) by lia.
Qed.
End more_rows.

(** The whole block: element [(i, q)] of the caller's matrix is byte [i * KC + q], nothing
    else is written, and the strides returned are those of the packed block. *)
Lemma packa_mr16_ok dst src rs cs MC KC m : rs = 1 -> 0 <= MC -> 0 <= KC ->
  let '(m', strides) := dlp_packa_mr16_u8s8s32o32_col_major garbage a dst src rs cs MC KC m in
  packed_upto (col_elem src cs) dst KC MC KC m m' /\ strides = (KC, 4).
Proof using Hg.
  intros Hrs HMC HKC. unfold dlp_packa_mr16_u8s8s32o32_col_major. cbn zeta. rewrite !crem_nonneg by lia.
  change (16 - 1) with 15.
  destruct (loop_points_foldl (fun '(rf, m, _) ic =>
      let s := pack_rows (fun kr => _mm_loadu_si128 a (src + ic * rs + kr * cs)) transpose_mr16 rows_mr16 (dst + ic * KC) KC rf m in
      (regs s, packed s, ic + 16))
    (fun ic '(rf, m', ic') => file_ok rf /\ packed_upto (col_elem src cs) dst KC ic KC m m' /\ ic' = ic)
    16 (MC - 15) ltac:(lia) 0 (SET_REGISTERS_ZERO, garbage, m, 0)) as (e & He & He1 & He2 & He3 & [q Hq] & He4).
  { split; [by split; [apply zeros_ok|]|split; [apply packed_none|done]]. }
  { intros ic [[rf m'] ic'] Hic Hlt _ (Hrf & Hp & ->). destruct (mr16_rows_ok dst src rs cs KC ic rf m' HKC Hrs Hrf) as [H1 H2].
    split; [done|]. split; [|done]. by apply (packed_more _ _ _ ic 16 m m'). }
  destruct (foldl _ _ _) as [[rf m1] ic]. destruct He as (Hrf & Hp & ->).
  pose proof (Z.div_mod MC 16 ltac:(lia)) as EM. pose proof (Z.mod_pos_bound MC 16 ltac:(lia)) as Hr.
  pose proof (Z.div_mod MC 4 ltac:(lia)) as EM4. pose proof (Z.mod_pos_bound MC 4 ltac:(lia)) as Hr4.
  assert (e = 16 * (MC / 16)) as Ee by (destruct (decide (0 < MC - 15)); [|rewrite He4 in *]; lia).
  split; [|done]. destruct (Z.ltb_spec 0 (MC mod 16)); cycle 1.
  { replace MC with e by lia. done. }
  destruct (more_rows_if (fun dst src m => dlp_packa_mr8_u8s8s32o32_col_major garbage a dst src cs KC m) dst src rs cs KC 8)
    with (MC := MC) (ic := e) (m := m) (m1 := m1) as (m2 & ic2 & -> & Hp2 & E2); [intros; by apply mr8_ok|done|lia|lia|done|].
  assert (e <= ic2 /\ MC - 8 < ic2 <= MC /\ (8 | ic2)) as (Hic2 & Hlt2 & [q2 Hq2]).
  { subst ic2. split_and!; [zcase; lia|zcase; lia|zcase; lia|].
    zcase; [exists (2 * (MC / 16) + 1)|exists (2 * (MC / 16))]; lia. }
  destruct (more_rows_if (fun dst src m => dlp_packa_mr4_u8s8s32o32_col_major garbage a dst src cs KC m) dst src rs cs KC 4)
    with (MC := MC) (ic := ic2) (m := m) (m1 := m2) as (m3 & ic3 & -> & Hp3 & E3); [intros; by apply mr4_ok|done|lia|lia|done|].
  assert (MC = ic3 + MC mod 4 /\ 0 <= ic3) as [Hlt3 Hic3].
  { clear E2. subst ic3. zcase; lia. }
  destruct (Z.eqb_spec (MC mod 4) 0) as [E0|E0]; cbn [negb].
  - by replace MC with ic3 by lia.
  - rewrite Hlt3 at 1.
    apply (more_rows_ok (fun dst src m => dlp_packa_mrlt4_u8s8s32o32_col_major garbage a dst src cs KC (MC mod 4) m));
      [intros; apply mrlt4_ok; lia|done|lia|done|done].
Qed.
End kernels.

(** C7. The kernel of the context packs a block of A stored by columns exactly: for any
    numbers of rows and columns, through the remainders of 8, 4 and 1 to 3 rows and of 8,
    4, 2 and 1 columns, whatever the registers held before, byte [i * KC + q] of the buffer
    is element [(i, q)] of the block, no other byte is written, and the strides it returns
    are those of the packed block. *)
Theorem packa_columns_exact garbage a dst src cs MC KC m :
  regs_ok garbage -> 0 <= MC -> 0 <= KC ->
  let '(m', strides) := dlp_packa_u8s8s32os32 garbage a dst src 1 cs MC KC m in
  (forall i q, 0 <= i < MC -> 0 <= q < KC -> m' (dst + i * KC + q) = a (src + i + cs * q)) /\
  (forall x, ~ (dst <= x < dst + MC * KC) -> m' x = m x) /\ strides = (KC, 4).
Proof.
  intros Hg HMC HKC. unfold dlp_packa_u8s8s32os32. cbn [Z.eqb Pos.eqb].
  pose proof (packa_mr16_ok garbage a Hg dst src 1 cs MC KC m eq_refl HMC HKC) as H.
  destruct (dlp_packa_mr16_u8s8s32o32_col_major _ _ _ _ _ _ _ _ _) as [m' st]. destruct H as [[He Hf] ->].
  split_and!; [|intros x Hx; apply Hf; intros i q Hi Hq ->; nia|done].
  intros i q Hi Hq. rewrite He by done. unfold col_elem. f_equal. lia.
Qed.

(** A block of 3 x 5, [cs = 7], between two bytes the kernel leaves alone. *)
Definition example_garbage : list vec := replicate 16 (replicate 16 77).

Lemma example_garbage_ok : regs_ok example_garbage.
Proof. split; [done|]. by repeat constructor. Defined.

Lemma packa_columns_exact_witness :
  let m' := (dlp_packa_u8s8s32os32 example_garbage (fun x => x mod 256) 100 300 1 7 3 5 (fun _ => 9)).1 in
  m' (100 + 2 * 5 + 4) = (300 + 2 + 7 * 4) mod 256 /\ m' 99 = 9 /\ m' 115 = 9.
Proof.
  pose proof (packa_columns_exact example_garbage (fun x => x mod 256) 100 300 7 3 5 (fun _ => 9) example_garbage_ok
    ltac:(lia) ltac:(lia)) as H.
  destruct (dlp_packa_u8s8s32os32 _ _ _ _ _ _ _ _ _) as [m' st]. destruct H as (He & Hf & _). cbn [fst].
  split; [by apply He|]. split; apply Hf; lia.
Defined.
