(* ===== verification/PackA8Row.v ===== *)
(** * The packing kernels of an A stored by rows

    A step of 64 columns leaves four bytes of each row in turn.  For a block whose width
    is a multiple of 64 the kernel fills exactly its block; for other widths it reads the
    caller's rows and writes the buffer in whole steps, past their ends. *)
From S2P Require Import Prelude Word ReorderLayout TeamMachine TeamCorrect GemvTeam Simd PackB8 PackB8Ok PackA8.
From stdpp Require Import list.
#[local] Open Scope Z_scope.

Local Abbreviation round_up := dlp_reorder_round_up.

(** ** Pieces *)

Definition piece_map {A B} (f : A -> B) (p : piece A) : piece B :=
  match p with
  | Full off v => Full off (f <$> v)
  | LastPiece256 off v => LastPiece256 off (f <$> v)
  | LastPiece128 off v => LastPiece128 off (f <$> v)
  end.

Definition piece_bytes {A} (p : piece A) : Z * list A :=
  match p with Full off v | LastPiece256 off v | LastPiece128 off v => (off, v) end.

(** The masks of the last pieces leave nothing out. *)
Definition piece_fits {A} (p : piece A) : bool :=
  match p with
  | Full _ _ => true
  | LastPiece256 _ v => (length v <=? 64)%nat
  | LastPiece128 _ v => (length v <=? 64)%nat
  end.

Lemma store_piece_bytes m base p x : piece_fits p = true ->
  store_piece m base p x =
  prefix_store (Z.of_nat (length (piece_bytes p).2)) m (base + (piece_bytes p).1) (piece_bytes p).2 x.
Proof.
  assert (forall off v, (length v <= 64)%nat ->
    mask_storeu 8 m (base + off) 0xFF v x = prefix_store (Z.of_nat (length v)) m (base + off) v x) as Hm.
  { intros off v Hv. change 0xFF with (Z.ones 8). unfold mask_storeu, prefix_store, fill.
    destruct (Z.leb_spec (base + off) x); [|done]. destruct (Z.ltb_spec x (base + off + Z.of_nat (length v))); [|done].
    cbn [andb]. rewrite Z.ones_spec_low; [done|]. split; [apply Z.div_pos|apply Z.div_lt_upper_bound]; lia. }
  destruct p as [off v|off v|off v]; cbn [piece_fits piece_bytes store_piece fst snd]; [done|..];
    intros H%Nat.leb_le; by apply Hm.
Qed.

(** The byte that the last of the pieces to reach it leaves at an offset. *)
Definition last_write {A} (ps : list (piece A)) (o : Z) : option A :=
  foldl (fun acc p => let '(off, v) := piece_bytes p in
    if (off <=? o) && (o <? off + Z.of_nat (length v)) then v !! Z.to_nat (o - off) else acc) None ps.

Lemma store_pieces_last m base ps x : forallb piece_fits ps = true ->
  foldl (fun m p => store_piece m base p) m ps x = default (m x) (last_write ps (x - base)).
Proof.
  unfold last_write. induction ps as [|p ps IH] using rev_ind; intros Hf; [done|].
  rewrite forallb_app in Hf. apply andb_prop in Hf as [Hf1 Hf2]. cbn [forallb] in Hf2. rewrite andb_true_r in Hf2.
  rewrite !foldl_app. cbn [foldl]. rewrite store_piece_bytes by done. destruct (piece_bytes p) as [off v]. cbn [fst snd].
  unfold prefix_store, fill.
  destruct (Z.leb_spec (base + off) x); [rewrite (proj2 (Z.leb_le off (x - base))) by lia
                                        |rewrite (proj2 (Z.leb_gt off (x - base))) by lia; cbn [andb]; by apply IH].
  cbn [andb]. destruct (Z.ltb_spec x (base + off + Z.of_nat (length v)));
    [rewrite (proj2 (Z.ltb_lt (x - base) _)) by lia|rewrite (proj2 (Z.ltb_ge (x - base) _)) by lia; by apply IH].
  unfold byte_at. replace (x - (base + off)) with (x - base - off) by lia.
  destruct (lookup_lt_is_Some_2 v (Z.to_nat (x - base - off))) as [y E]; [lia|].
  by rewrite (list_lookup_total_correct _ _ _ E), E.
Qed.

Lemma last_write_map {A B} (f : A -> B) ps o : last_write (piece_map f <$> ps) o = f <$> last_write ps o.
Proof.
  unfold last_write. induction ps as [|p ps IH] using rev_ind; [done|]. rewrite fmap_app, !foldl_app. cbn [fmap list_fmap foldl].
  rewrite IH. destruct p as [off v|off v|off v]; cbn [piece_map piece_bytes]; rewrite length_fmap;
    (case_match; [apply list_lookup_fmap|done]).
Qed.

(** Where byte [o] of a step of [w] rows comes from: row, column, numbered row by row. *)
Definition interleaved (w o : Z) : Z := 64 * (o / 4 mod w) + (4 * (o / (4 * w)) + o mod 4).

Definition index_rows : Z -> list Z := fun r => seqZ (64 * r) 64.

(** Pieces that fill a step, as a test. *)
Definition pieces_fill (w : Z) (ps : list (piece Z)) : bool :=
  forallb piece_fits ps &&
  bool_decide ((fun o => last_write ps o) <$> seqZ 0 (64 * w) = (fun o => Some (interleaved w o)) <$> seqZ 0 (64 * w)) &&
  forallb (fun p => let '(off, v) := piece_bytes p in (0 <=? off) && (off + Z.of_nat (length v) <=? 64 * w)) ps.

Lemma last_write_out {A} w (ps : list (piece A)) o :
  forallb (fun p => let '(off, v) := piece_bytes p in (0 <=? off) && (off + Z.of_nat (length v) <=? 64 * w)) ps = true ->
  ~ (0 <= o < 64 * w) -> last_write ps o = None.
Proof.
  intros Hf Ho. unfold last_write. induction ps as [|p ps IH] using rev_ind; [done|].
  rewrite forallb_app in Hf. apply andb_prop in Hf as [Hf1 Hf2]. cbn [forallb] in Hf2. rewrite andb_true_r in Hf2.
  rewrite foldl_app. cbn [foldl]. rewrite IH by done. destruct (piece_bytes p) as [off v].
  apply andb_prop in Hf2 as [H1%Z.leb_le H2%Z.leb_le].
  destruct (Z.leb_spec off o); [|done]. by destruct (Z.ltb_spec o (off + Z.of_nat (length v))); [lia|].
Qed.

(** The stores of a step. *)
Lemma step_fill w (pieces : (Z -> vec) -> list (piece Z)) (g : Z -> Z) rows m base x :
  pieces rows = piece_map g <$> pieces index_rows -> pieces_fill w (pieces index_rows) = true ->
  foldl (fun m p => store_piece m base p) m (pieces rows) x =
  fill m base (base + 64 * w) (fun y => g (interleaved w (y - base))) x.
Proof.
  intros -> Hp. apply andb_prop in Hp as [[Hf Hd%bool_decide_eq_true]%andb_prop Ho].
  rewrite store_pieces_last; cycle 1.
  { clear Hd Ho. induction (pieces index_rows) as [|p ps IH]; [done|]. cbn in *. apply andb_prop in Hf as [Hf1 Hf2].
    rewrite IH by done. rewrite andb_true_r. destruct p; cbn in *; by rewrite ?length_fmap. }
  rewrite last_write_map. unfold fill.
  destruct (decide (0 <= x - base < 64 * w)).
  - rewrite (proj2 (Z.leb_le base x)), (proj2 (Z.ltb_lt x _)) by lia. cbn [andb].
    assert (last_write (pieces index_rows) (x - base) = Some (interleaved w (x - base))) as ->; [|done].
    pose proof (f_equal (fun l => l !! Z.to_nat (x - base)) Hd) as E. cbn beta in E.
    rewrite !list_lookup_fmap, (proj2 (lookup_seqZ 0 (64 * w) (Z.to_nat (x - base)) (x - base))) in E by lia. cbn in E. congruence.
  - rewrite (last_write_out w) by done. cbn [fmap option_fmap option_map default].
    destruct (Z.leb_spec base x); [|done]. by destruct (Z.ltb_spec x (base + 64 * w)); [lia|].
Qed.

(** ** The loop over the columns *)

(** [pieces] rearranges bytes whatever they are and fills its step. *)
Record rearranges (w : Z) (pieces : (Z -> vec) -> list (piece Z)) : Prop := mk_rearranges {
  ra_image : forall (g : Z -> Z) ld, (forall r, ld r = g <$> index_rows r) -> pieces ld = piece_map g <$> pieces index_rows;
  ra_fill : pieces_fill w (pieces index_rows) = true;
}.

Ltac rearrange := split;
  [intros g ld H; rewrite ?H; unfold m1_pieces, m2_pieces, m3_pieces, m4_pieces, m5_pieces, m6_pieces, interleave4;
   cbn zeta; simd_move; reflexivity
  |vm_compute; reflexivity].

Lemma m6_rearranges : rearranges 6 (fun ld => m6_pieces (ld 0) (ld 1) (ld 2) (ld 3) (ld 4) (ld 5)).
Proof. rearrange. Qed.
Lemma m5_rearranges : rearranges 5 (fun ld => m5_pieces (ld 0) (ld 1) (ld 2) (ld 3) (ld 4)).
Proof. rearrange. Qed.
Lemma m4_rearranges : rearranges 4 (fun ld => m4_pieces (ld 0) (ld 1) (ld 2) (ld 3)).
Proof. rearrange. Qed.
Lemma m3_rearranges : rearranges 3 (fun ld => m3_pieces (ld 0) (ld 1) (ld 2)).
Proof. rearrange. Qed.
Lemma m2_rearranges : rearranges 2 (fun ld => m2_pieces (ld 0) (ld 1)).
Proof. rearrange. Qed.
Lemma m1_rearranges : rearranges 1 (fun ld => m1_pieces (ld 0)).
Proof. rearrange. Qed.

(** Byte [o] of a packed block of [w] rows with the elements [el]. *)
Definition interleaved_elem (w : Z) (el : Z -> Z -> Z) (o : Z) : Z := el (o / 4 mod w) (4 * (o / (4 * w)) + o mod 4).

Section k64.
Context (a : mem) (dst src lda KC w : Z) (pieces : (Z -> vec) -> list (piece Z)).
Hypothesis Hw : 0 < w.
Hypothesis Hp : rearranges w pieces.

Definition row_elem_a (r q : Z) : Z := a (src + lda * r + q).

Lemma step_elem kr y : (64 | kr) -> 0 <= kr -> dst + kr * w <= y < dst + kr * w + 64 * w ->
  a (src + lda * (interleaved w (y - (dst + kr * w)) / 64) + kr + interleaved w (y - (dst + kr * w)) mod 64) =
  interleaved_elem w row_elem_a (y - dst).
Proof using Hw.
  intros [t ->] Ht Hy. set (o := y - (dst + t * 64 * w)). assert (0 <= o < 64 * w) as Ho by lia.
  unfold interleaved_elem, row_elem_a. replace (y - dst) with (o + t * 16 * (4 * w)) by lia.
  assert (0 <= o / (4 * w) < 16) by (split; [apply Z.div_pos; lia|apply Z.div_lt_upper_bound; lia]).
  pose proof (Z.mod_pos_bound o 4 ltac:(lia)).
  rewrite Z.div_add by lia. replace (o + t * 16 * (4 * w)) with (o + t * 16 * w * 4) by lia.
  rewrite Z.div_add, (Z.mod_add o) by lia. rewrite Z.mod_add by lia. unfold interleaved.
  set (c := 4 * (o / (4 * w)) + o mod 4). assert (0 <= c < 64) by lia.
  replace ((64 * (o / 4 mod w) + c) / 64) with (o / 4 mod w) by dlia.
  replace ((64 * (o / 4 mod w) + c) mod 64) with c by dlia. f_equal. lia.
Qed.


Lemma k64_loop_ok m x : 0 <= KC ->
  k64_loop w pieces a dst src lda KC m x =
  fill m dst (dst + w * round_up KC 64) (fun y => interleaved_elem w row_elem_a (y - dst)) x.
Proof using Hw Hp.
  intros HKC. rewrite round_up_eq by lia. replace (KC + 64 - 1) with (KC + 63) by lia. unfold k64_loop. cbn zeta.
  destruct (loop_points_foldl (fun m kr =>
      foldl (fun m p => store_piece m (dst + kr * w) p) m (pieces (fun r => _mm512_loadu_si512 a (src + lda * r + kr))))
    (fun kr m' => 0 <= kr /\ forall x, m' x = fill m dst (dst + w * kr) (fun y => interleaved_elem w row_elem_a (y - dst)) x)
    64 KC ltac:(lia) 0 m) as (e & [_ He] & He1 & He2 & He3 & [q Hq] & He4).
  { split; [lia|]. intros y. rewrite fill_out; [done|lia]. }
  { intros kr m' Hkr Hlt Hd [_ Hm']. rewrite Z.sub_0_r in Hd. split; [lia|]. intros y.
    rewrite (step_fill w pieces (fun z => a (src + lda * (z / 64) + kr + z mod 64))).
    - replace (dst + w * (kr + 64)) with (dst + kr * w + 64 * w) by lia.
      rewrite <- (fill_fill m dst (dst + kr * w) (dst + kr * w + 64 * w)) by nia.
      unfold fill at 1 2. destruct (Z.leb_spec (dst + kr * w) y), (Z.ltb_spec y (dst + kr * w + 64 * w)); cbn [andb];
        [by apply step_elem|..]; rewrite Hm'; do 2 f_equal; lia.
    - apply (ra_image _ _ Hp). intros r. unfold _mm512_loadu_si512, loadu, index_rows.
      rewrite (seqZ_from_0 (64 * r)), <- list_fmap_compose. apply list_fmap_ext. intros j c Hc%lookup_seqZ. cbn.
      assert ((64 * r + c) / 64 = r /\ (64 * r + c) mod 64 = c) as [-> ->] by (split; dlia). done.
    - apply (ra_fill _ _ Hp). }
  rewrite He. replace (64 * ((KC + 63) / 64)) with e; [done|]. destruct (decide (0 < KC)); [dlia|].
  rewrite He4 by lia. assert (KC = 0) as -> by lia. done.
Qed.
End k64.

(** ** The whole block *)
Section block.
Context (a : mem) (dst src lda MC KC : Z).
Hypothesis HMC : 0 <= MC.
Hypothesis HKC : 0 < KC.

(** What the kernels for the rows that are left do. *)
Definition partial_rows (w : Z) (m : mem) : mem :=
  let limit := 6 * (MC / 6) in
  let dst := dst + limit * KC in
  let src := src + lda * limit in
  if w =? 5 then dlp_packa_m5_k64_u8s8s32o32 a dst src lda KC m
  else if w =? 4 then dlp_packa_m4_k64_u8s8s32o32 a dst src lda KC m
  else if w =? 3 then dlp_packa_m3_k64_u8s8s32o32 a dst src lda KC m
  else if w =? 2 then dlp_packa_m2_k64_u8s8s32o32 a dst src lda KC m
  else if w =? 1 then dlp_packa_m1_k64_u8s8s32o32 a dst src lda KC m
  else m.

(** A group of [w] rows from row [ic] on. *)
Definition group_fill (ic w : Z) (m : mem) : mem :=
  fill m (dst + ic * KC) (dst + ic * KC + w * round_up KC 64)
    (fun y => interleaved_elem w (row_elem_a a (src + lda * ic) lda) (y - (dst + ic * KC))).

Lemma partial_rows_fill w m x : 0 < w < 6 -> partial_rows w m x = group_fill (6 * (MC / 6)) w m x.
Proof using HKC.
  intros Hw. unfold partial_rows, group_fill. cbn zeta.
  assert (w = 5 \/ w = 4 \/ w = 3 \/ w = 2 \/ w = 1) as [-> | [-> | [-> | [-> | ->]]]] by lia; cbn [Z.eqb Pos.eqb].
  - apply (k64_loop_ok a _ _ lda KC 5); [lia|apply m5_rearranges|lia].
  - apply (k64_loop_ok a _ _ lda KC 4); [lia|apply m4_rearranges|lia].
  - apply (k64_loop_ok a _ _ lda KC 3); [lia|apply m3_rearranges|lia].
  - apply (k64_loop_ok a _ _ lda KC 2); [lia|apply m2_rearranges|lia].
  - apply (k64_loop_ok a _ _ lda KC 1); [lia|apply m1_rearranges|lia].
Qed.

(** The kernel as groups of rows: an invariant of the groups of six rows that also holds
    once the last, smaller group is packed. *)
Lemma packa_k64_groups (I : Z -> mem -> Prop) m : I 0 m ->
  (forall ic w m m', 0 <= ic -> 0 < w <= 6 -> w = Z.min 6 (MC - ic) -> ic + w <= MC -> (6 | ic) ->
     (forall x, m' x = group_fill ic w m x) -> I ic m -> I (ic + w) m') ->
  I MC (dlp_packa_k64_u8s8s32o32 a dst src lda MC KC m).1.
Proof using HMC HKC.
  intros H0 Hstep. unfold dlp_packa_k64_u8s8s32o32. cbn zeta. cbn [fst]. rewrite !cquot_nonneg, !crem_nonneg by lia.
  pose proof (Z.div_mod MC 6 ltac:(lia)) as EM. pose proof (Z.mod_pos_bound MC 6 ltac:(lia)) as Hr.
  rewrite (Z.mul_comm (MC / 6)). assert (0 <= MC / 6) by (apply Z.div_pos; lia).
  destruct (loop_points_foldl (fun m ic =>
      k64_loop 6 (fun ld => m6_pieces (ld 0) (ld 1) (ld 2) (ld 3) (ld 4) (ld 5)) a (dst + ic * KC) (src + lda * ic) lda KC m)
    (fun ic m' => I ic m') 6 (6 * (MC / 6)) ltac:(lia) 0 m H0) as (e & He & He1 & He2 & He3 & [q Hq] & He4).
  { intros ic m' Hic Hlt [t Ht] HI. apply (Hstep ic 6 m'); [lia|lia|lia|lia|by exists t; lia| |done].
    intros x. apply (k64_loop_ok a _ _ lda KC 6); [lia|apply m6_rearranges|lia]. }
  assert (e = 6 * (MC / 6)) as -> by (destruct (decide (0 < 6 * (MC / 6))); [|rewrite He4]; lia).
  set (m1 := foldl _ _ _) in *. destruct (Z.ltb_spec 0 (MC mod 6)); cycle 1.
  { replace MC with (6 * (MC / 6)) at 1 by lia. done. }
  change (I MC (partial_rows (MC mod 6) m1)). rewrite EM at 1.
  apply (Hstep _ _ m1); [lia..|by exists (MC / 6); lia| |done]. intros x. apply partial_rows_fill. lia.
Qed.

(** Byte [o] of the packed block. *)
Definition rows_val (o : Z) : Z :=
  let ic := 6 * (o / (6 * KC)) in
  interleaved_elem (Z.min 6 (MC - ic)) (row_elem_a a (src + lda * ic) lda) (o - ic * KC).

Lemma packa_k64_ok m x : (64 | KC) ->
  (dlp_packa_k64_u8s8s32o32 a dst src lda MC KC m).1 x = fill m dst (dst + MC * KC) (fun y => rows_val (y - dst)) x.
Proof using HMC HKC.
  intros H64. revert x. apply (packa_k64_groups (fun ic m' => forall x, m' x = fill m dst (dst + ic * KC) (fun y => rows_val (y - dst)) x)).
  { intros x. rewrite fill_out; [done|lia]. }
  intros ic w m1 m' Hic Hw Ew HMw [t Ht] Hm' IH x. rewrite Hm'. unfold group_fill.
  replace (round_up KC 64) with KC by (symmetry; apply reorder_round_up_multiple; (done || lia)).
  replace (dst + (ic + w) * KC) with (dst + ic * KC + w * KC) by lia.
  rewrite <- (fill_fill m dst (dst + ic * KC) (dst + ic * KC + w * KC)) by nia.
  unfold fill at 1 2. destruct (Z.leb_spec (dst + ic * KC) x), (Z.ltb_spec x (dst + ic * KC + w * KC)); cbn [andb];
    try apply IH. unfold rows_val.
  assert ((x - dst) / (6 * KC) = t) as ->.
  { symmetry. apply (Z.div_unique _ (6 * KC) t (x - dst - 6 * KC * t)); [left; nia|lia]. }
  replace (6 * t) with ic by lia. rewrite <- Ew. f_equal. lia.
Qed.

(** Behind the block. *)
Lemma packa_k64_behind m : 0 < MC -> (4 | KC) -> ~ (64 | KC) ->
  (dlp_packa_k64_u8s8s32o32 a dst src lda MC KC m).1 (dst + MC * KC) = a (src + lda * (6 * ((MC - 1) / 6)) + KC).
Proof using HMC HKC.
  intros Hpos [k4 Hk4] H64.
  assert (forall ic m', ic <= MC -> (0 < ic -> m' (dst + ic * KC) = a (src + lda * (6 * ((ic - 1) / 6)) + KC)) -> ic = MC ->
    m' (dst + MC * KC) = a (src + lda * (6 * ((MC - 1) / 6)) + KC)) as Hend by (intros ic m' _ H ->; by apply H).
  eapply Hend; [reflexivity| |reflexivity].
  apply (packa_k64_groups (fun ic m' => 0 < ic -> m' (dst + ic * KC) = a (src + lda * (6 * ((ic - 1) / 6)) + KC))); [lia|].
  intros ic w m1 m' Hic Hw Ew HMw [t Ht] Hm' _ _. rewrite Hm'. unfold group_fill.
  pose proof (round_up_bounds KC 64 ltac:(lia) ltac:(lia)) as [Hru Hd].
  assert (KC < round_up KC 64) by (destruct (decide (KC = round_up KC 64)) as [E|]; [rewrite <- E in Hd; done|lia]).
  rewrite fill_in by nia. replace (dst + (ic + w) * KC - (dst + ic * KC)) with (k4 * w * 4) by lia.
  unfold interleaved_elem, row_elem_a. rewrite Z.div_mul, Z.mod_mul, (Z.mod_mul (k4 * w) 4) by lia.
  replace (k4 * w * 4) with (k4 * (4 * w)) by lia. rewrite Z.div_mul by lia.
  replace ((ic + w - 1) / 6) with t by (apply (Z.div_unique _ 6 t (w - 1)); lia). f_equal. lia.
Qed.
End block.

(** The position of row [i], column [q] in the packed block. *)
Definition rows_pos (MC KC i q : Z) : Z :=
  let ic := 6 * (i / 6) in
  ic * KC + 4 * Z.min 6 (MC - ic) * (q / 4) + 4 * (i - ic) + q mod 4.

Lemma rows_pos_val a src lda MC KC i q : (4 | KC) -> 0 <= i < MC -> 0 <= q < KC ->
  0 <= rows_pos MC KC i q < MC * KC /\ rows_val a src lda MC KC (rows_pos MC KC i q) = a (src + lda * i + q).
Proof.
  intros [k4 ->] Hi Hq. unfold rows_pos, rows_val. cbn zeta.
  pose proof (Z.div_mod i 6 ltac:(lia)) as Ei. pose proof (Z.mod_pos_bound i 6 ltac:(lia)) as Hr. set (t := i / 6) in *.
  pose proof (Z.div_mod q 4 ltac:(lia)) as Eq. pose proof (Z.mod_pos_bound q 4 ltac:(lia)) as Hq4. set (s := q / 4) in *.
  assert (0 <= t) by (apply Z.div_pos; lia). assert (0 <= s < k4) by lia.
  set (w := Z.min 6 (MC - 6 * t)). assert (i mod 6 < w <= 6) by lia.
  set (o := 4 * w * s + 4 * (i - 6 * t) + q mod 4).
  replace (6 * t * (k4 * 4) + 4 * w * s + 4 * (i - 6 * t) + q mod 4) with (6 * t * (k4 * 4) + o) by (subst o; lia).
  assert (0 <= 4 * w * s <= 4 * w * (k4 - 1)) by nia. assert (0 <= o < w * (k4 * 4)) by (subst o; lia).
  assert (w * (k4 * 4) <= 6 * (k4 * 4)) by nia. assert ((6 * t + w) * (k4 * 4) <= MC * (k4 * 4)) by nia.
  split; [nia|].
  assert ((6 * t * (k4 * 4) + o) / (6 * (k4 * 4)) = t) as ->
    by (symmetry; apply (Z.div_unique _ _ t o); [left|]; lia).
  replace (6 * t * (k4 * 4) + o - 6 * t * (k4 * 4)) with o by lia. fold w. unfold interleaved_elem, row_elem_a.
  assert (o mod 4 = q mod 4) as -> by (symmetry; apply (Z.mod_unique _ 4 (w * s + (i - 6 * t))); lia).
  assert (o / 4 = w * s + (i - 6 * t)) as -> by (symmetry; apply (Z.div_unique _ 4 _ (q mod 4)); lia).
  assert (o / (4 * w) = s) as -> by (symmetry; apply (Z.div_unique _ (4 * w) s (4 * (i - 6 * t) + q mod 4)); [left|]; lia).
  assert ((w * s + (i - 6 * t)) mod w = i - 6 * t) as -> by (symmetry; apply (Z.mod_unique _ w s); [left|]; lia).
  f_equal. lia.
Qed.

(** C37. The kernel of the context packs a block of A stored by rows in whole steps of 64
    columns.  When the number of columns is a multiple of 64 it fills exactly its block,
    four elements of each row of a group of six in turn; otherwise it stores, in the byte
    behind the block of [MC * KC] bytes the drivers allocate, what it read behind the end
    of a row of the caller's block. *)
Theorem packa_rows_whole_steps garbage a dst src rs cs MC KC m :
  rs <> 1 -> 0 < MC -> 0 < KC -> (4 | KC) ->
  let m' := (dlp_packa_u8s8s32os32 garbage a dst src rs cs MC KC m).1 in
  ((64 | KC) ->
     (forall i q, 0 <= i < MC -> 0 <= q < KC -> m' (dst + rows_pos MC KC i q) = a (src + rs * i + q)) /\
     (forall x, ~ (dst <= x < dst + MC * KC) -> m' x = m x)) /\
  (~ (64 | KC) -> m' (dst + MC * KC) = a (src + rs * (6 * ((MC - 1) / 6)) + KC)).
Proof.
  intros Hrs HMC HKC H4 m'. subst m'. unfold dlp_packa_u8s8s32os32. rewrite (proj2 (Z.eqb_neq rs 1)) by done.
  split; [intros H64; split|].
  - intros i q Hi Hq. destruct (rows_pos_val a src rs MC KC i q H4 Hi Hq) as [Hp Hv].
    rewrite packa_k64_ok, fill_in by (done || lia). rewrite <- Hv. f_equal. lia.
  - intros x Hx. rewrite packa_k64_ok, fill_out by (done || lia). done.
  - intros H64. apply packa_k64_behind; (done || lia).
Qed.

(** Seven rows of eight elements: byte 56 is behind the block of 56 bytes. *)
Lemma packa_rows_whole_steps_witness :
  (dlp_packa_u8s8s32os32 [] (fun x => x mod 256) 0 0 20 1 7 8 (fun _ => 9)).1 56 = 20 * 6 + 8 /\
  (dlp_packa_u8s8s32os32 [] (fun x => x mod 256) 0 0 64 1 2 64 (fun _ => 9)).1 (rows_pos 2 64 1 6) = 70.
Proof.
  split.
  - refine (proj2 (packa_rows_whole_steps [] (fun x => x mod 256) 0 0 20 1 7 8 (fun _ => 9) _ _ _ _) _); try lia.
    + by exists 2.
    + intros [z Hz]. lia.
  - refine (proj1 (proj1 (packa_rows_whole_steps [] (fun x => x mod 256) 0 0 64 1 2 64 (fun _ => 9) _ _ _ _) _) 1 6 _ _);
      try lia; first [by exists 16 | by exists 1].
Defined.
