(* ===== verification/PackLaws.v ===== *)
(** * The drivers with the packing of A written with intrinsics

    The drivers pack A through [packa_fun_ptr], which the function map sets to the
    hand-written [dlp_packa_u8s8s32os32] for both 8-bit integer operations, and pack B
    through the handle of a generated kernel ([dlp_execute_packb_kernel]).  Here the
    packing of A is that of [PackA8], and the generated kernels enter by their contract. *)
From S2P Require Import Prelude Word DlpTypes ThreadUtils ThreadDecor ReorderLayout Reorder GemmDriver TeamMachine TeamCorrect.
From S2P Require Import GemmCalls ReorderedTeam PackedTeam GemvTeam RefKernels GemmResult Simd PackA8 PackA8Ok.
From stdpp Require Import list.
#[local] Open Scope Z_scope.

(** The packed block of A the drivers read, a byte as an element by [val]: the kernel
    fills a buffer of its own. *)
Definition intrinsics_packa (garbage : list vec) (a : mem) (val : Z -> Z) (rs_a cs_a src m0 k0 x : Z) : Z :=
  val ((dlp_packa_u8s8s32os32 garbage a 0 src rs_a cs_a m0 k0 (fun _ => 0)).1 x).

(** An element of A in each library: a byte as [int8_t] or as [uint8_t]. *)
Definition a_value (signed : bool) (x : Z) : Z := if signed then to_i8 x else x mod 2 ^ 8.

(** The kernels of a driver: the generated ones of [G], and [packa_fun_ptr]. *)
Definition packa_kernels (signed : bool) (garbage : list vec) (a : mem) (rs_a cs_a : Z) (G : kernels) : kernels :=
  mk_kernels (packb G) (intrinsics_packa garbage a (a_value signed) rs_a cs_a) (exec G) (epilogue G).

Lemma packa_kernel_laws signed lcntx garbage a rs_a cs_a Bmem rs_b cs_b alpha G :
  regs_ok garbage -> packb_laws lcntx Bmem rs_b cs_b G -> tile_laws signed alpha G ->
  kernel_laws signed lcntx (fun x => a_value signed (a x)) rs_a cs_a Bmem rs_b cs_b alpha
    (packa_kernels signed garbage a rs_a cs_a G).
Proof.
  intros Hg [He Hs Hf] [Ht Hfr]. split; [by split| |by split].
  intros src m0 k0 i kr Hrs Hi Hkr. cbn [packa packa_kernels]. unfold intrinsics_packa, dlp_packa_u8s8s32os32.
  rewrite Hrs. cbn [Z.eqb Pos.eqb].
  pose proof (packa_mr16_ok garbage a Hg 0 src 1 cs_a m0 k0 (fun _ => 0) eq_refl ltac:(lia) ltac:(lia)) as H.
  destruct (dlp_packa_mr16_u8s8s32o32_col_major _ _ _ _ _ _ _ _ _) as [m' st]. destruct H as [[Hp _] _]. cbn [fst].
  rewrite <- (Z.add_0_l (i * k0)), Hp by lia. unfold col_elem. do 2 f_equal. lia.
Qed.

(** C3. The product with the packing of A the drivers really call: for every call whose A
    is read by rows or packed by columns through the hand-written intrinsics kernel, on
    every shape and with B packed by the threads or reordered, every interleaving of the
    team ends with the product, finished by the post-ops.  Of the kernels under the
    drivers only the generated ones, for packing B and for multiplying, enter by their
    contract. *)
Theorem int8_gemm_packa_product (signed : bool) (lcntx : dlp_gemm_cntx_t) (packb_strides : Z -> Z -> Z * Z)
    (garbage : list vec) (a : mem) (rs_a cs_a : Z) (Bmem : mem) (rs_b cs_b alpha : Z) (G : kernels) (fresh : Z -> Z)
    (m n k : Z) (mtag_a mtag_b : AOCL_DLP_MEMORY_TAG) (rs_c cs_c beta : Z) (ops : list PostOpTypes.dlp_gemm_post_op)
    (B0 : Z -> Z -> Z) (ic jc comm : Z) (calls : list gemm_call) (C0 : Z -> Z) :
  let b := blksz lcntx in
  let K := packa_kernels signed garbage a rs_a cs_a G in
  let A := fun x => a_value signed (a x) in
  (n <> 1 -> blocks_checked (NR b) 16 (NC b) (KC b) 4) -> 0 < MC b -> 0 < MR b ->
  regs_ok garbage -> packb_laws lcntx Bmem rs_b cs_b G -> tile_laws signed alpha G ->
  A_given rs_a cs_a m mtag_a -> B_given signed lcntx Bmem rs_b cs_b n k mtag_b B0 ->
  1 <= m -> 1 <= n -> 1 <= k -> n <= rs_c -> elementwise ops = true ->
  1 <= ic -> 1 <= jc -> full_team ic jc comm calls ->
  exists st0,
    start_team (rowvar signed lcntx packb_strides m n k rs_a cs_a mtag_a rs_b cs_b mtag_b rs_c cs_c beta DLP_S32 ops)
      calls C0 = Some st0 /\
    team_ends signed lcntx (kind_of m n) A Bmem K fresh st0 (fun st =>
      forall i j, 0 <= i < m -> 0 <= j < n ->
      st_C st (rs_c * i + j) = finish (epilogue G) ops i j (to_i32 (beta * C0 (rs_c * i + j) +
        alpha * zsum (fun p => a_value signed (a (rs_a * i + cs_a * p)) * B0 p j) 0 k))).
Proof.
  intros b K A Hblk HMC HMR Hg Hpb Ht HA HB Hm Hn Hk Hrs Hops Hic Hjc Hteam.
  apply (int8_gemm_team_runs signed lcntx packb_strides A rs_a cs_a Bmem rs_b cs_b alpha K fresh m n k mtag_a mtag_b
    rs_c cs_c beta ops B0 ic jc comm); try done. by apply packa_kernel_laws.
Qed.

(** ** A concrete team: the two threads of the example of the drivers *)

Lemma int8_gemm_packa_product_witness :
  let a := fun x => (5 * x + 3) mod 256 in
  let G := ref_kernels true example_cntx (fun x => to_i8 (a x)) 3 example_B 18 1 3 in
  let K := packa_kernels true example_garbage a 1 3 G in
  exists st0,
    start_team (rowvar true example_cntx (fun _ _ => (64, 16)) 3 18 6 1 3 PACK 18 1 PACK 20 1 2 DLP_S32 [])
      example_team (fun x => 100 + x) = Some st0 /\
    team_ends true example_cntx K_gemm (fun x => to_i8 (a x)) example_B K (fun _ => 7) st0 (fun st =>
      st_C st (20 * 2 + 17) =
      2 * 157 + 3 * (13 * 11 + 28 * 65 + 43 * 119 + 58 * (-83) + 73 * (-29) + 88 * 25)).
Proof.
  destruct (int8_gemm_packa_product true example_cntx (fun _ _ => (64, 16)) example_garbage
    (fun x => (5 * x + 3) mod 256) 1 3 example_B 18 1 3
    (ref_kernels true example_cntx (fun x => to_i8 ((5 * x + 3) mod 256)) 3 example_B 18 1 3)
    (fun _ => 7) 3 18 6 PACK PACK 20 1 2 [] (fun p j => load_i8 example_B (18 * p + 1 * j)) 2 1 0
    example_team (fun x => 100 + x))
    as (st0 & E & Hends); [by intros _|done|done|apply example_garbage_ok|by apply ref_packb_laws; [|by exists 1]
    |apply ref_tile_laws|right; split; [done|split; [done|by right]]|by left|lia|lia|lia|lia|done|lia|lia
    |apply example_full_team|].
  exists st0. split; [exact E|]. eapply team_ends_impl; [|exact Hends].
  intros st H. rewrite (H 2 17) by lia. vm_compute. reflexivity.
Defined.
