(* ===== verification/ReorderInt8.v ===== *)
(** * Reordering B for the 8-bit integer products
    (frame/s8s8s32/dlp_gemm_reorder_s8.c, frame/u8s8s32/dlp_gemm_reorder.c)

    The threads split the columns and each packs its tiles with the kernel of the
    context, straight into the caller's buffer; the s8 buffer has the column sums
    behind the elements, cleared before the threads start.  [signed] tells the two
    functions apart.  The buffer ends as what the drivers expect, [reordered_B], in
    every interleaving of the packing calls. *)
From S2P Require Import Prelude Word DlpTypes ThreadUtils ByteStore ReorderLayout Reorder.
From S2P Require Import GemmDriver TeamMachine TeamCorrect GemmCalls ReorderedTeam PackedTeam.
From stdpp Require Import list.
#[local] Open Scope Z_scope.

Local Abbreviation round_up := dlp_reorder_round_up.

(** ** The code *)

Section reorder.
Context (signed : bool) (lcntx : dlp_gemm_cntx_t) (rs_b cs_b n k : Z).

Local Abbreviation NC := (NC (blksz lcntx)).
Local Abbreviation KC := (KC (blksz lcntx)).
Local Abbreviation NR := (NR (blksz lcntx)).

(** Byte offset of [pack_b_column_sum] in the buffer. *)
Definition reorder_sums : Z := dlp_make_multiple_of_n n 16 * dlp_make_multiple_of_n k 4.

(** The packing call of a [pc] iteration. *)
Definition reorder_pack (jc jc_cur_loop jc_cur_loop_rem nc0 n_sub_updated pc : Z) : event :=
  let k_updated := dlp_make_multiple_of_n k 4 in
  let kc0 := Z.min (k - pc) KC in
  let kc0_updated := dlp_make_multiple_of_n kc0 4 in
  EvPackB (InPackB (jc_cur_loop * k_updated + n_sub_updated * pc + jc_cur_loop_rem * kc0_updated))
    (rs_b * pc + jc * cs_b) nc0 kc0 (col_sums signed (InPackB (reorder_sums + 4 * jc))).

(** The [jc] loop. *)
Fixpoint reorder_jc_loop (fuel : nat) (jc jc_end : Z) : option (list event) :=
  match fuel with
  | O => None
  | S fuel =>
      if jc <? jc_end then
        let nc0 := Z.min (jc_end - jc) NC in
        let '(jc_cur_loop, jc_cur_loop_rem, nc0, n_sub_updated) :=
          dlp_gemm_get_B_panel_reordered_start_offset_width jc n NC (packb_min_NR signed) nc0 in
        l ← for_upto (loop_fuel 0 k) 0 k KC
              (fun pc => Some [reorder_pack jc jc_cur_loop jc_cur_loop_rem nc0 n_sub_updated pc]);
        let jc := dlp_gemm_adjust_B_panel_reordered_jc jc_cur_loop in
        r ← reorder_jc_loop fuel (jc + NC) jc_end;
        Some (l ++ r)
      else Some []
  end.

(** One thread of the region. *)
Definition reorder_thread (n_way work_id : Z) : option (list event) :=
  let '(jc_start, jc_end) := dlp_thread_task_range (mk_task_id 0 n_way work_id) n NR false in
  reorder_jc_loop (loop_fuel jc_start jc_end) jc_start jc_end.

(** The calls of the threads of the region, in a build with or without OpenMP. *)
Definition dlp_reorderb (openmp : bool) (omp_team : Z -> Z) (n_threads : Z) : option (list (list event)) :=
  mapM (reorder_thread (region_ways openmp n_threads)) (seqZ 0 (region_threads openmp omp_team n_threads)).

(** ** Running the calls on the buffer *)

Context (K : kernels).

Fixpoint run_packs (b : pack_buf) (l : list event) : option pack_buf :=
  match l with
  | [] => Some b
  | EvPackB (InPackB o) src n0 k0 sum :: l =>
      b ← pack_into K b o src n0 k0 (sum_address sum); run_packs b l
  | _ => None
  end.

(** The column sums are cleared before the region. *)
Definition reorder_clear (b : pack_buf) : option pack_buf :=
  if signed then zero_sums b reorder_sums 0 (dlp_make_multiple_of_n n 16) else Some b.

(** The bytes the function needs. *)
Definition reorder_bytes : Z := reorder_sums + col_sums_size signed (dlp_make_multiple_of_n n 16).
End reorder.

(** OpenMP spawns the team asked for: no nesting, dynamic adjustment or thread limit
    makes it smaller. *)
Definition team_full (omp_team : Z -> Z) : Prop := forall t, 1 <= t -> omp_team t = t.

Definition dlp_reorderb_s8s8s32o32 := dlp_reorderb true.
Definition dlp_reorderb_u8s8s32o32 := dlp_reorderb false.

(** ** Lists of tiles *)

(** A packing call by its tile: the columns and the first row. *)
Record tile := mk_tile { t_jc : Z; t_nc : Z; t_pc : Z }.

Section tiles.
Context (signed : bool) (lcntx : dlp_gemm_cntx_t) (rs_b cs_b n k : Z).
Context (Bmem : Z -> Z) (K : kernels).

Local Abbreviation NC := (NC (blksz lcntx)).
Local Abbreviation KC := (KC (blksz lcntx)).
Local Abbreviation NR := (NR (blksz lcntx)).
Local Abbreviation pos := (elem_pos n k NR 16 NC KC 4).
Local Abbreviation start := (tile_start n k 16 NC KC 4).
Local Abbreviation B0 := (fun p j => load_i8 Bmem (rs_b * p + cs_b * j)).
Local Abbreviation sums := (reorder_sums n k).

Hypothesis Hl : layout_ok n k NR 16 NC KC 4.
Hypothesis HK : packb_laws lcntx Bmem rs_b cs_b K.

Definition pack_of (t : tile) : event :=
  EvPackB (InPackB (start (t_jc t) (t_pc t))) (rs_b * t_pc t + t_jc t * cs_b) (t_nc t)
    (Z.min (k - t_pc t) KC) (col_sums signed (InPackB (sums + 4 * t_jc t))).

Definition tile_good (t : tile) : Prop :=
  tile_ok n NR NC (t_jc t) (t_nc t) /\ 0 <= t_pc t < k /\ (KC | t_pc t).

(** The tile has columns of [j]; it has the element [(p, j)]. *)
Definition covers (j : Z) (t : tile) : Prop := t_jc t <= j < t_jc t + t_nc t.
#[local] Instance covers_dec j t : Decision (covers j t).
Proof. unfold covers. apply _. Defined.

Definition has_elem (p j : Z) (t : tile) : Prop := covers j t /\ t_pc t = KC * (p / KC).

Definition tile_sum (j : Z) (t : tile) : Z := zsum (fun p => B0 p j) (t_pc t) (Z.min (k - t_pc t) KC).
Definition tiles_sum (j : Z) (ts : list tile) : Z :=
  foldr (fun t acc => tile_sum j t + acc) 0 (filter (covers j) ts).

Lemma sums_behind t : tile_good t ->
  0 <= start (t_jc t) (t_pc t) /\
  start (t_jc t) (t_pc t) + round_up (t_nc t) 16 * round_up (Z.min (k - t_pc t) KC) 4 <= sums.
Proof using Hl.
  intros (Ht & Hpc & Hd). pose proof Ht as (Hjc & Hnc & _). pose proof Hl as [].
  pose proof (round_up_bounds (t_nc t) 16 ltac:(lia) ltac:(lia)) as [Hc _].
  pose proof (round_up_bounds (Z.min (k - t_pc t) KC) 4 ltac:(lia) ltac:(lia)) as [Hr _].
  pose proof (tile_in_buffer n k NR 16 NC KC 4 Hl (t_jc t) (t_nc t) (t_pc t) (start (t_jc t) (t_pc t)) Ht Hpc Hd) as H0.
  pose proof (tile_in_buffer n k NR 16 NC KC 4 Hl (t_jc t) (t_nc t) (t_pc t)
    (start (t_jc t) (t_pc t) + round_up (t_nc t) 16 * round_up (Z.min (k - t_pc t) KC) 4 - 1) Ht Hpc Hd) as H1.
  unfold in_tile, block_height, packed_elems, k_padded in *.
  change (round_up n 16 * round_up k 4) with sums in *. nia.
Qed.

(** The sums of the tile's columns, in the buffer. *)
Lemma sums_inside t : tile_good t ->
  0 <= t_jc t /\ t_jc t + round_up (t_nc t) 16 <= round_up n 16.
Proof using Hl.
  intros ((Hjc & Hnc & Hd & Hend & Hcut) & _). pose proof Hl as []. split; [done|].
  rewrite <- round_up_add; [|lia..|by apply (Z.divide_trans _ NR)].
  pose proof (round_up_bounds n 16 ltac:(lia) ltac:(lia)) as [? ?]. apply round_up_least; (done || lia).
Qed.

(** Outside its columns, a tile leaves the sums of the matrix alone. *)
Lemma sums_of_others t j : tile_good t -> 0 <= j < n -> ~ covers j t ->
  j < t_jc t \/ t_jc t + round_up (t_nc t) 16 <= j.
Proof using Hl.
  intros ((Hjc & Hnc & Hd & Hend & Hcut) & _) Hj Hc. unfold covers in Hc. pose proof Hl as [].
  destruct (decide (j < t_jc t)); [by left|right]. destruct Hcut as [|HdNR]; [lia|].
  rewrite reorder_round_up_multiple; [lia|lia|done|]. by apply (Z.divide_trans _ NR).
Qed.

(** One packing call. *)
Lemma run_pack_step t b :
  tile_good t -> reorder_bytes signed n k <= pb_size b ->
  exists b', run_packs K b [pack_of t] = Some b' /\ pb_size b' = pb_size b /\
    (forall p j, 0 <= p < k -> 0 <= j < n ->
       load_i8 (pb_bytes b') (pos p j) = if decide (has_elem p j t) then B0 p j else load_i8 (pb_bytes b) (pos p j)) /\
    (signed = true -> forall j, 0 <= j < n ->
       load_i32 (pb_bytes b') (sums + 4 * j) =
       to_i32 (load_i32 (pb_bytes b) (sums + 4 * j) + 128 * (if decide (covers j t) then tile_sum j t else 0))).
Proof using Hl HK.
  intros Hg Hsz. pose proof (sums_behind t Hg) as [Hs0 Hs1]. pose proof (sums_inside t Hg) as [Hj0 Hj1].
  pose proof (sums_of_others t) as Hothers. pose proof Hg as (Ht & Hpc & Hd). pose proof Ht as (Hjc & Hnc & _ & Hend & _).
  pose proof Hl as []. pose proof (round_up_bounds (t_nc t) 16 ltac:(lia) ltac:(lia)) as [Hru _].
  pose proof (round_up_bounds (Z.min (k - t_pc t) KC) 4 ltac:(lia) ltac:(lia)) as [Hrk _].
  assert (0 <= round_up (t_nc t) 16 * round_up (Z.min (k - t_pc t) KC) 4) by nia.
  unfold reorder_bytes in Hsz. change (dlp_make_multiple_of_n n 16) with (round_up n 16) in Hsz.
  unfold run_packs, pack_of. cbn [mbind option_bind]. unfold pack_into.
  set (o := start (t_jc t) (t_pc t)) in *. set (kc := Z.min (k - t_pc t) KC) in *.
  set (src := rs_b * t_pc t + t_jc t * cs_b). set (sm := sum_address (col_sums signed (InPackB (sums + 4 * t_jc t)))).
  assert (forall s, sm = Some s -> signed = true /\ s = sums + 4 * t_jc t) as Hsm by (intros s; subst sm; by destruct signed; intros [= <-]).
  assert ((0 <=? o) && (o + round_up (t_nc t) 16 * round_up kc 4 <=? pb_size b) &&
    match sm with Some s => (0 <=? s) && (s + 4 * round_up (t_nc t) 16 <=? pb_size b) | None => true end = true) as ->.
  { unfold col_sums_size in Hsz. rewrite (proj2 (Z.leb_le 0 o)), (proj2 (Z.leb_le (o + _) _)) by (destruct signed; lia).
    destruct sm as [s|]; [|done]. destruct (Hsm s eq_refl) as [Es ->]. rewrite Es in Hsz.
    cbn [andb]. apply andb_true_iff. rewrite !Z.leb_le. lia. }
  cbn [mbind option_bind]. eexists. split; [done|]. cbn [pb_size pb_bytes]. split; [done|]. split.
  - intros p j Hp Hj. destruct (decide (has_elem p j t)) as [[Hc Epc]|Hne].
    + unfold covers in Hc. pose proof (block_bounds KC lo_KC p) as Hb. rewrite <- Epc in Hb.
      pose proof (tile_elem_pos n k NR 16 NC KC 4 Hl (t_jc t) (t_nc t) (t_pc t) (p - t_pc t) (j - t_jc t) Ht Hpc Hd
        ltac:(lia) ltac:(lia)) as Epos. cbn zeta in Epos.
      replace (t_pc t + (p - t_pc t)) with p in Epos by lia. replace (t_jc t + (j - t_jc t)) with j in Epos by lia.
      rewrite Epos. fold o. unfold block_height. fold kc.
      change (load_i8 (packb K src (t_nc t) kc o sm (pb_bytes b)) (o + panel_pos NR (t_nc t) kc (p - t_pc t) (j - t_jc t)) = B0 p j).
      rewrite (pl_elem _ _ _ _ _ HK); [|lia|lia|intros s [_ ->]%Hsm; lia]. f_equal. subst src. lia.
    + apply load_i8_ext, (pl_frame _ _ _ _ _ HK); [lia|lia|..].
      * destruct (decide (in_tile n k 16 NC KC 4 (t_jc t) (t_nc t) (t_pc t) (pos p j))) as [Hin|Hout];
          [|unfold in_tile, block_height in Hout; fold o kc in Hout; lia].
        destruct (tile_elems n k NR 16 NC KC 4 Hl (t_jc t) (t_nc t) (t_pc t) p j Ht Hpc Hd Hp Hj Hin) as [Hpt Hjt].
        destruct Hne. split; [exact Hjt|]. symmetry. apply block_unique; [done|done|lia].
      * intros s [_ ->]%Hsm. left. pose proof (elem_pos_in_buffer n k NR 16 NC KC 4 Hl p j Hp Hj) as Hpos.
        unfold packed_elems, k_padded in Hpos. unfold reorder_sums.
        change (dlp_make_multiple_of_n n 16 * dlp_make_multiple_of_n k 4) with (round_up n 16 * round_up k 4). lia.
  - intros Hsg j Hj. clearbody o. destruct (decide (covers j t)) as [Hc|Hne].
    + unfold covers in Hc. assert (sm = Some (sums + 4 * t_jc t)) as -> by (subst sm; by rewrite Hsg).
      replace (sums + 4 * j) with (sums + 4 * t_jc t + 4 * (j - t_jc t)) by lia.
      rewrite (pl_sum _ _ _ _ _ HK) by lia. do 3 f_equal. unfold tile_sum. fold kc.
      apply (zsum_shift _ _ 0 (t_pc t) kc). intros x Hx. f_equal. subst src. lia.
    + rewrite Z.mul_0_r, Z.add_0_r.
      assert (to_i32 (load_i32 (pb_bytes b) (sums + 4 * j)) = load_i32 (pb_bytes b) (sums + 4 * j)) as ->
        by apply to_i32_idemp.
      apply load_i32_ext. intros x Hx. apply (pl_frame _ _ _ _ _ HK); [lia|lia|..].
      * right. lia.
      * intros s [_ ->]%Hsm. destruct (Hothers j Hg Hj Hne); lia.
Qed.

Lemma run_packs_cons b e l :
  run_packs K b (e :: l) = b' ← run_packs K b [e]; run_packs K b' l.
Proof using. destruct e; try done. cbn. destruct dst; try done. by destruct (pack_into _ _ _ _ _ _ _). Qed.

(** Many packing calls, in any order. *)
Lemma packs_run ts b :
  Forall tile_good ts -> reorder_bytes signed n k <= pb_size b ->
  exists b', run_packs K b (pack_of <$> ts) = Some b' /\ pb_size b' = pb_size b /\
    (forall p j, 0 <= p < k -> 0 <= j < n ->
       load_i8 (pb_bytes b) (pos p j) = B0 p j \/ Exists (has_elem p j) ts -> load_i8 (pb_bytes b') (pos p j) = B0 p j) /\
    (signed = true -> forall j, 0 <= j < n ->
       load_i32 (pb_bytes b') (sums + 4 * j) =
       to_i32 (load_i32 (pb_bytes b) (sums + 4 * j) + 128 * tiles_sum j ts)).
Proof using Hl HK.
  intros Hts. revert b. induction Hts as [|t ts Ht _ IH]; intros b Hsz.
  - exists b. split_and!; [done|done| |].
    + intros p j _ _ [H|H]; [done|by inversion H].
    + intros _ j _. unfold tiles_sum. cbn [filter list_filter foldr]. rewrite Z.mul_0_r, Z.add_0_r.
      symmetry. apply to_i32_idemp.
  - destruct (run_pack_step t b Ht Hsz) as (b1 & E1 & Hs1 & He1 & Hc1).
    destruct (IH b1) as (b2 & E2 & Hs2 & He2 & Hc2); [lia|].
    exists b2. rewrite fmap_cons, run_packs_cons, E1. split_and!; [exact E2|lia| |].
    + intros p j Hp Hj Hor. apply He2; [done..|]. rewrite He1 by done. case_decide as Hd; [by left|].
      rewrite Exists_cons in Hor. tauto.
    + intros Hsg j Hj. rewrite Hc2, Hc1 by done. rewrite to_i32_add_l. f_equal.
      unfold tiles_sum. rewrite filter_cons. case_decide; cbn [foldr]; lia.
Qed.

(** ** The tiles of a thread *)

Definition tiles_of (s e j : Z) : list tile :=
  let P := NC * (j / NC) in
  mk_tile (Z.max s P) (Z.min e (P + NC) - Z.max s P) <$> loop_points 0 k KC.

Lemma filter_tiles j a w l :
  filter (covers j) (mk_tile a w <$> l) = if decide (a <= j < a + w) then mk_tile a w <$> l else [].
Proof using.
  induction l as [|pc l IH]; [by case_decide|]. rewrite fmap_cons, filter_cons.
  destruct (decide (a <= j < a + w)) as [Hc|Hc].
  - rewrite decide_True, IH by exact Hc. done.
  - rewrite decide_False, IH by exact Hc. done.
Qed.

Lemma reorder_jc_tiles s e fuel jc :
  range_ok n NR s e -> s <= jc -> (jc = s \/ (NC | jc)) -> Z.max 0 (e - jc) < Z.of_nat fuel ->
  exists ts, reorder_jc_loop signed lcntx rs_b cs_b n k fuel jc e = Some (pack_of <$> ts) /\
    Forall tile_good ts /\
    forall j, 0 <= j < n -> filter (covers j) ts = if decide (jc <= j < e) then tiles_of s e j else [].
Proof using Hl.
  intros Hr. pose proof Hr as (Hs & _ & He & _). revert jc. pose proof Hl as [].
  induction fuel as [|fuel IH]; intros jc Hjc Hjcs Hf; [lia|]. cbn [reorder_jc_loop].
  destruct (Z.ltb_spec jc e) as [Hlt|Hge].
  2: { exists []. split_and!; [done|done|]. intros j _. by rewrite decide_False by lia. }
  unfold dlp_gemm_get_B_panel_reordered_start_offset_width, dlp_gemm_adjust_B_panel_reordered_jc.
  rewrite min_NR_16, (kmd_width_eq n k NR 16 NC KC 4 Hl) by lia. rewrite (cquot_nonneg jc NC) by lia.
  rewrite (Z.mul_comm (jc / NC)). pose proof (block_bounds NC lo_NC jc) as HP.
  set (P := NC * (jc / NC)) in *.
  assert ((if P + NC <? jc + Z.min (e - jc) NC then NC - (jc - P) else Z.min (e - jc) NC)
    = Z.min e (P + NC) - jc) as -> by (destruct (Z.ltb_spec (P + NC) (jc + Z.min (e - jc) NC)); lia).
  assert (Z.max s P = jc) as Emax.
  { destruct Hjcs as [->|[q Hq]]; [lia|]. subst P. rewrite Hq, Z.div_mul by lia. lia. }
  assert (NC | P) as HdP by apply Z.divide_factor_l.
  destruct (range_tile_ok n k NR 16 NC KC 4 Hl s e jc Hr) as [Ht _]; [lia|]. fold P in Ht. rewrite Emax in Ht.
  rewrite (for_upto_concat (fun pc => [pack_of (mk_tile jc (Z.min e (P + NC) - jc) pc)]));
    [cbn [mbind option_bind]|done|unfold loop_fuel; lia|].
  2: { intros pc _. do 2 f_equal. unfold reorder_pack, pack_of. cbn [t_jc t_nc t_pc].
       unfold tile_start, packed_index, k_padded, block_height. fold P.
       change dlp_make_multiple_of_n with round_up. f_equal. f_equal. lia. }
  destruct (IH (P + NC)) as (ts & -> & Hts & Hcov); [lia|right; by apply Z.divide_add_r|lia|].
  cbn [mbind option_bind]. exists ((mk_tile jc (Z.min e (P + NC) - jc) <$> loop_points 0 k KC) ++ ts).
  split; [|split].
  - rewrite fmap_app. do 2 f_equal. induction (loop_points 0 k KC) as [|pc l IHl]; [done|].
    rewrite !fmap_cons. cbn [concat app]. f_equal. exact IHl.
  - apply Forall_app. split; [|done]. apply Forall_fmap, Forall_forall. intros pc Hpc.
    apply loop_points_elem in Hpc as (q & Hq & -> & Hlt2); [|done].
    split; cbn [t_jc t_nc t_pc]; [exact Ht|]. split; [lia|exists q; lia].
  - intros j Hj. rewrite filter_app, filter_tiles, (Hcov j Hj).
    destruct (decide (jc <= j < jc + (Z.min e (P + NC) - jc))) as [Hin|Hout].
    + rewrite (decide_False (P := P + NC <= j < e)), app_nil_r, decide_True by lia. unfold tiles_of.
      rewrite (block_unique NC lo_NC P j HdP) by lia. cbn zeta. by rewrite Emax.
    + destruct (decide (P + NC <= j < e)); [by rewrite decide_True by lia|by rewrite decide_False by lia].
Qed.

Lemma reorder_thread_tiles nw w :
  1 <= nw -> 0 <= w < nw ->
  let s := task_cut nw n NR false w in let e := task_cut nw n NR false (w + 1) in
  exists ts, reorder_thread signed lcntx rs_b cs_b n k nw w = Some (pack_of <$> ts) /\ Forall tile_good ts /\
    forall j, 0 <= j < n -> filter (covers j) ts = if decide (s <= j < e) then tiles_of s e j else [].
Proof using Hl.
  intros Hnw Hw s e. pose proof Hl as []. unfold reorder_thread. rewrite task_range_cut by lia. fold s e.
  apply reorder_jc_tiles; [by apply (thread_range_ok n k NR 16 NC KC 4 Hl)|lia|by left|unfold loop_fuel; lia].
Qed.

(** A column's sums over the k blocks make its sum. *)
Lemma tiles_of_sum s e j :
  foldr (fun t acc => tile_sum j t + acc) 0 (tiles_of s e j) = zsum (fun p => B0 p j) 0 k.
Proof using Hl.
  clear HK. pose proof Hl as []. unfold tiles_of. set (a := Z.max _ _). set (w := _ - a).
  assert (forall lo, 0 <= lo -> foldr (fun t acc => tile_sum j t + acc) 0 (mk_tile a w <$> loop_points lo k KC) =
    zsum (fun p => B0 p j) lo (k - lo)) as H.
  { intros lo. pattern lo. revert lo. apply (loop_ind k KC); [done| |]; intros lo Hlo.
    - intros _. rewrite loop_points_unfold by done. rewrite (proj2 (Z.ltb_ge lo k)) by lia.
      by rewrite zsum_nil by lia.
    - intros IH H0. rewrite loop_points_unfold by done. rewrite (proj2 (Z.ltb_lt lo k)) by lia.
      rewrite fmap_cons. cbn [foldr]. rewrite IH by lia. unfold tile_sum. cbn [t_pc].
      replace (k - lo) with (Z.min (k - lo) KC + (k - (lo + Z.min (k - lo) KC))) at 2 by lia.
      rewrite zsum_split by lia. f_equal. destruct (Z.le_ge_cases KC (k - lo)).
      + by rewrite Z.min_r by lia.
      + rewrite Z.min_l by lia. rewrite !(zsum_nil _ _ (k - _)) by lia. lia. }
  rewrite H by lia. f_equal. lia.
Qed.

(** What the threads of a region are, as tiles, when the team is the one asked for. *)
Lemma reorder_team_tiles openmp omp_team n_threads :
  team_full omp_team ->
  exists tss, dlp_reorderb signed lcntx rs_b cs_b n k openmp omp_team n_threads = Some (map pack_of <$> tss) /\
    (forall i ts, tss !! i = Some ts -> Forall tile_good ts) /\
    forall j, 0 <= j < n -> exists i ts s e, tss !! i = Some ts /\ filter (covers j) ts = tiles_of s e j /\
      s <= j < e /\ range_ok n NR s e /\
      forall i' ts', tss !! i' = Some ts' -> i' <> i -> filter (covers j) ts' = [].
Proof using Hl.
  clear HK. intros Homp. unfold dlp_reorderb. destruct (region_full openmp omp_team n_threads Homp) as [-> Hnw].
  set (nw := region_ways openmp n_threads) in *. pose proof Hl as [].
  assert (exists tss, Forall2 (fun w ts => reorder_thread signed lcntx rs_b cs_b n k nw w = Some (pack_of <$> ts) /\
    Forall tile_good ts /\ forall j, 0 <= j < n -> filter (covers j) ts =
      let s := task_cut nw n NR false w in let e := task_cut nw n NR false (w + 1) in
      if decide (s <= j < e) then tiles_of s e j else []) (seqZ 0 nw) tss) as [tss Htss].
  { apply Forall2_exists. intros w Hw%elem_of_seqZ. destruct (reorder_thread_tiles nw w Hnw ltac:(lia)) as (ts & H).
    by exists ts. }
  assert (forall i ts, tss !! i = Some ts -> 0 <= Z.of_nat i < nw /\ seqZ 0 nw !! i = Some (Z.of_nat i)) as Hidx.
  { intros i ts Hi. apply lookup_lt_Some in Hi. rewrite <- (Forall2_length _ _ _ Htss), length_seqZ in Hi.
    split; [lia|]. apply lookup_seqZ. lia. }
  exists tss. split; [|split].
  - apply mapM_Some, Forall2_fmap_r. eapply Forall2_impl; [exact Htss|]. by intros w ts [].
  - intros i ts Hi. destruct (Hidx i ts Hi) as [_ Hw]. by destruct (Forall2_lookup_lr _ _ _ _ _ _ Htss Hw Hi) as (_ & ? & _).
  - intros j Hj. destruct (column_owner n k NR 16 NC KC 4 Hl nw j Hnw Hj) as (w & Hw & Hwj).
    assert (seqZ 0 nw !! Z.to_nat w = Some w) as Hlw by (apply lookup_seqZ; lia).
    destruct (Forall2_lookup_l _ _ _ _ _ Htss Hlw) as (ts & Hts & _ & _ & Hf).
    eexists (Z.to_nat w), ts, _, _. split; [exact Hts|]. rewrite (Hf j Hj). cbn zeta. rewrite decide_True by exact Hwj.
    split; [reflexivity|]. split; [exact Hwj|]. split; [by apply (thread_range_ok n k NR 16 NC KC 4 Hl)|].
    intros i' ts' Hi' Hne. destruct (Hidx i' ts' Hi') as [Hb Hw'].
    destruct (Forall2_lookup_lr _ _ _ _ _ _ Htss Hw' Hi') as (_ & _ & Hf'). rewrite (Hf' j Hj). cbn zeta.
    apply decide_False. intros Hc. apply Hne.
    enough (Z.of_nat i' = w) by lia. apply (interval_unique (task_cut nw n NR false) nw) with (j := j); try lia.
    intros w2 Hw2. apply task_cut_mono; done || lia.
Qed.

(** Every interleaving of the packing calls succeeds and leaves the reordered matrix. *)
Lemma tuned_reorderb_ok openmp omp_team n_threads b :
  team_full omp_team -> reorder_bytes signed n k <= pb_size b ->
  exists b0 ls, reorder_clear signed n k b = Some b0 /\
    dlp_reorderb signed lcntx rs_b cs_b n k openmp omp_team n_threads = Some ls /\
    forall ws, interleaving ls ws -> exists b', run_packs K b0 ws = Some b' /\ pb_size b' = pb_size b /\
      reordered_B signed lcntx n k (pb_bytes b') B0.
Proof using Hl HK.
  intros Homp Hsz. pose proof Hl as [].
  pose proof (round_up_bounds n 16 ltac:(lia) ltac:(lia)) as [Hn _].
  pose proof (round_up_bounds k 4 ltac:(lia) ltac:(lia)) as [Hk4 _].
  assert (0 <= sums) by (apply Z.mul_nonneg_nonneg; change dlp_make_multiple_of_n with round_up; lia).
  assert (exists b0, reorder_clear signed n k b = Some b0 /\ pb_size b0 = pb_size b /\
    (signed = true -> forall j, 0 <= j < n -> load_i32 (pb_bytes b0) (sums + 4 * j) = 0)) as (b0 & Eb0 & Hs0 & Hz).
  { unfold reorder_clear, zero_sums. unfold reorder_bytes, col_sums_size in Hsz. destruct signed; [|by exists b].
    change (dlp_make_multiple_of_n n 16) with (round_up n 16) in *.
    rewrite (proj2 (Z.leb_le 0 _)), (proj2 (Z.leb_le _ (pb_size b))) by lia. eexists. split; [reflexivity|].
    split; [done|]. intros _ j Hj. cbn [pb_bytes]. rewrite (load_i32_ext _ (fun _ => 0)); [done|].
    intros x Hx. unfold fill. by rewrite (proj2 (Z.leb_le _ x)), (proj2 (Z.ltb_lt x _)) by lia. }
  destruct (reorder_team_tiles openmp omp_team n_threads Homp) as (tss & Els & Hgood & Hcov).
  exists b0, (map pack_of <$> tss). split; [done|]. split; [done|]. intros ws Hws.
  destruct (interleaving_fmap_inv pack_of tss ws Hws) as (ts & -> & Hts).
  assert (Forall tile_good ts) as Hall.
  { apply Forall_forall. intros t (i & l & Hi & Ht)%(interleaving_elem _ _ _ Hts).
    by apply (proj1 (Forall_forall _ _) (Hgood i l Hi)). }
  destruct (packs_run ts b0 Hall ltac:(lia)) as (b' & E & Hsb & He & Hc).
  exists b'. split; [done|]. split; [lia|].
  assert (forall j, 0 <= j < n -> exists s e, filter (covers j) ts = tiles_of s e j /\ s <= j < e /\ range_ok n NR s e) as Hfil.
  { intros j Hj. destruct (Hcov j Hj) as (i & l & s & e & Hi & Hf & Hse & Hr & Hother). exists s, e. split; [|done].
    rewrite <- Hf. apply (interleaving_single (filter (covers j) <$> tss) _ i).
    - by apply interleaving_filter.
    - by rewrite list_lookup_fmap, Hi.
    - intros i' l' Hi' Hne. rewrite list_lookup_fmap in Hi'. destruct (tss !! i') as [l2|] eqn:E2; [|done].
      cbn in Hi'. injection Hi' as <-. by apply (Hother i'). }
  split.
  - intros p j Hp Hj. apply He; [done..|]. right. destruct (Hfil j Hj) as (s & e & Hf & Hse & Hr).
    apply Exists_exists. exists (mk_tile (Z.max s (NC * (j / NC))) (Z.min e (NC * (j / NC) + NC) - Z.max s (NC * (j / NC))) (KC * (p / KC))).
    pose proof (block_bounds NC lo_NC j). pose proof (block_bounds KC lo_KC p).
    split; [|split; [unfold covers; cbn; lia|done]].
    enough (mk_tile (Z.max s (NC * (j / NC))) (Z.min e (NC * (j / NC) + NC) - Z.max s (NC * (j / NC))) (KC * (p / KC))
      ∈ filter (covers j) ts) as Hin by by apply list_elem_of_filter in Hin as [_ Hin].
    rewrite Hf. unfold tiles_of. apply list_elem_of_fmap_2, loop_points_elem; [done|].
    exists (p / KC). split; [apply Z.div_pos; lia|]. lia.
  - intros Hsg j Hj. rewrite Z.mul_comm. change (round_up n 16 * round_up k 4) with sums.
    rewrite Hc, Hz by done. rewrite Z.add_0_l. do 2 f_equal.
    destruct (Hfil j Hj) as (s & e & Hf & _). unfold tiles_sum. rewrite Hf. apply tiles_of_sum.
Qed.

(** A thread the team lacks takes its columns with it: no call packs them. *)
Lemma short_team_skips omp_team n_threads w j :
  1 <= n_threads -> 0 <= omp_team n_threads <= w -> w < n_threads -> 0 <= j < n ->
  task_cut n_threads n NR false w <= j < task_cut n_threads n NR false (w + 1) ->
  exists tss, dlp_reorderb signed lcntx rs_b cs_b n k true omp_team n_threads = Some (map pack_of <$> tss) /\
    forall ts t, ts ∈ tss -> t ∈ ts -> ~ covers j t.
Proof using Hl.
  clear HK. intros Hnt Hw Hwn Hj Hwj. pose proof Hl as []. unfold dlp_reorderb, region_threads, region_ways. rewrite (proj2 (Z.ltb_lt 0 _)) by lia.
  assert (exists tss, Forall2 (fun v ts => reorder_thread signed lcntx rs_b cs_b n k n_threads v = Some (pack_of <$> ts) /\
    filter (covers j) ts = []) (seqZ 0 (omp_team n_threads)) tss) as [tss Htss].
  { apply Forall2_exists. intros v Hv%elem_of_seqZ. destruct (reorder_thread_tiles n_threads v Hnt ltac:(lia)) as (ts & E & _ & Hf).
    exists ts. split; [exact E|]. rewrite (Hf j Hj). cbn zeta. apply decide_False. intros Hc.
    enough (v = w) by lia. apply (interval_unique (task_cut n_threads n NR false) n_threads) with (j := j); try lia.
    intros v2 Hv2. apply task_cut_mono; done || lia. }
  exists tss. split.
  - apply mapM_Some, Forall2_fmap_r. eapply Forall2_impl; [exact Htss|]. by intros v ts [].
  - intros ts t Hts Ht Hc. destruct (Forall2_elem_r _ _ _ _ Htss Hts) as (v & _ & _ & Hf).
    by apply (filter_nil_not_elem_of _ _ t Hf).
Qed.
End tiles.
