(* ===== verification/GemmCheck.v ===== *)
(** * Argument checks of the entry points (include/aocl_dlp_gemm_check.h,
    include/gemm_utils/dlp_gemm_utils.h)

    The check macros as ordered guards: the first guard that fires gives the
    position and the error code, position 0 and [DLP_CLSC_SUCCESS] mean the call
    goes on.  Then the maps from the characters of the C interface and the strides
    they stand for. *)
From S2P Require Import Prelude DlpTypes.
From Stdlib Require Import Ascii String Sorted.
From stdpp Require Import strings.
#[local] Open Scope Z_scope.

(** ** Guards *)

Definition DLP_MAX_GEMM_DIM : Z := 2 ^ 31 - 1.
Definition DLP_MAX_GROUP_SIZE : Z := 2 ^ 31 - 1.

(** [arg_pos] and [err_no] after an [if]/[else if] chain. *)
Fixpoint check_chain (guards : list (bool * (Z * dlp_clsc_err_t))) : Z * dlp_clsc_err_t :=
  match guards with
  | [] => (0, DLP_CLSC_SUCCESS)
  | (bad, e) :: guards => if bad then e else check_chain guards
  end.

(** [(c != lower) && (c != upper)] and its negation. *)
Definition is_char (c lower upper : ascii) : bool := bool_decide (c = lower) || bool_decide (c = upper).

Definition bad_order (order : ascii) : bool :=
  negb (is_char order "r" "R") && negb (is_char order "c" "C").
Definition bad_trans (trans : ascii) : bool :=
  negb (is_char trans "n" "N") && negb (is_char trans "t" "T").
Definition bad_mat_type (mat_type : ascii) : bool :=
  negb (is_char mat_type "a" "A") && negb (is_char mat_type "b" "B") && negb (is_char mat_type "w" "W").
Definition bad_mtag (mtag : ascii) : bool :=
  negb (is_char mtag "n" "N") && negb (is_char mtag "p" "P") && negb (is_char mtag "r" "R").
Definition bad_dim (d : Z) : bool := (d <=? 0) || (DLP_MAX_GEMM_DIM <? d).

Definition row_stored (order : ascii) : bool := is_char order "r" "R".
Definition col_stored (order : ascii) : bool := is_char order "c" "C".
Definition notrans (trans : ascii) : bool := is_char trans "n" "N".
Definition istrans (trans : ascii) : bool := is_char trans "t" "T".

(** The leading dimension tests of a matrix with [rows] and [cols] before
    transposition: row stored, column stored, too large. *)
Definition ld_row_bad (order trans : ascii) (rows cols ld : Z) : bool :=
  row_stored order && ((notrans trans && (ld <? cols)) || (istrans trans && (ld <? rows))).
Definition ld_col_bad (order trans : ascii) (rows cols ld : Z) : bool :=
  col_stored order && ((notrans trans && (ld <? rows)) || (istrans trans && (ld <? cols))).
Definition ld_large (ld : Z) : bool := DLP_MAX_GEMM_DIM <? ld.

(** A pointer argument is a flag: is it [NULL]? *)
Definition AOCL_DLP_REORDER_BUF_SIZE_CHECK (order trans mat_type : ascii) (k n : Z)
    : Z * dlp_clsc_err_t :=
  check_chain [
    (bad_order order, (1, DLP_CLSC_INVALID_ORDER));
    (bad_trans trans, (2, DLP_CLSC_INVALID_TRANSPOSE));
    (bad_mat_type mat_type, (3, DLP_CLSC_INVALID_MATRIX_TYPE));
    (bad_dim k, (4, DLP_CLSC_INVALID_MATRIX_DIMENSION));
    (bad_dim n, (5, DLP_CLSC_INVALID_MATRIX_DIMENSION))].

Definition AOCL_DLP_REORDER_CHECK (order trans mat_type : ascii) (input_null reorder_null : bool)
    (k n ldb : Z) : Z * dlp_clsc_err_t :=
  check_chain [
    (bad_order order, (1, DLP_CLSC_INVALID_ORDER));
    (bad_trans trans, (2, DLP_CLSC_INVALID_TRANSPOSE));
    (bad_mat_type mat_type, (3, DLP_CLSC_INVALID_MATRIX_TYPE));
    (input_null, (4, DLP_CLSC_NULL_POINTER));
    (reorder_null, (5, DLP_CLSC_NULL_POINTER));
    (bad_dim k, (6, DLP_CLSC_INVALID_MATRIX_DIMENSION));
    (bad_dim n, (7, DLP_CLSC_INVALID_MATRIX_DIMENSION));
    (ld_row_bad order trans k n ldb, (8, DLP_CLSC_INVALID_LEADING_DIMENSION));
    (ld_col_bad order trans k n ldb, (8, DLP_CLSC_INVALID_LEADING_DIMENSION));
    (ld_large ldb, (8, DLP_CLSC_INVALID_LEADING_DIMENSION))].

Definition AOCL_DLP_UNREORDER_CHECK (order trans mat_type : ascii) (reorder_null output_null : bool)
    (k n ldb : Z) : Z * dlp_clsc_err_t :=
  check_chain [
    (bad_order order, (1, DLP_CLSC_INVALID_ORDER));
    (bad_trans trans, (2, DLP_CLSC_INVALID_TRANSPOSE));
    (bad_mat_type mat_type, (3, DLP_CLSC_INVALID_MATRIX_TYPE));
    (reorder_null, (4, DLP_CLSC_NULL_POINTER));
    (output_null, (5, DLP_CLSC_NULL_POINTER));
    (bad_dim k, (6, DLP_CLSC_INVALID_MATRIX_DIMENSION));
    (bad_dim n, (7, DLP_CLSC_INVALID_MATRIX_DIMENSION));
    (ld_row_bad order trans k n ldb, (8, DLP_CLSC_INVALID_LEADING_DIMENSION));
    (ld_col_bad order trans k n ldb, (8, DLP_CLSC_INVALID_LEADING_DIMENSION));
    (ld_large ldb, (8, DLP_CLSC_INVALID_LEADING_DIMENSION))].

Definition gemm_guards (order transa transb : ascii) (m n k : Z) (a_null : bool) (lda : Z)
    (mtag_a : ascii) (b_null : bool) (ldb : Z) (mtag_b : ascii) (c_null : bool) (ldc : Z)
    : list (bool * (Z * dlp_clsc_err_t)) := [
    (bad_order order, (1, DLP_CLSC_INVALID_ORDER));
    (bad_trans transa, (2, DLP_CLSC_INVALID_TRANSPOSE));
    (bad_trans transb, (3, DLP_CLSC_INVALID_TRANSPOSE));
    (bad_dim m, (4, DLP_CLSC_INVALID_MATRIX_DIMENSION));
    (bad_dim n, (5, DLP_CLSC_INVALID_MATRIX_DIMENSION));
    (bad_dim k, (6, DLP_CLSC_INVALID_MATRIX_DIMENSION));
    (a_null, (7, DLP_CLSC_NULL_POINTER));
    (ld_row_bad order transa m k lda, (9, DLP_CLSC_INVALID_LEADING_DIMENSION));
    (ld_col_bad order transa m k lda, (9, DLP_CLSC_INVALID_LEADING_DIMENSION));
    (ld_large lda, (9, DLP_CLSC_INVALID_LEADING_DIMENSION));
    (bad_mtag mtag_a, (10, DLP_CLSC_INVALID_MEMORY_TAG));
    (b_null, (11, DLP_CLSC_NULL_POINTER));
    (ld_row_bad order transb k n ldb, (12, DLP_CLSC_INVALID_LEADING_DIMENSION));
    (ld_col_bad order transb k n ldb, (12, DLP_CLSC_INVALID_LEADING_DIMENSION));
    (ld_large ldb, (12, DLP_CLSC_INVALID_LEADING_DIMENSION));
    (bad_mtag mtag_b, (13, DLP_CLSC_INVALID_MEMORY_TAG));
    (c_null, (15, DLP_CLSC_NULL_POINTER));
    (row_stored order && (ldc <? n), (16, DLP_CLSC_INVALID_LEADING_DIMENSION));
    (col_stored order && (ldc <? m), (16, DLP_CLSC_INVALID_LEADING_DIMENSION));
    (ld_large ldc, (16, DLP_CLSC_INVALID_LEADING_DIMENSION))].

Definition AOCL_DLP_GEMM_CHECK (order transa transb : ascii) (m n k : Z) (a_null : bool) (lda : Z)
    (mtag_a : ascii) (b_null : bool) (ldb : Z) (mtag_b : ascii) (c_null : bool) (ldc : Z)
    : Z * dlp_clsc_err_t :=
  check_chain
    (gemm_guards order transa transb m n k a_null lda mtag_a b_null ldb mtag_b c_null ldc).

Definition AOCL_DLP_BATCH_GEMM_CHECK (order transa transb : ascii) (group_count_idx group_size m n k : Z)
    (a_null : bool) (lda : Z) (mtag_a : ascii) (b_null : bool) (ldb : Z) (mtag_b : ascii)
    (c_null : bool) (ldc : Z) : Z * dlp_clsc_err_t :=
  check_chain [
    (bad_order order, (1, DLP_CLSC_INVALID_ORDER));
    (bad_trans transa, (2, DLP_CLSC_INVALID_TRANSPOSE));
    (bad_trans transb, (3, DLP_CLSC_INVALID_TRANSPOSE));
    (bad_dim m, (4, DLP_CLSC_INVALID_MATRIX_DIMENSION));
    (bad_dim n, (5, DLP_CLSC_INVALID_MATRIX_DIMENSION));
    (bad_dim k, (6, DLP_CLSC_INVALID_MATRIX_DIMENSION));
    (a_null, (8, DLP_CLSC_NULL_POINTER));
    (ld_row_bad order transa m k lda, (10, DLP_CLSC_INVALID_LEADING_DIMENSION));
    (ld_col_bad order transa m k lda, (10, DLP_CLSC_INVALID_LEADING_DIMENSION));
    (ld_large lda, (10, DLP_CLSC_INVALID_LEADING_DIMENSION));
    (bad_mtag mtag_a, (11, DLP_CLSC_INVALID_MEMORY_TAG));
    (b_null, (12, DLP_CLSC_NULL_POINTER));
    (ld_row_bad order transb k n ldb, (13, DLP_CLSC_INVALID_LEADING_DIMENSION));
    (ld_col_bad order transb k n ldb, (13, DLP_CLSC_INVALID_LEADING_DIMENSION));
    (ld_large ldb, (13, DLP_CLSC_INVALID_LEADING_DIMENSION));
    (bad_mtag mtag_b, (14, DLP_CLSC_INVALID_MEMORY_TAG));
    (c_null, (16, DLP_CLSC_NULL_POINTER));
    (row_stored order && (ldc <? n), (17, DLP_CLSC_INVALID_LEADING_DIMENSION));
    (col_stored order && (ldc <? m), (17, DLP_CLSC_INVALID_LEADING_DIMENSION));
    (ld_large ldc, (17, DLP_CLSC_INVALID_LEADING_DIMENSION));
    ((group_size <=? 0) || (DLP_MAX_GROUP_SIZE <? group_size), (16, DLP_CLSC_INVALID_GROUP_DIMENSION));
    ((group_count_idx <? 0) || (DLP_MAX_GROUP_SIZE <? group_count_idx),
     (15, DLP_CLSC_INVALID_GROUP_DIMENSION))].

Definition AOCL_DLP_UTIL_ELTWISE_OPS_CHECK (order transa transb : ascii) (m n : Z) (a_null : bool)
    (lda : Z) (b_null : bool) (ldb : Z) : Z * dlp_clsc_err_t :=
  check_chain [
    (bad_order order, (1, DLP_CLSC_INVALID_ORDER));
    (bad_trans transa, (2, DLP_CLSC_INVALID_TRANSPOSE));
    (bad_trans transb, (3, DLP_CLSC_INVALID_TRANSPOSE));
    (bad_dim m, (4, DLP_CLSC_INVALID_MATRIX_DIMENSION));
    (bad_dim n, (5, DLP_CLSC_INVALID_MATRIX_DIMENSION));
    (a_null, (6, DLP_CLSC_NULL_POINTER));
    (ld_row_bad order transa m n lda, (7, DLP_CLSC_INVALID_LEADING_DIMENSION));
    (ld_col_bad order transa m n lda, (7, DLP_CLSC_INVALID_LEADING_DIMENSION));
    (ld_large lda, (7, DLP_CLSC_INVALID_LEADING_DIMENSION));
    (b_null, (8, DLP_CLSC_NULL_POINTER));
    (ld_row_bad order transb m n ldb, (9, DLP_CLSC_INVALID_LEADING_DIMENSION));
    (ld_col_bad order transb m n ldb, (9, DLP_CLSC_INVALID_LEADING_DIMENSION));
    (ld_large ldb, (9, DLP_CLSC_INVALID_LEADING_DIMENSION))].

(** [AOCL_DLP_BATCH_GEMM_MATRIX_PTR_CHECK]: the arrays hold one flag per matrix
    pointer; [None] is a read past an array, whose elements are tested in the order
    of the C disjunction. *)
Fixpoint matrix_ptr_loop (fuel : nat) (a b c : list bool) (idx : nat) (err_no : dlp_clsc_err_t)
    : option dlp_clsc_err_t :=
  match fuel with
  | O => Some err_no
  | S fuel =>
      a_null ← a !! idx;
      bad ← (if a_null : bool then Some true
             else b_null ← b !! idx; if b_null : bool then Some true else c !! idx);
      if bad : bool then Some DLP_CLSC_NULL_POINTER
      else matrix_ptr_loop fuel a b c (S idx) err_no
  end.

Definition AOCL_DLP_BATCH_GEMM_MATRIX_PTR_CHECK (a b c : list bool) (mat_idx group_size : Z)
    (err_no : dlp_clsc_err_t) : option dlp_clsc_err_t :=
  if bool_decide (err_no = DLP_CLSC_SUCCESS)
  then matrix_ptr_loop (Z.to_nat group_size) a b c (Z.to_nat mat_idx) err_no
  else Some err_no.

(** [AOCL_DLP_BATCH_GEMM_NULL_ARGS_CHECK]: [None] lets the call go on; [Some n]
    returns after setting [DLP_CLSC_NULL_POINTER] in the metadata of the first [n]
    groups.  [array_nulls] are the other arrays, in the order of the tests. *)
Definition AOCL_DLP_BATCH_GEMM_NULL_ARGS_CHECK (array_nulls : list bool) (group_count : Z)
    (metadata_null : bool) : option Z :=
  if metadata_null then Some 0
  else if existsb id array_nulls then Some (Z.max 0 group_count)
  else None.

(** ** The characters of the interface *)

Definition dlp_param_map_char_to_lpmtag (mtag : ascii) : AOCL_DLP_MEMORY_TAG :=
  if is_char mtag "n" "N" then UNPACKED
  else if is_char mtag "p" "P" then PACK
  else if is_char mtag "r" "R" then REORDERED
  else UNPACKED.

Definition dlp_param_map_char_to_lpmat_type (mtag : ascii) : AOCL_DLP_MATRIX_TYPE :=
  if is_char mtag "a" "A" then A_MATRIX
  else if is_char mtag "b" "B" then B_MATRIX
  else if is_char mtag "w" "W" then AWQ_B_MATRIX
  else B_MATRIX.

Definition dlp_param_map_netlib_to_dlp_trans (trans : ascii) : dlp_trans_t :=
  if is_char trans "n" "N" then DLP_NO_TRANSPOSE
  else if is_char trans "t" "T" then DLP_TRANSPOSE
  else if is_char trans "c" "C" then DLP_CONJ_TRANSPOSE
  else if is_char trans "p" "P" then DLP_PACKED
  else DLP_NO_TRANSPOSE.

Definition dlp_is_notrans (trans : dlp_trans_t) : bool := bool_decide (trans = DLP_NO_TRANSPOSE).
Definition dlp_is_trans (trans : dlp_trans_t) : bool := bool_decide (trans = DLP_TRANSPOSE).

(** [dlp_reorder_plain_strides]: [( *rs_b, *cs_b)]. *)
Definition dlp_reorder_plain_strides (order : ascii) (trans : dlp_trans_t) (ldb : Z) : Z * Z :=
  if is_char order "r" "R" then
    (if dlp_is_notrans trans then ldb else 1, if dlp_is_notrans trans then 1 else ldb)
  else
    (if dlp_is_notrans trans then 1 else ldb, if dlp_is_notrans trans then ldb else 1).

(** ** What the guards mean *)

Definition valid_order (order : ascii) : Prop := row_stored order = true \/ col_stored order = true.
Definition valid_trans (trans : ascii) : Prop := notrans trans = true \/ istrans trans = true.
Definition valid_dim (d : Z) : Prop := 1 <= d <= 2 ^ 31 - 1.
Definition valid_mtag (c : ascii) : Prop :=
  is_char c "n" "N" = true \/ is_char c "p" "P" = true \/ is_char c "r" "R" = true.

(** The length of a stored line of a [rows x cols] matrix. *)
Definition line_length (order trans : ascii) (rows cols : Z) : Z :=
  if eqb (row_stored order) (notrans trans) then cols else rows.

Definition valid_ld (order trans : ascii) (rows cols ld : Z) : Prop :=
  line_length order trans rows cols <= ld <= 2 ^ 31 - 1.

Lemma is_char_exclusive c l1 u1 l2 u2 :
  is_char c l1 u1 = true -> l1 <> l2 -> l1 <> u2 -> u1 <> l2 -> u1 <> u2 -> is_char c l2 u2 = false.
Proof.
  unfold is_char. rewrite orb_true_iff, orb_false_iff, !bool_decide_eq_true, !bool_decide_eq_false.
  intros [-> | ->]; done.
Qed.

Lemma bad_order_spec order : bad_order order = false <-> valid_order order.
Proof.
  unfold bad_order, valid_order, row_stored, col_stored.
  rewrite andb_false_iff, !negb_false_iff. done.
Qed.

Lemma bad_trans_spec trans : bad_trans trans = false <-> valid_trans trans.
Proof. unfold bad_trans, valid_trans, notrans, istrans. rewrite andb_false_iff, !negb_false_iff. done. Qed.

Lemma bad_mtag_spec c : bad_mtag c = false <-> valid_mtag c.
Proof. unfold bad_mtag, valid_mtag. rewrite !andb_false_iff, !negb_false_iff. tauto. Qed.

Lemma bad_dim_spec d : bad_dim d = false <-> valid_dim d.
Proof.
  unfold bad_dim, valid_dim, DLP_MAX_GEMM_DIM. rewrite orb_false_iff, Z.leb_gt, Z.ltb_ge. lia.
Qed.

Lemma row_not_col order : row_stored order = true -> col_stored order = false.
Proof. intros H. by apply (is_char_exclusive _ _ _ _ _ H). Qed.

Lemma notrans_not_trans trans : notrans trans = true -> istrans trans = false.
Proof. intros H. by apply (is_char_exclusive _ _ _ _ _ H). Qed.

(** The three leading dimension guards together. *)
Lemma ld_guards_spec order trans rows cols ld :
  valid_order order -> valid_trans trans ->
  (ld_row_bad order trans rows cols ld = false /\ ld_col_bad order trans rows cols ld = false /\
   ld_large ld = false) <-> valid_ld order trans rows cols ld.
Proof.
  intros Ho Ht. unfold ld_row_bad, ld_col_bad, ld_large, valid_ld, line_length, DLP_MAX_GEMM_DIM.
  assert (row_stored order = negb (col_stored order)) as Er.
  { destruct (row_stored order) eqn:E; [by rewrite (row_not_col order E)|].
    destruct Ho as [|Ho]; [congruence|by rewrite Ho]. }
  assert (notrans trans = negb (istrans trans)) as En.
  { destruct (notrans trans) eqn:E; [by rewrite (notrans_not_trans trans E)|].
    destruct Ht as [|Ht]; [congruence|by rewrite Ht]. }
  rewrite Er, En. destruct (col_stored order), (istrans trans); cbn;
    rewrite ?orb_false_r, ?Z.ltb_ge; lia.
Qed.

(** A chain succeeds when no guard fires; otherwise the first that fires answers. *)
Lemma check_chain_ok guards :
  Forall (fun g => g.2.1 <> 0 /\ g.2.2 <> DLP_CLSC_SUCCESS) guards ->
  (check_chain guards).2 = DLP_CLSC_SUCCESS <-> Forall (fun g => g.1 = false) guards.
Proof.
  induction 1 as [|[bad [pos e]] guards [Hpos He] _ IH]; cbn in *; [by split|].
  rewrite Forall_cons. cbn. destruct bad; [naive_solver|]. rewrite IH. tauto.
Qed.

Lemma check_chain_first guards :
  check_chain guards = (0, DLP_CLSC_SUCCESS) \/
  exists before bad after, guards = before ++ (true, bad) :: after /\
    Forall (fun g => g.1 = false) before /\ check_chain guards = bad.
Proof.
  induction guards as [|[bad e] guards IH]; [by left|]. destruct bad.
  - right. by exists [], e, guards.
  - destruct IH as [|(before & b & after & -> & Hb & E)]; [by left|right].
    exists ((false, e) :: before), b, after. split; [done|]. split; [by constructor|done].
Qed.

(** The guards of a list, one by one. *)
Ltac chain_cases :=
  rewrite check_chain_ok by (repeat constructor; done); rewrite ?Forall_cons, ?Forall_nil; cbn [fst].

(** ** Accepted calls *)

Record gemm_args_valid (order transa transb : ascii) (m n k : Z) (a_null : bool) (lda : Z)
    (mtag_a : ascii) (b_null : bool) (ldb : Z) (mtag_b : ascii) (c_null : bool) (ldc : Z) : Prop := {
  gv_chars : valid_order order /\ valid_trans transa /\ valid_trans transb /\
    valid_mtag mtag_a /\ valid_mtag mtag_b;
  gv_dims : valid_dim m /\ valid_dim n /\ valid_dim k;
  gv_ptrs : a_null = false /\ b_null = false /\ c_null = false;
  gv_lds : valid_ld order transa m k lda /\ valid_ld order transb k n ldb /\
    valid_ld order "n" m n ldc;
}.

Lemma ldc_guards_spec order m n ldc :
  valid_order order ->
  (row_stored order && (ldc <? n) = false /\ col_stored order && (ldc <? m) = false /\
   ld_large ldc = false) <-> valid_ld order "n" m n ldc.
Proof.
  intros Ho. rewrite <- ld_guards_spec; [|done|by left]. unfold ld_row_bad, ld_col_bad.
  change (notrans "n") with true. change (istrans "n") with false. cbn [andb]. by rewrite !orb_false_r.
Qed.

Lemma gemm_guards_spec order transa transb m n k a_null lda mtag_a b_null ldb mtag_b c_null ldc :
  gemm_args_valid order transa transb m n k a_null lda mtag_a b_null ldb mtag_b c_null ldc <->
  (bad_order order = false /\ bad_trans transa = false /\ bad_trans transb = false /\
   bad_dim m = false /\ bad_dim n = false /\ bad_dim k = false /\ a_null = false /\
   (ld_row_bad order transa m k lda = false /\ ld_col_bad order transa m k lda = false /\
    ld_large lda = false) /\ bad_mtag mtag_a = false /\ b_null = false /\
   (ld_row_bad order transb k n ldb = false /\ ld_col_bad order transb k n ldb = false /\
    ld_large ldb = false) /\ bad_mtag mtag_b = false /\ c_null = false /\
   (row_stored order && (ldc <? n) = false /\ col_stored order && (ldc <? m) = false /\
    ld_large ldc = false)).
Proof.
  rewrite bad_order_spec, !bad_trans_spec, !bad_dim_spec, !bad_mtag_spec. split.
  - intros [(? & ? & ? & ? & ?) (? & ? & ?) (? & ? & ?) (? & ? & ?)].
    rewrite !ld_guards_spec, ldc_guards_spec by done. tauto.
  - intros (? & ? & ? & ? & ? & ? & ? & Hla & ? & ? & Hlb & ? & ? & Hlc).
    rewrite ld_guards_spec in Hla, Hlb by done. rewrite ldc_guards_spec in Hlc by done. by split.
Qed.

Lemma gemm_check_spec order transa transb m n k a_null lda mtag_a b_null ldb mtag_b c_null ldc :
  (AOCL_DLP_GEMM_CHECK order transa transb m n k a_null lda mtag_a b_null ldb mtag_b c_null ldc).2
    = DLP_CLSC_SUCCESS <->
  gemm_args_valid order transa transb m n k a_null lda mtag_a b_null ldb mtag_b c_null ldc.
Proof.
  rewrite gemm_guards_spec. unfold AOCL_DLP_GEMM_CHECK, gemm_guards. chain_cases. tauto.
Qed.

(** The GEMM argument check accepts exactly the calls of the documented
    interface: known characters, dimensions in [1, INT32_MAX], no null matrix, every
    leading dimension at least the stored line and at most INT32_MAX. *)
Theorem gemm_check_exact order transa transb m n k a_null lda mtag_a b_null ldb mtag_b c_null ldc :
  (AOCL_DLP_GEMM_CHECK order transa transb m n k a_null lda mtag_a b_null ldb mtag_b c_null ldc).2
    = DLP_CLSC_SUCCESS <->
  gemm_args_valid order transa transb m n k a_null lda mtag_a b_null ldb mtag_b c_null ldc.
Proof. apply gemm_check_spec. Qed.

(** The batch check: the same arguments, and a group that is not empty. *)
Lemma batch_check_spec order transa transb idx g_sz m n k a_null lda mtag_a b_null ldb mtag_b c_null ldc :
  (AOCL_DLP_BATCH_GEMM_CHECK order transa transb idx g_sz m n k a_null lda mtag_a b_null ldb mtag_b
     c_null ldc).2 = DLP_CLSC_SUCCESS <->
  gemm_args_valid order transa transb m n k a_null lda mtag_a b_null ldb mtag_b c_null ldc /\
  1 <= g_sz <= DLP_MAX_GROUP_SIZE /\ 0 <= idx <= DLP_MAX_GROUP_SIZE.
Proof.
  rewrite gemm_guards_spec. unfold AOCL_DLP_BATCH_GEMM_CHECK. chain_cases.
  rewrite !orb_false_iff, Z.leb_gt, !Z.ltb_ge.
  assert (0 < g_sz <-> 1 <= g_sz) as -> by lia. tauto.
Qed.

(** The pointers of a group: all in the arrays, none [NULL]. *)
Lemma matrix_ptr_loop_spec fuel a b c idx :
  (forall i, (idx <= i < idx + fuel)%nat -> is_Some (a !! i) /\ is_Some (b !! i) /\ is_Some (c !! i)) ->
  exists e, matrix_ptr_loop fuel a b c idx DLP_CLSC_SUCCESS = Some e /\
    (e = DLP_CLSC_SUCCESS <-> forall i, (idx <= i < idx + fuel)%nat ->
       a !! i = Some false /\ b !! i = Some false /\ c !! i = Some false).
Proof.
  revert idx. induction fuel as [|fuel IH]; intros idx Hin; cbn.
  { eexists. split; [done|]. split; [|done]. intros _ i ?. lia. }
  destruct (Hin idx ltac:(lia)) as ([an Ea] & [bn Eb] & [cn Ec]). rewrite Ea, Eb, Ec. cbn.
  destruct (IH (S idx)) as (e & He & Hs); [intros i ?; apply Hin; lia|].
  destruct an, bn, cn; cbn; try (eexists; split; [done|]; split; [done|];
    intros H; destruct (H idx ltac:(lia)) as (? & ? & ?); congruence).
  exists e. split; [done|]. rewrite Hs. split; intros H i Hi; [|apply H; lia].
  destruct (decide (i = idx)) as [->|]; [done|apply H; lia].
Qed.

(** ** Rejected calls *)

(** What can be wrong with a call: the position of the parameter in the declarations of
    the entry points, where [alpha] is number 7 and [a] number 8, and the code for it. *)
Inductive gemm_violation (order transa transb : ascii) (m n k : Z) (a_null : bool) (lda : Z)
    (mtag_a : ascii) (b_null : bool) (ldb : Z) (mtag_b : ascii) (c_null : bool) (ldc : Z)
    : Z -> dlp_clsc_err_t -> Prop :=
| gv_order : ~ valid_order order ->
    gemm_violation order transa transb m n k a_null lda mtag_a b_null ldb mtag_b c_null ldc
      1 DLP_CLSC_INVALID_ORDER
| gv_transa : ~ valid_trans transa ->
    gemm_violation order transa transb m n k a_null lda mtag_a b_null ldb mtag_b c_null ldc
      2 DLP_CLSC_INVALID_TRANSPOSE
| gv_transb : ~ valid_trans transb ->
    gemm_violation order transa transb m n k a_null lda mtag_a b_null ldb mtag_b c_null ldc
      3 DLP_CLSC_INVALID_TRANSPOSE
| gv_dim pos d : In (pos, d) [(4, m); (5, n); (6, k)] -> ~ valid_dim d ->
    gemm_violation order transa transb m n k a_null lda mtag_a b_null ldb mtag_b c_null ldc
      pos DLP_CLSC_INVALID_MATRIX_DIMENSION
| gv_null pos : In (pos, true) [(8, a_null); (11, b_null); (15, c_null)] ->
    gemm_violation order transa transb m n k a_null lda mtag_a b_null ldb mtag_b c_null ldc
      pos DLP_CLSC_NULL_POINTER
| gv_ld pos trans rows cols ld :
    In (pos, trans, rows, cols, ld)
      [(9, transa, m, k, lda); (12, transb, k, n, ldb); (16, "n"%char, m, n, ldc)] ->
    valid_order order -> valid_trans trans -> ~ valid_ld order trans rows cols ld ->
    gemm_violation order transa transb m n k a_null lda mtag_a b_null ldb mtag_b c_null ldc
      pos DLP_CLSC_INVALID_LEADING_DIMENSION
| gv_mtag pos mtag : In (pos, mtag) [(10, mtag_a); (13, mtag_b)] -> ~ valid_mtag mtag ->
    gemm_violation order transa transb m n k a_null lda mtag_a b_null ldb mtag_b c_null ldc
      pos DLP_CLSC_INVALID_MEMORY_TAG.

(** The position the check prints for a wrong parameter: a null [a] goes by the number of
    [alpha]. *)
Definition reported_position (pos : Z) : Z := if pos =? 8 then 7 else pos.

(** The guards of a chain whose positions never decrease report the least position. *)
Lemma check_chain_least guards pos err :
  StronglySorted (fun g h => g.2.1 <= h.2.1) guards ->
  check_chain guards = (pos, err) ->
  (pos, err) = (0, DLP_CLSC_SUCCESS) /\ (forall e, ~ In (true, e) guards) \/
  In (true, (pos, err)) guards /\ forall e, In (true, e) guards -> pos <= e.1.
Proof.
  induction 1 as [|[bad e] guards _ IH Hle]; cbn; [by intros [= <- <-]; left; naive_solver|].
  destruct bad.
  - intros ->. right. split; [by left|]. intros e [[= <-]|Hin]; [done|].
    rewrite List.Forall_forall in Hle. by apply (Hle (true, e)).
  - intros [[E Hno]|[Hin Hmin]]%IH; [left|right]; split; try done.
    + by intros e' [?|?%Hno].
    + by right.
    + intros e' [?|?]; [done|by apply Hmin].
Qed.

Lemma invalid_ld order trans rows cols ld :
  valid_order order -> valid_trans trans ->
  ld_row_bad order trans rows cols ld = true \/ ld_col_bad order trans rows cols ld = true \/
  ld_large ld = true <-> ~ valid_ld order trans rows cols ld.
Proof.
  intros Ho Ht. rewrite <- ld_guards_spec by done.
  destruct (ld_row_bad _ _ _ _ _), (ld_col_bad _ _ _ _ _), (ld_large _); naive_solver.
Qed.

Lemma is_bad (b : bool) (P : Prop) : (b = false <-> P) -> b = true <-> ~ P.
Proof. destruct b; naive_solver. Qed.

Section violations.
  Context (order transa transb : ascii) (m n k : Z) (a_null : bool) (lda : Z) (mtag_a : ascii)
    (b_null : bool) (ldb : Z) (mtag_b : ascii) (c_null : bool) (ldc : Z).
  Local Notation guards :=
    (gemm_guards order transa transb m n k a_null lda mtag_a b_null ldb mtag_b c_null ldc).
  Local Notation violation :=
    (gemm_violation order transa transb m n k a_null lda mtag_a b_null ldb mtag_b c_null ldc).

(** [fired H] uses the fired guard [H] to find it in the chain. *)
Ltac fired H := unfold gemm_guards; cbn [In]; rewrite H; tauto.

Lemma violation_guard pos err : violation pos err -> In (true, (reported_position pos, err)) guards.
Proof.
  intros [H|H|H|p d Hin H|p Hin|p trans rows cols ld Hin Ho Ht H|p mt Hin H].
  - apply (is_bad _ _ (bad_order_spec order)) in H. fired H.
  - apply (is_bad _ _ (bad_trans_spec transa)) in H. fired H.
  - apply (is_bad _ _ (bad_trans_spec transb)) in H. fired H.
  - apply (is_bad _ _ (bad_dim_spec d)) in H.
    destruct Hin as [[= <- <-]|[[= <- <-]|[[= <- <-]|[]]]]; fired H.
  - destruct Hin as [[= <- H]|[[= <- H]|[[= <- H]|[]]]]; fired H.
  - apply invalid_ld in H; [|done..].
    destruct Hin as [[= <- <- <- <- <-]|[[= <- <- <- <- <-]|[[= <- <- <- <- <-]|[]]]].
    1, 2: by destruct H as [H|[H|H]]; fired H.
    unfold ld_row_bad, ld_col_bad in H. change (notrans "n") with true in H.
    change (istrans "n") with false in H. cbn [andb] in H. rewrite !orb_false_r in H.
    by destruct H as [H|[H|H]]; fired H.
  - apply (is_bad _ _ (bad_mtag_spec mt)) in H.
    destruct Hin as [[= <- <-]|[[= <- <-]|[]]]; fired H.
Qed.

Lemma violation_position pos err : violation pos err -> pos <> 7 /\ 1 <= pos.
Proof.
  intros [H|H|H|p d Hin H|p Hin|p trans rows cols ld Hin Ho Ht H|p mt Hin H]; [lia|lia|lia|..]; cbn [In] in Hin;
    destruct_or! Hin; try (by destruct Hin); injection Hin as <-; intros; lia.
Qed.

Lemma violated_ld pos trans rows cols ld :
  In (pos, trans, rows, cols, ld)
    [(9, transa, m, k, lda); (12, transb, k, n, ldb); (16, "n"%char, m, n, ldc)] ->
  valid_order order -> valid_trans trans ->
  ld_row_bad order trans rows cols ld = true \/ ld_col_bad order trans rows cols ld = true \/
  ld_large ld = true -> violation pos DLP_CLSC_INVALID_LEADING_DIMENSION.
Proof. intros Hin Ho Ht H%invalid_ld; [|done..]. by eapply gv_ld. Qed.

Lemma guard_violation pos err :
  In (true, (pos, err)) guards -> (forall e, In (true, e) guards -> pos <= e.1) ->
  exists q, violation q err /\ pos = reported_position q.
Proof.
  intros Hin Hmin.
  assert (1 < pos -> valid_order order) as Ho.
  { intros Hp. apply bad_order_spec, not_true_iff_false. intros E.
    specialize (Hmin (1, DLP_CLSC_INVALID_ORDER)). cbn [fst] in Hmin.
    enough (pos <= 1) by lia. apply Hmin. fired E. }
  assert (3 < pos -> valid_trans transa /\ valid_trans transb) as Ht.
  { intros Hp. rewrite <- !bad_trans_spec. split; apply not_true_iff_false; intros E;
      [enough (pos <= 2) by lia; apply (Hmin (2, DLP_CLSC_INVALID_TRANSPOSE))
      |enough (pos <= 3) by lia; apply (Hmin (3, DLP_CLSC_INVALID_TRANSPOSE))]; fired E. }
  unfold gemm_guards in Hin. cbn [In] in Hin.
  repeat match type of Hin with _ \/ _ => destruct Hin as [[= H <- <-]|Hin] end; [..|done].
  7: by exists 8; split; [apply gv_null; cbn [In]; rewrite H; tauto|].
  all: match type of Hmin with forall e, _ -> ?p <= _ => exists p; split; [|done] end.
  1: by apply gv_order, (is_bad _ _ (bad_order_spec order)).
  1, 2: by constructor; apply (is_bad _ _ (bad_trans_spec _)).
  1, 2, 3: by eapply gv_dim; [cbn; tauto|apply (is_bad _ _ (bad_dim_spec _))].
  5, 10: by apply gv_null; cbn [In]; rewrite H; tauto.
  4, 8: by eapply gv_mtag; [cbn; tauto|apply (is_bad _ _ (bad_mtag_spec _))].
  1, 2, 3: apply (violated_ld 9 transa m k lda); [cbn; tauto|apply Ho; lia|apply Ht; lia|tauto].
  1, 2, 3: apply (violated_ld 12 transb k n ldb); [cbn; tauto|apply Ho; lia|apply Ht; lia|tauto].
  all: apply (violated_ld 16 "n"%char m n ldc); [cbn; tauto|apply Ho; lia|by left|];
    unfold ld_row_bad, ld_col_bad; change (notrans "n") with true; change (istrans "n") with false;
    cbn [andb]; rewrite !orb_false_r; tauto.
Qed.

Lemma gemm_guards_sorted : StronglySorted (fun g h => g.2.1 <= h.2.1) guards.
Proof. unfold gemm_guards. repeat (constructor; [|repeat constructor; cbn; lia]). constructor. Qed.

(** C24. A rejected call is told why, with one number wrong: the GEMM check answers position
    0 with [DLP_CLSC_SUCCESS] exactly when nothing is wrong, and otherwise the code of the
    first parameter that is wrong, in the order of the declaration, and its position,
    except that a null A, parameter 8, is reported as 7, the number of [alpha]. *)
Theorem gemm_check_explained pos err :
  AOCL_DLP_GEMM_CHECK order transa transb m n k a_null lda mtag_a b_null ldb mtag_b c_null ldc
    = (pos, err) ->
  pos = 0 /\ err = DLP_CLSC_SUCCESS /\ (forall pos' err', ~ violation pos' err') \/
  exists q, violation q err /\ pos = reported_position q /\
    forall pos' err', violation pos' err' -> q <= pos'.
Proof.
  intros H. apply (check_chain_least _ _ _ gemm_guards_sorted) in H.
  destruct H as [[[= -> ->] Hno]|[Hin Hmin]]; [left|right].
  - do 2 (split; [done|]). intros pos' err' Hv. by apply violation_guard, Hno in Hv.
  - destruct (guard_violation pos err Hin Hmin) as (q & Hq & ->). exists q. split; [done|]. split; [done|].
    intros pos' err' Hv. pose proof (violation_position _ _ Hq). pose proof (violation_position _ _ Hv).
    apply violation_guard, Hmin in Hv. cbn [fst] in Hv. unfold reported_position in Hv.
    destruct (Z.eqb_spec q 8), (Z.eqb_spec pos' 8); lia.
Qed.
End violations.

(** A call without A, whose second matrix has a leading dimension shorter than its line. *)
Lemma gemm_check_explained_witness :
  AOCL_DLP_GEMM_CHECK "r" "n" "t" 4 6 8 true 8 "n" false 7 "r" true 3 = (7, DLP_CLSC_NULL_POINTER) /\
  gemm_violation "r" "n" "t" 4 6 8 true 8 "n" false 7 "r" true 3 8 DLP_CLSC_NULL_POINTER /\
  forall pos err, gemm_violation "r" "n" "t" 4 6 8 true 8 "n" false 7 "r" true 3 pos err -> 8 <= pos.
Proof.
  split; [reflexivity|].
  destruct (gemm_check_explained "r" "n" "t" 4 6 8 true 8 "n" false 7 "r" true 3 7 DLP_CLSC_NULL_POINTER eq_refl)
    as [[E _]|(q & Hq & E & Hmin)]; [discriminate|].
  assert (q = 8) as ->.
  { unfold reported_position in E. destruct (Z.eqb_spec q 8); [done|]. by destruct (violation_position _ _ _ _ _ _ _ _ _ _ _ _ _ _ _ _ Hq). }
  by split.
Defined.
