(* ===== verification/Fp16.v ===== *)
(** * Conversions between float and fp16 (include/classic/aocl_fp16_convert.h)

    The portable software paths on the bit patterns: [float] is its [uint32_t]
    encoding, [float16] is a [uint16_t].  The narrowing is the IEEE rounding to
    nearest, ties to even, of every finite input; the widening is exact, and
    narrowing a widened value gives it back. *)
From S2P Require Import Prelude Word.

(** ** The code *)

Definition to_u16 (z : Z) : Z := z mod 2 ^ 16.

(** Shifts of a [uint32_t] by a computed amount: undefined outside [0, 31]. *)
Definition shr32 (x s : Z) : option Z :=
  if (0 <=? s) && (s <? 32) then Some (Z.shiftr x s) else None.
Definition shl32 (x s : Z) : option Z :=
  if (0 <=? s) && (s <? 32) then Some (to_u32 (Z.shiftl x s)) else None.

(** The branch for results below the normal range of [float16]. *)
Definition f32_to_fp16_subnormal (sign mant32 exp16 : Z) : option Z :=
  if exp16 <? -10 then Some (to_u16 sign)
  else
    let total_shift := 14 - exp16 in
    above ← shr32 mant32 (total_shift - 1);
    let round_bit := Z.land above 1 in
    one ← shl32 1 (total_shift - 1);
    let sticky_mask := to_u32 (one - 1) in
    let sticky := negb (Z.land mant32 sticky_mask =? 0) in
    mant16 ← shr32 mant32 total_shift;
    let lsb := Z.land mant16 1 in
    let mant16 :=
      if negb (round_bit =? 0) && (sticky || negb (lsb =? 0)) then to_u32 (mant16 + 1) else mant16 in
    if 0x0400 <=? mant16 then Some (to_u16 (Z.lor sign 0x0400))
    else Some (to_u16 (Z.lor sign (to_u16 mant16))).

(** The branch for results in the normal range or above it. *)
Definition f32_to_fp16_normal (sign mant32 exp16 : Z) : Z :=
  if 0x1F <=? exp16 then to_u16 (Z.lor sign 0x7C00)
  else
    let round_bits := Z.land mant32 0x1FFF in
    let lsb := Z.land (Z.shiftr mant32 13) 1 in
    let mant32 :=
      if (0x1000 <? round_bits) || ((round_bits =? 0x1000) && negb (lsb =? 0))
      then to_u32 (mant32 + 0x1000) else mant32 in
    let '(exp16, mant32, overflow) :=
      if negb (Z.land mant32 0x01000000 =? 0)
      then (exp16 + 1, 0x00800000, 0x1F <=? exp16 + 1) else (exp16, mant32, false) in
    if overflow then to_u16 (Z.lor sign 0x7C00)
    else
      let mant16 := to_u16 (Z.land (Z.shiftr mant32 13) 0x03FF) in
      to_u16 (Z.lor (Z.lor sign (Z.shiftl (to_u16 exp16) 10)) mant16).

Definition f32_to_fp16 (u : Z) : option Z :=
  let sign := Z.shiftr (Z.land u 0x80000000) 16 in
  let exp32 := Z.shiftr (Z.land u 0x7F800000) 23 in
  let mant32 := Z.land u 0x007FFFFF in
  if exp32 =? 0 then Some (to_u16 sign)
  else if exp32 =? 0xFF then
    if mant32 =? 0 then Some (to_u16 (Z.lor sign 0x7C00))
    else
      let mant16 := to_u16 (Z.lor (Z.shiftr mant32 13) 0x0200) in
      Some (to_u16 (Z.lor (Z.lor sign 0x7C00) (Z.land mant16 0x03FF)))
  else
    let exp16 := exp32 - 112 in
    let mant32 := Z.lor mant32 0x00800000 in
    if exp16 <=? 0 then f32_to_fp16_subnormal sign mant32 exp16
    else Some (f32_to_fp16_normal sign mant32 exp16).

(** [while ((mant16 & 0x400U) == 0)]: [(mant16, shifts)] after the loop. *)
Fixpoint renormalize (fuel : nat) (mant16 shifts : Z) : option (Z * Z) :=
  match fuel with
  | O => None
  | S fuel =>
      if Z.land mant16 0x400 =? 0
      then renormalize fuel (to_u32 (Z.shiftl mant16 1)) (to_u32 (shifts + 1))
      else Some (mant16, shifts)
  end.

Definition fp16_to_f32 (h : Z) : option Z :=
  let bits := to_u16 h in
  let sign := Z.shiftl (Z.land bits 0x8000) 16 in
  let exp16 := Z.land (Z.shiftr bits 10) 0x1F in
  let mant16 := Z.land bits 0x3FF in
  if exp16 =? 0 then
    if mant16 =? 0 then Some sign
    else
      '(mant16, shifts) ← renormalize 11 mant16 0;
      let mant16 := Z.land mant16 0x3FF in
      let exp32 := to_u32 (127 - 14 - shifts) in
      Some (Z.lor (Z.lor sign (to_u32 (Z.shiftl exp32 23))) (to_u32 (Z.shiftl mant16 13)))
  else if exp16 =? 0x1F then
    let mant32 := Z.shiftl mant16 13 in
    let mant32 := if negb (mant16 =? 0) then Z.lor mant32 0x00400000 else mant32 in
    Some (Z.lor (Z.lor sign 0x7F800000) mant32)
  else
    let exp32 := exp16 + (127 - 15) in
    Some (Z.lor (Z.lor sign (to_u32 (Z.shiftl exp32 23))) (to_u32 (Z.shiftl mant16 13))).

(** ** The encodings

    Sign, exponent and mantissa of an encoding, and the magnitude of a finite one
    as a multiple of the least positive value of its format: [2^-149] for [float],
    [2^-24] for [float16]. *)
Definition uint32_t (z : Z) : Prop := 0 <= z < 2 ^ 32.
Definition uint16_t (z : Z) : Prop := 0 <= z < 2 ^ 16.

Definition f32_sign (u : Z) : Z := u / 2 ^ 31.
Definition f32_exp (u : Z) : Z := u / 2 ^ 23 mod 2 ^ 8.
Definition f32_mant (u : Z) : Z := u mod 2 ^ 23.
Definition f32_bits (s e m : Z) : Z := s * 2 ^ 31 + e * 2 ^ 23 + m.
Definition f32_magnitude (u : Z) : Z :=
  if f32_exp u =? 0 then f32_mant u else (2 ^ 23 + f32_mant u) * 2 ^ (f32_exp u - 1).
Definition f32_finite (u : Z) : Prop := f32_exp u < 255.
Definition f32_nan (u : Z) : Prop := f32_exp u = 255 /\ f32_mant u <> 0.

(** The encodings [h] of nonnegative [float16] values, in order; [0x7C00], infinity,
    is given the value the next exponent would have. *)
Definition fp16_infinity : Z := 0x7C00.
Definition fp16_magnitude (h : Z) : Z :=
  if h / 2 ^ 10 =? 0 then h mod 2 ^ 10 else (2 ^ 10 + h mod 2 ^ 10) * 2 ^ (h / 2 ^ 10 - 1).

(** [h] is the nearest encoding to the magnitude [v] of a [float], ties to even; a
    magnitude from the middle of the last finite value and the next on is infinite. *)
Definition rounds_to (v h : Z) : Prop :=
  0 <= h <= fp16_infinity /\
  forall h', 0 <= h' <= fp16_infinity -> h' <> h ->
    let error x := Z.abs (v - fp16_magnitude x * 2 ^ 125) in
    error h < error h' \/ error h = error h' /\ Z.Even h.

Example f32_one : f32_to_fp16 0x3F800000 = Some 0x3C00.
Proof. reflexivity. Qed.
Example f32_tie_up : f32_to_fp16 0x477FF000 = Some 0x7C00.
Proof. reflexivity. Qed.
Example f32_below_tie : f32_to_fp16 0x477FEFFF = Some 0x7BFF.
Proof. reflexivity. Qed.
Example fp16_least : fp16_to_f32 1 = Some 0x33800000.
Proof. reflexivity. Qed.

(** ** Fields *)

Lemma f32_fields u :
  uint32_t u ->
  0 <= f32_sign u <= 1 /\ 0 <= f32_exp u < 256 /\ 0 <= f32_mant u < 2 ^ 23 /\
  u = f32_bits (f32_sign u) (f32_exp u) (f32_mant u).
Proof.
  unfold uint32_t, f32_sign, f32_exp, f32_mant, f32_bits. intros. dlia.
Qed.

Lemma f32_bits_fields s e m :
  0 <= s <= 1 -> 0 <= e < 256 -> 0 <= m < 2 ^ 23 ->
  uint32_t (f32_bits s e m) /\ f32_sign (f32_bits s e m) = s /\
  f32_exp (f32_bits s e m) = e /\ f32_mant (f32_bits s e m) = m.
Proof. unfold uint32_t, f32_sign, f32_exp, f32_mant, f32_bits. intros. dlia. Qed.

Lemma code_sign u : uint32_t u -> Z.shiftr (Z.land u 0x80000000) 16 = f32_sign u * 2 ^ 15.
Proof.
  intros Hu. change 0x80000000 with (Z.shiftl (Z.ones 1) 31). rewrite land_field by lia.
  rewrite Z.shiftr_div_pow2 by lia. unfold f32_sign, uint32_t in *.
  rewrite (Z.mod_small (u / 2 ^ 31)) by dlia. dlia.
Qed.

Lemma code_exp u : Z.shiftr (Z.land u 0x7F800000) 23 = f32_exp u.
Proof. change 0x7F800000 with (Z.shiftl (Z.ones 8) 23). by rewrite shiftr_field by lia. Qed.

Lemma code_mant u : Z.land u 0x007FFFFF = f32_mant u.
Proof. change 0x007FFFFF with (Z.ones 23). by rewrite land_mask by lia. Qed.

Lemma code_implicit_one m : 0 <= m < 2 ^ 23 -> Z.lor m 0x00800000 = 2 ^ 23 + m.
Proof. intros. rewrite Z.lor_comm. change 0x00800000 with (1 * 2 ^ 23). by rewrite lor_add. Qed.

(** Attaching the sign. *)
Lemma with_sign s h : 0 <= s <= 1 -> 0 <= h < 2 ^ 15 -> to_u16 (Z.lor (s * 2 ^ 15) h) = s * 2 ^ 15 + h.
Proof. intros. rewrite lor_add by lia. unfold to_u16. apply Z.mod_small. lia. Qed.

Lemma sign_only s : 0 <= s <= 1 -> to_u16 (s * 2 ^ 15) = s * 2 ^ 15 + 0.
Proof. intros. unfold to_u16. rewrite Z.mod_small; lia. Qed.

(** ** Rounding to nearest even

    [rne n s] is [n / 2^s] rounded to the nearest integer, ties to even. *)
Definition rne (n s : Z) : Z :=
  let q := n / 2 ^ s in
  let t := n mod 2 ^ s in
  if (2 ^ (s - 1) <? t) || ((t =? 2 ^ (s - 1)) && Z.odd q) then q + 1 else q.

Lemma rne_nearest n s :
  0 < s -> let err := Z.abs (n - rne n s * 2 ^ s) in
  2 * err < 2 ^ s \/ 2 * err = 2 ^ s /\ Z.Even (rne n s).
Proof.
  intros Hs. cbn zeta. assert (2 ^ s = 2 * 2 ^ (s - 1)) as E2
    by (rewrite <- Z.pow_succ_r by lia; f_equal; lia).
  pose proof (Z.pow_pos_nonneg 2 (s - 1)) as Hp. pose proof (Z.div_mod n (2 ^ s)) as E.
  pose proof (Z.mod_pos_bound n (2 ^ s)) as Hm. unfold rne.
  set (q := n / 2 ^ s) in *. set (t := n mod 2 ^ s) in *. clearbody q t.
  destruct (Z.ltb_spec (2 ^ (s - 1)) t); cbn [orb]; [left; lia|].
  destruct (Z.eqb_spec t (2 ^ (s - 1))); cbn [andb]; [|left; lia]. right.
  destruct (Z.odd q) eqn:Hq; split; try lia.
  - apply Z.odd_spec in Hq as [c ->]. exists (c + 1). lia.
  - apply Z.even_spec. by rewrite <- Z.negb_odd, Hq.
Qed.

Lemma rne_bounds n s lo hi :
  0 < s -> lo * 2 ^ s <= n -> n <= hi * 2 ^ s -> lo <= rne n s <= hi.
Proof.
  intros Hs Hlo Hhi. pose proof (Z.pow_pos_nonneg 2 s). pose proof (Z.pow_pos_nonneg 2 (s - 1)).
  assert (lo <= n / 2 ^ s) by (apply Z.div_le_lower_bound; lia).
  assert (n / 2 ^ s <= hi) by (apply Z.div_le_upper_bound; lia).
  unfold rne. destruct (decide (n / 2 ^ s = hi)) as [E|]; [|case_match; lia].
  pose proof (Z.div_mod n (2 ^ s)). pose proof (Z.mod_pos_bound n (2 ^ s)).
  assert (n mod 2 ^ s = 0) as -> by nia.
  rewrite (proj2 (Z.ltb_ge _ 0)), (proj2 (Z.eqb_neq 0 _)) by lia. cbn. lia.
Qed.

(** The test of the code: round bit, and sticky or last bit. *)
Lemma round_decision n s :
  0 < s ->
  negb (n / 2 ^ (s - 1) mod 2 =? 0) && (negb (n mod 2 ^ (s - 1) =? 0) || negb (n / 2 ^ s mod 2 =? 0)) =
  (2 ^ (s - 1) <? n mod 2 ^ s) || ((n mod 2 ^ s =? 2 ^ (s - 1)) && Z.odd (n / 2 ^ s)).
Proof.
  intros Hs. assert (2 ^ s = 2 * 2 ^ (s - 1)) as E2
    by (rewrite <- Z.pow_succ_r by lia; f_equal; lia).
  pose proof (Z.pow_pos_nonneg 2 (s - 1)) as Hp. pose proof (Z.div_mod n (2 ^ s)) as E.
  pose proof (Z.mod_pos_bound n (2 ^ s)) as Hm. rewrite Zodd_mod.
  set (q := n / 2 ^ s) in *. set (t := n mod 2 ^ s) in *. set (p := 2 ^ (s - 1)) in *.
  clearbody q t. assert (n = t + 2 * q * p) as -> by lia. rewrite Z.div_add, Z.mod_add by lia.
  rewrite (Z.mul_comm 2 q), Z.mod_add by lia.
  assert (0 <= q mod 2 < 2) as Hq by (apply Z.mod_pos_bound; lia).
  destruct (decide (t < p)).
  - rewrite (Z.div_small t p), (proj2 (Z.ltb_ge p t)), (proj2 (Z.eqb_neq t p)) by lia. done.
  - rewrite <- (Z.div_unique t p 1 (t - p)), <- (Z.mod_unique t p 1 (t - p)) by lia.
    change (1 mod 2 =? 0) with false. cbn [negb andb].
    destruct (Z.eqb_spec (t - p) 0), (Z.ltb_spec p t), (Z.eqb_spec t p); lia.
Qed.

Lemma rne_code n s q :
  0 < s -> q = n / 2 ^ s ->
  (if negb (n / 2 ^ (s - 1) mod 2 =? 0) &&
      (negb (n mod 2 ^ (s - 1) =? 0) || negb (q mod 2 =? 0)) then q + 1 else q) = rne n s.
Proof. intros Hs ->. by rewrite round_decision. Qed.

(** ** What the two branches compute *)

Lemma land_one x : Z.land x 1 = x mod 2.
Proof. apply (land_mask x 1). done. Qed.

Lemma subnormal_code s n e :
  0 <= s <= 1 -> 2 ^ 23 <= n < 2 ^ 24 -> e <= 0 ->
  f32_to_fp16_subnormal (s * 2 ^ 15) n e =
  Some (s * 2 ^ 15 + if e <? -10 then 0 else rne n (14 - e)).
Proof.
  intros Hs Hn He. unfold f32_to_fp16_subnormal. destruct (Z.ltb_spec e (-10)) as [|He'].
  { by rewrite sign_only. }
  set (sh := 14 - e). assert (14 <= sh <= 24) as Hsh by (unfold sh; lia). clearbody sh.
  assert (0 < 2 ^ (sh - 1) < 2 ^ 31) as Hp.
  { split; [apply Z.pow_pos_nonneg; lia|apply Z.pow_lt_mono_r; lia]. }
  unfold shr32, shl32. rewrite !(proj2 (Z.leb_le 0 _)), !(proj2 (Z.ltb_lt _ 32)) by lia.
  cbn [andb mbind option_bind]. rewrite Z.shiftl_mul_pow2, Z.mul_1_l by lia.
  rewrite !Z.shiftr_div_pow2, !land_one by lia. unfold to_u32.
  rewrite (Z.mod_small (2 ^ (sh - 1))), (Z.mod_small (2 ^ (sh - 1) - 1)) by lia.
  replace (2 ^ (sh - 1) - 1) with (Z.ones (sh - 1)) by (rewrite Z.ones_equiv; lia).
  rewrite land_mask by lia.
  assert (0 <= n / 2 ^ sh < 2 ^ 24) as Hq.
  { split; [apply Z.div_pos; lia|]. apply Z.div_lt_upper_bound; [lia|].
    pose proof (Z.pow_pos_nonneg 2 sh). nia. }
  rewrite (Z.mod_small (n / 2 ^ sh + 1)) by lia. rewrite rne_code by lia.
  assert (0 <= rne n sh <= 1024) as Hr.
  { apply rne_bounds; [lia..|]. transitivity (2 ^ 10 * 2 ^ 14); [lia|].
    apply Z.mul_le_mono_nonneg_l; [done|]. apply Z.pow_le_mono_r; lia. }
  destruct (Z.leb_spec 0x0400 (rne n sh)).
  - rewrite with_sign by lia. do 2 f_equal. lia.
  - unfold to_u16 at 2. rewrite Z.mod_small, with_sign by lia. done.
Qed.

Lemma assemble s e m :
  0 <= s <= 1 -> 0 <= e <= 30 -> 0 <= m < 2 ^ 10 ->
  to_u16 (Z.lor (Z.lor (s * 2 ^ 15) (Z.shiftl (to_u16 e) 10)) (to_u16 m)) = s * 2 ^ 15 + e * 2 ^ 10 + m.
Proof.
  intros. unfold to_u16. rewrite Z.shiftl_mul_pow2, (Z.mod_small e), (Z.mod_small m) by lia.
  rewrite (lor_add s) by lia. replace (s * 2 ^ 15 + e * 2 ^ 10) with ((s * 2 ^ 5 + e) * 2 ^ 10) by lia.
  rewrite lor_add by lia. apply Z.mod_small. lia.
Qed.

Lemma normal_code s n e :
  0 <= s <= 1 -> 2 ^ 23 <= n < 2 ^ 24 -> 1 <= e ->
  f32_to_fp16_normal (s * 2 ^ 15) n e =
  s * 2 ^ 15 + if 0x1F <=? e then 0x7C00 else (e - 1) * 2 ^ 10 + rne n 13.
Proof.
  intros Hs Hn He. unfold f32_to_fp16_normal. destruct (Z.leb_spec 0x1F e); [by rewrite with_sign|].
  assert (2 ^ 10 <= rne n 13 <= 2 ^ 11) as Hr by (apply rne_bounds; lia).
  change 0x1FFF with (Z.ones 13). rewrite land_mask, land_one, Z.shiftr_div_pow2 by lia.
  replace (negb (n / 2 ^ 13 mod 2 =? 0)) with (Z.odd (n / 2 ^ 13))
    by (rewrite Zodd_mod; pose proof (Z.mod_pos_bound (n / 2 ^ 13) 2); lia).
  set (n' := if (0x1000 <? n mod 2 ^ 13) || ((n mod 2 ^ 13 =? 0x1000) && Z.odd (n / 2 ^ 13))
             then to_u32 (n + 0x1000) else n).
  assert (n' / 2 ^ 13 = rne n 13 /\ 0 <= n' < 2 ^ 25) as [En' Hn'].
  { unfold n', rne. change (2 ^ (13 - 1)) with 0x1000. case_match; [|split; [done|lia]].
    unfold to_u32. rewrite Z.mod_small by lia. split; [|lia].
    pose proof (Z.mod_pos_bound n (2 ^ 13)). pose proof (Z.div_mod n (2 ^ 13)).
    symmetry. apply (Z.div_unique _ _ _ (n mod 2 ^ 13 - 0x1000)); lia. }
  clearbody n'. change 0x01000000 with (Z.shiftl (Z.ones 1) 24) at 1. rewrite land_field by lia.
  assert (n' / 2 ^ 24 = rne n 13 / 2 ^ 11) as E24.
  { rewrite <- En', Z.div_div by lia. done. }
  rewrite E24. destruct (decide (rne n 13 = 2 ^ 11)) as [Er|].
  - rewrite Er. change (negb (2 ^ 11 / 2 ^ 11 mod 2 ^ 1 * 2 ^ 24 =? 0)) with true. cbv beta iota.
    destruct (Z.leb_spec 0x1F (e + 1)); [rewrite with_sign by lia; lia|].
    change (Z.land (Z.shiftr 0x00800000 13) 0x03FF) with 0. rewrite assemble by lia. lia.
  - replace (rne n 13 / 2 ^ 11) with 0 by (symmetry; apply Z.div_small; lia).
    change (negb (0 mod 2 ^ 1 * 2 ^ 24 =? 0)) with false. cbv beta iota.
    change 0x03FF with (Z.ones 10). rewrite land_mask, Z.shiftr_div_pow2, En' by lia.
    replace (rne n 13 mod 2 ^ 10) with (rne n 13 - 2 ^ 10)
      by (apply (Z.mod_unique _ _ 1); lia).
    rewrite assemble by lia. lia.
Qed.

(** ** The nearest encoding *)

Lemma magnitude_subnormal r : 0 <= r <= 2 ^ 10 -> fp16_magnitude r = r.
Proof.
  intros. unfold fp16_magnitude. destruct (decide (r = 2 ^ 10)) as [->|]; [done|].
  rewrite Z.div_small, Z.mod_small by lia. done.
Qed.

Lemma magnitude_normal e r :
  1 <= e -> 2 ^ 10 <= r <= 2 ^ 11 -> fp16_magnitude ((e - 1) * 2 ^ 10 + r) = r * 2 ^ (e - 1).
Proof.
  intros He Hr. unfold fp16_magnitude. destruct (decide (r = 2 ^ 11)) as [->|].
  - replace ((e - 1) * 2 ^ 10 + 2 ^ 11) with (0 + (e + 1) * 2 ^ 10) by lia.
    rewrite Z.div_add, Z.mod_add by lia. change (0 / 2 ^ 10) with 0. change (0 mod 2 ^ 10) with 0.
    rewrite (proj2 (Z.eqb_neq _ 0)) by lia. rewrite Z.add_0_l, Z.add_simpl_r.
    replace e with (Z.succ (e - 1)) at 1 by lia. rewrite Z.pow_succ_r by lia. lia.
  - replace ((e - 1) * 2 ^ 10 + r) with ((r - 2 ^ 10) + e * 2 ^ 10) by lia.
    rewrite Z.div_add, Z.mod_add, Z.div_small, Z.mod_small by lia.
    rewrite (proj2 (Z.eqb_neq _ 0)), Z.add_0_l by lia. by rewrite Zplus_minus.
Qed.

Lemma magnitude_step h : 0 <= h -> fp16_magnitude h < fp16_magnitude (h + 1).
Proof.
  intros Hh. destruct (decide (h < 2 ^ 10)).
  { rewrite !magnitude_subnormal by lia. lia. }
  pose proof (Z.div_mod h (2 ^ 10)). pose proof (Z.mod_pos_bound h (2 ^ 10)).
  assert (1 <= h / 2 ^ 10) by (apply Z.div_le_lower_bound; lia).
  pose proof (magnitude_normal (h / 2 ^ 10) (2 ^ 10 + h mod 2 ^ 10) ltac:(done) ltac:(lia)) as E.
  pose proof (magnitude_normal (h / 2 ^ 10) (2 ^ 10 + h mod 2 ^ 10 + 1) ltac:(done) ltac:(lia)) as E'.
  replace ((h / 2 ^ 10 - 1) * 2 ^ 10 + (2 ^ 10 + h mod 2 ^ 10)) with h in E by lia.
  replace ((h / 2 ^ 10 - 1) * 2 ^ 10 + (2 ^ 10 + h mod 2 ^ 10 + 1)) with (h + 1) in E' by lia.
  rewrite E, E'. apply Z.mul_lt_mono_pos_r; [apply Z.pow_pos_nonneg; lia|lia].
Qed.

Lemma magnitude_mono h h' : 0 <= h <= h' -> fp16_magnitude h <= fp16_magnitude h'.
Proof.
  intros [Hh Hle]. replace h' with (h + Z.of_nat (Z.to_nat (h' - h))) by lia.
  induction (Z.to_nat (h' - h)) as [|d IH]; [by rewrite Z.add_0_r|].
  pose proof (magnitude_step (h + Z.of_nat d)).
  replace (h + Z.of_nat (S d)) with (h + Z.of_nat d + 1) by lia. lia.
Qed.

(** An encoding at least as near as its two neighbours is the nearest. *)
Lemma nearest_of_neighbours v h :
  let q x := fp16_magnitude x * 2 ^ 125 in
  let beats d := Z.abs (v - q h) < d \/ Z.abs (v - q h) = d /\ Z.Even h in
  0 <= h <= fp16_infinity ->
  (h = 0 \/ beats (v - q (h - 1))) -> (h = fp16_infinity \/ beats (q (h + 1) - v)) -> rounds_to v h.
Proof.
  intros q beats Hh Hlow Hup. split; [done|]. intros h' Hh' Hne. cbn zeta.
  change (Z.abs (v - q h) < Z.abs (v - q h') \/ Z.abs (v - q h) = Z.abs (v - q h') /\ Z.Even h).
  assert (forall x y, 0 <= x <= y -> q x <= q y) as Hq.
  { intros x y Hxy. apply Z.mul_le_mono_nonneg_r; [done|]. by apply magnitude_mono. }
  unfold beats in *. clearbody q. destruct (decide (h' < h)).
  - destruct Hlow as [->|Hlow]; [lia|]. pose proof (Hq h' (h - 1) ltac:(lia)).
    destruct Hlow as [Hlow|[Hlow He]]; [left; lia|].
    destruct (decide (Z.abs (v - q h) = Z.abs (v - q h'))); [by right|left; lia].
  - destruct Hup as [->|Hup]; [lia|]. pose proof (Hq (h + 1) h' ltac:(lia)).
    destruct Hup as [Hup|[Hup He]]; [left; lia|].
    destruct (decide (Z.abs (v - q h) = Z.abs (v - q h'))); [by right|left; lia].
Qed.

(** Rounding a multiple of a unit to a coarser one finds the nearest encoding. *)
Lemma rne_rounds n s u h :
  let r := rne n s in
  let q x := fp16_magnitude x * 2 ^ 125 in
  0 < s -> 0 < u -> 0 <= h <= fp16_infinity -> (Z.Even r -> Z.Even h) ->
  q h = r * 2 ^ s * u ->
  (r + 1) * 2 ^ s * u <= q (h + 1) ->
  (h = 0 \/ q (h - 1) <= (r - 1) * 2 ^ s * u \/ q (h - 1) < q h /\ r * 2 ^ s <= n) ->
  rounds_to (n * u) h.
Proof.
  intros r q Hs Hu Hh Heven Eh Hup Hlow. pose proof (rne_nearest n s Hs) as Hn. cbn zeta in Hn.
  fold r in Hn. assert (Z.abs (n * u - q h) = Z.abs (n - r * 2 ^ s) * u) as Ea.
  { replace (n * u - q h) with ((n - r * 2 ^ s) * u) by (rewrite Eh; ring).
    by rewrite Z.abs_mul, (Z.abs_eq u) by lia. }
  set (d := n - r * 2 ^ s) in *. assert (n * u = r * 2 ^ s * u + d * u) as En by (unfold d; ring).
  assert (Z.abs (n * u - q h) < 2 ^ s * u - Z.abs (n * u - q h) \/
          Z.abs (n * u - q h) = 2 ^ s * u - Z.abs (n * u - q h) /\ Z.Even h) as Hb.
  { rewrite Ea. destruct Hn as [Hn|[Hn He]]; [left|right; split; [|by apply Heven]]; nia. }
  assert (n * u - q h = d * u) as Enq by lia.
  apply nearest_of_neighbours; [done|..].
  - destruct Hlow as [->|Hlow]; [by left|right]. change (fp16_magnitude ?x * 2 ^ 125) with (q x).
    assert (q (h - 1) <= (r - 1) * 2 ^ s * u \/ q (h - 1) < q h /\ 0 <= d * u) as Hlow'
      by (destruct Hlow as [|[]]; [by left|right; split; [done|nia]]).
    destruct Hb as [Hb|[Hb He]], Hlow' as [|[]]; (left; lia) || idtac.
    destruct (decide (Z.abs (n * u - q h) = n * u - q (h - 1))); [by right|left; lia].
  - right. change (fp16_magnitude ?x * 2 ^ 125) with (q x).
    destruct Hb as [Hb|[Hb He]]; [left; lia|].
    destruct (decide (Z.abs (n * u - q h) = q (h + 1) - n * u)); [by right|left; lia].
Qed.

Lemma magnitude_small r : 0 <= r <= 2 ^ 11 -> fp16_magnitude r = r.
Proof.
  intros. destruct (decide (r <= 2 ^ 10)); [apply magnitude_subnormal; lia|].
  pose proof (magnitude_normal 1 r) as E. change ((1 - 1) * 2 ^ 10 + r) with r in E.
  rewrite Z.mul_1_r in E. apply E; lia.
Qed.

Lemma pow_split a b c d : 0 <= a -> 0 <= b -> 0 <= c -> 0 <= d -> a + b = c + d -> 2 ^ a * 2 ^ b = 2 ^ c * 2 ^ d.
Proof. intros Ha Hb Hc Hd E. by rewrite <- !Z.pow_add_r, E. Qed.

Lemma subnormal_rounds n e :
  2 ^ 23 <= n < 2 ^ 24 -> -10 <= e <= 0 -> rounds_to (n * 2 ^ (e + 111)) (rne n (14 - e)).
Proof.
  intros Hn He. assert (0 <= rne n (14 - e) <= 2 ^ 10) as Hr.
  { apply rne_bounds; [lia..|]. transitivity (2 ^ 10 * 2 ^ 14); [lia|].
    apply Z.mul_le_mono_nonneg_l; [done|]. apply Z.pow_le_mono_r; lia. }
  assert (2 ^ (14 - e) * 2 ^ (e + 111) = 2 ^ 125) as E
    by (rewrite <- Z.pow_add_r by lia; f_equal; lia).
  apply (rne_rounds n (14 - e) (2 ^ (e + 111))); rewrite <- ?Z.mul_assoc, ?E.
  - lia.
  - apply Z.pow_pos_nonneg; lia.
  - unfold fp16_infinity. lia.
  - done.
  - by rewrite magnitude_small by lia.
  - by rewrite magnitude_small by lia.
  - destruct (decide (rne n (14 - e) = 0)); [by left|right; left].
    rewrite magnitude_small by lia. done.
Qed.

Lemma normal_rounds n e :
  2 ^ 23 <= n < 2 ^ 24 -> 1 <= e <= 30 ->
  rounds_to (n * 2 ^ (e + 111)) ((e - 1) * 2 ^ 10 + rne n 13).
Proof.
  intros Hn He. assert (2 ^ 10 <= rne n 13 <= 2 ^ 11) as Hr by (apply rne_bounds; lia).
  assert (2 ^ (e - 1) * 2 ^ 125 = 2 ^ 13 * 2 ^ (e + 111)) as E by (apply pow_split; lia).
  assert (0 < 2 ^ (e - 1) * 2 ^ 125) as Hpos by (apply Z.mul_pos_pos; [apply Z.pow_pos_nonneg; lia|done]).
  apply (rne_rounds n 13 (2 ^ (e + 111))); rewrite <- ?Z.mul_assoc, <- ?E.
  - lia.
  - apply Z.pow_pos_nonneg; lia.
  - unfold fp16_infinity. lia.
  - intros Hev. apply Z.even_spec. rewrite Z.even_add, Z.even_mul, Z.even_pow by lia.
    apply Z.even_spec in Hev. by rewrite Hev, orb_true_r.
  - rewrite magnitude_normal by lia. by rewrite Z.mul_assoc.
  - rewrite Z.mul_assoc. apply Z.mul_le_mono_nonneg_r; [done|].
    destruct (decide (rne n 13 = 2 ^ 11)) as [->|].
    + replace ((e - 1) * 2 ^ 10 + 2 ^ 11 + 1) with ((e + 1 - 1) * 2 ^ 10 + (2 ^ 10 + 1)) by lia.
      rewrite magnitude_normal by lia. replace (e + 1 - 1) with (Z.succ (e - 1)) by lia.
      rewrite Z.pow_succ_r by lia. pose proof (Z.pow_pos_nonneg 2 (e - 1)). lia.
    + rewrite <- Z.add_assoc, magnitude_normal by lia. lia.
  - destruct (decide (rne n 13 = 2 ^ 10)) as [Er|]; right; [right|left].
    + split; [|lia]. apply Z.mul_lt_mono_pos_r; [done|].
      pose proof (magnitude_step ((e - 1) * 2 ^ 10 + rne n 13 - 1)) as Hs.
      rewrite Z.sub_add in Hs. apply Hs. lia.
    + rewrite <- Z.add_sub_assoc, magnitude_normal by lia. by rewrite Z.mul_assoc.
Qed.

(** Magnitudes below half the least value, and from the infinite encoding on. *)
Lemma tiny_rounds v : 0 <= v < 2 ^ 124 -> rounds_to v 0.
Proof.
  intros Hv. apply nearest_of_neighbours; [done|by left|right; left].
  change (fp16_magnitude 0) with 0. change (fp16_magnitude (0 + 1)) with 1. lia.
Qed.

Lemma huge_rounds v : 2 ^ 165 <= v -> rounds_to v fp16_infinity.
Proof.
  intros Hv. apply nearest_of_neighbours; [done|right; left|by left].
  change (fp16_magnitude (fp16_infinity - 1)) with (2047 * 2 ^ 29).
  change (fp16_magnitude fp16_infinity) with (2 ^ 40). lia.
Qed.

Lemma f32_to_fp16_nearest u :
  uint32_t u -> f32_finite u ->
  exists h, f32_to_fp16 u = Some (f32_sign u * 2 ^ 15 + h) /\ rounds_to (f32_magnitude u) h.
Proof.
  intros Hu Hfin. destruct (f32_fields u Hu) as (Hs & He & Hm & _). unfold f32_finite in Hfin.
  unfold f32_to_fp16, f32_magnitude. rewrite code_sign, code_exp, code_mant by done.
  destruct (Z.eqb_spec (f32_exp u) 0) as [|Hne].
  { exists 0. rewrite sign_only by done. split; [done|]. apply tiny_rounds. lia. }
  rewrite (proj2 (Z.eqb_neq _ 0xFF)), code_implicit_one by lia.
  set (n := 2 ^ 23 + f32_mant u). set (e := f32_exp u - 112).
  replace (f32_exp u - 1) with (e + 111) by lia. destruct (Z.leb_spec e 0).
  - rewrite subnormal_code by lia. eexists. split; [done|].
    destruct (Z.ltb_spec e (-10)); [|apply subnormal_rounds; lia]. apply tiny_rounds.
    split; [apply Z.mul_nonneg_nonneg; lia|]. apply Z.lt_le_trans with (2 ^ 24 * 2 ^ (e + 111)).
    + apply Z.mul_lt_mono_pos_r; [apply Z.pow_pos_nonneg; lia|lia].
    + rewrite <- Z.pow_add_r by lia. apply Z.pow_le_mono_r; lia.
  - rewrite normal_code by lia. eexists. split; [done|].
    destruct (Z.leb_spec 0x1F e); [|apply normal_rounds; lia]. apply huge_rounds.
    transitivity (2 ^ 23 * 2 ^ (e + 111)).
    + rewrite <- Z.pow_add_r by lia. apply Z.pow_le_mono_r; lia.
    + apply Z.mul_le_mono_nonneg_r; [|lia]. apply Z.pow_nonneg. lia.
Qed.

(** C25. The narrowing conversion rounds to the nearest [float16], ties to even: for
    every finite [float] the result is defined (no shift by an illegal amount), keeps
    the sign, and no encoding is nearer to the magnitude; results from the middle of
    the last finite value and the next on are infinite. *)
Theorem f32_to_fp16_nearest_even u :
  uint32_t u -> f32_finite u ->
  exists h, f32_to_fp16 u = Some (f32_sign u * 2 ^ 15 + h) /\ rounds_to (f32_magnitude u) h.
Proof. apply f32_to_fp16_nearest. Qed.

Lemma f32_to_fp16_nearest_even_witness :
  (uint32_t 0xC0200001 /\ f32_finite 0xC0200001) /\
  exists h, f32_to_fp16 0xC0200001 = Some (f32_sign 0xC0200001 * 2 ^ 15 + h) /\
    rounds_to (f32_magnitude 0xC0200001) h.
Proof.
  split; [split; [done|reflexivity]|]. apply (f32_to_fp16_nearest_even 0xC0200001); [done|reflexivity].
Defined.

(** ** Widening *)

Definition fp16_sign (h : Z) : Z := h / 2 ^ 15.
Definition fp16_abs (h : Z) : Z := h mod 2 ^ 15.

(** [u] is the exact [float] of the finite [float16] [h]. *)
Definition widens (h u : Z) : Prop :=
  uint32_t u /\ f32_finite u /\ f32_sign u = fp16_sign h /\
  f32_magnitude u = fp16_magnitude (fp16_abs h) * 2 ^ 125.

#[export] Instance widens_dec h u : Decision (widens h u).
Proof. unfold widens, uint32_t, f32_finite. apply _. Defined.

Lemma normal_widens h :
  uint16_t h -> 2 ^ 10 <= fp16_abs h < fp16_infinity ->
  exists u, fp16_to_f32 h = Some u /\ widens h u.
Proof.
  unfold uint16_t, fp16_abs, fp16_infinity. intros Hh Ha.
  set (s := h / 2 ^ 15). set (e := h / 2 ^ 10 mod 2 ^ 5). set (m := h mod 2 ^ 10).
  assert (0 <= s <= 1 /\ 1 <= e <= 30 /\ 0 <= m < 2 ^ 10 /\ h mod 2 ^ 15 = e * 2 ^ 10 + m)
    as (Hs & He & Hm & Ea) by (unfold s, e, m; dlia).
  exists (f32_bits s (e + 112) (m * 2 ^ 13)).
  destruct (f32_bits_fields s (e + 112) (m * 2 ^ 13)) as (Hu & Es & Ee & Em); [lia..|].
  split.
  - unfold fp16_to_f32, to_u16. rewrite Z.mod_small by lia.
    assert (Z.land h 0x8000 = s * 2 ^ 15) as ->.
    { change 0x8000 with (Z.shiftl (Z.ones 1) 15). rewrite land_field by lia. unfold s. dlia. }
    assert (Z.land (Z.shiftr h 10) 0x1F = e) as ->.
    { change 0x1F with (Z.ones 5). by rewrite land_mask, Z.shiftr_div_pow2 by lia. }
    assert (Z.land h 0x3FF = m) as -> by (apply (land_mask h 10); lia).
    cbv zeta. rewrite (proj2 (Z.eqb_neq e 0)), (proj2 (Z.eqb_neq e 0x1F)) by lia.
    unfold to_u32. rewrite !Z.shiftl_mul_pow2 by lia.
    rewrite !Z.mod_small by lia. rewrite <- Z.mul_assoc, <- Z.pow_add_r by lia.
    rewrite lor_add by lia. f_equal.
    replace (s * 2 ^ (15 + 16) + (e + (127 - 15)) * 2 ^ 23) with ((s * 2 ^ 8 + e + 112) * 2 ^ 23) by lia.
    rewrite lor_add by lia. unfold f32_bits. lia.
  - unfold widens, f32_finite, f32_magnitude, fp16_sign, fp16_abs. rewrite Ee, Em, Es, Ea.
    split; [done|]. split; [lia|]. split; [done|]. rewrite (proj2 (Z.eqb_neq _ 0)) by lia.
    replace (e * 2 ^ 10 + m) with ((e - 1) * 2 ^ 10 + (2 ^ 10 + m)) by lia.
    rewrite magnitude_normal by lia. replace (e + 112 - 1) with (e + 111) by lia.
    rewrite <- Z.mul_assoc, (pow_split (e - 1) 125 13 (e + 111)) by lia. lia.
Qed.

(** The subnormal encodings, zero and the infinite and NaN ones, one by one. *)
Definition is_some_and {A} (P : A -> Prop) `{forall x, Decision (P x)} (o : option A) : bool :=
  match o with Some x => bool_decide (P x) | None => false end.

Lemma subnormals_widen :
  forallb (fun h => is_some_and (widens h) (fp16_to_f32 h)) (seqZ 0 1024 ++ seqZ 0x8000 1024) = true.
Proof. vm_compute. reflexivity. Qed.

Definition fp16_nan (h : Z) : bool := 0x7C00 <? fp16_abs h.

(** What comes back: a NaN comes back quiet. *)
Definition quieted (h : Z) : Z := if fp16_nan h then Z.lor h 0x200 else h.

Lemma specials_come_back :
  forallb (fun h => bool_decide ((u ← fp16_to_f32 h; f32_to_fp16 u) = Some (quieted h)))
    (seqZ 0x7C00 1024 ++ seqZ 0xFC00 1024) = true.
Proof. vm_compute. reflexivity. Qed.

Lemma forallb_seqZ (P : Z -> bool) lo len x :
  forallb P (seqZ lo len) = true -> lo <= x < lo + len -> P x = true.
Proof.
  rewrite forallb_forall. intros H Hx. apply H. apply list_elem_of_In, elem_of_seqZ. lia.
Qed.

Lemma fp16_split h :
  uint16_t h ->
  h < 2 ^ 15 /\ fp16_sign h = 0 /\ fp16_abs h = h \/
  2 ^ 15 <= h /\ fp16_sign h = 1 /\ fp16_abs h = h - 2 ^ 15.
Proof. unfold uint16_t, fp16_sign, fp16_abs. intros. dlia. Qed.

(** A check of all encodings of a range of magnitudes, of both signs. *)
Lemma both_signs (P : Z -> bool) lo len h :
  forallb P (seqZ lo len ++ seqZ (0x8000 + lo) len) = true ->
  uint16_t h -> lo <= fp16_abs h < lo + len -> P h = true.
Proof.
  rewrite forallb_app, andb_true_iff. intros [Hpos Hneg] Hh Ha.
  destruct (fp16_split h Hh) as [(_ & _ & E)|(_ & _ & E)]; rewrite E in Ha.
  - apply (forallb_seqZ _ _ _ _ Hpos). lia.
  - apply (forallb_seqZ _ _ _ _ Hneg). lia.
Qed.

Lemma fp16_abs_bounds h : uint16_t h -> 0 <= fp16_abs h < 0x8000.
Proof. intros Hh. destruct (fp16_split h Hh) as [(? & _ & ->)|(? & _ & ->)]; unfold uint16_t in Hh; lia. Qed.

Lemma is_some_and_true {A} (P : A -> Prop) `{forall x, Decision (P x)} o :
  is_some_and P o = true -> exists x, o = Some x /\ P x.
Proof. destruct o as [x|]; [|done]. intros Hx%bool_decide_eq_true. by exists x. Qed.

(** Widening a finite [float16] is exact, for zeros, subnormal and normal inputs. *)
Lemma finite_widens h :
  uint16_t h -> fp16_abs h < fp16_infinity -> exists u, fp16_to_f32 h = Some u /\ widens h u.
Proof.
  intros Hh Ha. destruct (decide (2 ^ 10 <= fp16_abs h)); [by apply normal_widens|].
  apply (is_some_and_true (widens h)). pose proof (fp16_abs_bounds h Hh).
  apply (both_signs _ 0 1024 h subnormals_widen); [done|lia].
Qed.

Lemma magnitude_injective h h' :
  0 <= h -> 0 <= h' -> fp16_magnitude h = fp16_magnitude h' -> h = h'.
Proof.
  intros Hh Hh' E. destruct (Z.lt_trichotomy h h') as [Hlt|[|Hlt]]; [exfalso|done|exfalso].
  - pose proof (magnitude_step h). pose proof (magnitude_mono (h + 1) h'). lia.
  - pose proof (magnitude_step h'). pose proof (magnitude_mono (h' + 1) h). lia.
Qed.

(** The exact image of an encoding rounds to it. *)
Lemma rounds_exact a h :
  0 <= a <= fp16_infinity -> rounds_to (fp16_magnitude a * 2 ^ 125) h -> h = a.
Proof.
  intros Ha [Hh Hn]. destruct (decide (h = a)) as [|Hne]; [done|].
  specialize (Hn a Ha (not_eq_sym Hne)). cbv beta zeta in Hn. rewrite Z.sub_diag in Hn.
  apply magnitude_injective; lia.
Qed.

(** C38. Narrowing a widened [float16] gives it back, for all 65536 patterns: finite
    values and infinities exactly, a NaN with its quiet bit set. *)
Theorem fp16_roundtrip h :
  uint16_t h -> (u ← fp16_to_f32 h; f32_to_fp16 u) = Some (quieted h).
Proof.
  intros Hh. destruct (decide (fp16_abs h < fp16_infinity)) as [Ha|Ha].
  - destruct (finite_widens h Hh Ha) as (u & -> & Hu & Hf & Es & Em). cbn [mbind option_bind].
    destruct (f32_to_fp16_nearest u Hu Hf) as (a & -> & Hr). rewrite Em in Hr.
    pose proof (fp16_abs_bounds h Hh). apply rounds_exact in Hr as ->; [|lia].
    unfold quieted, fp16_nan. rewrite (proj2 (Z.ltb_ge _ _)) by (unfold fp16_infinity in Ha; lia).
    f_equal. rewrite Es. destruct (fp16_split h Hh) as [(_ & -> & ->)|(_ & -> & ->)]; lia.
  - apply (bool_decide_eq_true_1 _). pose proof (fp16_abs_bounds h Hh).
    apply (both_signs _ 0x7C00 1024 h specials_come_back); [done|].
    unfold fp16_infinity in Ha. lia.
Qed.

Lemma fp16_roundtrip_witness :
  uint16_t 0xFC01 /\ (u ← fp16_to_f32 0xFC01; f32_to_fp16 u) = Some (quieted 0xFC01) /\
  quieted 0xFC01 = 0xFE01.
Proof. split; [done|]. split; [|done]. apply (fp16_roundtrip 0xFC01). done. Defined.

(** ** Types *)

Lemma quiet_mantissas :
  forallb (fun x => let y := Z.land (to_u16 (Z.lor x 0x0200)) 0x03FF in
                    (0x200 <=? y) && (y <? 0x400)) (seqZ 0 1024) = true.
Proof. vm_compute. reflexivity. Qed.

Lemma quiet_mantissa x :
  0 <= x < 2 ^ 10 -> 0x200 <= Z.land (to_u16 (Z.lor x 0x0200)) 0x03FF < 0x400.
Proof.
  intros Hx. pose proof (forallb_seqZ _ _ _ x quiet_mantissas ltac:(lia)) as H. cbv beta zeta in H. lia.
Qed.

Definition widens_special (h u : Z) : Prop :=
  uint32_t u /\ f32_sign u = fp16_sign h /\ f32_exp u = 0xFF /\ (f32_mant u =? 0) = negb (fp16_nan h).

#[export] Instance widens_special_dec h u : Decision (widens_special h u).
Proof. unfold widens_special, uint32_t. apply _. Defined.

Lemma specials_widen :
  forallb (fun h => is_some_and (widens_special h) (fp16_to_f32 h))
    (seqZ 0x7C00 1024 ++ seqZ 0xFC00 1024) = true.
Proof. vm_compute. reflexivity. Qed.

Lemma special_widens h :
  uint16_t h -> fp16_infinity <= fp16_abs h ->
  exists u, fp16_to_f32 h = Some u /\ widens_special h u.
Proof.
  intros Hh Ha. apply (is_some_and_true (widens_special h)). pose proof (fp16_abs_bounds h Hh).
  apply (both_signs _ 0x7C00 1024 h specials_widen); [done|]. unfold fp16_infinity in Ha. lia.
Qed.

(** A result with its sign apart. *)
Lemma narrow_result s h :
  0 <= s <= 1 -> 0 <= h < 2 ^ 15 ->
  uint16_t (s * 2 ^ 15 + h) /\ fp16_sign (s * 2 ^ 15 + h) = s /\ fp16_abs (s * 2 ^ 15 + h) = h.
Proof. unfold uint16_t, fp16_sign, fp16_abs. intros. dlia. Qed.

Lemma narrow_special u :
  uint32_t u -> f32_exp u = 0xFF ->
  exists h, 0x7C00 <= h < 2 ^ 15 /\ f32_to_fp16 u = Some (f32_sign u * 2 ^ 15 + h) /\
    (h = 0x7C00 <-> f32_mant u = 0).
Proof.
  intros Hu He. destruct (f32_fields u Hu) as (Hs & _ & Hm & _).
  unfold f32_to_fp16. rewrite code_sign, code_exp, code_mant, He by done. cbn [Z.eqb Pos.eqb].
  destruct (Z.eqb_spec (f32_mant u) 0) as [E|E].
  { exists 0x7C00. by rewrite with_sign. }
  pose proof (quiet_mantissa (f32_mant u / 2 ^ 13) ltac:(dlia)) as Hq.
  rewrite Z.shiftr_div_pow2 by lia. set (y := Z.land _ 0x03FF) in *. clearbody y.
  exists (0x7C00 + y). split; [lia|]. split; [|lia]. f_equal.
  rewrite <- Z.lor_assoc. change 0x7C00 with (31 * 2 ^ 10). rewrite (lor_add 31) by lia.
  rewrite with_sign by lia. done.
Qed.

(** C39. The conversions keep to their types: for every bit pattern they are defined,
    with a result in the range of its type, the sign of the argument, and NaN exactly
    for NaN. *)
Theorem fp16_conversions_typed :
  (forall u, uint32_t u -> exists h,
     f32_to_fp16 u = Some h /\ uint16_t h /\ fp16_sign h = f32_sign u /\
     (fp16_nan h = true <-> f32_nan u)) /\
  (forall h, uint16_t h -> exists u,
     fp16_to_f32 h = Some u /\ uint32_t u /\ f32_sign u = fp16_sign h /\
     (f32_nan u <-> fp16_nan h = true)).
Proof.
  assert (forall u, uint32_t u -> exists h,
     f32_to_fp16 u = Some h /\ uint16_t h /\ fp16_sign h = f32_sign u /\
     (fp16_nan h = true <-> f32_nan u)) as Hn.
  { intros u Hu. destruct (f32_fields u Hu) as (Hs & He & _). unfold fp16_nan, f32_nan.
    destruct (decide (f32_exp u = 0xFF)) as [E|E].
    - destruct (narrow_special u Hu E) as (h & Hh & -> & Hz). eexists. split; [done|].
      destruct (narrow_result (f32_sign u) h) as (Hr & -> & ->); [lia..|].
      do 2 (split; [done|]). rewrite Z.ltb_lt. lia.
    - destruct (f32_to_fp16_nearest u Hu) as (h & -> & [Hh _]); [unfold f32_finite; lia|].
      unfold fp16_infinity in Hh. eexists. split; [done|].
      destruct (narrow_result (f32_sign u) h) as (Hr & -> & ->); [lia..|].
      do 2 (split; [done|]). rewrite Z.ltb_lt. lia. }
  split; [exact Hn|]. intros h Hh. unfold f32_nan.
  destruct (decide (fp16_abs h < fp16_infinity)) as [Ha|Ha].
  - destruct (finite_widens h Hh Ha) as (u & -> & Hu & Hf & Es & _). exists u.
    unfold fp16_nan, f32_finite, fp16_infinity in *. do 3 (split; [done|]). rewrite Z.ltb_lt. lia.
  - destruct (special_widens h Hh ltac:(lia)) as (u & -> & Hu & Es & Ee & Em). exists u.
    do 3 (split; [done|]). rewrite Ee. destruct (fp16_nan h); cbn in Em; split; (done || lia).
Qed.

Lemma fp16_conversions_typed_witness :
  (exists h, f32_to_fp16 0xFF800001 = Some h /\ uint16_t h /\ fp16_sign h = f32_sign 0xFF800001 /\
     (fp16_nan h = true <-> f32_nan 0xFF800001)) /\
  (exists u, fp16_to_f32 0x7FFF = Some u /\ uint32_t u /\ f32_sign u = fp16_sign 0x7FFF /\
     (f32_nan u <-> fp16_nan 0x7FFF = true)).
Proof.
  split; [apply (proj1 fp16_conversions_typed)|apply (proj2 fp16_conversions_typed)]; done.
Defined.
