(* ===== verification/KernelSelect.v ===== *)
(** * Kernel selection as the C frame sees it
    (frame/bindings/c_wrappers/capi_kernel_frame_wrappers.cc)

    The entry points ask the decision engine for a tile and the registry or the
    JIT generator for a kernel, and adapt the context of the call to the answer.
    The engine and the generators are an interface with laws; what the wrappers do
    to the context is modelled. *)
From S2P Require Import Prelude DlpTypes PostOpTypes Config.

(** ** Types *)

Inductive kernel_datatype_t :=
  | DLP_KERNEL_INVALID
  | DLP_KERNEL_U8S8S32OS32 | DLP_KERNEL_U8S8S32OF32 | DLP_KERNEL_U8S8S32OF16
  | DLP_KERNEL_U8S8S32OBF16 | DLP_KERNEL_U8S8S32OU8 | DLP_KERNEL_U8S8S32OS8
  | DLP_KERNEL_S8S8S32OU8 | DLP_KERNEL_S8S8S32OS8 | DLP_KERNEL_S8S8S32OBF16
  | DLP_KERNEL_S8S8S32OF32 | DLP_KERNEL_S8S8S32OF16 | DLP_KERNEL_S8S8S32OS32
  | DLP_KERNEL_BF16BF16F32OBF16 | DLP_KERNEL_BF16BF16F32OF32 | DLP_KERNEL_F32F32F32OF32
  | DLP_KERNEL_F16F16F16OF16 | DLP_KERNEL_F16F16F16OF32 | DLP_KERNEL_F32F16F32OF32
  | DLP_KERNEL_S8S8S32OF32_SYM_QUANT | DLP_KERNEL_S8S8S32OBF16_SYM_QUANT
  | DLP_KERNEL_S8S4S32OF32_SYM_QUANT | DLP_KERNEL_S8S4S32OBF16_SYM_QUANT
  | DLP_KERNEL_DATATYPE_MAX.

#[export] Instance kernel_datatype_eq_dec : EqDecision kernel_datatype_t.
Proof. solve_decision. Defined.

(** [lcntx.thread_info]. *)
Record dlp_gemm_thread_info_t := mk_thread_info {
  ti_num_threads : Z;
  ti_ic_ways : Z;
  ti_jc_ways : Z;
}.

(** The arguments of [dlp_get_gemm_kernelInfo_by_dtype]. *)
Record kernel_request := mk_kernel_request {
  rq_dtype : kernel_datatype_t;
  rq_m : Z; rq_n : Z; rq_k : Z;
  rq_rs_a : Z; rq_cs_a : Z; rq_rs_b : Z; rq_cs_b : Z; rq_rs_c : Z; rq_cs_c : Z;
  rq_alpha : Z; rq_beta : Z;
  rq_mtag_a : AOCL_DLP_MEMORY_TAG; rq_mtag_b : AOCL_DLP_MEMORY_TAG;
  rq_post_ops : list dlp_gemm_post_op;
  rq_MR : Z; rq_NR : Z; rq_KC : Z;
  rq_c_downscale : DLP_TYPE;
  rq_thread_info : dlp_gemm_thread_info_t;
  rq_hints : dlp_gemm_kernel_hints_t;
  rq_blksz_set_mask : Z;
}.

(** The tile of a [kernelInfo]. *)
Record kernel_tile := mk_tile { mr : Z; nr : Z; kc : Z }.

(** The arguments of [dlp_get_packb_kernelInfo_by_dtype]. *)
Record packb_request := mk_packb_request {
  pq_dtype : kernel_datatype_t;
  pq_nc : Z; pq_cs_src : Z; pq_n : Z; pq_k : Z;
  pq_MR : Z; pq_NR : Z;
  pq_blksz_set_mask : Z;
  pq_hints : dlp_gemm_kernel_hints_t;
}.

(** The decision engine, the kernel registry and the generators: the tile chosen for
    a call with the thread info the engine leaves, whether a kernel for it exists or
    can be generated, and the same for the packing kernel of B. *)
Class KernelFrame := {
  gemm_kernelInfo_by_dtype : kernel_request -> kernel_tile * dlp_gemm_thread_info_t;
  gemm_kernel_available : kernel_request -> kernel_tile -> bool;
  packb_panel_dim : packb_request -> Z;
  packb_kernel_available : packb_request -> Z -> bool;
}.

(** The types [getKernelDatatype] keeps. *)
Definition getKernelDatatype (k_dtype : kernel_datatype_t) : option kernel_datatype_t :=
  match k_dtype with
  | DLP_KERNEL_INVALID | DLP_KERNEL_DATATYPE_MAX => None
  | d => Some d
  end.

(** Elements per step of the dot product and [packb_cs] of a type. *)
Definition pack_steps (kDType : kernel_datatype_t) : option (Z * Z) :=
  let cache_line_size := 64 in
  match kDType with
  | DLP_KERNEL_U8S8S32OS32 | DLP_KERNEL_U8S8S32OF32 | DLP_KERNEL_U8S8S32OF16
  | DLP_KERNEL_U8S8S32OBF16 | DLP_KERNEL_U8S8S32OU8 | DLP_KERNEL_U8S8S32OS8
  | DLP_KERNEL_S8S8S32OU8 | DLP_KERNEL_S8S8S32OS8 | DLP_KERNEL_S8S8S32OBF16
  | DLP_KERNEL_S8S8S32OF32 | DLP_KERNEL_S8S8S32OF16 | DLP_KERNEL_S8S8S32OS32 =>
      Some (4, cache_line_size `quot` 1)
  | DLP_KERNEL_BF16BF16F32OBF16 | DLP_KERNEL_BF16BF16F32OF32 => Some (2, cache_line_size `quot` 2)
  | DLP_KERNEL_F32F32F32OF32 | DLP_KERNEL_F16F16F16OF16 | DLP_KERNEL_F16F16F16OF32
  | DLP_KERNEL_F32F16F32OF32 => Some (1, 1)
  | _ => None
  end.

(** The 8-bit integer types, whose panels interleave four rows. *)
Definition int8_datatype (kDType : kernel_datatype_t) : Prop := pack_steps kDType = Some (4, 64).

(** What the frame needs of the answers: the k block of an available kernel is
    positive, its 8-bit tile on a proper matrix is whole panels of 16 columns and
    groups of 4 rows, and the packing kernel keeps a width that is already settled. *)
Class KernelFrameLaws `{KernelFrame} := {
  tile_legal : forall rq, let tile := (gemm_kernelInfo_by_dtype rq).1 in
    gemm_kernel_available rq tile = true -> 0 < mr tile -> 0 < nr tile ->
    0 < kc tile /\
    (int8_datatype (rq_dtype rq) -> 1 < rq_m rq -> 1 < rq_n rq -> (16 | nr tile) /\ (4 | kc tile));
  panel_settled : forall pq, Z.testbit (pq_blksz_set_mask pq) 1 = true ->
    0 < packb_panel_dim pq -> packb_panel_dim pq = pq_NR pq;
}.

(** ** The wrappers *)

Section wrappers.
Context `{KernelFrame}.

(** [dlp_init_and_get_kernel_hndl]: is [kernel_base] set, the context, and its
    thread info. Its argument [storage_format], the storage order, is
    [[maybe_unused]]: the body neither reads it nor hands it to the engine, and it
    is no argument here. *)
Definition dlp_init_and_get_kernel_hndl (k_dtype : kernel_datatype_t)
    (mtag_a mtag_b : AOCL_DLP_MEMORY_TAG) (m n k rs_a cs_a rs_b cs_b rs_c cs_c alpha beta : Z)
    (post_ops : list dlp_gemm_post_op) (cntx : dlp_gemm_cntx_t) (ti : dlp_gemm_thread_info_t)
    (c_downscale : DLP_TYPE) : bool * dlp_gemm_cntx_t * dlp_gemm_thread_info_t :=
  match getKernelDatatype k_dtype with
  | None => (false, cntx, ti)
  | Some kDType =>
      let b := blksz cntx in
      let rq := mk_kernel_request kDType m n k rs_a cs_a rs_b cs_b rs_c cs_c alpha beta
                  mtag_a mtag_b post_ops (MR b) (NR b) (KC b) c_downscale ti
                  (gemm_kernel_hints cntx) (blksz_set_mask cntx) in
      let '(fastKI, ti) := gemm_kernelInfo_by_dtype rq in
      if (mr fastKI <=? 0) || (nr fastKI <=? 0) then (false, cntx, ti)
      else
        let kernel_base := gemm_kernel_available rq fastKI in
        let mask := Z.lor (blksz_set_mask cntx) (Z.lor DLP_BLKSZ_SET_MR DLP_BLKSZ_SET_NR) in
        let b := mk_blksz (((MC b + mr fastKI - 1) `quot` mr fastKI) * mr fastKI)
                   (((NC b + nr fastKI - 1) `quot` nr fastKI) * nr fastKI)
                   (kc fastKI) (nr fastKI) (mr fastKI) in
        (kernel_base, set_blksz b mask cntx, ti)
  end.

(** [dlp_init_and_get_packb_kernel_hndl]: is [kernel_base] set, and the context. *)
Definition dlp_init_and_get_packb_kernel_hndl (k_dtype : kernel_datatype_t) (n k cs_src : Z)
    (cntx : dlp_gemm_cntx_t) : bool * dlp_gemm_cntx_t :=
  match getKernelDatatype k_dtype with
  | None => (false, cntx)
  | Some kDType =>
      let b := blksz cntx in
      let nc := n in
      let pq := mk_packb_request kDType nc cs_src n k (MR b) (NR b) (blksz_set_mask cntx)
                  (gemm_kernel_hints cntx) in
      let panel_dim := packb_panel_dim pq in
      if panel_dim <=? 0 then (false, cntx)
      else
        let kernel_base := packb_kernel_available pq panel_dim in
        let b := mk_blksz (MC b) (((NC b + panel_dim - 1) `quot` panel_dim) * panel_dim)
                   (KC b) panel_dim (MR b) in
        (kernel_base, set_blksz b (Z.lor (blksz_set_mask cntx) DLP_BLKSZ_SET_NR) cntx)
  end.
End wrappers.

Definition dlp_upd_pack_strides (k_dtype : kernel_datatype_t) (cntx : dlp_gemm_cntx_t)
    : dlp_gemm_cntx_t :=
  match getKernelDatatype k_dtype ≫= pack_steps with
  | None => cntx
  | Some (elems_per_step, packb_cs) =>
      let b := blksz cntx in
      mk_cntx b (blksz_set_mask cntx)
        (mk_pack_s elems_per_step (elems_per_step * MR b) (elems_per_step * NR b) packb_cs)
        (sup_thres cntx) (gemm_kernel_hints cntx)
  end.

(** ** What the wrappers leave

    The blocks of a context whose kernels were found: positive, and on a proper
    matrix of 8-bit integers whole micro-tiles. *)
Lemma rounded_up x q : 1 <= x -> 1 <= q -> 1 <= ((x + q - 1) `quot` q) * q /\ (q | ((x + q - 1) `quot` q) * q).
Proof.
  intros Hx Hq. split; [|by exists ((x + q - 1) `quot` q)].
  rewrite cquot_nonneg by lia. assert (1 <= (x + q - 1) / q) by (apply Z.div_le_lower_bound; lia). nia.
Qed.

Section laws.
Context `{KernelFrameLaws}.
Context (dtype : kernel_datatype_t) (ta tb : AOCL_DLP_MEMORY_TAG).
Context (m n k rs_a cs_a rs_b cs_b rs_c cs_c alpha beta : Z) (ops : list dlp_gemm_post_op).
Context (down : DLP_TYPE) (c c1 c2 : dlp_gemm_cntx_t) (ti ti1 : dlp_gemm_thread_info_t).
Hypothesis Hpos : blksz_pos (blksz c).
Hypothesis Hkernel : dlp_init_and_get_kernel_hndl dtype ta tb m n k rs_a cs_a rs_b cs_b rs_c cs_c
  alpha beta ops c ti down = (true, c1, ti1).

Lemma kernel_blocks :
  blksz_pos (blksz c1) /\ Z.testbit (blksz_set_mask c1) 1 = true /\
  (NR (blksz c1) | NC (blksz c1)) /\
  (int8_datatype dtype -> 1 < m -> 1 < n -> (16 | NR (blksz c1)) /\ (4 | KC (blksz c1))).
Proof using Hpos Hkernel H0.
  unfold dlp_init_and_get_kernel_hndl in Hkernel.
  destruct (getKernelDatatype dtype) as [d|] eqn:Ed; [|done].
  assert (d = dtype) as -> by (by destruct dtype; simplify_eq/=).
  set (rq := mk_kernel_request _ _ _ _ _ _ _ _ _ _ _ _ _ _ _ _ _ _ _ _ _ _) in Hkernel.
  pose proof (tile_legal rq) as Hlegal. cbn zeta in Hlegal.
  destruct (gemm_kernelInfo_by_dtype rq) as [tile ti'].
  destruct ((mr tile <=? 0) || (nr tile <=? 0)) eqn:E; [done|]. cbn [fst] in Hlegal.
  apply orb_false_iff in E as [Hmr%Z.leb_gt Hnr%Z.leb_gt].
  injection Hkernel as Hav <- <-. destruct (Hlegal Hav Hmr Hnr) as [Hkc Hint].
  destruct (rounded_up (MC (blksz c)) (mr tile) (MC_pos _ Hpos) ltac:(lia)) as [HMC _].
  destruct (rounded_up (NC (blksz c)) (nr tile) (NC_pos _ Hpos) ltac:(lia)) as [HNC Hdiv].
  unfold set_blksz. cbn [blksz blksz_set_mask MC NC KC NR MR].
  split; [split; cbn; lia|]. split; [|done]. rewrite Z.lor_spec. apply orb_true_r.
Qed.

Hypothesis Hpack : exists base, dlp_init_and_get_packb_kernel_hndl dtype n k cs_b c1 = (base, c2).

Lemma selected_blocks :
  let b := blksz (dlp_upd_pack_strides dtype c2) in
  b = blksz c1 /\ blksz_pos b /\ (NR b | NC b) /\
  (int8_datatype dtype -> 1 < m -> 1 < n -> (16 | NR b) /\ (4 | KC b)).
Proof using Hpos Hkernel Hpack H0.
  destruct kernel_blocks as (Hp & Hbit & Hdiv & Hint). cbn zeta.
  assert (blksz (dlp_upd_pack_strides dtype c2) = blksz c2) as ->
    by (unfold dlp_upd_pack_strides; by destruct (_ ≫= _) as [[]|]).
  enough (blksz c2 = blksz c1) as -> by done.
  destruct Hpack as [base Hpk]. unfold dlp_init_and_get_packb_kernel_hndl in Hpk.
  destruct (getKernelDatatype dtype) as [d|]; [|by simplify_eq].
  set (pq := mk_packb_request _ _ _ _ _ _ _ _ _) in Hpk.
  destruct (Z.leb_spec (packb_panel_dim pq) 0); [by simplify_eq|].
  injection Hpk as _ <-. rewrite (panel_settled pq Hbit) by done. cbn.
  destruct (blksz c1) as [MC NC KC NR MR] eqn:Eb. cbn in *. f_equal.
  pose proof (NR_pos _ Hp). cbn in *. destruct Hdiv as [q ->].
  assert (0 <= q) by (pose proof (NC_pos _ Hp); cbn in *; nia).
  rewrite cquot_nonneg by nia. replace (q * NR + NR - 1) with (NR - 1 + q * NR) by lia.
  rewrite Z.div_add, Z.div_small by lia. lia.
Qed.
End laws.
