(* ===== verification/Api.v ===== *)
(** * The 8-bit integer GEMM entry points
    (classic/aocl_gemm_s8s8s32os32.c and aocl_gemm_u8s8s32os32.c with their siblings
    for the other output types, gemm_utils/dlp_gemm_utils.h)

    A call checks its arguments, turns column-major products into row-major ones,
    translates the post-ops, resolves threads, merges the metadata into a copy of
    the context, asks for kernels and launches the driver through a decorator.  An
    [Error] is the code stored in the metadata by a call that computes nothing. *)
From S2P Require Import Prelude Word DlpTypes PostOpTypes PostOps Config Runtime GetThreading.
From S2P Require Import ThreadUtils ThreadDecor ReorderLayout Reorder GemmCheck KernelSelect.
From Stdlib Require Import Ascii.
From stdpp Require Import strings.
#[local] Open Scope Z_scope.

(** ** Arguments *)

(** The parameters of a GEMM entry point; a matrix pointer is a flag: is it [NULL]? *)
Record gemm_args := mk_gemm_args {
  order : ascii; transa : ascii; transb : ascii;
  arg_m : Z; arg_n : Z; arg_k : Z; arg_alpha : Z;
  a_null : bool; lda : Z; mem_format_a : ascii;
  b_null : bool; ldb : Z; mem_format_b : ascii;
  arg_beta : Z; c_null : bool; ldc : Z;
}.

(** The metadata: post-ops, and the parameters of the context. *)
Record api_metadata := mk_api_metadata { am_ops : dlp_metadata_t; am_blocking : blocking_metadata }.

(** What is fixed for the process: the answers of [cpuid], whether the library is
    built with OpenMP, the contexts of [dlp_init_global_cntx], and the environment of
    the decorators.  A signed product of [md_t] that overflows has no value in C:
    [md_overflow] stands for whatever the machine gives, and is not constrained. *)
Record api_env := mk_api_env {
  avx512vnni : bool;
  avx512bf16 : bool;
  openmp : bool;
  api_decor : decor_env;
  api_rt : rt_env;
  md_overflow : Z -> Z -> Z;
}.

(** The product of two [md_t]. *)
Definition md_mul (env : api_env) (a b : Z) : Z :=
  if (- 2 ^ 63 <=? a * b) && (a * b <? 2 ^ 63) then a * b else md_overflow env a b.

(** The [_use] variables: what the driver is given. [swapped] means that its A is the
    caller's B. *)
Record driver_args := mk_driver_args {
  swapped : bool;
  m_use : Z; n_use : Z; k_use : Z;
  rs_a_use : Z; cs_a_use : Z; rs_b_use : Z; cs_b_use : Z; rs_c_use : Z; cs_c_use : Z;
  mtag_a_use : AOCL_DLP_MEMORY_TAG; mtag_b_use : AOCL_DLP_MEMORY_TAG;
}.

(** A launched GEMM: the arguments of the driver, its context, and the calls. *)
Record api_launch := mk_api_launch {
  al_args : driver_args;
  al_cntx : dlp_gemm_cntx_t;
  al_launch : launch;
}.

(** ** Shared steps *)

Definition dlp_is_single_thread (rntm_g : dlp_rntm_t) : bool :=
  let n_threads := num_threads rntm_g in
  let jc_ways := jc_ways rntm_g in
  let ic_ways := ic_ways rntm_g in
  if n_threads =? 1 then true
  else (0 <? ic_ways) && (0 <? jc_ways) && (ic_ways * jc_ways =? 1).

(** [if (err != DLP_CLSC_SUCCESS) ...; goto err_hndl]. *)
Definition check (err : dlp_clsc_err_t) : outcome unit :=
  fail_if (negb (bool_decide (err = DLP_CLSC_SUCCESS))) err.

Definition or_undefined {A} (o : option A) : outcome A :=
  match o with Some a => Value a | None => Undefined end.

(** Row and column strides of a matrix stored by rows of [ld] elements. *)
Definition strides_of (trans : dlp_trans_t) (ld : Z) : Z * Z :=
  if dlp_is_trans trans then (1, ld) else (ld, 1).

Definition check_args (x : gemm_args) : outcome unit :=
  check (AOCL_DLP_GEMM_CHECK (order x) (transa x) (transb x) (arg_m x) (arg_n x) (arg_k x)
    (a_null x) (lda x) (mem_format_a x) (b_null x) (ldb x) (mem_format_b x) (c_null x) (ldc x)).2.

(** The post-op list of the call for the storage order [order_use], in the caller's
    uninitialised array [garbage]. *)
Definition translate_post_ops_in (order_use : ascii) (x : gemm_args) (metadata : option api_metadata)
    (garbage : list dlp_gemm_post_op) : outcome (list dlp_gemm_post_op) :=
  '(err, post_op_list) ← or_undefined (dlp_gemm_translate_to_post_ops_list (am_ops <$> metadata)
    (Some garbage) (POrder order_use) (arg_m x) (arg_n x));
  check err ;; mret post_op_list.

Definition translate_post_ops (x : gemm_args) := translate_post_ops_in (order x) x.

(** From the context of a call to its launch, once the runtime is known. *)
Section launch_gemm.
Context `{KernelFrame}.
Context (env : api_env) (sfx : gemm_sfx) (op : AOCL_DLP_OPERATION_TYPE).
Context (k_dtype : kernel_datatype_t) (c_downscale : DLP_TYPE).
Context (x : gemm_args) (metadata : option api_metadata).

(** The kernels of a call, for the tags [jit_mtag_a] and [jit_mtag_b]: the context and
    the thread info they leave, once validated.  [needs_packb]: a packing kernel is
    required for panels wider than one column. *)
Definition settle_kernels (needs_packb : bool) (jit_mtag_a jit_mtag_b : AOCL_DLP_MEMORY_TAG)
    (d : driver_args) (post_op_list : list dlp_gemm_post_op) (lcntx : dlp_gemm_cntx_t)
    (ti : dlp_gemm_thread_info_t) : outcome (dlp_gemm_cntx_t * dlp_gemm_thread_info_t) :=
  let '(kernel_base, lcntx, ti) :=
    dlp_init_and_get_kernel_hndl k_dtype jit_mtag_a jit_mtag_b (m_use d) (n_use d) (k_use d)
      (rs_a_use d) (cs_a_use d) (rs_b_use d) (cs_b_use d) (rs_c_use d) (cs_c_use d)
      (arg_alpha x) (arg_beta x) post_op_list lcntx ti c_downscale in
  fail_if (negb kernel_base) DLP_CLSC_INVALID_JIT_KERNEL ;;
  let '(pack_base, lcntx) :=
    dlp_init_and_get_packb_kernel_hndl k_dtype (n_use d) (k_use d) (cs_b_use d) lcntx in
  fail_if (needs_packb && (1 <? NR (blksz lcntx)) && negb pack_base) DLP_CLSC_INVALID_JIT_KERNEL ;;
  let lcntx := dlp_upd_pack_strides k_dtype lcntx in
  err ← or_undefined (dlp_gemm_validate_metadata_with_lcntx (am_blocking <$> metadata) (Some lcntx));
  check err ;; mret (lcntx, ti).

(** The decorator of the build and of the runtime. *)
Definition decorate (d : driver_args) (post_op_list : list dlp_gemm_post_op) (rntm_g : dlp_rntm_t)
    (lcntx : dlp_gemm_cntx_t) : outcome api_launch :=
  let ops := Some (mk_ops (Some post_op_list)) in
  let decorator :=
    if openmp env && negb (dlp_is_single_thread rntm_g)
    then dlp_gemm_openmp_thread_decorator (api_decor env) sfx
    else dlp_gemm_thread_decorator (api_decor env) sfx in
  l ← or_undefined (decorator (m_use d) (n_use d) (k_use d) (mtag_a_use d) (mtag_b_use d) rntm_g lcntx ops);
  mret (mk_api_launch d lcntx l).

(** The context of the operation, with the caller's metadata. *)
Definition call_cntx : outcome dlp_gemm_cntx_t :=
  lcntx ← or_undefined (dlp_gemm_get_global_cntx_obj (env_config (api_decor env)) (op_index op));
  let '(err, upd) := dlp_gemm_upd_cntx_with_metadata (Some lcntx) (am_blocking <$> metadata) in
  check err ;; or_undefined upd.

Definition with_ways (rntm_g : dlp_rntm_t) (ti : dlp_gemm_thread_info_t) : dlp_rntm_t :=
  mk_rntm (num_threads rntm_g) (ti_ic_ways ti) (ti_jc_ways ti) (pack_a rntm_g) (pack_b rntm_g)
    (ext_mt_ctr_var rntm_g).

Definition launch_gemm (d : driver_args) (post_op_list : list dlp_gemm_post_op) (rntm_g : dlp_rntm_t)
    : outcome api_launch :=
  lcntx ← call_cntx;
  let ti := mk_thread_info (num_threads rntm_g) (ic_ways rntm_g) (jc_ways rntm_g) in
  check (dlp_gemm_validate_hints_with_call (Some lcntx) (mtag_b_use d)
    (num_threads rntm_g) (ic_ways rntm_g) (jc_ways rntm_g)) ;;
  '(lcntx, ti) ← settle_kernels (avx512vnni env) (mtag_a_use d) (mtag_b_use d) d post_op_list lcntx ti;
  decorate d post_op_list (with_ways rntm_g ti) lcntx.
End launch_gemm.

(** ** s8 x s8 *)

(** The packing tags of A and B as the driver will see them before the swap. *)
Definition s8s8s32_tags (is_row_major is_column_major trans_a trans_b : bool)
    (mtag_a mtag_b : AOCL_DLP_MEMORY_TAG)
    : outcome (AOCL_DLP_MEMORY_TAG * AOCL_DLP_MEMORY_TAG) :=
  fail_if (is_row_major && bool_decide (mtag_a = REORDERED)) DLP_CLSC_NOT_SUPPORTED ;;
  fail_if (is_column_major && (bool_decide (mtag_b = REORDERED) || bool_decide (mtag_a = REORDERED)))
    DLP_CLSC_NOT_SUPPORTED ;;
  let '(mtag_a, mtag_b) :=
    if is_row_major && bool_decide (mtag_a = PACK) then (UNPACKED, mtag_b)
    else if is_column_major && bool_decide (mtag_b = PACK) then (mtag_a, UNPACKED)
    else (mtag_a, mtag_b) in
  let '(mtag_a, mtag_b) :=
    if is_row_major && bool_decide (mtag_b = UNPACKED) then (mtag_a, PACK)
    else if is_column_major && bool_decide (mtag_a = UNPACKED) then (PACK, mtag_b)
    else (mtag_a, mtag_b) in
  mret (if is_row_major && trans_a then (PACK, mtag_b)
        else if is_column_major && trans_b then (mtag_a, PACK)
        else (mtag_a, mtag_b)).

Definition s8s8s32_prepare (env : api_env) (x : gemm_args) (metadata : option api_metadata)
    (garbage : list dlp_gemm_post_op) : outcome (driver_args * list dlp_gemm_post_op) :=
  fail_if (negb (avx512vnni env)) DLP_CLSC_NOT_SUPPORTED ;;
  check_args x ;;
  let dlp_transa := dlp_param_map_netlib_to_dlp_trans (transa x) in
  let dlp_transb := dlp_param_map_netlib_to_dlp_trans (transb x) in
  let is_row_major := is_char (order x) "r" "R" in
  let is_column_major := is_char (order x) "c" "C" in
  fail_if (is_column_major && from_option (fun md => 0 <? PostOpTypes.seq_length (am_ops md)) false metadata)
    DLP_CLSC_NOT_SUPPORTED ;;
  let '(rs_a, cs_a) := strides_of dlp_transa (lda x) in
  let '(rs_b, cs_b) := strides_of dlp_transb (ldb x) in
  let rs_c := ldc x in
  let cs_c := 1 in
  '(mtag_a, mtag_b) ← s8s8s32_tags is_row_major is_column_major
    (dlp_is_trans dlp_transa) (dlp_is_trans dlp_transb)
    (dlp_param_map_char_to_lpmtag (mem_format_a x)) (dlp_param_map_char_to_lpmtag (mem_format_b x));
  post_op_list ← translate_post_ops x metadata garbage;
  mret (if is_column_major
        then mk_driver_args true (arg_n x) (arg_m x) (arg_k x) rs_b cs_b rs_a cs_a rs_c cs_c mtag_b mtag_a
        else mk_driver_args false (arg_m x) (arg_n x) (arg_k x) rs_a cs_a rs_b cs_b rs_c cs_c mtag_a mtag_b,
        post_op_list).

(** ** u8 x s8 *)

Definition u8s8s32_tags (trans_a : bool) (mtag_a mtag_b : AOCL_DLP_MEMORY_TAG)
    : outcome (AOCL_DLP_MEMORY_TAG * AOCL_DLP_MEMORY_TAG) :=
  fail_if (bool_decide (mtag_a = REORDERED)) DLP_CLSC_NOT_SUPPORTED ;;
  let mtag_a := if bool_decide (mtag_a = PACK) then UNPACKED else mtag_a in
  let mtag_b := if bool_decide (mtag_b = UNPACKED) then PACK else mtag_b in
  mret (if trans_a then PACK else mtag_a, mtag_b).

(** [needs_bf16]: the instance checks for [avx512_bf16] as well. *)
Definition u8s8s32_prepare (needs_bf16 : bool) (env : api_env) (x : gemm_args)
    (metadata : option api_metadata) (garbage : list dlp_gemm_post_op)
    : outcome (driver_args * list dlp_gemm_post_op) :=
  fail_if (negb (avx512vnni env)) DLP_CLSC_NOT_SUPPORTED ;;
  fail_if (needs_bf16 && negb (avx512bf16 env)) DLP_CLSC_NOT_SUPPORTED ;;
  check_args x ;;
  let dlp_transa := dlp_param_map_netlib_to_dlp_trans (transa x) in
  let dlp_transb := dlp_param_map_netlib_to_dlp_trans (transb x) in
  fail_if (negb (is_char (order x) "r" "R")) DLP_CLSC_NOT_SUPPORTED ;;
  let '(rs_a, cs_a) := strides_of dlp_transa (lda x) in
  let '(rs_b, cs_b) := strides_of dlp_transb (ldb x) in
  '(mtag_a, mtag_b) ← u8s8s32_tags (dlp_is_trans dlp_transa)
    (dlp_param_map_char_to_lpmtag (mem_format_a x)) (dlp_param_map_char_to_lpmtag (mem_format_b x));
  post_op_list ← translate_post_ops x metadata garbage;
  mret (mk_driver_args false (arg_m x) (arg_n x) (arg_k x) rs_a cs_a rs_b cs_b (ldc x) 1 mtag_a mtag_b,
        post_op_list).

(** ** The entry points

    The runtime is resolved only by a call that got so far; the library state and the
    thread's state are those after the call. *)
Section entries.
Context `{KernelFrame}.
Context (env : api_env).

Definition gemm_entry (prepare : outcome (driver_args * list dlp_gemm_post_op))
    (sfx : gemm_sfx) (op : AOCL_DLP_OPERATION_TYPE) (k_dtype : kernel_datatype_t)
    (c_downscale : DLP_TYPE) (x : gemm_args) (metadata : option api_metadata)
    (g : lib_state) (tl : tl_state) : outcome api_launch * lib_state * tl_state :=
  match prepare with
  | Undefined => (Undefined, g, tl)
  | Error e => (Error e, g, tl)
  | Value (d, post_op_list) =>
      let '(rntm_g, g, tl) := run (dlp_rntm_init_from_global (api_rt env)) g tl in
      (launch_gemm env sfx op k_dtype c_downscale x metadata d post_op_list rntm_g, g, tl)
  end.

Context (x : gemm_args) (metadata : option api_metadata) (garbage : list dlp_gemm_post_op).

Definition s8s8s32_entry (k_dtype : kernel_datatype_t) (c_downscale : DLP_TYPE) :=
  gemm_entry (s8s8s32_prepare env x metadata garbage) s8s8s32o32 S8S8S32OS32 k_dtype c_downscale
    x metadata.

Definition u8s8s32_entry (needs_bf16 : bool) (k_dtype : kernel_datatype_t) (c_downscale : DLP_TYPE) :=
  gemm_entry (u8s8s32_prepare needs_bf16 env x metadata garbage) u8s8s32o32 U8S8S32OS32 k_dtype
    c_downscale x metadata.

Definition aocl_gemm_s8s8s32os32 := s8s8s32_entry DLP_KERNEL_S8S8S32OS32 DLP_S32.
Definition aocl_gemm_s8s8s32os8 := s8s8s32_entry DLP_KERNEL_S8S8S32OS8 DLP_S8.
Definition aocl_gemm_s8s8s32ou8 := s8s8s32_entry DLP_KERNEL_S8S8S32OU8 DLP_U8.
Definition aocl_gemm_s8s8s32of32 := s8s8s32_entry DLP_KERNEL_S8S8S32OF32 DLP_F32.
Definition aocl_gemm_s8s8s32of16 := s8s8s32_entry DLP_KERNEL_S8S8S32OF16 DLP_F16.
Definition aocl_gemm_s8s8s32obf16 := s8s8s32_entry DLP_KERNEL_S8S8S32OBF16 DLP_BF16.

Definition aocl_gemm_u8s8s32os32 := u8s8s32_entry false DLP_KERNEL_U8S8S32OS32 DLP_S32.
Definition aocl_gemm_u8s8s32os8 := u8s8s32_entry false DLP_KERNEL_U8S8S32OS8 DLP_S8.
Definition aocl_gemm_u8s8s32ou8 := u8s8s32_entry false DLP_KERNEL_U8S8S32OU8 DLP_U8.
Definition aocl_gemm_u8s8s32of32 := u8s8s32_entry false DLP_KERNEL_U8S8S32OF32 DLP_F32.
Definition aocl_gemm_u8s8s32of16 := u8s8s32_entry false DLP_KERNEL_U8S8S32OF16 DLP_F16.
Definition aocl_gemm_u8s8s32obf16 := u8s8s32_entry true DLP_KERNEL_U8S8S32OBF16 DLP_BF16.
End entries.

(** ** Outcomes of a call

    [answers P o]: the function stays defined, an error it reports is an error, and
    the value it returns satisfies [P]. *)
Definition answers {A} (P : A -> Prop) (o : outcome A) : Prop :=
  match o with
  | Undefined => False
  | Error e => e <> DLP_CLSC_SUCCESS
  | Value a => P a
  end.

Lemma answers_bind {A B} (P : A -> Prop) (Q : B -> Prop) (f : A -> outcome B) o :
  answers P o -> (forall a, P a -> answers Q (f a)) -> answers Q (o ≫= f).
Proof. destruct o; simpl; auto. Qed.

Lemma answers_weaken {A} (P Q : A -> Prop) o :
  answers P o -> (forall a, P a -> Q a) -> answers Q o.
Proof. destruct o; simpl; auto. Qed.

Lemma answers_fail_if {B} (Q : B -> Prop) c e (k : outcome B) :
  e <> DLP_CLSC_SUCCESS -> (c = false -> answers Q k) -> answers Q (fail_if c e ;; k).
Proof. destruct c; simpl; auto. Qed.

Lemma answers_check {B} (Q : B -> Prop) err (k : outcome B) :
  (err = DLP_CLSC_SUCCESS -> answers Q k) -> answers Q (check err ;; k).
Proof. unfold check. case_bool_decide; simpl; auto. Qed.

Lemma answers_or_undefined {A B} (Q : B -> Prop) (a : A) o (f : A -> outcome B) :
  o = Some a -> answers Q (f a) -> answers Q (or_undefined o ≫= f).
Proof. by intros ->. Qed.

Lemma check_args_answers {B} (Q : B -> Prop) x (k : outcome B) :
  (gemm_args_valid (order x) (transa x) (transb x) (arg_m x) (arg_n x) (arg_k x)
     (a_null x) (lda x) (mem_format_a x) (b_null x) (ldb x) (mem_format_b x) (c_null x) (ldc x) ->
   answers Q k) -> answers Q (check_args x ;; k).
Proof. intros H. apply answers_check. intros Hc. apply H. by apply gemm_check_spec. Qed.

(** The metadata the translators stay inside of. *)
Definition metadata_ok (metadata : option api_metadata) : Prop :=
  forall md ops, am_ops <$> metadata = Some md -> seq_ok md ops ->
    entries_cover md ops (Z.to_nat (PostOpTypes.seq_length md)).

Lemma translate_answers order_use x metadata garbage :
  length garbage = 8%nat -> metadata_ok metadata ->
  answers (fun l => length l = 8%nat) (translate_post_ops_in order_use x metadata garbage).
Proof.
  intros Hg Hm. unfold translate_post_ops_in.
  destruct (translate_total (am_ops <$> metadata) garbage (POrder order_use) (arg_m x) (arg_n x)
    ltac:(lia) Hm) as (err & l & -> & Hl & _). rewrite Hg in Hl. cbn. by apply answers_check.
Qed.

(** ** The arguments of the driver *)

(** Index of element [(i, j)] of [op(X)] in the array of X. *)
Definition element_index (order trans : ascii) (ld i j : Z) : Z :=
  if eqb (row_stored order) (notrans trans) then i * ld + j else j * ld + i.

(** [mem_format] asks for a reordered matrix. *)
Definition asks_reordered (c : ascii) : bool := bool_decide (dlp_param_map_char_to_lpmtag c = REORDERED).

(** The driver computes the caller's product: in row-major terms, exchanging A and B
    for column-major calls; its tags are ones it handles: an A it reads in place has
    contiguous rows, one it packs contiguous columns, and B is packed unless the caller
    says that it was reordered. *)
Record driver_ready (x : gemm_args) (d : driver_args) : Prop := mk_driver_ready {
  dr_swapped : swapped d = col_stored (order x);
  dr_dims : (m_use d, n_use d) = (if swapped d then (arg_n x, arg_m x) else (arg_m x, arg_n x)) /\
    k_use d = arg_k x;
  dr_positive : 1 <= m_use d /\ 1 <= n_use d /\ 1 <= k_use d;
  dr_tags : (mtag_a_use d = UNPACKED \/ mtag_a_use d = PACK) /\
    (mtag_b_use d = PACK \/ mtag_b_use d = REORDERED);
  dr_contiguous : mtag_a_use d <> PACK -> cs_a_use d = 1;
  dr_packed : mtag_a_use d = PACK -> rs_a_use d = 1 /\ m_use d <= cs_a_use d;
  dr_reordered : mtag_b_use d = (if asks_reordered (mem_format_b x) then REORDERED else PACK) /\
    (asks_reordered (mem_format_b x) = true -> swapped d = false);
  dr_a : forall i p, rs_a_use d * i + cs_a_use d * p =
    if swapped d then element_index (order x) (transb x) (ldb x) p i
    else element_index (order x) (transa x) (lda x) i p;
  dr_b : forall p j, rs_b_use d * p + cs_b_use d * j =
    if swapped d then element_index (order x) (transa x) (lda x) j p
    else element_index (order x) (transb x) (ldb x) p j;
  dr_c : n_use d <= rs_c_use d /\ cs_c_use d = 1 /\ forall i j, rs_c_use d * i + j =
    if swapped d then element_index (order x) "n" (ldc x) j i
    else element_index (order x) "n" (ldc x) i j;
}.

Lemma order_cases order :
  valid_order order ->
  row_stored order = true /\ col_stored order = false \/ row_stored order = false /\ col_stored order = true.
Proof.
  intros Ho. destruct (row_stored order) eqn:E; [left; by rewrite (row_not_col order E)|right].
  split; [done|]. destruct Ho as [?|?]; congruence.
Qed.

Lemma col_not_row order : valid_order order -> col_stored order = negb (row_stored order).
Proof. intros Ho. by destruct (order_cases _ Ho) as [[-> ->]|[-> ->]]. Qed.

Lemma trans_cases trans :
  valid_trans trans ->
  notrans trans = true /\ dlp_is_trans (dlp_param_map_netlib_to_dlp_trans trans) = false \/
  notrans trans = false /\ dlp_is_trans (dlp_param_map_netlib_to_dlp_trans trans) = true.
Proof.
  unfold valid_trans, notrans, istrans, dlp_param_map_netlib_to_dlp_trans.
  destruct (is_char trans "n" "N"); [by left|]. intros [?| ->]; [done|by right].
Qed.

Lemma lpmtag_cases c :
  dlp_param_map_char_to_lpmtag c = UNPACKED \/ dlp_param_map_char_to_lpmtag c = PACK \/
  dlp_param_map_char_to_lpmtag c = REORDERED.
Proof. unfold dlp_param_map_char_to_lpmtag. repeat case_match; auto. Qed.

(** What [strides_of] means, for a matrix used as it is or exchanged. *)
Lemma strides_index order trans ld rs cs :
  valid_order order -> valid_trans trans ->
  strides_of (dlp_param_map_netlib_to_dlp_trans trans) ld = (rs, cs) ->
  (forall i p, element_index order trans ld i p =
     if row_stored order then rs * i + cs * p else rs * p + cs * i) /\
  (dlp_is_trans (dlp_param_map_netlib_to_dlp_trans trans) = false -> cs = 1) /\
  (dlp_is_trans (dlp_param_map_netlib_to_dlp_trans trans) = true -> rs = 1 /\ cs = ld).
Proof.
  intros Ho Ht E. unfold strides_of in E. unfold element_index.
  destruct (order_cases order Ho) as [[-> _]|[-> _]], (trans_cases trans Ht) as [[-> Et]|[-> Et]];
    rewrite Et in *; simplify_eq; cbn [eqb]; (split; [intros; lia|done]).
Qed.

Lemma s8_tags_answers (row trans_a trans_b : bool) ta0 tb0 :
  (ta0 = UNPACKED \/ ta0 = PACK \/ ta0 = REORDERED) -> (tb0 = UNPACKED \/ tb0 = PACK \/ tb0 = REORDERED) ->
  answers (fun '(ta, tb) =>
      let '(da, db) := if row then (ta, tb) else (tb, ta) in
      (da = UNPACKED /\ (if row then trans_a else trans_b) = false \/
       da = PACK /\ (if row then trans_a else trans_b) = true) /\
      db = (if bool_decide (tb0 = REORDERED) then REORDERED else PACK) /\
      (bool_decide (tb0 = REORDERED) = true -> row = true))
    (s8s8s32_tags row (negb row) trans_a trans_b ta0 tb0).
Proof.
  intros [->|[->| ->]] [->|[->| ->]]; destruct row, trans_a, trans_b; cbn; naive_solver.
Qed.

Lemma u8_tags_answers (trans_a : bool) ta tb0 :
  (ta = UNPACKED \/ ta = PACK \/ ta = REORDERED) -> (tb0 = UNPACKED \/ tb0 = PACK \/ tb0 = REORDERED) ->
  answers (fun '(da, db) => (da = UNPACKED /\ trans_a = false \/ da = PACK /\ trans_a = true) /\
      db = (if bool_decide (tb0 = REORDERED) then REORDERED else PACK))
    (u8s8s32_tags trans_a ta tb0).
Proof. intros [->|[->| ->]] [->|[->| ->]]; destruct trans_a; cbn; naive_solver. Qed.

(** What the first half of an entry point leaves. *)
Definition prepared (x : gemm_args) (p : driver_args * list dlp_gemm_post_op) : Prop :=
  driver_ready x p.1 /\ length p.2 = 8%nat.

(** The driver's arguments from the strides and tags computed above. *)
Lemma ready_row x rs_a cs_a rs_b cs_b ta tb :
  gemm_args_valid (order x) (transa x) (transb x) (arg_m x) (arg_n x) (arg_k x)
     (a_null x) (lda x) (mem_format_a x) (b_null x) (ldb x) (mem_format_b x) (c_null x) (ldc x) ->
  row_stored (order x) = true -> col_stored (order x) = false ->
  strides_of (dlp_param_map_netlib_to_dlp_trans (transa x)) (lda x) = (rs_a, cs_a) ->
  strides_of (dlp_param_map_netlib_to_dlp_trans (transb x)) (ldb x) = (rs_b, cs_b) ->
  ta = UNPACKED /\ dlp_is_trans (dlp_param_map_netlib_to_dlp_trans (transa x)) = false \/
    ta = PACK /\ dlp_is_trans (dlp_param_map_netlib_to_dlp_trans (transa x)) = true ->
  tb = (if asks_reordered (mem_format_b x) then REORDERED else PACK) ->
  driver_ready x
    (mk_driver_args false (arg_m x) (arg_n x) (arg_k x) rs_a cs_a rs_b cs_b (ldc x) 1 ta tb).
Proof.
  intros [(Ho & Hta & Htb & _) Hd _ (Hla & _ & Hc)] Er Ec Ea Eb Hma Hmb.
  destruct (strides_index _ _ _ _ _ Ho Hta Ea) as (Ia & Ca & Ta).
  destruct (strides_index _ _ _ _ _ Ho Htb Eb) as [Ib _].
  split; cbn; try done.
  - unfold valid_dim in Hd. lia.
  - rewrite Hmb. destruct (asks_reordered _); naive_solver.
  - intros H. apply Ca. naive_solver.
  - intros H. assert (dlp_is_trans (dlp_param_map_netlib_to_dlp_trans (transa x)) = true) as Et by naive_solver.
    destruct (Ta Et) as [-> ->]. split; [done|]. unfold valid_ld, line_length in Hla. rewrite Er in Hla.
    destruct (trans_cases _ Hta) as [[_ E]|[E _]]; [congruence|]. rewrite E in Hla. cbn in Hla. lia.
  - intros. by rewrite Ia, Er.
  - intros. by rewrite Ib, Er.
  - unfold element_index. rewrite Er. unfold valid_ld, line_length in Hc. rewrite Er in Hc.
    change (notrans "n") with true in *. cbn in Hc |- *. split; [lia|]. split; [done|lia].
Qed.

Lemma ready_column x rs_a cs_a rs_b cs_b ta tb :
  gemm_args_valid (order x) (transa x) (transb x) (arg_m x) (arg_n x) (arg_k x)
     (a_null x) (lda x) (mem_format_a x) (b_null x) (ldb x) (mem_format_b x) (c_null x) (ldc x) ->
  row_stored (order x) = false -> col_stored (order x) = true ->
  strides_of (dlp_param_map_netlib_to_dlp_trans (transa x)) (lda x) = (rs_a, cs_a) ->
  strides_of (dlp_param_map_netlib_to_dlp_trans (transb x)) (ldb x) = (rs_b, cs_b) ->
  tb = UNPACKED /\ dlp_is_trans (dlp_param_map_netlib_to_dlp_trans (transb x)) = false \/
    tb = PACK /\ dlp_is_trans (dlp_param_map_netlib_to_dlp_trans (transb x)) = true ->
  ta = (if asks_reordered (mem_format_b x) then REORDERED else PACK) -> asks_reordered (mem_format_b x) = false ->
  driver_ready x
    (mk_driver_args true (arg_n x) (arg_m x) (arg_k x) rs_b cs_b rs_a cs_a (ldc x) 1 tb ta).
Proof.
  intros [(Ho & Hta & Htb & _) Hd _ (_ & Hlb & Hc)] Er Ec Ea Eb Hmb Hma Has.
  destruct (strides_index _ _ _ _ _ Ho Hta Ea) as [Ia _].
  destruct (strides_index _ _ _ _ _ Ho Htb Eb) as (Ib & Cb & Tb).
  split; cbn; try done.
  - unfold valid_dim in Hd. lia.
  - rewrite Hma, Has. naive_solver.
  - intros H. apply Cb. naive_solver.
  - intros H. assert (dlp_is_trans (dlp_param_map_netlib_to_dlp_trans (transb x)) = true) as Et by naive_solver.
    destruct (Tb Et) as [-> ->]. split; [done|]. unfold valid_ld, line_length in Hlb. rewrite Er in Hlb.
    destruct (trans_cases _ Htb) as [[_ E]|[E _]]; [congruence|]. rewrite E in Hlb. cbn in Hlb. lia.
  - split; [done|congruence].
  - intros. by rewrite Ib, Er.
  - intros. by rewrite Ia, Er.
  - unfold element_index. rewrite Er. unfold valid_ld, line_length in Hc. rewrite Er in Hc.
    change (notrans "n") with true in *. cbn in Hc |- *. split; [lia|]. split; [done|lia].
Qed.

Lemma s8s8s32_prepare_answers env x metadata garbage :
  length garbage = 8%nat -> metadata_ok metadata ->
  answers (prepared x) (s8s8s32_prepare env x metadata garbage).
Proof.
  intros Hg Hm. unfold s8s8s32_prepare.
  apply answers_fail_if; [done|intros _]. apply check_args_answers. intros Hv.
  apply answers_fail_if; [done|intros _].
  destruct (strides_of (dlp_param_map_netlib_to_dlp_trans (transa x)) (lda x)) as [rs_a cs_a] eqn:Ea.
  destruct (strides_of (dlp_param_map_netlib_to_dlp_trans (transb x)) (ldb x)) as [rs_b cs_b] eqn:Eb.
  fold (row_stored (order x)) (col_stored (order x)).
  pose proof (gv_chars _ _ _ _ _ _ _ _ _ _ _ _ _ _ Hv) as (Ho & _).
  rewrite (col_not_row _ Ho). eapply answers_bind; [apply s8_tags_answers; apply lpmtag_cases|].
  intros [ta tb] Htags. eapply answers_bind; [by apply translate_answers|]. intros l Hl.
  split; [|done]. cbn [fst]. pose proof (col_not_row _ Ho) as Ec.
  destruct (row_stored (order x)) eqn:Er; destruct Htags as (H1 & H2 & H3).
  - by apply ready_row.
  - apply ready_column; try done. apply not_true_is_false. intros Has. by specialize (H3 Has).
Qed.

Lemma u8s8s32_prepare_answers needs_bf16 env x metadata garbage :
  length garbage = 8%nat -> metadata_ok metadata ->
  answers (fun p => prepared x p /\ row_stored (order x) = true)
    (u8s8s32_prepare needs_bf16 env x metadata garbage).
Proof.
  intros Hg Hm. unfold u8s8s32_prepare.
  do 2 (apply answers_fail_if; [done|intros _]). apply check_args_answers. intros Hv.
  apply answers_fail_if; [done|]. fold (row_stored (order x)). intros Er%negb_false_iff.
  destruct (strides_of (dlp_param_map_netlib_to_dlp_trans (transa x)) (lda x)) as [rs_a cs_a] eqn:Ea.
  destruct (strides_of (dlp_param_map_netlib_to_dlp_trans (transb x)) (ldb x)) as [rs_b cs_b] eqn:Eb.
  eapply answers_bind; [apply u8_tags_answers; apply lpmtag_cases|].
  intros [ta tb] [H1 H2]. eapply answers_bind; [by apply translate_answers|]. intros l Hl.
  split; [split; [|done]|done]. apply ready_row; try done. by apply row_not_col.
Qed.

(** ** The launch *)

Lemma divides_checked NR m NC KC kf :
  0 < NR -> 0 < m -> 0 < KC -> 0 < kf -> 0 < NC -> (m | NR) -> (NR | NC) -> (kf | KC) ->
  blocks_checked NR m NC KC kf.
Proof.
  intros. unfold blocks_checked, dlp_reorder_ref_blocks_legal. rewrite !crem_nonneg by lia.
  split; [|split; [done|apply Z.mod_divide; (done || lia)]].
  rewrite !andb_true_iff, !Z.ltb_lt, !Z.eqb_eq. repeat split; try done; apply Z.mod_divide; (done || lia).
Qed.

Section launched.
Context `{KernelFrameLaws}.
Context (env : api_env) (sfx : gemm_sfx) (op : AOCL_DLP_OPERATION_TYPE).
Context (k_dtype : kernel_datatype_t) (c_downscale : DLP_TYPE).

(** The library is initialised for the operation, and its environment is sound. *)
Record env_ready : Prop := mk_env_ready {
  er_env : env_ok (api_decor env);
  er_cntx : exists c,
    dlp_gemm_get_global_cntx_obj (env_config (api_decor env)) (op_index op) = Some c /\
    blksz_pos (blksz c);
}.

(** What is launched: the driver on the arguments prepared, with positive blocks,
    which on a proper matrix of 8-bit integers are those the packed layout needs,
    by one complete team of threads that all see the tags prepared. *)
Record launched (d : driver_args) (L : api_launch) : Prop := mk_launched {
  la_args : al_args L = d;
  la_pos : blksz_pos (blksz (al_cntx L));
  la_blocks : int8_datatype k_dtype -> 1 < m_use d -> 1 < n_use d ->
    let b := blksz (al_cntx L) in blocks_checked (NR b) 16 (NC b) (KC b) 4;
  la_team : exists ic jc, team_launch ic jc (mtag_a_use d) (mtag_b_use d) (al_launch L);
}.

Lemma merged_positive c md err c' :
  blksz_pos (blksz c) -> dlp_gemm_upd_cntx_with_metadata (Some c) md = (err, c') ->
  exists c2, c' = Some c2 /\ blksz_pos (blksz c2).
Proof using.
  intros Hb E. unfold dlp_gemm_upd_cntx_with_metadata in E. destruct md as [md|]; [|by simplify_eq; eauto].
  destruct (block_params md) as [p|].
  - pose proof (merge_blksz_pos p _ Hb) as Hm. rewrite (proj2 (blksz_nonpos_false _) Hm) in E.
    simplify_eq. eexists. split; [reflexivity|].
    destruct (sup_thresholds md), (gemm_hints md); by apply snap_pos.
  - simplify_eq. eexists. split; [reflexivity|]. by destruct (sup_thresholds md), (gemm_hints md).
Qed.

Lemma validate_total md c :
  blksz_pos (blksz c) -> exists err, dlp_gemm_validate_metadata_with_lcntx md (Some c) = Some err.
Proof using.
  intros [????]. unfold dlp_gemm_validate_metadata_with_lcntx. destruct md as [md|]; [|eauto].
  destruct (block_params md); [|eauto].
  rewrite (proj2 (Z.eqb_neq _ 0)), (proj2 (Z.eqb_neq _ 0)) by lia. cbn. eauto.
Qed.

Lemma decorator_team (b : bool) m n k ta tb r lcntx ops :
  env_ok (api_decor env) -> 1 <= m -> 1 <= n -> blksz_pos (blksz lcntx) ->
  exists l ic jc ta' tb',
    (if b then dlp_gemm_openmp_thread_decorator (api_decor env) sfx
     else dlp_gemm_thread_decorator (api_decor env) sfx) m n k ta tb r lcntx ops = Some l /\
    team_launch ic jc ta' tb' l /\ (keeps_tags sfx -> ta' = ta /\ tb' = tb).
Proof using.
  intros Henv Hm Hn Hb. destruct b.
  - by apply openmp_decorator_team.
  - destruct (sequential_decorator_team (api_decor env) sfx m n k ta tb r lcntx ops (env_tables _ Henv))
      as (l & ta' & tb' & ?). by exists l, 1, 1, ta', tb'.
Qed.

Lemma call_cntx_answers metadata :
  env_ready -> answers (fun c => blksz_pos (blksz c)) (call_cntx env op metadata).
Proof using.
  intros [_ (c0 & Ec & Hb0)]. unfold call_cntx. apply (answers_or_undefined _ c0); [done|].
  destruct (dlp_gemm_upd_cntx_with_metadata _ _) as [err upd] eqn:Eu.
  destruct (merged_positive _ _ _ _ Hb0 Eu) as (c1 & -> & Hb1). by apply answers_check.
Qed.

(** Kernels found leave a context the drivers can run on. *)
Lemma settle_answers x metadata needs ta tb d l c ti :
  blksz_pos (blksz c) ->
  answers (fun '(c, _) => blksz_pos (blksz c) /\
      (int8_datatype k_dtype -> 1 < m_use d -> 1 < n_use d ->
       let b := blksz c in blocks_checked (NR b) 16 (NC b) (KC b) 4))
    (settle_kernels k_dtype c_downscale x metadata needs ta tb d l c ti).
Proof using H0.
  intros Hb1. unfold settle_kernels.
  destruct (dlp_init_and_get_kernel_hndl _ _ _ _ _ _ _ _ _ _ _ _ _ _ _ _ _ _) as [[base c2] ti2] eqn:Ek.
  apply answers_fail_if; [done|]. intros ->%negb_false_iff.
  destruct (dlp_init_and_get_packb_kernel_hndl _ _ _ _ _) as [pack c3] eqn:Ep.
  apply answers_fail_if; [done|intros _].
  destruct (selected_blocks _ _ _ _ _ _ _ _ _ _ _ _ _ _ _ _ _ _ _ _ _ Hb1 Ek (ex_intro _ pack Ep))
    as (_ & Hb & Hdiv & Hint).
  destruct (validate_total (am_blocking <$> metadata) _ Hb) as [err' Ev].
  apply (answers_or_undefined _ err'); [done|]. apply answers_check. intros _. split; [done|].
  intros Hi Hm1 Hn1. destruct (Hint Hi Hm1 Hn1). pose proof Hb as [].
  apply divides_checked; (done || lia).
Qed.

Lemma decorate_answers d l r c :
  env_ok (api_decor env) -> 1 <= m_use d -> 1 <= n_use d -> blksz_pos (blksz c) ->
  answers (fun L => al_args L = d /\ al_cntx L = c /\ exists ic jc ta tb,
      team_launch ic jc ta tb (al_launch L) /\
      (keeps_tags sfx -> ta = mtag_a_use d /\ tb = mtag_b_use d))
    (decorate env sfx d l r c).
Proof using.
  intros Henv Hm Hn Hb. unfold decorate.
  destruct (decorator_team (openmp env && negb (dlp_is_single_thread r)) (m_use d) (n_use d) (k_use d)
    (mtag_a_use d) (mtag_b_use d) r _ (Some (mk_ops (Some l))) Henv Hm Hn Hb)
    as (L & ic & jc & ta & tb & El & Ht & Htags).
  apply (answers_or_undefined _ L); [exact El|]. cbn. eauto 10.
Qed.

Lemma launch_answers x metadata d l r :
  env_ready -> keeps_tags sfx -> driver_ready x d ->
  answers (launched d) (launch_gemm env sfx op k_dtype c_downscale x metadata d l r).
Proof using H0.
  intros Henv Hk Hd. pose proof (dr_positive _ _ Hd) as (Hm & Hn & _). unfold launch_gemm.
  eapply answers_bind; [by apply call_cntx_answers|]. intros c Hb.
  apply answers_check. intros _. eapply answers_bind; [by apply settle_answers|].
  intros [c2 ti] [Hb2 Hint].
  eapply answers_weaken; [apply decorate_answers; [apply Henv|done..]|].
  intros L (Ea & Ec & ic & jc & ta & tb & Ht & Htags). destruct (Htags Hk) as [-> ->].
  rewrite <- Ec in *. split; eauto.
Qed.
End launched.

(** ** The calls *)

Section calls.
Context `{KernelFrameLaws}.
Context (env : api_env) (x : gemm_args) (metadata : option api_metadata)
  (garbage : list dlp_gemm_post_op).

(** The twelve entry points. *)
Definition s8s8s32_calls :=
  [aocl_gemm_s8s8s32os32 env x metadata garbage; aocl_gemm_s8s8s32os8 env x metadata garbage;
   aocl_gemm_s8s8s32ou8 env x metadata garbage; aocl_gemm_s8s8s32of32 env x metadata garbage;
   aocl_gemm_s8s8s32of16 env x metadata garbage; aocl_gemm_s8s8s32obf16 env x metadata garbage].
Definition u8s8s32_calls :=
  [aocl_gemm_u8s8s32os32 env x metadata garbage; aocl_gemm_u8s8s32os8 env x metadata garbage;
   aocl_gemm_u8s8s32ou8 env x metadata garbage; aocl_gemm_u8s8s32of32 env x metadata garbage;
   aocl_gemm_u8s8s32of16 env x metadata garbage; aocl_gemm_u8s8s32obf16 env x metadata garbage].

(** What a call that launches has launched. *)
Definition sound_launch (L : api_launch) : Prop :=
  let d := al_args L in let b := blksz (al_cntx L) in
  driver_ready x d /\ blksz_pos b /\
  (1 < m_use d -> 1 < n_use d -> blocks_checked (NR b) 16 (NC b) (KC b) 4) /\
  exists ic jc, team_launch ic jc (mtag_a_use d) (mtag_b_use d) (al_launch L).

Lemma entry_answers prepare sfx op k_dtype c_downscale g tl :
  answers (prepared x) prepare -> env_ready env op -> keeps_tags sfx -> int8_datatype k_dtype ->
  answers sound_launch (gemm_entry env prepare sfx op k_dtype c_downscale x metadata g tl).1.1.
Proof using H0.
  intros Hp Henv Hk Hi. unfold gemm_entry. destruct prepare as [|e|[d l]]; [done|done|].
  destruct Hp as [Hd _]. cbn in Hd.
  destruct (run (dlp_rntm_init_from_global (api_rt env)) g tl) as [[r g'] tl'] eqn:Er. cbn [fst].
  pose proof (launch_answers env sfx op k_dtype c_downscale x metadata d l r Henv Hk Hd) as HL.
  destruct (launch_gemm _ _ _ _ _ _ _ _ _ _) as [|e|L]; [done..|].
  destruct HL as [Ea Hpos Hb Ht]. change (sound_launch L). unfold sound_launch. cbn zeta. rewrite Ea.
  split_and!; auto.
Qed.
End calls.

(** ** Properties *)

(** C14. No call of an 8-bit integer GEMM entry point is undefined, whatever its
    arguments, its post-ops and the state of the threading: in an initialised library
    it reports an error other than success, or launches the driver on the caller's
    product (the strides address the caller's matrices, exchanged for a column-major
    call), with tags the driver handles, positive blocks that fit the packed layout,
    and one complete team of threads that see those tags.
    Block sizes of the caller are taken not to overflow [md_t] ([merge_in_range]). *)
Theorem int8_gemm_calls_sound `{KernelFrameLaws} (env : api_env) (x : gemm_args)
    (metadata : option api_metadata) (garbage : list dlp_gemm_post_op)
    (g : lib_state) (tl : tl_state) :
  env_ready env S8S8S32OS32 -> env_ready env U8S8S32OS32 ->
  length garbage = 8%nat -> metadata_ok metadata ->
  forall call, call ∈ s8s8s32_calls env x metadata garbage ++ u8s8s32_calls env x metadata garbage ->
    answers (sound_launch x) (call g tl).1.1.
Proof.
  intros Hs Hu Hg Hm call Hcall. apply elem_of_app in Hcall as [Hcall|Hcall].
  - pose proof (s8s8s32_prepare_answers env x metadata garbage Hg Hm) as Hp.
    unfold s8s8s32_calls in Hcall. set_unfold in Hcall. destruct_or! Hcall; subst; by apply entry_answers.
  - assert (forall b, answers (prepared x) (u8s8s32_prepare b env x metadata garbage)) as Hp.
    { intros b. pose proof (u8s8s32_prepare_answers b env x metadata garbage Hg Hm) as Hp.
      destruct (u8s8s32_prepare _ _ _ _ _); [done..|]. apply Hp. }
    unfold u8s8s32_calls in Hcall. set_unfold in Hcall. destruct_or! Hcall; subst; by apply entry_answers.
Qed.

(** ** A concrete environment *)

(** A frame that answers one tile, as a processor with AVX512 would. *)
#[export] Instance example_frame : KernelFrame := {
  gemm_kernelInfo_by_dtype rq := (mk_tile 6 64 2048, rq_thread_info rq);
  gemm_kernel_available _ _ := true;
  packb_panel_dim pq := pq_NR pq;
  packb_kernel_available _ _ := true;
}.

#[export] Instance example_frame_laws : KernelFrameLaws.
Proof.
  split; [|done]. intros rq tile _ _ _. split; [done|]. intros _ _ _.
  split; [by exists 4|by exists 512].
Defined.

Definition example_api_env : api_env :=
  mk_api_env true true true (ThreadDecor.example_env example_config) Runtime.example_env
    (fun a b => to_i64 (a * b)).

Definition example_garbage : list dlp_gemm_post_op := replicate 8 disable_node.

Lemma example_env_ready : env_ready example_api_env S8S8S32OS32 /\ env_ready example_api_env U8S8S32OS32.
Proof.
  split; (split; [exact example_env_ok|]); (eexists; split; [vm_compute; reflexivity|by split]).
Defined.

Lemma example_no_metadata : metadata_ok None.
Proof. intros md ops [=]. Defined.

(** A call that is transposed, by columns. *)
Lemma int8_gemm_calls_sound_witness :
  let x := mk_gemm_args "c" "t" "n" 70 7 5 3 false 8 "p" false 9 "n" 2 false 75 in
  exists L g' tl',
    aocl_gemm_s8s8s32of32 example_api_env x None example_garbage lib_init tl_init = (Value L, g', tl') /\
    sound_launch x L.
Proof.
  intros x. pose proof (int8_gemm_calls_sound example_api_env x None example_garbage lib_init tl_init
    (proj1 example_env_ready) (proj2 example_env_ready) eq_refl example_no_metadata
    (aocl_gemm_s8s8s32of32 example_api_env x None example_garbage)
    ltac:(do 3 right; left)) as Hs.
  destruct (aocl_gemm_s8s8s32of32 example_api_env x None example_garbage lib_init tl_init)
    as [[o g'] tl'] eqn:E.
  assert (exists L, o = Value L) as [L ->].
  { change o with (o, g', tl').1.1. rewrite <- E. eexists. vm_compute. reflexivity. }
  exists L, g', tl'. split; [reflexivity|exact Hs].
Defined.

(** The arguments are valid. *)
Definition args_valid (x : gemm_args) : Prop :=
  gemm_args_valid (order x) (transa x) (transb x) (arg_m x) (arg_n x) (arg_k x)
    (a_null x) (lda x) (mem_format_a x) (b_null x) (ldb x) (mem_format_b x) (c_null x) (ldc x).

#[local] Instance args_valid_dec x : Decision (args_valid x).
Proof.
  destruct (decide ((AOCL_DLP_GEMM_CHECK (order x) (transa x) (transb x) (arg_m x) (arg_n x) (arg_k x)
    (a_null x) (lda x) (mem_format_a x) (b_null x) (ldb x) (mem_format_b x) (c_null x) (ldc x)).2
    = DLP_CLSC_SUCCESS)) as [E|E]; [left|right]; unfold args_valid; by rewrite <- gemm_check_spec.
Defined.

Definition translates (x : gemm_args) (metadata : option api_metadata)
    (garbage : list dlp_gemm_post_op) : Prop :=
  exists l, dlp_gemm_translate_to_post_ops_list (am_ops <$> metadata) (Some garbage)
    (POrder (order x)) (arg_m x) (arg_n x) = Some (DLP_CLSC_SUCCESS, l).

Lemma fail_if_value {B} c e (k : outcome B) v :
  (fail_if c e ;; k) = Value v <-> c = false /\ k = Value v.
Proof. destruct c; cbn; naive_solver. Qed.

Lemma check_args_value {B} x (k : outcome B) v :
  (check_args x ;; k) = Value v <-> args_valid x /\ k = Value v.
Proof.
  unfold check_args, check. rewrite fail_if_value, negb_false_iff, bool_decide_eq_true.
  unfold args_valid. by rewrite gemm_check_spec.
Qed.

Lemma translate_value x metadata garbage :
  (exists l, translate_post_ops x metadata garbage = Value l) <-> translates x metadata garbage.
Proof.
  unfold translate_post_ops, translate_post_ops_in, translates, check.
  destruct (dlp_gemm_translate_to_post_ops_list _ _ _ _ _) as [[err l]|]; cbn; [|naive_solver].
  case_bool_decide as E; cbn; [|naive_solver]. subst. naive_solver.
Qed.

Lemma bind_value {A B} (o : outcome A) (f : A -> outcome B) v :
  o ≫= f = Value v <-> exists a, o = Value a /\ f a = Value v.
Proof. destruct o; cbn; naive_solver. Qed.

Lemma s8_tags_value (row col trans_a trans_b : bool) ma mb :
  col = negb row ->
  (exists t, s8s8s32_tags row col trans_a trans_b
     (dlp_param_map_char_to_lpmtag ma) (dlp_param_map_char_to_lpmtag mb) = Value t) <->
  asks_reordered ma = false /\ (col = true -> asks_reordered mb = false).
Proof.
  intros ->. unfold asks_reordered.
  destruct (lpmtag_cases ma) as [->|[->| ->]], (lpmtag_cases mb) as [->|[->| ->]], row, trans_a, trans_b;
    cbn; naive_solver.
Qed.

Lemma u8_tags_value (trans_a : bool) ma mb :
  (exists t, u8s8s32_tags trans_a (dlp_param_map_char_to_lpmtag ma) (dlp_param_map_char_to_lpmtag mb)
     = Value t) <-> asks_reordered ma = false.
Proof.
  unfold asks_reordered.
  destruct (lpmtag_cases ma) as [->|[->| ->]], (lpmtag_cases mb) as [->|[->| ->]], trans_a;
    cbn; naive_solver.
Qed.

(** The post-op guard of a column-major call. *)
Lemma no_post_ops (metadata : option api_metadata) :
  from_option (fun md => 0 <? PostOpTypes.seq_length (am_ops md)) false metadata = false <->
  (forall md, metadata = Some md -> PostOpTypes.seq_length (am_ops md) <= 0).
Proof.
  destruct metadata as [md|]; cbn; [|naive_solver]. rewrite Z.ltb_ge. naive_solver.
Qed.

Lemma s8s8s32_prepare_value env x metadata garbage :
  (exists p, s8s8s32_prepare env x metadata garbage = Value p) <->
  avx512vnni env = true /\ args_valid x /\
  col_stored (order x) && from_option (fun md => 0 <? PostOpTypes.seq_length (am_ops md)) false metadata = false /\
  (exists t, s8s8s32_tags (row_stored (order x)) (col_stored (order x))
     (dlp_is_trans (dlp_param_map_netlib_to_dlp_trans (transa x)))
     (dlp_is_trans (dlp_param_map_netlib_to_dlp_trans (transb x)))
     (dlp_param_map_char_to_lpmtag (mem_format_a x)) (dlp_param_map_char_to_lpmtag (mem_format_b x)) = Value t) /\
  (exists l, translate_post_ops x metadata garbage = Value l).
Proof.
  unfold s8s8s32_prepare. fold (row_stored (order x)) (col_stored (order x)).
  destruct (strides_of (dlp_param_map_netlib_to_dlp_trans (transa x)) (lda x)) as [rs_a cs_a].
  destruct (strides_of (dlp_param_map_netlib_to_dlp_trans (transb x)) (ldb x)) as [rs_b cs_b].
  split.
  - intros [p [Hi%negb_false_iff [Hv [Hc [[ta tb] [Ht [l [Hl _]]%bind_value]]%bind_value]%fail_if_value]
      %check_args_value]%fail_if_value].
    do 3 (split; [done|]). split; [by exists (ta, tb)|by exists l].
  - intros (Hi & Hv & Hc & [[ta tb] Ht] & [l Hl]). eexists.
    apply fail_if_value. rewrite Hi. split; [done|]. apply check_args_value. split; [done|].
    apply fail_if_value. split; [done|]. apply bind_value. exists (ta, tb). split; [done|].
    apply bind_value. by exists l.
Qed.

Lemma u8s8s32_prepare_value needs env x metadata garbage :
  (exists p, u8s8s32_prepare needs env x metadata garbage = Value p) <->
  avx512vnni env = true /\ needs && negb (avx512bf16 env) = false /\ args_valid x /\
  row_stored (order x) = true /\
  (exists t, u8s8s32_tags (dlp_is_trans (dlp_param_map_netlib_to_dlp_trans (transa x)))
     (dlp_param_map_char_to_lpmtag (mem_format_a x)) (dlp_param_map_char_to_lpmtag (mem_format_b x)) = Value t) /\
  (exists l, translate_post_ops x metadata garbage = Value l).
Proof.
  unfold u8s8s32_prepare. fold (row_stored (order x)).
  destruct (strides_of (dlp_param_map_netlib_to_dlp_trans (transa x)) (lda x)) as [rs_a cs_a].
  destruct (strides_of (dlp_param_map_netlib_to_dlp_trans (transb x)) (ldb x)) as [rs_b cs_b].
  split.
  - intros [p [Hi%negb_false_iff [Hn [Hv [Hr%negb_false_iff [[ta tb] [Ht [l [Hl _]]%bind_value]]%bind_value]
      %fail_if_value]%check_args_value]%fail_if_value]%fail_if_value].
    do 4 (split; [done|]). split; [by exists (ta, tb)|by exists l].
  - intros (Hi & Hn & Hv & Hr & [[ta tb] Ht] & [l Hl]). eexists.
    apply fail_if_value. rewrite Hi. split; [done|]. apply fail_if_value. split; [done|].
    apply check_args_value. split; [done|]. apply fail_if_value. rewrite Hr. split; [done|].
    apply bind_value. exists (ta, tb). split; [done|]. apply bind_value. by exists l.
Qed.

(** C28. Which calls the s8 x s8 entry points take up, exactly: the processor has
    AVX512-VNNI, the arguments are valid, the post-ops translate, A is not reordered,
    and a column-major call has no post-ops and no reordered B.  The u8 x s8 entry
    points take up, besides, no column-major call. *)
Theorem accepted_calls_exact (env : api_env) (x : gemm_args) (metadata : option api_metadata)
    (garbage : list dlp_gemm_post_op) :
  let common := avx512vnni env = true /\ args_valid x /\ translates x metadata garbage /\
                asks_reordered (mem_format_a x) = false in
  ((exists p, s8s8s32_prepare env x metadata garbage = Value p) <->
   common /\ (col_stored (order x) = true ->
     asks_reordered (mem_format_b x) = false /\
     forall md, metadata = Some md -> PostOpTypes.seq_length (am_ops md) <= 0)) /\
  (forall needs_bf16, (exists p, u8s8s32_prepare needs_bf16 env x metadata garbage = Value p) <->
   common /\ row_stored (order x) = true /\ (needs_bf16 = true -> avx512bf16 env = true)).
Proof.
  cbn zeta. split; [rewrite <- translate_value|intros needs].
  - rewrite s8s8s32_prepare_value.
    destruct (decide (args_valid x)) as [Hv|]; [|naive_solver].
    pose proof (gv_chars _ _ _ _ _ _ _ _ _ _ _ _ _ _ Hv) as (Ho & _).
    destruct (order_cases _ Ho) as [[-> ->]|[-> ->]]; rewrite s8_tags_value by done; cbn [andb].
    + naive_solver.
    + rewrite no_post_ops. naive_solver.
  - rewrite <- translate_value, u8s8s32_prepare_value, u8_tags_value, andb_false_iff, negb_false_iff.
    destruct needs; naive_solver.
Qed.
