(* ===== verification/ApiResult.v ===== *)
(** * From the arguments of an entry point to the elements of C

    [aocl_gemm_s8s8s32os32] and [aocl_gemm_u8s8s32os32], composed: the checks, the
    translation and the launch of [Api], the team of [ThreadDecor], the driver of
    [GemmDriver] on every thread, the actions of the threads interleaved in
    [TeamMachine], and the kernels by their contract. *)
From S2P Require Import Prelude Word DlpTypes PostOpTypes PostOps Config Runtime GetThreading.
From S2P Require Import ThreadUtils ThreadDecor ByteStore ReorderLayout Reorder GemmCheck KernelSelect.
From Stdlib Require Import Ascii.
From stdpp Require Import strings.
From S2P Require Import GemmDriver TeamMachine TeamCorrect GemmCalls ReorderedTeam PackedTeam GemvTeam.
From S2P Require Import RefKernels GemmResult Api.
#[local] Open Scope Z_scope.

(** The team of a launch, at its start: every call runs the driver on the prepared
    arguments and the translated post-ops, with the tags it was handed; [packb_strides] are
    those the packing kernel reports. *)
Definition launch_team (signed : bool) (packb_strides : Z -> Z -> Z * Z) (x : gemm_args) (L : api_launch)
    (post_op_list : list dlp_gemm_post_op) (C : Z -> Z) : option team_state :=
  let d := al_args L in
  ths ← mapM (fun c => start_thread
      (rowvar signed (al_cntx L) packb_strides (m_use d) (n_use d) (k_use d) (rs_a_use d) (cs_a_use d)
         (call_mtag_a c) (rs_b_use d) (cs_b_use d) (call_mtag_b c) (rs_c_use d) (cs_c_use d) (arg_beta x) DLP_S32
         post_op_list) c)
    (launch_calls (al_launch L));
  Some (mk_team_state ths (fun _ => None) C).

Lemma entry_value `{KernelFrame} env prepare sfx op k_dtype c_downscale x metadata g tl L g' tl' :
  gemm_entry env prepare sfx op k_dtype c_downscale x metadata g tl = (Value L, g', tl') ->
  exists d l r, prepare = Value (d, l) /\
    launch_gemm env sfx op k_dtype c_downscale x metadata d l r = Value L.
Proof.
  unfold gemm_entry. destruct prepare as [| |[d l]]; [done|done|].
  destruct (run _ g tl) as [[r g2] tl2]. intros H'. simplify_eq. eauto.
Qed.

(** How many post-ops the caller asks for. *)
Definition post_op_count (metadata : option api_metadata) : Z :=
  from_option (fun md => PostOpTypes.seq_length (am_ops md)) 0 metadata.

(** The post-ops of a prepared call: they work element by element, and a column-major call
    has none. *)
Definition ops_ready (x : gemm_args) (metadata : option api_metadata) (garbage : list dlp_gemm_post_op)
    (d : driver_args) (l : list dlp_gemm_post_op) : Prop :=
  translate_post_ops x metadata garbage = Value l /\ elementwise l = true /\
  (swapped d = true -> post_ops_disabled l = true) /\ (post_op_count metadata <= 0 -> post_ops_disabled l = true).

Lemma translated_ready x metadata garbage l :
  length garbage = 8%nat -> translate_post_ops x metadata garbage = Value l ->
  elementwise l = true /\
  (post_op_count metadata <= 0 -> post_ops_disabled l = true).
Proof.
  intros Hg. unfold translate_post_ops, translate_post_ops_in.
  destruct (dlp_gemm_translate_to_post_ops_list _ _ _ _ _) as [[err l']|] eqn:E; [|done].
  cbn. unfold check. case_bool_decide as He; [|done]. subst err. intros [= <-].
  destruct (translated_head _ garbage _ _ _ _ ltac:(lia) E) as [Hglu Hdis]. unfold elementwise. rewrite Hglu.
  split; [done|]. intros Hs. unfold post_ops_disabled. destruct l' as [|op l']; [done|].
  assert (head (op :: l') = Some disable_node) as [= ->] by (apply Hdis; by destruct metadata). done.
Qed.

Lemma s8s8s32_prepare_ops env x metadata garbage d l :
  length garbage = 8%nat -> s8s8s32_prepare env x metadata garbage = Value (d, l) ->
  ops_ready x metadata garbage d l.
Proof.
  intros Hg. unfold s8s8s32_prepare. destruct (strides_of _ (lda x)), (strides_of _ (ldb x)).
  rewrite fail_if_value, check_args_value, fail_if_value. intros (_ & _ & Hcol & Hp).
  destruct (s8s8s32_tags _ _ _ _ _ _) as [| |[ta tb]]; [done..|]. cbn in Hp.
  destruct (translate_post_ops x metadata garbage) as [| |l'] eqn:E; [done..|]. injection Hp as <- <-.
  destruct (translated_ready _ _ _ _ Hg E) as [He Hd]. split; [exact E|]. split; [done|]. split; [|exact Hd].
  destruct (is_char (order x) "c" "C"); [|done]. intros _. apply Hd. cbn [andb] in Hcol.
  destruct metadata as [md|]; cbn in *; [by apply Z.ltb_ge|done].
Qed.

Lemma u8s8s32_prepare_ops b env x metadata garbage d l :
  length garbage = 8%nat -> u8s8s32_prepare b env x metadata garbage = Value (d, l) ->
  ops_ready x metadata garbage d l.
Proof.
  intros Hg. unfold u8s8s32_prepare. destruct (strides_of _ (lda x)), (strides_of _ (ldb x)).
  rewrite !fail_if_value, check_args_value, fail_if_value. intros (_ & _ & _ & _ & Hp).
  destruct (u8s8s32_tags _ _ _) as [| |[ta tb]]; [done..|]. cbn in Hp.
  destruct (translate_post_ops x metadata garbage) as [| |l'] eqn:E; [done..|]. injection Hp as <- <-.
  destruct (translated_ready _ _ _ _ Hg E) as [He Hd]. by split_and!.
Qed.

(** The two calls. *)
Definition int8_call `{KernelFrame} (signed : bool) :=
  if signed then aocl_gemm_s8s8s32os32 else aocl_gemm_u8s8s32os32.
Definition int8_op (signed : bool) : AOCL_DLP_OPERATION_TYPE := if signed then S8S8S32OS32 else U8S8S32OS32.

(** Such a call has a prepared driver, and launched it; u8 calls are by rows. *)
Lemma int8_call_launched `{KernelFrameLaws} signed env x metadata garbage g tl L g' tl' :
  env_ready env (int8_op signed) -> length garbage = 8%nat -> metadata_ok metadata ->
  int8_call signed env x metadata garbage g tl = (Value L, g', tl') ->
  driver_ready x (al_args L) /\ (signed = false -> swapped (al_args L) = false) /\
  blksz_pos (blksz (al_cntx L)) /\
  (1 < m_use (al_args L) -> 1 < n_use (al_args L) ->
   let b := blksz (al_cntx L) in blocks_checked (NR b) 16 (NC b) (KC b) 4) /\
  (exists ic jc, team_launch ic jc (mtag_a_use (al_args L)) (mtag_b_use (al_args L)) (al_launch L)) /\
  exists l, ops_ready x metadata garbage (al_args L) l.
Proof.
  intros Henv Hg Hmd Hcall. destruct signed; apply entry_value in Hcall as (d & l & r & Hp & HL).
  - pose proof (s8s8s32_prepare_ops _ _ _ _ _ _ Hg Hp) as Ho. pose proof (s8s8s32_prepare_answers env x metadata garbage Hg Hmd) as Hd. rewrite Hp in Hd.
    destruct Hd as [Hd _]. cbn [fst] in Hd.
    pose proof (launch_answers env s8s8s32o32 S8S8S32OS32 DLP_KERNEL_S8S8S32OS32 DLP_S32 x metadata d l r
      Henv ltac:(done) Hd) as Hl. rewrite HL in Hl. destruct Hl as [-> Hpos Hblk Hteam].
    split_and!; try done; [by apply Hblk|by exists l].
  - pose proof (u8s8s32_prepare_ops _ _ _ _ _ _ _ Hg Hp) as Ho. pose proof (u8s8s32_prepare_answers false env x metadata garbage Hg Hmd) as Hd. rewrite Hp in Hd.
    destruct Hd as [[Hd _] Hrow]. cbn [fst] in Hd.
    pose proof (launch_answers env u8s8s32o32 U8S8S32OS32 DLP_KERNEL_U8S8S32OS32 DLP_S32 x metadata d l r
      Henv ltac:(done) Hd) as Hl. rewrite HL in Hl. destruct Hl as [-> Hpos Hblk Hteam].
    split_and!; try done; [|by apply Hblk|by exists l]. intros _. rewrite (dr_swapped _ _ Hd). by apply row_not_col.
Qed.

(** What A and B are: the elements of the caller's arrays, B reordered where the caller
    says so. *)
Definition load_a (signed : bool) (mem : Z -> Z) (o : Z) : Z := if signed then load_i8 mem o else mem o mod 2 ^ 8.

Definition caller_A (signed : bool) (x : gemm_args) (Am : Z -> Z) (i p : Z) : Z :=
  load_a signed Am (element_index (order x) (transa x) (lda x) i p).

Definition caller_B (signed : bool) (lcntx : dlp_gemm_cntx_t) (x : gemm_args) (Bm : Z -> Z) (B : Z -> Z -> Z) : Prop :=
  if asks_reordered (mem_format_b x)
  then if arg_n x =? 1 then reordered_column signed Bm (arg_k x) B
       else reordered_B signed lcntx (arg_n x) (arg_k x) Bm B
  else forall p j, 0 <= p < arg_k x -> 0 <= j < arg_n x ->
       B p j = load_i8 Bm (element_index (order x) (transb x) (ldb x) p j).

(** The arrays the driver is given as its A and its B. *)
Definition driver_A (signed : bool) (d : driver_args) (Am Bm : Z -> Z) : Z -> Z :=
  load_a signed (if swapped d then Bm else Am).
Definition driver_B (d : driver_args) (Am Bm : Z -> Z) : Z -> Z := if swapped d then Am else Bm.

(** What a team computes that runs the driver on arguments that are ready. *)
Lemma ready_team_product (signed : bool) (lcntx : dlp_gemm_cntx_t) (x : gemm_args) (d : driver_args)
    (packb_strides : Z -> Z -> Z * Z) (ops : list dlp_gemm_post_op) (Am Bm : Z -> Z) (B : Z -> Z -> Z) (K : kernels)
    (fresh C0 : Z -> Z) (ic jc comm : Z) (calls : list gemm_call) :
  let b := blksz lcntx in
  driver_ready x d -> (signed = false -> swapped d = false) -> blksz_pos b ->
  elementwise ops = true -> (swapped d = true -> post_ops_disabled ops = true) ->
  (1 < m_use d -> 1 < n_use d -> blocks_checked (NR b) 16 (NC b) (KC b) 4) ->
  (m_use d = 1 -> 1 < n_use d -> blocks_checked (NR b) 16 (NC b) (KC b) 4) ->
  kernel_laws signed lcntx (driver_A signed d Am Bm) (rs_a_use d) (cs_a_use d)
    (driver_B d Am Bm) (rs_b_use d) (cs_b_use d) (arg_alpha x) K ->
  caller_B signed lcntx x Bm B ->
  1 <= ic -> 1 <= jc -> full_team ic jc comm calls ->
  exists st0,
    start_team (rowvar signed lcntx packb_strides (m_use d) (n_use d) (k_use d) (rs_a_use d) (cs_a_use d)
      (mtag_a_use d) (rs_b_use d) (cs_b_use d) (mtag_b_use d) (rs_c_use d) (cs_c_use d) (arg_beta x) DLP_S32 ops)
      calls C0 = Some st0 /\
    team_ends signed lcntx (kind_of (m_use d) (n_use d)) (driver_A signed d Am Bm) (driver_B d Am Bm) K fresh
      st0 (fun st => forall i j, 0 <= i < arg_m x -> 0 <= j < arg_n x ->
        let c := element_index (order x) "n" (ldc x) i j in
        st_C st c = finish (epilogue K) ops i j (to_i32 (arg_beta x * C0 c +
          arg_alpha x * zsum (fun p => caller_A signed x Am i p * B p j) 0 (arg_k x)))).
Proof.
  intros b [Hsw [Hdim Hk] (Hm & Hn & Hkp) [Hta Htb] Hcs Hpk [Htag Hre] Hia Hib (Hrs & _ & Hicx)]
    Hu8 Hpos Hops Hdis Hblk Hrow HK HB Hic Hjc Hteam.
  set (B1 := if swapped d then (fun p j => load_i8 Am (rs_b_use d * p + cs_b_use d * j)) else B).
  destruct (int8_gemm_team_runs signed lcntx packb_strides (driver_A signed d Am Bm) (rs_a_use d) (cs_a_use d)
    (driver_B d Am Bm) (rs_b_use d) (cs_b_use d) (arg_alpha x) K fresh (m_use d) (n_use d) (k_use d)
    (mtag_a_use d) (mtag_b_use d) (rs_c_use d) (cs_c_use d) (arg_beta x) ops B1 ic jc comm calls C0)
    as (st0 & E & Hends); try done; try (subst b; destruct Hpos; lia).
  { intros Hn1. destruct (decide (m_use d = 1)); [apply Hrow|apply Hblk]; lia. }
  { unfold A_given. destruct Hta as [Et|Et]; [left|right]; (split; [done|]).
    - apply Hcs. by rewrite Et.
    - destruct (Hpk Et). split; [done|]. destruct (decide (m_use d = 1)); [by left|right; lia]. }
  { unfold B_given, B1, driver_B. unfold caller_B in HB. rewrite Htag. destruct (swapped d) eqn:Es.
    - destruct (asks_reordered (mem_format_b x)) eqn:Ea; [by specialize (Hre eq_refl)|]. by left.
    - injection Hdim as Em En. rewrite Hk, En. destruct (asks_reordered (mem_format_b x)).
      + by right.
      + left. split; [done|]. intros p j Hp Hj. by rewrite HB, Hib. }
  exists st0. split; [exact E|].
  eapply team_ends_impl; [|exact Hends]. intros st Hst i j Hi Hj c. subst c. unfold caller_A, B1 in *.
  unfold driver_A in Hst. rewrite Hk in Hst. unfold caller_B in HB. destruct (swapped d) eqn:Es.
  - injection Hdim as Em En. destruct signed; [|by specialize (Hu8 eq_refl)].
    rewrite <- Hicx, (Hst j i) by lia. unfold finish. rewrite Hdis by done. do 3 f_equal. apply zsum_ext. intros p Hp.
    destruct (asks_reordered (mem_format_b x)); [by specialize (Hre eq_refl)|].
    rewrite HB, Hia, Hib by lia. unfold load_a. lia.
  - injection Hdim as Em En. rewrite <- Hicx, (Hst i j) by lia. do 4 f_equal. apply zsum_ext. intros p Hp.
    by rewrite Hia.
Qed.

(** C1. An accepted call of [aocl_gemm_s8s8s32os32] or [aocl_gemm_u8s8s32os32] computes
    what its arguments ask for: row-major or column-major, A and B transposed or not, B
    plain or reordered, any shape and leading dimensions, with or without post-ops.  The
    team the call launches starts, and in every interleaving of its threads no action is
    undefined, no thread is stuck at a barrier, every run ends, and at the end the
    element (i, j) of the caller's C is [beta * C + alpha * sum_p A(i, p) * B(p, j)] in
    [int32_t], with the post-ops of the call applied to it once; in a call without
    post-ops, as every accepted column-major call is, it is that value itself.
    Conditions: the kernels, and what the post-ops make of a value, enter by their contract, the
    kernel selection by its laws and a reordered B by its layout; a product with one row
    and more than one column needs blocks the packed layout supports, which the call does
    not check.
    Block sizes of the caller are taken not to overflow [md_t] ([merge_in_range]). *)
Theorem int8_os32_call_computes `{KernelFrameLaws} (signed : bool) (env : api_env) (x : gemm_args)
    (metadata : option api_metadata) (garbage : list dlp_gemm_post_op) (g g' : lib_state)
    (tl tl' : tl_state) (L : api_launch) (packb_strides : Z -> Z -> Z * Z)
    (Am Bm : Z -> Z) (B : Z -> Z -> Z) (K : kernels) (fresh C0 : Z -> Z) :
  let d := al_args L in let b := blksz (al_cntx L) in
  env_ready env (int8_op signed) -> length garbage = 8%nat -> metadata_ok metadata ->
  int8_call signed env x metadata garbage g tl = (Value L, g', tl') ->
  (m_use d = 1 -> 1 < n_use d -> blocks_checked (NR b) 16 (NC b) (KC b) 4) ->
  kernel_laws signed (al_cntx L) (driver_A signed d Am Bm) (rs_a_use d) (cs_a_use d)
    (driver_B d Am Bm) (rs_b_use d) (cs_b_use d) (arg_alpha x) K ->
  caller_B signed (al_cntx L) x Bm B ->
  exists post_op_list st0,
    translate_post_ops x metadata garbage = Value post_op_list /\
    (col_stored (order x) = true \/ post_op_count metadata <= 0 -> post_ops_disabled post_op_list = true) /\
    launch_team signed packb_strides x L post_op_list C0 = Some st0 /\
    team_ends signed (al_cntx L) (kind_of (m_use d) (n_use d)) (driver_A signed d Am Bm) (driver_B d Am Bm) K fresh
      st0 (fun st => forall i j, 0 <= i < arg_m x -> 0 <= j < arg_n x ->
        let c := element_index (order x) "n" (ldc x) i j in
        st_C st c = finish (epilogue K) post_op_list i j (to_i32 (arg_beta x * C0 c +
          arg_alpha x * zsum (fun p => caller_A signed x Am i p * B p j) 0 (arg_k x)))).
Proof.
  intros d b Henv Hg Hmd Hcall Hrow HK HB.
  destruct (int8_call_launched signed env x metadata garbage g tl L g' tl' Henv Hg Hmd Hcall)
    as (Hd & Hu8 & Hpos & Hblk & (ic & jc & Hic & Hjc & Hteam & _ & Hu) & l & Hl & Hel & Hsw & Hz).
  destruct (ready_team_product signed (al_cntx L) x d packb_strides l Am Bm B K fresh C0 ic jc 0
    (launch_calls (al_launch L))) as (st0 & E & Hends); try done.
  exists l, st0. split; [exact Hl|]. split.
  { intros [Hc|Hc]; [|by apply Hz]. apply Hsw. by rewrite (dr_swapped _ _ Hd). }
  split; [|exact Hends]. rewrite <- E. unfold launch_team, start_team. f_equal.
  apply mapM_ext_elem. intros c Hc. by destruct (Hu c Hc) as (-> & -> & _).
Qed.

(** ** Concrete calls *)

(** A column-major product with both operands transposed: the driver computes the
    transposed product, and packs both. *)
Definition example_args : gemm_args :=
  mk_gemm_args "c" "t" "t" 7 70 5 3 false 8 "n" false 75 "n" 2 false 9.

Definition example_Am (o : Z) : Z := (5 * o + 3) mod 256.
Definition example_Bm (o : Z) : Z := (7 * o + 1) mod 256.

(** A row-major product with both operands transposed and a ReLU behind it. *)
Definition relu_args : gemm_args :=
  mk_gemm_args "r" "t" "t" 7 70 5 3 false 8 "n" false 9 "n" 2 false 75.

Definition relu_metadata : api_metadata :=
  mk_api_metadata
    (mk_metadata None (Some [mk_eltwise None (mk_algo PNull PNull RELU DLP_F32)]) None None None 1 (Some [ELTWISE])
       None None None)
    (mk_blocking_md None None None).

Lemma relu_metadata_ok : metadata_ok (Some relu_metadata).
Proof. intros md ops [= <-] [_ [= <-]]. split_and!; vm_compute; first [exact I|lia]. Defined.

(** Two elements of the result: one is cut off. *)
Lemma int8_os32_call_computes_witness :
  exists L g' tl' ops st0,
    aocl_gemm_s8s8s32os32 example_api_env relu_args (Some relu_metadata) example_garbage lib_init tl_init
      = (Value L, g', tl') /\
    launch_team true (fun _ _ => (256, 64)) relu_args L ops (fun o => o - 100) = Some st0 /\
    team_ends true (al_cntx L) K_gemm (load_i8 example_Am) example_Bm
      (ref_kernels true (al_cntx L) (load_i8 example_Am) 8 example_Bm 1 9 3) (fun _ => 9) st0 (fun st =>
        st_C st 0 = 4603 /\ st_C st 2 = 0).
Proof.
  destruct (aocl_gemm_s8s8s32os32 example_api_env relu_args (Some relu_metadata) example_garbage lib_init tl_init)
    as [[o g'] tl'] eqn:E.
  assert (exists L, o = Value L /\ blksz (al_cntx L) = mk_blksz 144 1024 2048 64 6 /\
    al_args L = mk_driver_args false 7 70 5 1 8 1 9 75 1 PACK PACK) as (L & -> & Eb & Ed).
  { change o with (o, g', tl').1.1. rewrite <- E. eexists. split; [|split]; vm_compute; reflexivity. }
  destruct (int8_os32_call_computes true example_api_env relu_args (Some relu_metadata) example_garbage lib_init g'
    tl_init tl' L (fun _ _ => (256, 64)) example_Am example_Bm (fun p j => load_i8 example_Bm (j * 9 + p))
    (ref_kernels true (al_cntx L) (load_i8 example_Am) 8 example_Bm 1 9 3) (fun _ => 9) (fun o => o - 100))
    as (ops & st0 & Hops & _ & Hst0 & Hends); [exact (proj1 example_env_ready)|reflexivity|exact relu_metadata_ok
    |exact E|by rewrite Ed|rewrite Ed; apply ref_kernels_laws; rewrite Eb; [done|by exists 4]|intros p j _ _; done|].
  rewrite Ed in Hends. exists L, g', tl', ops, st0. split; [reflexivity|]. split; [exact Hst0|].
  eapply team_ends_impl; [|exact Hends]. intros st Hst. vm_compute in Hops. injection Hops as <-.
  split; (etransitivity; [exact (Hst 0 0 ltac:(cbn; lia) ltac:(cbn; lia)) || exact (Hst 0 2 ltac:(cbn; lia) ltac:(cbn; lia))|
    vm_compute; reflexivity]).
Defined.
