(* ===== verification/ApiBatch.v ===== *)
(** * The 8-bit integer batch entry points
    (classic/aocl_batch_gemm_s8s8s32os32.c, aocl_batch_gemm_u8s8s32os32.c)

    A batch is a sequence of groups; the products of a group have the shape and the
    options in common and follow each other in the arrays of matrix pointers.  A call
    takes up the groups in order, until one is rejected. *)
From S2P Require Import Prelude Word DlpTypes PostOpTypes PostOps Config Runtime GetThreading.
From S2P Require Import ThreadUtils ThreadDecor ByteStore ReorderLayout Reorder GemmCheck KernelSelect.
From Stdlib Require Import Ascii.
From stdpp Require Import strings.
From S2P Require Import GemmDriver TeamMachine TeamCorrect GemmCalls ReorderedTeam PackedTeam GemvTeam.
From S2P Require Import RefKernels GemmResult Api ApiResult.
#[local] Open Scope Z_scope.

(** ** Arguments and results *)

(** The elements of the per-group arrays at one index: the options of the group, its
    number of products and its metadata.  The pointer flags of [bg_args] are not used:
    the pointers of the call are indexed by product. *)
Record batch_group := mk_batch_group {
  bg_args : gemm_args;
  bg_size : Z;
  bg_metadata : option api_metadata;
}.

(** The arrays of matrix pointers: a flag per product, is the pointer [NULL]? *)
Record batch_ptrs := mk_batch_ptrs { bp_a : list bool; bp_b : list bool; bp_c : list bool }.

(** A group that was launched: its place in the arrays of matrix pointers, the
    arguments of the driver, the context and what the decorator did. *)
Record group_launch := mk_group_launch {
  gl_mat_idx : Z;
  gl_args : driver_args;
  gl_cntx : dlp_gemm_cntx_t;
  gl_launch : batch_launch;
}.

(** What a call leaves: the stores of error codes, by group and in order, and the
    launches. *)
Record batch_result := mk_batch_result {
  br_stores : list (Z * dlp_clsc_err_t);
  br_launches : list group_launch;
}.

(** The code in the metadata of a group after the call, if it was written. *)
Definition group_status (stores : list (Z * dlp_clsc_err_t)) (gc_i : Z) : option dlp_clsc_err_t :=
  snd <$> last (filter (fun s => s.1 = gc_i) stores).

(** [for (gc_i = first; gc_i < group_count; gc_i++) DLP_METADATA_SET_ERROR(..., err)]. *)
Definition set_errors (first group_count : Z) (err : dlp_clsc_err_t) : list (Z * dlp_clsc_err_t) :=
  (fun gc_i => (gc_i, err)) <$> seqZ first (group_count - first).

Definition dlp_batch_mark_remaining_groups_failed (first_group group_count : Z) :=
  set_errors first_group group_count DLP_CLSC_FAILURE.

(** ** One group *)

(** The arguments with the pointers [a[gc_i]], [b[gc_i]] and [c[gc_i]]. *)
Definition with_ptrs (x : gemm_args) (a_null b_null c_null : bool) : gemm_args :=
  mk_gemm_args (order x) (transa x) (transb x) (arg_m x) (arg_n x) (arg_k x) (arg_alpha x)
    a_null (lda x) (mem_format_a x) b_null (ldb x) (mem_format_b x) (arg_beta x) c_null (ldc x).

(** Both check macros; a read past an array of pointers is undefined. *)
Definition batch_check (p : batch_ptrs) (group_count_idx gc_i mat_idx : Z) (grp : batch_group)
    : outcome gemm_args :=
  a_null ← or_undefined (bp_a p !! Z.to_nat gc_i);
  b_null ← or_undefined (bp_b p !! Z.to_nat gc_i);
  c_null ← or_undefined (bp_c p !! Z.to_nat gc_i);
  let x := with_ptrs (bg_args grp) a_null b_null c_null in
  let err_no := (AOCL_DLP_BATCH_GEMM_CHECK (order x) (transa x) (transb x) group_count_idx (bg_size grp)
    (arg_m x) (arg_n x) (arg_k x) (a_null) (lda x) (mem_format_a x) (b_null) (ldb x) (mem_format_b x)
    (c_null) (ldc x)).2 in
  err_no ← or_undefined
    (AOCL_DLP_BATCH_GEMM_MATRIX_PTR_CHECK (bp_a p) (bp_b p) (bp_c p) mat_idx (bg_size grp) err_no);
  check err_no ;; mret x.

(** The tags of the driver, s8 x s8, from those of the caller's A and B. *)
Definition s8s8s32_batch_tags (is_column_major trans_a trans_b : bool) (mem_a mem_b : AOCL_DLP_MEMORY_TAG)
    : outcome (AOCL_DLP_MEMORY_TAG * AOCL_DLP_MEMORY_TAG) :=
  '(mtag_a, mtag_b) ←
    (if is_column_major then
       let mtag_b := mem_a in
       let mtag_a := mem_b in
       fail_if (bool_decide (mtag_b = REORDERED) || bool_decide (mtag_a = REORDERED)) DLP_CLSC_NOT_SUPPORTED ;;
       let mtag_b := if bool_decide (mtag_b = PACK) then UNPACKED else mtag_b in
       mret (if trans_b then PACK else mtag_a, mtag_b)
     else
       let mtag_a := mem_a in
       let mtag_b := mem_b in
       fail_if (bool_decide (mtag_a = REORDERED)) DLP_CLSC_NOT_SUPPORTED ;;
       let mtag_a := if bool_decide (mtag_a = PACK) && negb trans_a then UNPACKED else mtag_a in
       mret (if trans_a then PACK else mtag_a, mtag_b));
  mret (mtag_a, if bool_decide (mtag_b = UNPACKED) then PACK else mtag_b).

(** From the post-ops to the arguments of the driver, s8 x s8.  [any_metadata]: the
    instance rejects a column-major group with any metadata, not only with post-ops. *)
Definition s8s8s32_batch_prepare (any_metadata : bool) (x : gemm_args) (metadata : option api_metadata)
    (garbage : list dlp_gemm_post_op) : outcome (driver_args * list dlp_gemm_post_op) :=
  post_op_list ← translate_post_ops x metadata garbage;
  let dlp_transa := dlp_param_map_netlib_to_dlp_trans (transa x) in
  let dlp_transb := dlp_param_map_netlib_to_dlp_trans (transb x) in
  let is_column_major := is_char (order x) "c" "C" in
  fail_if (is_column_major &&
    from_option (fun md => any_metadata || (0 <? PostOpTypes.seq_length (am_ops md))) false metadata)
    DLP_CLSC_NOT_SUPPORTED ;;
  '(mtag_a, mtag_b) ← s8s8s32_batch_tags is_column_major (dlp_is_trans dlp_transa) (dlp_is_trans dlp_transb)
    (dlp_param_map_char_to_lpmtag (mem_format_a x)) (dlp_param_map_char_to_lpmtag (mem_format_b x));
  mret (if is_column_major then
          let '(rs_a, cs_a) := strides_of dlp_transb (ldb x) in
          let '(rs_b, cs_b) := strides_of dlp_transa (lda x) in
          mk_driver_args true (arg_n x) (arg_m x) (arg_k x) rs_a cs_a rs_b cs_b (ldc x) 1 mtag_a mtag_b
        else
          let '(rs_a, cs_a) := strides_of dlp_transa (lda x) in
          let '(rs_b, cs_b) := strides_of dlp_transb (ldb x) in
          mk_driver_args false (arg_m x) (arg_n x) (arg_k x) rs_a cs_a rs_b cs_b (ldc x) 1 mtag_a mtag_b,
        post_op_list).

(** u8 x s8.  [drops_pack]: the instance takes the request to pack an A that is not
    transposed for [UNPACKED]. *)
Definition u8s8s32_batch_tags (drops_pack trans_a : bool) (mtag_a mtag_b : AOCL_DLP_MEMORY_TAG)
    : outcome (AOCL_DLP_MEMORY_TAG * AOCL_DLP_MEMORY_TAG) :=
  fail_if (bool_decide (mtag_a = REORDERED)) DLP_CLSC_NOT_SUPPORTED ;;
  let mtag_a := if drops_pack && bool_decide (mtag_a = PACK) && negb trans_a then UNPACKED else mtag_a in
  let mtag_a := if trans_a then PACK else mtag_a in
  mret (mtag_a, if bool_decide (mtag_b = UNPACKED) then PACK else mtag_b).

Definition u8s8s32_batch_prepare (drops_pack : bool) (x : gemm_args) (metadata : option api_metadata)
    (garbage : list dlp_gemm_post_op) : outcome (driver_args * list dlp_gemm_post_op) :=
  post_op_list ← translate_post_ops x metadata garbage;
  let dlp_transa := dlp_param_map_netlib_to_dlp_trans (transa x) in
  let dlp_transb := dlp_param_map_netlib_to_dlp_trans (transb x) in
  fail_if (is_char (order x) "c" "C") DLP_CLSC_NOT_SUPPORTED ;;
  let '(rs_a, cs_a) := strides_of dlp_transa (lda x) in
  let '(rs_b, cs_b) := strides_of dlp_transb (ldb x) in
  '(mtag_a, mtag_b) ← u8s8s32_batch_tags drops_pack (dlp_is_trans dlp_transa)
    (dlp_param_map_char_to_lpmtag (mem_format_a x)) (dlp_param_map_char_to_lpmtag (mem_format_b x));
  mret (mk_driver_args false (arg_m x) (arg_n x) (arg_k x) rs_a cs_a rs_b cs_b (ldc x) 1 mtag_a mtag_b,
        post_op_list).

Section batch.
Context `{KernelFrame}.
Context (env : api_env) (seen : Z -> Z -> bool).
Context (prepare : gemm_args -> option api_metadata -> list dlp_gemm_post_op ->
  outcome (driver_args * list dlp_gemm_post_op)).
Context (sfx : gemm_sfx) (op : AOCL_DLP_OPERATION_TYPE) (k_dtype : kernel_datatype_t) (c_downscale : DLP_TYPE).

(** From the context of a group to its launch.  The context is a copy of the global
    one, whose [thread_info] is zero. *)
Definition batch_launch_group (x : gemm_args) (metadata : option api_metadata) (g_sz mat_idx : Z)
    (d : driver_args) (post_op_list : list dlp_gemm_post_op) (rntm_g : dlp_rntm_t) : outcome group_launch :=
  lcntx ← call_cntx env op metadata;
  check (dlp_gemm_validate_hints (Some lcntx)) ;;
  '(lcntx, _) ← settle_kernels k_dtype c_downscale x metadata true (mtag_a_use d) (mtag_b_use d) d
    post_op_list lcntx (mk_thread_info 0 0 0);
  let ops := Some (mk_ops (Some post_op_list)) in
  bl ← or_undefined
    (if openmp env
     then batch_dlp_gemm_openmp_thread_decorator (api_decor env) seen sfx g_sz (m_use d) (n_use d) (k_use d)
            [mtag_a_use d] [mtag_b_use d] rntm_g lcntx ops
     else batch_dlp_gemm_thread_decorator (api_decor env) sfx g_sz (m_use d) (n_use d) (k_use d)
            [mtag_a_use d] [mtag_b_use d] rntm_g lcntx);
  mret (mk_group_launch mat_idx d lcntx bl).

(** The body of the loop over the groups; [garbage gc_i] is the uninitialised local
    array of post-ops. *)
Definition batch_group_body (p : batch_ptrs) (garbage : Z -> list dlp_gemm_post_op)
    (group_count_idx gc_i mat_idx : Z) (grp : batch_group) (g : lib_state) (tl : tl_state) : outcome group_launch * lib_state * tl_state :=
  match (x ← batch_check p group_count_idx gc_i mat_idx grp;
         '(d, l) ← prepare x (bg_metadata grp) (garbage gc_i); mret (x, d, l)) with
  | Undefined => (Undefined, g, tl)
  | Error e => (Error e, g, tl)
  | Value (x, d, l) =>
      let '(rntm_g, g, tl) := run (dlp_rntm_init_from_global (api_rt env)) g tl in
      (batch_launch_group x (bg_metadata grp) (bg_size grp) mat_idx d l rntm_g, g, tl)
  end.

(** The loop from group [gc_i] on; [None] is undefined behaviour.  [idx_is_count]: the
    instance checks the number of groups, not the index of the group. *)
Fixpoint batch_loop (idx_is_count : bool) (p : batch_ptrs) (garbage : Z -> list dlp_gemm_post_op)
    (group_count : Z) (groups : list batch_group) (gc_i mat_idx : Z) (g : lib_state) (tl : tl_state)
    : option (batch_result * lib_state * tl_state) :=
  match groups with
  | [] => Some (mk_batch_result [] [], g, tl)
  | grp :: groups =>
      let '(o, g, tl) := batch_group_body p garbage (if idx_is_count then group_count else gc_i)
                           gc_i mat_idx grp g tl in
      match o with
      | Undefined => None
      | Error e =>
          Some (mk_batch_result ((gc_i, DLP_CLSC_SUCCESS) :: (gc_i, e) ::
                  dlp_batch_mark_remaining_groups_failed (gc_i + 1) group_count) [], g, tl)
      | Value l =>
          '(r, g, tl) ← batch_loop idx_is_count p garbage group_count groups (gc_i + 1)
                          (mat_idx + bg_size grp) g tl;
          Some (mk_batch_result ((gc_i, DLP_CLSC_SUCCESS) :: br_stores r) (l :: br_launches r), g, tl)
      end
  end.

(** A call.  [array_nulls] and [metadata_null]: which of the arrays are [NULL]; the
    arrays by group have [group_count] elements (a negative count is an empty call). *)
Definition batch_entry (idx_is_count : bool) (array_nulls : list bool) (metadata_null : bool)
    (p : batch_ptrs) (groups : list batch_group) (garbage : Z -> list dlp_gemm_post_op)
    (g : lib_state) (tl : tl_state) : option (batch_result * lib_state * tl_state) :=
  let group_count := Z.of_nat (length groups) in
  match AOCL_DLP_BATCH_GEMM_NULL_ARGS_CHECK array_nulls group_count metadata_null with
  | Some n => Some (mk_batch_result (set_errors 0 n DLP_CLSC_NULL_POINTER) [], g, tl)
  | None =>
      if negb (avx512vnni env)
      then Some (mk_batch_result (set_errors 0 group_count DLP_CLSC_NOT_SUPPORTED ++
                   dlp_batch_mark_remaining_groups_failed group_count group_count) [], g, tl)
      else batch_loop idx_is_count p garbage group_count groups 0 0 g tl
  end.
End batch.

(** ** The entry points *)
Section entries.
Context `{KernelFrame}.
Context (env : api_env) (seen : Z -> Z -> bool).

Definition s8s8s32_batch (any_metadata : bool) :=
  batch_entry env seen (s8s8s32_batch_prepare any_metadata) s8s8s32o32 S8S8S32OS32.
Definition u8s8s32_batch (drops_pack : bool) :=
  batch_entry env seen (u8s8s32_batch_prepare drops_pack) u8s8s32o32 U8S8S32OS32.

Definition aocl_batch_gemm_s8s8s32os32 := s8s8s32_batch true DLP_KERNEL_S8S8S32OS32 DLP_S32 true.
Definition aocl_batch_gemm_s8s8s32os8 := s8s8s32_batch true DLP_KERNEL_S8S8S32OS8 DLP_S8 true.
Definition aocl_batch_gemm_s8s8s32of32 := s8s8s32_batch false DLP_KERNEL_S8S8S32OF32 DLP_F32 true.
Definition aocl_batch_gemm_s8s8s32obf16 := s8s8s32_batch true DLP_KERNEL_S8S8S32OBF16 DLP_BF16 true.
Definition aocl_batch_gemm_s8s8s32ou8 := s8s8s32_batch true DLP_KERNEL_S8S8S32OU8 DLP_U8 true.

Definition aocl_batch_gemm_u8s8s32os32 := u8s8s32_batch true DLP_KERNEL_U8S8S32OS32 DLP_S32 true.
Definition aocl_batch_gemm_u8s8s32os8 := u8s8s32_batch true DLP_KERNEL_U8S8S32OS8 DLP_S8 false.
Definition aocl_batch_gemm_u8s8s32of32 := u8s8s32_batch true DLP_KERNEL_U8S8S32OF32 DLP_F32 false.
Definition aocl_batch_gemm_u8s8s32obf16 := u8s8s32_batch false DLP_KERNEL_U8S8S32OBF16 DLP_BF16 false.
Definition aocl_batch_gemm_u8s8s32ou8 := u8s8s32_batch true DLP_KERNEL_U8S8S32OU8 DLP_U8 false.
End entries.

(** ** The checks of a group *)

(** The arguments of a group whose pointers are not [NULL]. *)
Definition group_args (grp : batch_group) : gemm_args := with_ptrs (bg_args grp) false false false.

(** The products of some groups. *)
Definition total_size (groups : list batch_group) : Z :=
  foldr (fun grp s => Z.max 0 (bg_size grp) + s) 0 groups.

Lemma total_size_nonneg groups : 0 <= total_size groups.
Proof. unfold total_size. induction groups; cbn [foldr]; lia. Qed.

Definition ptrs_length (p : batch_ptrs) (n : Z) : Prop :=
  n <= Z.of_nat (length (bp_a p)) /\ n <= Z.of_nat (length (bp_b p)) /\ n <= Z.of_nat (length (bp_c p)).

(** The pointers of products [from .. from + len - 1] are not [NULL]. *)
Definition ptrs_set (p : batch_ptrs) (from len : Z) : Prop :=
  forall i, from <= i < from + len ->
    bp_a p !! Z.to_nat i = Some false /\ bp_b p !! Z.to_nat i = Some false /\ bp_c p !! Z.to_nat i = Some false.

Lemma ptrs_lookup p n i :
  ptrs_length p n -> 0 <= i < n ->
  is_Some (bp_a p !! Z.to_nat i) /\ is_Some (bp_b p !! Z.to_nat i) /\ is_Some (bp_c p !! Z.to_nat i).
Proof. intros (? & ? & ?) ?. split_and!; apply lookup_lt_is_Some_2; lia. Qed.

Lemma batch_check_answers p idx gc_i mat_idx grp n :
  ptrs_length p n -> 0 <= gc_i < n -> 0 <= mat_idx -> mat_idx + Z.max 0 (bg_size grp) <= n ->
  answers (fun x => x = group_args grp /\ args_valid x /\ 1 <= bg_size grp /\ ptrs_set p mat_idx (bg_size grp))
    (batch_check p idx gc_i mat_idx grp).
Proof.
  intros Hp Hi Hm Hn. unfold batch_check.
  destruct (ptrs_lookup p n gc_i Hp Hi) as ([an Ea] & [bn Eb] & [cn Ec]).
  apply (answers_or_undefined _ an); [done|]. apply (answers_or_undefined _ bn); [done|].
  apply (answers_or_undefined _ cn); [done|]. cbn zeta.
  set (x := with_ptrs (bg_args grp) an bn cn).
  set (err := (AOCL_DLP_BATCH_GEMM_CHECK _ _ _ _ _ _ _ _ _ _ _ _ _ _ _ _).2).
  unfold AOCL_DLP_BATCH_GEMM_MATRIX_PTR_CHECK. case_bool_decide as Herr.
  - pose proof (proj1 (batch_check_spec _ _ _ _ _ _ _ _ _ _ _ _ _ _ _ _) Herr) as (Hv & Hs & _).
    destruct (matrix_ptr_loop_spec (Z.to_nat (bg_size grp)) (bp_a p) (bp_b p) (bp_c p) (Z.to_nat mat_idx))
      as (e & He & Hok).
    { intros i Hr. rewrite <- (Nat2Z.id i). apply (ptrs_lookup p n); [done|lia]. }
    rewrite Herr.
    apply (answers_or_undefined _ e); [exact He|]. apply answers_check. intros Hes.
    pose proof (proj1 Hok Hes) as Hset.
    destruct (gv_ptrs _ _ _ _ _ _ _ _ _ _ _ _ _ _ Hv) as (-> & -> & ->).
    split_and!; [done|exact Hv|lia|]. intros i Hir. apply Hset. lia.
  - apply (answers_or_undefined _ err); [done|]. apply answers_check. done.
Qed.

(** ** The arguments of the driver *)

Definition asks_pack (c : ascii) : bool := bool_decide (dlp_param_map_char_to_lpmtag c = PACK).

(** The calls in which the request to pack the operand the driver reads by rows is not
    dropped: the driver would pack a matrix that already has contiguous rows. *)
Definition s8_keeps_pack (x : gemm_args) : bool := col_stored (order x) && asks_pack (mem_format_b x).
Definition u8_keeps_pack (drops_pack : bool) (x : gemm_args) : bool := negb drops_pack && asks_pack (mem_format_a x).

Definition pack_a (keeps : bool) (d : driver_args) : driver_args :=
  if keeps then mk_driver_args (swapped d) (m_use d) (n_use d) (k_use d) (rs_a_use d) (cs_a_use d) (rs_b_use d)
    (cs_b_use d) (rs_c_use d) (cs_c_use d) PACK (mtag_b_use d) else d.

Lemma check_args_ok x : args_valid x -> check_args x = Value tt.
Proof.
  intros Hv. unfold check_args, check. rewrite (proj2 (gemm_check_spec _ _ _ _ _ _ _ _ _ _ _ _ _ _) Hv).
  done.
Qed.

Lemma s8_batch_tags_single (col trans_a trans_b : bool) mem_a mem_b da db :
  (mem_a = UNPACKED \/ mem_a = PACK \/ mem_a = REORDERED) -> (mem_b = UNPACKED \/ mem_b = PACK \/ mem_b = REORDERED) ->
  s8s8s32_batch_tags col trans_a trans_b mem_a mem_b = Value (da, db) <->
  exists ta tb, s8s8s32_tags (negb col) col trans_a trans_b mem_a mem_b = Value (ta, tb) /\
    (da, db) = (if col then (if bool_decide (mem_b = PACK) then PACK else tb, ta) else (ta, tb)).
Proof. intros [->|[->| ->]] [->|[->| ->]]; destruct col, trans_a, trans_b; vm_compute; naive_solver. Qed.

Lemma u8_batch_tags_single (drops trans_a : bool) mem_a mem_b da db :
  (mem_a = UNPACKED \/ mem_a = PACK \/ mem_a = REORDERED) ->
  u8s8s32_batch_tags drops trans_a mem_a mem_b = Value (da, db) <->
  exists ta, u8s8s32_tags trans_a mem_a mem_b = Value (ta, db) /\
    da = (if negb drops && bool_decide (mem_a = PACK) then PACK else ta).
Proof. intros [->|[->| ->]]; destruct drops, trans_a, mem_b; vm_compute; naive_solver. Qed.

(** Where a batch group and a single call differ: the request to pack, and metadata
    without post-ops in a column-major group. *)
Lemma s8_batch_prepare_single any env x metadata garbage d l :
  avx512vnni env = true -> args_valid x ->
  s8s8s32_batch_prepare any x metadata garbage = Value (d, l) <->
  exists d0, s8s8s32_prepare env x metadata garbage = Value (d0, l) /\ d = pack_a (s8_keeps_pack x) d0 /\
    (any = true -> col_stored (order x) = true -> metadata = None).
Proof.
  intros Hi Hv. unfold s8s8s32_batch_prepare, s8s8s32_prepare, s8_keeps_pack, asks_pack.
  rewrite Hi, (check_args_ok x Hv). fold (row_stored (order x)) (col_stored (order x)).
  destruct (strides_of (dlp_param_map_netlib_to_dlp_trans (transa x)) (lda x)) as [rs_a cs_a].
  destruct (strides_of (dlp_param_map_netlib_to_dlp_trans (transb x)) (ldb x)) as [rs_b cs_b].
  pose proof (gv_chars _ _ _ _ _ _ _ _ _ _ _ _ _ _ Hv) as (Ho & _).
  rewrite (col_not_row _ Ho). set (col := negb (row_stored (order x))).
  replace (row_stored (order x)) with (negb col) by apply negb_involutive.
  assert (col && from_option (fun md => any || (0 <? PostOpTypes.seq_length (am_ops md))) false metadata = false <->
    col && from_option (fun md => 0 <? PostOpTypes.seq_length (am_ops md)) false metadata = false /\
    (any = true -> col = true -> metadata = None)) as Hmd by (destruct col, any, metadata; cbn; naive_solver).
  clearbody col. split.
  - intros (l0 & HT & [Hg%Hmd ([da db] & Htags & E)%bind_value]%fail_if_value)%bind_value.
    apply s8_batch_tags_single in Htags as (ta & tb & Htags & Et); [|apply lpmtag_cases..].
    eexists. split; [|split; [|apply Hg]].
    + apply fail_if_value. split; [done|]. apply bind_value. exists tt. split; [done|].
      apply fail_if_value. split; [apply Hg|]. apply bind_value. exists (ta, tb). split; [done|].
      apply bind_value. exists l0. split; [done|]. injection E as _ <-. reflexivity.
    + unfold pack_a. injection E as <- <-. destruct col; simplify_eq/=; [|done]. by case_bool_decide.
  - intros (d0 & [_ (_ & _ & [Hg ([ta tb] & Htags & (l0 & HT & E)%bind_value)%bind_value]%fail_if_value)%bind_value]
      %fail_if_value & -> & Hany).
    apply bind_value. exists l0. split; [done|]. apply fail_if_value. split; [by apply Hmd|].
    destruct (if col then (if bool_decide (dlp_param_map_char_to_lpmtag (mem_format_b x) = PACK) then PACK else tb, ta)
      else (ta, tb)) as [da db] eqn:Ed.
    apply bind_value. exists (da, db). split.
    + apply s8_batch_tags_single; [apply lpmtag_cases..|]. eauto.
    + unfold pack_a. injection E as <- <-. destruct col; simplify_eq/=; [|done]. by case_bool_decide.
Qed.

Lemma u8_batch_prepare_single drops env x metadata garbage d l :
  avx512vnni env = true -> args_valid x ->
  u8s8s32_batch_prepare drops x metadata garbage = Value (d, l) <->
  exists d0, u8s8s32_prepare false env x metadata garbage = Value (d0, l) /\
    d = pack_a (u8_keeps_pack drops x) d0.
Proof.
  intros Hi Hv. unfold u8s8s32_batch_prepare, u8s8s32_prepare, u8_keeps_pack, asks_pack.
  rewrite Hi, (check_args_ok x Hv). fold (row_stored (order x)) (col_stored (order x)).
  destruct (strides_of (dlp_param_map_netlib_to_dlp_trans (transa x)) (lda x)) as [rs_a cs_a].
  destruct (strides_of (dlp_param_map_netlib_to_dlp_trans (transb x)) (ldb x)) as [rs_b cs_b].
  pose proof (gv_chars _ _ _ _ _ _ _ _ _ _ _ _ _ _ Hv) as (Ho & _). rewrite (col_not_row _ Ho). split.
  - intros (l0 & HT & [Hr ([da db] & Htags & E)%bind_value]%fail_if_value)%bind_value.
    apply u8_batch_tags_single in Htags as (ta & Htags & Et); [|apply lpmtag_cases].
    injection E as <- <-. eexists. split.
    + do 2 (apply fail_if_value; split; [done|]). apply bind_value. exists tt. split; [done|].
      apply fail_if_value. split; [done|]. apply bind_value. exists (ta, db). split; [done|].
      apply bind_value. exists l0. split; [done|]. reflexivity.
    + unfold pack_a. rewrite Et. by destruct (_ && _).
  - intros (d0 & [_ [_ (_ & _ & [Hr ([ta tb] & Htags & (l0 & HT & E)%bind_value)%bind_value]%fail_if_value)%bind_value]
      %fail_if_value]%fail_if_value & ->).
    apply bind_value. exists l0. split; [done|]. apply fail_if_value. split; [done|].
    apply bind_value. eexists (_, tb). split.
    + apply u8_batch_tags_single; [apply lpmtag_cases|]. eauto.
    + unfold pack_a. injection E as <- <-. by destruct (_ && _).
Qed.

(** ** The launch of a group *)

(** What the decorator of a group of [g_sz] products of [m x n] does: a complete team
    for each, whose threads all see the same tags. *)
Record group_team (g_sz m n : Z) (ta tb : AOCL_DLP_MEMORY_TAG) (bl : batch_launch) : Prop := mk_group_team {
  gt_ok : batch_launch_ok g_sz m n bl;
  gt_ways : 1 <= b_ic_ways (bl_threading bl) /\ 1 <= b_jc_ways (bl_threading bl);
  gt_tags : forall c, c ∈ launch_calls (bl_launch bl) -> call_mtag_a c = ta /\ call_mtag_b c = tb;
}.

(** The instances of the batch decorators that hand on the tags of the caller. *)
Definition batch_keeps_tags (sfx : gemm_sfx) : Prop :=
  exists tsfx, batch_decorator_threading sfx = Some tsfx /\ batch_reconcile_is_f32 tsfx = false /\
    mc_logic sfx = None /\ sfx <> f32f32f32of32.

Lemma batch_calls_tags env bt g_sz r ta tag c :
  c ∈ batch_calls env bt g_sz r ta (fun _ _ => tag) -> call_mtag_a c = ta /\ call_mtag_b c = tag.
Proof.
  unfold batch_calls. intros (omp & (i & -> & _)%list_elem_of_fmap & _)%list_elem_of_bind. done.
Qed.

Lemma batch_decorator_team (omp : bool) env seen sfx g_sz m n k ta tb r lcntx ops :
  env_ok env -> num_threads r <> 0 -> 0 <= g_sz -> batch_keeps_tags sfx ->
  exists bl,
    (if omp then batch_dlp_gemm_openmp_thread_decorator env seen sfx g_sz m n k [ta] [tb] r lcntx ops
     else batch_dlp_gemm_thread_decorator env sfx g_sz m n k [ta] [tb] r lcntx) = Some bl /\
    group_team g_sz m n ta tb bl.
Proof.
  intros Henv Hnt Hg (tsfx & Hs & Hf & Hmc & Hne). destruct omp.
  - unfold batch_dlp_gemm_openmp_thread_decorator. rewrite Hs.
    destruct (batch_prefix env tsfx g_sz m n k r lcntx ta tb Henv Hnt) as (bt & r1 & ta' & tb' & r2 & E1 & Hbt & E2).
    cbn [mbind option_bind]. rewrite E1. cbn [mbind option_bind lookup list_lookup]. rewrite E2, Hmc.
    cbn [mbind option_bind]. rewrite init_comms_ok by apply (env_malloc env Henv).
    cbn [mbind option_bind]. rewrite Hf in E2. unfold reconcile_packab in E2. injection E2 as <- <- <-.
    eexists. split; [reflexivity|]. split.
    + by apply (batch_region_ok env bt g_sz (num_threads r)).
    + destruct Hbt as ((? & ? & _) & _). done.
    + intros c. apply batch_calls_tags.
  - assert (match sfx with f32f32f32of32 => true | _ => false end = false) as Hf2 by (by destruct sfx).
    unfold batch_dlp_gemm_thread_decorator. rewrite Hf2. cbn. eexists. split; [reflexivity|]. split.
    + by apply sequential_calls_ok.
    + done.
    + unfold sequential_calls. by intros c (i & -> & _)%list_elem_of_fmap.
Qed.

Section soundness.
Context `{KernelFrameLaws}.
Context (env : api_env) (seen : Z -> Z -> bool).
Context (prepare : gemm_args -> option api_metadata -> list dlp_gemm_post_op ->
  outcome (driver_args * list dlp_gemm_post_op)).
Context (sfx : gemm_sfx) (op : AOCL_DLP_OPERATION_TYPE) (k_dtype : kernel_datatype_t) (c_downscale : DLP_TYPE).
Hypothesis Henv : env_ready env op.
Hypothesis Hsfx : batch_keeps_tags sfx.
Hypothesis Hint8 : int8_datatype k_dtype.
Hypothesis Hprepare : forall x metadata garbage, length garbage = 8%nat -> metadata_ok metadata ->
  args_valid x -> answers (fun _ => True) (prepare x metadata garbage).

(** A launched group: the arguments of its driver are those prepared, its pointers are
    in the arrays and set, its blocks are positive and fit the packed layout, and each
    of its products has a complete team. *)
Record group_sound (p : batch_ptrs) (garbage : list dlp_gemm_post_op) (mat_idx : Z) (grp : batch_group)
    (L : group_launch) : Prop := mk_group_sound {
  gs_place : gl_mat_idx L = mat_idx /\ ptrs_set p mat_idx (bg_size grp) /\ 1 <= bg_size grp;
  gs_args : args_valid (group_args grp) /\
    exists l, prepare (group_args grp) (bg_metadata grp) garbage = Value (gl_args L, l);
  gs_pos : blksz_pos (blksz (gl_cntx L));
  gs_blocks : 1 < m_use (gl_args L) -> 1 < n_use (gl_args L) ->
    let b := blksz (gl_cntx L) in blocks_checked (NR b) 16 (NC b) (KC b) 4;
  gs_team : group_team (bg_size grp) (m_use (gl_args L)) (n_use (gl_args L)) (mtag_a_use (gl_args L))
    (mtag_b_use (gl_args L)) (gl_launch L);
}.

Lemma batch_launch_answers x metadata g_sz mat_idx d l r :
  num_threads r <> 0 -> 0 <= g_sz ->
  answers (fun L => gl_mat_idx L = mat_idx /\ gl_args L = d /\ blksz_pos (blksz (gl_cntx L)) /\
      (1 < m_use d -> 1 < n_use d ->
       let b := blksz (gl_cntx L) in blocks_checked (NR b) 16 (NC b) (KC b) 4) /\
      group_team g_sz (m_use d) (n_use d) (mtag_a_use d) (mtag_b_use d) (gl_launch L))
    (batch_launch_group env seen sfx op k_dtype c_downscale x metadata g_sz mat_idx d l r).
Proof using H0 Henv Hsfx Hint8.
  intros Hnt Hg. unfold batch_launch_group.
  eapply answers_bind; [by apply call_cntx_answers|]. intros c Hb.
  apply answers_check. intros _. eapply answers_bind; [by apply settle_answers|].
  intros [c2 ti] [Hb2 Hint]. cbn zeta.
  destruct (batch_decorator_team (openmp env) (api_decor env) seen sfx g_sz (m_use d) (n_use d) (k_use d)
    (mtag_a_use d) (mtag_b_use d) r c2 (Some (mk_ops (Some l))) (er_env _ _ Henv) Hnt Hg Hsfx) as (bl & Ebl & Hbl).
  apply (answers_or_undefined _ bl); [exact Ebl|]. cbn. split_and!; auto.
Qed.

Lemma resolved_threads g tl : num_threads (run (dlp_rntm_init_from_global (api_rt env)) g tl).1.1 <> 0.
Proof using.
  pose proof (rntm_init_well_formed (api_rt env) g tl) as Hw.
  destruct (run _ g tl) as [[r g'] tl']. cbn. destruct Hw as ([(? & _)|(? & _)] & _); lia.
Qed.

Lemma group_body_answers p garbage idx gc_i mat_idx grp n g tl :
  ptrs_length p n -> 0 <= gc_i < n -> 0 <= mat_idx -> mat_idx + Z.max 0 (bg_size grp) <= n ->
  length (garbage gc_i) = 8%nat -> metadata_ok (bg_metadata grp) ->
  answers (group_sound p (garbage gc_i) mat_idx grp)
    (batch_group_body env seen prepare sfx op k_dtype c_downscale p garbage idx gc_i mat_idx grp g tl).1.1.
Proof using H0 Henv Hsfx Hint8 Hprepare.
  intros Hp Hi Hm Hn Hg Hmd. unfold batch_group_body.
  assert (answers (fun '(x, d, l) => x = group_args grp /\ args_valid x /\ 1 <= bg_size grp /\
      ptrs_set p mat_idx (bg_size grp) /\ prepare x (bg_metadata grp) (garbage gc_i) = Value (d, l))
    (x ← batch_check p idx gc_i mat_idx grp; '(d, l) ← prepare x (bg_metadata grp) (garbage gc_i); mret (x, d, l)))
    as Hpre.
  { eapply answers_bind; [by apply (batch_check_answers p idx gc_i mat_idx grp n)|].
    intros x (-> & Hv & Hs & Hset). pose proof (Hprepare _ _ _ Hg Hmd Hv) as Ha.
    destruct (prepare _ _ _) as [| |[d l]] eqn:Ed; [done|done|]. by split_and!. }
  destruct (_ ≫= _) as [|e|[[x d] l]]; [done|done|].
  destruct Hpre as (-> & Hv & Hs & Hset & Hd). pose proof (resolved_threads g tl) as Hnt.
  destruct (run _ g tl) as [[r g'] tl']. cbn [fst] in *.
  eapply answers_weaken; [by apply batch_launch_answers; [|lia]|].
  intros L (Ep & Ea & Hpos & Hblk & Hteam). rewrite <- Ea in Hblk, Hteam. split; eauto.
  split; [done|]. exists l. by rewrite Ea.
Qed.

(** ** The loop over the groups *)

Lemma group_status_cons i e stores j :
  group_status ((i, e) :: stores) j =
  if decide (i = j) then Some (default e (group_status stores j)) else group_status stores j.
Proof using.
  unfold group_status. case_decide as Hd.
  - subst. rewrite filter_cons_True by done. destruct (filter _ stores) as [|s l]; [done|].
    rewrite last_cons. by destruct (last (s :: l)) eqn:E; [|apply last_None in E].
  - by rewrite filter_cons_False.
Qed.

Lemma group_status_other stores j : (forall s, s ∈ stores -> s.1 <> j) -> group_status stores j = None.
Proof using. intros Hs. unfold group_status. by rewrite filter_none. Qed.

Lemma set_errors_status first group_count err j :
  group_status (set_errors first group_count err) j =
  if decide (first <= j < group_count) then Some err else None.
Proof using.
  unfold set_errors. destruct (Z.le_gt_cases group_count first) as [Hle|Hgt].
  { rewrite seqZ_nil by lia. rewrite decide_False by lia. done. }
  replace group_count with (first + Z.of_nat (Z.to_nat (group_count - first))) by lia.
  generalize (Z.to_nat (group_count - first)) as len. clear. intros len.
  replace (first + Z.of_nat len - first) with (Z.of_nat len) by lia. revert first.
  induction len as [|len IH]; intros first.
  { rewrite decide_False by lia. done. }
  rewrite seqZ_cons by lia. cbn [fmap list_fmap]. rewrite group_status_cons.
  replace (Z.pred (Z.of_nat (S len))) with (Z.of_nat len) by lia. rewrite IH.
  repeat case_decide; try lia; done.
Qed.

Lemma set_errors_inside first group_count err s :
  s ∈ set_errors first group_count err -> first <= s.1 < group_count.
Proof using. intros (i & -> & Hi%elem_of_seqZ)%list_elem_of_fmap. cbn. lia. Qed.

(** What a run over some groups leaves: the groups launched are the first ones, each
    as [Q] says, given its index and its place in the arrays of pointers; their status
    is success, that of the next group, if any, an error, and that of the others
    [DLP_CLSC_FAILURE]. *)
Record batch_outcome (Q : Z -> Z -> batch_group -> group_launch -> Prop) (first mat_idx : Z)
    (groups : list batch_group) (r : batch_result) : Prop := mk_batch_outcome {
  bo_count : (length (br_launches r) <= length groups)%nat;
  bo_launches : forall i grp L, groups !! i = Some grp -> br_launches r !! i = Some L ->
    Q (first + Z.of_nat i) (mat_idx + total_size (take i groups)) grp L;
  bo_status : forall i, (i < length groups)%nat ->
    let status := group_status (br_stores r) (first + Z.of_nat i) in
    match Nat.compare i (length (br_launches r)) with
    | Lt => status = Some DLP_CLSC_SUCCESS
    | Eq => exists e, e <> DLP_CLSC_SUCCESS /\ status = Some e
    | Gt => status = Some DLP_CLSC_FAILURE
    end;
  bo_inside : forall s, s ∈ br_stores r -> first <= s.1 < first + Z.of_nat (length groups);
}.

Lemma outcome_error Q gc_i mat_idx grp groups e :
  e <> DLP_CLSC_SUCCESS ->
  batch_outcome Q gc_i mat_idx (grp :: groups)
    (mk_batch_result ((gc_i, DLP_CLSC_SUCCESS) :: (gc_i, e) ::
       dlp_batch_mark_remaining_groups_failed (gc_i + 1) (gc_i + Z.of_nat (length (grp :: groups)))) []).
Proof using.
  intros He. split; cbn [br_launches br_stores length] in *.
  - lia.
  - intros i g L _. by rewrite lookup_nil.
  - intros i Hi. cbn zeta. rewrite !group_status_cons. unfold dlp_batch_mark_remaining_groups_failed.
    rewrite set_errors_status. destruct i as [|i]; cbn [Nat.compare].
    + rewrite !decide_True by lia. rewrite decide_False by lia. by exists e.
    + rewrite !decide_False by lia. by rewrite decide_True by lia.
  - intros s [->|[->|Hs%set_errors_inside]%elem_of_cons]%elem_of_cons; cbn [fst]; lia.
Qed.

Lemma outcome_launch Q gc_i mat_idx grp groups L r :
  1 <= bg_size grp -> Q gc_i mat_idx grp L ->
  batch_outcome Q (gc_i + 1) (mat_idx + bg_size grp) groups r ->
  batch_outcome Q gc_i mat_idx (grp :: groups)
    (mk_batch_result ((gc_i, DLP_CLSC_SUCCESS) :: br_stores r) (L :: br_launches r)).
Proof using.
  intros Hs HL [Hc Hl Hst Hin]. split; cbn [br_launches br_stores length] in *.
  - lia.
  - intros [|i] g L' Hg HL'; cbn in Hg, HL'.
    + simplify_eq. cbn. by rewrite !Z.add_0_r.
    + specialize (Hl i g L' Hg HL'). cbn [take total_size foldr] in *. unfold total_size in *.
      replace (gc_i + Z.of_nat (S i)) with (gc_i + 1 + Z.of_nat i) by lia.
      rewrite Z.max_r by lia. by rewrite Z.add_assoc.
  - intros [|i] Hi; cbn zeta; rewrite group_status_cons; cbn [Nat.compare].
    + rewrite decide_True by lia. rewrite group_status_other; [done|]. intros s Hs'. specialize (Hin s Hs'). lia.
    + rewrite decide_False by lia. replace (gc_i + Z.of_nat (S i)) with (gc_i + 1 + Z.of_nat i) by lia.
      apply Hst. lia.
  - intros s [->|Hs']%elem_of_cons; cbn [fst]; [lia|]. specialize (Hin s Hs'). lia.
Qed.

Lemma batch_loop_outcome idx p garbage n groups gc_i mat_idx g tl :
  ptrs_length p n -> 0 <= gc_i -> gc_i + Z.of_nat (length groups) <= n ->
  0 <= mat_idx -> mat_idx + total_size groups <= n ->
  (forall i, length (garbage i) = 8%nat) -> Forall (metadata_ok ∘ bg_metadata) groups ->
  exists r g' tl',
    batch_loop env seen prepare sfx op k_dtype c_downscale idx p garbage (gc_i + Z.of_nat (length groups))
      groups gc_i mat_idx g tl = Some (r, g', tl') /\
    batch_outcome (fun gc_i off => group_sound p (garbage gc_i) off) gc_i mat_idx groups r.
Proof using H0 Henv Hsfx Hint8 Hprepare.
  intros Hp Hi Hin Hm Hmn Hg Hmd. revert gc_i mat_idx g tl Hi Hin Hm Hmn.
  induction Hmd as [|grp groups Hmd _ IH]; intros gc_i mat_idx g tl Hi Hin Hm Hmn.
  { eexists _, _, _. split; [reflexivity|]. split; [done|done|cbn; lia|].
    intros s Hs. by apply elem_of_nil in Hs. }
  cbn [length] in *. unfold total_size in Hmn. cbn [foldr] in Hmn. fold (total_size groups) in Hmn.
  pose proof (total_size_nonneg groups) as Hts. cbn [batch_loop].
  set (idx' := if idx then _ else gc_i).
  pose proof (group_body_answers p garbage idx' gc_i mat_idx grp n g tl Hp ltac:(lia) Hm ltac:(lia) (Hg gc_i) Hmd) as Hb.
  destruct (batch_group_body _ _ _ _ _ _ _ _ _ _ _ _ _ g tl) as [[o g1] tl1]. cbn [fst] in Hb.
  destruct o as [|e|L]; [done| |].
  - eexists _, _, _. split; [reflexivity|]. by apply outcome_error.
  - destruct (gs_place _ _ _ _ _ Hb) as (_ & _ & Hs).
    destruct (IH (gc_i + 1) (mat_idx + bg_size grp) g1 tl1) as (r & g2 & tl2 & E & Hr); [lia..|].
    replace (gc_i + 1 + Z.of_nat (length groups)) with (gc_i + Z.of_nat (S (length groups))) in E by lia.
    rewrite E. cbn [mbind option_bind]. eexists _, _, _. split; [reflexivity|]. by apply outcome_launch.
Qed.
End soundness.

(** ** The calls *)

(** The ten entry points, with what each does before the context and its operation. *)
Definition batch_calls_list `{KernelFrame} (env : api_env) (seen : Z -> Z -> bool) :=
  [(aocl_batch_gemm_s8s8s32os32 env seen, s8s8s32_batch_prepare true, S8S8S32OS32);
   (aocl_batch_gemm_s8s8s32os8 env seen, s8s8s32_batch_prepare true, S8S8S32OS32);
   (aocl_batch_gemm_s8s8s32of32 env seen, s8s8s32_batch_prepare false, S8S8S32OS32);
   (aocl_batch_gemm_s8s8s32obf16 env seen, s8s8s32_batch_prepare true, S8S8S32OS32);
   (aocl_batch_gemm_s8s8s32ou8 env seen, s8s8s32_batch_prepare true, S8S8S32OS32);
   (aocl_batch_gemm_u8s8s32os32 env seen, u8s8s32_batch_prepare true, U8S8S32OS32);
   (aocl_batch_gemm_u8s8s32os8 env seen, u8s8s32_batch_prepare true, U8S8S32OS32);
   (aocl_batch_gemm_u8s8s32of32 env seen, u8s8s32_batch_prepare true, U8S8S32OS32);
   (aocl_batch_gemm_u8s8s32obf16 env seen, u8s8s32_batch_prepare false, U8S8S32OS32);
   (aocl_batch_gemm_u8s8s32ou8 env seen, u8s8s32_batch_prepare true, U8S8S32OS32)].

(** What a call leaves: an answer for every group that has metadata. *)
Definition batch_answer (vnni : bool) (Q : Z -> Z -> batch_group -> group_launch -> Prop) (array_nulls : list bool)
    (metadata_null : bool) (groups : list batch_group) (r : batch_result) : Prop :=
  let all_are err := br_launches r = [] /\
    forall i, (i < length groups)%nat -> group_status (br_stores r) (Z.of_nat i) = Some err in
  if metadata_null then r = mk_batch_result [] []
  else if existsb id array_nulls then all_are DLP_CLSC_NULL_POINTER
  else if vnni then batch_outcome Q 0 0 groups r
  else all_are DLP_CLSC_NOT_SUPPORTED.

(** The caller's side: arrays of pointers long enough for the products and the groups,
    and metadata the translators stay inside of. *)
Record batch_caller (p : batch_ptrs) (groups : list batch_group) (garbage : Z -> list dlp_gemm_post_op) (n : Z)
    : Prop := mk_batch_caller {
  bc_ptrs : ptrs_length p n;
  bc_groups : Z.of_nat (length groups) <= n;
  bc_products : total_size groups <= n;
  bc_garbage : forall i, length (garbage i) = 8%nat;
  bc_metadata : Forall (metadata_ok ∘ bg_metadata) groups;
}.

Lemma all_set n err : 0 <= n ->
  forall i, (i < Z.to_nat n)%nat -> group_status (set_errors 0 n err) (Z.of_nat i) = Some err.
Proof. intros Hn i Hi. rewrite set_errors_status. by rewrite decide_True by lia. Qed.

Lemma batch_entry_answers `{KernelFrameLaws} env seen prepare sfx op k_dtype c_downscale idx array_nulls
    metadata_null p groups garbage n g tl :
  env_ready env op -> batch_keeps_tags sfx -> int8_datatype k_dtype ->
  (forall x metadata garbage, length garbage = 8%nat -> metadata_ok metadata ->
    args_valid x -> answers (fun _ => True) (prepare x metadata garbage)) ->
  batch_caller p groups garbage n ->
  exists r g' tl',
    batch_entry env seen prepare sfx op k_dtype c_downscale idx array_nulls metadata_null p groups garbage g tl
      = Some (r, g', tl') /\
    batch_answer (avx512vnni env) (fun gc_i off => group_sound prepare p (garbage gc_i) off)
      array_nulls metadata_null groups r.
Proof.
  intros Henv Hsfx Hi Hprep [Hp Hgr Hpr Hg Hmd]. unfold batch_entry, AOCL_DLP_BATCH_GEMM_NULL_ARGS_CHECK, batch_answer.
  destruct metadata_null; [by eexists _, _, _|].
  destruct (existsb id array_nulls).
  { eexists _, _, _. split; [reflexivity|]. split; [done|]. intros i Hlt. cbn [br_stores].
    rewrite Z.max_r by lia. apply all_set; lia. }
  destruct (avx512vnni env); cbn [negb].
  - by apply (batch_loop_outcome env seen prepare sfx op k_dtype c_downscale Henv Hsfx Hi Hprep idx p garbage n
      groups 0 0 g tl).
  - eexists _, _, _. split; [reflexivity|]. split; [done|]. intros i Hlt. cbn [br_stores].
    unfold dlp_batch_mark_remaining_groups_failed, set_errors at 2. rewrite Z.sub_diag, app_nil_r.
    apply all_set; lia.
Qed.

Lemma s8_batch_prepare_answers any x metadata garbage :
  length garbage = 8%nat -> metadata_ok metadata -> args_valid x ->
  answers (fun _ => True) (s8s8s32_batch_prepare any x metadata garbage).
Proof.
  intros Hg Hm Hv. unfold s8s8s32_batch_prepare. eapply answers_bind; [by apply translate_answers|].
  intros l _. apply answers_fail_if; [done|intros _]. fold (col_stored (order x)).
  eapply (answers_bind (fun _ => True)); [|by intros [ta tb] _].
  destruct (lpmtag_cases (mem_format_a x)) as [->|[->| ->]], (lpmtag_cases (mem_format_b x)) as [->|[->| ->]],
    (col_stored (order x)), (dlp_is_trans _); vm_compute; try done; by destruct (dlp_is_trans _).
Qed.

Lemma u8_batch_prepare_answers drops x metadata garbage :
  length garbage = 8%nat -> metadata_ok metadata -> args_valid x ->
  answers (fun _ => True) (u8s8s32_batch_prepare drops x metadata garbage).
Proof.
  intros Hg Hm Hv. unfold u8s8s32_batch_prepare. eapply answers_bind; [by apply translate_answers|].
  intros l _. apply answers_fail_if; [done|intros _].
  destruct (strides_of _ (lda x)), (strides_of _ (ldb x)).
  eapply (answers_bind (fun _ => True)); [|by intros [ta tb] _].
  unfold u8s8s32_batch_tags. by apply answers_fail_if.
Qed.

Lemma s8_keeps_tags : batch_keeps_tags s8s8s32o32.
Proof. by exists bsfx_s8s8s32o32. Qed.

Lemma u8_keeps_tags : batch_keeps_tags u8s8s32o32.
Proof. by exists bsfx_u8s8s32o32. Qed.

#[local] Hint Resolve s8_keeps_tags u8_keeps_tags s8_batch_prepare_answers u8_batch_prepare_answers : core.

(** C12. Every call of the ten batch entry points of the 8-bit integer products answers
    for every group, whatever its arguments, its post-ops and the state of the
    threading: it is never undefined when the arrays of pointers have an element for
    each product and for each group ([batch_caller]; an array per product alone is not
    enough, [batch_empty_group_reads_past]).  The groups before the first one that is rejected
    are launched, in order, each at its place in the arrays, with success as status:
    every product of such a group has set pointers and a complete team of threads of its
    own on the arguments prepared, with positive blocks that fit the packed layout.  The
    first rejected group gets an error that is not success, the groups after it
    [DLP_CLSC_FAILURE], and nothing of them is launched.
    Block sizes of the caller are taken not to overflow [md_t] ([merge_in_range]). *)
Theorem batch_calls_sound `{KernelFrameLaws} (env : api_env) (seen : Z -> Z -> bool) (array_nulls : list bool)
    (metadata_null : bool) (p : batch_ptrs) (groups : list batch_group) (garbage : Z -> list dlp_gemm_post_op)
    (n : Z) (g : lib_state) (tl : tl_state) :
  env_ready env S8S8S32OS32 -> env_ready env U8S8S32OS32 -> batch_caller p groups garbage n ->
  forall call prepare op, (call, prepare, op) ∈ batch_calls_list env seen ->
  exists r g' tl',
    call array_nulls metadata_null p groups garbage g tl = Some (r, g', tl') /\
    batch_answer (avx512vnni env) (fun gc_i off => group_sound prepare p (garbage gc_i) off)
      array_nulls metadata_null groups r.
Proof.
  intros Hs Hu Hc call prepare op Hin. unfold batch_calls_list in Hin.
  set_unfold in Hin. destruct_or! Hin; simplify_eq;
    eapply batch_entry_answers; eauto; done.
Qed.

(** C27. A group of a batch is given to the driver as the single call gives its product:
    a batch entry point prepares a group exactly when the single entry point would
    prepare it, with the same arguments and post-ops.  There are two exceptions.  The
    s8 x s8 entry points (but for the one with f32 output) reject a column-major group
    that has metadata, with or without post-ops; and the request to pack the left
    operand of the driver, where it is stored by rows already, is kept for a column-major
    group and by the u8 x s8 entry point with bf16 output. *)
Theorem batch_group_as_single (env : api_env) (x : gemm_args) (metadata : option api_metadata)
    (garbage : list dlp_gemm_post_op) (d : driver_args) (l : list dlp_gemm_post_op) :
  avx512vnni env = true -> args_valid x ->
  (forall any_metadata, s8s8s32_batch_prepare any_metadata x metadata garbage = Value (d, l) <->
     exists d0, s8s8s32_prepare env x metadata garbage = Value (d0, l) /\ d = pack_a (s8_keeps_pack x) d0 /\
       (any_metadata = true -> col_stored (order x) = true -> metadata = None)) /\
  (forall drops_pack, u8s8s32_batch_prepare drops_pack x metadata garbage = Value (d, l) <->
     exists d0, u8s8s32_prepare false env x metadata garbage = Value (d0, l) /\
       d = pack_a (u8_keeps_pack drops_pack x) d0).
Proof.
  intros Hi Hv. split; intros b; [by apply s8_batch_prepare_single|by apply u8_batch_prepare_single].
Qed.

(** A column-major group that asks to pack B, which is not transposed. *)
Definition example_packed_group : gemm_args :=
  mk_gemm_args "c" "n" "n" 7 70 5 3 false 8 "n" false 9 "p" 2 false 9.

Lemma batch_group_as_single_witness :
  exists d0,
    s8s8s32_prepare example_api_env example_packed_group None example_garbage = Value (d0, example_garbage) /\
    mtag_a_use d0 = UNPACKED /\
    s8s8s32_batch_prepare true example_packed_group None example_garbage =
      Value (pack_a true d0, example_garbage) /\
    cs_a_use (pack_a true d0) = 1 /\ mtag_a_use (pack_a true d0) = PACK.
Proof.
  assert (args_valid example_packed_group) as Hv by (apply gemm_check_spec; reflexivity).
  eexists. split; [vm_compute; reflexivity|]. split; [reflexivity|]. split.
  - apply (batch_group_as_single example_api_env example_packed_group None example_garbage); [reflexivity|exact Hv|].
    eexists. split; [vm_compute; reflexivity|]. split; [reflexivity|done].
  - split; reflexivity.
Defined.

(** ** The products of a batch *)

Definition int8_batch `{KernelFrame} (signed : bool) :=
  if signed then aocl_batch_gemm_s8s8s32os32 else aocl_batch_gemm_u8s8s32os32.

(** The group is not one of the exceptions above. *)
Definition keeps_pack (signed : bool) (x : gemm_args) : bool := signed && s8_keeps_pack x.

Lemma answer_launched vnni Q array_nulls metadata_null groups r i grp L :
  batch_answer vnni Q array_nulls metadata_null groups r ->
  groups !! i = Some grp -> br_launches r !! i = Some L ->
  vnni = true /\ Q (Z.of_nat i) (total_size (take i groups)) grp L.
Proof.
  unfold batch_answer. intros Ha Hg HL.
  destruct metadata_null; [by subst|]. destruct (existsb id array_nulls); [by destruct Ha as [E _]; rewrite E in HL|].
  destruct vnni; [|by destruct Ha as [E _]; rewrite E in HL].
  split; [done|]. by apply (bo_launches _ _ _ _ _ Ha i grp L).
Qed.

(** A launched group of a batch with s32 output has a driver that is ready. *)
Lemma int8_batch_launched `{KernelFrameLaws} signed env seen array_nulls metadata_null p groups garbage n g tl
    r g' tl' i grp L :
  env_ready env (int8_op signed) -> batch_caller p groups garbage n ->
  int8_batch signed env seen array_nulls metadata_null p groups garbage g tl = Some (r, g', tl') ->
  groups !! i = Some grp -> br_launches r !! i = Some L -> keeps_pack signed (group_args grp) = false ->
  driver_ready (group_args grp) (gl_args L) /\ (signed = false -> swapped (gl_args L) = false) /\
  blksz_pos (blksz (gl_cntx L)) /\
  (1 < m_use (gl_args L) -> 1 < n_use (gl_args L) ->
   let b := blksz (gl_cntx L) in blocks_checked (NR b) 16 (NC b) (KC b) 4) /\
  gl_mat_idx L = total_size (take i groups) /\
  group_team (bg_size grp) (m_use (gl_args L)) (n_use (gl_args L)) (mtag_a_use (gl_args L))
    (mtag_b_use (gl_args L)) (gl_launch L) /\
  exists l, ops_ready (group_args grp) (bg_metadata grp) (garbage (Z.of_nat i)) (gl_args L) l.
Proof.
  intros Henv Hc Hcall Hgr HL Hk. pose proof Hc as [_ _ _ Hg Hmd].
  assert (metadata_ok (bg_metadata grp)) as Hm by (by rewrite Forall_lookup in Hmd; apply (Hmd i)).
  destruct signed; unfold int8_batch, aocl_batch_gemm_s8s8s32os32, aocl_batch_gemm_u8s8s32os32 in Hcall.
  - destruct (batch_entry_answers env seen (s8s8s32_batch_prepare true) s8s8s32o32 S8S8S32OS32 DLP_KERNEL_S8S8S32OS32
      DLP_S32 true array_nulls metadata_null p groups garbage n g tl Henv s8_keeps_tags eq_refl
      (s8_batch_prepare_answers true) Hc) as (r' & g2 & tl2 & E & Ha).
    unfold s8s8s32_batch in Hcall. rewrite Hcall in E. simplify_eq.
    destruct (answer_launched _ _ _ _ _ _ _ _ _ Ha Hgr HL) as (Hi & [(Ep & _) [Hv [l Hp]] Hpos Hblk Ht]).
    apply (s8_batch_prepare_single true env) in Hp as (d0 & Hp & Ed & _); [|done..].
    cbn [keeps_pack andb] in Hk. rewrite Hk in Ed. cbn [pack_a] in Ed. rewrite Ed in *.
    pose proof (s8s8s32_prepare_answers env (group_args grp) (bg_metadata grp) (garbage (Z.of_nat i)) (Hg _) Hm) as Hd.
    pose proof (s8s8s32_prepare_ops _ _ _ _ _ _ (Hg _) Hp) as Ho.
    rewrite Hp in Hd. destruct Hd as [Hd _]. split_and!; try done. by exists l.
  - destruct (batch_entry_answers env seen (u8s8s32_batch_prepare true) u8s8s32o32 U8S8S32OS32 DLP_KERNEL_U8S8S32OS32
      DLP_S32 true array_nulls metadata_null p groups garbage n g tl Henv u8_keeps_tags eq_refl
      (u8_batch_prepare_answers true) Hc) as (r' & g2 & tl2 & E & Ha).
    unfold u8s8s32_batch in Hcall. rewrite Hcall in E. simplify_eq.
    destruct (answer_launched _ _ _ _ _ _ _ _ _ Ha Hgr HL) as (Hi & [(Ep & _) [Hv [l Hp]] Hpos Hblk Ht]).
    apply (u8_batch_prepare_single true env) in Hp as (d0 & Hp & Ed); [|done..]. cbn [pack_a u8_keeps_pack negb andb] in Ed.
    rewrite Ed in *.
    pose proof (u8s8s32_prepare_answers false env (group_args grp) (bg_metadata grp) (garbage (Z.of_nat i)) (Hg _) Hm)
      as Hd. pose proof (u8s8s32_prepare_ops _ _ _ _ _ _ _ (Hg _) Hp) as Ho.
    rewrite Hp in Hd. destruct Hd as [[Hd _] Hrow]. cbn [fst] in Hd. split_and!; try done; [|by exists l].
    intros _. rewrite (dr_swapped _ _ Hd). by apply row_not_col.
Qed.

(** The team of product [t] of a group, at its start. *)
Definition product_team (signed : bool) (packb_strides : Z -> Z -> Z * Z) (x : gemm_args) (L : group_launch)
    (post_op_list : list dlp_gemm_post_op) (t : Z) (C : Z -> Z) : option team_state :=
  let d := gl_args L in
  ths ← mapM (fun c => start_thread
      (rowvar signed (gl_cntx L) packb_strides (m_use d) (n_use d) (k_use d) (rs_a_use d) (cs_a_use d)
         (call_mtag_a c) (rs_b_use d) (cs_b_use d) (call_mtag_b c) (rs_c_use d) (cs_c_use d) (arg_beta x) DLP_S32
         post_op_list) c)
    (gemm_calls t (launch_calls (bl_launch (gl_launch L))));
  Some (mk_team_state ths (fun _ => None) C).

(** C11. A batch computes the products it takes up.  In a call of
    [aocl_batch_gemm_s8s8s32os32] or [aocl_batch_gemm_u8s8s32os32], take product [t] of a
    group that was launched: it is number [q] in the arrays of pointers, counting all the
    products before it.  The calls the decorator makes for it are a team; run by itself,
    in every interleaving of its threads no action is undefined, no thread is stuck at a
    barrier, every run ends, and at the end the element (i, j) of matrix [q] of C is
    [beta * C + alpha * sum_p A(i, p) * B(p, j)] in [int32_t], for the matrices [q] of A
    and B, with the post-ops of the group applied to it once.  Excepted are the s8 groups
    stored by columns whose needless request to pack B is kept ([keeps_pack]); there the
    packing kernel works in whole steps of 64 elements (PackA8Row.v).  The conditions are
    those of a single call: the kernels and post-ops by their contract, a reordered B by
    its layout, legal blocks for a product with one row and more than one column, which
    the call does not check; and the arrays of pointers have an element for each group as
    well as for each product ([batch_caller]).
    Block sizes of the caller are taken not to overflow [md_t] ([merge_in_range]). *)
Theorem int8_batch_computes `{KernelFrameLaws} (signed : bool) (env : api_env) (seen : Z -> Z -> bool)
    (array_nulls : list bool) (metadata_null : bool) (p : batch_ptrs) (groups : list batch_group)
    (garbage : Z -> list dlp_gemm_post_op) (n : Z) (g g' : lib_state) (tl tl' : tl_state) (r : batch_result)
    (gi : nat) (grp : batch_group) (L : group_launch) (t : Z)
    (packb_strides : Z -> Z -> Z * Z) (As Bs : Z -> Z -> Z) (B : Z -> Z -> Z) (K : kernels) (fresh : Z -> Z)
    (Cs : Z -> Z -> Z) :
  let d := gl_args L in let b := blksz (gl_cntx L) in let x := group_args grp in
  let q := total_size (take gi groups) + t in
  env_ready env (int8_op signed) -> batch_caller p groups garbage n ->
  int8_batch signed env seen array_nulls metadata_null p groups garbage g tl = Some (r, g', tl') ->
  groups !! gi = Some grp -> br_launches r !! gi = Some L -> 0 <= t < bg_size grp ->
  keeps_pack signed x = false ->
  (m_use d = 1 -> 1 < n_use d -> blocks_checked (NR b) 16 (NC b) (KC b) 4) ->
  kernel_laws signed (gl_cntx L) (driver_A signed d (As q) (Bs q)) (rs_a_use d) (cs_a_use d)
    (driver_B d (As q) (Bs q)) (rs_b_use d) (cs_b_use d) (arg_alpha x) K ->
  caller_B signed (gl_cntx L) x (Bs q) B ->
  gl_mat_idx L + t = q /\
  exists post_op_list st0,
    translate_post_ops x (bg_metadata grp) (garbage (Z.of_nat gi)) = Value post_op_list /\
    (col_stored (order x) = true \/ post_op_count (bg_metadata grp) <= 0 -> post_ops_disabled post_op_list = true) /\
    product_team signed packb_strides x L post_op_list t (Cs q) = Some st0 /\
    team_ends signed (gl_cntx L) (kind_of (m_use d) (n_use d)) (driver_A signed d (As q) (Bs q))
      (driver_B d (As q) (Bs q)) K fresh st0 (fun st =>
        forall i j, 0 <= i < arg_m x -> 0 <= j < arg_n x ->
        let c := element_index (order x) "n" (ldc x) i j in
        st_C st c = finish (epilogue K) post_op_list i j (to_i32 (arg_beta x * Cs q c +
          arg_alpha x * zsum (fun p => caller_A signed x (As q) i p * B p j) 0 (arg_k x)))).
Proof.
  intros d b x q Henv Hc Hcall Hgr HL Ht Hk Hrow HK HB.
  destruct (int8_batch_launched signed env seen array_nulls metadata_null p groups garbage n g tl r g' tl' gi grp L
    Henv Hc Hcall Hgr HL Hk) as (Hd & Hu8 & Hpos & Hblk & Ei & [Hbl [Hic Hjc] Htags] & l & Hl & Hel & Hsw & Hz).
  destruct (bo_team _ _ _ _ Hbl t Ht) as (w & _ & Hteam & _).
  split; [by rewrite Ei|].
  destruct (ready_team_product signed (gl_cntx L) x d packb_strides l (As q) (Bs q) B K fresh (Cs q)
    (b_ic_ways (bl_threading (gl_launch L))) (b_jc_ways (bl_threading (gl_launch L)))
    (w * b_jc_ways (bl_threading (gl_launch L))) (gemm_calls t (launch_calls (bl_launch (gl_launch L)))))
    as (st0 & E & Hends); try done.
  exists l, st0. split; [exact Hl|]. split.
  { intros [Hc'|Hc']; [|by apply Hz]. apply Hsw. by rewrite (dr_swapped _ _ Hd). }
  split; [|exact Hends]. rewrite <- E. unfold product_team, start_team. f_equal.
  apply mapM_ext_elem. intros c Hc'. unfold gemm_calls in Hc'. apply list_elem_of_filter in Hc' as [_ Hc'].
  by destruct (Htags c Hc') as [-> ->].
Qed.

(** ** Concrete batches *)

(** An empty group behind the products: the test of its pointers reads the element of the
    arrays at its own index, past arrays with an element per product. *)
Definition group_of_size (size : Z) : batch_group :=
  mk_batch_group (mk_gemm_args "r" "n" "n" 4 32 8 1 false 8 "n" false 32 "n" 0 false 32) size None.

Definition empty_group_batch (nulls : list bool) : option batch_result :=
  (fun o => o.1.1) <$> aocl_batch_gemm_s8s8s32os32 example_api_env (fun _ _ => false) (replicate 17 false) false
    (mk_batch_ptrs nulls nulls nulls) [group_of_size 1; group_of_size 0] (fun _ => example_garbage) lib_init tl_init.

Lemma batch_empty_group_reads_past :
  total_size [group_of_size 1; group_of_size 0] = 1 /\ empty_group_batch [false] = None /\
  exists r, empty_group_batch [false; false] = Some r /\ group_status (br_stores r) 0 = Some DLP_CLSC_SUCCESS.
Proof. split; [reflexivity|]. split; [vm_compute; reflexivity|]. eexists. split; vm_compute; reflexivity. Qed.

(** Two row-major products, one column-major product, a group without rows, another. *)
Definition example_groups : list batch_group :=
  [mk_batch_group (mk_gemm_args "r" "n" "n" 4 32 8 1 false 8 "n" false 32 "n" 0 false 32) 2 None;
   mk_batch_group example_args 1 None;
   mk_batch_group (mk_gemm_args "r" "n" "n" 0 32 8 1 false 8 "n" false 32 "n" 0 false 32) 1 None;
   mk_batch_group example_args 3 None].

Definition example_ptrs : batch_ptrs :=
  mk_batch_ptrs (replicate 7 false) (replicate 7 false) (replicate 7 false).

Lemma example_caller : batch_caller example_ptrs example_groups (fun _ => example_garbage) 7.
Proof.
  split; [done|done|done|done|]. repeat (constructor; [exact example_no_metadata|]). constructor.
Defined.

Lemma batch_calls_sound_witness :
  exists r g' tl',
    aocl_batch_gemm_s8s8s32obf16 example_api_env (fun _ _ => false) (replicate 17 false) false example_ptrs
      example_groups (fun _ => example_garbage) lib_init tl_init = Some (r, g', tl') /\
    (length (br_launches r) = 2%nat /\
     group_status (br_stores r) 1 = Some DLP_CLSC_SUCCESS /\
     group_status (br_stores r) 2 = Some DLP_CLSC_INVALID_MATRIX_DIMENSION /\
     group_status (br_stores r) 3 = Some DLP_CLSC_FAILURE) /\
    batch_outcome (fun gc_i off => group_sound (s8s8s32_batch_prepare true) example_ptrs example_garbage off)
      0 0 example_groups r.
Proof.
  destruct (batch_calls_sound example_api_env (fun _ _ => false) (replicate 17 false) false example_ptrs
    example_groups (fun _ => example_garbage) 7 lib_init tl_init (proj1 example_env_ready) (proj2 example_env_ready)
    example_caller (aocl_batch_gemm_s8s8s32obf16 example_api_env (fun _ _ => false)) (s8s8s32_batch_prepare true)
    S8S8S32OS32 ltac:(do 3 right; left)) as (r & g' & tl' & E & Ha).
  exists r, g', tl'. split; [exact E|]. split; [|exact Ha].
  assert (exists a b, r = mk_batch_result [(0, DLP_CLSC_SUCCESS); (1, DLP_CLSC_SUCCESS); (2, DLP_CLSC_SUCCESS);
    (2, DLP_CLSC_INVALID_MATRIX_DIMENSION); (3, DLP_CLSC_FAILURE)] [a; b]) as (a & b & ->).
  { assert (r = default (mk_batch_result [] []) ((fun o => o.1.1) <$> (Some (r, g', tl')))) as -> by done.
    rewrite <- E. eexists _, _. vm_compute. reflexivity. }
  split_and!; reflexivity.
Defined.

(** The product of the second group: it is number 2. *)
Lemma int8_batch_computes_witness :
  exists r g' tl' L ops st0,
    aocl_batch_gemm_s8s8s32os32 example_api_env (fun _ _ => false) (replicate 17 false) false example_ptrs
      example_groups (fun _ => example_garbage) lib_init tl_init = Some (r, g', tl') /\
    br_launches r !! 1%nat = Some L /\
    product_team true (fun _ _ => (256, 64)) example_args L ops 0 (fun o => 100 + o) = Some st0 /\
    team_ends true (gl_cntx L) K_gemm (load_i8 example_Bm) example_Am
      (ref_kernels true (gl_cntx L) (load_i8 example_Bm) 75 example_Am 1 8 3) (fun _ => 9) st0 (fun st =>
        st_C st (65 * 9 + 3) = 2 * (100 + 588) + 3 *
          zsum (fun p => load_i8 example_Am (3 * 8 + p) * load_i8 example_Bm (p * 75 + 65)) 0 5).
Proof.
  destruct (aocl_batch_gemm_s8s8s32os32 example_api_env (fun _ _ => false) (replicate 17 false) false example_ptrs
    example_groups (fun _ => example_garbage) lib_init tl_init) as [[[r g'] tl']|] eqn:E; [|vm_compute in E; discriminate].
  assert (exists L, br_launches r !! 1%nat = Some L /\ blksz (gl_cntx L) = mk_blksz 144 1024 2048 64 6 /\
    gl_args L = mk_driver_args true 70 7 5 1 75 1 8 9 1 PACK PACK) as (L & HL & Eb & Ed).
  { assert (br_launches r = default [] ((fun o => br_launches o.1.1) <$> (Some (r, g', tl')))) as -> by done.
    rewrite <- E. eexists. split; [|split]; vm_compute; reflexivity. }
  destruct (int8_batch_computes true example_api_env (fun _ _ => false) (replicate 17 false) false example_ptrs
    example_groups (fun _ => example_garbage) 7 lib_init g' tl_init tl' r 1 (mk_batch_group example_args 1 None) L 0
    (fun _ _ => (256, 64)) (fun _ => example_Am) (fun _ => example_Bm) (fun p j => load_i8 example_Bm (p * 75 + j))
    (ref_kernels true (gl_cntx L) (load_i8 example_Bm) 75 example_Am 1 8 3) (fun _ => 9) (fun _ o => 100 + o))
    as (_ & ops & st0 & Hops & _ & Hst0 & Hends); [exact (proj1 example_env_ready)|exact example_caller|exact E|reflexivity|exact HL
    |done|reflexivity|by rewrite Ed|rewrite Ed; apply ref_kernels_laws; rewrite Eb; [done|by exists 4]
    |intros p j _ _; done|].
  rewrite Ed in Hends. exists r, g', tl', L, ops, st0. split; [reflexivity|]. split; [exact HL|]. split; [exact Hst0|].
  eapply team_ends_impl; [|exact Hends]. intros st Hst. specialize (Hst 3 65 ltac:(cbn; lia) ltac:(cbn; lia)).
  vm_compute in Hops. injection Hops as <-. etransitivity; [exact Hst|]. vm_compute. reflexivity.
Defined.
