(* ===== verification/ApiReorder.v ===== *)
(** * Reordering B: the functions the caller uses before an 8-bit integer GEMM
    (classic/aocl_gemm_s8s8s32os32_utils.c, aocl_gemm_u8s8s32os32_utils.c)

    The size query and the reorder function.  An accepted call ends in work on the
    caller's buffer, one column or the tiles of [ReorderInt8]; what it leaves is what
    a GEMM call with a reordered B expects of its B. *)
From S2P Require Import Prelude Word DlpTypes PostOpTypes PostOps Config Runtime GetThreading.
From S2P Require Import ThreadUtils ThreadDecor ByteStore ReorderLayout Reorder GemmCheck KernelSelect.
From Stdlib Require Import Ascii.
From stdpp Require Import strings.
From S2P Require Import GemmDriver TeamMachine TeamCorrect GemmCalls ReorderedTeam PackedTeam GemvTeam.
From S2P Require Import RefKernels GemmResult ReorderInt8 Api ApiResult.
#[local] Open Scope Z_scope.

(** ** The code *)

(** The parameters of a reorder function; [in_null] and [out_null] tell [NULL] buffers. *)
Record reorder_args := mk_reorder_args {
  ro_order : ascii; ro_trans : ascii; ro_mat_type : ascii;
  in_null : bool; out_null : bool;
  ro_k : Z; ro_n : Z; ro_ld : Z;
}.

(** What an accepted call goes on to do. *)
Inductive reorder_work :=
  | ReorderNothing
  | ReorderColumn (rs_b : Z)
  | ReorderTiles (lcntx : dlp_gemm_cntx_t) (rs_b cs_b n_threads : Z).

Definition int8_dtype (signed : bool) : kernel_datatype_t :=
  if signed then DLP_KERNEL_S8S8S32OS32 else DLP_KERNEL_U8S8S32OS32.

(** [dlp_reorder_size_bytes] and what the callers make of a failure. *)
Definition or_dimension_error {A} (o : option A) : outcome A :=
  match o with Some a => Value a | None => Error DLP_CLSC_INVALID_MATRIX_DIMENSION end.

Definition int8_buf_size (signed : bool) (k n : Z) : outcome Z :=
  if n =? 1 then
    if signed then mret (to_msz (to_msz (dlp_gemm_col_sum_byte_offset k) + 4))
    else or_dimension_error (dlp_reorder_size_bytes k 1 1 0)
  else
    let n_reorder := dlp_make_multiple_of_n n 16 in
    let k_reorder := dlp_make_multiple_of_n k 4 in
    extra ← (if signed then or_dimension_error (dlp_reorder_checked_mul_msz (to_msz n_reorder) 4) else mret 0);
    or_dimension_error (dlp_reorder_size_bytes k_reorder n_reorder 1 extra).

(** The legality test of the blocks, as all these functions make it. *)
Definition check_blocks (signed : bool) (lcntx : dlp_gemm_cntx_t) : outcome unit :=
  fail_if (negb (dlp_reorder_ref_blocks_legal (NR (blksz lcntx)) (packb_min_NR signed) (KC (blksz lcntx)) 4))
    DLP_CLSC_INVALID_BLOCK_PARAMS.

Definition check_metadata (metadata : option api_metadata) (lcntx : dlp_gemm_cntx_t) : outcome unit :=
  err ← or_undefined (dlp_gemm_validate_metadata_with_lcntx (am_blocking <$> metadata) (Some lcntx)); check err.

Definition get_reorder_buf_size (signed : bool) (env : api_env) (order trans mat_type : ascii) (k n : Z)
    (metadata : option api_metadata) : outcome Z :=
  check (AOCL_DLP_REORDER_BUF_SIZE_CHECK order trans mat_type k n).2 ;;
  fail_if (negb (bool_decide (dlp_param_map_char_to_lpmat_type mat_type = B_MATRIX))) DLP_CLSC_NOT_SUPPORTED ;;
  lcntx ← call_cntx env (int8_op signed) metadata;
  check_metadata metadata lcntx ;;
  check_blocks signed lcntx ;;
  int8_buf_size signed k n.

Definition aocl_get_reorder_buf_size_s8s8s32os32 := get_reorder_buf_size true.
Definition aocl_get_reorder_buf_size_u8s8s32os32 := get_reorder_buf_size false.

(** [rs_b] and [cs_b]; [None] is the return for an unknown order. *)
Definition reorder_strides (order : ascii) (trans : dlp_trans_t) (ldb : Z) : option (Z * Z) :=
  if row_stored order then
    Some (if dlp_is_notrans trans then ldb else 1, if dlp_is_notrans trans then 1 else ldb)
  else if col_stored order then
    Some (if dlp_is_notrans trans then 1 else ldb, if dlp_is_notrans trans then ldb else 1)
  else None.

(** The checks before anything is touched. *)
Definition reorder_prepare (env : api_env) (x : reorder_args) : outcome (option (Z * Z)) :=
  fail_if (negb (avx512vnni env)) DLP_CLSC_NOT_SUPPORTED ;;
  check (AOCL_DLP_REORDER_CHECK (ro_order x) (ro_trans x) (ro_mat_type x) (in_null x) (out_null x)
           (ro_k x) (ro_n x) (ro_ld x)).2 ;;
  match reorder_strides (ro_order x) (dlp_param_map_netlib_to_dlp_trans (ro_trans x)) (ro_ld x) with
  | None => mret None
  | Some st =>
      fail_if (bool_decide (dlp_param_map_char_to_lpmat_type (ro_mat_type x) = A_MATRIX)) DLP_CLSC_NOT_SUPPORTED ;;
      mret (Some st)
  end.

Section reorder.
Context `{KernelFrame}.
Context (signed : bool) (env : api_env) (x : reorder_args) (metadata : option api_metadata).

(** The context of the packing, once the runtime is known. *)
Definition reorder_launch (rs_b cs_b : Z) (rntm_g : dlp_rntm_t) : outcome reorder_work :=
  lcntx_g ← call_cntx env (int8_op signed) metadata;
  check (dlp_gemm_validate_hints (Some lcntx_g)) ;;
  let '(kernel_base, lcntx_g) :=
    dlp_init_and_get_packb_kernel_hndl (int8_dtype signed) (ro_n x) (ro_k x) cs_b lcntx_g in
  fail_if (negb kernel_base) DLP_CLSC_INVALID_JIT_KERNEL ;;
  let lcntx_g := dlp_upd_pack_strides (int8_dtype signed) lcntx_g in
  check_metadata metadata lcntx_g ;;
  check_blocks signed lcntx_g ;;
  mret (ReorderTiles lcntx_g rs_b cs_b (num_threads rntm_g)).

(** The runtime is resolved only when there is more than one column. *)
Definition reorder_entry (g : lib_state) (tl : tl_state) : outcome reorder_work * lib_state * tl_state :=
  match reorder_prepare env x with
  | Undefined => (Undefined, g, tl)
  | Error e => (Error e, g, tl)
  | Value None => (Value ReorderNothing, g, tl)
  | Value (Some (rs_b, cs_b)) =>
      if ro_n x =? 1 then (Value (ReorderColumn rs_b), g, tl)
      else
        let '(rntm_g, g, tl) := run (dlp_rntm_init_from_global (api_rt env)) g tl in
        (reorder_launch rs_b cs_b rntm_g, g, tl)
  end.
End reorder.

Definition aocl_reorder_s8s8s32os32 `{KernelFrame} := reorder_entry true.
Definition aocl_reorder_u8s8s32os32 `{KernelFrame} := reorder_entry false.

(** The column, copied and summed up. *)
Definition reorder_column (signed : bool) (Bmem : Z -> Z) (k rs_b : Z) (b : pack_buf) : option pack_buf :=
  gather Bmem b rs_b k (if signed then Some (dlp_gemm_col_sum_byte_offset k) else None).

(** [reorder_ends]: the work on the buffer [b] is defined, whatever the interleaving of
    the threads, and leaves a buffer that satisfies [P]. *)
Definition reorder_ends (signed openmp : bool) (omp_team : Z -> Z) (Bmem : Z -> Z) (K : kernels) (n k : Z)
    (w : reorder_work) (b : pack_buf) (P : pack_buf -> Prop) : Prop :=
  match w with
  | ReorderNothing => P b
  | ReorderColumn rs_b => exists b', reorder_column signed Bmem k rs_b b = Some b' /\ P b'
  | ReorderTiles lcntx rs_b cs_b n_threads =>
      exists b0 ls, reorder_clear signed n k b = Some b0 /\
        dlp_reorderb signed lcntx rs_b cs_b n k openmp omp_team n_threads = Some ls /\
        forall ws, interleaving ls ws -> exists b', run_packs K b0 ws = Some b' /\ P b'
  end.

(** The packing kernel of the work keeps its contract. *)
Definition work_laws (Bmem : Z -> Z) (K : kernels) (w : reorder_work) : Prop :=
  match w with
  | ReorderTiles lcntx rs_b cs_b _ => packb_laws lcntx Bmem rs_b cs_b K
  | _ => True
  end.

(** A GEMM context with the blocks the matrix was reordered in. *)
Definition work_blocks (w : reorder_work) (lcntx : dlp_gemm_cntx_t) : Prop :=
  match w with
  | ReorderTiles l _ _ _ => NR (blksz l) = NR (blksz lcntx) /\ NC (blksz l) = NC (blksz lcntx) /\ KC (blksz l) = KC (blksz lcntx)
  | _ => True
  end.

(** ** The size *)

Definition buf_bytes (signed : bool) (k n : Z) : Z :=
  if n =? 1 then (if signed then dlp_gemm_col_sum_byte_offset k + 4 else k) else reorder_bytes signed n k.

Lemma int8_buf_size_eq signed k n :
  valid_dim k -> valid_dim n -> int8_buf_size signed k n = Value (buf_bytes signed k n).
Proof.
  unfold valid_dim, int8_buf_size, buf_bytes, reorder_bytes, reorder_sums, dlp_gemm_col_sum_byte_offset.
  intros Hk Hn. change dlp_make_multiple_of_n with dlp_reorder_round_up.
  pose proof (round_up_bounds k 4 ltac:(lia) ltac:(lia)) as [Hk4 _].
  pose proof (round_up_bounds n 16 ltac:(lia) ltac:(lia)) as [Hn16 _].
  set (k4 := dlp_reorder_round_up k 4) in *. set (n16 := dlp_reorder_round_up n 16) in *.
  assert (n16 * k4 <= (2 ^ 31 + 16) * (2 ^ 31 + 16)) by (apply Z.mul_le_mono_nonneg; lia).
  destruct (n =? 1).
  - destruct signed.
    + by rewrite (to_msz_small k4), to_msz_small by (unfold DLP_MSZ_MAX; lia).
    + rewrite size_bytes_eq, decide_True by (unfold DLP_MSZ_MAX; lia). cbn. f_equal. lia.
  - unfold col_sums_size. destruct signed.
    + rewrite to_msz_small, checked_mul_eq, decide_True by (unfold DLP_MSZ_MAX; lia). cbn [mbind or_dimension_error].
      change (or_dimension_error (dlp_reorder_size_bytes k4 n16 1 (n16 * 4)) = Value (n16 * k4 + n16 * 4)).
      rewrite size_bytes_eq, decide_True by (unfold DLP_MSZ_MAX; lia). cbn. f_equal. lia.
    + change (or_dimension_error (dlp_reorder_size_bytes k4 n16 1 0) = Value (n16 * k4 + 0)).
      rewrite size_bytes_eq, decide_True by (unfold DLP_MSZ_MAX; lia). cbn. f_equal. lia.
Qed.

(** ** Properties *)

(** The arguments a reorder function takes. *)
Record reorder_args_valid (x : reorder_args) : Prop := mk_reorder_args_valid {
  rv_chars : valid_order (ro_order x) /\ valid_trans (ro_trans x) /\ bad_mat_type (ro_mat_type x) = false;
  rv_ptrs : in_null x = false /\ out_null x = false;
  rv_dims : valid_dim (ro_k x) /\ valid_dim (ro_n x);
  rv_ld : valid_ld (ro_order x) (ro_trans x) (ro_k x) (ro_n x) (ro_ld x);
}.

Lemma reorder_check_spec x :
  (AOCL_DLP_REORDER_CHECK (ro_order x) (ro_trans x) (ro_mat_type x) (in_null x) (out_null x)
     (ro_k x) (ro_n x) (ro_ld x)).2 = DLP_CLSC_SUCCESS <-> reorder_args_valid x.
Proof.
  unfold AOCL_DLP_REORDER_CHECK. chain_cases. split.
  - intros (Ho%bad_order_spec & Ht%bad_trans_spec & Hm & Hi & Hr & Hk%bad_dim_spec & Hn%bad_dim_spec & Hl1 & Hl2 & Hl3 & _).
    split; try done. by apply ld_guards_spec.
  - intros [(Ho & Ht & Hm) [Hi Hr] [Hk Hn] Hl]. rewrite bad_order_spec, bad_trans_spec, !bad_dim_spec.
    apply ld_guards_spec in Hl as (? & ? & ?); [|done..]. by split_and!.
Qed.

(** The strides are those of the caller's matrix. *)
Lemma reorder_strides_index order trans ld :
  valid_order order -> valid_trans trans ->
  exists rs cs, reorder_strides order (dlp_param_map_netlib_to_dlp_trans trans) ld = Some (rs, cs) /\
    forall p j, rs * p + cs * j = element_index order trans ld p j.
Proof.
  intros Ho Ht. unfold reorder_strides, element_index.
  assert (dlp_is_notrans (dlp_param_map_netlib_to_dlp_trans trans) = notrans trans) as ->.
  { unfold valid_trans, notrans, istrans, dlp_param_map_netlib_to_dlp_trans in *.
    destruct (is_char trans "n" "N"); [done|]. by destruct Ht as [| ->]. }
  destruct (order_cases order Ho) as [[-> Ec]|[-> Ec]], (notrans trans); rewrite ?Ec; cbn [eqb];
    eexists _, _; (split; [reflexivity|]); intros; lia.
Qed.

Lemma check_metadata_answers {B} (Q : B -> Prop) metadata c (k : outcome B) :
  blksz_pos (blksz c) -> answers Q k -> answers Q (check_metadata metadata c ;; k).
Proof.
  intros Hb Hk. unfold check_metadata. destruct (validate_total (am_blocking <$> metadata) c Hb) as [err ->].
  cbn. unfold check. destruct (bool_decide (err = DLP_CLSC_SUCCESS)) eqn:E; cbn; [done|].
  by apply bool_decide_eq_false in E.
Qed.

(** The blocks of the tiles are those the packed layout needs. *)
Lemma packb_blocks `{KernelFrame} dtype n k cs_b c c' :
  int8_datatype dtype -> blksz_pos (blksz c) ->
  dlp_init_and_get_packb_kernel_hndl dtype n k cs_b c = (true, c') ->
  blksz_pos (blksz (dlp_upd_pack_strides dtype c')) /\
  (NR (blksz (dlp_upd_pack_strides dtype c')) | NC (blksz (dlp_upd_pack_strides dtype c'))).
Proof.
  intros Hi Hb Hp.
  assert (blksz (dlp_upd_pack_strides dtype c') = blksz c') as ->
    by (unfold dlp_upd_pack_strides; by destruct (_ ≫= _) as [[]|]).
  unfold dlp_init_and_get_packb_kernel_hndl in Hp. destruct (getKernelDatatype dtype) as [d|]; [|done].
  set (pq := mk_packb_request _ _ _ _ _ _ _ _ _) in Hp. destruct (Z.leb_spec (packb_panel_dim pq) 0) as [|Hpd]; [done|].
  injection Hp as _ <-. unfold set_blksz. cbn [blksz]. pose proof Hb as [].
  destruct (rounded_up (NC (blksz c)) (packb_panel_dim pq)) as [HNC Hd]; [lia..|].
  split; [split; cbn; lia|exact Hd].
Qed.

(** Blocks with which the elements have places in the buffer. *)
Lemma check_blocks_layout {B} (Q : B -> Prop) signed lcntx n k (o : outcome B) :
  blksz_pos (blksz lcntx) -> (NR (blksz lcntx) | NC (blksz lcntx)) -> 0 <= n -> 0 <= k ->
  (layout_ok n k (NR (blksz lcntx)) 16 (NC (blksz lcntx)) (KC (blksz lcntx)) 4 -> answers Q o) ->
  answers Q (check_blocks signed lcntx ;; o).
Proof.
  intros Hb Hd Hn Hk H. unfold check_blocks. rewrite min_NR_16. apply answers_fail_if; [done|].
  intros Hl%negb_false_iff. apply H. apply blocks_checked_layout; [|done..]. pose proof Hb as [].
  split; [done|]. split; [lia|]. apply Z.mod_divide; [lia|done].
Qed.

(** C8. Reordering prepares exactly what a GEMM takes.  A call of
    [aocl_reorder_s8s8s32os32] or [aocl_reorder_u8s8s32os32] on an initialised library is
    never undefined: it reports an error other than success, or, in a buffer of the size
    the query answers, in a build without OpenMP or with the team asked for, and with a
    generated packing kernel that keeps its contract, it stays inside the buffer in every
    interleaving of its threads and leaves the matrix where a GEMM call with a reordered
    B of these dimensions and blocks reads it: every element of the caller's matrix at
    its place and, for s8, 128 times the column sums behind.
    Block sizes of the caller are taken not to overflow [md_t] ([merge_in_range]). *)
Theorem int8_reorder_ready `{KernelFrame} (signed : bool) (env : api_env) (x : reorder_args)
    (metadata : option api_metadata) (g : lib_state) (tl : tl_state) (omp_team : Z -> Z)
    (Bmem : Z -> Z) (K : kernels) :
  env_ready env (int8_op signed) -> team_full omp_team ->
  answers (fun w => work_laws Bmem K w -> forall b size,
      get_reorder_buf_size signed env (ro_order x) (ro_trans x) (ro_mat_type x) (ro_k x) (ro_n x) metadata = Value size ->
      size <= pb_size b ->
      reorder_ends signed (openmp env) omp_team Bmem K (ro_n x) (ro_k x) w b (fun b' =>
        pb_size b' = pb_size b /\
        forall y lcntx, asks_reordered (mem_format_b y) = true -> arg_n y = ro_n x -> arg_k y = ro_k x ->
          work_blocks w lcntx ->
          caller_B signed lcntx y (pb_bytes b')
            (fun p j => load_i8 Bmem (element_index (ro_order x) (ro_trans x) (ro_ld x) p j))))
    (reorder_entry signed env x metadata g tl).1.1.
Proof.
  intros Henv Homp. unfold reorder_entry.
  assert (answers (fun st => reorder_args_valid x /\ exists rs cs, st = Some (rs, cs) /\
    forall p j, rs * p + cs * j = element_index (ro_order x) (ro_trans x) (ro_ld x) p j) (reorder_prepare env x)) as Hp.
  { unfold reorder_prepare. apply answers_fail_if; [done|intros _]. apply answers_check. intros Hv%reorder_check_spec.
    pose proof Hv as [(Ho & Ht & _) _ _ _].
    destruct (reorder_strides_index (ro_order x) (ro_trans x) (ro_ld x) Ho Ht) as (rs & cs & -> & Hi).
    apply answers_fail_if; [done|intros _]. cbn. eauto 10. }
  destruct (reorder_prepare env x) as [|e|st]; [done|done|]. destruct Hp as (Hv & rs & cs & -> & Hidx).
  pose proof (rv_dims _ Hv) as [Hk Hn].
  assert (forall size, get_reorder_buf_size signed env (ro_order x) (ro_trans x) (ro_mat_type x) (ro_k x) (ro_n x) metadata
    = Value size -> size = buf_bytes signed (ro_k x) (ro_n x)) as Hsize.
  { intros size. unfold get_reorder_buf_size. rewrite int8_buf_size_eq by done.
    unfold check, check_metadata, check_blocks. rewrite !fail_if_value. intros (_ & _ & E).
    apply bind_value in E as (c & _ & E). apply bind_value in E as ([] & _ & E).
    rewrite fail_if_value in E. destruct E as [_ [= <-]]. done. }
  unfold valid_dim in *. destruct (Z.eqb_spec (ro_n x) 1) as [En|En].
  - cbn. intros _ b size Hs%Hsize Hle. subst size. unfold buf_bytes in Hle. rewrite En in Hle. cbn in Hle.
    destruct (gather_column signed Bmem rs (ro_k x) b) as (b' & E & Hsb & [He Hc]); [lia|done|].
    exists b'. split; [exact E|]. split; [done|]. intros y lcntx Hy Hyn Hyk _. unfold caller_B. rewrite Hy, Hyn, En, Hyk.
    cbn. split.
    + intros p Hp. rewrite He by done. f_equal. rewrite <- Hidx. lia.
    + intros Hsg. rewrite Hc by done. do 2 f_equal. apply zsum_ext. intros p Hp. f_equal. rewrite <- Hidx. lia.
  - destruct (run _ g tl) as [[r g2] tl2]. cbn [fst]. unfold reorder_launch.
    eapply answers_bind; [by apply call_cntx_answers|]. intros c Hb. apply answers_check. intros _.
    destruct (dlp_init_and_get_packb_kernel_hndl _ _ _ _ _) as [base c2] eqn:Ep.
    apply answers_fail_if; [done|]. intros ->%negb_false_iff.
    destruct (packb_blocks (int8_dtype signed) _ _ _ _ _ ltac:(by destruct signed) Hb Ep) as [Hb2 Hd2].
    set (c3 := dlp_upd_pack_strides _ _) in *. apply check_metadata_answers; [done|].
    apply (check_blocks_layout _ _ _ (ro_n x) (ro_k x)); [done|done|lia|lia|]. intros Hl.
    cbn. intros HK b size Hs%Hsize Hle. subst size. unfold buf_bytes in Hle.
    rewrite (proj2 (Z.eqb_neq _ _) En) in Hle.
    destruct (tuned_reorderb_ok signed c3 rs cs (ro_n x) (ro_k x) Bmem K Hl HK (openmp env) omp_team (num_threads r) b Homp Hle)
      as (b0 & ls & E0 & Els & Hrun).
    exists b0, ls. split; [done|]. split; [done|]. intros ws Hws. destruct (Hrun ws Hws) as (b' & E & Hsb & [He Hc]).
    exists b'. split; [done|]. split; [done|]. intros y lcntx Hy Hyn Hyk (EN & EC & EK). unfold caller_B.
    rewrite Hy, Hyn, Hyk, (proj2 (Z.eqb_neq _ _) En). split; rewrite <- ?EN, <- ?EC, <- ?EK.
    + intros p j Hp Hj. rewrite He by done. f_equal. apply Hidx.
    + intros Hsg j Hj. rewrite Hc by done. do 2 f_equal. apply zsum_ext. intros p Hp. f_equal. apply Hidx.
Qed.

(** A reordered matrix of 70 columns and 5 rows. *)
Definition example_reorder : reorder_args := mk_reorder_args "r" "n" "B" false false 5 70 75.

(** A product with the reordered matrix. *)
Definition example_product : gemm_args :=
  mk_gemm_args "r" "n" "n" 7 70 5 3 false 8 "n" false 75 "r" 2 false 70.

Lemma int8_reorder_ready_witness :
  exists lcntx rs cs nt g' tl',
    aocl_reorder_s8s8s32os32 example_api_env example_reorder None lib_init tl_init
      = (Value (ReorderTiles lcntx rs cs nt), g', tl') /\
    aocl_get_reorder_buf_size_s8s8s32os32 example_api_env "r" "n" "B" 5 70 None = Value 960 /\
    reorder_ends true true (fun t => t) example_Bm (ref_kernels true lcntx (fun _ => 0) 1 example_Bm rs cs 0) 70 5
      (ReorderTiles lcntx rs cs nt) (mk_pack_buf 960 (fun _ => 9)) (fun b' =>
        pb_size b' = 960 /\ caller_B true lcntx example_product (pb_bytes b')
          (fun p j => load_i8 example_Bm (element_index "r" "n" 75 p j))).
Proof.
  pose proof (fun lcntx rs cs => int8_reorder_ready true example_api_env example_reorder None lib_init tl_init
    (fun t => t) example_Bm (ref_kernels true lcntx (fun _ => 0) 1 example_Bm rs cs 0)
    (proj1 example_env_ready) ltac:(by intros t Ht)) as H.
  destruct (reorder_entry true example_api_env example_reorder None lib_init tl_init) as [[o g'] tl'] eqn:E.
  assert (exists lcntx rs cs nt, o = Value (ReorderTiles lcntx rs cs nt) /\ blksz lcntx = mk_blksz 144 1024 2048 64 6)
    as (lcntx & rs & cs & nt & -> & Eb).
  { change o with (o, g', tl').1.1. rewrite <- E. do 4 eexists. split; vm_compute; reflexivity. }
  exists lcntx, rs, cs, nt, g', tl'. split; [exact E|].
  assert (get_reorder_buf_size true example_api_env "r" "n" "B" 5 70 None = Value 960) as Hsz by (vm_compute; reflexivity).
  split; [exact Hsz|]. specialize (H lcntx rs cs). cbn [fst answers] in H.
  specialize (H ltac:(apply ref_packb_laws; rewrite Eb; [done|by exists 4])
    (mk_pack_buf 960 (fun _ => 9)) 960 Hsz ltac:(done)).
  cbn [reorder_ends] in H |- *. destruct H as (b0 & ls & H0 & Hls & Hrun). exists b0, ls. split; [exact H0|]. split; [exact Hls|].
  intros ws Hws. destruct (Hrun ws Hws) as (b' & Hb' & Hs & HB). exists b'. split; [exact Hb'|]. split; [exact Hs|].
  apply (HB example_product lcntx); [reflexivity|reflexivity|reflexivity|]. split_and!; reflexivity.
Defined.
