(* ===== verification/ApiReorderRef.v ===== *)
(** * The reference reorder and unreorder functions of the API
    (classic/aocl_gemm_s8s8s32os32_utils.c, aocl_gemm_u8s8s32os32_utils.c,
    aocl_gemm_bf16_utils.c, aocl_gemm_f32f32f32of32_utils.c, aocl_gemm_fp16_utils.c)

    One function per data type and direction, the same code but for a few steps: the
    record [ref_type] tells them apart.  The work is the walk of [Reorder] over the
    caller's two buffers or the copy of one column; the s8 reorder adds the column sums
    behind the matrix.  With them the size queries of the types. *)
From S2P Require Import Prelude Word DlpTypes PostOpTypes PostOps Config Runtime GetThreading.
From S2P Require Import ThreadUtils ThreadDecor ByteStore ReorderLayout Reorder GemmCheck KernelSelect.
From Stdlib Require Import Ascii.
From stdpp Require Import gmap strings.
From S2P Require Import GemmDriver TeamMachine TeamCorrect GemmCalls ReorderedTeam PackedTeam GemvTeam.
From S2P Require Import ReorderBf16.
From S2P Require Import Api ApiResult ReorderInt8 ApiReorder.
#[local] Open Scope Z_scope.

(** ** The code *)

(** What tells the functions apart: the operation; the type the decision engine is
    asked about, where it is; [sizeof] of an element; the row interleave and the column
    padding ([None]: the panel width) of the layout; the bytes the size query answers
    for [NR], [k] and [n]; are there column sums; is an unknown order a return; does
    the reorder settle its blocks before it looks for a vector. *)
Record ref_type := mk_ref_type {
  rf_op : AOCL_DLP_OPERATION_TYPE;
  rf_engine : option kernel_datatype_t;
  rf_size : Z;
  rf_k_factor : Z;
  rf_min_NR : option Z;
  rf_buf_size : Z -> Z -> Z -> outcome Z;
  rf_col_sums : bool;
  rf_order_return : bool;
  rf_blocks_first : bool;
}.

Definition dlp_get_packb_fp16_min_NR : Z := 32.

(** The size arithmetic of the queries. *)
Definition bf16_buf_size (k n : Z) : outcome Z :=
  let n_reorder := if n =? 1 then 1 else dlp_make_multiple_of_n n 16 in
  let k_reorder := if n =? 1 then k else dlp_make_multiple_of_n k 2 in
  or_dimension_error (dlp_reorder_size_bytes k_reorder n_reorder 2 0).

Definition f32_buf_size (NR k n : Z) : outcome Z :=
  let n_reorder := if n =? 1 then 1 else ((n + NR - 1) `quot` NR) * NR in
  or_dimension_error (dlp_reorder_size_bytes k n_reorder 4 0).

Definition f16_buf_size (NR k n : Z) : outcome Z :=
  let min_NR := dlp_get_packb_fp16_min_NR in
  let n_pad := if min_NR <? NR then NR else min_NR in
  let n_reorder := if n =? 1 then 1 else dlp_make_multiple_of_n n n_pad in
  or_dimension_error (dlp_reorder_size_bytes k n_reorder 2 0).

Definition s8_type : ref_type :=
  mk_ref_type S8S8S32OS32 (Some DLP_KERNEL_S8S8S32OS32) 1 4 (Some dlp_get_packb_s8s8s32o32_min_NR)
    (fun _ => int8_buf_size true) true true false.
Definition u8_type : ref_type :=
  mk_ref_type U8S8S32OS32 (Some DLP_KERNEL_U8S8S32OS32) 1 4 (Some dlp_get_packb_u8s8s32o32_min_NR)
    (fun _ => int8_buf_size false) false true false.
Definition bf16_type : ref_type :=
  mk_ref_type BF16BF16F32OF32 (Some DLP_KERNEL_BF16BF16F32OF32) 2 2
    (Some dlp_get_packb_bf16bf16f32of32_min_NR) (fun _ => bf16_buf_size) false false false.
Definition f32_type : ref_type := mk_ref_type F32F32F32OF32 None 4 1 None f32_buf_size false false true.
Definition f16_type : ref_type :=
  mk_ref_type F16F16F16OF16 None 2 1 (Some dlp_get_packb_fp16_min_NR) f16_buf_size false false false.

Definition ref_types : list ref_type := [s8_type; u8_type; bf16_type; f32_type; f16_type].

Definition only_B_matrix (mat_type : ascii) : outcome unit :=
  fail_if (negb (bool_decide (dlp_param_map_char_to_lpmat_type mat_type = B_MATRIX))) DLP_CLSC_NOT_SUPPORTED.

Section calls.
Context `{KernelFrame}.
Context (t : ref_type) (env : api_env).

Definition ref_min_NR (NR : Z) : Z := default NR (rf_min_NR t).

(** The legality test of the blocks. *)
Definition ref_check_blocks (lcntx : dlp_gemm_cntx_t) : outcome unit :=
  let NR := NR (blksz lcntx) in
  fail_if (negb (dlp_reorder_ref_blocks_legal NR (ref_min_NR NR) (KC (blksz lcntx)) (rf_k_factor t)))
    DLP_CLSC_INVALID_BLOCK_PARAMS.

Definition ref_get_buf_size (order trans mat_type : ascii) (k n : Z) (metadata : option api_metadata) : outcome Z :=
  check (AOCL_DLP_REORDER_BUF_SIZE_CHECK order trans mat_type k n).2 ;;
  only_B_matrix mat_type ;;
  lcntx ← call_cntx env (rf_op t) metadata;
  check_metadata metadata lcntx ;;
  ref_check_blocks lcntx ;;
  rf_buf_size t (NR (blksz lcntx)) k n.

(** The blocks the walk uses, those of the decision engine where it is asked. *)
Definition ref_cntx (n k cs_b : Z) (metadata : option api_metadata) : outcome dlp_gemm_cntx_t :=
  lcntx_g ← call_cntx env (rf_op t) metadata;
  lcntx_g ← match rf_engine t with
            | Some k_dtype =>
                check (dlp_gemm_validate_hints (Some lcntx_g)) ;;
                mret (dlp_upd_pack_strides k_dtype (dlp_init_and_get_packb_kernel_hndl k_dtype n k cs_b lcntx_g).2)
            | None => mret lcntx_g
            end;
  check_metadata metadata lcntx_g ;;
  ref_check_blocks lcntx_g ;;
  mret lcntx_g.

(** [rs_b] and [cs_b] of a reorder; [None] is the return for an unknown order. *)
Definition ref_strides (x : reorder_args) : option (Z * Z) :=
  match reorder_strides (ro_order x) (dlp_param_map_netlib_to_dlp_trans (ro_trans x)) (ro_ld x) with
  | None => if rf_order_return t then None else Some (0, 0)
  | st => st
  end.

Definition ref_prepare (x : reorder_args) : outcome (option (Z * Z)) :=
  check (AOCL_DLP_REORDER_CHECK (ro_order x) (ro_trans x) (ro_mat_type x) (in_null x) (out_null x)
           (ro_k x) (ro_n x) (ro_ld x)).2 ;;
  match ref_strides x with
  | None => mret None
  | Some st => only_B_matrix (ro_mat_type x) ;; mret (Some st)
  end.

(** Here [in_null] and [out_null] are those of the reordered and the output buffer. *)
Definition unref_prepare (x : reorder_args) : outcome (option (Z * Z)) :=
  check (AOCL_DLP_UNREORDER_CHECK (ro_order x) (ro_trans x) (ro_mat_type x) (in_null x) (out_null x)
           (ro_k x) (ro_n x) (ro_ld x)).2 ;;
  let st := dlp_reorder_plain_strides (ro_order x) (dlp_param_map_netlib_to_dlp_trans (ro_trans x)) (ro_ld x) in
  only_B_matrix (ro_mat_type x) ;; mret (Some st).

(** The rest of a call: a vector needs no blocks, and no runtime unless the blocks come
    first. *)
Definition ref_entry (blocks_first : bool) (prepared : outcome (option (Z * Z))) (x : reorder_args)
    (metadata : option api_metadata) (g : lib_state) (tl : tl_state) : outcome reorder_work * lib_state * tl_state :=
  match prepared with
  | Undefined => (Undefined, g, tl)
  | Error e => (Error e, g, tl)
  | Value None => (Value ReorderNothing, g, tl)
  | Value (Some (rs_b, cs_b)) =>
      let work c (rntm_g : dlp_rntm_t) :=
        if ro_n x =? 1 then ReorderColumn rs_b else ReorderTiles c rs_b cs_b (num_threads rntm_g) in
      if blocks_first then
        match ref_cntx (ro_n x) (ro_k x) cs_b metadata with
        | Value c =>
            let '(rntm_g, g, tl) := run (dlp_rntm_init_from_global (api_rt env)) g tl in
            (Value (work c rntm_g), g, tl)
        | Error e => (Error e, g, tl)
        | Undefined => (Undefined, g, tl)
        end
      else if ro_n x =? 1 then (Value (ReorderColumn rs_b), g, tl)
      else
        let '(rntm_g, g, tl) := run (dlp_rntm_init_from_global (api_rt env)) g tl in
        (c ← ref_cntx (ro_n x) (ro_k x) cs_b metadata; mret (work c rntm_g), g, tl)
  end.

Definition reorder_reference (x : reorder_args) := ref_entry (rf_blocks_first t) (ref_prepare x) x.
Definition unreorder_reference (x : reorder_args) := ref_entry false (unref_prepare x) x.
End calls.

(** *** The functions *)

Definition aocl_get_reorder_buf_size_bf16bf16f32of32 := ref_get_buf_size bf16_type.
Definition aocl_get_reorder_buf_size_f32f32f32of32 := ref_get_buf_size f32_type.
Definition aocl_get_reorder_buf_size_f16f16f16of16 := ref_get_buf_size f16_type.

Definition aocl_reorder_s8s8s32os32_reference `{KernelFrame} := reorder_reference s8_type.
Definition aocl_reorder_u8s8s32os32_reference `{KernelFrame} := reorder_reference u8_type.
Definition aocl_reorder_bf16bf16f32of32_reference `{KernelFrame} := reorder_reference bf16_type.
Definition aocl_reorder_f32f32f32of32_reference `{KernelFrame} := reorder_reference f32_type.
Definition aocl_reorder_f16f16f16of16_reference `{KernelFrame} := reorder_reference f16_type.

Definition aocl_unreorder_s8s8s32os32_reference `{KernelFrame} := unreorder_reference s8_type.
Definition aocl_unreorder_u8s8s32os32_reference `{KernelFrame} := unreorder_reference u8_type.
Definition aocl_unreorder_bf16bf16f32of32_reference `{KernelFrame} := unreorder_reference bf16_type.
Definition aocl_unreorder_f32f32f32of32_reference `{KernelFrame} := unreorder_reference f32_type.
Definition aocl_unreorder_f16f16f16of16_reference `{KernelFrame} := unreorder_reference f16_type.

(** *** The work on the buffers *)

(** The copy of a column, in either direction. *)
Definition ref_column (src : buffer) (to_packed : bool) (es k rs_b : Z) : option (list store) :=
  if rs_b =? 1 then memcpy src 0 0 (k * es)
  else for_each (seqZ 0 k) (fun k0 =>
         if to_packed then memcpy src (k0 * es) (k0 * rs_b * es) es
         else memcpy src (k0 * rs_b * es) (k0 * es) es).

(** The sum of [k] bytes read as [int8_t], in an [int32_t]. *)
Definition sum_i8 (m : buffer) (addr : Z -> Z) (k : Z) : option Z :=
  foldl (fun acc i => acc ← acc; v ← m !! addr i; Some (to_i32 (acc + to_i8 v))) (Some 0) (seqZ 0 k).

Definition stores_i32 (a v : Z) : list store := stores_at a ((fun i => v / 2 ^ (8 * i) mod 2 ^ 8) <$> seqZ 0 4).

(** The sum of a reordered column, behind it. *)
Definition ref_column_sum (pack_b : buffer) (k : Z) : option buffer :=
  acc ← sum_i8 pack_b (fun k0 => k0) k;
  apply_stores pack_b (stores_i32 (dlp_gemm_col_sum_byte_offset k) (to_i32 (acc * 128))).

Definition dlp_reorder_s8_write_col_sums (pack_b b : buffer) (k n rs_b cs_b : Z) : option buffer :=
  let k_updated := dlp_make_multiple_of_n k 4 in
  let n_updated := dlp_make_multiple_of_n n 16 in
  let sums := n_updated * k_updated in
  zeros ← for_each (seqZ 0 n_updated) (fun idx => Some (stores_i32 (sums + 4 * idx) 0));
  totals ← for_each (seqZ 0 n) (fun j =>
    acc ← sum_i8 b (fun i => i * rs_b + j * cs_b) k;
    Some (stores_i32 (sums + 4 * j) (to_i32 (acc * 128))));
  apply_stores pack_b (zeros ++ totals).

(** The walk of the tiles with the blocks of [lcntx]. *)
Definition ref_tiles (t : ref_type) (omp_team : Z -> Z) (src : buffer) (to_packed : bool)
    (lcntx : dlp_gemm_cntx_t) (n k rs_b cs_b n_threads : Z) : option (list (list store)) :=
  let b := blksz lcntx in
  (if to_packed then dlp_reorder_ref_reorderb else dlp_reorder_ref_unreorderb)
    omp_team src (rf_size t) (rf_k_factor t) n k (NR b) (ref_min_NR t (NR b)) (NC b) (KC b) rs_b cs_b n_threads.

(** The stores of the work done one after the other, in any interleaving of the team,
    and what follows them. *)
Definition stores_end (ls : option (list (list store))) (m : buffer) (next : buffer -> option buffer)
    (P : buffer -> Prop) : Prop :=
  exists l, ls = Some l /\ forall ws, interleaving l ws -> exists m1 m2,
    apply_stores m ws = Some m1 /\ next m1 = Some m2 /\ P m2.

(** [ref_reorder_ends]: the work of a reorder is defined, whatever the interleaving of
    the threads, and leaves a buffer that satisfies [P]. *)
Definition ref_reorder_ends (t : ref_type) (omp_team : Z -> Z) (b : buffer) (n k : Z) (w : reorder_work)
    (pack_b : buffer) (P : buffer -> Prop) : Prop :=
  match w with
  | ReorderNothing => P pack_b
  | ReorderColumn rs_b =>
      stores_end (l ← ref_column b true (rf_size t) k rs_b; Some [l]) pack_b
        (fun m => if rf_col_sums t then ref_column_sum m k else Some m) P
  | ReorderTiles lcntx rs_b cs_b n_threads =>
      stores_end (ref_tiles t omp_team b true lcntx n k rs_b cs_b n_threads) pack_b
        (fun m => if rf_col_sums t then dlp_reorder_s8_write_col_sums m b k n rs_b cs_b else Some m) P
  end.

Definition ref_unreorder_ends (t : ref_type) (omp_team : Z -> Z) (pack_b : buffer) (n k : Z) (w : reorder_work)
    (out : buffer) (P : buffer -> Prop) : Prop :=
  match w with
  | ReorderNothing => P out
  | ReorderColumn rs_b => stores_end (l ← ref_column pack_b false (rf_size t) k rs_b; Some [l]) out Some P
  | ReorderTiles lcntx rs_b cs_b n_threads =>
      stores_end (ref_tiles t omp_team pack_b false lcntx n k rs_b cs_b n_threads) out Some P
  end.

(** ** The work on the buffers *)

(** A buffer as a function, for the bytes it has. *)
Definition bytes (m : buffer) (a : Z) : Z := default 0 (m !! a).

Lemma bytes_some (m : buffer) a : is_Some (m !! a) -> m !! a = Some (bytes m a).
Proof. unfold bytes. by intros [x ->]. Qed.

(** Stores that settle on [v] have that result. *)
Lemma stores_ok_apply v X l (m : buffer) :
  stores_ok v X l -> (forall a, X a -> is_Some (m !! a)) ->
  exists m', apply_stores m l = Some m' /\
    (forall a, X a -> m' !! a = Some (v a)) /\ (forall a, ~ X a -> m' !! a = m !! a).
Proof.
  intros [Hs HX] Hm. destruct (settles_apply v l m Hs) as (m' & E & Hv).
  - intros [a x] Hin. apply Hm, HX. eauto.
  - exists m'. split; [done|]. split; intros a Ha; apply Hv.
    + apply HX in Ha as [x Hx]. by apply (list_elem_of_fmap_2 fst) in Hx.
    + intros ([a' x] & -> & Hx)%list_elem_of_fmap. apply Ha, HX. eauto.
Qed.

(** Stores do not free memory. *)
Lemma stores_keep l (m m' : buffer) a : apply_stores m l = Some m' -> is_Some (m !! a) -> is_Some (m' !! a).
Proof.
  revert m. induction l as [|w l IH]; intros m E Ha; [by injection E as <-|].
  cbn in E. unfold apply_store in E. destruct (m !! w.1) as [y|] eqn:Ey; [|done]. cbn in E.
  apply (IH _ E), lookup_insert_is_Some'. by right.
Qed.

Lemma stores_i32_finals v a z :
  (forall i, 0 <= i < 4 -> v (a + i) = z / 2 ^ (8 * i) mod 2 ^ 8) ->
  finals_ok v (fun x => a <= x < a + 4) (stores_i32 a z).
Proof.
  intros Hv x y. unfold stores_i32. rewrite stores_at_elem. split.
  - intros (i & Hi & [= -> ->]). split; [lia|]. symmetry. by apply Hv.
  - intros [Hx ->]. exists (x - a). split; [lia|]. rewrite <- Hv by lia. by replace (a + (x - a)) with x by lia.
Qed.

Lemma load_i32_bytes (m : buffer) a z :
  (forall i, 0 <= i < 4 -> m !! (a + i) = Some (z / 2 ^ (8 * i) mod 2 ^ 8)) -> load_i32 (bytes m) a = to_i32 z.
Proof.
  intros H. rewrite <- (load_i32_store (fun _ => 0) a z). apply load_i32_ext. intros x Hx.
  unfold bytes, store_i32. rewrite (proj2 (Z.leb_le a x)), (proj2 (Z.ltb_lt x _)) by lia. cbn [andb].
  replace x with (a + (x - a)) at 1 by lia. by rewrite H by lia.
Qed.

Lemma sum_i8_ok (m : buffer) addr k :
  0 <= k -> (forall i, 0 <= i < k -> is_Some (m !! addr i)) ->
  sum_i8 m addr k = Some (to_i32 (zsum (fun i => load_i8 (bytes m) (addr i)) 0 k)).
Proof.
  intros Hk. unfold sum_i8. pattern k. revert k Hk. apply natlike_ind; [done|].
  intros k Hk IH Hm. unfold Z.succ. rewrite seqZ_app, foldl_app, IH by (intros; try apply Hm; lia).
  rewrite Z.add_0_l, (seqZ_cons k), seqZ_nil by lia. cbn [foldl mbind option_bind].
  rewrite (bytes_some m (addr k)) by (apply Hm; lia). cbn [mbind option_bind]. f_equal.
  rewrite to_i32_add_l. f_equal. rewrite zsum_split, Z.add_0_l by lia. f_equal. unfold zsum.
  rewrite (seqZ_cons k), seqZ_nil by lia. cbn [foldr]. unfold load_i8. lia.
Qed.

(** [acc * 128] for the wrapped sum. *)
Lemma wrapped_128 z : to_i32 (to_i32 (to_i32 z * 128)) = to_i32 (128 * z).
Proof. rewrite to_i32_idemp. apply to_i32_congr. rewrite Z.mul_mod, to_i32_mod, <- Z.mul_mod by lia. f_equal. lia. Qed.

(** The sum of a column goes behind it. *)
Lemma column_sum_ok (m : buffer) k :
  0 <= k -> (forall a, 0 <= a < dlp_gemm_col_sum_byte_offset k + 4 -> is_Some (m !! a)) ->
  exists m', ref_column_sum m k = Some m' /\
    (forall a, ~ (dlp_gemm_col_sum_byte_offset k <= a < dlp_gemm_col_sum_byte_offset k + 4) -> m' !! a = m !! a) /\
    load_i32 (bytes m') (dlp_gemm_col_sum_byte_offset k) = to_i32 (128 * zsum (load_i8 (bytes m)) 0 k).
Proof.
  intros Hk Hm. pose proof (column_offset k Hk) as Hoff. unfold ref_column_sum.
  rewrite sum_i8_ok by (intros; try apply Hm; lia). cbn [mbind option_bind].
  set (o := dlp_gemm_col_sum_byte_offset k) in *. set (z := to_i32 (_ * 128)).
  destruct (stores_ok_apply (fun x => z / 2 ^ (8 * (x - o)) mod 2 ^ 8) (fun x => o <= x < o + 4) (stores_i32 o z) m)
    as (m' & E & Hin & Hout).
  - apply finals_stores_ok, stores_i32_finals. intros i Hi. by replace (o + i - o) with i by lia.
  - intros a Ha. apply Hm. lia.
  - exists m'. split; [exact E|]. split; [intros a Ha; apply Hout; lia|].
    rewrite (load_i32_bytes m' o z); [apply wrapped_128|]. intros i Hi. rewrite Hin by lia.
    by replace (o + i - o) with i by lia.
Qed.

(** The column sums go behind the matrix: first zeros, then the sums. *)
Lemma write_col_sums_ok (m b : buffer) k n rs cs :
  0 <= k -> 0 <= n -> let o := reorder_sums n k in
  (forall p j, 0 <= p < k -> 0 <= j < n -> is_Some (b !! (p * rs + j * cs))) ->
  (forall a, o <= a < o + 4 * dlp_reorder_round_up n 16 -> is_Some (m !! a)) ->
  exists m', dlp_reorder_s8_write_col_sums m b k n rs cs = Some m' /\
    (forall a, ~ (o <= a < o + 4 * dlp_reorder_round_up n 16) -> m' !! a = m !! a) /\
    forall j, 0 <= j < n -> load_i32 (bytes m') (o + 4 * j) =
      to_i32 (128 * zsum (fun p => load_i8 (bytes b) (p * rs + j * cs)) 0 k).
Proof.
  intros Hk Hn o Hb Hm. unfold dlp_reorder_s8_write_col_sums. fold (reorder_sums n k). fold o.
  change (dlp_make_multiple_of_n n 16) with (dlp_reorder_round_up n 16).
  pose proof (round_up_bounds n 16 ltac:(lia) ltac:(lia)) as [Hn16 _]. set (n16 := dlp_reorder_round_up n 16) in *.
  set (z j := to_i32 (to_i32 (zsum (fun p => load_i8 (bytes b) (p * rs + j * cs)) 0 k) * 128)).
  set (w := fun x => (if (x - o) / 4 <? n then z ((x - o) / 4) else 0) / 2 ^ (8 * ((x - o) mod 4)) mod 2 ^ 8).
  assert (forall j i, 0 <= i < 4 -> w (o + 4 * j + i) = (if j <? n then z j else 0) / 2 ^ (8 * i) mod 2 ^ 8) as Hw.
  { intros j i Hi. unfold w. replace (o + 4 * j + i - o) with (i + j * 4) by lia.
    by rewrite Z.div_add, Z_mod_plus_full, (Z.div_small i), (Z.mod_small i) by lia. }
  destruct (for_each_ok (finals_ok w) (finals_ok_nil w) (finals_ok_app w)
    (fun j => acc ← sum_i8 b (fun i => i * rs + j * cs) k; Some (stores_i32 (o + 4 * j) (to_i32 (acc * 128))))
    (fun j x => o + 4 * j <= x < o + 4 * j + 4) (seqZ 0 n)) as (l2 & E2 & H2).
  { intros j Hj%elem_of_seqZ. rewrite sum_i8_ok by (intros; try apply Hb; lia). eexists. split; [reflexivity|].
    apply stores_i32_finals. intros i Hi. rewrite Hw by done. by rewrite (proj2 (Z.ltb_lt j n)) by lia. }
  set (zeros := fun idx => Some (stores_i32 (o + 4 * idx) 0)).
  destruct (for_each_ok (finals_ok (fun _ => 0)) (finals_ok_nil _) (finals_ok_app _) zeros
    (fun j x => o + 4 * j <= x < o + 4 * j + 4) (seqZ 0 n16)) as (l1 & E1 & H1).
  { intros j Hj. eexists. split; [reflexivity|]. apply stores_i32_finals. intros i Hi. by rewrite Z.div_0_l by lia. }
  rewrite E1. cbn [mbind option_bind]. rewrite E2. cbn [mbind option_bind].
  destruct (stores_ok_apply w (fun x => o <= x < o + 4 * n16) (l1 ++ l2) m) as (m' & E & Hin & Hout).
  - split.
    + apply settles_overwritten; [|by apply (finals_stores_ok w _ _ H2)].
      intros [x y] [(j & Hj%elem_of_seqZ & Hx) Hy]%H1. cbn [fst snd] in *. subst y.
      replace x with (o + 4 * j + (x - (o + 4 * j))) by lia. destruct (Z.ltb_spec j n) as [Hlt|Hge].
      * right. apply H2. split; [|done]. exists j. rewrite elem_of_seqZ. lia.
      * left. rewrite Hw, (proj2 (Z.ltb_ge _ n)) by lia. by rewrite Z.div_0_l by lia.
    + intros x. setoid_rewrite elem_of_app. split.
      * intros [y [[(j & Hj%elem_of_seqZ & Hx) _]%H1|[(j & Hj%elem_of_seqZ & Hx) _]%H2]]; lia.
      * intros Hx. exists 0. left. apply H1. split; [|done]. exists ((x - o) / 4). rewrite elem_of_seqZ.
        pose proof (Z.div_mod (x - o) 4). pose proof (Z.mod_pos_bound (x - o) 4). lia.
  - exact Hm.
  - exists m'. split; [exact E|]. split; [intros a Ha; apply Hout; lia|]. intros j Hj.
    rewrite (load_i32_bytes m' _ (z j)); [apply wrapped_128|]. intros i Hi. rewrite Hin by lia. rewrite Hw by done.
    by rewrite (proj2 (Z.ltb_lt j n)) by lia.
Qed.

(** The copy of a column. *)
Lemma column_ok (src m : buffer) (to_packed : bool) es k rs :
  0 < es -> 0 <= k -> 1 <= rs ->
  let from p := if to_packed then p * rs else p in
  let dest p := if to_packed then p else p * rs in
  (forall p i, 0 <= p < k -> 0 <= i < es -> is_Some (src !! (from p * es + i)) /\ is_Some (m !! (dest p * es + i))) ->
  exists l m', ref_column src to_packed es k rs = Some l /\ apply_stores m l = Some m' /\
    (forall p i, 0 <= p < k -> 0 <= i < es -> m' !! (dest p * es + i) = src !! (from p * es + i)) /\
    forall a, (forall p i, 0 <= p < k -> 0 <= i < es -> a <> dest p * es + i) -> m' !! a = m !! a.
Proof.
  intros Hes Hk Hrs from dest Hm.
  set (row a := if to_packed then a / es else a / es / rs).
  set (v a := bytes src (from (row a) * es + a mod es)).
  assert (forall p i, 0 <= i < es -> v (dest p * es + i) = bytes src (from p * es + i)) as Hv.
  { intros p i Hi. assert ((dest p * es + i) / es = dest p) as Ed by (by apply byte_index; lia).
    assert ((dest p * es + i) mod es = i) as Em by (symmetry; apply (Z.mod_unique _ _ (dest p)); lia).
    unfold v, row. rewrite Em, Ed. unfold dest, from. destruct to_packed; [done|]. by rewrite Z.div_mul by lia. }
  set (X a := exists p, p ∈ seqZ 0 k /\ dest p * es <= a < dest p * es + es).
  assert (exists l, ref_column src to_packed es k rs = Some l /\ finals_ok v X l) as (l & El & Hl).
  { unfold ref_column. destruct (Z.eqb_spec rs 1) as [->|Hne].
    - destruct (memcpy_finals src v 0 0 (k * es)) as (l & -> & Hf).
      + intros i Hi. pose proof (Z.div_mod i es). pose proof (Z.mod_pos_bound i es).
        assert (0 <= i / es < k) by (split; [apply Z.div_pos; lia|apply Z.div_lt_upper_bound; lia]).
        replace (0 + i) with (dest (i / es) * es + i mod es) by (unfold dest; destruct to_packed; lia).
        rewrite Hv by lia. replace (dest (i / es) * es) with (from (i / es) * es) by (unfold from, dest; destruct to_packed; lia).
        apply bytes_some. exact (proj1 (Hm (i / es) (i mod es) ltac:(lia) ltac:(lia))).
      + exists l. split; [done|]. intros a x. rewrite (Hf a x). apply and_iff_compat_r. unfold X. split.
        * intros Ha. exists (a / es). rewrite elem_of_seqZ. pose proof (Z.div_mod a es). pose proof (Z.mod_pos_bound a es).
          assert (0 <= a / es < k) by (split; [apply Z.div_pos; lia|apply Z.div_lt_upper_bound; lia]).
          unfold dest. destruct to_packed; lia.
        * intros (p & Hp%elem_of_seqZ & Ha). unfold dest in Ha. destruct to_packed; nia.
    - apply (for_each_ok (finals_ok v) (finals_ok_nil v) (finals_ok_app v)). intros p Hp%elem_of_seqZ.
      destruct (memcpy_finals src v (dest p * es) (from p * es) es) as (l & E & Hf).
      { intros i Hi. rewrite Hv by done. apply bytes_some. exact (proj1 (Hm p i ltac:(lia) Hi)). }
      exists l. split; [|done]. unfold dest, from in E. destruct to_packed; exact E. }
  destruct (stores_ok_apply v X l m) as (m' & E & Hin & Hout).
  - by apply finals_stores_ok.
  - intros a (p & Hp%elem_of_seqZ & Ha). replace a with (dest p * es + (a - dest p * es)) by lia.
    exact (proj2 (Hm p (a - dest p * es) ltac:(lia) ltac:(lia))).
  - exists l, m'. split; [done|]. split; [done|]. split.
    + intros p i Hp Hi. rewrite Hin by (exists p; rewrite elem_of_seqZ; lia). rewrite Hv by done. symmetry.
      apply bytes_some. exact (proj1 (Hm p i Hp Hi)).
    + intros a Ha. apply Hout. intros (p & Hp%elem_of_seqZ & Hpa). apply (Ha p (a - dest p * es)); lia.
Qed.

(** A single thread has one interleaving. *)
Lemma one_interleaving {A} (l ws : list A) : interleaving [l] ws -> ws = l.
Proof.
  revert l. induction ws as [|w ws IH]; intros l Hi; inversion Hi as [ls Hl|ls i w' l' ws' Hl Hr]; subst.
  - by apply Forall_cons in Hl as [-> _].
  - destruct i as [|i]; [|done]. cbn in Hl. injection Hl as ->. f_equal. by apply IH.
Qed.

Lemma stores_end_weaken ls m next (P Q : buffer -> Prop) :
  stores_end ls m next P -> (forall m', P m' -> Q m') -> stores_end ls m next Q.
Proof.
  intros (l & El & Hl) HPQ. exists l. split; [done|]. intros ws (m1 & m2 & ? & ? & ?)%Hl. exists m1, m2. auto.
Qed.

Lemma ref_reorder_ends_weaken t omp_team b n k w pk0 (P Q : buffer -> Prop) :
  ref_reorder_ends t omp_team b n k w pk0 P -> (forall m, P m -> Q m) -> ref_reorder_ends t omp_team b n k w pk0 Q.
Proof. destruct w; cbn; [auto|intros; by eapply stores_end_weaken..]. Qed.

Lemma ref_unreorder_ends_weaken t omp_team pk n k w out0 (P Q : buffer -> Prop) :
  ref_unreorder_ends t omp_team pk n k w out0 P -> (forall m, P m -> Q m) -> ref_unreorder_ends t omp_team pk n k w out0 Q.
Proof. destruct w; cbn; [auto|intros; by eapply stores_end_weaken..]. Qed.

(** ** What a reordered buffer holds *)

(** Byte [i] of element [(p, j)] of the caller's matrix. *)
Definition matrix_at (t : ref_type) (x : reorder_args) (p j i : Z) : Z :=
  element_index (ro_order x) (ro_trans x) (ro_ld x) p j * rf_size t + i.

(** Its place in the reordered buffer. *)
Definition place (t : ref_type) (n k : Z) (w : reorder_work) (p j : Z) : Z :=
  match w with
  | ReorderTiles c _ _ _ =>
      let b := blksz c in elem_pos n k (NR b) (ref_min_NR t (NR b)) (NC b) (KC b) (rf_k_factor t) p j
  | _ => p
  end.

(** The bytes the work needs. *)
Definition ref_bytes (t : ref_type) (n k : Z) (w : reorder_work) : Z :=
  match w with
  | ReorderTiles c _ _ _ =>
      packed_size n k (ref_min_NR t (NR (blksz c))) (rf_k_factor t) (rf_size t)
      + (if rf_col_sums t then 4 * dlp_reorder_round_up n 16 else 0)
  | _ => if rf_col_sums t then dlp_gemm_col_sum_byte_offset k + 4 else k * rf_size t
  end.

(** The reordered matrix in the buffer that was [pk0], of which no other byte changed. *)
Record ref_reordered (t : ref_type) (x : reorder_args) (w : reorder_work) (b pk0 pk : buffer) : Prop := mk_ref_reordered {
  rr_elem : forall p j i, in_matrix (ro_n x) (ro_k x) p j -> 0 <= i < rf_size t ->
    pk !! (place t (ro_n x) (ro_k x) w p j * rf_size t + i) = b !! matrix_at t x p j i;
  rr_sum : rf_col_sums t = true -> forall j, 0 <= j < ro_n x ->
    load_i32 (bytes pk) (match w with ReorderColumn _ => dlp_gemm_col_sum_byte_offset (ro_k x)
                         | _ => reorder_sums (ro_n x) (ro_k x) + 4 * j end) =
    to_i32 (128 * zsum (fun p => load_i8 (bytes b) (matrix_at t x p j 0)) 0 (ro_k x));
  rr_frame : forall a, ~ (0 <= a < ref_bytes t (ro_n x) (ro_k x) w) -> pk !! a = pk0 !! a;
}.

(** The work of a call with the arguments [x], on blocks with places for all elements. *)
Definition work_of (t : ref_type) (x : reorder_args) (w : reorder_work) : Prop :=
  match w with
  | ReorderNothing => False
  | ReorderColumn rs => ro_n x = 1 /\ 1 <= rs /\
      forall p, p * rs = element_index (ro_order x) (ro_trans x) (ro_ld x) p 0
  | ReorderTiles c rs cs _ => ro_n x <> 1 /\
      let b := blksz c in
      layout_ok (ro_n x) (ro_k x) (NR b) (ref_min_NR t (NR b)) (NC b) (KC b) (rf_k_factor t) /\
      forall p j, p * rs + j * cs = element_index (ro_order x) (ro_trans x) (ro_ld x) p j
  end.

(** A type whose layout is sound and whose size query answers the bytes needed; the
    sums presuppose the 8-bit layout. *)
Record ref_type_ok (t : ref_type) : Prop := mk_ref_type_ok {
  rt_size : 0 < rf_size t;
  rt_sums : rf_col_sums t = true -> rf_size t = 1 /\ rf_k_factor t = 4 /\ rf_min_NR t = Some 16;
  rt_room : forall c c' k n s, valid_dim k -> valid_dim n -> 0 < NR (blksz c) <= 2 ^ 62 ->
    ref_check_blocks t c = Value tt -> (rf_engine t = None -> c' = c) ->
    rf_buf_size t (NR (blksz c)) k n = Value s ->
    ref_bytes t n k (if n =? 1 then ReorderColumn 1 else ReorderTiles c' 1 1 1) <= s;
}.

Lemma bf16_buf_size_eq k n : valid_dim k -> valid_dim n ->
  bf16_buf_size k n = Value (if n =? 1 then k * 2 else packed_size n k 16 2 2).
Proof.
  unfold valid_dim, bf16_buf_size, packed_size. change dlp_make_multiple_of_n with dlp_reorder_round_up. intros Hk Hn.
  pose proof (round_up_bounds k 2 ltac:(lia) ltac:(lia)) as [Hk2 _].
  pose proof (round_up_bounds n 16 ltac:(lia) ltac:(lia)) as [Hn16 _].
  assert (dlp_reorder_round_up k 2 * dlp_reorder_round_up n 16 <= (2 ^ 31 + 16) * (2 ^ 31 + 16))
    by (apply Z.mul_le_mono_nonneg; lia).
  destruct (n =? 1); rewrite size_bytes_eq, decide_True by (unfold DLP_MSZ_MAX; nia); cbn; f_equal; lia.
Qed.

(** The queries of the types without a decision engine pad to the panel width. *)
Lemma padded_buf_size k n q es s :
  valid_dim k -> valid_dim n -> 0 < q <= 2 ^ 62 -> 0 < es < 2 ^ 63 ->
  or_dimension_error (dlp_reorder_size_bytes k (dlp_reorder_round_up n q) es 0) = Value s ->
  s = k * dlp_reorder_round_up n q * es.
Proof.
  unfold valid_dim. intros Hk Hn Hq Hes. pose proof (round_up_bounds n q ltac:(lia) ltac:(lia)) as [Hr _].
  rewrite size_bytes_eq by (unfold DLP_MSZ_MAX; lia). case_decide; [|done]. cbn. intros [= <-]. lia.
Qed.

Lemma int8_type_ok (signed : bool) : ref_type_ok (if signed then s8_type else u8_type).
Proof.
  split; try (destruct signed; (done || split_and!; done)).
  intros c c' k n s Hk Hn _ _ _ Hs.
  assert (s = buf_bytes signed k n) as ->.
  { destruct signed; cbn in Hs; rewrite int8_buf_size_eq in Hs by done; by injection Hs. }
  unfold buf_bytes, ref_bytes, packed_size, reorder_bytes, reorder_sums, col_sums_size. unfold valid_dim in *.
  change dlp_make_multiple_of_n with dlp_reorder_round_up.
  destruct signed, (n =? 1); cbn; unfold dlp_get_packb_s8s8s32o32_min_NR, dlp_get_packb_u8s8s32o32_min_NR; lia.
Qed.

Lemma bf16_type_ok : ref_type_ok bf16_type.
Proof.
  split; [done|done|]. intros c c' k n s Hk Hn _ _ _. cbn [rf_buf_size bf16_type].
  rewrite bf16_buf_size_eq by done. intros [= <-]. destruct (n =? 1); cbn; unfold packed_size, dlp_get_packb_bf16bf16f32of32_min_NR; cbn; lia.
Qed.

Lemma f32_type_ok : ref_type_ok f32_type.
Proof.
  split; [done|done|]. intros c c' k n s Hk Hn HNR _ -> Hs; [|done]. cbn [rf_buf_size f32_type] in Hs.
  unfold f32_buf_size in Hs. unfold ref_bytes, packed_size. unfold valid_dim in *. destruct (Z.eqb_spec n 1) as [->|Hne].
  - rewrite size_bytes_eq in Hs by (unfold DLP_MSZ_MAX; lia). case_decide; [|done]. cbn in *. injection Hs as <-. lia.
  - cbn [rf_col_sums rf_k_factor rf_size f32_type ref_min_NR rf_min_NR default].
    rewrite (reorder_round_up_multiple k 1) by (try lia; apply Z.divide_1_l).
    assert (((n + NR (blksz c) - 1) `quot` NR (blksz c)) * NR (blksz c) = dlp_reorder_round_up n (NR (blksz c))) as E
      by (unfold dlp_reorder_round_up; by rewrite (proj2 (Z.leb_gt _ 0)) by lia).
    rewrite E in Hs. apply padded_buf_size in Hs as ->; [|done..|lia|lia]. cbn. lia.
Qed.

Lemma f16_type_ok : ref_type_ok f16_type.
Proof.
  split; [done|done|]. intros c c' k n s Hk Hn HNR Hb _ Hs. cbn [rf_buf_size f16_type] in Hs.
  unfold f16_buf_size in Hs. unfold ref_bytes, packed_size. unfold valid_dim in *. destruct (Z.eqb_spec n 1) as [->|Hne].
  - rewrite size_bytes_eq in Hs by (unfold DLP_MSZ_MAX; lia). case_decide; [|done]. cbn in *. injection Hs as <-. lia.
  - cbn [rf_col_sums rf_k_factor rf_size f16_type]. change (ref_min_NR _ _) with 32. unfold dlp_get_packb_fp16_min_NR in Hs.
    unfold ref_check_blocks, fail_if in Hb. change (ref_min_NR _ _) with 32 in Hb.
    destruct (dlp_reorder_ref_blocks_legal _ _ _ _) eqn:Hleg; [|done]. clear Hb.
    unfold dlp_reorder_ref_blocks_legal in Hleg. repeat (apply andb_prop in Hleg as [Hleg ?]).
    rewrite !Z.ltb_lt, !Z.eqb_eq in *. rewrite crem_nonneg in * by lia.
    assert (32 | NR (blksz c)) as Hd by (apply Z.mod_divide; (done || lia)).
    assert (32 <= NR (blksz c)) as Hle by (destruct Hd; lia).
    assert ((if 32 <? NR (blksz c) then NR (blksz c) else 32) = NR (blksz c)) as EN by (zcase; lia).
    rewrite EN in Hs. change dlp_make_multiple_of_n with dlp_reorder_round_up in Hs.
    apply padded_buf_size in Hs as ->; [|done..|lia|lia].
    rewrite (reorder_round_up_multiple k 1) by (try lia; apply Z.divide_1_l).
    pose proof (round_up_bounds n (NR (blksz c)) ltac:(lia) ltac:(lia)) as [Hr Hrd].
    assert (dlp_reorder_round_up n 32 <= dlp_reorder_round_up n (NR (blksz c))); [|nia].
    apply round_up_least; [lia..|]. by transitivity (NR (blksz c)).
Qed.

Lemma ref_types_ok : Forall ref_type_ok ref_types.
Proof.
  unfold ref_types. rewrite !Forall_cons, Forall_nil.
  split_and!; [apply (int8_type_ok true)|apply (int8_type_ok false)|apply bf16_type_ok|apply f32_type_ok|apply f16_type_ok|done].
Qed.

(** ** The work of a call *)

(** Where an element is in the matrix determines it. *)
Lemma element_decode order trans rows cols ld :
  valid_ld order trans rows cols ld -> exists decode : Z -> Z * Z, forall p j, 0 <= p < rows -> 0 <= j < cols ->
    decode (element_index order trans ld p j) = (p, j).
Proof.
  unfold valid_ld, line_length, element_index. intros Hld. destruct (eqb _ _).
  - exists (fun q => (q / ld, q mod ld)). intros p j Hp Hj.
    f_equal; [rewrite Z.div_add_l by lia; rewrite Z.div_small by lia; lia|].
    symmetry. apply (Z.mod_unique _ _ p); lia.
  - exists (fun q => (q mod ld, q / ld)). intros p j Hp Hj.
    f_equal; [|rewrite Z.div_add_l by lia; rewrite Z.div_small by lia; lia].
    symmetry. apply (Z.mod_unique _ _ j); lia.
Qed.

Section work.
Context (t : ref_type) (x : reorder_args) (w : reorder_work).
Hypothesis Ht : ref_type_ok t.
Hypothesis Hx : reorder_args_valid x.
Hypothesis Hw : work_of t x w.

Local Abbreviation n := (ro_n x).
Local Abbreviation k := (ro_k x).
Local Abbreviation es := (rf_size t).

(** The bytes of the caller's matrix are there. *)
Definition matrix_there (m : buffer) : Prop := forall p j i,
  in_matrix n k p j -> 0 <= i < es -> is_Some (m !! matrix_at t x p j i).

(** A column. *)
Lemma ref_column_done rs (b pk0 : buffer) :
  work_of t x (ReorderColumn rs) -> matrix_there b -> (forall a, 0 <= a < ref_bytes t n k (ReorderColumn rs) -> is_Some (pk0 !! a)) ->
  stores_end (l ← ref_column b true es k rs; Some [l]) pk0
    (fun m => if rf_col_sums t then ref_column_sum m k else Some m) (ref_reordered t x (ReorderColumn rs) b pk0).
Proof using Ht Hx.
  intros (En & Hrs & Hidx) Hb Hpk. pose proof (rt_size t Ht) as Hes. pose proof (rv_dims _ Hx) as [Hk Hn]. unfold valid_dim in *.
  assert (k * es <= ref_bytes t n k (ReorderColumn rs)) as Hbytes.
  { cbn [ref_bytes]. destruct (rf_col_sums t) eqn:Es; [|lia]. destruct (rt_sums t Ht Es) as [-> _].
    pose proof (column_offset k ltac:(lia)). lia. }
  destruct (column_ok b pk0 true es k rs Hes ltac:(lia) Hrs) as (l & pk & El & E & Hel & Hfr).
  { intros p i Hp Hi. split; [|apply Hpk; nia]. specialize (Hb p 0 i ltac:(split; lia) Hi).
    unfold matrix_at in Hb. by rewrite <- Hidx in Hb. }
  unfold stores_end. rewrite El. eexists. split; [reflexivity|]. intros ws ->%one_interleaving.
  assert (forall p j i, in_matrix n k p j -> 0 <= i < es -> pk !! (p * es + i) = b !! matrix_at t x p j i) as Hpl.
  { intros p j i [Hp Hj] Hi. rewrite Hel by done. unfold matrix_at. replace j with 0 by lia. by rewrite <- Hidx. }
  assert (forall a, ~ (0 <= a < k * es) -> pk !! a = pk0 !! a) as Hfr'.
  { intros a Ha. apply Hfr. intros p i Hp Hi ->. nia. }
  exists pk. cbn [ref_bytes] in *. destruct (rf_col_sums t) eqn:Es.
  - destruct (rt_sums t Ht Es) as (E1 & _). rewrite E1 in *. pose proof (column_offset k ltac:(lia)) as Hoff.
    assert (forall a, 0 <= a < dlp_gemm_col_sum_byte_offset k + 4 -> is_Some (pk !! a)) as Hthere.
    { intros a Ha. by apply (stores_keep _ _ _ a E), Hpk. }
    destruct (column_sum_ok pk k ltac:(lia) Hthere) as (pk2 & E2 & Hfr2 & Hs2).
    exists pk2. split; [exact E|]. split; [exact E2|]. split; cbn [place ref_bytes].
    + intros p j i Hpj Hi. rewrite E1 in *. rewrite Hfr2; [by apply Hpl|]. destruct Hpj. lia.
    + intros _ j Hj. rewrite Hs2. do 2 f_equal. apply zsum_ext. intros p Hp. unfold load_i8, bytes. f_equal.
      rewrite <- (Hpl p j 0) by (try split; lia). do 2 f_equal. lia.
    + intros a Ha. rewrite Es in Ha. rewrite Hfr2 by lia. apply Hfr'. lia.
  - exists pk. split; [exact E|]. split; [done|]. split; [exact Hpl|by rewrite Es|]. intros a. cbn [ref_bytes]. rewrite Es. apply Hfr'.
Qed.

(** The tiles. *)
Lemma ref_tiles_done omp_team c rs cs nt (b pk0 : buffer) :
  work_of t x (ReorderTiles c rs cs nt) -> team_ok omp_team -> matrix_there b ->
  (forall a, 0 <= a < ref_bytes t n k (ReorderTiles c rs cs nt) -> is_Some (pk0 !! a)) ->
  stores_end (ref_tiles t omp_team b true c n k rs cs nt) pk0
    (fun m => if rf_col_sums t then dlp_reorder_s8_write_col_sums m b k n rs cs else Some m)
    (ref_reordered t x (ReorderTiles c rs cs nt) b pk0).
Proof using Ht Hx.
  intros (En & Hl & Hidx) Homp Hb Hpk. cbn zeta in Hl. pose proof (rt_size t Ht) as Hes.
  pose proof (rv_dims _ Hx) as [Hk Hn]. unfold valid_dim in *. set (bl := blksz c) in *.
  set (m := ref_min_NR t (NR bl)) in *. set (kf := rf_k_factor t) in *.
  pose proof (round_up_bounds n 16 ltac:(lia) ltac:(lia)) as [Hn16 _].
  assert (forall p j i, matrix_byte es rs cs p j + i = matrix_at t x p j i) as Hmb.
  { intros p j i. unfold matrix_byte, matrix_at. by rewrite <- Hidx. }
  assert (holds_matrix n k es rs cs b (bytes b)) as Hh.
  { intros p j i Hpj Hi. rewrite Hmb. by apply bytes_some, Hb. }
  assert (forall a, in_packed n k m kf es a -> 0 <= a < packed_size n k m kf es) as Hin by done.
  assert (forall a, in_packed n k m kf es a -> is_Some (pk0 !! a)) as Hthere.
  { intros a Ha%Hin. apply Hpk. cbn [ref_bytes]. fold bl m kf. destruct (rf_col_sums t); lia. }
  destruct (reorderb_ok n k (NR bl) m (NC bl) (KC bl) kf es rs cs Hl Hes b (bytes b) pk0 Hh Hthere) as (pk & Hpkd & Hrun).
  destruct (Hrun omp_team nt Homp) as (ls & Els & Hws). exists ls. split; [exact Els|]. intros ws Hi.
  pose proof (is_packed_holds n k (NR bl) m (NC bl) (KC bl) kf es rs cs Hl Hes (bytes b) pk0 pk Hpkd) as Hpl.
  assert (forall p j i, in_matrix n k p j -> 0 <= i < es ->
    pk !! (elem_pos n k (NR bl) m (NC bl) (KC bl) kf p j * es + i) = b !! matrix_at t x p j i) as Hplace.
  { intros p j i Hpj Hi2. pose proof (Hpl p j i Hpj Hi2) as E. unfold packed_byte in E. rewrite E, Hmb. symmetry. by apply bytes_some, Hb. }
  assert (forall a, ~ (0 <= a < packed_size n k m kf es) -> pk !! a = pk0 !! a) as Hfr by (intros a Ha; by apply Hpkd).
  exists pk. destruct (rf_col_sums t) eqn:Es.
  - destruct (rt_sums t Ht Es) as (E1 & Ekf & Emin). fold kf in Ekf.
    assert (m = 16) as Em by (unfold m, ref_min_NR; by rewrite Emin).
    assert (packed_size n k m kf es = reorder_sums n k) as Esz by (unfold packed_size, reorder_sums; rewrite Em, Ekf, E1; apply Z.mul_1_r).
    assert (forall p j, matrix_at t x p j 0 = p * rs + j * cs) as Hat.
    { intros p j. unfold matrix_at. rewrite E1, <- Hidx. lia. }
    assert (0 <= reorder_sums n k).
    { pose proof (round_up_bounds k 4 ltac:(lia) ltac:(lia)) as [Hk4 _]. apply Z.mul_nonneg_nonneg;
        change dlp_make_multiple_of_n with dlp_reorder_round_up; lia. }
    destruct (write_col_sums_ok pk b k n rs cs ltac:(lia) ltac:(lia)) as (pk2 & E2 & Hfr2 & Hs2).
    + intros p j Hp Hj. rewrite <- Hat. apply Hb; [by split|lia].
    + intros a Ha. apply (stores_keep _ _ _ a (Hws ws Hi)), Hpk. cbn [ref_bytes]. fold bl m kf. rewrite Es. lia.
    + exists pk2. split; [by apply Hws|]. split; [exact E2|]. split.
      * intros p j i [Hp Hj] Hi2. rewrite <- (Hplace p j i) by (done || by split). cbn [place]. fold bl m kf. apply Hfr2.
        pose proof (elem_pos_in_buffer n k (NR bl) m (NC bl) (KC bl) kf Hl p j Hp Hj) as Hpos.
        change (packed_elems n k m kf) with (dlp_reorder_round_up n m * dlp_reorder_round_up k kf) in Hpos.
        unfold packed_size in Esz. rewrite E1 in *. lia.
      * intros _ j Hj. rewrite Hs2 by done. do 2 f_equal. apply zsum_ext. intros p Hp. by rewrite Hat.
      * intros a. cbn [ref_bytes]. fold bl m kf. rewrite Es. intros Ha. rewrite Hfr2 by lia. apply Hfr. lia.
  - exists pk. split; [by apply Hws|]. split; [done|]. split; [exact Hplace|by rewrite Es|].
    intros a. cbn [ref_bytes]. fold bl m kf. rewrite Es. intros Ha. apply Hfr. lia.
Qed.

Lemma ref_reorder_done omp_team (b pk0 : buffer) :
  team_ok omp_team -> matrix_there b -> (forall a, 0 <= a < ref_bytes t n k w -> is_Some (pk0 !! a)) ->
  ref_reorder_ends t omp_team b n k w pk0 (ref_reordered t x w b pk0).
Proof using Ht Hx Hw.
  intros Homp Hb Hpk. destruct w; [done|by apply ref_column_done|by apply ref_tiles_done].
Qed.

(** Bytes for the elements make one content of the caller's matrix. *)
Lemma matrix_values (E : Z -> Z -> Z -> Z) : exists v : Z -> Z,
  forall p j i, in_matrix n k p j -> 0 <= i < es -> v (matrix_at t x p j i) = E p j i.
Proof using Ht Hx.
  pose proof (rt_size t Ht) as Hes. destruct (element_decode _ _ _ _ _ (rv_ld _ Hx)) as [decode Hdec].
  exists (fun a => let '(p, j) := decode (a / es) in E p j (a mod es)).
  intros p j i [Hp Hj] Hi. unfold matrix_at. set (e := element_index _ _ _ p j).
  assert ((e * es + i) / es = e) as -> by (apply byte_index; lia).
  assert ((e * es + i) mod es = i) as -> by (symmetry; apply (Z.mod_unique _ _ e); lia).
  unfold e. by rewrite Hdec.
Qed.

(** Unreordering puts the elements [E] of the reordered buffer into the caller's matrix. *)
Lemma ref_unreorder_done omp_team (E : Z -> Z -> Z -> Z) (pk out0 : buffer) :
  team_ok omp_team -> matrix_there out0 ->
  (forall p j i, in_matrix n k p j -> 0 <= i < es -> pk !! (place t n k w p j * es + i) = Some (E p j i)) ->
  ref_unreorder_ends t omp_team pk n k w out0 (fun out =>
    (forall p j i, in_matrix n k p j -> 0 <= i < es -> out !! matrix_at t x p j i = Some (E p j i)) /\
    forall a, (forall p j i, in_matrix n k p j -> 0 <= i < es -> a <> matrix_at t x p j i) -> out !! a = out0 !! a).
Proof using Ht Hx Hw.
  intros Homp Hout Hpk. pose proof (rt_size t Ht) as Hes. pose proof (rv_dims _ Hx) as [Hk Hn]. unfold valid_dim in *.
  destruct w as [|rs|c rs cs nt]; [done| |].
  - destruct Hw as (En & Hrs & Hidx). cbn [ref_unreorder_ends place] in *.
    assert (forall p i, p * rs * es + i = matrix_at t x p 0 i) as Hat by (intros; unfold matrix_at; by rewrite <- Hidx).
    destruct (column_ok pk out0 false es k rs Hes ltac:(lia) Hrs) as (l & out & El & Eo & Hel & Hfr).
    { intros p i Hp Hi. rewrite (Hpk p 0 i ltac:(split; lia) Hi), Hat. split; [done|apply Hout; [split; lia|done]]. }
    unfold stores_end. rewrite El. eexists. split; [reflexivity|]. intros ws ->%one_interleaving.
    exists out, out. split; [exact Eo|]. split; [done|]. split.
    + intros p j i [Hp Hj] Hi. assert (j = 0) as -> by lia. rewrite <- Hat, Hel by done. apply Hpk; [split; lia|done].
    + intros a Ha. apply Hfr. intros p i Hp Hi. rewrite Hat. apply Ha; [split; lia|done].
  - destruct Hw as (En & Hl & Hidx). cbn [ref_unreorder_ends place] in *. cbn zeta in Hl. set (bl := blksz c) in *.
    set (m := ref_min_NR t (NR bl)) in *. set (kf := rf_k_factor t) in *.
    assert (forall p j i, matrix_byte es rs cs p j + i = matrix_at t x p j i) as Hmb.
    { intros p j i. unfold matrix_byte, matrix_at. by rewrite <- Hidx. }
    destruct (matrix_values E) as [v Hv'].
    assert (forall p j i, in_matrix n k p j -> 0 <= i < es -> v (matrix_byte es rs cs p j + i) = E p j i) as Hv.
    { intros p j i Hpj Hi. rewrite Hmb. by apply Hv'. }
    assert (holds_packed n k (NR bl) m (NC bl) (KC bl) kf es rs cs pk v) as Hh.
    { intros p j i Hpj Hi. rewrite Hv by done. by apply Hpk. }
    destruct (unreorderb_ok n k (NR bl) m (NC bl) (KC bl) kf es rs cs Hl pk v out0 omp_team nt Hh Homp)
      as (out & (ls & Els & Hws) & Hin & Hfr).
    { intros a (p & j & Hpj & Ha). replace a with (matrix_byte es rs cs p j + (a - matrix_byte es rs cs p j)) by lia.
      rewrite Hmb. apply Hout; [done|lia]. }
    exists ls. split; [exact Els|]. intros ws Hi. exists out, out. split; [by apply Hws|]. split; [done|]. split.
    + intros p j i Hpj Hi2. rewrite <- Hmb, <- (Hv p j i Hpj Hi2). apply Hin. exists p, j. split; [done|]. lia.
    + intros a Ha. apply Hfr. intros (p & j & Hpj & Hb). apply (Ha p j (a - matrix_byte es rs cs p j) Hpj); [lia|].
      rewrite <- Hmb. lia.
Qed.
End work.

(** ** The calls *)

(** The initialisation left usable blocks for the operation, none above [2 ^ 62] once
    the caller's are merged. *)
Record blocks_ready (env : api_env) (op : AOCL_DLP_OPERATION_TYPE) (metadata : option api_metadata) : Prop := mk_blocks_ready {
  br_cntx : exists c, dlp_gemm_get_global_cntx_obj (env_config (api_decor env)) (op_index op) = Some c /\ blksz_ok (blksz c);
  br_bound : forall c, call_cntx env op metadata = Value c -> NR (blksz c) <= 2 ^ 62;
}.

(** Positive blocks, and whole panels unless the caller set the blocks. *)
Definition settling (metadata : option api_metadata) (c : dlp_gemm_cntx_t) : Prop :=
  blksz_pos (blksz c) /\
  ((forall md p, metadata = Some md -> block_params (am_blocking md) = Some p -> False) -> (NR (blksz c) | NC (blksz c))).

Section answers.
Context `{KernelFrame}.
Context (t : ref_type) (env : api_env) (metadata : option api_metadata).
Hypothesis Henv : blocks_ready env (rf_op t) metadata.

Lemma ref_call_cntx : answers (settling metadata) (call_cntx env (rf_op t) metadata).
Proof using Henv.
  destruct (br_cntx _ _ _ Henv) as (c0 & Ec & Hb0 & HMC & HNC).
  unfold call_cntx. apply (answers_or_undefined _ c0); [done|]. destruct (dlp_gemm_upd_cntx_with_metadata _ _) as [err upd] eqn:Eu.
  destruct (merged_positive _ _ _ _ Hb0 Eu) as (c1 & -> & Hb1). apply answers_check. intros _. cbn. split; [done|].
  intros Hno. unfold dlp_gemm_upd_cntx_with_metadata in Eu. pose proof Hb0 as [].
  assert (NR (blksz c0) | NC (blksz c0)) as Hd by (apply Z.mod_divide; [lia|done]).
  destruct metadata as [md|]; cbn in Eu; [|by simplify_eq]. destruct (block_params (am_blocking md)) as [p|] eqn:Ep.
  - by destruct (Hno md p).
  - simplify_eq. by destruct (sup_thresholds _), (gemm_hints _).
Qed.

(** The width of the engine keeps the blocks so. *)
Lemma settling_engine k_dtype n k cs_b c :
  settling metadata c -> settling metadata (dlp_upd_pack_strides k_dtype (dlp_init_and_get_packb_kernel_hndl k_dtype n k cs_b c).2).
Proof using.
  unfold settling. intros [Hb Hd].
  assert (forall c, blksz (dlp_upd_pack_strides k_dtype c) = blksz c) as E
    by (intros; unfold dlp_upd_pack_strides; by destruct (_ ≫= _) as [[]|]).
  rewrite E. unfold dlp_init_and_get_packb_kernel_hndl. destruct (getKernelDatatype k_dtype); [|done].
  set (pq := mk_packb_request _ _ _ _ _ _ _ _ _). destruct (Z.leb_spec (packb_panel_dim pq) 0) as [|Hpd]; [done|].
  unfold set_blksz. cbn [snd blksz]. pose proof Hb as [].
  destruct (rounded_up (NC (blksz c)) (packb_panel_dim pq)) as [HNC Hdv]; [lia..|].
  split; [split; cbn; lia|done].
Qed.

(** Past the check of the metadata the panels are whole. *)
Lemma check_metadata_whole {B} (Q : B -> Prop) c (o : outcome B) :
  settling metadata c -> ((NR (blksz c) | NC (blksz c)) -> answers Q o) -> answers Q (check_metadata metadata c ;; o).
Proof using.
  clear Henv. intros [Hb Hd] Ho. unfold check_metadata. destruct (validate_total (am_blocking <$> metadata) c Hb) as [err Ev].
  rewrite Ev. cbn [or_undefined mbind outcome_mbind]. apply answers_check. intros ->. apply Ho. pose proof Hb as [].
  unfold dlp_gemm_validate_metadata_with_lcntx in Ev. destruct metadata as [md|]; [|by apply Hd]. cbn in Ev.
  destruct (block_params (am_blocking md)) as [p|] eqn:Ep.
  - rewrite (proj2 (Z.eqb_neq _ 0)), (proj2 (Z.eqb_neq _ 0)) in Ev by lia. cbn in Ev.
    destruct (block_params_agree p (blksz c)) eqn:Ea; [|done]. unfold block_params_agree in Ea.
    apply andb_prop in Ea as [_ Ea%Z.eqb_eq]. rewrite crem_nonneg in Ea by lia. by apply Z.mod_divide; [lia|].
  - apply Hd. intros md' p [= <-]. congruence.
Qed.

Lemma ref_cntx_answers n k cs_b :
  0 <= n -> 0 <= k ->
  answers (fun c => (let b := blksz c in layout_ok n k (NR b) (ref_min_NR t (NR b)) (NC b) (KC b) (rf_k_factor t)) /\
      (rf_engine t = None -> call_cntx env (rf_op t) metadata = Value c)) (ref_cntx t env n k cs_b metadata).
Proof using Henv.
  intros Hn Hk. unfold ref_cntx. pose proof ref_call_cntx as Hc. destruct (call_cntx env (rf_op t) metadata) as [|e|c0]; [done|done|].
  cbn [mbind outcome_mbind answers] in *.
  apply (answers_bind (fun c => settling metadata c /\ (rf_engine t = None -> c0 = c))).
  { destruct (rf_engine t) as [k_dtype|]; [|done]. apply answers_check. intros _. cbn. split; [|done]. by apply settling_engine. }
  intros c [Hs He]. pose proof Hs as [Hb _]. apply check_metadata_whole; [done|]. intros Hd. unfold ref_check_blocks.
  apply answers_fail_if; [done|]. intros Hleg%negb_false_iff. cbn. split; [|by intros ->%He].
  pose proof Hb as []. apply blocks_checked_layout; [|done..]. split; [done|]. split; [lia|]. by apply Z.mod_divide; [lia|].
Qed.

(** The blocks of the size query. *)
Lemma ref_size_value order trans mat_type k n size :
  ref_get_buf_size t env order trans mat_type k n metadata = Value size ->
  exists c, call_cntx env (rf_op t) metadata = Value c /\ 0 < NR (blksz c) <= 2 ^ 62 /\ ref_check_blocks t c = Value tt /\
    rf_buf_size t (NR (blksz c)) k n = Value size.
Proof using Henv.
  unfold ref_get_buf_size, check, only_B_matrix. rewrite !fail_if_value. intros (_ & _ & E).
  apply bind_value in E as (c & Ec & E). apply bind_value in E as ([] & _ & E). apply bind_value in E as ([] & Eb & E).
  exists c. split; [done|]. pose proof ref_call_cntx as Hc. rewrite Ec in Hc. destruct Hc as [[] _].
  split; [|done]. split; [lia|]. by apply (br_bound _ _ _ Henv).
Qed.

(** What a call goes on to do, and that it fits a buffer of the size queried. *)
Lemma ref_entry_answers x blocks_first prepared g tl :
  ref_type_ok t ->
  answers (fun st => reorder_args_valid x /\ exists rs cs, st = Some (rs, cs) /\
    forall p j, p * rs + j * cs = element_index (ro_order x) (ro_trans x) (ro_ld x) p j) prepared ->
  answers (fun w => reorder_args_valid x /\ work_of t x w /\ forall order trans mat_type size,
      ref_get_buf_size t env order trans mat_type (ro_k x) (ro_n x) metadata = Value size -> ref_bytes t (ro_n x) (ro_k x) w <= size)
    (ref_entry t env blocks_first prepared x metadata g tl).1.1.
Proof using Henv.
  intros Ht Hp. unfold ref_entry. destruct prepared as [|e|st]; [done|done|]. destruct Hp as (Hv & rs & cs & -> & Hidx).
  pose proof (rv_dims _ Hv) as [Hk Hn]. pose proof (rv_ld _ Hv) as Hld. pose proof (rv_chars _ Hv) as (Ho & Htr & _).
  unfold valid_dim in Hk, Hn.
  assert (ro_n x = 1 -> work_of t x (ReorderColumn rs) /\ forall order trans mat_type size,
    ref_get_buf_size t env order trans mat_type (ro_k x) (ro_n x) metadata = Value size ->
    ref_bytes t (ro_n x) (ro_k x) (ReorderColumn rs) <= size) as Hcol.
  { intros En. split.
    - split; [done|]. split.
      + pose proof (Hidx 1 0) as E. unfold element_index in E. unfold valid_ld, line_length in Hld.
        destruct (eqb (row_stored _) _); lia.
      + intros p. rewrite <- Hidx. lia.
    - intros order trans mt size (c & Ec & HNR & Hb & Es)%ref_size_value.
      pose proof (rt_room t Ht c c (ro_k x) (ro_n x) size Hk Hn HNR Hb (fun _ => eq_refl) Es) as Hroom.
      rewrite En in Hroom. cbn in Hroom. by rewrite En. }
  assert (forall c r, ro_n x <> 1 ->
    (let b := blksz c in layout_ok (ro_n x) (ro_k x) (NR b) (ref_min_NR t (NR b)) (NC b) (KC b) (rf_k_factor t)) ->
    (rf_engine t = None -> call_cntx env (rf_op t) metadata = Value c) ->
    work_of t x (ReorderTiles c rs cs r) /\ forall order trans mat_type size,
    ref_get_buf_size t env order trans mat_type (ro_k x) (ro_n x) metadata = Value size ->
    ref_bytes t (ro_n x) (ro_k x) (ReorderTiles c rs cs r) <= size) as Htiles.
  { intros c r En Hl Hc. split; [done|]. intros order trans mt size (c0 & Ec & HNR & Hb & Es)%ref_size_value.
    pose proof (rt_room t Ht c0 c (ro_k x) (ro_n x) size Hk Hn HNR Hb) as Hroom.
    rewrite (proj2 (Z.eqb_neq _ 1) En) in Hroom. apply Hroom; [|done]. intros He%Hc. congruence. }
  pose proof (ref_cntx_answers (ro_n x) (ro_k x) cs ltac:(lia) ltac:(lia)) as Hc.
  destruct blocks_first.
  - destruct (ref_cntx _ _ _ _ _ _) as [|e|c]; [done|done|]. destruct (run _ g tl) as [[r g2] tl2]. cbn [fst answers].
    destruct Hc as [Hl Hc]. split; [done|]. destruct (Z.eqb_spec (ro_n x) 1) as [En|En]; [by apply Hcol|by apply Htiles].
  - destruct (Z.eqb_spec (ro_n x) 1) as [En|En]; [split; [done|by apply Hcol]|].
    destruct (run _ g tl) as [[r g2] tl2]. cbn [fst]. eapply answers_bind; [exact Hc|]. intros c [Hl Hc2].
    cbn [mret outcome_mret answers]. split; [done|by apply Htiles].
Qed.
End answers.

(** The strides of both directions are those of the caller's matrix. *)
Lemma plain_strides_index order trans ld :
  valid_order order -> valid_trans trans ->
  reorder_strides order (dlp_param_map_netlib_to_dlp_trans trans) ld
    = Some (dlp_reorder_plain_strides order (dlp_param_map_netlib_to_dlp_trans trans) ld).
Proof.
  intros Ho Ht. unfold reorder_strides, dlp_reorder_plain_strides. change (is_char order "r" "R") with (row_stored order).
  by destruct (order_cases order Ho) as [[-> Ec]|[-> Ec]]; rewrite ?Ec.
Qed.

Lemma strides_of_matrix x :
  reorder_args_valid x -> exists rs cs,
    reorder_strides (ro_order x) (dlp_param_map_netlib_to_dlp_trans (ro_trans x)) (ro_ld x) = Some (rs, cs) /\
    forall p j, p * rs + j * cs = element_index (ro_order x) (ro_trans x) (ro_ld x) p j.
Proof.
  intros [(Ho & Ht & _) _ _ _]. destruct (reorder_strides_index (ro_order x) (ro_trans x) (ro_ld x) Ho Ht) as (rs & cs & E & Hi).
  exists rs, cs. split; [done|]. intros p j. rewrite <- Hi. lia.
Qed.

Lemma ref_prepare_answers t x :
  answers (fun st => reorder_args_valid x /\ exists rs cs, st = Some (rs, cs) /\
    forall p j, p * rs + j * cs = element_index (ro_order x) (ro_trans x) (ro_ld x) p j) (ref_prepare t x).
Proof.
  unfold ref_prepare. apply answers_check. intros Hv%reorder_check_spec.
  destruct (strides_of_matrix x Hv) as (rs & cs & E & Hi). unfold ref_strides. rewrite E.
  apply answers_fail_if; [done|intros _]. cbn. eauto 10.
Qed.

Lemma unref_prepare_answers x :
  answers (fun st => reorder_args_valid x /\ exists rs cs, st = Some (rs, cs) /\
    forall p j, p * rs + j * cs = element_index (ro_order x) (ro_trans x) (ro_ld x) p j) (unref_prepare x).
Proof.
  unfold unref_prepare. apply answers_check. intros Hv%(reorder_check_spec x).
  pose proof Hv as [(Ho & Ht & _) _ _ _]. destruct (strides_of_matrix x Hv) as (rs & cs & E & Hi).
  rewrite plain_strides_index in E by done. injection E as E. rewrite E.
  apply answers_fail_if; [done|intros _]. cbn. eauto 10.
Qed.

(** ** Properties *)

(** Two calls with the same blocks. *)
Definition same_blocks (w u : reorder_work) : Prop :=
  match w, u with
  | ReorderTiles c _ _ _, ReorderTiles c' _ _ _ => blksz c = blksz c'
  | ReorderColumn _, ReorderColumn _ => True
  | _, _ => False
  end.

Lemma same_place t n k w u p j : same_blocks w u -> place t n k w p j = place t n k u p j.
Proof. destruct w, u; try done. cbn. by intros ->. Qed.

(** C10. Reorder and unreorder of the API are inverse.  For each of the five element types a
    call of [aocl_reorder_*_reference] on an initialised library reports an error, or is
    defined and stays inside a buffer of the size [aocl_get_reorder_buf_size_*] answers;
    a later call of [aocl_unreorder_*_reference] for the same dimensions reports an
    error, or, when it settles on the same blocks, puts the matrix back: into any order,
    transposition and leading dimension, by any number of threads in any interleaving,
    every byte of every element, and no other byte of the destination changes.
    Block sizes of the caller are taken not to overflow [md_t] ([merge_in_range]). *)
Theorem reference_reorder_roundtrip `{KernelFrame} (t : ref_type) (env : api_env) (x y : reorder_args)
    (metadata : option api_metadata) (g g' : lib_state) (tl tl' : tl_state) (team1 team2 : Z -> Z)
    (b pk0 out0 : buffer) :
  t ∈ ref_types -> blocks_ready env (rf_op t) metadata -> team_ok team1 -> team_ok team2 ->
  ro_n y = ro_n x -> ro_k y = ro_k x -> matrix_there t x b -> matrix_there t y out0 ->
  answers (fun w => forall size,
      ref_get_buf_size t env (ro_order x) (ro_trans x) (ro_mat_type x) (ro_k x) (ro_n x) metadata = Value size ->
      (forall a, 0 <= a < size -> is_Some (pk0 !! a)) ->
      ref_reorder_ends t team1 b (ro_n x) (ro_k x) w pk0 (fun pk =>
        answers (fun u => same_blocks w u ->
            ref_unreorder_ends t team2 pk (ro_n x) (ro_k x) u out0 (fun out =>
              (forall p j i, in_matrix (ro_n x) (ro_k x) p j -> 0 <= i < rf_size t ->
                 out !! matrix_at t y p j i = b !! matrix_at t x p j i) /\
              forall a, (forall p j i, in_matrix (ro_n x) (ro_k x) p j -> 0 <= i < rf_size t -> a <> matrix_at t y p j i) ->
                out !! a = out0 !! a))
          (unreorder_reference t env y metadata g' tl').1.1))
    (reorder_reference t env x metadata g tl).1.1.
Proof.
  intros Ht Henv H1 H2 En Ek Hb Hout.
  assert (ref_type_ok t) as Hok by (by apply (proj1 (Forall_forall _ _) ref_types_ok)).
  eapply answers_weaken; [apply (ref_entry_answers t env metadata Henv); [done|apply ref_prepare_answers]|].
  intros w (Hx & Hw & Hroom) size Hsize Hpk. eapply ref_reorder_ends_weaken.
  { apply (ref_reorder_done t x w Hok Hx Hw team1 b pk0 H1 Hb). intros a Ha. apply Hpk. specialize (Hroom _ _ _ _ Hsize). lia. }
  intros pk [Hpkd _ _]. eapply answers_weaken; [apply (ref_entry_answers t env metadata Henv); [done|apply unref_prepare_answers]|].
  intros u (Hy & Hu & _) Hsame. rewrite <- En, <- Ek in *. eapply ref_unreorder_ends_weaken.
  { apply (ref_unreorder_done t y u Hok Hy Hu team2 (fun p j i => bytes b (matrix_at t x p j i)) pk out0 H2 Hout).
    intros p j i Hpj Hi. rewrite <- (same_place t _ _ w u p j Hsame), Hpkd by done. apply bytes_some, Hb; [|done].
    by rewrite <- En, <- Ek. }
  intros out [Hin Hfr]. split; [|done]. intros p j i Hpj Hi. rewrite Hin by done. symmetry. apply bytes_some, Hb; [|done].
  by rewrite <- En, <- Ek.
Qed.

(** C9. The portable reorder functions prepare what the tuned GEMM takes.
    Block sizes of the caller are taken not to overflow [md_t] ([merge_in_range]). *)
Theorem int8_reference_ready `{KernelFrame} (signed : bool) (env : api_env) (x : reorder_args)
    (metadata : option api_metadata) (g : lib_state) (tl : tl_state) (omp_team : Z -> Z) (b pk0 : buffer) :
  let t := if signed then s8_type else u8_type in
  blocks_ready env (rf_op t) metadata -> team_ok omp_team -> matrix_there t x b ->
  answers (fun w => forall size,
      get_reorder_buf_size signed env (ro_order x) (ro_trans x) (ro_mat_type x) (ro_k x) (ro_n x) metadata = Value size ->
      (forall a, 0 <= a < size -> is_Some (pk0 !! a)) ->
      ref_reorder_ends t omp_team b (ro_n x) (ro_k x) w pk0 (fun pk =>
        forall y lcntx, asks_reordered (mem_format_b y) = true -> arg_n y = ro_n x -> arg_k y = ro_k x ->
          work_blocks w lcntx ->
          caller_B signed lcntx y (bytes pk)
            (fun p j => load_i8 (bytes b) (element_index (ro_order x) (ro_trans x) (ro_ld x) p j))))
    (reorder_reference t env x metadata g tl).1.1.
Proof.
  intros t Henv Homp Hb. assert (ref_type_ok t) as Hok by apply int8_type_ok.
  assert (rf_size t = 1 /\ rf_col_sums t = signed /\ rf_k_factor t = 4 /\ forall NR, ref_min_NR t NR = 16) as (Es & Esum & Ekf & Emin)
    by (unfold t; by destruct signed).
  assert (forall order trans mat_type k n, ref_get_buf_size t env order trans mat_type k n metadata =
    get_reorder_buf_size signed env order trans mat_type k n metadata) as Esize by (intros; unfold t; by destruct signed).
  assert (forall p j, matrix_at t x p j 0 = element_index (ro_order x) (ro_trans x) (ro_ld x) p j) as Hat
    by (intros; unfold matrix_at; rewrite Es; lia).
  clearbody t. eapply answers_weaken; [apply (ref_entry_answers t env metadata Henv); [done|apply ref_prepare_answers]|].
  intros w (Hx & Hw & Hroom) size Hsize Hpk. rewrite <- Esize in Hsize. eapply ref_reorder_ends_weaken.
  { apply (ref_reorder_done t x w Hok Hx Hw omp_team b pk0 Homp Hb). intros a Ha. apply Hpk. specialize (Hroom _ _ _ _ Hsize). lia. }
  intros pk [Hel Hsum _] y lcntx Hy Hyn Hyk Hbl. unfold caller_B. rewrite Hy, Hyn, Hyk. rewrite Es, Esum in *.
  assert (forall p j, in_matrix (ro_n x) (ro_k x) p j ->
    load_i8 (bytes pk) (place t (ro_n x) (ro_k x) w p j) = load_i8 (bytes b) (element_index (ro_order x) (ro_trans x) (ro_ld x) p j)) as Hl.
  { intros p j Hpj. unfold load_i8, bytes. rewrite <- Hat, <- (Hel p j 0) by (done || lia). do 3 f_equal. lia. }
  destruct w as [|rs|c rs cs nt]; [done| |].
  - destruct Hw as (En & _). rewrite En in *. cbn. split.
    + intros p Hp. apply Hl. split; [done|lia].
    + intros Hsg. rewrite (Hsum Hsg 0 ltac:(lia)). do 2 f_equal. apply zsum_ext. intros p Hp. by rewrite Hat.
  - destruct Hw as (En & _). rewrite (proj2 (Z.eqb_neq _ 1) En). destruct Hbl as (EN & EC & EK).
    cbn [place] in Hl. rewrite Emin, Ekf, EN, EC, EK in Hl. split.
    + intros p j Hp Hj. apply Hl. by split.
    + intros Hsg j Hj. rewrite (Z.mul_comm (dlp_reorder_round_up (ro_k x) 4)). pose proof (Hsum Hsg j Hj) as E.
      unfold reorder_sums in E. change dlp_make_multiple_of_n with dlp_reorder_round_up in E.
      rewrite E. do 2 f_equal. apply zsum_ext. intros p Hp. by rewrite Hat.
Qed.

(** A [2 x 3] matrix of floats, row major with rows of 5, put back column major. *)
Definition example_source : reorder_args := mk_reorder_args "r" "n" "b" false false 2 3 5.
Definition example_target : reorder_args := mk_reorder_args "c" "n" "b" false false 2 3 4.
Definition example_floats : buffer := list_to_map ((fun a => (a, a + 1)) <$> seqZ 0 40).

Lemma example_zeros_there len a : 0 <= a < len -> is_Some (example_zeros len !! a).
Proof.
  intros Ha. unfold example_zeros. destruct (_ !! a) eqn:E; [eauto|]. apply not_elem_of_list_to_map in E.
  destruct E. rewrite <- list_fmap_compose. apply list_elem_of_fmap. exists a. split; [done|]. by apply elem_of_seqZ; lia.
Qed.

Lemma example_blocks_ready : blocks_ready example_api_env F32F32F32OF32 None /\ blocks_ready example_api_env S8S8S32OS32 None.
Proof.
  split; split; try (eexists; split; [vm_compute; reflexivity|by split]);
    intros c Hc; vm_compute in Hc; injection Hc as <-; vm_compute; discriminate.
Qed.

Lemma reference_reorder_roundtrip_witness :
  exists c rs cs c' rs' cs' nt nt' g tl g' tl',
    aocl_reorder_f32f32f32of32_reference example_api_env example_source None lib_init tl_init
      = (Value (ReorderTiles c rs cs nt), g, tl) /\
    aocl_unreorder_f32f32f32of32_reference example_api_env example_target None lib_init tl_init
      = (Value (ReorderTiles c' rs' cs' nt'), g', tl') /\
    ref_reorder_ends f32_type (fun t => t + 1) example_floats 3 2 (ReorderTiles c rs cs nt) (example_zeros 512) (fun pk =>
      ref_unreorder_ends f32_type (fun _ => 1) pk 3 2 (ReorderTiles c' rs' cs' nt') (example_zeros 44) (fun out =>
        out !! (((2 * 4) + 1) * 4 + 3) = Some ((1 * 5 + 2) * 4 + 3 + 1))).
Proof.
  pose proof (reference_reorder_roundtrip f32_type example_api_env example_source example_target None lib_init lib_init
    tl_init tl_init (fun t => t + 1) (fun _ => 1) example_floats (example_zeros 512) (example_zeros 44)
    ltac:(by repeat constructor) (proj1 example_blocks_ready) ltac:(intros t Ht; cbn; lia) ltac:(by intros t)
    eq_refl eq_refl ltac:(unfold matrix_there; apply in_window; repeat first [constructor | vm_compute; by eexists])
    ltac:(unfold matrix_there; apply in_window; repeat first [constructor | vm_compute; by eexists])) as H.
  destruct (reorder_reference f32_type example_api_env example_source None lib_init tl_init) as [[o g] tl] eqn:E.
  destruct (unreorder_reference f32_type example_api_env example_target None lib_init tl_init) as [[o' g'] tl'] eqn:E'.
  assert (exists c rs cs nt, o = Value (ReorderTiles c rs cs nt) /\ blksz c = mk_blksz 192 8064 1024 64 6)
    as (c & rs & cs & nt & -> & Eb).
  { change o with (o, g, tl).1.1. rewrite <- E. do 4 eexists. split; vm_compute; reflexivity. }
  assert (exists c rs cs nt, o' = Value (ReorderTiles c rs cs nt) /\ blksz c = mk_blksz 192 8064 1024 64 6)
    as (c' & rs' & cs' & nt' & -> & Eb').
  { change o' with (o', g', tl').1.1. rewrite <- E'. do 4 eexists. split; vm_compute; reflexivity. }
  exists c, rs, cs, c', rs', cs', nt, nt', g, tl, g', tl'. split; [exact E|]. split; [exact E'|].
  specialize (H 512 ltac:(vm_compute; reflexivity) (example_zeros_there _)).
  eapply ref_reorder_ends_weaken; [exact H|]. intros pk Hpk.
  eapply ref_unreorder_ends_weaken; [apply Hpk; cbn; by rewrite Eb, Eb'|]. intros out [Hout _].
  change (out !! matrix_at f32_type example_target 1 2 3 = Some 32). rewrite (Hout 1 2 3); [vm_compute; reflexivity|repeat split; done|done].
Defined.

Lemma int8_reference_ready_witness :
  exists c rs cs nt g tl,
    aocl_reorder_s8s8s32os32_reference example_api_env example_source None lib_init tl_init
      = (Value (ReorderTiles c rs cs nt), g, tl) /\
    ref_reorder_ends s8_type (fun t => t + 1) example_floats 3 2 (ReorderTiles c rs cs nt) (example_zeros 128) (fun pk =>
      caller_B true c (mk_gemm_args "r" "n" "n" 7 3 2 3 false 8 "n" false 75 "r" 2 false 70) (bytes pk)
        (fun p j => load_i8 (bytes example_floats) (element_index "r" "n" 5 p j))).
Proof.
  pose proof (int8_reference_ready true example_api_env example_source None lib_init
    tl_init (fun t => t + 1) example_floats (example_zeros 128)
    (proj2 example_blocks_ready) ltac:(intros t Ht; cbn; lia)
    ltac:(unfold matrix_there; apply in_window; repeat first [constructor | vm_compute; by eexists])) as H.
  destruct (reorder_reference s8_type example_api_env example_source None lib_init tl_init) as [[o g] tl] eqn:E.
  assert (exists c rs cs nt, o = Value (ReorderTiles c rs cs nt)) as (c & rs & cs & nt & ->).
  { change o with (o, g, tl).1.1. rewrite <- E. do 4 eexists. vm_compute. reflexivity. }
  exists c, rs, cs, nt, g, tl. split; [exact E|].
  specialize (H 128 ltac:(vm_compute; reflexivity) (example_zeros_there _)).
  eapply ref_reorder_ends_weaken; [exact H|]. intros pk Hpk. by apply Hpk.
Defined.
