(* ===== verification/ApiReorderBf16.v ===== *)
(** * The bf16 reorder and unreorder functions of the API
    (classic/aocl_gemm_bf16_utils.c, [aocl_reorder_bf16bf16f32of32] and
    [aocl_unreorder_bf16bf16f32of32])

    The functions that use the kernels of the processor.  Without the bf16 instructions, or
    when the library is told to use AVX2, the reorder is the portable one of
    [ApiReorderRef]; otherwise the regions of [ReorderBf16] do the work, with the packing
    kernel the generator makes and the unpacking kernel with intrinsics. *)
From S2P Require Import Prelude Word DlpTypes PostOpTypes PostOps Config Runtime GetThreading.
From S2P Require Import ThreadUtils ThreadDecor ByteStore ReorderLayout Reorder GemmCheck KernelSelect.
From Stdlib Require Import Ascii.
From stdpp Require Import gmap strings.
From S2P Require Import TeamMachine TeamCorrect GemvTeam Simd PackB8Laws PackB16 PackB16Ok UnpackB16 ReorderBf16.
From S2P Require Import Api ApiResult ReorderInt8 ApiReorder ApiReorderRef.
#[local] Open Scope Z_scope.

(** ** The code *)

(** What a reorder goes on to do: the work of the portable function, or its own. *)
Inductive bf16_work :=
  | Bf16Portable (w : reorder_work)
  | Bf16Tuned (w : reorder_work).

Section calls.
Context `{KernelFrame}.
Context (env : api_env) (f : cpu_features).

(** The checks of the reorder and the strides of the caller's matrix. *)
Definition bf16_reorder_prepare (x : reorder_args) : outcome (Z * Z) :=
  check (AOCL_DLP_REORDER_CHECK (ro_order x) (ro_trans x) (ro_mat_type x) (in_null x) (out_null x)
           (ro_k x) (ro_n x) (ro_ld x)).2 ;;
  let st := default (0, 0)
    (reorder_strides (ro_order x) (dlp_param_map_netlib_to_dlp_trans (ro_trans x)) (ro_ld x)) in
  fail_if (bool_decide (dlp_param_map_char_to_lpmat_type (ro_mat_type x) = A_MATRIX)) DLP_CLSC_NOT_SUPPORTED ;;
  mret st.


(** The context of the region; only the reorder needs the packing kernel. *)
Definition bf16_region_cntx (needs_kernel : bool) (n k cs_b : Z) (metadata : option api_metadata)
    : outcome dlp_gemm_cntx_t :=
  lcntx_g ← call_cntx env BF16BF16F32OF32 metadata;
  check (dlp_gemm_validate_hints (Some lcntx_g)) ;;
  let '(kernel_base, lcntx_g) :=
    dlp_init_and_get_packb_kernel_hndl DLP_KERNEL_BF16BF16F32OF32 n k cs_b lcntx_g in
  fail_if (needs_kernel && negb kernel_base) DLP_CLSC_INVALID_JIT_KERNEL ;;
  let lcntx_g := dlp_upd_pack_strides DLP_KERNEL_BF16BF16F32OF32 lcntx_g in
  check_metadata metadata lcntx_g ;;
  mret lcntx_g.

(** What both functions do behind their checks. *)
Definition bf16_tuned (needs_kernel : bool) (x : reorder_args) (metadata : option api_metadata) (rs_b cs_b : Z)
    (g : lib_state) (tl : tl_state) : outcome reorder_work * lib_state * tl_state :=
  if ro_n x =? 1 then (Value (ReorderColumn rs_b), g, tl)
  else
    let '(rntm_g, g, tl) := run (dlp_rntm_init_from_global (api_rt env)) g tl in
    (lcntx_g ← bf16_region_cntx needs_kernel (ro_n x) (ro_k x) cs_b metadata;
     mret (ReorderTiles lcntx_g rs_b cs_b (num_threads rntm_g)), g, tl).

(** The result of a call, which becomes part of another's. *)
Definition map_result {A B} (c : A -> B) (r : outcome A * lib_state * tl_state) : outcome B * lib_state * tl_state :=
  let '(o, g, tl) := r in (a ← o; mret (c a), g, tl).

Definition aocl_reorder_bf16bf16f32of32 (x : reorder_args) (metadata : option api_metadata)
    (g : lib_state) (tl : tl_state) : outcome bf16_work * lib_state * tl_state :=
  let reference := map_result Bf16Portable (aocl_reorder_bf16bf16f32of32_reference env x metadata g tl) in
  if negb (is_avx512bf16 f) then
    if negb (is_avx2fma3 f) then (Error DLP_CLSC_NOT_SUPPORTED, g, tl) else reference
  else
    match bf16_reorder_prepare x with
    | Undefined => (Undefined, g, tl)
    | Error e => (Error e, g, tl)
    | Value (rs_b, cs_b) =>
        if bool_decide (global_dlp_gemmenable_arch (env_config (api_decor env)) = DLP_ARCH_ZEN3) then reference
        else map_result Bf16Tuned (bf16_tuned true x metadata rs_b cs_b g tl)
    end.

End calls.

(** *** The work on the buffers *)





(** ** The calls *)







Section answers.
Context `{KernelFrame}.
Context (env : api_env) (metadata : option api_metadata).
Hypothesis Henv : blocks_ready env BF16BF16F32OF32 metadata.



End answers.

(** ** The work of the regions *)


Section work.
Context (x : reorder_args) (c : dlp_gemm_cntx_t) (rs cs nt : Z).
Hypothesis Hw : work_of bf16_type x (ReorderTiles c rs cs nt).
Hypothesis Hx : reorder_args_valid x.
Hypothesis Hu : unit_stride rs cs.

Local Abbreviation n := (ro_n x).
Local Abbreviation k := (ro_k x).
Local Abbreviation place := (place bf16_type n k (ReorderTiles c rs cs nt)).



End work.

(** ** The whole calls *)













(** ** Properties *)


(** Two columns of three, by rows of 5, packed and put back by columns of 4. *)
Definition bf16_cpu : cpu_features := mk_cpu DLP_ARCH_ZEN5 false true true true true true false.



(** Without the test of the blocks: with a [KC] of 3 the query and the portable function
    report an error, this one packs, and the panels overlap, so an element of a
    [6 x 16] matrix is lost. *)
Definition odd_KC : api_metadata :=
  mk_api_metadata (mk_metadata None None None None None 0 None None None None)
    (mk_blocking_md (Some (mk_blocking 0 0 0 0 3)) None None).

Definition odd_source : reorder_args := mk_reorder_args "r" "n" "b" false false 6 16 16.

Lemma bf16_odd_blocks_lose_elements :
  exists c nt g tl ls,
    aocl_get_reorder_buf_size_bf16bf16f32of32 example_api_env "r" "n" "b" 6 16 (Some odd_KC) = Error DLP_CLSC_INVALID_BLOCK_PARAMS /\
    (aocl_reorder_bf16bf16f32of32_reference example_api_env odd_source (Some odd_KC) lib_init tl_init).1.1 = Error DLP_CLSC_INVALID_BLOCK_PARAMS /\
    aocl_reorder_bf16bf16f32of32 example_api_env bf16_cpu odd_source (Some odd_KC) lib_init tl_init
      = (Value (Bf16Tuned (ReorderTiles c 16 1 nt)), g, tl) /\
    dlp_reorderb_nr64_bf16bf16f32of32 c 16 1 16 6 true (fun t => t) 1 = Some ls /\
    let P := (run_reorder 16 1 (Some dlp_packb_nr64_bf16bf16f32of32) (fun a => a) (fun _ => 9) (concat ls)).1 in
    run_unreorder 16 1 P (fun _ => 9) (concat ls) (2 * (2 * 16 + 8)) = 2 * (3 * 16).
Proof. do 5 eexists. do 4 (split; [vm_compute; reflexivity|]). vm_compute. reflexivity. Qed.
