(* ===== verification/ApiF32.v ===== *)
(** * The f32 GEMM entry point (classic/aocl_gemm_f32f32f32of32.c)

    Besides the steps it shares with the integer entry points, [aocl_gemm_f32f32f32of32]
    arranges the product before it launches it: transposing the operation, and
    storing C by columns, it avoids packing matrices; and a small product on one
    thread goes to a kernel of its own. *)
From S2P Require Import Prelude Word DlpTypes PostOpTypes PostOps Config Runtime GetThreading.
From S2P Require Import ThreadUtils ThreadDecor GemmCheck KernelSelect.
From Stdlib Require Import Ascii.
From stdpp Require Import strings.
From S2P Require Import Api.
#[local] Open Scope Z_scope.

(** ** Arranging the product *)

(** The transposed operation, [C' = B' A'], with tags given. *)
Definition transposed (d : driver_args) (mtag_a mtag_b : AOCL_DLP_MEMORY_TAG) : driver_args :=
  mk_driver_args (negb (swapped d)) (n_use d) (m_use d) (k_use d)
    (cs_b_use d) (rs_b_use d) (cs_a_use d) (rs_a_use d) (cs_c_use d) (rs_c_use d) mtag_a mtag_b.

Definition pack_if (c : bool) (mtag : AOCL_DLP_MEMORY_TAG) : AOCL_DLP_MEMORY_TAG :=
  if c then PACK else mtag.

Section arrange.
Context (x : gemm_args) (is_row_major trans_a trans_b : bool).
Context (rs_a cs_a rs_b cs_b rs_c cs_c : Z) (mtag_a mtag_b : AOCL_DLP_MEMORY_TAG).

(** The arguments as they are, and those of the row-major product that a column-major
    call is. *)
Definition plain_args (mtag_a mtag_b : AOCL_DLP_MEMORY_TAG) : driver_args :=
  mk_driver_args false (arg_m x) (arg_n x) (arg_k x) rs_a cs_a rs_b cs_b rs_c cs_c mtag_a mtag_b.
Definition swapped_args (mtag_a mtag_b : AOCL_DLP_MEMORY_TAG) : driver_args :=
  mk_driver_args true (arg_n x) (arg_m x) (arg_k x) rs_b cs_b rs_a cs_a rs_c cs_c mtag_b mtag_a.

(** The tags of a column-major call before the swap. *)
Definition column_tags : AOCL_DLP_MEMORY_TAG * AOCL_DLP_MEMORY_TAG :=
  (pack_if (trans_a && bool_decide (mtag_a = UNPACKED)) mtag_a, pack_if trans_b mtag_b).

(** A proper matrix product, and the storage order the post-ops are translated for;
    [scatter] holds when the kernels may store C by columns. *)
Definition arrange_gemm (scatter : bool) : driver_args * ascii :=
  if is_row_major then
    if negb (bool_decide (mtag_b = REORDERED)) then
      if scatter && trans_b && trans_a
      then (transposed (plain_args mtag_a mtag_b) mtag_b mtag_a, "c"%char)
      else (plain_args (pack_if trans_a mtag_a) (pack_if trans_b mtag_b), order x)
    else (plain_args (pack_if trans_a mtag_a) mtag_b, order x)
  else if scatter && trans_a && trans_b
  then (mk_driver_args false (arg_m x) (arg_n x) (arg_k x) cs_a rs_a cs_b rs_b cs_c rs_c mtag_a mtag_b,
        "r"%char)
  else let '(mtag_a, mtag_b) := column_tags in (swapped_args mtag_a mtag_b, order x).

(** A product with a vector; [disabled] holds when there is no post-op. *)
Definition arrange_gemv (disabled : bool) : driver_args :=
  let '(d, trans_a_tmp, trans_b_tmp) :=
    if is_row_major
    then (plain_args (pack_if trans_a mtag_a)
            (pack_if (negb (bool_decide (mtag_b = REORDERED)) && trans_b) mtag_b), trans_a, trans_b)
    else let '(mtag_a, mtag_b) := column_tags in (swapped_args mtag_a mtag_b, trans_b, trans_a) in
  if disabled then
    if (m_use d =? 1) && trans_b_tmp && negb (bool_decide (mtag_b_use d = REORDERED))
    then transposed d UNPACKED (mtag_a_use d)
    else if (n_use d =? 1) && trans_a_tmp && (rs_c_use d =? 1)
    then transposed d (mtag_b_use d) UNPACKED
    else d
  else d.
End arrange.

(** ** The entry point *)

(** [is_tiny_input_f32]; the products are [md_t], and nothing bounds the dimensions
    they are taken of. *)
Definition is_tiny_input_f32 (env : api_env) (m n k : Z) (lcntx : dlp_gemm_cntx_t) : bool :=
  if k =? 1 then true
  else
    let b := blksz lcntx in
    let mnk := md_mul env (md_mul env m n) k in
    let mk := md_mul env m k in
    let mnk_magic_num := 12 * 64 * 496 in
    let mk_thresh := 12000 in
    let m_thresh := md_mul env 5 (MR b) in
    let n_thresh := md_mul env 2 (NR b) in
    let k_thresh := 480 in
    ((k <? KC b) && (m <=? MC b) && (n <? NC b)) &&
    (((m <=? m_thresh) && (n <=? n_thresh) && (k <=? k_thresh)) ||
     ((mnk <? mnk_magic_num) && negb (m =? 1) && (mk <? mk_thresh))).

(** A tiny kernel on the calling thread ([dlp_gemm_rowvar_tiny_f32f32f32of32] and its
    like), or a team. *)
Inductive gemm_launch :=
  | TinyLaunch (d : driver_args) (lcntx : dlp_gemm_cntx_t)
  | TeamLaunch (L : api_launch).

Definition tiny_or_team (env : api_env) (sfx : gemm_sfx) (tiny : bool) (d : driver_args)
    (post_op_list : list dlp_gemm_post_op) (rntm_g : dlp_rntm_t) (lcntx : dlp_gemm_cntx_t)
    : outcome gemm_launch :=
  if tiny then mret (TinyLaunch d lcntx)
  else L ← decorate env sfx d post_op_list rntm_g lcntx; mret (TeamLaunch L).

Section entry.
Context `{KernelFrame}.
Context (env : api_env) (f : cpu_features).
Context (x : gemm_args) (metadata : option api_metadata) (garbage : list dlp_gemm_post_op).

Local Abbreviation is_row_major := (is_char (order x) "r" "R").
Local Abbreviation is_column_major := (is_char (order x) "c" "C").
Local Abbreviation mtag_a := (dlp_param_map_char_to_lpmtag (mem_format_a x)).
Local Abbreviation mtag_b := (dlp_param_map_char_to_lpmtag (mem_format_b x)).
Local Abbreviation trans_a := (dlp_is_trans (dlp_param_map_netlib_to_dlp_trans (transa x))).
Local Abbreviation trans_b := (dlp_is_trans (dlp_param_map_netlib_to_dlp_trans (transb x))).

(** What is checked before the runtime is resolved. *)
Definition f32_checks : outcome unit :=
  fail_if (negb (is_avx2fma3 f)) DLP_CLSC_NOT_SUPPORTED ;;
  check_args x ;;
  fail_if (is_row_major && bool_decide (mtag_a = REORDERED)) DLP_CLSC_NOT_SUPPORTED ;;
  fail_if (is_column_major && (bool_decide (mtag_b = REORDERED) || bool_decide (mtag_a = REORDERED)))
    DLP_CLSC_NOT_SUPPORTED.

(** The arranged arguments and the post-op list. *)
Definition f32_arrange : outcome (driver_args * list dlp_gemm_post_op) :=
  let '(rs_a, cs_a) := strides_of (dlp_param_map_netlib_to_dlp_trans (transa x)) (lda x) in
  let '(rs_b, cs_b) := strides_of (dlp_param_map_netlib_to_dlp_trans (transb x)) (ldb x) in
  let rs_c := ldc x in
  let cs_c := 1 in
  if negb ((arg_m x =? 1) || (arg_n x =? 1)) then
    let avx512_on_non_zen3 :=
      is_avx512 f &&
      negb (bool_decide (global_dlp_gemmenable_arch (env_config (api_decor env)) = DLP_ARCH_ZEN3)) in
    let has_valid_metadata :=
      from_option (fun md => negb (PostOpTypes.seq_length (am_ops md) =? 0)) false metadata in
    let '(d, order_use) := arrange_gemm x is_row_major trans_a trans_b rs_a cs_a rs_b cs_b rs_c cs_c
      mtag_a mtag_b (avx512_on_non_zen3 || negb has_valid_metadata) in
    post_op_list ← translate_post_ops_in order_use x metadata garbage;
    mret (d, post_op_list)
  else
    post_op_list ← translate_post_ops x metadata garbage;
    head ← or_undefined (post_op_list !! 0%nat);
    mret (arrange_gemv x is_row_major trans_a trans_b rs_a cs_a rs_b cs_b rs_c cs_c mtag_a mtag_b
            (bool_decide (op_code head = POST_OPS_DISABLE)), post_op_list).

(** From the resolved runtime on. *)
Definition f32_run (rntm_g : dlp_rntm_t) : outcome gemm_launch :=
  lcntx ← call_cntx env F32F32F32OF32 metadata;
  '(d, post_op_list) ← f32_arrange;
  '(lcntx, _) ← settle_kernels DLP_KERNEL_F32F32F32OF32 DLP_F32 x metadata true
    (mtag_a_use d) (mtag_b_use d) d post_op_list lcntx (mk_thread_info 0 0 0);
  tiny_or_team env f32f32f32of32
    (dlp_is_single_thread rntm_g && is_tiny_input_f32 env (m_use d) (n_use d) (k_use d) lcntx)
    d post_op_list rntm_g lcntx.

Definition aocl_gemm_f32f32f32of32 (g : lib_state) (tl : tl_state)
    : outcome gemm_launch * lib_state * tl_state :=
  match f32_checks with
  | Undefined => (Undefined, g, tl)
  | Error e => (Error e, g, tl)
  | Value _ =>
      let '(rntm_g, g, tl) := run (dlp_rntm_init_from_global (api_rt env)) g tl in
      (f32_run rntm_g, g, tl)
  end.
End entry.

(** ** The arranged product is the caller's *)

(** The strides address the elements of the caller's matrices. *)
Record driver_product (x : gemm_args) (d : driver_args) : Prop := mk_driver_product {
  dp_dims : (m_use d, n_use d) = (if swapped d then (arg_n x, arg_m x) else (arg_m x, arg_n x)) /\
    k_use d = arg_k x;
  dp_a : forall i p, rs_a_use d * i + cs_a_use d * p =
    if swapped d then element_index (order x) (transb x) (ldb x) p i
    else element_index (order x) (transa x) (lda x) i p;
  dp_b : forall p j, rs_b_use d * p + cs_b_use d * j =
    if swapped d then element_index (order x) (transa x) (lda x) j p
    else element_index (order x) (transb x) (ldb x) p j;
  dp_c : forall i j, rs_c_use d * i + cs_c_use d * j =
    if swapped d then element_index (order x) "n" (ldc x) j i
    else element_index (order x) "n" (ldc x) i j;
}.

Lemma transposed_product x d ta tb : driver_product x d -> driver_product x (transposed d ta tb).
Proof.
  intros [[Hd Hk] Ha Hb Hc]. split; cbn.
  - split; [|done]. destruct (swapped d); cbn in *; congruence.
  - intros i p. rewrite Z.add_comm, Hb. by destruct (swapped d).
  - intros p j. rewrite Z.add_comm, Ha. by destruct (swapped d).
  - intros i j. rewrite Z.add_comm, Hc. by destruct (swapped d).
Qed.

(** Tests on constant tags. *)
Ltac decide_tags :=
  repeat match goal with
  | |- context [bool_decide (?a = ?b)] =>
      let r := eval vm_compute in (bool_decide (a = b)) in
      match r with true => idtac | false => idtac end; change (bool_decide (a = b)) with r
  end.

(** Operands the 5-loop driver can read: an operand it does not pack has contiguous
    rows, and A is never a reordered matrix. *)
Definition proper_operands (d : driver_args) : Prop :=
  (mtag_a_use d = UNPACKED \/ mtag_a_use d = PACK) /\
  (mtag_a_use d <> PACK -> cs_a_use d = 1) /\ (mtag_b_use d = UNPACKED -> cs_b_use d = 1).

(** The operands of a product with a vector: the left one is not reordered, but may have
    any strides, and a column B is read by its row stride. *)
Definition vector_operands (d : driver_args) : Prop :=
  (mtag_a_use d = UNPACKED \/ mtag_a_use d = PACK) /\
  (n_use d <> 1 -> mtag_b_use d = UNPACKED -> cs_b_use d = 1).

(** By rows, a transposed A times a reordered column vector, C without gaps. *)
Definition reordered_vector (x : gemm_args) : Prop :=
  row_stored (order x) = true /\ arg_n x = 1 /\ notrans (transa x) = false /\
  asks_reordered (mem_format_b x) = true /\ ldc x = 1.

Section arranged.
Context (x : gemm_args) (rs_a cs_a rs_b cs_b : Z).
Hypothesis Hv : args_valid x.
Hypothesis Ea : strides_of (dlp_param_map_netlib_to_dlp_trans (transa x)) (lda x) = (rs_a, cs_a).
Hypothesis Eb : strides_of (dlp_param_map_netlib_to_dlp_trans (transb x)) (ldb x) = (rs_b, cs_b).

Local Abbreviation mtag_a := (dlp_param_map_char_to_lpmtag (mem_format_a x)).
Local Abbreviation mtag_b := (dlp_param_map_char_to_lpmtag (mem_format_b x)).
Local Abbreviation trans_a := (dlp_is_trans (dlp_param_map_netlib_to_dlp_trans (transa x))).
Local Abbreviation trans_b := (dlp_is_trans (dlp_param_map_netlib_to_dlp_trans (transb x))).
Local Abbreviation plain := (plain_args x rs_a cs_a rs_b cs_b (ldc x) 1).
Local Abbreviation swap := (swapped_args x rs_a cs_a rs_b cs_b (ldc x) 1).

Lemma plain_product ta tb : row_stored (order x) = true -> driver_product x (plain ta tb).
Proof using Hv Ea Eb.
  intros Er. destruct Hv as [(Ho & Hta & Htb & _) _ _ _].
  destruct (strides_index _ _ _ _ _ Ho Hta Ea) as [Ia _].
  destruct (strides_index _ _ _ _ _ Ho Htb Eb) as [Ib _].
  split; cbn; [done|intros; by rewrite Ia, Er|intros; by rewrite Ib, Er|].
  intros i j. unfold element_index. rewrite Er. change (notrans "n") with true. cbn. lia.
Qed.

Lemma swapped_product ta tb : row_stored (order x) = false -> driver_product x (swap ta tb).
Proof using Hv Ea Eb.
  intros Er. destruct Hv as [(Ho & Hta & Htb & _) _ _ _].
  destruct (strides_index _ _ _ _ _ Ho Hta Ea) as [Ia _].
  destruct (strides_index _ _ _ _ _ Ho Htb Eb) as [Ib _].
  split; cbn; [done|intros; by rewrite Ib, Er|intros; by rewrite Ia, Er|].
  intros i j. unfold element_index. rewrite Er. change (notrans "n") with true. cbn. lia.
Qed.

Lemma arrange_gemm_product scatter :
  driver_product x (arrange_gemm x (row_stored (order x)) trans_a trans_b rs_a cs_a rs_b cs_b (ldc x) 1
    mtag_a mtag_b scatter).1.
Proof using Hv Ea Eb.
  unfold arrange_gemm. destruct (row_stored (order x)) eqn:Er.
  - destruct (negb _); [|by apply plain_product].
    destruct (scatter && trans_b && trans_a); [|by apply plain_product].
    by apply transposed_product, plain_product.
  - destruct (scatter && trans_a && trans_b).
    + apply (transposed_product x (swap mtag_a mtag_b)), swapped_product. done.
    + by apply swapped_product.
Qed.

Lemma arrange_gemv_product disabled :
  driver_product x (arrange_gemv x (row_stored (order x)) trans_a trans_b rs_a cs_a rs_b cs_b (ldc x) 1
    mtag_a mtag_b disabled).
Proof using Hv Ea Eb.
  unfold arrange_gemv. destruct (row_stored (order x)) eqn:Er; cbn [column_tags];
    repeat case_match; try apply transposed_product;
    (by apply plain_product) || (by apply swapped_product).
Qed.

(** The tags [f32_checks] lets through. *)
Hypothesis Htags : mtag_a <> REORDERED /\ (row_stored (order x) = false -> mtag_b <> REORDERED).

Lemma arrange_gemm_operands scatter :
  proper_operands (arrange_gemm x (row_stored (order x)) trans_a trans_b rs_a cs_a rs_b cs_b (ldc x) 1
    mtag_a mtag_b scatter).1.
Proof using Htags Ea Eb.
  destruct Htags as [Ha Hb]. unfold strides_of in Ea, Eb. unfold arrange_gemm, column_tags, proper_operands.
  destruct trans_a, trans_b; simplify_eq; destruct (row_stored (order x)), scatter;
    destruct (lpmtag_cases (mem_format_a x)) as [->|[->|E]]; try by destruct (Ha E).
  all: destruct (lpmtag_cases (mem_format_b x)) as [->|[->|E]]; try by destruct (Hb eq_refl E).
  all: rewrite ?E; decide_tags; cbn; naive_solver.
Qed.

Lemma arrange_gemv_operands disabled :
  let d := arrange_gemv x (row_stored (order x)) trans_a trans_b rs_a cs_a rs_b cs_b (ldc x) 1
    mtag_a mtag_b disabled in
  vector_operands d \/
  mtag_a_use d = REORDERED /\ disabled = true /\ reordered_vector x.
Proof using Hv Htags Ea Eb.
  destruct Htags as [Ha Hb]. pose proof Hv as [(_ & Hta & _) _ _ _].
  unfold reordered_vector, asks_reordered. unfold strides_of in Ea, Eb.
  unfold arrange_gemv, column_tags, vector_operands. cbn zeta.
  destruct (trans_cases _ Hta) as [[-> Et]|[-> Et]]; rewrite Et in *; destruct trans_b; simplify_eq;
    destruct (row_stored (order x)), disabled;
    destruct (lpmtag_cases (mem_format_a x)) as [->|[->|E]]; try by destruct (Ha E).
  all: destruct (lpmtag_cases (mem_format_b x)) as [->|[->|E]]; try by destruct (Hb eq_refl E).
  all: rewrite ?E; decide_tags; cbn; decide_tags; destruct (Z.eqb_spec (arg_m x) 1), (Z.eqb_spec (arg_n x) 1), (Z.eqb_spec (ldc x) 1);
    decide_tags; cbn;
    (left; split; [auto; fail|intros; done || congruence]) || (right; repeat split; done).
Qed.
End arranged.

(** ** The call *)

Definition launch_args (l : gemm_launch) : driver_args :=
  match l with TinyLaunch d _ => d | TeamLaunch L => al_args L end.
Definition launch_cntx (l : gemm_launch) : dlp_gemm_cntx_t :=
  match l with TinyLaunch _ c => c | TeamLaunch L => al_cntx L end.

(** Arguments that are the caller's product in a form the drivers can read, up to the
    call on a reordered vector. *)
Record f32_arranged (x : gemm_args) (d : driver_args) : Prop := mk_f32_arranged {
  fa_product : driver_product x d;
  fa_proper : arg_m x <> 1 -> arg_n x <> 1 -> proper_operands d;
  fa_vector : arg_m x = 1 \/ arg_n x = 1 ->
    vector_operands d \/ mtag_a_use d = REORDERED /\ reordered_vector x;
}.

(** What is launched on arguments with the property [P]: a complete team, or a tiny
    kernel on a product within the blocks, which are positive. *)
Definition sound_with (P : driver_args -> Prop) (l : gemm_launch) : Prop :=
  let d := launch_args l in let b := blksz (launch_cntx l) in
  P d /\ blksz_pos b /\
  match l with
  | TinyLaunch _ _ => k_use d = 1 \/ m_use d <= MC b /\ n_use d < NC b /\ k_use d < KC b
  | TeamLaunch L => exists ic jc ta tb, team_launch ic jc ta tb (al_launch L)
  end.

Lemma tiny_or_team_answers env sfx tiny (P : driver_args -> Prop) d l r c :
  env_ok (api_decor env) -> P d -> 1 <= m_use d -> 1 <= n_use d -> blksz_pos (blksz c) ->
  (tiny = true -> k_use d = 1 \/
     m_use d <= MC (blksz c) /\ n_use d < NC (blksz c) /\ k_use d < KC (blksz c)) ->
  answers (sound_with P) (tiny_or_team env sfx tiny d l r c).
Proof.
  intros Henv HP Hm Hn Hb Ht. unfold tiny_or_team. destruct tiny.
  - split; [done|]. split; [done|]. by apply Ht.
  - eapply answers_bind; [by apply decorate_answers|].
    intros L (Ea & Ec & ic & jc & ta & tb & Hteam & _). unfold sound_with. cbn.
    rewrite Ea, Ec. eauto 10.
Qed.

(** The dimensions of a product of the caller are positive. *)
Lemma product_positive x d :
  args_valid x -> driver_product x d -> 1 <= m_use d /\ 1 <= n_use d.
Proof.
  intros Hv [[Hd _] _ _ _]. destruct (gv_dims _ _ _ _ _ _ _ _ _ _ _ _ _ _ Hv) as ([] & [] & _).
  destruct (swapped d); simplify_eq; lia.
Qed.

Lemma tiny_bounds env m n k c :
  is_tiny_input_f32 env m n k c = true ->
  k = 1 \/ m <= MC (blksz c) /\ n < NC (blksz c) /\ k < KC (blksz c).
Proof.
  unfold is_tiny_input_f32. destruct (Z.eqb_spec k 1); [by left|]. intros Ht. right.
  rewrite !andb_true_iff, !Z.leb_le, !Z.ltb_lt in Ht. tauto.
Qed.

Section sound.
Context `{KernelFrameLaws}.
Context (env : api_env) (f : cpu_features).
Context (x : gemm_args) (metadata : option api_metadata) (garbage : list dlp_gemm_post_op).

Lemma f32_checks_answers :
  answers (fun _ => args_valid x /\ dlp_param_map_char_to_lpmtag (mem_format_a x) <> REORDERED /\
    (row_stored (order x) = false -> dlp_param_map_char_to_lpmtag (mem_format_b x) <> REORDERED))
    (f32_checks f x).
Proof using.
  unfold f32_checks. apply answers_fail_if; [done|intros _]. apply check_args_answers. intros Hv.
  apply answers_fail_if; [done|]. fold (row_stored (order x)) (col_stored (order x)). intros Ha.
  destruct (order_cases _ (proj1 (gv_chars _ _ _ _ _ _ _ _ _ _ _ _ _ _ Hv))) as [[Er Ec]|[Er Ec]];
    rewrite Er, Ec in *; cbn [andb] in *.
  - cbn. apply bool_decide_eq_false in Ha. by split.
  - destruct (bool_decide _ || bool_decide _) eqn:E; [done|].
    apply orb_false_iff in E as [E1%bool_decide_eq_false E2%bool_decide_eq_false]. by split.
Qed.

Lemma f32_arrange_answers :
  args_valid x -> dlp_param_map_char_to_lpmtag (mem_format_a x) <> REORDERED ->
  (row_stored (order x) = false -> dlp_param_map_char_to_lpmtag (mem_format_b x) <> REORDERED) ->
  length garbage = 8%nat -> metadata_ok metadata ->
  answers (fun p => f32_arranged x p.1) (f32_arrange env f x metadata garbage).
Proof using.
  intros Hv Ha Hb Hg Hm. unfold f32_arrange. fold (row_stored (order x)).
  destruct (strides_of (dlp_param_map_netlib_to_dlp_trans (transa x)) (lda x)) as [rs_a cs_a] eqn:Ea.
  destruct (strides_of (dlp_param_map_netlib_to_dlp_trans (transb x)) (ldb x)) as [rs_b cs_b] eqn:Eb.
  destruct ((arg_m x =? 1) || (arg_n x =? 1)) eqn:Ed; cbn [negb].
  - eapply answers_bind; [by apply translate_answers|]. intros l Hl.
    destruct (lookup_lt_is_Some_2 l 0 ltac:(cbn in Hl; lia)) as [h Eh].
    apply (answers_or_undefined _ h); [done|]. cbn.
    rewrite orb_true_iff, !Z.eqb_eq in Ed. split; [by apply arrange_gemv_product|lia|].
    intros _. edestruct arrange_gemv_operands as [?|(? & _ & ?)]; eauto.
  - match goal with |- context [arrange_gemm ?a ?b ?c ?d ?e ?g ?h ?i ?j ?k ?m ?n ?s] =>
      pose proof (arrange_gemm_product x rs_a cs_a rs_b cs_b Hv Ea Eb s) as Hp;
      pose proof (arrange_gemm_operands x rs_a cs_a rs_b cs_b Ea Eb (conj Ha Hb) s) as Ho;
      destruct (arrange_gemm a b c d e g h i j k m n s) as [dr order_use] end.
    eapply answers_bind; [by apply translate_answers|]. intros l Hl. cbn in *.
    apply orb_false_iff in Ed as [?%Z.eqb_neq ?%Z.eqb_neq]. split; [done|done|lia].
Qed.

Lemma f32_run_answers r :
  args_valid x -> dlp_param_map_char_to_lpmtag (mem_format_a x) <> REORDERED ->
  (row_stored (order x) = false -> dlp_param_map_char_to_lpmtag (mem_format_b x) <> REORDERED) ->
  length garbage = 8%nat -> metadata_ok metadata -> env_ready env F32F32F32OF32 ->
  answers (sound_with (f32_arranged x)) (f32_run env f x metadata garbage r).
Proof using H0.
  intros Hv Ha Hb Hg Hmd Henv.
  unfold f32_run. eapply answers_bind; [by apply call_cntx_answers|]. intros c Hc.
  eapply answers_bind; [by apply f32_arrange_answers|]. intros [d l] Hd. cbn [fst] in Hd.
  destruct (product_positive x d Hv (fa_product _ _ Hd)).
  eapply answers_bind; [by apply settle_answers|]. intros [c2 ti] [Hc2 _].
  apply tiny_or_team_answers; try done; [apply Henv|]. intros [_ Ht]%andb_prop. by eapply tiny_bounds.
Qed.
End sound.

(** ** Properties *)

(** C15. No call of the f32 entry point is undefined, whatever its arguments, post-ops
    and threading: it reports an error other than success, or launches arguments whose
    strides address exactly the caller's product, however it was transposed, on positive
    blocks, either by one complete team, or by the tiny kernel on a product that fits the
    blocks.  With more than one row and more than one column the unpacked operands are
    stored by contiguous rows.  With one row or one column the left operand of the driver
    is unpacked, with any strides, or to be packed, and an unpacked right operand of more
    than one column is stored by contiguous rows ([vector_operands]); excepted is the
    call of [reordered_vector], whose left operand may be a reordered one, which
    a theorem of its own describes.  The product [m * n * k] of the test for small products
    is undefined in C when it overflows; here it has any value then ([md_mul]).
    Block sizes of the caller are taken not to overflow [md_t] ([merge_in_range]). *)
Theorem f32_call_sound `{KernelFrameLaws} (env : api_env) (f : cpu_features) (x : gemm_args)
    (metadata : option api_metadata) (garbage : list dlp_gemm_post_op) (g : lib_state) (tl : tl_state) :
  env_ready env F32F32F32OF32 -> length garbage = 8%nat -> metadata_ok metadata ->
  answers (sound_with (f32_arranged x)) (aocl_gemm_f32f32f32of32 env f x metadata garbage g tl).1.1.
Proof.
  intros Henv Hg Hm. unfold aocl_gemm_f32f32f32of32.
  pose proof (f32_checks_answers f x) as Hc. destruct (f32_checks f x) as [|e|u]; [done|done|].
  destruct Hc as (Hv & Ha & Hb).
  destruct (run (dlp_rntm_init_from_global (api_rt env)) g tl) as [[r g'] tl'].
  by apply f32_run_answers.
Qed.

Lemma f32_call_sound_witness :
  let x := mk_gemm_args "r" "t" "t" 300 70 5000 1 false 300 "n" false 5000 "n" 1 false 75 in
  let f := mk_cpu DLP_ARCH_ZEN5 false true true true true true false in
  exists L g' tl',
    aocl_gemm_f32f32f32of32 example_api_env f x None example_garbage lib_init tl_init
      = (Value (TeamLaunch L), g', tl') /\ swapped (al_args L) = true /\ sound_with (f32_arranged x) (TeamLaunch L).
Proof.
  intros x f. assert (env_ready example_api_env F32F32F32OF32) as Henv.
  { split; [exact example_env_ok|]. eexists. split; [vm_compute; reflexivity|by split]. }
  pose proof (f32_call_sound example_api_env f x None example_garbage lib_init tl_init Henv eq_refl
    example_no_metadata) as Hs.
  destruct (aocl_gemm_f32f32f32of32 example_api_env f x None example_garbage lib_init tl_init)
    as [[o g'] tl'] eqn:E.
  assert (exists L, o = Value (TeamLaunch L) /\ swapped (al_args L) = true) as (L & -> & Hsw).
  { change o with (o, g', tl').1.1. rewrite <- E. eexists. split; vm_compute; reflexivity. }
  exists L, g', tl'. split; [reflexivity|]. split; [exact Hsw|exact Hs].
Defined.

(** C36. By rows, a transposed A times a reordered column vector, without post-ops and
    with C without gaps, is launched with the vector as the left operand, read with the
    leading dimension of the matrix it was reordered from.  A reordered column is
    [k] contiguous elements, so with [ldb > 1] the driver reads past it. *)
Theorem f32_reordered_vector_misread (env : api_env) (f : cpu_features) (x : gemm_args)
    (garbage : list dlp_gemm_post_op) :
  length garbage = 8%nat -> args_valid x -> reordered_vector x -> notrans (transb x) = true ->
  exists d l, f32_arrange env f x None garbage = Value (d, l) /\
    swapped d = true /\ mtag_a_use d = REORDERED /\ m_use d = 1 /\ k_use d = arg_k x /\
    (forall p, rs_a_use d * 0 + cs_a_use d * p = ldb x * p) /\
    (1 < ldb x -> 1 < arg_k x -> exists p, 0 <= p < arg_k x /\ arg_k x <= cs_a_use d * p).
Proof.
  intros Hg Hv (Er & En & Eta & Eb & Ec) Etb. pose proof Hv as [(_ & Hta & Htb & _) _ _ _].
  destruct (trans_cases _ Hta) as [[? _]|[_ Ea]]; [congruence|].
  destruct (trans_cases _ Htb) as [[_ Eb']|[? _]]; [|congruence].
  apply bool_decide_eq_true in Eb.
  unfold f32_arrange. fold (row_stored (order x)).
  unfold strides_of. rewrite Ea, Eb', Er, Eb, En, Ec, orb_true_r. cbn [negb].
  destruct garbage as [|h garbage]; [done|].
  cbn. rewrite En. decide_tags. rewrite andb_false_r. cbn. eexists _, _. split; [reflexivity|].
  rewrite bool_decide_eq_true_2 by done. cbn. repeat (split; [done || lia|]).
  intros Hld Hk. exists (arg_k x - 1). nia.
Qed.

Lemma f32_reordered_vector_misread_witness :
  let x := mk_gemm_args "r" "t" "n" 4 1 3 1 false 4 "n" false 5 "r" 0 false 1 in
  let f := mk_cpu DLP_ARCH_ZEN5 false true true true true true false in
  exists d l, f32_arrange example_api_env f x None example_garbage = Value (d, l) /\
    mtag_a_use d = REORDERED /\ exists p, 0 <= p < 3 /\ 3 <= cs_a_use d * p.
Proof.
  intros x f.
  assert (args_valid x) as Hv by (apply gemm_check_spec; vm_compute; reflexivity).
  destruct (f32_reordered_vector_misread example_api_env f x example_garbage) as (d & l & E & _ & Et & _ & _ & _ & Hp);
    [reflexivity|exact Hv|repeat split|reflexivity|].
  exists d, l. split; [exact E|]. split; [exact Et|]. apply Hp; reflexivity.
Defined.
