(* ===== verification/ApiHalf.v ===== *)
(** * The 16-bit GEMM entry points
    (classic/aocl_gemm_f16f16f16of16.c, aocl_gemm_f16f16f16of32.c,
    aocl_gemm_f32f16f32of32.c, aocl_gemm_bf16bf16f32of32.c, aocl_gemm_bf16bf16f32obf16.c)

    They share the steps of [Api] and the tiny path of [ApiF32]; each has its own rules
    on tags, and the bf16 ones fall back on the f32 kernels and transpose products with
    a row vector. *)
From S2P Require Import Prelude Word DlpTypes PostOpTypes PostOps Config Runtime GetThreading.
From S2P Require Import ThreadUtils ThreadDecor GemmCheck KernelSelect.
From Stdlib Require Import Ascii.
From stdpp Require Import strings.
From S2P Require Import Api ApiF32.
#[local] Open Scope Z_scope.

(** What these entry points ask of the processor, besides [cpu_features]. *)
Record half_env := mk_half_env {
  half_api : api_env;
  half_cpu : cpu_features;
  is_avx512fp16 : bool;
  is_avx512bf16_configured : bool;
  zen4_kernels : bool;  (* DLP_KERNELS_ZEN4 *)
}.

(** ** Tags *)

Definition reordered (mtag : AOCL_DLP_MEMORY_TAG) : bool := bool_decide (mtag = REORDERED).
Definition unpacked (mtag : AOCL_DLP_MEMORY_TAG) : bool := bool_decide (mtag = UNPACKED).

Section tags.
Context (is_row_major is_column_major trans_a trans_b : bool) (mtag_a mtag_b : AOCL_DLP_MEMORY_TAG).

Definition check_reordered : outcome unit :=
  fail_if (is_row_major && reordered mtag_a) DLP_CLSC_NOT_SUPPORTED ;;
  fail_if (is_column_major && (reordered mtag_b || reordered mtag_a)) DLP_CLSC_NOT_SUPPORTED.

Definition f16f16f16_tags : outcome (AOCL_DLP_MEMORY_TAG * AOCL_DLP_MEMORY_TAG) :=
  check_reordered ;;
  let mtag_b := pack_if (is_row_major && trans_b && negb (reordered mtag_b)) mtag_b in
  let mtag_a := pack_if (is_row_major && trans_a) mtag_a in
  let mtag_b := pack_if (is_column_major && trans_b) mtag_b in
  let mtag_a := pack_if (is_column_major && trans_a && negb (reordered mtag_a)) mtag_a in
  mret (pack_if (is_column_major && unpacked mtag_a) mtag_a, mtag_b).

Definition bf16bf16f32_tags : outcome (AOCL_DLP_MEMORY_TAG * AOCL_DLP_MEMORY_TAG) :=
  check_reordered ;;
  let '(mtag_a, mtag_b) :=
    if is_row_major && unpacked mtag_b then (mtag_a, PACK)
    else if is_column_major && unpacked mtag_a then (PACK, mtag_b) else (mtag_a, mtag_b) in
  mret (if is_row_major && trans_a then (PACK, mtag_b)
        else if is_column_major && trans_b then (mtag_a, PACK) else (mtag_a, mtag_b)).

Definition f32f16f32_tags : outcome (AOCL_DLP_MEMORY_TAG * AOCL_DLP_MEMORY_TAG) :=
  fail_if is_column_major DLP_CLSC_NOT_SUPPORTED ;;
  fail_if (reordered mtag_a || bool_decide (mtag_a = PACK)) DLP_CLSC_NOT_SUPPORTED ;;
  fail_if trans_a DLP_CLSC_NOT_SUPPORTED ;;
  mret (mtag_a, pack_if (trans_b && negb (reordered mtag_b)) mtag_b).
End tags.

(** ** Small products *)

Definition is_tiny_input_f32f16 (env : api_env) (m n k : Z) (lcntx : dlp_gemm_cntx_t) : bool :=
  if k =? 1 then true
  else
    let b := blksz lcntx in
    let mnk := md_mul env (md_mul env m n) k in
    let mk := md_mul env m k in
    ((k <? KC b) && (m <=? MC b) && (n <? NC b)) &&
    (((m <=? md_mul env 6 (MR b)) && (n <=? md_mul env 2 (NR b)) && (k <=? 960)) ||
     ((mnk <? 12 * 64 * 960) && negb (m =? 1) && (mk <? 12000))).

(** The two thresholds that differ are parameters. *)
Definition is_tiny_input_bf16 (n_factor mnk_magic_num : Z) (env : api_env) (m n k : Z)
    (lcntx : dlp_gemm_cntx_t) : bool :=
  let b := blksz lcntx in
  let mnk := md_mul env (md_mul env m n) k in
  (m <=? MC b) && (n <? NC b) && (k <? KC b) &&
  ((m <=? md_mul env 6 (MR b)) && (n <=? md_mul env n_factor (NR b)) && (k <=? 1024) && (mnk <? mnk_magic_num)).

Definition is_tiny_input_bf16of32 := is_tiny_input_bf16 2 (36 * 128 * 128).
Definition is_tiny_input_bf16obf16 := is_tiny_input_bf16 6 (36 * 128 * 256).

(** ** The entry points *)

Section entries.
Context `{KernelFrame}.
Context (he : half_env).
Context (x : gemm_args) (metadata : option api_metadata) (garbage : list dlp_gemm_post_op).

Local Abbreviation env := (half_api he).
Local Abbreviation f := (half_cpu he).
Local Abbreviation is_row_major := (is_char (order x) "r" "R").
Local Abbreviation is_column_major := (is_char (order x) "c" "C").
Local Abbreviation trans_a := (dlp_is_trans (dlp_param_map_netlib_to_dlp_trans (transa x))).
Local Abbreviation trans_b := (dlp_is_trans (dlp_param_map_netlib_to_dlp_trans (transb x))).

(** The product in row-major terms. *)
Definition row_major_args (mtag_a mtag_b : AOCL_DLP_MEMORY_TAG) : driver_args :=
  let '(rs_a, cs_a) := strides_of (dlp_param_map_netlib_to_dlp_trans (transa x)) (lda x) in
  let '(rs_b, cs_b) := strides_of (dlp_param_map_netlib_to_dlp_trans (transb x)) (ldb x) in
  if is_column_major then swapped_args x rs_a cs_a rs_b cs_b (ldc x) 1 mtag_a mtag_b
  else plain_args x rs_a cs_a rs_b cs_b (ldc x) 1 mtag_a mtag_b.

(** A prepared call runs once the runtime is resolved. *)
Definition with_runtime (prepare : outcome (driver_args * list dlp_gemm_post_op))
    (run_gemm : driver_args -> list dlp_gemm_post_op -> dlp_rntm_t -> outcome gemm_launch)
    (g : lib_state) (tl : tl_state) : outcome gemm_launch * lib_state * tl_state :=
  match prepare with
  | Undefined => (Undefined, g, tl)
  | Error e => (Error e, g, tl)
  | Value (d, post_op_list) =>
      let '(rntm_g, g, tl) := run (dlp_rntm_init_from_global (api_rt env)) g tl in
      (run_gemm d post_op_list rntm_g, g, tl)
  end.

Definition global_cntx (op : AOCL_DLP_OPERATION_TYPE) : outcome dlp_gemm_cntx_t :=
  or_undefined (dlp_gemm_get_global_cntx_obj (env_config (api_decor env)) (op_index op)).

(** The kernel of a call that packs by itself: the context, with [err] when there is none. *)
Definition settle_kernel (k_dtype : kernel_datatype_t) (c_downscale : DLP_TYPE) (err : dlp_clsc_err_t)
    (d : driver_args) (post_op_list : list dlp_gemm_post_op) (lcntx : dlp_gemm_cntx_t)
    : outcome dlp_gemm_cntx_t :=
  let '(kernel_base, lcntx, _) :=
    dlp_init_and_get_kernel_hndl k_dtype (mtag_a_use d) (mtag_b_use d) (m_use d) (n_use d) (k_use d)
      (rs_a_use d) (cs_a_use d) (rs_b_use d) (cs_b_use d) (rs_c_use d) (cs_c_use d)
      (arg_alpha x) (arg_beta x) post_op_list lcntx (mk_thread_info 0 0 0) c_downscale in
  fail_if (negb kernel_base) err ;; mret lcntx.

(** *** f16 x f16 *)

Definition f16f16f16_prepare : outcome (driver_args * list dlp_gemm_post_op) :=
  fail_if (negb (is_avx512fp16 he)) DLP_CLSC_NOT_SUPPORTED ;;
  check_args x ;;
  fail_if (from_option (fun md => bool_decide (is_Some (a_quant_op (am_ops md))) ||
                                  bool_decide (is_Some (b_quant_op (am_ops md)))) false metadata)
    DLP_CLSC_NOT_SUPPORTED ;;
  '(mtag_a, mtag_b) ← f16f16f16_tags is_row_major is_column_major trans_a trans_b
    (dlp_param_map_char_to_lpmtag (mem_format_a x)) (dlp_param_map_char_to_lpmtag (mem_format_b x));
  post_op_list ← translate_post_ops x metadata garbage;
  mret (row_major_args mtag_a mtag_b, post_op_list).

Definition aocl_gemm_f16f16f16of16 : lib_state -> tl_state -> outcome gemm_launch * lib_state * tl_state :=
  with_runtime f16f16f16_prepare (fun d post_op_list rntm_g =>
    lcntx ← global_cntx F16F16F16OF16;
    lcntx ← settle_kernel DLP_KERNEL_F16F16F16OF16 DLP_F16 DLP_CLSC_NOT_SUPPORTED d post_op_list lcntx;
    L ← decorate env f16f16f16of16 d post_op_list rntm_g lcntx; mret (TeamLaunch L)).

(** A build with OpenMP takes the parallel decorator here on one thread as well. *)
Definition aocl_gemm_f16f16f16of32 : lib_state -> tl_state -> outcome gemm_launch * lib_state * tl_state :=
  with_runtime f16f16f16_prepare (fun d post_op_list rntm_g =>
    lcntx ← global_cntx F16F16F16OF16;
    lcntx ← settle_kernel DLP_KERNEL_F16F16F16OF32 DLP_F32 DLP_CLSC_NOT_SUPPORTED d post_op_list lcntx;
    let decorator := if openmp env then dlp_gemm_openmp_thread_decorator (api_decor env) f16f16f16of16
                     else dlp_gemm_thread_decorator (api_decor env) f16f16f16of16 in
    l ← or_undefined (decorator (m_use d) (n_use d) (k_use d) (mtag_a_use d) (mtag_b_use d) rntm_g lcntx
                        (Some (mk_ops (Some post_op_list))));
    mret (TeamLaunch (mk_api_launch d lcntx l))).

(** *** f32 x f16 *)

Definition f32f16f32_prepare : outcome (driver_args * list dlp_gemm_post_op) :=
  fail_if (negb (is_avx512 f)) DLP_CLSC_NOT_SUPPORTED ;;
  check_args x ;;
  '(mtag_a, mtag_b) ← f32f16f32_tags is_column_major trans_a trans_b
    (dlp_param_map_char_to_lpmtag (mem_format_a x)) (dlp_param_map_char_to_lpmtag (mem_format_b x));
  post_op_list ← translate_post_ops x metadata garbage;
  mret (row_major_args mtag_a mtag_b, post_op_list).

Definition aocl_gemm_f32f16f32of32 : lib_state -> tl_state -> outcome gemm_launch * lib_state * tl_state :=
  with_runtime f32f16f32_prepare (fun d post_op_list rntm_g =>
    lcntx ← global_cntx F32F16F32OF32;
    lcntx ← settle_kernel DLP_KERNEL_F32F16F32OF32 DLP_F32 DLP_CLSC_INVALID_JIT_KERNEL d post_op_list lcntx;
    tiny_or_team env f32f16f32of32
      (dlp_is_single_thread rntm_g && is_tiny_input_f32f16 env (m_use d) (n_use d) (k_use d) lcntx)
      d post_op_list rntm_g lcntx).

(** *** bf16 x bf16 *)

(** A row vector times a transposed B becomes B times a column. *)
Definition bf16_transpose_vector (d : driver_args) (head : dlp_gemm_post_op) : driver_args :=
  let trans_b_use := if is_column_major then trans_a else trans_b in
  if ((m_use d =? 1) && (256 <=? k_use d) && trans_b_use && negb (reordered (mtag_b_use d))) &&
     bool_decide (op_code head = POST_OPS_DISABLE)
  then transposed d UNPACKED PACK else d.

(** The node array has room for the GLU. *)
Definition bf16bf16f32_prepare : outcome (driver_args * list dlp_gemm_post_op) :=
  fail_if (negb (is_avx2fma3 f)) DLP_CLSC_NOT_SUPPORTED ;;
  check_args x ;;
  '(mtag_a, mtag_b) ← bf16bf16f32_tags is_row_major is_column_major trans_a trans_b
    (dlp_param_map_char_to_lpmtag (mem_format_a x)) (dlp_param_map_char_to_lpmtag (mem_format_b x));
  '(err, post_op_list) ← or_undefined
    (translate_bf16_ops (am_ops <$> metadata) garbage (order x) (arg_m x) (arg_n x));
  check err ;;
  head ← or_undefined (post_op_list !! 0%nat);
  mret (bf16_transpose_vector (row_major_args mtag_a mtag_b) head, post_op_list).

(** The context, and the tag of B the kernel is generated for: without native bf16
    the f32 kernels take over. *)
Definition bf16_cntx (d : driver_args) (post_op_list : list dlp_gemm_post_op)
    : outcome (dlp_gemm_cntx_t * AOCL_DLP_MEMORY_TAG) :=
  lcntx ← (if is_avx512bf16 f then call_cntx env BF16BF16F32OF32 metadata
           else global_cntx BF16BF16F32OF32);
  let arch_id := dlp_get_arch f in
  if negb (is_avx512bf16 f) || bool_decide (arch_id = DLP_ARCH_ZEN3)
     || bool_decide (arch_id = DLP_ARCH_ZEN2) || bool_decide (arch_id = DLP_ARCH_ZEN)
  then
    fail_if (dlp_gemm_post_op_list_has_shape_changing_glu (post_op_list !! 0%nat)) DLP_CLSC_NOT_SUPPORTED ;;
    lcntx_f32 ← global_cntx F32F32F32OF32;
    let b := blksz lcntx in
    let b := mk_blksz (MC b) (NC b) (KC (blksz lcntx_f32)) (NR (blksz lcntx_f32)) (MR (blksz lcntx_f32)) in
    mret (set_blksz b (blksz_set_mask lcntx) lcntx, if m_use d =? 1 then UNPACKED else mtag_b_use d)
  else mret (lcntx, mtag_b_use d).

Definition bf16_run (k_dtype : kernel_datatype_t) (c_downscale : DLP_TYPE)
    (is_tiny : Z -> Z -> Z -> dlp_gemm_cntx_t -> bool)
    (d : driver_args) (post_op_list : list dlp_gemm_post_op) (rntm_g : dlp_rntm_t) : outcome gemm_launch :=
  '(lcntx, jit_mtag_b) ← bf16_cntx d post_op_list;
  check (dlp_gemm_validate_hints_with_call (Some lcntx) jit_mtag_b
    (num_threads rntm_g) (ic_ways rntm_g) (jc_ways rntm_g)) ;;
  '(lcntx, ti) ← settle_kernels k_dtype c_downscale x metadata (is_avx512bf16_configured he)
    (mtag_a_use d) jit_mtag_b d post_op_list lcntx
    (mk_thread_info (num_threads rntm_g) (ic_ways rntm_g) (jc_ways rntm_g));
  let rntm_g := with_ways rntm_g ti in
  let arch_id := dlp_get_arch f in
  let tiny := zen4_kernels he &&
    (bool_decide (arch_id = DLP_ARCH_ZEN4) || bool_decide (arch_id = DLP_ARCH_ZEN5)
     || bool_decide (arch_id = DLP_ARCH_ZEN6)) &&
    is_avx512bf16 f && is_tiny (m_use d) (n_use d) (k_use d) lcntx &&
    dlp_is_single_thread rntm_g && is_row_major in
  tiny_or_team env bf16bf16f32of32 tiny d post_op_list rntm_g lcntx.

Definition aocl_gemm_bf16bf16f32of32 : lib_state -> tl_state -> outcome gemm_launch * lib_state * tl_state :=
  with_runtime bf16bf16f32_prepare (bf16_run DLP_KERNEL_BF16BF16F32OF32 DLP_F32 (is_tiny_input_bf16of32 env)).

Definition aocl_gemm_bf16bf16f32obf16 : lib_state -> tl_state -> outcome gemm_launch * lib_state * tl_state :=
  with_runtime bf16bf16f32_prepare (bf16_run DLP_KERNEL_BF16BF16F32OBF16 DLP_BF16 (is_tiny_input_bf16obf16 env)).
End entries.

(** ** The tags suit the operands *)

(** In row-major terms, A is packed or has contiguous rows, and so has an unpacked B. *)
Definition operand_tags (row trans_a trans_b : bool) (ta tb : AOCL_DLP_MEMORY_TAG) : Prop :=
  let '(ta, tb, trans_a, trans_b) :=
    if row then (ta, tb, trans_a, trans_b) else (tb, ta, trans_b, trans_a) in
  (ta = UNPACKED /\ trans_a = false \/ ta = PACK) /\ (tb = UNPACKED -> trans_b = false).

Ltac tag_cases :=
  intros [->|[->| ->]] [->|[->| ->]];
  repeat match goal with b : bool |- _ => destruct b end; vm_compute; naive_solver.

Lemma f16_tags_answers (row trans_a trans_b : bool) ta tb :
  (ta = UNPACKED \/ ta = PACK \/ ta = REORDERED) -> (tb = UNPACKED \/ tb = PACK \/ tb = REORDERED) ->
  answers (fun '(ta, tb) => operand_tags row trans_a trans_b ta tb)
    (f16f16f16_tags row (negb row) trans_a trans_b ta tb).
Proof. tag_cases. Qed.

Lemma bf16_tags_answers (row trans_a trans_b : bool) ta tb :
  (ta = UNPACKED \/ ta = PACK \/ ta = REORDERED) -> (tb = UNPACKED \/ tb = PACK \/ tb = REORDERED) ->
  answers (fun '(ta, tb) => operand_tags row trans_a trans_b ta tb)
    (bf16bf16f32_tags row (negb row) trans_a trans_b ta tb).
Proof. tag_cases. Qed.

Lemma f32f16_tags_answers (row trans_a trans_b : bool) ta tb :
  (ta = UNPACKED \/ ta = PACK \/ ta = REORDERED) -> (tb = UNPACKED \/ tb = PACK \/ tb = REORDERED) ->
  answers (fun '(ta, tb) => operand_tags row trans_a trans_b ta tb)
    (f32f16f32_tags (negb row) trans_a trans_b ta tb).
Proof. tag_cases. Qed.

Lemma row_major_args_ok x ta tb :
  args_valid x ->
  operand_tags (row_stored (order x)) (dlp_is_trans (dlp_param_map_netlib_to_dlp_trans (transa x)))
    (dlp_is_trans (dlp_param_map_netlib_to_dlp_trans (transb x))) ta tb ->
  driver_product x (row_major_args x ta tb) /\ proper_operands (row_major_args x ta tb).
Proof.
  intros Hv Ht. unfold row_major_args. fold (col_stored (order x)).
  destruct (strides_of (dlp_param_map_netlib_to_dlp_trans (transa x)) (lda x)) as [rs_a cs_a] eqn:Ea.
  destruct (strides_of (dlp_param_map_netlib_to_dlp_trans (transb x)) (ldb x)) as [rs_b cs_b] eqn:Eb.
  assert ((dlp_is_trans (dlp_param_map_netlib_to_dlp_trans (transa x)) = false -> cs_a = 1) /\
          (dlp_is_trans (dlp_param_map_netlib_to_dlp_trans (transb x)) = false -> cs_b = 1)) as [Ca Cb].
  { unfold strides_of in Ea, Eb. split; intros E; rewrite E in *; by simplify_eq. }
  destruct (order_cases _ (proj1 (gv_chars _ _ _ _ _ _ _ _ _ _ _ _ _ _ Hv))) as [[Er Ec]|[Er Ec]];
    rewrite Er in Ht; rewrite Ec; destruct Ht as [Hta Htb]; split.
  - by apply plain_product.
  - unfold proper_operands. cbn. naive_solver.
  - by apply swapped_product.
  - unfold proper_operands. cbn. naive_solver.
Qed.

(** ** The calls *)

Definition half_prepared (x : gemm_args) (p : driver_args * list dlp_gemm_post_op) : Prop :=
  args_valid x /\ driver_product x p.1 /\ proper_operands p.1.

(** The operands of a product that the driver can read. *)
Definition half_sound (x : gemm_args) : gemm_launch -> Prop :=
  sound_with (fun d => driver_product x d /\ proper_operands d).

(** The initialised contexts these entry points look up. *)
Definition half_ready (he : half_env) : Prop :=
  env_ready (half_api he) F16F16F16OF16 /\ env_ready (half_api he) F32F16F32OF32 /\
  env_ready (half_api he) BF16BF16F32OF32 /\ env_ready (half_api he) F32F32F32OF32.

Lemma with_runtime_answers `{KernelFrame} he (P : driver_args * list dlp_gemm_post_op -> Prop) Q prepare rg g tl :
  answers P prepare -> (forall d l r, P (d, l) -> answers Q (rg d l r)) ->
  answers Q (with_runtime he prepare rg g tl).1.1.
Proof.
  unfold with_runtime. destruct prepare as [|e|[d l]]; [done|done|]. intros HP Hr.
  destruct (run _ g tl) as [[r g'] tl']. by apply Hr.
Qed.

Section calls.
Context `{KernelFrameLaws}.
Context (he : half_env) (x : gemm_args) (metadata : option api_metadata).
Hypothesis Hready : half_ready he.
Hypothesis Hmd : metadata_ok metadata.

Lemma global_cntx_answers op :
  env_ready (half_api he) op -> answers (fun c => blksz_pos (blksz c)) (global_cntx he op).
Proof using. intros [_ (c & E & Hb)]. unfold global_cntx. by rewrite E. Qed.

Lemma settle_kernel_answers k_dtype c_downscale err d l c :
  err <> DLP_CLSC_SUCCESS -> blksz_pos (blksz c) ->
  answers (fun c => blksz_pos (blksz c)) (settle_kernel x k_dtype c_downscale err d l c).
Proof using H0.
  intros He Hb. unfold settle_kernel.
  destruct (dlp_init_and_get_kernel_hndl _ _ _ _ _ _ _ _ _ _ _ _ _ _ _ _ _ _) as [[base c2] ti] eqn:Ek.
  apply answers_fail_if; [done|]. intros ->%negb_false_iff.
  apply (kernel_blocks _ _ _ _ _ _ _ _ _ _ _ _ _ _ _ _ _ _ _ _ Hb Ek).
Qed.

Lemma f16_prepare_answers garbage :
  length garbage = 8%nat -> answers (half_prepared x) (f16f16f16_prepare he x metadata garbage).
Proof using Hmd.
  intros Hg. unfold f16f16f16_prepare. apply answers_fail_if; [done|intros _].
  apply check_args_answers. intros Hv. apply answers_fail_if; [done|intros _].
  fold (row_stored (order x)) (col_stored (order x)).
  rewrite (col_not_row _ (proj1 (gv_chars _ _ _ _ _ _ _ _ _ _ _ _ _ _ Hv))).
  eapply answers_bind; [apply f16_tags_answers; apply lpmtag_cases|]. intros [ta tb] Ht.
  eapply answers_bind; [by apply translate_answers|]. intros l Hl. split; [done|]. by apply row_major_args_ok.
Qed.

Lemma f32f16_prepare_answers garbage :
  length garbage = 8%nat -> answers (half_prepared x) (f32f16f32_prepare he x metadata garbage).
Proof using Hmd.
  intros Hg. unfold f32f16f32_prepare. apply answers_fail_if; [done|intros _].
  apply check_args_answers. intros Hv. fold (col_stored (order x)).
  rewrite (col_not_row _ (proj1 (gv_chars _ _ _ _ _ _ _ _ _ _ _ _ _ _ Hv))).
  eapply answers_bind; [apply f32f16_tags_answers; apply lpmtag_cases|]. intros [ta tb] Ht.
  eapply answers_bind; [by apply translate_answers|]. intros l Hl. split; [done|]. by apply row_major_args_ok.
Qed.
End calls.

Section bf16.
Context `{KernelFrameLaws}.
Context (he : half_env) (x : gemm_args) (metadata : option api_metadata).
Hypothesis Hready : half_ready he.
Hypothesis Hmd : metadata_ok metadata.

Lemma transposed_b_rows ta tb :
  (if col_stored (order x) then dlp_is_trans (dlp_param_map_netlib_to_dlp_trans (transa x))
   else dlp_is_trans (dlp_param_map_netlib_to_dlp_trans (transb x))) = true ->
  rs_b_use (row_major_args x ta tb) = 1.
Proof using.
  unfold row_major_args, strides_of. fold (col_stored (order x)).
  by destruct (col_stored (order x)), (dlp_is_trans (dlp_param_map_netlib_to_dlp_trans (transa x))),
    (dlp_is_trans (dlp_param_map_netlib_to_dlp_trans (transb x))).
Qed.

Lemma bf16_prepare_answers garbage :
  length garbage = 9%nat -> answers (half_prepared x) (bf16bf16f32_prepare he x metadata garbage).
Proof using Hmd.
  intros Hg. unfold bf16bf16f32_prepare. apply answers_fail_if; [done|intros _].
  apply check_args_answers. intros Hv. fold (row_stored (order x)) (col_stored (order x)).
  rewrite (col_not_row _ (proj1 (gv_chars _ _ _ _ _ _ _ _ _ _ _ _ _ _ Hv))).
  eapply answers_bind; [apply bf16_tags_answers; apply lpmtag_cases|]. intros [ta tb] Ht.
  destruct (translate_bf16_total (am_ops <$> metadata) garbage (order x) (arg_m x) (arg_n x) Hg Hmd)
    as (err & l & E & Hl).
  apply (answers_or_undefined _ (err, l)); [done|]. apply answers_check. intros _.
  destruct (lookup_lt_is_Some_2 l 0 ltac:(lia)) as [h Eh]. apply (answers_or_undefined _ h); [done|].
  destruct (row_major_args_ok x ta tb Hv Ht) as [Hp Ho]. split; [done|]. cbn [fst].
  unfold bf16_transpose_vector. fold (col_stored (order x)).
  destruct (_ && bool_decide (op_code h = POST_OPS_DISABLE)) eqn:Ec; [|done].
  split; [by apply transposed_product|]. apply andb_prop in Ec as [[[_ Et]%andb_prop _]%andb_prop _].
  unfold proper_operands. cbn. rewrite transposed_b_rows by done. naive_solver.
Qed.

Lemma bf16_cntx_answers d l :
  answers (fun '(c, _) => blksz_pos (blksz c)) (bf16_cntx he metadata d l).
Proof using Hready.
  destruct Hready as (_ & _ & Hb & Hf). unfold bf16_cntx.
  apply (answers_bind (fun c => blksz_pos (blksz c))).
  { destruct (is_avx512bf16 (half_cpu he)); [by apply call_cntx_answers|by apply global_cntx_answers]. }
  intros c Hc. destruct (_ || _); [|done]. apply answers_fail_if; [done|intros _].
  eapply answers_bind; [by apply global_cntx_answers|]. intros c32 [] . by destruct Hc.
Qed.

Lemma tiny_bf16_bounds nf magic env m n k c :
  is_tiny_input_bf16 nf magic env m n k c = true ->
  m <= MC (blksz c) /\ n < NC (blksz c) /\ k < KC (blksz c).
Proof using.
  unfold is_tiny_input_bf16. rewrite !andb_true_iff, !Z.leb_le, !Z.ltb_lt. tauto.
Qed.

Lemma bf16_run_answers k_dtype c_downscale nf magic env d l r :
  half_prepared x (d, l) ->
  answers (half_sound x) (bf16_run he x metadata k_dtype c_downscale (is_tiny_input_bf16 nf magic env) d l r).
Proof using H0 Hready.
  intros (Hv & Hp & Ho). destruct (product_positive x d Hv Hp). unfold bf16_run.
  eapply answers_bind; [apply bf16_cntx_answers|]. intros [c jit] Hc. apply answers_check. intros _.
  eapply answers_bind; [by apply settle_answers|]. intros [c2 ti] [Hc2 _].
  apply tiny_or_team_answers; try done; [apply Hready|].
  rewrite !andb_true_iff. intros (((_ & Ht) & _) & _). right. by eapply tiny_bf16_bounds in Ht.
Qed.

(** The calls, one by one. *)
Lemma tiny_f32f16_bounds env m n k c :
  is_tiny_input_f32f16 env m n k c = true ->
  k = 1 \/ m <= MC (blksz c) /\ n < NC (blksz c) /\ k < KC (blksz c).
Proof using.
  unfold is_tiny_input_f32f16. destruct (Z.eqb_spec k 1); [by left|]. intros Ht. right.
  rewrite !andb_true_iff, !Z.leb_le, !Z.ltb_lt in Ht. tauto.
Qed.

Lemma f16_call_answers garbage g tl :
  length garbage = 8%nat ->
  answers (half_sound x) (aocl_gemm_f16f16f16of16 he x metadata garbage g tl).1.1 /\
  answers (half_sound x) (aocl_gemm_f16f16f16of32 he x metadata garbage g tl).1.1.
Proof using H0 Hready Hmd.
  intros Hg. destruct Hready as (Hf16 & _). pose proof (er_env _ _ Hf16) as Henv.
  split; (eapply with_runtime_answers; [by apply f16_prepare_answers|]);
    intros d l r (Hv & Hp & Ho); destruct (product_positive x d Hv Hp);
    (eapply answers_bind; [by apply global_cntx_answers|]); intros c Hc;
    (eapply answers_bind; [by apply settle_kernel_answers|]); intros c2 Hc2.
  - by apply (tiny_or_team_answers (half_api he) f16f16f16of16 false).
  - destruct (decorator_team (half_api he) f16f16f16of16 (openmp (half_api he)) (m_use d) (n_use d) (k_use d)
      (mtag_a_use d) (mtag_b_use d) r c2 (Some (mk_ops (Some l)))) as (L & ic & jc & ta & tb & E & Ht & _);
      try done.
    apply (answers_or_undefined _ L); [done|]. split; [done|]. split; [done|]. cbn. eauto 10.
Qed.

Lemma f32f16_call_answers garbage g tl :
  length garbage = 8%nat ->
  answers (half_sound x) (aocl_gemm_f32f16f32of32 he x metadata garbage g tl).1.1.
Proof using H0 Hready Hmd.
  intros Hg. destruct Hready as (_ & Hf & _). pose proof (er_env _ _ Hf) as Henv.
  eapply with_runtime_answers; [by apply f32f16_prepare_answers|].
  intros d l r (Hv & Hp & Ho). destruct (product_positive x d Hv Hp).
  eapply answers_bind; [by apply global_cntx_answers|]. intros c Hc.
  eapply answers_bind; [by apply settle_kernel_answers|]. intros c2 Hc2.
  apply tiny_or_team_answers; try done. intros [_ Ht]%andb_prop. by eapply tiny_f32f16_bounds.
Qed.
End bf16.

(** ** Properties *)

(** C16. No call of a 16-bit entry point (f16 x f16 to f16 or f32, f32 x f16, bf16 x bf16
    to f32 or bf16) is undefined: each reports an error other than success, or launches
    arguments whose strides address exactly the caller's product, with every operand
    that is not packed stored by contiguous rows, positive blocks, and a complete team
    or a tiny kernel within the blocks.  It holds through the fallback of bf16 on the
    f32 kernels and the transposition of products with a vector.  An overflowing product
    [m * n * k] of the tests for small products has any value ([md_mul]).
    Block sizes of the caller are taken not to overflow [md_t] ([merge_in_range]). *)
Theorem half_calls_sound `{KernelFrameLaws} (he : half_env) (x : gemm_args)
    (metadata : option api_metadata) (garbage garbage_glu : list dlp_gemm_post_op)
    (g : lib_state) (tl : tl_state) :
  half_ready he -> metadata_ok metadata -> length garbage = 8%nat -> length garbage_glu = 9%nat ->
  forall call, call ∈ [aocl_gemm_f16f16f16of16 he x metadata garbage;
                       aocl_gemm_f16f16f16of32 he x metadata garbage;
                       aocl_gemm_f32f16f32of32 he x metadata garbage;
                       aocl_gemm_bf16bf16f32of32 he x metadata garbage_glu;
                       aocl_gemm_bf16bf16f32obf16 he x metadata garbage_glu] ->
    answers (half_sound x) (call g tl).1.1.
Proof.
  intros Hready Hmd Hg Hg9 call Hcall.
  destruct (f16_call_answers he x metadata Hready Hmd garbage g tl Hg).
  set_unfold in Hcall. destruct_or! Hcall; subst; try done.
  - by apply f32f16_call_answers.
  - eapply with_runtime_answers; [by apply bf16_prepare_answers|]. intros. by apply bf16_run_answers.
  - eapply with_runtime_answers; [by apply bf16_prepare_answers|]. intros. by apply bf16_run_answers.
Qed.

Definition example_half_env : half_env :=
  mk_half_env example_api_env (mk_cpu DLP_ARCH_ZEN5 false true true true true true false) true true true.

Lemma example_half_ready : half_ready example_half_env.
Proof.
  repeat split; (exact example_env_ok || (eexists; split; [vm_compute; reflexivity|by split])).
Defined.

(** A row vector times a transposed B: the driver sees B times a column. *)
Lemma half_calls_sound_witness :
  let x := mk_gemm_args "r" "n" "t" 1 300 400 1 false 400 "n" false 400 "n" 1 false 300 in
  exists L g' tl',
    aocl_gemm_bf16bf16f32of32 example_half_env x None (replicate 9 disable_node) lib_init tl_init
      = (Value L, g', tl') /\ n_use (launch_args L) = 1 /\ half_sound x L.
Proof.
  intros x. pose proof (half_calls_sound example_half_env x None example_garbage (replicate 9 disable_node)
    lib_init tl_init example_half_ready example_no_metadata eq_refl eq_refl
    (aocl_gemm_bf16bf16f32of32 example_half_env x None (replicate 9 disable_node))
    ltac:(do 3 right; left)) as Hs.
  destruct (aocl_gemm_bf16bf16f32of32 example_half_env x None (replicate 9 disable_node) lib_init tl_init)
    as [[o g'] tl'] eqn:E.
  assert (exists L, o = Value L /\ n_use (launch_args L) = 1) as (L & -> & Hn).
  { change o with (o, g', tl').1.1. rewrite <- E. eexists. split; vm_compute; reflexivity. }
  exists L, g', tl'. split; [reflexivity|]. split; [exact Hn|exact Hs].
Defined.
